(* ===== verification/_CoqProject ===== *)
-Q . S2P
Prelude.v
GoStrings.v
GoText.v
Duration.v
Flags.v
GoOS.v
Diff.v
DiffReport.v
DiffExamples.v
Rewrite.v
Net.v
Ingest.v
Otlp.v
Spans.v
Source.v
Graph.v
Locate.v
Replay.v
Impact.v
Analyze.v
Investigate.v
Plan.v
Validate.v
Jobs.v
JobStore.v
JobSteps.v
JobPg.v
Evidence.v
Markdown.v
Runs.v
Api.v
Worker.v
Examples.v
ImpactExamples.v
JobPgExamples.v
ApiExamples.v
GitRev.v
Load.v
Snapshot.v
Materialize.v
Pair.v
Workload.v
WorkloadExamples.v
Cli.v
Config.v
CliPrint.v
Experiment.v
Remote.v
Server.v
Shop.v
WorkerExamples.v
Commands.v
Exec.v
Fault.v
Main.v
GitExamples.v
ExperimentExamples.v
