(* ===== verification/Prelude.v ===== *)
(** * Aquila: a verification development

    Aquila decides whether a change of a service is safe to ship. It reads a
    diff, finds the functions and observed routes the diff touches, plans
    experiments on a baseline and a candidate build, runs them (on environments it
    builds itself, or as a job whose tasks are leased to workers) and gives a
    decision that says either that the change is validated or which rules stand
    against it. A server collects spans, jobs and evidence; a command line program
    drives everything. This library models the program, in the language of the Go
    sources under [src/], and proves what makes it correct.

    ** Parts of the program and where they are modelled

    Go itself:
    - [Prelude.v] (this file): results of fallible functions, the tactics
      [go_inv], [go_cases] and [pick_or], 64-bit integers, counting and summing
      over lists, and sorting with the comparators that Go's [less] functions
      amount to.
    - [GoStrings.v], [GoText.v], [GoOS.v]: the parts of Go's standard library
      the sources use. Strings are byte strings with [strings] functions;
      [path.Clean], [strconv.Atoi], [utf8.Valid] and [bufio.Scanner]; a file
      tree with directories and symbolic links and the operations of [os].
    - [Duration.v], [Flags.v]: [time.ParseDuration] with its float64 arithmetic,
      [strconv.ParseInt] and [Quote], and [flag.FlagSet].

    Reading a change:
    - [Diff.v], [DiffReport.v]: [diff/parse.go] and [diff/apply.go]. [Parse] and
      [collectApply] are loops over lines whose variables are the records
      [pstate] and [cstate]; [applyToLines] puts hunks into a file and [Apply]
      changes a tree. [DiffReport.v] prints diffs the way git does.
    - [Rewrite.v]: [rewrite], the known rewrites of the shop as diffs.
    - [GitRev.v], [Snapshot.v], [Materialize.v]: [gitrev]: the git commands that
      take a snapshot of a module, what they leave behind, and writing a tree to
      disk.

    Observations:
    - [Ingest.v], [Otlp.v], [Spans.v]: [ingest]: spans, trace windows and
      attaches, the normalizing of an OTLP export, the two span stores.
    - [Source.v], [Load.v]: [source]: the graph of a Go module, building it from
      what the type checker knows, snapshot files.
    - [Graph.v], [Locate.v]: [graph] and [locate]: what a batch of spans shows of
      services and entry routes, and joining spans to functions.

    From a change to a decision:
    - [Impact.v], [Analyze.v]: [impact]: changed functions, their callers and
      the routes they serve, the classification of paths, scoring.
    - [Investigate.v]: [investigate/search.go], the facts that answer a question.
    - [Net.v]: [netguard/netguard.go], which addresses experiment traffic may
      reach.
    - [Replay.v], [Workload.v]: [replay]: workloads from traces and from files,
      replaying them, comparing two replays, latency, bursts; float64 is the IEEE
      model of the standard library's [SpecFloat].
    - [Plan.v], [Fault.v]: [plan] and [fault]: the experiment DAG and its
      execution in a [World] (gateway answers, goroutine order, test output), the
      injecting proxy.
    - [Validate.v]: [validate/decide.go], the policy.
    - [Evidence.v], [Markdown.v], [Runs.v]: [evidence] and [runs]: artifacts,
      their check and their report, the two stores of runs.

    Jobs and workers:
    - [Jobs.v]: jobs, the task state machine, deadlines, leases, quotas,
      scheduling, wire formats. [JobStore.v]: the [Store] interface as a class,
      [jobs/memory.go] as its instance, [jobs/reaper.go] over any store, and the
      transition system of the store: one [step] per call, since every method
      holds the mutex from start to end. [JobSteps.v]: what one call may do to a
      task. [JobPg.v]: [jobs/postgres.go].
    - [Worker.v], [Remote.v]: [worker], [action], [cas] and [cli/worker.go]: one
      leased task from the lease to the commit, in the process and over gRPC.

    Programs:
    - [Pair.v]: [pair]: environments built from two revisions, run with compose.
    - [Api.v], [Config.v], [Server.v]: [api], [config], [observability], [storage],
      [cmd/server], [cmd/sourceindex]: the handlers over any stores, the
      configuration, the counters, the start of the process.
    - [Cli.v], [CliPrint.v], [Experiment.v], [Commands.v], [Main.v]: [cli] and
      [cmd/aquila]: the commands as computations over a [Sys] (repository, files,
      docker, control plane, output) with a [Host] that answers, what they print,
      [aquila experiment], the other commands, dispatch and deadlines.
    - [Exec.v]: [sandbox], [nexec] and the argument side of the executor
      ([executor/src/main.cpp]).
    - [Shop.v]: the services of [examples/shop] with failing statements and calls.

    [Examples.v], [DiffExamples.v], [ImpactExamples.v], [JobPgExamples.v],
    [ApiExamples.v], [WorkloadExamples.v], [WorkerExamples.v], [GitExamples.v] and
    [ExperimentExamples.v] hold instances of the classes and concrete inputs on
    which the theorems apply.

    ** What is shown

    - Policy: [Decide] implements a declarative policy exactly
      ([Decide_validated_iff]); its list of blockers is that of an inductive
      rule set ([Decide_reports]); composed with [Execute], a validated change ran
      against healthy gateways whose replays agree ([Decide_Execute_validated]);
      composed with the command, it was earned by builds that Aquila made itself
      ([experiment_validated]); a run that the server shows as validated was
      checked ([shown_validated_is_earned], [Check_iff]).
    - Evidence: the results, verdict and exact meaning of an execution; when two
      replays match, up to volatile JSON fields ([Compare_verdicts]); percentiles;
      safe workloads from traces and files ([ReadFile_safe]); coverage of routes;
      what an answer to a question cites; what a report hides.
    - Jobs: settling tasks terminates in a fixed point, scheduling picks the least
      loaded service and oldest job; a call of the store takes every task at most one
      step of the abstract task [task_step], and its fence counts its leases
      ([step_refines]); in every reachable state quotas, slots, exclusive
      gateways and task dependencies hold, finished tasks stay as they are, and no
      job is reported validated; the Postgres store refines the in-memory one on
      open jobs ([pg_refines_memory]); a round of a remote worker commits nothing
      but the outcome of its execution over any store that keeps its promises, also
      when calls or answers are lost ([RemoteOnce_commits]).
    - Diffs: applying hunks is exactly the declarative relation [patched] and can
      be undone; the diff that is analyzed is the one that is applied; nothing
      outside the reported files and the root changes; no added or removed line is
      lost between the diff and the functions ([new_lines_bound]); a diff printed
      the way git prints it is read back ([git_diff_roundtrip]); an offered rewrite
      applies exactly when the defect begins a line ([candidate_applies]).
    - Builds: a snapshot leaves no trace; materializing is confined and exact;
      preparing a pair leaves nothing outside of its place, and in it a whole pair or
      nothing ([Prepare_all_or_nothing]); whatever command runs and however it
      ends, nothing is left running ([aquila_stops]).
    - Observations: normalized spans are well formed and sanitized text is clean;
      the two span stores show the same windows; the nodes and edges of the loaded
      graph, end lines included, are those of what the type checker knows
      ([Load_graph]); routes are attributed to functions exactly when a span of the
      function ran below that entry route ([Analyze_routes]).
    - Programs: no answer without the token shows or changes anything; the flags of
      [aquila run] reach [aquila experiment]; deadlines are bounded; a server only
      starts with a checked configuration; the counters count; the proxy and the
      executor do only what they are given; a checkout of the shop is all or
      nothing ([checkout_all_or_nothing]) and charged at most once.

    Lemmas on concrete inputs show where the code does not do what it means to.

    ** Conventions

    A Go function that returns an error is a function into [result]; commands are
    computations in the monads [GM] (git) and [CM] (command line). Loops are
    structural recursions or folds. Fuel is used where the recursion is not
    structural, always with a lemma that it is enough: [settle] (one pass per task,
    [settle_complete]), [climb] and [walkPaths] (one step per span, [climb_total],
    [walkPaths_fuel]), [strip_ansi], [expand], [replace_all] and [parse_parts] (one
    round per byte, lemmas [..._fuel] and [strip_ansi_fuel_enough]), [find_up] and
    [look_up] (one step per directory), hexadecimal numbers (sixteen digits of a
    64-bit number, [hex_go_val]) and symbolic links (forty, as in Linux). Polling a
    gateway without end has no result. An [int] or [int64] is a [Z]; [int64] wraps a
    result around where it can leave the range. A [time.Time] is the number of
    nanoseconds since Go's zero time. A Go map is a [gmap], or the list of its
    entries where the order of a range could matter; theorems then hold for every
    order. The clock, random numbers, the context's error and everything the network
    answers are arguments. [ToLower] and [ToUpper] change ASCII letters only. The
    step relation of the job store assumes that the random identifier of a new job
    is fresh in its first twelve digits and that a plan has at most 65536 steps;
    [taskID_identifies] is why.

    Code that is not part of the repository is a class, with the laws that the
    theorems use as separate classes or hypotheses: [net/url] and [netip] ([GoNet],
    [UrlLaws]), SHA-256 ([GoSHA]), JSON ([GoJSON], [EvidenceJSON], [ActionJSON],
    [PairJSON], [WorkloadJSON], [CliJSON], [CommandJSON], [SnapshotJSON],
    [ResultJSON]), gzip and path escapes ([ApiCodec]), protobuf ([GoOTLP]), YAML
    ([GoYAML]), git ([GoGit], [GitBatch], [GitLaws]), docker ([GoDocker],
    [DockerLaws]), HTTP ([GoHTTP]) and the Go type checker ([GoPackages]).
    Interfaces between parts are classes too: [Store], [LeaseStore], [SpanStore],
    [RunStore] with [RunLaws].

    ** Not modelled

    Sockets, TLS and HTTP framing; gRPC beyond the delivery of a call; SQL beyond
    the statements the stores run, and isolation weaker than one statement or
    transaction at a time; file permissions other than the executable bit and I/O
    errors of the operating system; the texts of errors that come from the operating
    system; logging and tracing; the float64 averages of [impact.Aggregate]; [fork],
    resource limits and waiting in the executor; the start-up code, the gateway proxy
    and the probes of the shop. These are glue to libraries that are not part of
    the repository, or have no state of their own. *)

From stdpp Require Export prelude gmap strings list sorting numbers pretty.
From Stdlib Require Export Lia.

#[export] Set Default Goal Selector "!".

(** ** Results of fallible Go functions

    A Go function returning [(T, error)] is a function into [result E T]. *)

Inductive result (E A : Type) : Type :=
| Ok (a : A)
| Err (e : E).
Arguments Ok {E A} a.
Arguments Err {E A} e.

Definition rbind {E A B} (r : result E A) (k : A → result E B) : result E B :=
  match r with
  | Ok a => k a
  | Err e => Err e
  end.

Definition guard_err {E} (bad : bool) (e : E) : result E () :=
  if bad then Err e else Ok tt.

Definition is_ok {E A} (r : result E A) : bool :=
  match r with Ok _ => true | Err _ => false end.

Declare Scope go_scope.
Delimit Scope go_scope with go.
Notation "'let?' x ':=' r 'in' k" := (rbind r (λ x, k))
  (at level 10, x binder, r at level 100, k at level 200,
   format "'[v' 'let?'  x  ':='  r  'in' '/' k ']'") : go_scope.
Notation "'check?' r 'in' k" := (rbind r (λ _ : unit, k))
  (at level 10, r at level 100, k at level 200) : go_scope.

(** Equality tests of Go, [a == b], as booleans. *)
Notation "a == b" := (bool_decide (a = b)) (at level 70, no associativity) : go_scope.
Notation "a != b" := (negb (bool_decide (a = b))) (at level 70, no associativity) : go_scope.
#[export] Set Warnings "-notation-overridden".
Open Scope go_scope.

(** ** Tactics *)

(** Turns the boolean and monadic hypotheses a Go function leaves behind into
    propositions, without case splits. *)
Ltac go_inv_step :=
  match goal with
  | H : rbind ?r _ = Ok _ |- _ => destruct r eqn:?; simpl in H; [|discriminate H]
  | H : guard_err ?b _ = Ok _ |- _ =>
      let E := fresh "Hg" in
      unfold guard_err in H; destruct b eqn:E; [discriminate H|]; clear H
  | H : andb _ _ = true |- _ => apply andb_true_iff in H as [? ?]
  | H : orb _ _ = false |- _ => apply orb_false_iff in H as [? ?]
  | H : negb _ = true |- _ => apply negb_true_iff in H
  | H : negb _ = false |- _ => apply negb_false_iff in H
  | H : bool_decide _ = true |- _ => apply bool_decide_eq_true in H
  | H : bool_decide _ = false |- _ => apply bool_decide_eq_false in H
  | H : (_ =? _)%Z = true |- _ => apply Z.eqb_eq in H
  | H : (_ =? _)%Z = false |- _ => apply Z.eqb_neq in H
  | H : (_ <? _)%Z = true |- _ => apply Z.ltb_lt in H
  | H : (_ <? _)%Z = false |- _ => apply Z.ltb_ge in H
  | H : (_ <=? _)%Z = true |- _ => apply Z.leb_le in H
  | H : (_ <=? _)%Z = false |- _ => apply Z.leb_gt in H
  end.
Ltac go_inv := repeat (go_inv_step; simplify_eq/=).

(** The same, with case splits on the remaining tests. *)
Ltac go_step :=
  first
    [ go_inv_step
    | match goal with
      | |- context [bool_decide ?P] => case_bool_decide
      | H : context [bool_decide ?P] |- _ => case_bool_decide
      end ].
Ltac go_cases := repeat (go_step; simplify_eq/=).

(** Proves a disjunction of existentially quantified conjunctions by trying the
    disjuncts in turn. *)
Ltac pick_or :=
  lazymatch goal with
  | |- _ ∨ _ => first [assumption | left; pick_or | right; pick_or]
  | |- ∃ _, _ => eexists; pick_or
  | |- _ ∧ _ => split; [pick_or | pick_or]
  | |- _ => first [eassumption | reflexivity]
  end.

(** Hint databases: [go] holds the lemmas that close routine goals about the
    library code, [go_simpl] the unconditional rewrites. *)
Create HintDb go.
Create HintDb go_simpl.

(** The results of [f] on a list, or its first error. *)
Fixpoint rmap_list {E A B} (f : A → result E B) (l : list A) : result E (list B) :=
  match l with
  | [] => Ok []
  | x :: l' => rbind (f x) (λ y, rbind (rmap_list f l') (λ k, Ok (y :: k)))
  end.

Lemma guard_err_ok {E} (b : bool) (e : E) u : guard_err b e = Ok u ↔ b = false.
Proof. destruct b, u; naive_solver. Qed.

Lemma rbind_ok {E A B} (r : result E A) (k : A → result E B) b :
  rbind r k = Ok b ↔ ∃ a, r = Ok a ∧ k a = Ok b.
Proof. destruct r; naive_solver. Qed.

Lemma rmap_list_ok {E A B} (f : A → result E B) l k :
  rmap_list f l = Ok k ↔ Forall2 (λ x y, f x = Ok y) l k.
Proof.
  revert k. induction l as [|x l IH]; intros k; cbn [rmap_list].
  - split; [intros [= <-]; constructor|]. by intros ->%Forall2_nil_inv_l.
  - split.
    + intros (y & Hy & Hk)%rbind_ok. apply rbind_ok in Hk as (k' & Hk' & [= <-]).
      constructor; [done|]. by apply IH.
    + intros (y & k' & Hy & Hk' & ->)%Forall2_cons_inv_l. apply IH in Hk'. by rewrite Hy, Hk'.
Qed.

Lemma existsb_True {A} (f : A → bool) l :
  existsb f l = true ↔ ∃ x, x ∈ l ∧ f x = true.
Proof. rewrite existsb_exists. by setoid_rewrite list_elem_of_In. Qed.

Lemma forallb_True {A} (f : A → bool) l :
  forallb f l = true ↔ ∀ x, x ∈ l → f x = true.
Proof. rewrite forallb_forall. by setoid_rewrite list_elem_of_In. Qed.

Lemma forallb_False {A} (f : A → bool) l :
  forallb f l = false ↔ ∃ x, x ∈ l ∧ f x = false.
Proof.
  induction l as [|x l IH]; simpl.
  - split; [done|]. by intros (x & []%not_elem_of_nil & _).
  - rewrite andb_false_iff, IH. setoid_rewrite elem_of_cons. naive_solver.
Qed.

Lemma existsb_False {A} (f : A → bool) l :
  existsb f l = false ↔ ∀ x, x ∈ l → f x = false.
Proof.
  rewrite <- not_true_iff_false, existsb_True. split.
  - intros H x Hx. apply not_true_iff_false. naive_solver.
  - intros H (x & Hx & Hf). rewrite (H x Hx) in Hf. done.
Qed.

(** ** Machine integers

    Go's [int] and [int64] are 64 bits wide on every platform the program is
    built for; arithmetic wraps around. *)

Definition int64 (z : Z) : Z := (z + 2 ^ 63) `mod` 2 ^ 64 - 2 ^ 63.

Definition in_int64 (z : Z) : Prop := (- 2 ^ 63 ≤ z < 2 ^ 63)%Z.

Lemma int64_id z : in_int64 z → int64 z = z.
Proof. unfold in_int64, int64. intros ?. rewrite Z.mod_small; lia. Qed.

Lemma int64_range z : in_int64 (int64 z).
Proof.
  unfold in_int64, int64. pose proof (Z.mod_pos_bound (z + 2 ^ 63) (2 ^ 64)). lia.
Qed.

(** ** Counting elements of a list *)

Definition count {A} (f : A → bool) (l : list A) : Z :=
  foldr (λ x n, (if f x then 1 else 0) + n)%Z 0%Z l.

Section count.
Context {A : Type}.
Implicit Types (f g : A → bool) (l : list A).

Lemma count_nil f : count f (@nil A) = 0%Z.
Proof. done. Qed.

Lemma count_cons f x l : count f (x :: l) = ((if f x then 1 else 0) + count f l)%Z.
Proof. done. Qed.

Lemma count_nonneg f l : (0 ≤ count f l)%Z.
Proof. induction l as [|x l IH]; simpl; [lia|]. destruct (f x); lia. Qed.

Lemma count_app f l k : count f (l ++ k) = (count f l + count f k)%Z.
Proof. induction l as [|x l IH]; simpl; [lia|]. rewrite IH. lia. Qed.

Lemma count_le f g l :
  (∀ x, x ∈ l → f x = true → g x = true) → (count f l ≤ count g l)%Z.
Proof.
  induction l as [|x l IH]; simpl; intros H; [lia|].
  assert (count f l ≤ count g l)%Z by (apply IH; set_solver).
  destruct (f x) eqn:E; [rewrite (H x); [lia|set_solver|done]|].
  destruct (g x); lia.
Qed.

Lemma count_pos f l : (0 < count f l)%Z ↔ ∃ x, x ∈ l ∧ f x = true.
Proof.
  induction l as [|x l IH]; simpl.
  - split; [lia|]. intros (? & []%not_elem_of_nil & _).
  - pose proof (count_nonneg f l). destruct (f x) eqn:E.
    + split; [|lia]. intros _. exists x. split; [left|done].
    + rewrite Z.add_0_l, IH. setoid_rewrite elem_of_cons. naive_solver congruence.
Qed.

Lemma count_insert f l i x y :
  l !! i = Some x →
  count f (<[i:=y]> l) =
    (count f l - (if f x then 1 else 0) + (if f y then 1 else 0))%Z.
Proof.
  revert i. induction l as [|z l IH]; intros [|i] Hi; simplify_eq/=; [lia|].
  rewrite (IH _ Hi). lia.
Qed.
End count.

(** [count] depends on the elements only, not on their order: the loops that
    count over a Go map may visit it in any order. *)
#[export] Instance count_Permutation {A} (f : A → bool) :
  Proper ((≡ₚ) ==> (=)) (count f).
Proof. induction 1; simpl; lia. Qed.

(** ** Lists with a cap

    The sources bound the lists they return: an element is appended while the list
    is shorter than its cap. *)

Definition append_capped {A} (cap : nat) (l : list A) (x : A) : list A :=
  if (length l <? cap)%nat then l ++ [x] else l.

Lemma take_snoc {A} n (l : list A) x :
  take n (l ++ [x]) = append_capped n (take n l) x.
Proof.
  unfold append_capped. rewrite length_take. destruct (Nat.ltb_spec (n `min` length l) n).
  - rewrite !take_ge; [done|lia|rewrite length_app; simpl; lia].
  - by rewrite take_app_le by lia.
Qed.

Lemma foldl_append_capped {A} n (l k : list A) :
  foldl (append_capped n) (take n l) k = take n (l ++ k).
Proof.
  revert l. induction k as [|x k IH]; intros l; simpl; [by rewrite app_nil_r|].
  rewrite <- take_snoc, IH. by rewrite <- (assoc_L (++)).
Qed.

Lemma list_filter_fmap {A B} (f : A → B) (P : B → Prop) `{∀ x, Decision (P x)} (l : list A) :
  filter P (f <$> l) = f <$> filter (λ x, P (f x)) l.
Proof.
  induction l as [|x l IH]; [done|]. rewrite fmap_cons, !filter_cons. destruct (decide (P (f x))); by rewrite IH.
Qed.

Lemma filter_none {A} (P : A → Prop) `{∀ x, Decision (P x)} l :
  (∀ x, x ∈ l → ¬ P x) → filter P l = [].
Proof.
  intros Hn. apply elem_of_nil_inv. intros x [Hp Hx]%list_elem_of_filter. by apply (Hn x).
Qed.

Lemma Exists_snoc {A} (P : A → Prop) l x : Exists P (l ++ [x]) ↔ Exists P l ∨ P x.
Proof. rewrite Exists_app, Exists_cons, Exists_nil. tauto. Qed.

(** ** Sums over a list *)

Definition total {A} (f : A → Z) (l : list A) : Z := foldr (λ x n, f x + n)%Z 0%Z l.

Section total.
Context {A : Type}.
Implicit Types (f g : A → Z) (l k : list A).

Lemma total_cons f x l : total f (x :: l) = (f x + total f l)%Z.
Proof. done. Qed.

Lemma total_app f l k : total f (l ++ k) = (total f l + total f k)%Z.
Proof. induction l as [|x l IH]; [done|]. simpl app. rewrite !total_cons, IH. lia. Qed.

Lemma total_insert f l i x y :
  l !! i = Some x → total f (<[i := y]> l) = (total f l - f x + f y)%Z.
Proof.
  revert i. induction l as [|z l IH]; intros [|i] Hi; simplify_eq/=; [lia|].
  rewrite (IH _ Hi). lia.
Qed.

Lemma total_mono f g l k : Forall2 (λ x y, g y ≤ f x)%Z l k → (total g k ≤ total f l)%Z.
Proof. induction 1; [done|]. rewrite !total_cons. lia. Qed.

Lemma total_bind_count {B} (f : B → bool) (h : A → list B) l :
  count f (l ≫= h) = total (λ x, count f (h x)) l.
Proof.
  induction l as [|x l IH]; [done|]. rewrite bind_cons, count_app, total_cons. by rewrite IH.
Qed.

Lemma count_total (f : A → bool) l : count f l = total (λ x, if f x then 1 else 0)%Z l.
Proof. done. Qed.
End total.

Lemma count_Forall2 {A} (f g : A → bool) l k :
  Forall2 (λ x y, g y = true → f x = true) l k → (count g k ≤ count f l)%Z.
Proof.
  intros Hf. rewrite !count_total. apply total_mono. eapply Forall2_impl; [exact Hf|].
  intros x y Hxy. simpl. destruct (g y) eqn:E; [rewrite Hxy by done; lia|].
  destruct (f x); lia.
Qed.

(** ** Sorting

    [sort.SliceStable] with a [less] function is [sort_by]: insertion of each
    element in front of the first one that is not smaller. [sort.Slice] gives
    no order for elements that compare equal; wherever the sources call it the
    order is total on the elements, so every correct sort gives this list
    ([sort_by_perm_eq]). *)

Fixpoint insert_by {A} (leb : A → A → bool) (x : A) (l : list A) : list A :=
  match l with
  | [] => [x]
  | y :: l' => if leb x y then x :: l else y :: insert_by leb x l'
  end.

Definition sort_by {A} (leb : A → A → bool) (l : list A) : list A :=
  foldr (insert_by leb) [] l.

Section sort.
Context {A : Type} (leb : A → A → bool).
Let R : relation A := λ x y, leb x y = true.

Lemma insert_by_perm x l : insert_by leb x l ≡ₚ x :: l.
Proof.
  induction l as [|y l IH]; simpl; [done|].
  destruct (leb x y); [done|]. rewrite IH. by constructor.
Qed.

Lemma sort_by_perm l : sort_by leb l ≡ₚ l.
Proof.
  induction l as [|x l IH]; simpl; [done|]. by rewrite insert_by_perm, IH.
Qed.

Lemma elem_of_sort_by x l : x ∈ sort_by leb l ↔ x ∈ l.
Proof. by rewrite sort_by_perm. Qed.

Lemma length_sort_by l : length (sort_by leb l) = length l.
Proof. by rewrite sort_by_perm. Qed.

Lemma sort_by_nil l : sort_by leb l = [] ↔ l = [].
Proof. rewrite <- !length_zero_iff_nil. by rewrite length_sort_by. Qed.

Context (Htot : ∀ x y, leb x y = true ∨ leb y x = true).
Context (Htrans : ∀ x y z, leb x y = true → leb y z = true → leb x z = true).

Lemma insert_by_sorted x l :
  StronglySorted R l → StronglySorted R (insert_by leb x l).
Proof using Htot Htrans.
  induction 1 as [|y l Hl IH Hy]; simpl; [repeat constructor|].
  destruct (leb x y) eqn:E.
  - constructor; [by constructor|]. constructor; [done|].
    eapply Forall_impl; [exact Hy|]. unfold R. eauto.
  - constructor; [done|]. rewrite insert_by_perm. constructor; [|done].
    unfold R. destruct (Htot x y); congruence.
Qed.

Lemma sort_by_sorted l : StronglySorted R (sort_by leb l).
Proof using Htot Htrans.
  induction l; simpl; [constructor|]. by apply insert_by_sorted.
Qed.

Lemma sort_by_perm_eq l k :
  (∀ x y, x ∈ l → y ∈ l → leb x y = true → leb y x = true → x = y) →
  l ≡ₚ k → sort_by leb l = sort_by leb k.
Proof using Htot Htrans.
  intros Hanti Hp.
  apply (StronglySorted_unique_strong R); auto using sort_by_sorted.
  - intros x y Hx Hy. rewrite elem_of_sort_by in Hx, Hy.
    rewrite <- Hp in Hy. by apply Hanti.
  - by rewrite !sort_by_perm.
Qed.
End sort.

(** The [less] functions of the sources compare one key and, when it is equal,
    the next. They are built from comparators: on a key, reversed for the
    descending orders, and chained. [OrdCmp] collects the laws that make the
    sorted list unique. *)

Class OrdCmp {A} (c : A → A → comparison) := {
  cmp_opp x y : c y x = CompOpp (c x y);
  cmp_le_trans x y z : c x y ≠ Gt → c y z ≠ Gt → c x z ≠ Gt;
}.

Definition cmp_leb {A} (c : A → A → comparison) (x y : A) : bool :=
  match c x y with Gt => false | _ => true end.
Definition cmp_on {A K} (f : A → K) (c : K → K → comparison) (x y : A) : comparison :=
  c (f x) (f y).
Definition cmp_desc {A} (c : A → A → comparison) (x y : A) : comparison := c y x.
Definition cmp_then {A} (c d : A → A → comparison) (x y : A) : comparison :=
  match c x y with Eq => d x y | r => r end.

#[export] Typeclasses Opaque cmp_on cmp_desc cmp_then.

Definition sort_cmp {A} (c : A → A → comparison) (l : list A) : list A :=
  sort_by (cmp_leb c) l.

Lemma sort_cmp_fmap {A B} (f : A → B) (c : A → A → comparison) (d : B → B → comparison) l :
  (∀ x y, x ∈ l → y ∈ l → d (f x) (f y) = c x y) → f <$> sort_cmp c l = sort_cmp d (f <$> l).
Proof.
  unfold sort_cmp, sort_by. induction l as [|x l IH]; intros Hd; [done|]. rewrite fmap_cons. cbn [foldr].
  rewrite <- IH by (intros; apply Hd; by right).
  assert (∀ y, y ∈ foldr (insert_by (cmp_leb c)) [] l → d (f x) (f y) = c x y) as Hx.
  { intros y Hy%elem_of_sort_by. apply Hd; [left|by right]. }
  revert Hx. generalize (foldr (insert_by (cmp_leb c)) [] l) as k. clear l IH Hd.
  induction k as [|y k IH]; intros Hx; [done|]. rewrite !fmap_cons. cbn [insert_by].
  unfold cmp_leb at 1 3. rewrite Hx by left. destruct (c x y); [done..|].
  rewrite fmap_cons, IH; [done|]. intros z Hz. apply Hx. by right.
Qed.

Lemma sort_cmp_ext {A} (c d : A → A → comparison) l :
  (∀ x y, x ∈ l → y ∈ l → d x y = c x y) → sort_cmp c l = sort_cmp d l.
Proof. intros Hd. rewrite <- (list_fmap_id (sort_cmp c l)), (sort_cmp_fmap id c d) by done. by rewrite list_fmap_id. Qed.

Lemma cmp_eq_l {A} (c : A → A → comparison) `{!OrdCmp c} x y z :
  c x y = Eq → c x z = c y z.
Proof.
  intros H. pose proof (cmp_opp x y) as Ho. pose proof (cmp_opp x z) as Hxz.
  pose proof (cmp_opp y z) as Hyz. rewrite H in Ho. simpl in Ho.
  pose proof (cmp_le_trans x y z). pose proof (cmp_le_trans y x z).
  pose proof (cmp_le_trans z x y). pose proof (cmp_le_trans z y x).
  destruct (c x z), (c y z); simpl in *; naive_solver congruence.
Qed.

#[export] Instance string_ordcmp : OrdCmp String.compare.
Proof.
  split.
  - intros x y. apply String.compare_antisym.
  - intros x y z Hxy Hyz.
    assert (String.le x z) as H.
    { transitivity y; unfold String.le, String.leb.
      - destruct (x ?= y)%string; done.
      - destruct (y ?= z)%string; done. }
    unfold String.le, String.leb in H. by destruct (x ?= z)%string.
Qed.
#[export] Instance Z_ordcmp : OrdCmp Z.compare.
Proof. split; [intros; apply Z.compare_antisym | intros x y z; rewrite !Z.compare_le_iff; lia]. Qed.
#[export] Instance cmp_on_ordcmp {A K} (f : A → K) c `{!OrdCmp c} : OrdCmp (cmp_on f c).
Proof. unfold cmp_on. split; [intros; apply cmp_opp | intros x y z; apply cmp_le_trans]. Qed.
#[export] Instance cmp_desc_ordcmp {A} (c : A → A → comparison) `{!OrdCmp c} :
  OrdCmp (cmp_desc c).
Proof.
  unfold cmp_desc. split; [intros; apply cmp_opp|].
  intros x y z Hxy Hyz. by apply (cmp_le_trans z y x).
Qed.
#[export] Instance cmp_then_ordcmp {A} (c d : A → A → comparison)
  `{!OrdCmp c, !OrdCmp d} : OrdCmp (cmp_then c d).
Proof.
  unfold cmp_then. split.
  - intros x y. rewrite (cmp_opp x y). destruct (c x y); simpl; [apply cmp_opp|done..].
  - intros x y z. pose proof (cmp_le_trans (c:=c) x y z) as Ht.
    pose proof (cmp_le_trans (c:=d) x y z).
    destruct (c x y) eqn:Exy; [|..].
    + rewrite (cmp_eq_l c x y z Exy). by destruct (c y z).
    + destruct (c y z) eqn:Eyz; [| |naive_solver].
      * intros _ _. destruct (c x z) eqn:Exz; [|done|naive_solver].
        pose proof (cmp_eq_l c z x y) as Hz.
        rewrite (cmp_opp x z), Exz in Hz. specialize (Hz eq_refl).
        rewrite (cmp_opp y z), Eyz in Hz. simpl in Hz. congruence.
      * intros _ _. destruct (c x z) eqn:Exz; [|done|naive_solver].
        pose proof (cmp_eq_l c z x y) as Hz.
        rewrite (cmp_opp x z), Exz in Hz. specialize (Hz eq_refl).
        rewrite (cmp_opp y z), Eyz in Hz. simpl in Hz. congruence.
    + done.
Qed.

Section sort_cmp.
Context {A : Type} (c : A → A → comparison) `{!OrdCmp c}.

Lemma cmp_leb_total x y : cmp_leb c x y = true ∨ cmp_leb c y x = true.
Proof using Type*.
  unfold cmp_leb. rewrite (cmp_opp x y). destruct (c x y); simpl; auto.
Qed.
Lemma cmp_leb_trans x y z :
  cmp_leb c x y = true → cmp_leb c y z = true → cmp_leb c x z = true.
Proof using Type*.
  unfold cmp_leb. pose proof (cmp_le_trans x y z).
  destruct (c x y), (c y z), (c x z); naive_solver.
Qed.
Lemma cmp_leb_antisymm x y :
  cmp_leb c x y = true → cmp_leb c y x = true → c x y = Eq.
Proof using Type*.
  unfold cmp_leb. rewrite (cmp_opp x y). by destruct (c x y).
Qed.

Lemma sort_cmp_perm l : sort_cmp c l ≡ₚ l.
Proof. apply sort_by_perm. Qed.
Lemma elem_of_sort_cmp x l : x ∈ sort_cmp c l ↔ x ∈ l.
Proof. apply elem_of_sort_by. Qed.
Lemma sort_cmp_nil l : sort_cmp c l = [] ↔ l = [].
Proof. apply sort_by_nil. Qed.
Lemma length_sort_cmp l : length (sort_cmp c l) = length l.
Proof. apply length_sort_by. Qed.
Lemma sort_cmp_sorted l : StronglySorted (λ x y, c x y ≠ Gt) (sort_cmp c l).
Proof using Type*.
  pose proof (sort_by_sorted (cmp_leb c) cmp_leb_total cmp_leb_trans l) as H.
  revert H. unfold sort_cmp. generalize (sort_by (cmp_leb c) l).
  induction 1 as [|x k _ IH Hx]; constructor; [done|].
  eapply Forall_impl; [exact Hx|].
  intros y. unfold cmp_leb. by destruct (c x y).
Qed.

(** A part of a sorted list is the sorted part. *)
Lemma filter_sort_cmp (P : A → Prop) `{∀ x, Decision (P x)} l :
  filter P (sort_cmp c l) = sort_cmp c (filter P l).
Proof using Type*.
  unfold sort_cmp at 2, sort_by. induction l as [|x l IH]; [done|].
  change (sort_cmp c (x :: l)) with (insert_by (cmp_leb c) x (sort_cmp c l)).
  assert (filter P (insert_by (cmp_leb c) x (sort_cmp c l)) =
    if decide (P x) then insert_by (cmp_leb c) x (filter P (sort_cmp c l)) else filter P (sort_cmp c l)) as ->.
  - generalize (sort_cmp_sorted l). generalize (sort_cmp c l) as k. clear IH.
    induction k as [|y k IHk]; intros Hk; cbn [insert_by]; [by rewrite filter_cons; destruct (decide (P x))|].
    apply StronglySorted_inv in Hk as [Hk Hy]. destruct (cmp_leb c x y) eqn:E.
    + rewrite (filter_cons P x). destruct (decide (P x)); [|done].
      destruct (filter P (y :: k)) as [|z f] eqn:Ef; [done|]. cbn [insert_by].
      assert (z ∈ y :: k) as Hz by (eapply (list_elem_of_filter P); rewrite Ef; left).
      replace (cmp_leb c x z) with true; [done|]. symmetry. apply elem_of_cons in Hz as [->|Hz]; [done|].
      rewrite Forall_forall in Hy. specialize (Hy z Hz). unfold cmp_leb in *.
      pose proof (cmp_le_trans x y z) as Ht. destruct (c x y), (c x z); try done; by destruct Ht.
    + rewrite !filter_cons, IHk by done. destruct (decide (P x)), (decide (P y)); cbn [insert_by]; by rewrite ?E.
  - rewrite filter_cons. destruct (decide (P x)); [|done]. cbn [foldr]. by rewrite IH.
Qed.

(** Any enumeration of the same elements sorts to the same list, provided
    the keys that compare equal are carried by equal elements. *)
Lemma sort_cmp_perm_eq l k :
  (∀ x y, x ∈ l → y ∈ l → c x y = Eq → x = y) →
  l ≡ₚ k → sort_cmp c l = sort_cmp c k.
Proof using Type*.
  intros H Hp. apply sort_by_perm_eq; auto using cmp_leb_total.
  - intros x y z. apply cmp_leb_trans.
  - intros x y Hx Hy ??. apply H; auto using cmp_leb_antisymm.
Qed.

(** The first [n] of a sorted list: what is left out compares no less than all
    that is kept, and the list is then full. *)
Lemma take_sort_cmp n l x :
  x ∈ l →
  x ∈ take n (sort_cmp c l) ∨
  (length (take n (sort_cmp c l)) = n ∧ ∀ y, y ∈ take n (sort_cmp c l) → c y x ≠ Gt).
Proof using Type*.
  intros Hx. pose proof (sort_cmp_sorted l) as Hs. rewrite <- elem_of_sort_cmp in Hx.
  rewrite <- (take_drop n (sort_cmp c l)) in Hx at 1.
  apply elem_of_app in Hx as [?|Hx]; [by left|right].
  rewrite length_take. split.
  - destruct (decide (n ≤ length (sort_cmp c l))%nat); [lia|].
    rewrite drop_ge in Hx by lia. by apply not_elem_of_nil in Hx.
  - intros y Hy. rewrite <- (take_drop n (sort_cmp c l)) in Hs.
    apply StronglySorted_app in Hs as (Hs & _ & _). by apply Hs.
Qed.
End sort_cmp.
