(* ===== verification/GoStrings.v ===== *)
(** * Go's [strings] package, as far as the sources use it

    A Go string is a sequence of bytes; it is modelled by [string], whose
    characters are the 256 bytes. [TrimSpace] is exact on arbitrary bytes: it
    removes the UTF-8 encodings of the code points of Unicode's White_Space
    property. [ToLower] and [ToUpper] change the ASCII letters and leave every
    other byte alone, which is what Go does on ASCII text. *)

From Stdlib Require Strings.Ascii.
From S2P Require Import Prelude.

Export Stdlib.Strings.Ascii (ascii(..)).

Definition bytes (s : string) : list ascii := String.list_ascii_of_string s.
Definition of_bytes (l : list ascii) : string := String.string_of_list_ascii l.
Definition byte_val (a : ascii) : N := Stdlib.Strings.Ascii.N_of_ascii a.
Definition byte (n : N) : ascii := Stdlib.Strings.Ascii.ascii_of_N n.
Definition len (s : string) : Z := Z.of_nat (String.length s).

Definition nl : ascii := byte 10.
Definition tab : ascii := byte 9.

(** ** Slices [s\[:n\]] and [s\[n:\]] *)

Fixpoint str_take (n : nat) (s : string) : string :=
  match n, s with
  | S n, String a s => String a (str_take n s)
  | _, _ => ""
  end.

Fixpoint str_drop (n : nat) (s : string) : string :=
  match n, s with
  | O, _ => s
  | S n, String _ s => str_drop n s
  | S _, "" => ""
  end.

(** ** Prefixes, suffixes, search *)

Definition HasPrefix (s p : string) : bool := String.prefix p s.

Definition HasSuffix (s p : string) : bool :=
  (String.length p <=? String.length s)%nat &&
  (str_drop (String.length s - String.length p) s == p).

Definition TrimPrefix (s p : string) : string :=
  if HasPrefix s p then str_drop (String.length p) s else s.

Definition TrimSuffix (s p : string) : string :=
  if HasSuffix s p then str_take (String.length s - String.length p) s else s.

Fixpoint IndexByte (s : string) (c : ascii) : option nat :=
  match s with
  | "" => None
  | String a s' => if a == c then Some 0%nat else S <$> IndexByte s' c
  end.

Fixpoint LastIndexByte (s : string) (c : ascii) : option nat :=
  match s with
  | "" => None
  | String a s' =>
      match LastIndexByte s' c with
      | Some i => Some (S i)
      | None => if a == c then Some 0%nat else None
      end
  end.

Fixpoint Index (s sub : string) : option nat :=
  if HasPrefix s sub then Some 0%nat
  else match s with
       | "" => None
       | String _ s' => S <$> Index s' sub
       end.

Definition Contains (s sub : string) : bool := bool_decide (is_Some (Index s sub)).

Definition ContainsAny (s chars : string) : bool :=
  existsb (λ a, bool_decide (a ∈ bytes chars)) (bytes s).

Fixpoint IndexAny (s chars : string) : option nat :=
  match s with
  | "" => None
  | String a s' =>
      if bool_decide (a ∈ bytes chars) then Some 0%nat else S <$> IndexAny s' chars
  end.

(** The idiom [if i := strings.IndexByte(s, c); i >= 0 { s = s\[:i\] }]. *)
Definition before_byte (s : string) (c : ascii) : string :=
  match IndexByte s c with
  | Some i => str_take i s
  | None => s
  end.

(** ** Case mapping *)

Definition lower_byte (a : ascii) : ascii :=
  let n := byte_val a in
  if ((65 <=? n) && (n <=? 90))%N then byte (n + 32) else a.
Definition upper_byte (a : ascii) : ascii :=
  let n := byte_val a in
  if ((97 <=? n) && (n <=? 122))%N then byte (n - 32) else a.

Fixpoint str_map (f : ascii → ascii) (s : string) : string :=
  match s with
  | "" => ""
  | String a s => String (f a) (str_map f s)
  end.

Definition ToLower (s : string) : string := str_map lower_byte s.
Definition ToUpper (s : string) : string := str_map upper_byte s.
Definition EqualFold (a b : string) : bool := ToLower a == ToLower b.

(** ** Trimming white space

    The white space code points are U+0009 to U+000D, U+0020, U+0085, U+00A0,
    U+1680, U+2000 to U+200A, U+2028, U+2029, U+202F, U+205F and U+3000; their
    UTF-8 encodings have one, two or three bytes. *)

Definition space1 (a : ascii) : bool :=
  let n := byte_val a in ((9 <=? n) && (n <=? 13) || (n =? 32))%N.
Definition space2 (a b : ascii) : bool :=
  (byte_val a =? 194)%N && ((byte_val b =? 133) || (byte_val b =? 160))%N.
Definition space3 (a b c : ascii) : bool :=
  let x := byte_val a in let y := byte_val b in let z := byte_val c in
  ((x =? 225) && (y =? 154) && (z =? 128) ||
   (x =? 226) && (y =? 128) &&
     ((128 <=? z) && (z <=? 138) || (z =? 168) || (z =? 169) || (z =? 175)) ||
   (x =? 226) && (y =? 129) && (z =? 159) ||
   (x =? 227) && (y =? 128) && (z =? 128))%N.

Fixpoint trim_left_space (s : string) : string :=
  match s with
  | "" => ""
  | String a s1 =>
      if space1 a then trim_left_space s1
      else match s1 with
           | "" => s
           | String b s2 =>
               if space2 a b then trim_left_space s2
               else match s2 with
                    | "" => s
                    | String c s3 => if space3 a b c then trim_left_space s3 else s
                    end
           end
  end.

(** The same from the other end, on the reversed string. *)
Fixpoint trim_left_space_rev (s : string) : string :=
  match s with
  | "" => ""
  | String a s1 =>
      if space1 a then trim_left_space_rev s1
      else match s1 with
           | "" => s
           | String b s2 =>
               if space2 b a then trim_left_space_rev s2
               else match s2 with
                    | "" => s
                    | String c s3 => if space3 c b a then trim_left_space_rev s3 else s
                    end
           end
  end.

Definition TrimSpace (s : string) : string :=
  String.rev (trim_left_space_rev (String.rev (trim_left_space s))).

(** [strings.Trim], [TrimLeft] and [TrimRight] with a cutset of bytes. *)
Fixpoint trim_left_cut (cut : string) (s : string) : string :=
  match s with
  | "" => ""
  | String a s' => if bool_decide (a ∈ bytes cut) then trim_left_cut cut s' else s
  end.
Definition TrimRight (s cut : string) : string :=
  String.rev (trim_left_cut cut (String.rev s)).
Definition Trim (s cut : string) : string := TrimRight (trim_left_cut cut s) cut.

(** ** Splitting and joining *)

Fixpoint Split (s : string) (c : ascii) : list string :=
  match s with
  | "" => [""]
  | String a s' =>
      if a == c then "" :: Split s' c
      else match Split s' c with
           | h :: t => String a h :: t
           | [] => [String a ""]
           end
  end.

Fixpoint Join (l : list string) (sep : string) : string :=
  match l with
  | [] => ""
  | [x] => x
  | x :: l' => x +:+ sep +:+ Join l' sep
  end.

(** [strings.SplitN(s, c, 2)] when it gives two parts. *)
Definition SplitN2 (s : string) (c : ascii) : option (string * string) :=
  match IndexByte s c with
  | Some i => Some (str_take i s, str_drop (S i) s)
  | None => None
  end.

Definition ReplaceByte (s : string) (a b : ascii) : string :=
  str_map (λ x, if x == a then b else x) s.

(** [strings.Fields]: the maximal runs of bytes that are not white space. [cur]
    is the current run, reversed. *)
Definition field_of (cur : string) : list string := if cur == "" then [] else [String.rev cur].

Fixpoint fields_go (cur : string) (s : string) : list string :=
  match s with
  | "" => field_of cur
  | String a s1 =>
      if space1 a then field_of cur ++ fields_go "" s1
      else match s1 with
           | "" => field_of (String a cur)
           | String b s2 =>
               if space2 a b then field_of cur ++ fields_go "" s2
               else match s2 with
                    | "" => fields_go (String a cur) s1
                    | String c s3 =>
                        if space3 a b c then field_of cur ++ fields_go "" s3
                        else fields_go (String a cur) s1
                    end
           end
  end.
Definition Fields (s : string) : list string := fields_go "" s.

(** ** Numbers as text *)

Definition Itoa (z : Z) : string := pretty z.

Definition hex_digit (n : N) : ascii :=
  if (n <? 10)%N then byte (48 + n) else byte (87 + n).

Fixpoint hex_go (fuel : nat) (n : N) (acc : string) : string :=
  match fuel with
  | O => acc
  | S fuel =>
      let acc := String (hex_digit (n `mod` 16)) acc in
      if (n / 16 =? 0)%N then acc else hex_go fuel (n / 16)%N acc
  end.

Fixpoint zeros (k : nat) : string :=
  match k with
  | O => ""
  | S k => String (byte 48) (zeros k)
  end.

(** [fmt.Sprintf] of a 64-bit number with the verb 0wx, for a width [w]: sixteen
    digits are enough, padded on the left to the width. *)
Definition hex_pad (w : nat) (n : N) : string :=
  let d := hex_go 16 n "" in
  zeros (w - String.length d) +:+ d.

(** A byte that is a lower-case hexadecimal digit. *)
Definition is_hex (a : ascii) : bool :=
  let n := byte_val a in
  ((48 <=? n) && (n <=? 57) || (97 <=? n) && (n <=? 102))%N.

Definition all_hex (s : string) : bool := forallb is_hex (bytes s).

(** ** Lemmas *)

Lemma app_cons_str a s t : String a s +:+ t = String a (s +:+ t).
Proof. done. Qed.
Lemma app_nil_str s : "" +:+ s = s.
Proof. done. Qed.

Lemma str_take_drop n s : str_take n s +:+ str_drop n s = s.
Proof.
  revert s. induction n as [|n IH]; intros [|a s]; simpl; [done..|].
  rewrite app_cons_str. f_equal. apply IH.
Qed.

Lemma length_str_take n s : String.length (str_take n s) = (n `min` String.length s)%nat.
Proof. revert s. induction n as [|n IH]; intros [|a s]; simpl; [done..|]. by rewrite IH. Qed.

Lemma str_take_all n s : (String.length s ≤ n)%nat → str_take n s = s.
Proof.
  revert s. induction n as [|n IH]; intros [|a s]; simpl; intros; [done|lia|done|].
  f_equal. apply IH. lia.
Qed.

Lemma str_app_assoc (s t u : string) : (s +:+ t) +:+ u = s +:+ t +:+ u.
Proof.
  induction s as [|a s IH]; [done|]. rewrite !app_cons_str. by f_equal.
Qed.

Lemma str_app_nil_r (s : string) : s +:+ "" = s.
Proof. induction s as [|a s IH]; [done|]. rewrite app_cons_str. by f_equal. Qed.

Lemma length_str_app (s t : string) :
  String.length (s +:+ t) = (String.length s + String.length t)%nat.
Proof. induction s as [|a s IH]; [done|]. rewrite app_cons_str. simpl. by rewrite IH. Qed.
Lemma str_app_inj_len (s s' t t' : string) :
  String.length s = String.length s' → s +:+ t = s' +:+ t' → s = s' ∧ t = t'.
Proof.
  revert s'. induction s as [|a s IH]; intros [|a' s'] [=]; [done|].
  rewrite !app_cons_str. intros [= -> Heq]. by destruct (IH s') as [-> ->].
Qed.

Lemma str_take_app (s t : string) : str_take (String.length s) (s +:+ t) = s.
Proof. induction s as [|a s IH]; [done|]. rewrite app_cons_str. simpl. by f_equal. Qed.

Lemma str_drop_app (s t : string) : str_drop (String.length s) (s +:+ t) = t.
Proof. induction s as [|a s IH]; [done|]. rewrite app_cons_str. simpl. done. Qed.

Lemma bytes_app s t : bytes (s +:+ t) = bytes s ++ bytes t.
Proof. induction s as [|a s IH]; [done|]. rewrite app_cons_str. simpl. by f_equal. Qed.

Lemma elem_of_str_take a n s : a ∈ bytes (str_take n s) → a ∈ bytes s.
Proof.
  intros H. rewrite <- (str_take_drop n s), bytes_app. set_solver.
Qed.

Lemma rev_app_spec s t : String.rev_app s t = String.rev s +:+ t.
Proof.
  unfold String.rev. revert t. induction s as [|a s IH]; intros t; simpl; [done|].
  rewrite (IH (String a t)), (IH (String a "")), str_app_assoc. done.
Qed.
Lemma rev_cons a s : String.rev (String a s) = String.rev s +:+ String a "".
Proof. unfold String.rev at 1. simpl. apply rev_app_spec. Qed.
Lemma bytes_rev s : bytes (String.rev s) = reverse (bytes s).
Proof.
  induction s as [|a s IH]; [done|]. rewrite rev_cons, bytes_app, IH. simpl.
  by rewrite reverse_cons.
Qed.
Lemma bytes_inj s t : bytes s = bytes t → s = t.
Proof.
  revert t. induction s as [|a s IH]; intros [|b t] H; simplify_eq/=; [done|].
  f_equal. by apply IH.
Qed.
Lemma rev_rev s : String.rev (String.rev s) = s.
Proof. apply bytes_inj. by rewrite !bytes_rev, reverse_involutive. Qed.

Lemma HasPrefix_spec s p : HasPrefix s p = true ↔ ∃ r, s = p +:+ r.
Proof.
  unfold HasPrefix. revert s. induction p as [|a p IH]; intros s; simpl.
  - split; [|by destruct s]. intros _. by exists s.
  - destruct s as [|b s]; [split; [done|by intros [r Hr]]|]. simpl.
    destruct (Stdlib.Strings.Ascii.ascii_dec a b) as [->|Hne].
    + rewrite IH. setoid_rewrite app_cons_str. split; intros [r Hr]; exists r; congruence.
    + setoid_rewrite app_cons_str. split; [done|]. intros [r Hr]. congruence.
Qed.

Lemma HasPrefix_app p r : HasPrefix (p +:+ r) p = true.
Proof. apply HasPrefix_spec. by exists r. Qed.

Lemma TrimPrefix_app p r : TrimPrefix (p +:+ r) p = r.
Proof. unfold TrimPrefix. by rewrite HasPrefix_app, str_drop_app. Qed.

(** Splitting at a separator loses nothing. *)
Lemma Split_cons s c : ∃ h t, Split s c = h :: t.
Proof.
  destruct s as [|a s]; simpl; [eauto|]. case_bool_decide; [eauto|].
  destruct (Split s c); eauto.
Qed.

Lemma Join_cons x l sep : l ≠ [] → Join (x :: l) sep = x +:+ sep +:+ Join l sep.
Proof. by destruct l. Qed.

Lemma Join_Split s c : Join (Split s c) (String c "") = s.
Proof.
  induction s as [|a s IH]; [done|]. simpl.
  destruct (Split_cons s c) as (h & t & E). rewrite E in *.
  case_bool_decide as Ha.
  - rewrite Join_cons by done. rewrite IH. by subst.
  - transitivity (String a (Join (h :: t) (String c ""))); [|by rewrite IH].
    destruct t; done.
Qed.

Lemma Split_no_sep s c : c ∉ bytes s → Split s c = [s].
Proof.
  induction s as [|a s IH]; simpl; [done|]. intros Hc.
  rewrite bool_decide_eq_false_2 by set_solver. rewrite IH by set_solver. done.
Qed.

Lemma Split_app_sep s t c :
  c ∉ bytes s → Split (s +:+ String c t) c = s :: Split t c.
Proof.
  induction s as [|a s IH]; intros Hc.
  - rewrite app_nil_str. simpl. by rewrite bool_decide_eq_true_2.
  - simpl in Hc. rewrite app_cons_str. simpl. rewrite bool_decide_eq_false_2 by set_solver.
    rewrite IH by set_solver. done.
Qed.

Lemma Split_Join l c :
  l ≠ [] → Forall (λ x, c ∉ bytes x) l → Split (Join l (String c "")) c = l.
Proof.
  induction l as [|x l IH]; [done|]. intros _ Hl.
  inversion Hl as [|?? Hx Hl']; subst.
  destruct l as [|y l]; [by apply Split_no_sep|].
  rewrite Join_cons by done.
  change (String c "" +:+ Join (y :: l) (String c ""))
    with (String c (Join (y :: l) (String c ""))).
  rewrite Split_app_sep by done. f_equal. by apply IH.
Qed.

(** The parts do not contain the separator. *)
Lemma Split_parts s c : Forall (λ x, c ∉ bytes x) (Split s c).
Proof.
  induction s as [|a s IH]; simpl; [repeat constructor; set_solver|].
  case_bool_decide; [constructor; [set_solver|done]|].
  destruct (Split s c); [constructor; [set_solver|constructor]|].
  inversion IH; subst. constructor; [set_solver|done].
Qed.

Lemma Split_app s t c : Split (s +:+ String c t) c = Split s c ++ Split t c.
Proof.
  induction s as [|a s IH].
  - rewrite app_nil_str. simpl. by rewrite bool_decide_eq_true_2.
  - rewrite app_cons_str. simpl. case_bool_decide; [by rewrite IH|].
    rewrite IH. destruct (Split_cons s c) as (h & u & ->). done.
Qed.

(** A separator that does not occur before, or after, a place marks that place. *)
Lemma sep_inj_l c (a a' x x' : string) :
  c ∉ bytes a → c ∉ bytes a' → a +:+ String c x = a' +:+ String c x' → a = a' ∧ x = x'.
Proof.
  revert a'. induction a as [|b a IH]; intros [|b' a'] Ha Ha' He; cbn in *; simplify_eq.
  - done.
  - rewrite not_elem_of_cons in Ha'. naive_solver.
  - rewrite not_elem_of_cons in Ha. naive_solver.
  - rewrite not_elem_of_cons in Ha, Ha'. destruct (IH a') as [-> ->]; tauto.
Qed.

Lemma sep_inj_r c (a a' x x' : string) :
  c ∉ bytes x → c ∉ bytes x' → a +:+ String c x = a' +:+ String c x' → a = a' ∧ x = x'.
Proof.
  intros Hx Hx' He. apply (f_equal (λ s, Split s c)) in He.
  rewrite !Split_app, (Split_no_sep x), (Split_no_sep x') in He by done.
  apply app_inj_tail in He as [Hs ->]. split; [|done].
  by rewrite <- (Join_Split a c), <- (Join_Split a' c), Hs.
Qed.

Lemma SplitN2_app c a b : c ∉ bytes a → SplitN2 (a +:+ String c b) c = Some (a, b).
Proof.
  intros Ha. unfold SplitN2. assert (IndexByte (a +:+ String c b) c = Some (String.length a)) as ->.
  { induction a as [|x a IH]; simpl in *.
    - by case_bool_decide.
    - rewrite not_elem_of_cons in Ha. rewrite bool_decide_eq_false_2 by naive_solver.
      by rewrite IH by tauto. }
  f_equal. f_equal; [apply str_take_app|].
  clear Ha. induction a as [|x a IH]; [done|exact IH].
Qed.

Lemma HasSuffix_app s p : HasSuffix (s +:+ p) p = true.
Proof.
  unfold HasSuffix. rewrite length_str_app, Nat.add_sub, str_drop_app.
  rewrite bool_decide_eq_true_2 by done. rewrite andb_true_r. apply Nat.leb_le. lia.
Qed.

Lemma HasSuffix_spec s p : HasSuffix s p = true ↔ ∃ r, s = r +:+ p.
Proof.
  split; [|intros [r ->]; apply HasSuffix_app]. unfold HasSuffix.
  intros [_ H]%andb_true_iff. apply bool_decide_eq_true in H.
  exists (str_take (String.length s - String.length p) s). rewrite <- H at 2.
  by rewrite str_take_drop.
Qed.

Lemma TrimSuffix_app s p : TrimSuffix (s +:+ p) p = s.
Proof.
  unfold TrimSuffix. by rewrite HasSuffix_app, length_str_app, Nat.add_sub, str_take_app.
Qed.

(** White space trimming leaves alone a string of visible ASCII bytes. *)
Definition visible (a : ascii) : bool := (byte_val a <? 128)%N && negb (space1 a).

Lemma visible_space2 a b : visible b = true → space2 a b = false.
Proof.
  unfold visible, space2. intros [Hb _]%andb_true_iff. apply N.ltb_lt in Hb.
  destruct (N.eqb_spec (byte_val a) 194), (N.eqb_spec (byte_val b) 133),
    (N.eqb_spec (byte_val b) 160); simpl; try done; lia.
Qed.
Lemma visible_space2' a b : visible a = true → space2 a b = false.
Proof.
  unfold visible, space2. intros [Hb _]%andb_true_iff. apply N.ltb_lt in Hb.
  destruct (N.eqb_spec (byte_val a) 194); [lia|done].
Qed.
Lemma visible_space3 a b c : visible a = true → space3 a b c = false.
Proof.
  unfold visible, space3. intros [Ha _]%andb_true_iff. apply N.ltb_lt in Ha.
  destruct (N.eqb_spec (byte_val a) 225), (N.eqb_spec (byte_val a) 226),
    (N.eqb_spec (byte_val a) 227); simpl; try done; lia.
Qed.
Lemma visible_space3' a b c : visible c = true → space3 a b c = false.
Proof.
  unfold visible, space3. intros [Hc _]%andb_true_iff. apply N.ltb_lt in Hc.
  set (z := byte_val c) in *.
  assert ((z =? 128)%N = false) as -> by (apply N.eqb_neq; lia).
  assert ((z =? 168)%N = false) as -> by (apply N.eqb_neq; lia).
  assert ((z =? 169)%N = false) as -> by (apply N.eqb_neq; lia).
  assert ((z =? 175)%N = false) as -> by (apply N.eqb_neq; lia).
  assert ((z =? 159)%N = false) as -> by (apply N.eqb_neq; lia).
  assert ((128 <=? z)%N = false) as -> by (apply N.leb_gt; lia).
  simpl. by rewrite !andb_false_r.
Qed.

Lemma trim_left_visible s :
  match s with String a _ => visible a = true | "" => True end →
  trim_left_space s = s.
Proof.
  destruct s as [|a [|b [|c s]]]; simpl; intros Ha; [done|..].
  all: assert (space1 a = false) as -> by
    (unfold visible in Ha; apply andb_true_iff in Ha as [_ Ha]; by apply negb_true_iff in Ha).
  - done.
  - by rewrite visible_space2'.
  - by rewrite visible_space2', visible_space3.
Qed.
Lemma trim_left_rev_visible s :
  match s with String a _ => visible a = true | "" => True end →
  trim_left_space_rev s = s.
Proof.
  destruct s as [|a [|b [|c s]]]; simpl; intros Ha; [done|..].
  all: assert (space1 a = false) as -> by
    (unfold visible in Ha; apply andb_true_iff in Ha as [_ Ha]; by apply negb_true_iff in Ha).
  - done.
  - by rewrite visible_space2.
  - by rewrite visible_space2, visible_space3'.
Qed.

Lemma TrimSpace_visible s : forallb visible (bytes s) = true → TrimSpace s = s.
Proof.
  rewrite forallb_True. intros Hs. unfold TrimSpace.
  rewrite (trim_left_visible s); [|destruct s; [done|apply Hs; left]].
  rewrite trim_left_rev_visible; [apply rev_rev|].
  destruct (String.rev s) as [|a r] eqn:E; [done|]. apply Hs.
  rewrite <- (rev_rev s), E, bytes_rev. simpl. rewrite reverse_cons. set_solver.
Qed.

Lemma elem_of_trim_left n s x :
  (String.length s ≤ n)%nat →
  (x ∈ bytes (trim_left_space s) → x ∈ bytes s) ∧ (x ∈ bytes (trim_left_space_rev s) → x ∈ bytes s).
Proof.
  revert s. induction n as [|n IH]; intros [|a [|b [|c s]]] Hn; try done; cbn [String.length] in Hn; try lia.
  - cbn. destruct (space1 a); set_solver.
  - cbn [trim_left_space trim_left_space_rev]. destruct (IH (String b "")) as [H1 H2]; [cbn; lia|].
    split; repeat case_match; set_solver.
  - destruct (IH (String b (String c s))) as [H1 H2]; [cbn; lia|]. destruct (IH (String c s)) as [H3 H4]; [cbn; lia|].
    destruct (IH s) as [H5 H6]; [lia|].
    assert (∀ y t, x ∈ bytes t → x ∈ bytes (String y t)) as Hc by (intros; by right).
    split; cbn [trim_left_space trim_left_space_rev].
    + destruct (space1 a); [by intros ?%H1; apply Hc|]. destruct (space2 a b); [intros ?%H3; by do 2 apply Hc|].
      destruct (space3 a b c); [|done]. intros ?%H5. by do 3 apply Hc.
    + destruct (space1 a); [by intros ?%H2; apply Hc|]. destruct (space2 b a); [intros ?%H4; by do 2 apply Hc|].
      destruct (space3 c b a); [|done]. intros ?%H6. by do 3 apply Hc.
Qed.

Lemma elem_of_TrimSpace x s : x ∈ bytes (TrimSpace s) → x ∈ bytes s.
Proof.
  unfold TrimSpace. rewrite bytes_rev, elem_of_reverse. intros Hx.
  eapply elem_of_trim_left in Hx; [|done]. rewrite bytes_rev, elem_of_reverse in Hx.
  by eapply elem_of_trim_left in Hx.
Qed.

Lemma is_hex_visible a : is_hex a = true → visible a = true.
Proof. by destruct a as [[] [] [] [] [] [] [] []]. Qed.
Lemma is_hex_lower a : is_hex a = true → lower_byte a = a.
Proof. by destruct a as [[] [] [] [] [] [] [] []]. Qed.

Lemma TrimSpace_hex s : all_hex s = true → TrimSpace s = s.
Proof.
  unfold all_hex. rewrite forallb_True. intros Hs. apply TrimSpace_visible.
  rewrite forallb_True. auto using is_hex_visible.
Qed.
Lemma ToLower_hex s : all_hex s = true → ToLower s = s.
Proof.
  unfold all_hex, ToLower. induction s as [|a s IH]; simpl; [done|].
  intros [Ha Hs]%andb_true_iff. by rewrite is_hex_lower, IH.
Qed.
Lemma all_hex_app s t : all_hex (s +:+ t) = all_hex s && all_hex t.
Proof. unfold all_hex. by rewrite bytes_app, forallb_app. Qed.
Lemma all_hex_take n s : all_hex s = true → all_hex (str_take n s) = true.
Proof.
  unfold all_hex. rewrite !forallb_True. intros Hs a Ha. eauto using elem_of_str_take.
Qed.

(** ** Hexadecimal numerals: the value of a printed number *)

Definition hex_digit_val (a : ascii) : N :=
  let n := byte_val a in if (n <? 58)%N then n - 48 else n - 87.
Fixpoint hex_val (v : N) (s : string) : N :=
  match s with
  | "" => v
  | String a s => hex_val (16 * v + hex_digit_val a) s
  end.

Lemma hex_digit_ok n :
  (n < 16)%N → is_hex (hex_digit n) = true ∧ hex_digit_val (hex_digit n) = n.
Proof.
  intros Hn.
  assert (n ∈ N.of_nat <$> seq 0 16) as H.
  { apply list_elem_of_fmap. exists (N.to_nat n). split; [lia|]. apply elem_of_seq. lia. }
  simpl in H. repeat setoid_rewrite elem_of_cons in H.
  repeat destruct H as [->|H]; done || by apply not_elem_of_nil in H.
Qed.

Lemma hex_go_val fuel n acc :
  (n < 16 ^ N.of_nat fuel)%N → fuel ≠ 0%nat →
  hex_val 0 (hex_go fuel n acc) = hex_val n acc.
Proof.
  revert n acc. induction fuel as [|fuel IH]; intros n acc Hn Hf; [done|].
  rewrite Nat2N.inj_succ, N.pow_succ_r' in Hn. simpl.
  pose proof (N.div_mod' n 16) as Hdm.
  pose proof (N.mod_lt n 16 ltac:(done)) as Hmod.
  destruct (hex_digit_ok _ Hmod) as [_ Hv].
  destruct (N.eqb_spec (n / 16) 0) as [Hz|Hz].
  - simpl. rewrite Hv. f_equal. lia.
  - destruct fuel as [|fuel].
    + simpl in Hn. exfalso. apply Hz. apply N.div_small. lia.
    + rewrite IH; [|apply N.Div0.div_lt_upper_bound; lia|done].
      simpl. rewrite Hv. f_equal. lia.
Qed.

Lemma hex_go_hex fuel n acc :
  all_hex acc = true → all_hex (hex_go fuel n acc) = true.
Proof.
  revert n acc. induction fuel as [|fuel IH]; intros n acc Hacc; simpl; [done|].
  assert (all_hex (String (hex_digit (n `mod` 16)) acc) = true) as H.
  { unfold all_hex in *. simpl. rewrite Hacc.
    destruct (hex_digit_ok (n `mod` 16)) as [-> _]; [|done]. by apply N.mod_lt. }
  destruct (n / 16 =? 0)%N; auto.
Qed.

Lemma hex_go_length fuel k n acc :
  (n < 16 ^ N.of_nat (S k))%N →
  (String.length (hex_go fuel n acc) ≤ S k + String.length acc)%nat.
Proof.
  revert k n acc. induction fuel as [|fuel IH]; intros k n acc Hn; simpl; [lia|].
  destruct (N.eqb_spec (n / 16) 0) as [Hz|Hz]; simpl; [lia|].
  destruct k as [|k].
  - exfalso. apply Hz. apply N.div_small. done.
  - rewrite Nat2N.inj_succ, N.pow_succ_r' in Hn.
    specialize (IH k (n / 16)%N (String (hex_digit (n `mod` 16)) acc)).
    simpl in IH. assert (n / 16 < 16 ^ N.of_nat (S k))%N
      by (apply N.Div0.div_lt_upper_bound; lia). lia.
Qed.

Lemma zeros_val k s : hex_val 0 (zeros k +:+ s) = hex_val 0 s.
Proof. induction k as [|k IH]; [done|]. exact IH. Qed.
Lemma zeros_length k : String.length (zeros k) = k.
Proof. induction k as [|k IH]; [done|]. simpl. by rewrite IH. Qed.
Lemma zeros_hex k : all_hex (zeros k) = true.
Proof. induction k as [|k IH]; [done|]. exact IH. Qed.

Lemma hex_pad_inj w m n :
  (m < 2 ^ 64)%N → (n < 2 ^ 64)%N → hex_pad w m = hex_pad w n → m = n.
Proof.
  intros Hm Hn H. apply (f_equal (hex_val 0)) in H. unfold hex_pad in H.
  rewrite !zeros_val, !hex_go_val in H; done.
Qed.
Lemma hex_pad_hex w n : all_hex (hex_pad w n) = true.
Proof. unfold hex_pad. rewrite all_hex_app, zeros_hex. by apply hex_go_hex. Qed.
Lemma hex_pad_length w n :
  (n < 16 ^ N.of_nat (S w))%N → String.length (hex_pad (S w) n) = S w.
Proof.
  intros Hn. unfold hex_pad. rewrite length_str_app, zeros_length.
  pose proof (hex_go_length 16 w n "" Hn) as H.
  change (String.length "") with 0%nat in H. lia.
Qed.

(** ** crypto/sha256 *)

(** [hex.EncodeToString] of a SHA-256 sum: 64 lower-case hexadecimal digits. *)
Class GoSHA := {
  sha256_hex : string → string;
  sha256_hex_ok s : String.length (sha256_hex s) = 64%nat ∧ all_hex (sha256_hex s) = true;
}.
