(* ===== verification/GoText.v ===== *)
(** * Go's [path], [strconv], [unicode/utf8] and [bufio], as the sources use them

    [Clean] is the lexical normal form of [path.Clean] (and of [filepath.Clean]
    on Unix), [Atoi] is [strconv.Atoi] with the range of a 64-bit [int],
    [utf8_Valid] is [utf8.Valid] and [scan_lines] is what a [bufio.Scanner] with
    its default split function yields. *)

From S2P Require Import Prelude GoStrings.

(** ** [path.Clean]

    Empty elements and [.] are dropped; [..] removes the element before it, is
    dropped at the start of a rooted path and kept at the start of another. The
    elements so far are kept in reverse. *)

Definition slash : ascii := byte 47.

Definition clean_step (rooted : bool) (acc : list string) (e : string) : list string :=
  if (e == "") || (e == ".") then acc
  else if e == ".." then
    match acc with
    | x :: acc' => if x == ".." then e :: acc else acc'
    | [] => if rooted then [] else [e]
    end
  else e :: acc.

Definition clean_elems (rooted : bool) (es : list string) : list string :=
  reverse (foldl (clean_step rooted) [] es).

Definition Clean (p : string) : string :=
  let rooted := HasPrefix p "/" in
  let out := Join (clean_elems rooted (Split p slash)) "/" in
  if rooted then "/" +:+ out else if out == "" then "." else out.

(** ** [strconv.Atoi] *)

Definition is_digit (a : ascii) : bool :=
  let n := byte_val a in ((48 <=? n) && (n <=? 57))%N.

Definition dec_val (s : string) : Z :=
  foldl (λ v a, 10 * v + (Z.of_N (byte_val a) - 48))%Z 0%Z (bytes s).

Definition Atoi (s : string) : option Z :=
  let '(sign, digits) :=
    match s with
    | String a s' =>
        if a == byte 45 then ((-1)%Z, s') else if a == byte 43 then (1%Z, s') else (1%Z, s)
    | "" => (1%Z, "")
    end in
  if (digits == "") || negb (forallb is_digit (bytes digits)) then None
  else let n := (sign * dec_val digits)%Z in
       if ((- 2 ^ 63 <=? n) && (n <? 2 ^ 63))%Z then Some n else None.

(** ** [utf8.Valid]

    The well-formed byte sequences of RFC 3629: no overlong forms, no surrogate
    halves, nothing beyond U+10FFFF. *)

Definition in_range (lo hi : N) (a : ascii) : bool :=
  ((lo <=? byte_val a) && (byte_val a <=? hi))%N.
Definition cont (a : ascii) : bool := in_range 128 191 a.

Fixpoint utf8_bytes (l : list ascii) : bool :=
  match l with
  | [] => true
  | a :: l1 =>
      if in_range 0 127 a then utf8_bytes l1
      else match l1 with
      | [] => false
      | b :: l2 =>
          if in_range 194 223 a then cont b && utf8_bytes l2
          else match l2 with
          | [] => false
          | c :: l3 =>
              if in_range 224 239 a then
                let lo := if (byte_val a =? 224)%N then 160%N else 128%N in
                let hi := if (byte_val a =? 237)%N then 159%N else 191%N in
                in_range lo hi b && cont c && utf8_bytes l3
              else match l3 with
              | [] => false
              | d :: l4 =>
                  if in_range 240 244 a then
                    let lo := if (byte_val a =? 240)%N then 144%N else 128%N in
                    let hi := if (byte_val a =? 244)%N then 143%N else 191%N in
                    in_range lo hi b && cont c && cont d && utf8_bytes l4
                  else false
              end
          end
      end
  end.

Definition utf8_Valid (s : string) : bool := utf8_bytes (bytes s).

(** ** [bufio.Scanner]

    Lines end at a newline, which is dropped together with one carriage return
    before it; what follows the last newline is a line if it is not empty. A
    scanner whose buffer may grow to [max] bytes fails when [max] bytes are
    buffered without a newline; on an input of at most [max] bytes that is an
    input of exactly [max] bytes without any. *)

Definition drop_cr (s : string) : string := TrimSuffix s (String (byte 13) "").

Fixpoint drop_last_empty (l : list string) : list string :=
  match l with
  | [] => []
  | [x] => if x == "" then [] else [x]
  | x :: l' => x :: drop_last_empty l'
  end.

Definition scan_lines (data : string) : list string :=
  drop_cr <$> drop_last_empty (Split data nl).

Definition scan_overflow (max : Z) (data : string) : bool :=
  (max <=? len data)%Z && bool_decide (IndexByte data nl = None).

(** ** Lemmas on paths *)

(** An element of a path that names an entry of a directory. *)
Definition plain (e : string) : Prop := e ≠ "" ∧ e ≠ "." ∧ e ≠ "..".

Lemma clean_step_inv rooted acc e x :
  x ∈ clean_step rooted acc e →
  x ∈ acc ∨ (x = e ∧ e ≠ "" ∧ e ≠ "." ∧ (rooted = true → e = ".." → ∃ y, y ∈ acc ∧ y = "..")).
Proof.
  unfold clean_step. destruct (decide (e = "")); [rewrite bool_decide_eq_true_2 by done; by left|].
  rewrite bool_decide_eq_false_2 by done. simpl.
  case_bool_decide; [by left|]. case_bool_decide; [subst e|set_solver].
  destruct acc as [|y acc]; [destruct rooted; set_solver|].
  case_bool_decide; [|intros; left; set_solver].
  intros [->|Hx]%elem_of_cons; [|by left]. right. split_and!; [done..|].
  intros _ _. exists y. set_solver.
Qed.

Lemma clean_elems_inv rooted es x :
  x ∈ clean_elems rooted es → x ∈ es ∧ x ≠ "" ∧ x ≠ "." ∧ (rooted = true → x ≠ "..").
Proof.
  unfold clean_elems. rewrite elem_of_reverse.
  cut (∀ acc, (∀ y, y ∈ acc → y ≠ "" ∧ y ≠ "." ∧ (rooted = true → y ≠ "..")) →
    x ∈ foldl (clean_step rooted) acc es →
    (x ∈ acc ∨ x ∈ es) ∧ x ≠ "" ∧ x ≠ "." ∧ (rooted = true → x ≠ "..")).
  { intros H Hx. destruct (H [] ltac:(set_solver) Hx) as [[?%not_elem_of_nil|?] ?]; done. }
  induction es as [|e es IH]; intros acc Hacc; simpl.
  { intros Hx. split; [by left|by apply Hacc]. }
  intros Hx. apply IH in Hx as [Hin Hx].
  - split; [|done]. destruct Hin as [Hin|]; [|set_solver].
    apply clean_step_inv in Hin. set_solver.
  - intros y [Hy|(-> & H1 & H2 & H3)]%clean_step_inv; [by apply Hacc|]. split_and!; [done..|].
    intros Hr He. destruct (H3 Hr He) as (z & Hz & ->). by apply (Hacc "..") in Hz as (_ & _ & []).
Qed.

Lemma clean_elems_slash rooted p :
  Forall (λ x, slash ∉ bytes x) (clean_elems rooted (Split p slash)).
Proof.
  apply Forall_forall. intros x [Hx _]%clean_elems_inv.
  by eapply (proj1 (Forall_forall _ _) (Split_parts p slash)).
Qed.

(** The elements of a cleaned path. *)
Lemma Clean_rooted p :
  HasPrefix p "/" = true →
  ∃ es, Clean p = "/" +:+ Join es "/" ∧ Forall plain es ∧ Forall (λ x, slash ∉ bytes x) es.
Proof.
  intros Hp. unfold Clean. rewrite Hp. eexists. split; [done|]. split; [|apply clean_elems_slash].
  apply Forall_forall. intros x (_ & ? & ? & ?)%clean_elems_inv. by split_and!; auto.
Qed.
Lemma Clean_relative p :
  HasPrefix p "/" = false →
  Clean p = "." ∨
  ∃ es, Clean p = Join es "/" ∧ es ≠ [] ∧ Forall (λ x, x ≠ "" ∧ x ≠ ".") es ∧
    Forall (λ x, slash ∉ bytes x) es.
Proof.
  intros Hp. unfold Clean. rewrite Hp. case_bool_decide as He; [by left|right].
  eexists. split; [done|]. split; [by intros Hn; rewrite Hn in He|].
  split; [|apply clean_elems_slash].
  apply Forall_forall. intros x (_ & ? & ? & _)%clean_elems_inv. done.
Qed.

Lemma Split_Join_slash es :
  es ≠ [] → Forall (λ x, slash ∉ bytes x) es → Split (Join es "/") slash = es.
Proof. apply (Split_Join es slash). Qed.

Lemma Index_app s p t : is_Some (Index (s +:+ p +:+ t) p).
Proof.
  induction s as [|a s IH].
  - rewrite app_nil_str. pose proof (HasPrefix_app p t) as Hp.
    destruct (p +:+ t); cbn [Index]; rewrite Hp; eauto.
  - rewrite app_cons_str. cbn [Index]. case_match; [eauto|].
    destruct IH as [i ->]. simpl. eauto.
Qed.

Lemma Contains_iff s p : Contains s p = true ↔ ∃ u v, s = u +:+ p +:+ v.
Proof.
  unfold Contains. rewrite bool_decide_eq_true. split; [|intros (u & v & ->); apply Index_app].
  intros [i Hi]. revert i Hi. induction s as [|a s IH]; intros i; cbn [Index]; destruct (HasPrefix _ p) eqn:E.
  1,3: intros _; apply HasPrefix_spec in E as [r ->]; by exists "", r.
  - done.
  - intros [k [Hk _]]%fmap_Some. destruct (IH k Hk) as (u & v & ->). by exists (String a u), v.
Qed.

Lemma Join_elem x es sep : x ∈ es → ∃ s t, Join es sep = s +:+ x +:+ t.
Proof.
  induction es as [|y es IH]; [by intros ?%not_elem_of_nil|].
  intros [->|Hx]%elem_of_cons.
  - destruct es as [|z es]; [exists "", ""; symmetry; apply (str_app_nil_r y)|].
    rewrite Join_cons by done. exists "". eauto.
  - destruct (IH Hx) as (s & t & Hj). rewrite Join_cons by (by intros ->; apply not_elem_of_nil in Hx).
    exists (y +:+ sep +:+ s), t. by rewrite Hj, !str_app_assoc.
Qed.

Lemma Contains_elem x es sep : x ∈ es → Contains (Join es sep) x = true.
Proof.
  intros (s & t & ->)%(Join_elem x es sep). unfold Contains. apply bool_decide_eq_true_2, Index_app.
Qed.

(** Cleaning a path without [.] and [..] only drops the empty elements. *)
Lemma clean_elems_plain rooted es :
  Forall (λ x, x = "" ∨ plain x) es → clean_elems rooted es = filter (λ x, x ≠ "") es.
Proof.
  intros Hes. unfold clean_elems.
  cut (∀ acc, reverse (foldl (clean_step rooted) acc es) = reverse acc ++ filter (λ x, x ≠ "") es).
  { intros H. apply H. }
  induction Hes as [|x es Hx _ IH]; intros acc; [by rewrite app_nil_r|].
  cbn [foldl]. rewrite IH. destruct Hx as [->|(H1 & H2 & H3)].
  - by rewrite filter_cons_False by (by intros []).
  - rewrite filter_cons_True by done. unfold clean_step.
    rewrite !bool_decide_eq_false_2 by done. simpl.
    by rewrite reverse_cons, <- app_assoc.
Qed.

Lemma filter_plain es : Forall plain es → filter (λ x, x ≠ "") es = es.
Proof.
  induction 1 as [|x es [Hx _] _ IH]; [done|]. by rewrite filter_cons_True, IH.
Qed.

Lemma LastIndexByte_app s e c :
  c ∉ bytes e → LastIndexByte (s +:+ String c e) c = Some (String.length s).
Proof.
  intros He. induction s as [|a s IH].
  - rewrite app_nil_str. simpl. rewrite bool_decide_eq_true_2 by done.
    assert (LastIndexByte e c = None) as ->; [|done].
    induction e as [|b e IHe]; [done|]. simpl in *. rewrite IHe by set_solver.
    rewrite bool_decide_eq_false_2; [done|set_solver].
  - rewrite app_cons_str. simpl. by rewrite IH.
Qed.

Lemma Join_snoc es e sep : es ≠ [] → Join (es ++ [e]) sep = Join es sep +:+ sep +:+ e.
Proof.
  induction es as [|x es IH]; [done|]. intros _. destruct es as [|y es]; [done|].
  rewrite <- app_comm_cons, !Join_cons by done. rewrite IH by done. by rewrite !str_app_assoc.
Qed.
Lemma Join_app es fs sep :
  es ≠ [] → fs ≠ [] → Join (es ++ fs) sep = Join es sep +:+ sep +:+ Join fs sep.
Proof.
  intros He Hf. induction es as [|x es IH]; [done|]. destruct es as [|y es].
  - simpl app. by rewrite Join_cons.
  - rewrite <- app_comm_cons, !Join_cons by (done || by destruct es).
    rewrite IH by done. by rewrite !str_app_assoc.
Qed.

(** ** Words and decimal numbers *)

Lemma fields_visible cur a s : visible a = true → fields_go cur (String a s) = fields_go (String a cur) s.
Proof.
  intros Ha. pose proof Ha as Hs. unfold visible in Hs. go_inv. simpl fields_go at 1.
  replace (space1 a) with false by done.
  destruct s as [|b [|c s]]; [done|..]; rewrite visible_space2' by done; [done|].
  by rewrite visible_space3.
Qed.

Lemma fields_word cur w t :
  forallb visible (bytes w) = true → fields_go cur (w +:+ t) = fields_go (String.rev_app w cur) t.
Proof.
  revert cur. induction w as [|a w IH]; intros cur; [done|]. cbn [bytes String.list_ascii_of_string].
  cbn [forallb]. intros [Ha Hw]%andb_true_iff. rewrite app_cons_str, fields_visible by done.
  by apply IH.
Qed.

Lemma field_of_rev w : w ≠ "" → field_of (String.rev_app w "") = [w].
Proof.
  intros Hw. unfold field_of. rewrite rev_app_spec, str_app_nil_r.
  rewrite bool_decide_eq_false_2, rev_rev; [done|].
  intros Hr%(f_equal String.rev). by rewrite rev_rev in Hr.
Qed.

Lemma Fields_cons w s t :
  w ≠ "" → forallb visible (bytes w) = true → space1 s = true →
  Fields (w +:+ String s t) = w :: Fields t.
Proof.
  intros Hn Hw Hs. unfold Fields. rewrite fields_word by done. cbn [fields_go].
  by rewrite Hs, field_of_rev.
Qed.
Lemma Fields_last w : w ≠ "" → forallb visible (bytes w) = true → Fields w = [w].
Proof.
  intros Hn Hw. unfold Fields. rewrite <- (str_app_nil_r w) at 1. rewrite fields_word by done.
  by apply field_of_rev.
Qed.

Definition dec_from (v : Z) (s : string) : Z :=
  foldl (λ v a, 10 * v + (Z.of_N (byte_val a) - 48))%Z v (bytes s).

Lemma digit_char n :
  (n < 10)%N → is_digit (pretty_N_char n) = true ∧
    (Z.of_N (byte_val (pretty_N_char n)) - 48 = Z.of_N n)%Z.
Proof.
  intros Hn. assert (n = 0 ∨ n = 1 ∨ n = 2 ∨ n = 3 ∨ n = 4 ∨ n = 5 ∨ n = 6 ∨ n = 7 ∨ n = 8 ∨ n = 9)%N
    as Hc by lia. by decompose [or] Hc; subst.
Qed.

Lemma pretty_N_go_dec x s :
  dec_from 0 (pretty_N_go x s) = dec_from (Z.of_N x) s ∧
  (forallb is_digit (bytes (pretty_N_go x s)) = forallb is_digit (bytes s)) ∧
  (s ≠ "" → pretty_N_go x s ≠ "").
Proof.
  revert s. induction (N.lt_wf_0 x) as [x _ IH]; intros s.
  assert (x = 0 ∨ 0 < x)%N as [->|Hx] by lia; [by rewrite pretty_N_go_0|].
  rewrite pretty_N_go_step by done. pose proof (N.mod_lt x 10 ltac:(done)) as Hm.
  destruct (digit_char _ Hm) as [Hd Hv].
  destruct (IH (x `div` 10)%N ltac:(by apply N.div_lt) (String (pretty_N_char (x `mod` 10)) s))
    as (H1 & H2 & H3). rewrite H1, H2. split_and!.
  - unfold dec_from. cbn [bytes String.list_ascii_of_string foldl]. rewrite Hv. f_equal.
    pose proof (N.div_mod x 10 ltac:(done)). lia.
  - cbn [bytes String.list_ascii_of_string forallb]. by rewrite Hd.
  - intros _. by apply H3.
Qed.

Lemma Itoa_digits z :
  (0 ≤ z)%Z → Itoa z ≠ "" ∧ forallb is_digit (bytes (Itoa z)) = true ∧ dec_from 0 (Itoa z) = z.
Proof.
  intros Hz. unfold Itoa. destruct z as [|p|p]; [done| |lia].
  change (pretty (Z.pos p)) with (pretty_N_go (N.pos p) "").
  rewrite pretty_N_go_step by done. set (c := pretty_N_char _).
  destruct (pretty_N_go_dec (N.pos p `div` 10) (String c "")) as (H1 & H2 & H3).
  destruct (pretty_N_go_dec (N.pos p) "") as (H4 & H5 & _).
  rewrite pretty_N_go_step in H4, H5 by done. fold c in H4, H5. split_and!; [by apply H3|done|].
  by rewrite H4.
Qed.

(** A number that is printed is read back. *)
Lemma Atoi_Itoa z : (0 ≤ z < 2 ^ 63)%Z → Atoi (Itoa z) = Some z.
Proof.
  intros [Hz Hm]. destruct (Itoa_digits z Hz) as (Hn & Hd & Hv). unfold Atoi.
  destruct (Itoa z) as [|a s] eqn:E; [done|].
  assert (is_digit a = true) as Ha. { simpl in Hd. by go_inv. }
  assert (a ≠ byte 45 ∧ a ≠ byte 43) as [H1 H2] by (split; by intros ->).
  rewrite (bool_decide_eq_false_2 (a = byte 45)), (bool_decide_eq_false_2 (a = byte 43)) by done.
  rewrite bool_decide_eq_false_2, Hd by done. cbn [orb negb].
  change (dec_val (String a s)) with (dec_from 0 (String a s)). rewrite Hv, Z.mul_1_l.
  assert ((- 2 ^ 63 <=? z)%Z && (z <? 2 ^ 63)%Z = true) as ->; [|done].
  apply andb_true_iff. split; [apply Z.leb_le|apply Z.ltb_lt]; lia.
Qed.

Lemma is_digit_visible a : is_digit a = true → visible a = true.
Proof. destruct a as [[] [] [] [] [] [] [] []]; vm_compute; done. Qed.
Lemma Itoa_visible z : (0 ≤ z)%Z → forallb visible (bytes (Itoa z)) = true.
Proof.
  intros Hz. destruct (Itoa_digits z Hz) as (_ & Hd & _). revert Hd. rewrite !forallb_forall.
  intros Hd x Hx. by apply is_digit_visible, Hd.
Qed.
