(* ===== verification/Duration.v ===== *)
(** * Durations: [time.ParseDuration], [time.Duration.String]

    A duration is its number of nanoseconds. A fraction is scaled with float64
    arithmetic, as Go does it. *)

From Stdlib Require Import Floats.SpecFloat.
From S2P Require Import Prelude GoStrings GoText.

Module duration.

Definition Second : Z := 1000000000.
Definition Minute : Z := 60 * Second.
Definition Hour : Z := 60 * Minute.

(** ** Parsing *)

Definition digit (a : ascii) : Z := (Z.of_N (byte_val a) - 48)%Z.
Definition is_dec (a : ascii) : bool := in_range 48 57 a.

(** The value of the leading digits, or none on overflow, and the rest. *)
Fixpoint leadingInt (x : Z) (s : string) : option Z * string :=
  match s with
  | String a rest =>
      if is_dec a then
        if (2 ^ 63 / 10 <? x)%Z then (None, s)
        else
          let x := (x * 10 + digit a)%Z in
          if (2 ^ 63 <? x)%Z then (None, s) else leadingInt x rest
      else (Some x, s)
  | "" => (Some x, s)
  end.

(** Digits of a fraction, how many of them count, and the rest. *)
Fixpoint leadingFraction (x : Z) (scale : nat) (overflow : bool) (s : string) : Z * nat * string :=
  match s with
  | String a rest =>
      if is_dec a then
        if overflow then leadingFraction x scale true rest
        else if ((2 ^ 63 - 1) / 10 <? x)%Z then leadingFraction x scale true rest
        else
          let y := (x * 10 + digit a)%Z in
          if (2 ^ 63 <? y)%Z then leadingFraction x scale true rest
          else leadingFraction y (S scale) false rest
      else (x, scale, s)
  | "" => (x, scale, s)
  end.

Definition unit_of (u : string) : option Z :=
  if u == "ns" then Some 1%Z
  else if (u == "us") || (u == "µs") || (u == "μs") then Some 1000%Z
  else if u == "ms" then Some 1000000%Z
  else if u == "s" then Some Second else if u == "m" then Some Minute else if u == "h" then Some Hour
  else None.

(** The name of a unit goes up to the next digit or point. *)
Fixpoint take_unit (s : string) : string * string :=
  match s with
  | String a rest =>
      if (a == byte 46) || is_dec a then ("", s)
      else let '(u, rest) := take_unit rest in (String a u, rest)
  | "" => ("", "")
  end.

Definition float_of (n : Z) : spec_float := binary_normalize 53 1024 n 0 false.
(** The power of ten that [leadingFraction] has multiplied up in float64. *)
Fixpoint pow10 (n : nat) : spec_float :=
  match n with
  | O => float_of 1
  | S n => SFmul 53 1024 (pow10 n) (float_of 10)
  end.
(** Conversion to an unsigned integer truncates; the operand is never negative. *)
Definition truncate (x : spec_float) : Z :=
  match x with
  | S754_finite false m e => if (0 <=? e)%Z then (Zpos m * 2 ^ e)%Z else (Zpos m / 2 ^ (- e))%Z
  | _ => 0%Z
  end.

Definition scale_fraction (f unit : Z) (scale : nat) : Z :=
  truncate (SFmul 53 1024 (float_of f) (SFdiv 53 1024 (float_of unit) (pow10 scale))).

(** One number with its unit, and the rest. *)
Definition parse_part (s : string) : option (Z * string) :=
  match s with
  | "" => None
  | String a _ =>
      if negb ((a == byte 46) || is_dec a) then None
      else
        let '(v, s1) := leadingInt 0 s in
        v ← v;
        let pre := negb (String.length s1 =? String.length s)%nat in
        let '(f, scale, s2, post) :=
          match s1 with
          | String c rest =>
              if c == byte 46 then
                let '(f, scale, s2) := leadingFraction 0 0 false rest in
                (f, scale, s2, negb (String.length s2 =? String.length rest)%nat)
              else (0%Z, O, s1, false)
          | "" => (0%Z, O, s1, false)
          end in
        if negb pre && negb post then None
        else
          let '(u, rest) := take_unit s2 in
          if u == "" then None
          else
            unit ← unit_of u;
            if (2 ^ 63 / unit <? v)%Z then None
            else
              let v := (v * unit)%Z in
              let v := if (0 <? f)%Z then (v + scale_fraction f unit scale)%Z else v in
              if (2 ^ 63 <? v)%Z then None else Some (v, rest)
  end.

(** The loop over the parts. A part takes at least one byte, so the length of the
    text is enough fuel. *)
Fixpoint parse_parts (fuel : nat) (d : Z) (s : string) : option Z :=
  if s == "" then Some d
  else match fuel with
       | O => None
       | S fuel =>
           '(v, rest) ← parse_part s;
           if (2 ^ 63 <? d + v)%Z then None else parse_parts fuel (d + v) rest
       end.

Lemma leadingInt_length x s : (String.length (leadingInt x s).2 ≤ String.length s)%nat.
Proof.
  revert x. induction s as [|a s IH]; intros x; [done|]. cbn [leadingInt]. repeat case_match; simpl; try lia.
  specialize (IH (x * 10 + digit a)%Z). lia.
Qed.
Lemma leadingFraction_length x n o s : (String.length (leadingFraction x n o s).2 ≤ String.length s)%nat.
Proof.
  revert x n o. induction s as [|a s IH]; intros x n o; [done|]. cbn [leadingFraction].
  repeat case_match; simpl; try lia; etrans; try apply IH; lia.
Qed.
Lemma take_unit_length s : (String.length (take_unit s).1 + String.length (take_unit s).2 = String.length s)%nat.
Proof.
  induction s as [|a s IH]; [done|]. cbn [take_unit]. case_match; [done|]. destruct (take_unit s). simpl in *. lia.
Qed.
Lemma parse_part_length s v rest : parse_part s = Some (v, rest) → (String.length rest < String.length s)%nat.
Proof.
  unfold parse_part. destruct s as [|a s]; [done|]. destruct (negb _); [done|].
  pose proof (leadingInt_length 0 (String a s)) as H1. destruct (leadingInt 0 (String a s)) as [x s1]. simpl in H1.
  destruct x as [x|]; [|done]. cbn [mbind option_bind].
  assert (∃ f scale s2 post,
    match s1 with
    | String c rest =>
        if c == byte 46 then
          let '(f, scale, s2) := leadingFraction 0 0 false rest in
          (f, scale, s2, negb (String.length s2 =? String.length rest)%nat)
        else (0%Z, O, s1, false)
    | "" => (0%Z, O, s1, false)
    end = (f, scale, s2, post) ∧ (String.length s2 ≤ String.length s1)%nat) as (f & scale & s2 & post & -> & H2).
  { destruct s1 as [|c r]; [by eexists _, _, _, _|]. case_bool_decide; [|by eexists _, _, _, _].
    pose proof (leadingFraction_length 0 0 false r) as H3. destruct (leadingFraction 0 0 false r) as [[f n] s2].
    eexists _, _, _, _. split; [done|]. simpl in *. lia. }
  destruct (_ && _); [done|]. pose proof (take_unit_length s2) as H3. destruct (take_unit s2) as [u r]. simpl in H3.
  case_bool_decide as Hu; [done|]. destruct (unit_of u); [|done]. cbn [mbind option_bind].
  repeat case_match; intros [= _ <-]; destruct u; simpl in *; done || lia.
Qed.
Lemma parse_parts_fuel fuel fuel' d s :
  (String.length s ≤ fuel)%nat → (String.length s ≤ fuel')%nat → parse_parts fuel d s = parse_parts fuel' d s.
Proof.
  revert fuel' d s. induction fuel as [|fuel IH]; intros [|fuel'] d s H1 H2; destruct s as [|a s]; try done;
    [simpl in *; lia..|].
  cbn [parse_parts]. case_bool_decide; [done|]. destruct (parse_part (String a s)) as [[v rest]|] eqn:E; [|done].
  apply parse_part_length in E. cbn [mbind option_bind]. case_match; [done|]. apply IH; lia.
Qed.

Definition ParseDuration (s : string) : option Z :=
  let '(neg, s) :=
    match s with
    | String a rest => if a == byte 45 then (true, rest) else if a == byte 43 then (false, rest) else (false, s)
    | "" => (false, "")
    end in
  if s == "0" then Some 0%Z
  else if s == "" then None
  else
    d ← parse_parts (String.length s) 0 s;
    if neg then Some (- d)%Z else if (2 ^ 63 - 1 <? d)%Z then None else Some d.

Example parse_delay : ParseDuration "1m2.5s" = Some 62500000000%Z.
Proof. vm_compute. reflexivity. Qed.
Example parse_small : ParseDuration "-1.5h3us" = Some (-5400000003000)%Z.
Proof. vm_compute. reflexivity. Qed.
Example parse_unitless : ParseDuration "10" = None.
Proof. vm_compute. reflexivity. Qed.

(** ** Printing *)

(** [n / 10^prec] with its fraction, without zeros at the end. *)
Fixpoint frac_digits (prec : nat) (print : bool) (n : Z) : string * Z :=
  match prec with
  | O => ("", n)
  | S prec =>
      let d := (n mod 10)%Z in
      let print := print || negb (d =? 0)%Z in
      let '(text, rest) := frac_digits prec print (n / 10) in
      (if print then text +:+ Itoa d else text, rest)
  end.
Definition with_frac (prec : nat) (n : Z) : string :=
  let '(text, whole) := frac_digits prec false n in
  Itoa whole +:+ (if text == "" then "" else "." +:+ text).

Definition String_ (d : Z) : string :=
  let u := Z.abs d in
  (if (d <? 0)%Z then "-" else "") +:+
  (if (u <? Second)%Z then
     if (u =? 0)%Z then "0s"
     else if (u <? 1000)%Z then Itoa u +:+ "ns"
     else if (u <? 1000000)%Z then with_frac 3 u +:+ "µs"
     else with_frac 6 u +:+ "ms"
   else
     let '(frac, secs) := frac_digits 9 false u in
     let sec := Itoa (secs mod 60) +:+ (if frac == "" then "" else "." +:+ frac) +:+ "s" in
     let mins := (secs / 60)%Z in
     if (mins =? 0)%Z then sec
     else
       let hours := (mins / 60)%Z in
       (if (hours =? 0)%Z then "" else Itoa hours +:+ "h") +:+ Itoa (mins mod 60) +:+ "m" +:+ sec).

Example print_delay : String_ 62500000000 = "1m2.5s".
Proof. vm_compute. reflexivity. Qed.
Example print_hours : String_ 3600000000000 = "1h0m0s".
Proof. vm_compute. reflexivity. Qed.
Example print_small : String_ 1500 = "1.5µs".
Proof. vm_compute. reflexivity. Qed.

(** ** What is parsed fits a duration *)

Lemma leadingInt_nonneg x s v rest : (0 ≤ x)%Z → leadingInt x s = (Some v, rest) → (0 ≤ v)%Z.
Proof.
  revert x. induction s as [|a s IH]; intros x Hx; cbn [leadingInt]; [by intros [= <- _]|].
  destruct (is_dec a) eqn:Ha; [|by intros [= <- _]]. destruct (_ <? x)%Z; [done|].
  destruct (_ <? _)%Z; [done|]. apply IH. clear - Hx Ha. unfold is_dec, in_range in Ha. unfold digit.
  apply andb_true_iff in Ha as [Ha _]. apply N.leb_le in Ha. lia.
Qed.

Lemma truncate_nonneg x : (0 ≤ truncate x)%Z.
Proof.
  destruct x as [| | |[] m e]; simpl; try lia. destruct (Z.leb_spec 0 e) as [He|He].
  - pose proof (Z.pow_nonneg 2 e). lia.
  - apply Z.div_pos; [lia|]. apply Z.pow_pos_nonneg; lia.
Qed.

Lemma unit_of_pos u n : unit_of u = Some n → (0 < n)%Z.
Proof. unfold unit_of. repeat case_match; intros [= <-]; done. Qed.

Lemma parse_part_nonneg s v rest : parse_part s = Some (v, rest) → (0 ≤ v)%Z.
Proof.
  unfold parse_part. destruct s as [|a s]; [done|]. destruct (negb _); [done|].
  destruct (leadingInt 0 (String a s)) as [[x|] s1] eqn:El; [|done]. cbn [mbind option_bind].
  apply leadingInt_nonneg in El; [|done].
  destruct (match s1 with "" => _ | String _ _ => _ end) as [[[f scale] s2] post].
  destruct (_ && _); [done|]. destruct (take_unit s2) as [u r]. case_bool_decide; [done|].
  destruct (unit_of u) as [unit|] eqn:Hu; [|done]. apply unit_of_pos in Hu. cbn [mbind option_bind].
  destruct (_ <? x)%Z; [done|]. destruct (_ <? _)%Z eqn:Hv; [done|]. intros [= <- _].
  pose proof (truncate_nonneg (SFmul 53 1024 (float_of f) (SFdiv 53 1024 (float_of unit) (pow10 scale)))).
  unfold scale_fraction. destruct (0 <? f)%Z; nia.
Qed.

Lemma parse_parts_range fuel d s r :
  (0 ≤ d ≤ 2 ^ 63)%Z → parse_parts fuel d s = Some r → (0 ≤ r ≤ 2 ^ 63)%Z.
Proof.
  revert d s. induction fuel as [|fuel IH]; intros d s Hd; cbn [parse_parts]; case_bool_decide.
  1,3: by intros [= <-]. 1: done.
  intros ([v rest] & Hv%parse_part_nonneg & Hr)%bind_Some.
  destruct (Z.ltb_spec (2 ^ 63) (d + v)); [done|]. eapply IH; [|done]. lia.
Qed.

Lemma ParseDuration_range s d : ParseDuration s = Some d → (- 2 ^ 63 ≤ d < 2 ^ 63)%Z.
Proof.
  unfold ParseDuration. destruct (match s with "" => _ | String _ _ => _ end) as [neg s1].
  case_bool_decide; [by intros [= <-]|]. case_bool_decide; [done|].
  intros (r & Hr & Hd)%bind_Some. apply parse_parts_range in Hr; [|lia]. destruct neg; [injection Hd as <-; lia|].
  destruct (Z.ltb_spec (2 ^ 63 - 1) r); [done|]. injection Hd as <-. lia.
Qed.

End duration.
