(* ===== verification/Flags.v ===== *)
(** * Command line flags: Go's [flag] package

    [Parse] is [FlagSet.Parse] of a flag set with string, bool, int and duration flags, and
    [ParseInt] is [strconv.ParseInt] with base 0 and 64 bits, which int flags are
    read with. A flag set is the map from names to current values. *)

From S2P Require Import Prelude GoStrings GoText Duration.

(** ** [strconv.Quote] of UTF-8 text

    Every character outside ASCII counts as printable. *)

Definition escape_byte (a : ascii) : string :=
  let n := byte_val a in
  if (n =? 34)%N || (n =? 92)%N then of_bytes [byte 92; a]
  else if (n =? 7)%N then "\a" else if (n =? 8)%N then "\b" else if (n =? 12)%N then "\f"
  else if (n =? 10)%N then "\n" else if (n =? 13)%N then "\r" else if (n =? 9)%N then "\t"
  else if (n =? 11)%N then "\v"
  else if (n <? 32)%N || (n =? 127)%N then "\x" +:+ hex_pad 2 n
  else of_bytes [a].

Fixpoint escape (s : string) : string :=
  match s with
  | "" => ""
  | String a s => escape_byte a +:+ escape s
  end.
Definition Quote (s : string) : string := String (byte 34) (escape s +:+ String (byte 34) "").

Module flag.

Inductive Value :=
| VString (s : string)
| VBool (b : bool)
| VInt (n : Z)
| VDuration (d : Z).

Notation FlagSet := (gmap string Value).

Definition get_string (fs : FlagSet) (name : string) : string :=
  match fs !! name with Some (VString s) => s | _ => "" end.
Definition get_bool (fs : FlagSet) (name : string) : bool :=
  match fs !! name with Some (VBool b) => b | _ => false end.
Definition get_int (fs : FlagSet) (name : string) : Z :=
  match fs !! name with Some (VInt n) => n | _ => 0%Z end.

Definition get_duration (fs : FlagSet) (name : string) : Z :=
  match fs !! name with Some (VDuration d) => d | _ => 0%Z end.

(** ** Numbers *)

Inductive NumErr := ErrSyntax | ErrRange.

Definition is_letter (lo hi : N) (a : ascii) : bool := in_range lo hi (lower_byte a).

Definition digit_of (a : ascii) : option Z :=
  if is_digit a then Some (Z.of_N (byte_val a) - 48)%Z
  else if is_letter 97 122 a then Some (Z.of_N (byte_val (lower_byte a)) - 87)%Z
  else None.

(** Underscores are skipped; whether they are in a legal place is checked at the end. *)
Fixpoint uint_digits (base n : Z) (s : string) : result NumErr Z :=
  match s with
  | "" => Ok n
  | String a s =>
      if a == byte 95 then uint_digits base n s
      else match digit_of a with
           | None => Err ErrSyntax
           | Some d =>
               if (base <=? d)%Z then Err ErrSyntax
               else if (2 ^ 64 <=? n * base + d)%Z then Err ErrRange
               else uint_digits base (n * base + d) s
           end
  end.

Definition base_prefix (s : string) : Z * string :=
  match s with
  | String z rest =>
      if z == byte 48 then
        match rest with
        | String b (String _ _ as digits) =>
            let b := lower_byte b in
            if b == byte 98 then (2%Z, digits) else if b == byte 111 then (8%Z, digits)
            else if b == byte 120 then (16%Z, digits) else (8%Z, rest)
        | _ => (8%Z, rest)
        end
      else (10%Z, s)
  | "" => (10%Z, s)
  end.

(** The kind of the byte before the current one. *)
Inductive before := BStart | BDigit | BUnder | BOther.

Fixpoint underscores (hex : bool) (i : before) (s : string) : bool :=
  match s with
  | "" => match i with BUnder => false | _ => true end
  | String a s =>
      if is_digit a || (hex && is_letter 97 102 a) then underscores hex BDigit s
      else if a == byte 95 then match i with BDigit => underscores hex BUnder s | _ => false end
      else match i with BUnder => false | _ => underscores hex BOther s end
  end.

(** On a string without a sign. *)
Definition underscoreOK (s : string) : bool :=
  match s with
  | String z (String b digits) =>
      let b := lower_byte b in
      if (z == byte 48) && ((b == byte 98) || (b == byte 111) || (b == byte 120)) then
        underscores (b == byte 120) BDigit digits
      else underscores false BStart s
  | _ => underscores false BStart s
  end.

Definition ParseUint (s : string) : result NumErr Z :=
  if s == "" then Err ErrSyntax
  else
    let '(base, digits) := base_prefix s in
    let? n := uint_digits base 0 digits in
    if bool_decide (byte 95 ∈ bytes digits) && negb (underscoreOK s) then Err ErrSyntax else Ok n.

Definition ParseInt (s : string) : result NumErr Z :=
  let '(neg, rest) :=
    match s with
    | String a s' => if a == byte 43 then (false, s') else if a == byte 45 then (true, s') else (false, s)
    | "" => (false, "")
    end in
  let? n := ParseUint rest in
  if negb neg && (2 ^ 63 <=? n)%Z then Err ErrRange
  else if neg && (2 ^ 63 <? n)%Z then Err ErrRange
  else Ok (if neg then - n else n)%Z.

Definition ParseBool (s : string) : option bool :=
  if bool_decide (s ∈ ["1"; "t"; "T"; "true"; "TRUE"; "True"]) then Some true
  else if bool_decide (s ∈ ["0"; "f"; "F"; "false"; "FALSE"; "False"]) then Some false
  else None.

(** ** Parsing arguments *)

Definition num_error (e : NumErr) : string :=
  match e with ErrSyntax => "parse error" | ErrRange => "value out of range" end.

(** Setting a flag that takes an argument. *)
Definition set_value (v : Value) (name value : string) : result string Value :=
  match v with
  | VString _ => Ok (VString value)
  | VInt _ =>
      match ParseInt value with
      | Ok n => Ok (VInt n)
      | Err e => Err ("invalid value " +:+ Quote value +:+ " for flag -" +:+ name +:+ ": " +:+ num_error e)
      end
  | VDuration _ =>
      match duration.ParseDuration value with
      | Some d => Ok (VDuration d)
      | None => Err ("invalid value " +:+ Quote value +:+ " for flag -" +:+ name +:+ ": parse error")
      end
  | VBool _ =>
      match ParseBool value with
      | Some b => Ok (VBool b)
      | None => Err ("invalid boolean value " +:+ Quote value +:+ " for -" +:+ name +:+ ": parse error")
      end
  end.

(** What an argument is: not a flag, the end of the flags, malformed, or a name with
    perhaps a value. *)
Inductive Arg :=
| ANone
| AEnd
| ABad
| AFlag (name : string) (value : option string).

Definition name_value (name : string) : Arg :=
  match name with
  | "" => ABad
  | String c rest =>
      if (c == byte 45) || (c == byte 61) then ABad
      else match IndexByte rest (byte 61) with
           | Some i => AFlag (String c (str_take i rest)) (Some (str_drop (S i) rest))
           | None => AFlag name None
           end
  end.

Definition arg_of (s : string) : Arg :=
  match s with
  | String a (String b rest) =>
      if a == byte 45 then
        if b == byte 45 then if rest == "" then AEnd else name_value rest
        else name_value (String b rest)
      else ANone
  | _ => ANone
  end.

(** The flags and the arguments that are left. *)
Fixpoint Parse (fs : FlagSet) (args : list string) : result string (FlagSet * list string) :=
  match args with
  | [] => Ok (fs, [])
  | s :: args' =>
      match arg_of s with
      | ANone => Ok (fs, args)
      | AEnd => Ok (fs, args')
      | ABad => Err ("bad flag syntax: " +:+ s)
      | AFlag name value =>
          match fs !! name with
          | None =>
              if (name == "help") || (name == "h") then Err "flag: help requested"
              else Err ("flag provided but not defined: -" +:+ name)
          | Some (VBool _ as v) =>
              let? v := set_value v name (default "true" value) in Parse (<[name := v]> fs) args'
          | Some v =>
              match value, args' with
              | Some value, _ => let? v := set_value v name value in Parse (<[name := v]> fs) args'
              | None, value :: args' => let? v := set_value v name value in Parse (<[name := v]> fs) args'
              | None, [] => Err ("flag needs an argument: -" +:+ name)
              end
          end
      end
  end.

(** ** Reading back what is printed *)

Lemma pretty_N_go_head x s :
  x ≠ 0%N → ∃ a s', pretty_N_go x s = String a s' ∧ a ≠ byte 48.
Proof.
  revert s. induction (N.lt_wf_0 x) as [x _ IH]; intros s Hx. rewrite pretty_N_go_step by lia.
  destruct (decide (x `div` 10 = 0)%N) as [Hz|Hz].
  - rewrite Hz, pretty_N_go_0. eexists _, _. split; [done|]. apply N.div_small_iff in Hz; [|lia].
    rewrite N.mod_small by done. destruct (digit_char x) as [_ Hv]; [done|]. intros Hc.
    rewrite Hc in Hv. change (Z.of_N (byte_val (byte 48))) with 48%Z in Hv. lia.
  - apply IH; [|done]. apply N.div_lt; lia.
Qed.

Lemma is_digit_val a :
  is_digit a = true → digit_of a = Some (Z.of_N (byte_val a) - 48)%Z ∧
    (0 ≤ Z.of_N (byte_val a) - 48 < 10)%Z ∧ a ≠ byte 95.
Proof. unfold digit_of. intros Hd. rewrite Hd. destruct a as [[] [] [] [] [] [] [] []]; done. Qed.

Lemma dec_from_mono v s : (0 ≤ v)%Z → forallb is_digit (bytes s) = true → (v ≤ dec_from v s)%Z.
Proof.
  revert v. induction s as [|a s IH]; intros v Hv Hd; [done|]. simpl in Hd. go_inv.
  destruct (is_digit_val a) as (_ & Hr & _); [done|]. unfold dec_from in *. simpl.
  etrans; [|apply IH; [lia|done]]. lia.
Qed.

Lemma uint_digits_dec v s :
  (0 ≤ v)%Z → forallb is_digit (bytes s) = true → (dec_from v s < 2 ^ 64)%Z →
  uint_digits 10 v s = Ok (dec_from v s).
Proof.
  revert v. induction s as [|a s IH]; intros v Hv Hd Hm; [done|].
  pose proof Hd as Hd'. simpl in Hd'. apply andb_true_iff in Hd' as [Ha Hs].
  destruct (is_digit_val a) as (Hda & Hr & Hu); [done|]. cbn [uint_digits].
  rewrite bool_decide_eq_false_2, Hda by done. set (d := (_ - 48)%Z) in *.
  change (dec_from v (String a s)) with (dec_from (10 * v + d) s) in *.
  pose proof (dec_from_mono (10 * v + d) s ltac:(lia) Hs).
  destruct (Z.leb_spec 10 d); [lia|]. destruct (Z.leb_spec (2 ^ 64) (v * 10 + d)); [lia|].
  rewrite <- IH by (done || lia). f_equal. lia.
Qed.

Lemma no_underscore s : forallb is_digit (bytes s) = true → byte 95 ∉ bytes s.
Proof. rewrite forallb_forall. intros Hd Hin. apply list_elem_of_In, Hd in Hin. done. Qed.

Lemma ParseInt_Itoa z : (0 ≤ z < 2 ^ 63)%Z → ParseInt (Itoa z) = Ok z.
Proof.
  intros [Hz Hm]. destruct (decide (z = 0)%Z) as [->|Hne]; [done|].
  destruct (Itoa_digits z Hz) as (Hn & Hd & Hv).
  destruct (pretty_N_go_head (Z.to_N z) "") as (a & s & Ha & H48); [lia|].
  assert (Itoa z = String a s) as Hi.
  { rewrite <- Ha. unfold Itoa. destruct z; try lia. done. }
  rewrite Hi in *. pose proof Hd as Hd'. simpl in Hd'. apply andb_true_iff in Hd' as [Hda _].
  unfold ParseInt. rewrite (bool_decide_eq_false_2 (a = byte 43)), (bool_decide_eq_false_2 (a = byte 45))
    by (by intros ->). unfold ParseUint, base_prefix.
  rewrite (bool_decide_eq_false_2 (_ = "")), (bool_decide_eq_false_2 (a = byte 48)) by done.
  rewrite uint_digits_dec by (done || lia). unfold rbind.
  rewrite bool_decide_eq_false_2 by (by apply no_underscore). cbn [andb negb]. rewrite Hv.
  destruct (Z.leb_spec (2 ^ 63) z); [lia|done].
Qed.

(** ** Parsing flags one by one *)

(** The name of a flag: not empty, no [=] in it, no [-] in front. *)
Definition flag_name (name : string) : bool :=
  match name with
  | "" => false
  | String c _ => (c != byte 45) && bool_decide (byte 61 ∉ bytes name)
  end.

Lemma IndexByte_none s c : c ∉ bytes s → IndexByte s c = None.
Proof.
  induction s as [|a s IH]; [done|]. simpl. intros [Hne Hs]%not_elem_of_cons.
  rewrite bool_decide_eq_false_2 by done. by rewrite IH.
Qed.

Lemma arg_of_name name : flag_name name = true → arg_of ("-" +:+ name) = AFlag name None.
Proof.
  destruct name as [|c name]; [done|]. simpl. intros Hn. go_inv.
  match goal with H : _ ∉ _ |- _ => apply not_elem_of_cons in H as [Hc Hs] end.
  unfold arg_of. simpl. rewrite (bool_decide_eq_false_2 (c = byte 45)) by done. unfold name_value.
  rewrite (bool_decide_eq_false_2 (c = byte 61)) by done. simpl. by rewrite IndexByte_none.
Qed.

Lemma Parse_string fs name old value args :
  flag_name name = true → fs !! name = Some (VString old) →
  Parse fs (("-" +:+ name) :: value :: args) = Parse (<[name := VString value]> fs) args.
Proof. intros Hn Hf. cbn [Parse]. by rewrite arg_of_name, Hf. Qed.

Lemma Parse_int fs name old n args :
  flag_name name = true → fs !! name = Some (VInt old) → (0 ≤ n < 2 ^ 63)%Z →
  Parse fs (("-" +:+ name) :: Itoa n :: args) = Parse (<[name := VInt n]> fs) args.
Proof. intros Hn Hf Hr. cbn [Parse]. rewrite arg_of_name, Hf by done. simpl. by rewrite ParseInt_Itoa. Qed.

Lemma Parse_bool fs name old args :
  flag_name name = true → fs !! name = Some (VBool old) →
  Parse fs (("-" +:+ name) :: args) = Parse (<[name := VBool true]> fs) args.
Proof. intros Hn Hf. cbn [Parse]. by rewrite arg_of_name, Hf. Qed.

(** Parsing keeps the names and the kinds of the flags. *)
Definition same_kind (v w : Value) : bool :=
  match v, w with
  | VString _, VString _ | VBool _, VBool _ | VInt _, VInt _ | VDuration _, VDuration _ => true
  | _, _ => false
  end.

Lemma set_value_kind v name value v' : set_value v name value = Ok v' → same_kind v v' = true.
Proof. destruct v; simpl; repeat case_match; by intros [= <-]. Qed.

(** ** Ranges *)

Definition int_range (fs : FlagSet) : Prop :=
  ∀ name n, fs !! name = Some (VInt n) → (- 2 ^ 63 ≤ n < 2 ^ 63)%Z.

Lemma uint_digits_nonneg base n s m :
  (0 < base)%Z → (0 ≤ n)%Z → uint_digits base n s = Ok m → (0 ≤ m)%Z.
Proof.
  intros Hbase. revert n. induction s as [|a s IH]; intros n Hn; simpl; [by intros [= <-]|].
  case_bool_decide; [by apply IH|]. destruct (digit_of a) as [d|] eqn:Hd; [|done].
  destruct (base <=? d)%Z; [done|]. destruct (_ <=? _)%Z; [done|]. apply IH.
  assert (0 ≤ d)%Z by (clear - Hd; destruct a as [[] [] [] [] [] [] [] []]; vm_compute in Hd; by simplify_eq).
  nia.
Qed.

Lemma ParseUint_nonneg s n : ParseUint s = Ok n → (0 ≤ n)%Z.
Proof.
  unfold ParseUint. case_bool_decide; [done|]. destruct (base_prefix s) as [base digits] eqn:Hb.
  assert (0 < base)%Z as Hbase.
  { clear - Hb. revert Hb. unfold base_prefix. cbv zeta. repeat case_match; intros [= <- _]; lia. }
  destruct (uint_digits base 0 digits) as [m|] eqn:E; [|done]. simpl. case_match; [done|]. intros [= <-].
  by eapply uint_digits_nonneg.
Qed.

Lemma ParseInt_range s n : ParseInt s = Ok n → (- 2 ^ 63 ≤ n < 2 ^ 63)%Z.
Proof.
  unfold ParseInt. destruct (match s with "" => _ | String _ _ => _ end) as [neg rest].
  destruct (ParseUint rest) as [m|] eqn:E; [|done]. apply ParseUint_nonneg in E. simpl.
  destruct neg; simpl; (destruct (_ <? _)%Z eqn:? || destruct (_ <=? _)%Z eqn:?); try done; intros [= <-]; lia.
Qed.

Lemma set_value_range fs name v value v' :
  int_range fs → set_value v name value = Ok v' → int_range (<[name := v']> fs).
Proof.
  intros Hr Hs k n. rewrite lookup_insert_Some. intros [[-> ->]|[_ ?%Hr]]; [|done].
  destruct v; simpl in Hs; repeat case_match; simplify_eq. by eapply ParseInt_range.
Qed.

Lemma Parse_range fs args fs' rest : int_range fs → Parse fs args = Ok (fs', rest) → int_range fs'.
Proof.
  remember (length args) as k eqn:Hk. revert fs args Hk.
  induction (lt_wf k) as [k _ IH]. intros fs [|a args] Hk Hr; simpl in *; [by intros [= <- _]|].
  destruct (arg_of a) as [| | |name value]; [by intros [= <- _]|by intros [= <- _]|done|].
  destruct (fs !! name) as [v|]; [|by destruct (_ || _)].
  assert (∀ value args', (length args' < k)%nat →
    (let? v := set_value v name value in Parse (<[name := v]> fs) args') = Ok (fs', rest) → int_range fs') as Hstep.
  { intros x args' Hl. destruct (set_value v name x) as [v'|] eqn:E; [|done]. simpl.
    apply IH with (length args'); [done|done|by eapply set_value_range]. }
  destruct v; [|apply Hstep; lia| |]; (destruct value; [apply Hstep; lia|]);
    (destruct args as [|x args]; [done|]); apply Hstep; simpl in *; lia.
Qed.

(** ** Flags given or left out *)

Definition over (b : bool) (name : string) (v : Value) (fs : FlagSet) : FlagSet :=
  if b then <[name := v]> fs else fs.
Lemma over_eq b name v fs : over b name v fs !! name = if b then Some v else fs !! name.
Proof. destruct b; simpl; [apply lookup_insert_eq|done]. Qed.
Lemma over_ne b name v fs k : name ≠ k → over b name v fs !! k = fs !! k.
Proof. intros Hk. destruct b; simpl; [by rewrite lookup_insert_ne|done]. Qed.

Definition opt_arg (b : bool) (args : list string) : list string := if b then args else [].

Lemma Parse_opt_string (b : bool) fs name old value args :
  flag_name name = true → fs !! name = Some (VString old) →
  Parse fs (opt_arg b ["-" +:+ name; value] ++ args) = Parse (over b name (VString value) fs) args.
Proof. intros Hn Hf. destruct b; [|done]. exact (Parse_string _ _ _ _ _ Hn Hf). Qed.
Lemma Parse_opt_int (b : bool) fs name old n args :
  flag_name name = true → fs !! name = Some (VInt old) → (b = true → 0 ≤ n < 2 ^ 63)%Z →
  Parse fs (opt_arg b ["-" +:+ name; Itoa n] ++ args) = Parse (over b name (VInt n) fs) args.
Proof. intros Hn Hf Hr. destruct b; [|done]. exact (Parse_int _ _ _ _ _ Hn Hf (Hr eq_refl)). Qed.
Lemma Parse_opt_bool (b : bool) fs name old args :
  flag_name name = true → fs !! name = Some (VBool old) →
  Parse fs (opt_arg b ["-" +:+ name] ++ args) = Parse (over b name (VBool true) fs) args.
Proof. intros Hn Hf. destruct b; [|done]. exact (Parse_bool _ _ _ _ Hn Hf). Qed.

End flag.
