(* ===== verification/GoOS.v ===== *)
(** * A file tree and the operations of Go's [os] on it

    A tree maps physical paths, as lists of elements below the root directory, to
    files, directories and symbolic links. [resolve] is the path lookup of the
    kernel: links on the way are followed, a link at the end only if asked to.
    Permissions, quotas and devices are not modelled: an operation fails for
    reasons of the tree only. *)

From S2P Require Import Prelude GoStrings GoText.

Module os.

Inductive node :=
| NFile (content : string)
| NDir
| NLink (target : string).

Notation tree := (gmap (list string) node).

(** The entry at a physical path; the root directory is always there. *)
Definition entry (t : tree) (q : list string) : option node :=
  if q == [] then Some NDir else t !! q.

(** Path lookup. Linux gives up after forty links. *)
Definition maxLinks : nat := 40.

Fixpoint resolve (links : nat) (t : tree) (follow : bool) (dir todo : list string)
    {struct links} : option (list string) :=
  (fix walk (dir todo : list string) {struct todo} : option (list string) :=
     match todo with
     | [] => Some dir
     | e :: rest =>
         if (e == "") || (e == ".") then walk dir rest
         else if e == ".." then walk (take (length dir - 1) dir) rest
         else
           let q := dir ++ [e] in
           match t !! q with
           | Some NDir => walk q rest
           | Some (NFile _) | None => if rest == [] then Some q else None
           | Some (NLink target) =>
               if (rest == []) && negb follow then Some q
               else match links with
                    | O => None
                    | S links' =>
                        resolve links' t follow (if HasPrefix target "/" then [] else dir)
                          (Split target slash ++ rest)
                    end
           end
     end) dir todo.

Definition elems (p : string) : list string := Split p slash.

Definition lookup_path (t : tree) (follow : bool) (p : string) : option (list string) :=
  resolve maxLinks t follow [] (elems p).

Definition Lstat (t : tree) (p : string) : option node :=
  q ← lookup_path t false p; entry t q.
Definition Stat (t : tree) (p : string) : option node :=
  q ← lookup_path t true p; entry t q.

Definition ReadFile (t : tree) (p : string) : option string :=
  match Stat t p with
  | Some (NFile s) => Some s
  | _ => None
  end.

(** Creates the file or replaces its content. *)
Definition WriteFile (t : tree) (p content : string) : option tree :=
  q ← lookup_path t true p;
  match entry t q with
  | Some (NFile _) | None => Some (<[q := NFile content]> t)
  | _ => None
  end.

Definition has_children (t : tree) (q : list string) : bool :=
  existsb (λ kv, (q != kv.1) && bool_decide (q `prefix_of` kv.1)) (map_to_list t).

(** Removes a file, a link or an empty directory. *)
Definition Remove (t : tree) (p : string) : option tree :=
  q ← lookup_path t false p;
  match entry t q with
  | None => None
  | Some NDir => if (q == []) || has_children t q then None else Some (delete q t)
  | Some _ => Some (delete q t)
  end.

Definition Mkdir (t : tree) (p : string) : option tree :=
  q ← lookup_path t false p;
  match entry t q with
  | None => Some (<[q := NDir]> t)
  | Some _ => None
  end.

(** Makes the directory and the missing ones above it, from the root down. *)
Definition mkdir_one (t : tree) (p : string) : option tree :=
  match Stat t p with
  | Some NDir => Some t
  | Some _ => None
  | None => Mkdir t p
  end.

(** The directories made before a failure stay. *)
Fixpoint mkdir_prefixes (t : tree) (done todo : list string) : bool * tree :=
  match todo with
  | [] => (true, t)
  | e :: rest =>
      let done := done ++ [e] in
      match mkdir_one t (Join done "/") with
      | Some t => mkdir_prefixes t done rest
      | None => (false, t)
      end
  end.
Definition MkdirAll (t : tree) (p : string) : bool * tree := mkdir_prefixes t [] (elems p).

(** ** [path/filepath] on Unix *)

Definition path_Join (a b : string) : string :=
  if a == "" then (if b == "" then "" else Clean b)
  else if b == "" then Clean a else Clean (a +:+ "/" +:+ b).

(** The path a relative name stands for in the working directory [cwd]. *)
Definition from_dir (cwd p : string) : string := if HasPrefix p "/" then p else cwd +:+ "/" +:+ p.

(** [filepath.Abs]; [wd] is the working directory, if it is known. *)
Definition Abs (wd : option string) (p : string) : option string :=
  if HasPrefix p "/" then Some (Clean p) else d ← wd; Some (path_Join d p).

(** [filepath.Dir]. *)
Definition Dir (p : string) : string :=
  match LastIndexByte p slash with
  | Some i => Clean (str_take (S i) p)
  | None => "."
  end.

(** ** Lemmas: directories without links

    [real_dir t r]: the physical path [r] leads to a directory through
    directories, and no entry below it is a link. *)

Record real_dir (t : tree) (r : list string) : Prop := {
  rd_up q : q `prefix_of` r → entry t q = Some NDir;
  rd_down q target : r `prefix_of` q → t !! q ≠ Some (NLink target);
}.

Lemma entry_ne t q : q ≠ [] → entry t q = t !! q.
Proof. intros. unfold entry. by rewrite bool_decide_eq_false_2. Qed.

Lemma prefix_compare {A} (l1 l2 l : list A) :
  l1 `prefix_of` l → l2 `prefix_of` l → l1 `prefix_of` l2 ∨ l2 `prefix_of` l1.
Proof. apply prefix_weak_total. Qed.

Lemma real_dir_no_link t r q target :
  real_dir t r → q `prefix_of` r ∨ r `prefix_of` q → q ≠ [] → t !! q ≠ Some (NLink target).
Proof.
  intros [Hu Hd] [Hq|Hq] Hne; [|by apply Hd]. apply Hu in Hq. rewrite entry_ne in Hq by done.
  congruence.
Qed.

Lemma resolve_nil links t follow dir : resolve links t follow dir [] = Some dir.
Proof. by destruct links. Qed.
Lemma resolve_plain links t follow dir e rest :
  plain e → (∀ target, t !! (dir ++ [e]) ≠ Some (NLink target)) →
  resolve links t follow dir (e :: rest) =
    match t !! (dir ++ [e]) with
    | Some NDir => resolve links t follow (dir ++ [e]) rest
    | _ => if rest == [] then Some (dir ++ [e]) else None
    end.
Proof.
  intros (H1 & H2 & H3) Hl. destruct links; simpl;
    rewrite !bool_decide_eq_false_2 by done; simpl;
    destruct (t !! _) as [[]|] eqn:E; done || by destruct (Hl target).
Qed.

Lemma resolve_below links t follow r dir todo q :
  real_dir t r → r `prefix_of` dir ++ todo → Forall plain todo →
  resolve links t follow dir todo = Some q → q = dir ++ todo.
Proof.
  intros Hr. revert dir. induction todo as [|e todo IH]; intros dir Hp Hall.
  { rewrite resolve_nil, app_nil_r. by intros [= ->]. }
  inversion Hall as [|?? He Hall']; subst. rewrite resolve_plain; [|done|].
  - replace (dir ++ e :: todo) with ((dir ++ [e]) ++ todo) in * by (by rewrite <- app_assoc).
    assert ((if todo == [] then Some (dir ++ [e]) else None) = Some q → q = (dir ++ [e]) ++ todo).
    { case_bool_decide; [|done]. subst todo. rewrite app_nil_r. by intros [= ->]. }
    destruct (t !! _) as [[]|]; auto.
  - intros target. apply (real_dir_no_link t r); [done| |by destruct dir].
    apply (prefix_compare _ _ (dir ++ e :: todo)); [|done].
    exists todo. by rewrite <- app_assoc.
Qed.

(** An absolute path by its elements. *)
Definition abs_path (es : list string) : string := "/" +:+ Join es "/".

Lemma elems_abs es :
  Forall (λ x, slash ∉ bytes x) es → elems (abs_path es) = "" :: (if es == [] then [""] else es).
Proof.
  intros Hes. unfold elems, abs_path.
  change ("/" +:+ Join es "/") with (String slash (Join es "/")). cbn [Split].
  rewrite bool_decide_eq_true_2 by done. f_equal.
  case_bool_decide as Hn; [by subst|]. by apply Split_Join_slash.
Qed.

Lemma lookup_below t follow r es q :
  real_dir t r → r `prefix_of` es → es ≠ [] → Forall plain es →
  Forall (λ x, slash ∉ bytes x) es →
  lookup_path t follow (abs_path es) = Some q → q = es.
Proof.
  intros Hr Hp Hne Hpl Hsl. unfold lookup_path. rewrite elems_abs by done.
  rewrite bool_decide_eq_false_2 by done. intros Hq.
  apply (resolve_below maxLinks t follow r [] es); [done..|].
  revert Hq. unfold maxLinks. generalize 39%nat as n. intros n Hq. exact Hq.
Qed.

(** *** Cleaned absolute paths *)

Definition slashless (e : string) : Prop := slash ∉ bytes e.

Lemma Clean_abs p es :
  HasPrefix p "/" = true → Forall (λ x, x = "" ∨ plain x) (elems p) →
  filter (λ x, x ≠ "") (elems p) = es → Clean p = abs_path es.
Proof. intros Hp Hf <-. unfold Clean. rewrite Hp, clean_elems_plain; done. Qed.

Lemma abs_path_nonempty es : HasPrefix (abs_path es) "/" = true.
Proof. apply HasPrefix_app. Qed.

Lemma Clean_abs_path es : Forall plain es → Forall slashless es → Clean (abs_path es) = abs_path es.
Proof.
  intros Hp Hs. apply Clean_abs; [apply abs_path_nonempty|..]; rewrite elems_abs by done.
  - constructor; [by left|]. case_bool_decide; [repeat constructor|].
    eapply Forall_impl; [exact Hp|]. by right.
  - rewrite filter_cons_False by (by intros []). case_bool_decide; [by subst|by apply filter_plain].
Qed.

(** Joining a cleaned absolute path and a cleaned relative one. *)
Lemma path_Join_abs rs es :
  es ≠ [] → Forall plain (rs ++ es) → Forall slashless (rs ++ es) →
  path_Join (abs_path rs) (Join es "/") = abs_path (rs ++ es).
Proof.
  intros Hne Hp Hs. pose proof Hp as [Hpr Hpe]%Forall_app. pose proof Hs as [Hsr Hse]%Forall_app.
  assert (Join es "/" ≠ "") as Hj.
  { intros Hj. pose proof (Split_Join_slash es Hne Hse) as H. rewrite Hj in H.
    destruct es as [|x [|y es]]; simplify_eq/=. inversion Hpe as [|?? [Hx _]]. by apply Hx. }
  unfold path_Join. rewrite bool_decide_eq_false_2 by done.
  rewrite (bool_decide_eq_false_2 (Join es "/" = "")) by done.
  assert (elems (abs_path rs +:+ "/" +:+ Join es "/") =
          "" :: (if rs == [] then [""] else rs) ++ es) as He.
  { unfold elems at 1. change ("/" +:+ Join es "/") with (String slash (Join es "/")).
    rewrite Split_app. rewrite Split_Join_slash by done.
    pose proof (elems_abs rs Hsr) as Hr. unfold elems in Hr. by rewrite Hr. }
  apply Clean_abs; [apply HasPrefix_spec; unfold abs_path; rewrite str_app_assoc; eauto|..];
    rewrite He.
  - constructor; [by left|]. apply Forall_app. split.
    + case_bool_decide; [repeat constructor|]. eapply Forall_impl; [exact Hpr|]. by right.
    + eapply Forall_impl; [exact Hpe|]. by right.
  - rewrite filter_cons_False by (by intros []). rewrite filter_app.
    rewrite (filter_plain es) by done. f_equal.
    case_bool_decide; [by subst|by apply filter_plain].
Qed.

Lemma Dir_abs ds e :
  Forall plain (ds ++ [e]) → Forall slashless (ds ++ [e]) → Dir (abs_path (ds ++ [e])) = abs_path ds.
Proof.
  intros [Hpd Hpe]%Forall_app [Hsd Hse]%Forall_app. inversion Hse as [|?? He _]; subst.
  assert (∃ s, abs_path (ds ++ [e]) = s +:+ String slash e ∧
    elems (s +:+ "/") = "" :: (if ds == [] then [] else ds) ++ [""]) as (s & Hs & Hel).
  { case_bool_decide as Hd.
    - subst ds. by exists "".
    - exists (abs_path ds). unfold abs_path. rewrite Join_snoc by done. split; [by rewrite str_app_assoc|].
      unfold elems. change ("/" +:+ Join ds "/") with (abs_path ds).
      change ("/") with (String slash "") at 1.
      rewrite Split_app. pose proof (elems_abs ds Hsd) as Hr. unfold elems in Hr. rewrite Hr.
      by rewrite bool_decide_eq_false_2. }
  unfold Dir. rewrite Hs, LastIndexByte_app by done.
  assert (str_take (S (String.length s)) (s +:+ String slash e) = s +:+ "/") as ->.
  { clear. induction s as [|a s IH]; [done|]. rewrite !app_cons_str. cbn [String.length str_take].
    f_equal. exact IH. }
  apply Clean_abs; [|rewrite Hel..].
  - destruct s as [|a s]; [done|]. unfold abs_path in Hs. rewrite !app_cons_str in Hs.
    apply HasPrefix_spec. rewrite app_cons_str. injection Hs as <- _. by eexists.
  - constructor; [by left|]. apply Forall_app. split; [|repeat constructor; by left].
    case_bool_decide; [constructor|]. eapply Forall_impl; [exact Hpd|]. by right.
  - rewrite filter_cons_False by (by intros []). rewrite filter_app.
    rewrite (filter_cons_False _ "") by (by intros []). rewrite filter_nil, app_nil_r.
    case_bool_decide; [by subst|by apply filter_plain].
Qed.

(** *** Operations below a real directory *)

Definition inside (r q : list string) : Prop := r `prefix_of` q ∧ q ≠ r.
#[global] Instance inside_dec r q : Decision (inside r q).
Proof. unfold inside. apply _. Defined.

(** [t'] differs from [t] inside [r] only, and is still without links there. *)
Record within (r : list string) (t t' : tree) : Prop := {
  wi_dir : real_dir t' r;
  wi_same q : ¬ inside r q → t' !! q = t !! q;
}.

Lemma within_refl r t : real_dir t r → within r t t.
Proof. by split. Qed.
Lemma within_trans r t1 t2 t3 : within r t1 t2 → within r t2 t3 → within r t1 t3.
Proof. intros [_ H1] [H2 H3]. split; [done|]. intros q Hq. by rewrite H3, H1. Qed.

Lemma inside_up r q q' : inside r q → q' `prefix_of` r → q' ≠ q.
Proof. intros [H1 H2] H3 ->. apply H2. by apply (anti_symm prefix). Qed.

Lemma inside_ne r q : inside r q → q ≠ [].
Proof. intros [H1 H2] ->. apply prefix_nil_inv in H1. by subst. Qed.

(** Changing one entry inside to anything but a link. *)
Lemma within_alter r t q (o : option node) :
  real_dir t r → inside r q → (∀ target, o ≠ Some (NLink target)) →
  within r t (partial_alter (λ _, o) q t).
Proof.
  intros [Hu Hd] Hq Ho. split.
  - split.
    + intros q' Hq'. specialize (Hu q' Hq'). unfold entry in *.
      rewrite lookup_partial_alter_ne; [done|]. intros ->. by eapply inside_up.
    + intros q' target Hq'. destruct (decide (q' = q)) as [->|Hne].
      * rewrite lookup_partial_alter_eq. apply Ho.
      * rewrite lookup_partial_alter_ne by done. by apply Hd.
  - intros q' Hq'. apply lookup_partial_alter_ne. by intros ->.
Qed.

Section below.
  Context (r es : list string) (t : tree).
  Context (Hr : real_dir t r) (Hin : r `prefix_of` es).
  Context (Hp : Forall plain es) (Hs : Forall slashless es) (Hne : es ≠ []).

Lemma WriteFile_below content t' :
  WriteFile t (abs_path es) content = Some t' → t' = <[es := NFile content]> t.
Proof using All.
  unfold WriteFile. intros (q & Hq & Hw)%bind_Some.
  apply (lookup_below t true r es) in Hq as ->; [|done..].
  destruct (entry t es) as [[]|]; naive_solver.
Qed.

Lemma Remove_below t' :
  Remove t (abs_path es) = Some t' → t' = delete es t ∧ is_Some (t !! es).
Proof using All.
  unfold Remove. intros (q & Hq & Hw)%bind_Some.
  apply (lookup_below t false r es) in Hq as ->; [|done..].
  rewrite entry_ne in Hw by done. destruct (t !! es) as [[]|]; simplify_eq; eauto.
  destruct (_ || _); simplify_eq. eauto.
Qed.

Lemma Lstat_below n : Lstat t (abs_path es) = Some n → t !! es = Some n.
Proof using All.
  unfold Lstat. intros (q & Hq & Hw)%bind_Some.
  apply (lookup_below t false r es) in Hq as ->; [|done..]. by rewrite entry_ne in Hw.
Qed.

Lemma ReadFile_below content : ReadFile t (abs_path es) = Some content → t !! es = Some (NFile content).
Proof using All.
  unfold ReadFile, Stat. destruct (lookup_path t true (abs_path es)) as [q|] eqn:Hq; [|done].
  apply (lookup_below t true r es) in Hq as ->; [|done..]. simpl. rewrite entry_ne by done.
  destruct (t !! es) as [[]|]; naive_solver.
Qed.

Lemma mkdir_one_below t' :
  mkdir_one t (abs_path es) = Some t' → t' = t ∨ t' = <[es := NDir]> t.
Proof using All.
  unfold mkdir_one. destruct (Stat t (abs_path es)) as [[]|] eqn:E; [done|by left; simplify_eq|done|].
  unfold Mkdir. intros (q & Hq & Hw)%bind_Some.
  apply (lookup_below t false r es) in Hq as ->; [|done..].
  destruct (entry t es); simplify_eq. by right.
Qed.
End below.

(** Directories on the way to a real directory are there already. *)
Lemma resolve_up links t follow dir todo :
  (∀ q, q `prefix_of` dir ++ todo → entry t q = Some NDir) → Forall plain todo →
  resolve links t follow dir todo = Some (dir ++ todo).
Proof.
  intros Hu Hp. revert dir Hu. induction Hp as [|e todo He Hp IH]; intros dir Hu.
  { by rewrite resolve_nil, app_nil_r. }
  assert (t !! (dir ++ [e]) = Some NDir) as Hd.
  { rewrite <- entry_ne by (by destruct dir). apply Hu. exists todo. by rewrite <- app_assoc. }
  rewrite resolve_plain by (done || by rewrite Hd). rewrite Hd, IH; by rewrite <- app_assoc.
Qed.

Lemma mkdir_one_up t r es :
  real_dir t r → es `prefix_of` r → Forall plain es → Forall slashless es →
  mkdir_one t (abs_path es) = Some t.
Proof.
  intros [Hu _] Hes Hp Hs. unfold mkdir_one, Stat, lookup_path. rewrite elems_abs by done.
  assert (resolve maxLinks t true [] ("" :: (if es == [] then [""] else es)) = Some es) as ->.
  { case_bool_decide; [by subst|]. change (resolve maxLinks t true [] es = Some es).
    rewrite resolve_up; [done| |done]. intros q Hq. apply Hu. by etrans. }
  simpl. by rewrite Hu.
Qed.

Lemma mkdir_prefixes_below r t t' ok ds todo :
  real_dir t r → Forall plain (ds ++ todo) → Forall slashless (ds ++ todo) →
  r `prefix_of` ds ++ todo → ds ++ todo ≠ [] →
  mkdir_prefixes t ("" :: ds) todo = (ok, t') → within r t t'.
Proof.
  intros Hr. revert ds t Hr. induction todo as [|e todo IH]; intros ds t Hr Hp Hs Hin Hne; simpl.
  { intros [= _ <-]. by apply within_refl. }
  replace (ds ++ e :: todo) with ((ds ++ [e]) ++ todo) in * by (by rewrite <- app_assoc).
  change (match mkdir_one t (Join ("" :: ds ++ [e]) "/") with
          | Some t => mkdir_prefixes t ("" :: ds ++ [e]) todo | None => (false, t) end = (ok, t') →
          within r t t').
  rewrite Join_cons by (by destruct ds). rewrite app_nil_str.
  change ("/" +:+ Join (ds ++ [e]) "/") with (abs_path (ds ++ [e])).
  pose proof Hp as [Hp1 _]%Forall_app. pose proof Hs as [Hs1 _]%Forall_app.
  destruct (mkdir_one t _) as [t1|] eqn:E; [|intros [= _ <-]; by apply within_refl].
  assert (within r t t1) as Hw.
  { destruct (decide (ds ++ [e] `prefix_of` r)) as [Hu|Hnu].
    - rewrite (mkdir_one_up t r) in E by done. injection E as <-. by apply within_refl.
    - destruct (prefix_compare r (ds ++ [e]) _ Hin (prefix_app_r _ _ _ (reflexivity _))) as [Hd|]; [|done].
      apply (mkdir_one_below r) in E as [->| ->]; [by apply within_refl| |done..|by destruct ds].
      apply within_alter; [done| |done]. split; [done|]. intros He. apply Hnu. by rewrite He. }
  intros Hk. apply (within_trans _ _ _ _ Hw). eapply (IH (ds ++ [e])); [apply Hw|done..].
Qed.

Lemma MkdirAll_below r t t' ok ds :
  real_dir t r → Forall plain ds → Forall slashless ds → r `prefix_of` ds → ds ≠ [] →
  MkdirAll t (abs_path ds) = (ok, t') → within r t t'.
Proof.
  intros Hr Hp Hs Hin Hne. unfold MkdirAll. rewrite elems_abs, bool_decide_eq_false_2 by done.
  cbn [mkdir_prefixes app Join]. change (mkdir_one t "") with (Some t).
  by apply (mkdir_prefixes_below r t t' ok [] ds).
Qed.

(** Making directories changes no entry that is there. *)
Definition only_new_dirs (t t' : tree) : Prop :=
  ∀ q, t' !! q = t !! q ∨ (t !! q = None ∧ t' !! q = Some NDir).

Lemma mkdir_one_new t p t' : mkdir_one t p = Some t' → only_new_dirs t t'.
Proof.
  unfold mkdir_one, Mkdir. intros H q. destruct (Stat t p) as [[]|]; simplify_eq; [by left|].
  apply bind_Some in H as (q' & _ & Hw). unfold entry in Hw.
  destruct (decide (q = q')) as [->|Hne].
  - case_bool_decide; [done|]. destruct (t !! q') eqn:E; simplify_eq.
    right. by rewrite lookup_insert_eq.
  - left. case_match; simplify_eq. by rewrite lookup_insert_ne.
Qed.

Lemma mkdir_prefixes_new t ds todo ok t' :
  mkdir_prefixes t ds todo = (ok, t') → only_new_dirs t t'.
Proof.
  revert t ds. induction todo as [|e todo IH]; intros t ds; simpl.
  { intros [= _ <-] q. by left. }
  destruct (mkdir_one t _) as [t1|] eqn:E; [|intros [= _ <-] q; by left].
  intros H%IH q. apply mkdir_one_new in E. destruct (H q) as [->|[H1 H2]]; [apply E|].
  destruct (E q) as [<-|[_ E2]]; [by right|congruence].
Qed.

End os.
