(* ===== verification/Diff.v ===== *)
(** * Unified diffs: [internal/diff]

    [Module diff] models [parse.go], which lists the files and lines a diff
    touches, and [apply.go], which applies it to a directory. Both read the text
    line by line with the same case distinction; each keeps its variables in a
    record ([pstate], [cstate]) and [parse_line], [collect_line] are the bodies of
    the two loops. Text is a [string] of bytes. Line numbers are Go [int]s. *)

From S2P Require Import Prelude GoStrings GoText GoOS.

Module diff.

Definition MaxBytes : Z := 1048576.
Definition maxFiles : nat := 500.
Definition maxHunks : Z := 4000.

Record File := MkFile {
  Fl_Path : string;
  Fl_Status : string;
  Fl_Binary : bool;
  Fl_Lines : list Z;
}.

Record Diff := MkDiff { D_Files : list File }.

(** The errors of both passes; the text of a message is not modelled. *)
Inductive DiffErr :=
| ErrTooLarge
| ErrNotUTF8
| ErrMissingPath
| ErrInvalidPath (raw : string)
| ErrFileCap
| ErrNoFileHeader
| ErrBadHunkHeader
| ErrHunkCap
| ErrScan
| ErrRename
| ErrNoFiles
| ErrApply (path why : string).

(** ** parse.go *)

Definition CanonicalPath (raw : string) : option string :=
  let s := TrimSpace raw in
  let s := ReplaceByte s (byte 92) slash in
  let s := TrimPrefix s "a/" in
  let s := TrimPrefix s "b/" in
  let s := Clean s in
  if (s == ".") || (s == "/") || HasPrefix s "../" || Contains s "/../" || Contains s ".." then None
  else
    let s := TrimPrefix s "/" in
    let s := TrimPrefix s "examples/shop/" in
    if s == "" then None else Some s.

Definition headerPath (rest : string) : string :=
  before_byte (before_byte (TrimSpace rest) tab) (byte 32).

Definition gitPaths (rest : string) : string * string :=
  match Fields rest with
  | [] => ("", "")
  | [x] => (x, "")
  | x :: fs => (x, default "" (last fs))
  end.

Definition hunkNewStart (line : string) : result DiffErr Z :=
  match Index line " +" with
  | None => Err ErrBadHunkHeader
  | Some plus =>
      let rest := str_drop (plus + 2) line in
      let stop := match IndexByte rest (byte 32) with
                  | Some i => Some i
                  | None => Index rest "@@"
                  end in
      let rest := match stop with Some i => str_take i rest | None => rest end in
      let rest := before_byte (Trim rest " @") (byte 44) in
      match Atoi rest with
      | Some n => if (n <? 0)%Z then Err ErrBadHunkHeader else Ok n
      | None => Err ErrBadHunkHeader
      end
  end.

Definition hunkBodyLine (line : string) : bool :=
  match line with
  | "" => true
  | String a _ => bool_decide (a ∈ [byte 32; tab; byte 43; byte 45; byte 92])
  end.

(** The first occurrences of the positive numbers, sorted. *)
Fixpoint unique_go (seen : list Z) (l : list Z) : list Z :=
  match l with
  | [] => []
  | n :: l' =>
      if (n <=? 0)%Z || bool_decide (n ∈ seen) then unique_go seen l'
      else n :: unique_go (n :: seen) l'
  end.
Definition uniqueInts (l : list Z) : list Z := sort_cmp Z.compare (unique_go [] l).

(** The variables of [Parse]. *)
Record pstate := MkP {
  p_files : list File;
  p_cur : option File;
  p_inHunk : bool;
  p_newLn : Z;
  p_hunks : Z;
}.

Definition p_set_cur (s : pstate) (f : File) : pstate :=
  MkP (p_files s) (Some f) (p_inHunk s) (p_newLn s) (p_hunks s).
Definition p_set_hunk (s : pstate) (b : bool) : pstate :=
  MkP (p_files s) (p_cur s) b (p_newLn s) (p_hunks s).

Definition set_path (f : File) (p : string) : File :=
  MkFile p (Fl_Status f) (Fl_Binary f) (Fl_Lines f).
Definition set_status (f : File) (st : string) : File :=
  MkFile (Fl_Path f) st (Fl_Binary f) (Fl_Lines f).
Definition set_binary (f : File) : File :=
  MkFile (Fl_Path f) (Fl_Status f) true (Fl_Lines f).
Definition add_line (f : File) (n : Z) : File :=
  MkFile (Fl_Path f) (Fl_Status f) (Fl_Binary f) (Fl_Lines f ++ [n]).

Definition p_flush (s : pstate) : result DiffErr pstate :=
  match p_cur s with
  | None => Ok s
  | Some f =>
      if Fl_Path f == "" then Err ErrMissingPath
      else match CanonicalPath (Fl_Path f) with
           | None => Err (ErrInvalidPath (Fl_Path f))
           | Some p =>
               if (maxFiles <? length (p_files s) + 1)%nat then Err ErrFileCap
               else
                 let f := MkFile p (Fl_Status f) (Fl_Binary f) (uniqueInts (Fl_Lines f)) in
                 Ok (MkP (p_files s ++ [f]) None false (p_newLn s) (p_hunks s))
           end
  end.

Definition new_file : File := MkFile "" "modify" false [].

Definition p_start (s : pstate) : result DiffErr pstate :=
  let? s := p_flush s in Ok (p_set_cur s new_file).

(** The header lines [+++] and [---], which may start a file. *)
Definition p_open (s : pstate) : result DiffErr (pstate * File) :=
  match p_cur s with
  | Some f => Ok (s, f)
  | None => let? s := p_start s in Ok (s, new_file)
  end.

Definition plus_header (f : File) (p : string) : File :=
  if (p != "/dev/null") && (p != "") then set_path f p
  else if p == "/dev/null" then set_status f "delete" else f.
Definition minus_header (f : File) (p : string) : File :=
  let f := if (Fl_Path f == "") && (p != "/dev/null") then set_path f p else f in
  if p == "/dev/null" then set_status f "add" else f.

(** A line of a hunk of the current file. *)
Definition p_body (s : pstate) (f : File) (line : string) : pstate :=
  let at_ (s : pstate) (n : Z) := MkP (p_files s) (p_cur s) (p_inHunk s) n (p_hunks s) in
  match line with
  | "" => at_ s (int64 (p_newLn s + 1))
  | String a _ =>
      if a == byte 43 then at_ (p_set_cur s (add_line f (p_newLn s))) (int64 (p_newLn s + 1))
      else if a == byte 45 then p_set_cur s (add_line f (p_newLn s))
      else if (a == byte 32) || (a == tab) then at_ s (int64 (p_newLn s + 1))
      else if a == byte 92 then s
      else p_set_hunk s false
  end.

Definition is_rename (line : string) : bool :=
  HasPrefix line "rename from " || HasPrefix line "rename to ".
Definition is_binary (line : string) : bool :=
  HasPrefix line "Binary files " || (line == "GIT binary patch").

Definition git_path (line : string) : string :=
  let '(a, b) := gitPaths (str_drop 11 line) in if b != "" then b else a.

(** The cases that need a current file: they come in the order of the [switch],
    between the case of [diff --git] and the one of [+++]. *)
Definition p_meta (s : pstate) (f : File) (line : string) : option pstate :=
  if HasPrefix line "new file mode" then Some (p_set_cur s (set_status f "add"))
  else if HasPrefix line "deleted file mode" then Some (p_set_cur s (set_status f "delete"))
  else if is_rename line then
    let f := set_status f "rename" in
    Some (p_set_cur s (if HasPrefix line "rename to "
                       then set_path f (TrimSpace (str_drop 10 line)) else f))
  else if is_binary line then Some (p_set_hunk (p_set_cur s (set_binary f)) false)
  else None.

Definition p_hunk (s : pstate) (line : string) : result DiffErr pstate :=
  match p_cur s with
  | None => Err ErrNoFileHeader
  | Some f =>
      if Fl_Binary f then Ok s
      else
        let? start := hunkNewStart line in
        let n := (p_hunks s + 1)%Z in
        if (maxHunks <? n)%Z then Err ErrHunkCap
        else Ok (MkP (p_files s) (p_cur s) true start n)
  end.

(** The cases from [+++] on. *)
Definition p_rest (s : pstate) (line : string) : result DiffErr pstate :=
  if HasPrefix line "+++ " then
    let? sf := p_open s in
    Ok (p_set_cur sf.1 (plus_header sf.2 (headerPath (str_drop 4 line))))
  else if HasPrefix line "--- " then
    let? sf := p_open s in
    Ok (p_set_cur sf.1 (minus_header sf.2 (headerPath (str_drop 4 line))))
  else if HasPrefix line "@@ " then p_hunk s line
  else match p_cur s with
       | Some f => if p_inHunk s && negb (Fl_Binary f) then Ok (p_body s f line) else Ok s
       | None => Ok s
       end.

Definition parse_line (s : pstate) (line : string) : result DiffErr pstate :=
  let s := if p_inHunk s && negb (hunkBodyLine line) then p_set_hunk s false else s in
  if HasPrefix line "diff --git " then
    let? s := p_start s in Ok (p_set_cur s (set_path new_file (git_path line)))
  else
    match p_cur s with
    | Some f => match p_meta s f line with Some s => Ok s | None => p_rest s line end
    | None => p_rest s line
    end.

Fixpoint parse_lines (s : pstate) (lines : list string) : result DiffErr pstate :=
  match lines with
  | [] => Ok s
  | line :: lines => let? s := parse_line s line in parse_lines s lines
  end.

Definition Parse (data : string) : result DiffErr Diff :=
  if (MaxBytes <? len data)%Z then Err ErrTooLarge
  else if data == "" then Ok (MkDiff [])
  else if negb (utf8_Valid data) then Err ErrNotUTF8
  else if scan_overflow MaxBytes data then Err ErrScan
  else
    let? s := parse_lines (MkP [] None false 0 0) (scan_lines data) in
    let? s := p_flush s in
    Ok (MkDiff (p_files s)).

(** ** apply.go *)

Definition maxApplyFile : Z := 2097152.

Record applyHunk := MkHunk {
  h_oldStart : Z;
  h_lines : list string;
}.

Record applyFile := MkApply {
  a_path : string;
  a_status : string;
  a_binary : bool;
  a_hunks : list applyHunk;
}.

Definition hunkOldStart (line : string) : result DiffErr Z :=
  match IndexByte line (byte 45) with
  | None => Err ErrBadHunkHeader
  | Some minus =>
      let rest := str_drop (S minus) line in
      match IndexAny rest " ," with
      | None => Err ErrBadHunkHeader
      | Some stop =>
          match Atoi (str_take stop rest) with
          | Some n => if (n <? 0)%Z then Err ErrBadHunkHeader else Ok n
          | None => Err ErrBadHunkHeader
          end
      end
  end.

(** The variables of [collectApply]. *)
Record cstate := MkC {
  c_files : list applyFile;
  c_cur : option applyFile;
  c_inHunk : bool;
  c_hunk : applyHunk;
}.

Definition c_set_cur (s : cstate) (f : applyFile) : cstate :=
  MkC (c_files s) (Some f) (c_inHunk s) (c_hunk s).
Definition c_set_hunk (s : cstate) (b : bool) : cstate :=
  MkC (c_files s) (c_cur s) b (c_hunk s).

Definition a_set_path (f : applyFile) (p : string) : applyFile :=
  MkApply p (a_status f) (a_binary f) (a_hunks f).
Definition a_set_status (f : applyFile) (st : string) : applyFile :=
  MkApply (a_path f) st (a_binary f) (a_hunks f).
Definition a_set_binary (f : applyFile) : applyFile :=
  MkApply (a_path f) (a_status f) true (a_hunks f).
Definition a_add_hunk (f : applyFile) (h : applyHunk) : applyFile :=
  MkApply (a_path f) (a_status f) (a_binary f) (a_hunks f ++ [h]).

Definition zeroHunk : applyHunk := MkHunk 0 [].

Definition flushHunk (s : cstate) : cstate :=
  match c_cur s with
  | None => s
  | Some f => if c_inHunk s then MkC (c_files s) (Some (a_add_hunk f (c_hunk s))) false zeroHunk else s
  end.

Definition flushFile (s : cstate) : cstate :=
  let s := flushHunk s in
  match c_cur s with
  | None => s
  | Some f =>
      let none := MkC (c_files s) None (c_inHunk s) (c_hunk s) in
      if a_path f == "" then none
      else match CanonicalPath (a_path f) with
           | None => none
           | Some p => MkC (c_files s ++ [a_set_path f p]) None (c_inHunk s) (c_hunk s)
           end
  end.

Definition new_apply : applyFile := MkApply "" "modify" false [].

Definition c_start (s : cstate) : cstate := c_set_cur (flushFile s) new_apply.

Definition c_open (s : cstate) : cstate * applyFile :=
  match c_cur s with
  | Some f => (s, f)
  | None => (c_start s, new_apply)
  end.

Definition a_plus_header (f : applyFile) (p : string) : applyFile :=
  if (p != "/dev/null") && (p != "") then a_set_path f p
  else if p == "/dev/null" then a_set_status f "delete" else f.
Definition a_minus_header (f : applyFile) (p : string) : applyFile :=
  let f := if (a_path f == "") && (p != "/dev/null") then a_set_path f p else f in
  if p == "/dev/null" then a_set_status f "add" else f.

Definition c_body (s : cstate) (line : string) : cstate :=
  let add (l : string) :=
    MkC (c_files s) (c_cur s) (c_inHunk s)
      (MkHunk (h_oldStart (c_hunk s)) (h_lines (c_hunk s) ++ [l])) in
  match line with
  | "" => add " "
  | String a _ =>
      if (a == byte 43) || (a == byte 45) || (a == byte 32) || (a == tab) then add line
      else if a == byte 92 then s
      else flushHunk s
  end.

Definition c_meta (s : cstate) (f : applyFile) (line : string) : option (result DiffErr cstate) :=
  if HasPrefix line "new file mode" then Some (Ok (c_set_cur s (a_set_status f "add")))
  else if HasPrefix line "deleted file mode" then Some (Ok (c_set_cur s (a_set_status f "delete")))
  else if is_rename line then Some (Err ErrRename)
  else if is_binary line then Some (Ok (c_set_hunk (c_set_cur s (a_set_binary f)) false))
  else None.

Definition c_open_hunk (s : cstate) (line : string) : result DiffErr cstate :=
  match c_cur s with
  | None => Err ErrNoFileHeader
  | Some f =>
      if a_binary f then Ok s
      else
        let? oldStart := hunkOldStart line in
        let s := flushHunk s in
        Ok (MkC (c_files s) (c_cur s) true (MkHunk oldStart []))
  end.

Definition c_rest (s : cstate) (line : string) : result DiffErr cstate :=
  if HasPrefix line "+++ " then
    let '(s, f) := c_open s in
    Ok (c_set_cur s (a_plus_header f (headerPath (str_drop 4 line))))
  else if HasPrefix line "--- " then
    let '(s, f) := c_open s in
    Ok (c_set_cur s (a_minus_header f (headerPath (str_drop 4 line))))
  else if HasPrefix line "@@ " then c_open_hunk s line
  else match c_cur s with
       | Some f => if c_inHunk s && negb (a_binary f) then Ok (c_body s line) else Ok s
       | None => Ok s
       end.

Definition collect_line (s : cstate) (line : string) : result DiffErr cstate :=
  let s := if c_inHunk s && negb (hunkBodyLine line) then flushHunk s else s in
  if HasPrefix line "diff --git " then
    Ok (c_set_cur (c_start s) (a_set_path new_apply (git_path line)))
  else
    match c_cur s with
    | Some f => match c_meta s f line with Some r => r | None => c_rest s line end
    | None => c_rest s line
    end.

Fixpoint collect_lines (s : cstate) (lines : list string) : result DiffErr cstate :=
  match lines with
  | [] => Ok s
  | line :: lines => let? s := collect_line s line in collect_lines s lines
  end.

Definition collectApply (data : string) : result DiffErr (list applyFile) :=
  if scan_overflow MaxBytes data then Err ErrScan
  else
    let? s := collect_lines (MkC [] None false zeroHunk) (scan_lines data) in
    Ok (c_files (flushFile s)).

(** *** Applying hunks to the lines of a file

    [rest] holds the lines from index [oi] on. *)

(** [for cursor < h.oldStart]: copies lines up to the start of the hunk. *)
Fixpoint copy_to (start cursor : Z) (rest out : list string)
    : result string (Z * list string * list string) :=
  if (cursor <? start)%Z then
    match rest with
    | [] => Err "hunk past end of file"
    | x :: rest => copy_to start (cursor + 1) rest (out ++ [x])
    end
  else Ok (cursor, rest, out).

Fixpoint hunk_lines (lines : list string) (cursor : Z) (rest out : list string)
    : result string (Z * list string * list string) :=
  match lines with
  | [] => Ok (cursor, rest, out)
  | ln :: lines =>
      let ln := if ln == "" then " " else ln in
      match ln with
      | "" => hunk_lines lines cursor rest out
      | String a want =>
          if (a == byte 32) || (a == tab) then
            match rest with
            | x :: rest =>
                if x != want then Err "context mismatch"
                else hunk_lines lines (cursor + 1) rest (out ++ [x])
            | [] => Err "context mismatch"
            end
          else if a == byte 45 then
            match rest with
            | x :: rest =>
                if x != want then Err "context mismatch"
                else hunk_lines lines (cursor + 1) rest out
            | [] => Err "context mismatch"
            end
          else if a == byte 43 then hunk_lines lines cursor rest (out ++ [want])
          else hunk_lines lines cursor rest out
      end
  end.

Definition hunk_start (h : applyHunk) : Z := if (h_oldStart h =? 0)%Z then 1 else h_oldStart h.

Fixpoint apply_hunks (hunks : list applyHunk) (cursor : Z) (rest out : list string)
    : result string (list string) :=
  match hunks with
  | [] => Ok (out ++ rest)
  | h :: hunks =>
      if (hunk_start h <? cursor)%Z then Err "hunks out of order"
      else
        let? st := copy_to (hunk_start h) cursor rest out in
        let? st := hunk_lines (h_lines h) st.1.1 st.1.2 st.2 in
        apply_hunks hunks st.1.1 st.1.2 st.2
  end.

Definition nl_str : string := String nl "".

Definition render (orig out : list string) : string :=
  let body := Join out nl_str in
  if bool_decide (orig = []) && bool_decide (out = []) then body else body +:+ nl_str.

Definition applyToLines (orig : list string) (hunks : list applyHunk) : result string string :=
  let? out := apply_hunks hunks 1 orig [] in
  Ok (render orig out).

Definition splitLines (b : string) : list string :=
  if b == "" then []
  else
    let s := TrimSuffix b nl_str in
    if s == "" then [""] else Split s nl.

(** *** Applying a diff to a directory

    An operation gives its result and the tree afterwards: files written before
    an error stay written. [wd] is the working directory. *)

Definition containedPath (wd : option string) (root rel : string) : result DiffErr string :=
  if rel == "" then Err (ErrApply rel "empty path")
  else
    match os.Abs wd (os.path_Join root rel), os.Abs wd root with
    | Some clean, Some rootAbs =>
        if (clean != rootAbs) && negb (HasPrefix clean (rootAbs +:+ "/"))
        then Err (ErrApply rel "path escapes root")
        else Ok clean
    | _, _ => Err (ErrApply rel "no working directory")
    end.

Definition write_result (f : applyFile) (t : os.tree) (dest out : string)
    : result DiffErr () * os.tree :=
  match os.WriteFile t dest out with
  | Some t => (Ok tt, t)
  | None => (Err (ErrApply (a_path f) "write"), t)
  end.

Definition apply_add (f : applyFile) (dest : string) (t : os.tree) : result DiffErr () * os.tree :=
  match os.Lstat t dest with
  | Some _ => (Err (ErrApply (a_path f) "already exists"), t)
  | None =>
      match applyToLines [] (a_hunks f) with
      | Err why => (Err (ErrApply (a_path f) why), t)
      | Ok out =>
          let '(ok, t) := os.MkdirAll t (os.Dir dest) in
          if ok then write_result f t dest out else (Err (ErrApply (a_path f) "mkdir"), t)
      end
  end.

Definition apply_delete (f : applyFile) (dest : string) (t : os.tree)
    : result DiffErr () * os.tree :=
  match os.Remove t dest with
  | Some t => (Ok tt, t)
  | None => (Err (ErrApply (a_path f) "remove"), t)
  end.

(** The size of a directory that is opened as a file is not known; reading it
    fails in any case. *)
Definition apply_modify (f : applyFile) (dest : string) (t : os.tree)
    : result DiffErr () * os.tree :=
  match os.Lstat t dest with
  | None => (Err (ErrApply (a_path f) "no such file"), t)
  | Some (os.NLink _) => (Err (ErrApply (a_path f) "refusing symlink"), t)
  | Some os.NDir => (Err (ErrApply (a_path f) "is a directory"), t)
  | Some (os.NFile content) =>
      if (maxApplyFile <? len content)%Z then (Err (ErrApply (a_path f) "too large"), t)
      else
        match os.ReadFile t dest with
        | None => (Err (ErrApply (a_path f) "read"), t)
        | Some raw =>
            if negb (utf8_Valid raw) then (Err (ErrApply (a_path f) "not utf-8"), t)
            else
              match applyToLines (splitLines raw) (a_hunks f) with
              | Err why => (Err (ErrApply (a_path f) why), t)
              | Ok out => write_result f t dest out
              end
        end
  end.

Definition applyOne (wd : option string) (root : string) (f : applyFile) (t : os.tree)
    : result DiffErr () * os.tree :=
  if a_binary f then (Err (ErrApply (a_path f) "binary not supported"), t)
  else
    match containedPath wd root (a_path f) with
    | Err e => (Err e, t)
    | Ok dest =>
        if a_status f == "add" then apply_add f dest t
        else if a_status f == "delete" then apply_delete f dest t
        else apply_modify f dest t
    end.

Fixpoint apply_all (wd : option string) (root : string) (fs : list applyFile) (t : os.tree)
    : result DiffErr () * os.tree :=
  match fs with
  | [] => (Ok tt, t)
  | f :: fs =>
      match applyOne wd root f t with
      | (Ok _, t) => apply_all wd root fs t
      | (Err e, t) => (Err e, t)
      end
  end.

Definition Apply (wd : option string) (root data : string) (t : os.tree)
    : result DiffErr () * os.tree :=
  match Parse data with
  | Err e => (Err e, t)
  | Ok _ =>
      match os.Abs wd root with
      | None => (Err (ErrApply root "no working directory"), t)
      | Some abs =>
          match os.Stat t abs with
          | Some os.NDir =>
              match collectApply data with
              | Err e => (Err e, t)
              | Ok [] => (Err ErrNoFiles, t)
              | Ok files => apply_all wd abs files t
              end
          | _ => (Err (ErrApply root "not a directory"), t)
          end
      end
  end.

(** ** What applying a diff means

    A hunk replaces its old side, the context and removed lines, by its new side,
    the context and added lines. *)

Definition side (drop : ascii) (lines : list string) : list string :=
  omap (λ ln, match ln with
              | "" => Some ""
              | String a s =>
                  if (a != drop) && bool_decide (a ∈ [byte 32; tab; byte 43; byte 45])
                  then Some s else None
              end) lines.
Definition old_side : list string → list string := side (byte 43).
Definition new_side : list string → list string := side (byte 45).

(** [patched k orig hunks out]: the hunks, whose starts count lines from [k] on,
    fit the lines [orig] in order and turn them into [out]. *)
Inductive patched : Z → list string → list applyHunk → list string → Prop :=
| patched_nil k orig : patched k orig [] orig
| patched_cons k pre rest h hunks out :
    hunk_start h = (k + Z.of_nat (length pre))%Z →
    patched (hunk_start h + Z.of_nat (length (old_side (h_lines h)))) rest hunks out →
    patched k (pre ++ old_side (h_lines h) ++ rest) (h :: hunks)
      (pre ++ new_side (h_lines h) ++ out).

Ltac parts := split_and!; rewrite ?app_nil_r, <- ?app_assoc; simpl; done || lia.

Lemma copy_to_iff start cursor rest out c r o :
  copy_to start cursor rest out = Ok (c, r, o) ↔
  ∃ pre, rest = pre ++ r ∧ o = out ++ pre ∧ c = (cursor + Z.of_nat (length pre))%Z ∧
    c = (cursor `max` start)%Z.
Proof.
  revert cursor out. induction rest as [|x rest IH]; intros cursor out; simpl;
    destruct (Z.ltb_spec cursor start).
  - split; [done|]. intros (pre & Hr & _ & Hc & Hm). destruct pre; [simpl in Hc; lia|done].
  - split; [intros [= <- <- <-]; exists []; parts|].
    intros (pre & Hr & -> & -> & _). symmetry in Hr. apply app_nil in Hr as [-> ->]. simpl.
    by rewrite Z.add_0_r, app_nil_r.
  - rewrite IH. split.
    + intros (pre & -> & -> & -> & Hm). exists (x :: pre). parts.
    + intros (pre & Hr & -> & -> & Hm). destruct pre as [|y pre]; simpl in *; [lia|].
      injection Hr as <- ->. exists pre. parts.
  - split; [intros [= <- <- <-]; exists []; parts|].
    intros (pre & Hr & -> & -> & Hm). destruct pre as [|y pre]; simpl in *; [|lia].
    by rewrite Hr, Z.add_0_r, app_nil_r.
Qed.

(** The prefix of a hunk line says what happens to it. *)
Inductive line_kind := Context | Removed | Added | Other.
Definition kind_of (a : ascii) : line_kind :=
  if (a == byte 32) || (a == tab) then Context
  else if a == byte 45 then Removed else if a == byte 43 then Added else Other.

Lemma side_cons drop a s lines :
  drop = byte 43 ∨ drop = byte 45 →
  side drop (String a s :: lines) =
    match kind_of a with
    | Context => s :: side drop lines
    | Removed => if drop == byte 45 then side drop lines else s :: side drop lines
    | Added => if drop == byte 43 then side drop lines else s :: side drop lines
    | Other => side drop lines
    end.
Proof.
  intros Hd. unfold side, kind_of. cbn [omap list_omap].
  assert (bool_decide (a ∈ [byte 32; tab; byte 43; byte 45]) =
    (a == byte 32) || (a == tab) || (a == byte 45) || (a == byte 43)) as ->.
  { apply eq_true_iff_eq. rewrite !orb_true_iff, !bool_decide_eq_true. set_solver. }
  destruct Hd as [->| ->];
    (case_bool_decide; [by subst|]); (case_bool_decide; [by subst|]);
    (case_bool_decide; [by subst|]); (case_bool_decide; [by subst|]);
    by rewrite andb_false_r.
Qed.

Lemma old_side_cons a s lines :
  old_side (String a s :: lines) =
    match kind_of a with
    | Context | Removed => s :: old_side lines
    | Added | Other => old_side lines
    end.
Proof. unfold old_side. rewrite side_cons by auto. by destruct (kind_of a). Qed.
Lemma new_side_cons a s lines :
  new_side (String a s :: lines) =
    match kind_of a with
    | Context | Added => s :: new_side lines
    | Removed | Other => new_side lines
    end.
Proof. unfold new_side. rewrite side_cons by auto. by destruct (kind_of a). Qed.

Lemma hunk_lines_iff lines cursor rest out c r o :
  hunk_lines lines cursor rest out = Ok (c, r, o) ↔
  rest = old_side lines ++ r ∧ o = out ++ new_side lines ∧
  c = (cursor + Z.of_nat (length (old_side lines)))%Z.
Proof.
  revert cursor rest out. induction lines as [|ln lines IH]; intros cursor rest out.
  { simpl. rewrite app_nil_r, Z.add_0_r. naive_solver. }
  assert (∃ a s, (if ln == "" then " " else ln) = String a s ∧
    old_side (ln :: lines) = old_side (String a s :: lines) ∧
    new_side (ln :: lines) = new_side (String a s :: lines)) as (a & s & Hln & -> & ->).
  { destruct ln as [|a s]; [by exists (byte 32), ""|by exists a, s]. }
  cbn [hunk_lines]. rewrite Hln, old_side_cons, new_side_cons. clear Hln ln.
  unfold kind_of. destruct ((a == byte 32) || (a == tab)); cbn match.
  - destruct rest as [|x rest]; [by split; [|intros [[=] _]]|]. case_bool_decide; simpl.
    + subst x. rewrite IH, <- app_assoc, Nat2Z.inj_succ. simpl. naive_solver lia.
    + naive_solver.
  - case_bool_decide; [|case_bool_decide].
    + destruct rest as [|x rest]; [by split; [|intros [[=] _]]|]. case_bool_decide; simpl.
      * subst x. rewrite IH, Nat2Z.inj_succ. naive_solver lia.
      * naive_solver.
    + rewrite IH, <- app_assoc. naive_solver.
    + by rewrite IH.
Qed.

Lemma apply_hunks_iff hunks cursor rest out res :
  apply_hunks hunks cursor rest out = Ok res ↔
  ∃ o, res = out ++ o ∧ patched cursor rest hunks o.
Proof.
  revert cursor rest out. induction hunks as [|h hunks IH]; intros cursor rest out; simpl.
  { split.
    - intros [= <-]. exists rest. split; [done|constructor].
    - intros (o & -> & Hp). by inversion Hp. }
  destruct (Z.ltb_spec (hunk_start h) cursor) as [Hlt|Hge].
  { split; [done|]. intros (o & _ & Hp). inversion Hp; subst. lia. }
  rewrite rbind_ok. split.
  - intros ([[c1 r1] o1] & (pre & -> & -> & -> & Hc)%copy_to_iff & Hk). simpl in Hk.
    apply rbind_ok in Hk as ([[c2 r2] o2] & (-> & -> & ->)%hunk_lines_iff & Hk). simpl in Hk.
    apply IH in Hk as (o & -> & Hp). exists (pre ++ new_side (h_lines h) ++ o).
    rewrite <- !app_assoc. split; [done|]. constructor; [lia|].
    by replace (hunk_start h) with (cursor + Z.of_nat (length pre))%Z by lia.
  - intros (o & -> & Hp). inversion Hp as [|k pre rest' ? ? out' Hs Hp']; subst.
    exists ((hunk_start h, old_side (h_lines h) ++ rest', out ++ pre)). split.
    { apply copy_to_iff. exists pre. parts. }
    simpl. rewrite rbind_ok.
    exists ((hunk_start h + Z.of_nat (length (old_side (h_lines h))))%Z, rest',
            (out ++ pre) ++ new_side (h_lines h)).
    rewrite hunk_lines_iff. split; [done|]. simpl. rewrite IH. exists out'.
    by rewrite <- !app_assoc.
Qed.

(** C28: [applyToLines] succeeds exactly when the hunks fit the file: each hunk's
    old side stands at the stated line, after the hunk before it. The result is
    then the file with every old side replaced by the new side, and nothing else
    changed; in all other cases the hunks are refused. *)
Theorem applyToLines_iff orig hunks body :
  applyToLines orig hunks = Ok body ↔
  ∃ out, patched 1 orig hunks out ∧ body = render orig out.
Proof.
  unfold applyToLines. rewrite rbind_ok. setoid_rewrite apply_hunks_iff. naive_solver.
Qed.

(** ** Undoing a diff *)

Definition flip (ln : string) : string :=
  match ln with
  | "" => ""
  | String a s => String (if a == byte 43 then byte 45 else if a == byte 45 then byte 43 else a) s
  end.

(** The hunks of the reversed diff; [delta] is how far lines have moved so far. *)
Fixpoint invert (delta : Z) (hunks : list applyHunk) : list applyHunk :=
  match hunks with
  | [] => []
  | h :: hunks =>
      MkHunk (hunk_start h + delta) (flip <$> h_lines h) ::
      invert (delta + Z.of_nat (length (new_side (h_lines h))) -
                      Z.of_nat (length (old_side (h_lines h)))) hunks
  end.

Lemma flip_sides lines :
  old_side (flip <$> lines) = new_side lines ∧ new_side (flip <$> lines) = old_side lines.
Proof.
  induction lines as [|[|a s] lines [IHo IHn]]; [done|split; by f_equal/=|].
  rewrite fmap_cons. unfold flip at 1 3.
  rewrite !old_side_cons, !new_side_cons, IHo, IHn. unfold kind_of.
  repeat (case_bool_decide; subst; try done).
Qed.

Lemma patched_invert k orig hunks out delta :
  patched k orig hunks out → (1 ≤ k + delta)%Z → patched (k + delta) out (invert delta hunks) orig.
Proof.
  intros Hp. revert delta. induction Hp as [k orig|k pre rest h hunks out Hs Hp IH];
    intros delta Hd; [constructor|].
  cbn [invert]. destruct (flip_sides (h_lines h)) as [Ho Hn].
  set (h' := MkHunk (hunk_start h + delta) (flip <$> h_lines h)).
  assert (hunk_start h' = hunk_start h + delta)%Z as Hs'.
  { unfold hunk_start at 1. simpl. destruct (Z.eqb_spec (hunk_start h + delta) 0); lia. }
  pose proof (patched_cons (k + delta) pre out h'
    (invert (delta + Z.of_nat (length (new_side (h_lines h))) -
                      Z.of_nat (length (old_side (h_lines h)))) hunks) rest) as Hc.
  cbn [h' h_lines] in Hc. rewrite Ho, Hn in Hc. apply Hc; [lia|].
  fold h'. rewrite Hs'.
  match goal with |- patched ?k _ (invert ?d _) _ =>
    replace k with (hunk_start h + Z.of_nat (length (old_side (h_lines h))) + d)%Z by lia end.
  apply IH. lia.
Qed.

(** No line contains a newline. *)
Definition one_line (s : string) : Prop := nl ∉ bytes s.
Definition one_lines (hunks : list applyHunk) : Prop := Forall (λ h, Forall one_line (h_lines h)) hunks.

Lemma side_one_line drop lines : Forall one_line lines → Forall one_line (side drop lines).
Proof.
  unfold side. rewrite !Forall_forall. intros H x (ln & Hln & Hx)%list_elem_of_omap.
  specialize (H ln Hln). destruct ln as [|a s]; [by injection Hx as <-|].
  destruct (_ && _); [|done]. injection Hx as <-. revert H. unfold one_line. simpl. set_solver.
Qed.

Lemma patched_one_line k orig hunks out :
  patched k orig hunks out → Forall one_line orig → one_lines hunks → Forall one_line out.
Proof.
  induction 1; [done|]. unfold one_lines. rewrite !Forall_app, Forall_cons.
  intros (? & ? & ?) [Hh ?]. split_and!; auto. by apply side_one_line.
Qed.

Lemma splitLines_text out :
  out ≠ [] → Forall one_line out → splitLines (Join out nl_str +:+ nl_str) = out.
Proof.
  intros Hne Hout. unfold splitLines. rewrite bool_decide_eq_false_2
    by (by destruct (Join out nl_str)).
  rewrite TrimSuffix_app. pose proof (Split_Join out nl Hne Hout) as Hs. fold nl_str in Hs.
  case_bool_decide as He; [|done]. by rewrite He in Hs.
Qed.

Lemma splitLines_lines raw :
  HasSuffix raw nl_str = true →
  splitLines raw ≠ [] ∧ Join (splitLines raw) nl_str +:+ nl_str = raw ∧
  Forall one_line (splitLines raw).
Proof.
  intros [s ->]%HasSuffix_spec. unfold splitLines.
  rewrite bool_decide_eq_false_2 by (by destruct s). rewrite TrimSuffix_app.
  case_bool_decide as He.
  - subst s. split_and!; [done..|]. repeat constructor. unfold one_line. set_solver.
  - split_and!; [|unfold nl_str; by rewrite Join_Split|apply Split_parts].
    destruct (Split_cons s nl) as (? & ? & ->). done.
Qed.

(** A diff can be undone: after it has been applied to a text file that ends
    with a newline, applying the reversed hunks to the result gives back the file
    byte for byte, unless the result is the single newline. *)
Theorem applyToLines_undo raw hunks body :
  HasSuffix raw nl_str = true → one_lines hunks →
  applyToLines (splitLines raw) hunks = Ok body → body ≠ nl_str →
  applyToLines (splitLines body) (invert 0 hunks) = Ok raw.
Proof.
  intros Hraw Hh Hb Hne. destruct (splitLines_lines raw Hraw) as (Hnil & Hjoin & Hone).
  unfold applyToLines in *. apply rbind_ok in Hb as (res & Hp & [= <-]).
  apply apply_hunks_iff in Hp as (out & -> & Hp). rewrite app_nil_l in *.
  unfold render in *. rewrite (bool_decide_eq_false_2 (splitLines raw = [])) in * by done.
  cbn [andb] in *.
  assert (out ≠ []) as Hout by (by intros ->).
  rewrite splitLines_text; [|done|by eapply patched_one_line].
  apply rbind_ok. exists (splitLines raw). split.
  - apply apply_hunks_iff. exists (splitLines raw). split; [done|].
    apply (patched_invert 1 _ _ _ 0) in Hp; [done|lia].
  - by rewrite (bool_decide_eq_false_2 (out = [])), Hjoin by done.
Qed.

(** Deleting every line of a file leaves a file that holds one blank line, not
    an empty file: the closing newline is written whenever the file had lines. *)
Theorem applyToLines_delete_all orig :
  orig ≠ [] →
  applyToLines orig [MkHunk 1 ((λ l, String (byte 45) l) <$> orig)] = Ok nl_str ∧
  splitLines nl_str = [""].
Proof.
  intros Hne. split; [|done].
  assert (old_side ((λ l, String (byte 45) l) <$> orig) = orig ∧
          new_side ((λ l, String (byte 45) l) <$> orig) = []) as [Ho Hn].
  { clear Hne. induction orig as [|l orig [IHo IHn]]; [done|]. rewrite fmap_cons.
    rewrite old_side_cons, new_side_cons. change (kind_of (byte 45)) with Removed. cbn match.
    by rewrite IHo, IHn. }
  unfold applyToLines. apply rbind_ok. exists []. split.
  - apply apply_hunks_iff. exists []. split; [done|].
    pose proof (patched_cons 1 [] [] (MkHunk 1 ((λ l, String (byte 45) l) <$> orig)) [] []) as H.
    cbn [h_lines] in H. rewrite Ho, Hn, !app_nil_r in H. apply H; [done|constructor].
  - unfold render. by rewrite bool_decide_eq_false_2.
Qed.

(** ** The two passes agree *)

Definition same_file (f : File) (g : applyFile) : Prop :=
  Fl_Path f = a_path g ∧ Fl_Status f = a_status g ∧ Fl_Binary f = a_binary g.

(** The states of the two loops after the same lines. *)
Record sim (s : pstate) (c : cstate) : Prop := {
  sim_files : Forall2 same_file (p_files s) (c_files c);
  sim_cur : option_Forall2 same_file (p_cur s) (c_cur c);
  sim_hunk : p_inHunk s = c_inHunk c;
  sim_idle : p_cur s = None → p_inHunk s = false;
}.

Lemma sim_set_cur s c f g : sim s c → same_file f g → sim (p_set_cur s f) (c_set_cur c g).
Proof. intros [???] ?. by split; simpl; [|constructor|..]. Qed.

Lemma both_or_none {A B} (R : A → B → Prop) (o : option A) (o' : option B) :
  option_Forall2 R o o' → (∃ f g, o = Some f ∧ o' = Some g ∧ R f g) ∨ (o = None ∧ o' = None).
Proof. destruct 1; eauto 10. Qed.

Lemma sim_flushHunk s c : sim s c → sim (p_set_hunk s false) (flushHunk c).
Proof.
  intros [Hf Hc Hh Hi]. unfold flushHunk. destruct s as [pf pc ph pn pk], c as [cf cc ch ck].
  simpl in *. subst ch. destruct Hc as [f g Hfg|].
  - destruct ph; split; simpl; try done; constructor; done.
  - rewrite Hi by done. split; done || constructor.
Qed.

Lemma sim_flush s s' c : sim s c → p_flush s = Ok s' → sim s' (flushFile c).
Proof.
  intros Hs Hp. pose proof (sim_flushHunk _ _ Hs) as [Hf Hc Hh _].
  unfold flushFile, p_flush in *. cbn [p_files p_cur p_inHunk p_set_hunk] in *.
  apply both_or_none in Hc as [(f & g & E & E' & Hpath & Hst & Hb)|[E E']]; rewrite E in *;
    rewrite E'.
  - rewrite <- Hpath. case_bool_decide; [done|]. destruct (CanonicalPath _) as [p|]; [|done].
    destruct (_ <? _)%nat; [done|]. injection Hp as <-. split; simpl; [|constructor|done..].
    apply Forall2_app; [done|]. by repeat constructor.
  - injection Hp as <-. split; [done|by rewrite E, E'; constructor| |by apply Hs].
    rewrite <- Hh. by apply Hs.
Qed.

Lemma same_new : same_file new_file new_apply.
Proof. done. Qed.

Lemma sim_start s s' c : sim s c → p_start s = Ok s' → sim s' (c_start c).
Proof.
  intros Hs (s1 & Hf & [= <-])%rbind_ok. apply sim_set_cur; [|apply same_new].
  by eapply sim_flush.
Qed.

Lemma sim_open s c sf : sim s c → p_open s = Ok sf →
  sim sf.1 (c_open c).1 ∧ same_file sf.2 (c_open c).2.
Proof.
  intros Hs. unfold p_open, c_open. pose proof (sim_cur _ _ Hs) as Hc.
  apply both_or_none in Hc as [(f & g & -> & -> & Hfg)|[-> ->]].
  - by intros [= <-].
  - intros (s1 & H1 & [= <-])%rbind_ok. split; [by eapply sim_start|done].
Qed.

Lemma same_plus f g p : same_file f g → same_file (plus_header f p) (a_plus_header g p).
Proof. unfold plus_header, a_plus_header. intros (? & ? & ?). by repeat case_match. Qed.
Lemma same_minus f g p : same_file f g → same_file (minus_header f p) (a_minus_header g p).
Proof.
  unfold minus_header, a_minus_header. intros (Hp & ? & ?). rewrite Hp.
  destruct (_ && _), (p == _); done.
Qed.

Lemma sim_meta s c f g line s' r c' :
  sim s c → same_file f g → p_meta s f line = Some s' → c_meta c g line = Some r → r = Ok c' →
  sim s' c'.
Proof.
  intros Hs (Hp & Hst & Hb). unfold p_meta, c_meta.
  destruct (HasPrefix line "new file mode");
    [|destruct (HasPrefix line "deleted file mode"); [|destruct (is_rename line);
      [|destruct (is_binary line); [|done]]]]; intros [= <-] [= <-]; intros [= <-].
  - by apply sim_set_cur.
  - by apply sim_set_cur.
  - apply (sim_set_cur _ _ (set_binary f) (a_set_binary g)) in Hs as [???]; [|done].
    by split.
Qed.

Lemma sim_body s c f g line :
  sim s c → p_cur s = Some f → same_file f g → c_cur c = Some g →
  sim (p_body s f line) (c_body c line).
Proof.
  intros [Hf Hc Hh Hi] Es Hfg Ec. pose proof Hfg as (Hp & Hst & Hb).
  unfold p_body, c_body.
  assert (option_Forall2 same_file (Some (add_line f (p_newLn s))) (c_cur c)) as Hadd
    by (rewrite Ec; by constructor).
  destruct line as [|a l]; [by split|].
  destruct (decide (a = byte 43)) as [->|H43]; [by split|].
  destruct (decide (a = byte 45)) as [->|H45]; [by split|].
  destruct (decide (a = byte 32)) as [->|H32]; [by split|].
  destruct (decide (a = tab)) as [->|Htab]; [by split|].
  rewrite !(bool_decide_eq_false_2 (a = _)) by done. simpl.
  case_bool_decide; [done|]. apply sim_flushHunk. by split.
Qed.

Lemma sim_hunk_line s c line s' c' :
  sim s c → p_hunk s line = Ok s' → c_open_hunk c line = Ok c' → sim s' c'.
Proof.
  intros Hs. pose proof (sim_flushHunk _ _ Hs) as [Hf' Hc' _ _].
  pose proof (sim_cur _ _ Hs) as Hc. unfold p_hunk, c_open_hunk. apply both_or_none in Hc as [(f & g & E & E' & Hp & Hst & Hb)|[E E']];
    rewrite E, E' in *; [|done]. rewrite Hb.
  destruct (a_binary g); [by intros [= <-] [= <-]|].
  intros (start & _ & Hk)%rbind_ok (o & _ & [= <-])%rbind_ok.
  destruct (_ <? _)%Z; [done|]. injection Hk as <-. cbn [p_set_hunk p_cur p_files] in *.
  split; simpl; try done. by rewrite <- E.
Qed.

Lemma sim_rest s c line s' c' :
  sim s c → p_rest s line = Ok s' → c_rest c line = Ok c' → sim s' c'.
Proof.
  intros Hs. unfold p_rest, c_rest. destruct (HasPrefix line "+++ ");
    [|destruct (HasPrefix line "--- "); [|destruct (HasPrefix line "@@ ")]].
  - intros (sf & Ho & [= <-])%rbind_ok Hc. destruct (sim_open _ _ _ Hs Ho) as [Hs' Hf].
    destruct (c_open c). injection Hc as <-. apply sim_set_cur; [done|by apply same_plus].
  - intros (sf & Ho & [= <-])%rbind_ok Hc. destruct (sim_open _ _ _ Hs Ho) as [Hs' Hf].
    destruct (c_open c). injection Hc as <-. apply sim_set_cur; [done|by apply same_minus].
  - by apply sim_hunk_line.
  - pose proof (sim_cur _ _ Hs) as Hc. pose proof (sim_hunk _ _ Hs) as Hh.
    apply both_or_none in Hc as [(f & g & E & E' & Hfg)|[-> ->]];
      [|by intros [= <-] [= <-]]. rewrite E, E'.
    pose proof Hfg as (_ & _ & <-). rewrite <- Hh.
    destruct (_ && _); intros [= <-] [= <-]; [|done]. by eapply sim_body.
Qed.

Lemma meta_agree s c f g line : p_meta s f line = None ↔ c_meta c g line = None.
Proof. unfold p_meta, c_meta. by repeat case_match. Qed.

Lemma sim_line s c line s' c' :
  sim s c → parse_line s line = Ok s' → collect_line c line = Ok c' → sim s' c'.
Proof.
  intros Hs. unfold parse_line, collect_line.
  set (s1 := if p_inHunk s && _ then _ else _). set (c1 := if c_inHunk c && _ then _ else _).
  assert (sim s1 c1) as Hs1.
  { unfold s1, c1. rewrite <- (sim_hunk _ _ Hs). destruct (_ && _); [by apply sim_flushHunk|done]. }
  clearbody s1 c1. clear s c Hs. destruct (HasPrefix line "diff --git ").
  - intros (s2 & H2 & [= <-])%rbind_ok [= <-]. apply sim_set_cur; [by eapply sim_start|done].
  - pose proof (sim_cur _ _ Hs1) as Hc.
    apply both_or_none in Hc as [(f & g & -> & -> & Hfg)|[-> ->]]; [|by apply sim_rest].
    pose proof (meta_agree s1 c1 f g line) as Hm.
    destruct (p_meta s1 f line) as [s2|] eqn:Ep, (c_meta c1 g line) as [r|] eqn:Ec;
      [|naive_solver..|by apply sim_rest].
    intros [= <-] Hr. by eapply sim_meta.
Qed.

(** The second pass refuses nothing that the first one accepts, but renames and
    hunk headers without a readable old start. *)
Definition refused {A} (r : result DiffErr A) : Prop := r = Err ErrRename ∨ r = Err ErrBadHunkHeader.

Lemma hunkOldStart_err line e : hunkOldStart line = Err e → e = ErrBadHunkHeader.
Proof. unfold hunkOldStart. repeat case_match; naive_solver. Qed.

Lemma collect_line_total s c line s' :
  sim s c → parse_line s line = Ok s' → (∃ c', collect_line c line = Ok c') ∨ refused (collect_line c line).
Proof.
  intros Hs. unfold parse_line, collect_line.
  set (s1 := if p_inHunk s && _ then _ else _). set (c1 := if c_inHunk c && _ then _ else _).
  assert (sim s1 c1) as Hs1.
  { unfold s1, c1. rewrite <- (sim_hunk _ _ Hs). destruct (_ && _); [by apply sim_flushHunk|done]. }
  clearbody s1 c1. clear s c Hs. destruct (HasPrefix line "diff --git "); [eauto|].
  assert (p_rest s1 line = Ok s' → (∃ c', c_rest c1 line = Ok c') ∨ refused (c_rest c1 line)) as Hrest.
  { unfold p_rest, c_rest. destruct (c_open c1).
    destruct (HasPrefix line "+++ "); [eauto|]. destruct (HasPrefix line "--- "); [eauto|].
    pose proof (sim_cur _ _ Hs1) as Hc.
    destruct (HasPrefix line "@@ "); [|intros _; left; repeat case_match; eauto].
    unfold p_hunk, c_open_hunk. apply both_or_none in Hc as [(f & g & -> & -> & _)|[-> ->]]; [|done].
    intros _. destruct (a_binary g); [eauto|].
    destruct (hunkOldStart line) eqn:Eh; simpl; [eauto|].
    apply hunkOldStart_err in Eh as ->. by right; right. }
  pose proof (sim_cur _ _ Hs1) as Hc.
  apply both_or_none in Hc as [(f & g & -> & -> & Hfg)|[-> ->]]; [|done].
  pose proof (meta_agree s1 c1 f g line) as Hm.
  destruct (p_meta s1 f line) as [s2|] eqn:Ep, (c_meta c1 g line) as [r|] eqn:Ec;
    [|naive_solver..|done].
  intros _. unfold c_meta in Ec. unfold refused. repeat case_match; simplify_eq; eauto.
Qed.

Lemma collect_lines_total lines s c s' :
  sim s c → parse_lines s lines = Ok s' →
  (∃ c', collect_lines c lines = Ok c' ∧ sim s' c') ∨ refused (collect_lines c lines).
Proof.
  revert s c. induction lines as [|line lines IH]; intros s c Hs; simpl.
  { intros [= <-]. eauto. }
  intros (s1 & H1 & H2)%rbind_ok. destruct (collect_line_total s c line s1 Hs H1) as [[c1 Hc1]|[Hr|Hr]].
  - rewrite Hc1. simpl. eapply IH; [|done]. by eapply sim_line.
  - rewrite Hr. by right; left.
  - rewrite Hr. by right; right.
Qed.

Lemma passes_agree data d :
  Parse data = Ok d →
  (∃ fs, collectApply data = Ok fs ∧ Forall2 same_file (D_Files d) fs) ∨ refused (collectApply data).
Proof.
  unfold Parse, collectApply. destruct (MaxBytes <? len data)%Z; [done|].
  case_bool_decide as Hd; [subst data; intros [= <-]; left; by exists []|].
  destruct (negb _); [done|]. destruct (scan_overflow _ _); [done|].
  intros (s & Hs & (s' & Hf & [= <-])%rbind_ok)%rbind_ok.
  destruct (collect_lines_total (scan_lines data) (MkP [] None false 0 0)
      (MkC [] None false zeroHunk) s)
    as [(c & -> & Hc)|[-> | ->]]; [split; simpl; done || constructor|done|..].
  - left. eexists. split; [done|]. by apply (sim_flush s s' c).
  - by right; left.
  - by right; right.
Qed.

(** The diff that is analyzed is the diff that is applied: of a text that
    [Parse] accepts, [collectApply] gives the same files, in the same order and
    with the same status, or refuses it because of a rename or a hunk header
    without a readable old start. *)
Theorem collectApply_agrees data d :
  Parse data = Ok d →
  match collectApply data with
  | Ok fs => Forall2 same_file (D_Files d) fs
  | Err e => e = ErrRename ∨ e = ErrBadHunkHeader
  end.
Proof.
  intros [(fs & -> & Hfs)|[-> | ->]]%passes_agree; auto.
Qed.

(** ** Paths stay inside the root *)

(** A relative path whose elements all name entries: no empty element, [.] or
    [..]. *)
Definition relative (s : string) (es : list string) : Prop :=
  s = Join es "/" ∧ es ≠ [] ∧ Forall plain es ∧ Forall os.slashless es.

Lemma relative_suffix pre s es :
  relative (pre +:+ "/" +:+ s) es → s ≠ "" → ∃ es', relative s es'.
Proof.
  intros (Hs & Hne & Hp & Hsl) Hnil. exists (Split s slash).
  assert (es = Split pre slash ++ Split s slash) as Hes.
  { rewrite <- Split_app. change (String slash s) with ("/" +:+ s). rewrite Hs.
    by rewrite Split_Join_slash. }
  rewrite Hes in Hp, Hsl. apply Forall_app in Hp as [_ Hp]. apply Forall_app in Hsl as [_ Hsl].
  split; [symmetry; apply (Join_Split s slash)|]. split; [|done].
  destruct (Split_cons s slash) as (? & ? & ->). done.
Qed.

Lemma Clean_canonical s :
  Clean s ≠ "." → Clean s ≠ "/" → Contains (Clean s) ".." = false →
  ∃ es, relative (TrimPrefix (Clean s) "/") es.
Proof.
  intros H1 H2 H3. destruct (HasPrefix s "/") eqn:E.
  - destruct (Clean_rooted s E) as (es & Hc & Hp & Hsl). rewrite Hc in *. exists es.
    rewrite TrimPrefix_app. split_and!; [done|by intros ->|done..].
  - destruct (Clean_relative s E) as [|(es & Hc & Hne & Hp & Hsl)]; [done|]. rewrite Hc in *.
    exists es.
    assert (Forall plain es) as Hpl.
    { rewrite Forall_forall in *. intros x Hx. destruct (Hp x Hx). split_and!; [done..|].
      intros ->. apply (Contains_elem _ _ "/") in Hx. congruence. }
    split_and!; [|done..]. unfold TrimPrefix.
    destruct (HasPrefix (Join es "/") "/") eqn:Ej; [|done]. exfalso.
    apply HasPrefix_spec in Ej as [r Hr]. pose proof (Split_Join_slash es Hne Hsl) as Hs.
    rewrite Hr in Hs. change ("/" +:+ r) with (String slash r) in Hs. cbn [Split] in Hs.
    rewrite bool_decide_eq_true_2 in Hs by done. subst es. inversion Hpl as [|?? [Hx _]]. by apply Hx.
Qed.

Lemma CanonicalPath_relative raw s : CanonicalPath raw = Some s → ∃ es, relative s es.
Proof.
  unfold CanonicalPath. set (x := TrimPrefix (TrimPrefix _ "a/") "b/"). intros Hs.
  destruct ((Clean x == ".") || (Clean x == "/") || HasPrefix (Clean x) "../" ||
            Contains (Clean x) "/../" || Contains (Clean x) "..") eqn:E; [done|].
  go_inv. destruct (Clean_canonical x) as [es Hes]; [done..|]. clear -Hs Hes.
  revert Hs Hes. generalize (TrimPrefix (Clean x) "/") as y. intros y. unfold TrimPrefix.
  destruct (HasPrefix y "examples/shop/") eqn:E.
  - apply HasPrefix_spec in E as [r ->]. rewrite str_drop_app. case_bool_decide; [done|].
    intros [= <-] Hes. by apply (relative_suffix "examples/shop" r es).
  - case_bool_decide; [done|]. intros [= <-]. eauto.
Qed.

Lemma containedPath_relative wd rel es rs :
  relative rel es → rs ≠ [] → Forall plain rs → Forall os.slashless rs →
  containedPath wd (os.abs_path rs) rel = Ok (os.abs_path (rs ++ es)).
Proof.
  intros (Hrel & Hne & Hp & Hs) Hrs Hpr Hsr.
  assert (Forall plain (rs ++ es)) as Hpa by (by apply Forall_app).
  assert (Forall os.slashless (rs ++ es)) as Hsa by (by apply Forall_app).
  assert (os.path_Join (os.abs_path rs) rel = os.abs_path (rs ++ es)) as Hj
    by (subst rel; by apply os.path_Join_abs).
  assert (∀ l, Forall plain l → Forall os.slashless l →
    os.Abs wd (os.abs_path l) = Some (os.abs_path l)) as Habs.
  { intros l Hl Hl'. unfold os.Abs. by rewrite os.abs_path_nonempty, os.Clean_abs_path. }
  unfold containedPath. rewrite bool_decide_eq_false_2.
  - rewrite Hj, !Habs by done.
    assert (HasPrefix (os.abs_path (rs ++ es)) (os.abs_path rs +:+ "/") = true) as ->
      by (apply HasPrefix_spec; exists (Join es "/"); unfold os.abs_path;
          rewrite Join_app, !str_app_assoc; done).
    by rewrite andb_false_r.
  - intros ->. pose proof (Split_Join_slash es Hne Hs) as Hx. rewrite <- Hrel in Hx. subst es.
    inversion Hp as [|?? [Hx _]]. by apply Hx.
Qed.

(** The files to apply have relative paths. *)
Lemma flushHunk_files s : c_files (flushHunk s) = c_files s.
Proof. unfold flushHunk. by repeat case_match. Qed.

Definition files_relative (fs : list applyFile) : Prop :=
  Forall (λ f, ∃ es, relative (a_path f) es) fs.

Lemma flushFile_relative s : files_relative (c_files s) → files_relative (c_files (flushFile s)).
Proof.
  intros Hs. unfold flushFile. rewrite flushHunk_files.
  destruct (c_cur (flushHunk s)) as [f|]; [|by rewrite flushHunk_files].
  case_bool_decide; [done|]. destruct (CanonicalPath (a_path f)) as [p|] eqn:E; [|done].
  apply Forall_app. split; [done|]. repeat constructor. by eapply CanonicalPath_relative.
Qed.

Lemma collect_line_relative s line s' :
  collect_line s line = Ok s' → files_relative (c_files s) → files_relative (c_files s').
Proof.
  intros Hl Hs. unfold collect_line in Hl.
  set (s1 := if c_inHunk s && _ then _ else _) in Hl.
  assert (files_relative (c_files s1)) as Hs1
    by (unfold s1; destruct (_ && _); by rewrite ?flushHunk_files).
  clearbody s1. assert (files_relative (c_files (c_open s1).1)) as Ho.
  { unfold c_open. destruct (c_cur s1); [done|]. by apply flushFile_relative. }
  destruct (HasPrefix line "diff --git "); [injection Hl as <-; by apply flushFile_relative|].
  assert (c_rest s1 line = Ok s' → files_relative (c_files s')) as Hrest.
  { unfold c_rest, c_open_hunk, c_body. destruct (c_open s1) as [s2 f2].
    repeat case_match; intros; simplify_eq/=; rewrite ?flushHunk_files; try done;
      go_inv; by rewrite flushHunk_files. }
  destruct (c_cur s1) as [f|]; [|by apply Hrest].
  destruct (c_meta s1 f line) as [r|] eqn:Em; [|by apply Hrest].
  subst r. unfold c_meta in Em. repeat case_match; by simplify_eq/=.
Qed.

Lemma collectApply_relative data fs : collectApply data = Ok fs → files_relative fs.
Proof.
  unfold collectApply. destruct (scan_overflow _ _); [done|].
  intros (s & Hl & [= <-])%rbind_ok. apply flushFile_relative. revert Hl.
  assert (files_relative (c_files (MkC [] None false zeroHunk))) as H0 by constructor.
  revert H0. generalize (MkC [] None false zeroHunk) as s0.
  induction (scan_lines data) as [|line lines IH]; intros s0 H0; simpl; [by intros [= <-]|].
  intros (s1 & H1 & H2)%rbind_ok. eauto using collect_line_relative.
Qed.

(** What one file of a diff does to the tree. *)
Section apply_one.
  Context (t : os.tree) (rs : list string) (f : applyFile) (es : list string).
  Context (Hdir : os.real_dir t rs) (Hrel : relative (a_path f) es).
  Context (Hrs : rs ≠ []) (Hpr : Forall plain rs) (Hsr : Forall os.slashless rs).
Let dest := rs ++ es.

Lemma dest_inside : os.inside rs dest.
Proof using Hrel.
  destruct Hrel as (_ & Hne & _). split; [by apply prefix_app_r|]. unfold dest. intros He.
  apply (f_equal length) in He. rewrite length_app in He. destruct es; [done|simpl in He; lia].
Qed.
Lemma dest_plain : Forall plain dest ∧ Forall os.slashless dest.
Proof using All. destruct Hrel as (_ & _ & ? & ?). by split; apply Forall_app. Qed.

(** On success. *)
Definition effect (t' : os.tree) : Prop :=
  if a_status f == "add" then
    ∃ out, applyToLines [] (a_hunks f) = Ok out ∧ t' !! dest = Some (os.NFile out)
  else if a_status f == "delete" then t' = delete dest t ∧ is_Some (t !! dest)
  else ∃ raw out, t !! dest = Some (os.NFile raw) ∧
         applyToLines (splitLines raw) (a_hunks f) = Ok out ∧ t' = <[dest := os.NFile out]> t.

(** In every case. *)
Definition changes_only (dests : list (list string)) (t t' : os.tree) : Prop :=
  ∀ q, t' !! q = t !! q ∨ q ∈ dests ∨ (t !! q = None ∧ t' !! q = Some os.NDir).

Lemma changes_only_refl dests u : changes_only dests u u.
Proof. intros q. by left. Qed.
Lemma changes_only_alter u o : changes_only [dest] u (partial_alter (λ _, o) dest u).
Proof.
  intros q. destruct (decide (q = dest)) as [->|]; [right; left; set_solver|].
  left. by rewrite lookup_partial_alter_ne.
Qed.

Lemma write_result_ok u r t' out :
  os.real_dir u rs → write_result f u (os.abs_path dest) out = (r, t') →
  os.within rs u t' ∧ changes_only [dest] u t' ∧
  (r = Ok tt → t' = <[dest := os.NFile out]> u).
Proof using All.
  intros Hu. unfold write_result. destruct dest_plain as [Hp Hs]. pose proof dest_inside as Hin.
  destruct (os.WriteFile u _ out) as [u'|] eqn:E; intros [= <- <-].
  - apply (os.WriteFile_below rs dest) in E as ->; [|done|apply Hin|done..|by eapply os.inside_ne].
    split; [by apply os.within_alter|]. split; [apply changes_only_alter|done].
  - split; [by apply os.within_refl|]. split; [apply changes_only_refl|done].
Qed.

Lemma dest_parent : ∃ ds, os.Dir (os.abs_path dest) = os.abs_path ds ∧ ds ≠ [] ∧
  rs `prefix_of` ds ∧ Forall plain ds ∧ Forall os.slashless ds.
Proof using All.
  destruct dest_plain as [Hp Hs]. destruct Hrel as (_ & Hne & _). unfold dest in *.
  destruct es as [|e es' _] using rev_ind; [done|]. rewrite app_assoc in *.
  exists (rs ++ es'). split; [by apply os.Dir_abs|]. apply Forall_app in Hp as [Hp _].
  apply Forall_app in Hs as [Hs _]. split_and!; [by destruct rs|by apply prefix_app_r|done..].
Qed.

Definition outcome (r : result DiffErr ()) (t' : os.tree) : Prop :=
  os.within rs t t' ∧ changes_only [dest] t t' ∧ (r = Ok tt → effect t').

Lemma outcome_err e : outcome (Err e) t.
Proof using All. split; [by apply os.within_refl|]. split; [apply changes_only_refl|done]. Qed.

Lemma apply_add_ok r t' :
  a_status f = "add" → apply_add f (os.abs_path dest) t = (r, t') → outcome r t'.
Proof using All.
  intros Hst. unfold apply_add. destruct (os.Lstat _ _); [intros [= <- <-]; apply outcome_err|].
  destruct (applyToLines [] (a_hunks f)) as [out|] eqn:Ea; [|intros [= <- <-]; apply outcome_err].
  destruct dest_parent as (ds & -> & Hds & Hpre & Hpd & Hsd).
  destruct (os.MkdirAll t (os.abs_path ds)) as [ok t1] eqn:Em.
  pose proof (os.mkdir_prefixes_new _ _ _ _ _ Em) as Hnew.
  apply (os.MkdirAll_below rs) in Em; [|done..]. destruct ok.
  - intros Hw. apply write_result_ok in Hw as (Hw & Hc & Hok); [|apply Em].
    split; [by eapply os.within_trans|]. split.
    + intros q. destruct (Hc q) as [->|[Hq|[H1 H2]]]; [|by right; left|].
      * destruct (Hnew q); [by left|by right; right].
      * destruct (Hnew q) as [Hq|[_ Hq]]; [rewrite Hq in H1; by right; right|congruence].
    + intros Hr. unfold effect. rewrite Hst, bool_decide_eq_true_2 by done. exists out.
      split; [done|]. rewrite (Hok Hr). by rewrite lookup_insert_eq.
  - intros [= <- <-]. split; [done|]. split; [|done].
    intros q. destruct (Hnew q); [by left|by right; right].
Qed.

Lemma apply_delete_ok r t' :
  a_status f = "delete" → apply_delete f (os.abs_path dest) t = (r, t') → outcome r t'.
Proof using All.
  intros Hst. unfold apply_delete. destruct dest_plain as [Hp Hs]. pose proof dest_inside as Hin.
  destruct (os.Remove t _) as [t1|] eqn:E; intros [= <- <-]; [|apply outcome_err].
  apply (os.Remove_below rs dest) in E as [-> Hd]; [|done|apply Hin|done..|by eapply os.inside_ne].
  split; [by apply os.within_alter|]. split; [apply changes_only_alter|].
  intros _. unfold effect. by rewrite Hst.
Qed.

Lemma apply_modify_ok r t' :
  a_status f ≠ "add" → a_status f ≠ "delete" →
  apply_modify f (os.abs_path dest) t = (r, t') → outcome r t'.
Proof using All.
  intros Hadd Hdel. unfold apply_modify. destruct dest_plain as [Hp Hs].
  pose proof dest_inside as Hin.
  destruct (os.Lstat _ _) as [[content| |]|]; try (intros [= <- <-]; apply outcome_err).
  destruct (_ <? _)%Z; [intros [= <- <-]; apply outcome_err|].
  destruct (os.ReadFile _ _) as [raw|] eqn:Er; [|intros [= <- <-]; apply outcome_err].
  apply (os.ReadFile_below rs dest) in Er; [|done|apply Hin|done..|by eapply os.inside_ne].
  destruct (negb _); [intros [= <- <-]; apply outcome_err|].
  destruct (applyToLines _ _) as [out|] eqn:Ea; [|intros [= <- <-]; apply outcome_err].
  intros (Hw & Hc & Hok)%write_result_ok; [|done]. split; [done|]. split; [done|].
  intros Hr. unfold effect. rewrite !bool_decide_eq_false_2 by done. exists raw, out. auto.
Qed.

Lemma applyOne_ok wd r t' : applyOne wd (os.abs_path rs) f t = (r, t') → outcome r t'.
Proof using All.
  unfold applyOne. rewrite (containedPath_relative wd _ es rs) by done. fold dest.
  destruct (a_binary f); [intros [= <- <-]; apply outcome_err|].
  case_bool_decide; [by apply apply_add_ok|].
  case_bool_decide; [by apply apply_delete_ok|by apply apply_modify_ok].
Qed.
End apply_one.

(** Where the files of a diff are below a root. *)
Definition dests (rs : list string) (fs : list applyFile) : list (list string) :=
  (λ f, rs ++ Split (a_path f) slash) <$> fs.

Lemma relative_Split s es : relative s es → Split s slash = es.
Proof. intros (-> & Hne & _ & Hs). by apply Split_Join_slash. Qed.

Lemma apply_all_ok wd rs fs t r t' :
  os.real_dir t rs → files_relative fs → rs ≠ [] → Forall plain rs → Forall os.slashless rs →
  apply_all wd (os.abs_path rs) fs t = (r, t') →
  os.within rs t t' ∧ changes_only (dests rs fs) t t'.
Proof.
  intros Ht Hfs Hne Hp Hs. revert t Ht. induction Hfs as [|f fs [es Hrel] Hfs IH]; intros t Ht; simpl.
  { intros [= <- <-]. split; [by apply os.within_refl|apply changes_only_refl]. }
  destruct (applyOne wd _ f t) as [r1 t1] eqn:E.
  destruct (applyOne_ok t rs f es Ht Hrel Hne Hp Hs wd r1 t1 E) as (Hw & Hc & _).
  rewrite <- (relative_Split _ _ Hrel) in Hc.
  assert (os.within rs t1 t' ∧ changes_only (dests rs fs) t1 t' →
          os.within rs t t' ∧ changes_only (dests rs (f :: fs)) t t') as Hgo.
  { intros [Hw' Hc']. split; [by eapply os.within_trans|]. intros q. cbn [dests fmap list_fmap].
    rewrite elem_of_cons. specialize (Hc q). specialize (Hc' q).
    rewrite list_elem_of_singleton in Hc.
    destruct Hc' as [->|[Hq|[H1 H2]]]; [|by right; left; right|].
    - destruct Hc as [Hc|[Hc|Hc]]; [by left|by right; left; left|by right; right].
    - destruct Hc as [Hc|[Hc|[_ Hc]]]; [|by right; left; left|congruence].
      right; right. by rewrite <- Hc. }
  destruct r1 as [u|e]; [intros Hk; apply Hgo; by eapply IH; [apply Hw|]|].
  intros [= <- <-]. apply Hgo. split; [apply os.within_refl, Hw|apply changes_only_refl].
Qed.

(** C27: whether it succeeds or fails, [Apply] changes nothing outside the root
    directory and, inside it, only the files that [Parse] reports and missing
    directories on the way to them. The root has to be a directory reached and
    filled without symbolic links. *)
Theorem Apply_only_reported wd root data t r t' d rs :
  os.Abs wd root = Some (os.abs_path rs) → rs ≠ [] → Forall plain rs → Forall os.slashless rs →
  os.real_dir t rs → Parse data = Ok d → Apply wd root data t = (r, t') →
  ∀ q, t' !! q ≠ t !! q →
    rs `prefix_of` q ∧
    ((∃ f, f ∈ D_Files d ∧ q = rs ++ Split (Fl_Path f) slash) ∨
     (t !! q = None ∧ t' !! q = Some os.NDir)).
Proof.
  intros Habs Hne Hp Hs Ht Hd. unfold Apply. rewrite Hd, Habs.
  assert (∀ e, (Err e, t) = (r, t') → ∀ q, t' !! q ≠ t !! q → False) as Herr
    by (intros e [= _ <-]; done).
  destruct (os.Stat t _) as [[]|]; try (intros Hk q Hq; by destruct (Herr _ Hk q)).
  destruct (collectApply data) as [[|f fs]|] eqn:Ec;
    try (intros Hk q Hq; by destruct (Herr _ Hk q)).
  intros Hk q Hq. destruct (passes_agree _ _ Hd) as [(fs' & Hc & Hsame)|[Hr|Hr]]; [|congruence..].
  rewrite Hc in Ec. injection Ec as ->.
  destruct (apply_all_ok wd rs (f :: fs) t r t') as [Hw Ho]; [by eauto using collectApply_relative..|].
  assert (os.inside rs q) as [Hin _].
  { destruct (decide (os.inside rs q)) as [|Hn]; [done|]. by destruct Hq; apply Hw. }
  split; [done|]. destruct (Ho q) as [Hq'|[Hq'|Hq']]; [done|left|by right].
  apply list_elem_of_fmap in Hq' as (g & -> & [i Hg]%list_elem_of_lookup).
  destruct (Forall2_lookup_r _ _ _ _ _ Hsame Hg) as (h & Hh & Hpath & _). exists h.
  split; [by eapply list_elem_of_lookup_2|]. by rewrite Hpath.
Qed.

End diff.
