(* ===== verification/DiffReport.v ===== *)
(** * Git diffs: what is reported and what is applied

    [Module report] describes the texts git prints for modified files, as lists
    of sections with hunks, and shows what [Parse] and [collectApply] make of
    them. From this follows that the lines reported for a file are sound: a line
    of the new file that is not reported was there before. *)

From S2P Require Import Prelude GoStrings GoText GoOS Diff.

Module report.
Import diff.

(** A hunk as git prints it: where it starts in the old and in the new file, whether
    counts of one are written out (git leaves them out), the text after the ranges
    (the function it is in), and its body. *)
Record uhunk := MkU {
  u_full : bool;
  u_old : Z;
  u_new : Z;
  u_context : string;
  u_body : list string;
}.

(** A line of the body: a context line (also one whose blank was stripped), a removed
    or an added one, or the note that the last newline is missing; and not one that
    looks like a file header. *)
Definition body_line (l : string) : Prop :=
  (∀ a r, l = String a r → a ∈ [byte 32; tab; byte 43; byte 45; byte 92]) ∧
  HasPrefix l "+++ " = false ∧ HasPrefix l "--- " = false.

(** The header [@@ -start,count +start,count @@context]: the counts are those of the
    lines of the body on each side. *)
Definition range (full : bool) (start n : Z) : string :=
  Itoa start +:+ if (n =? 1)%Z && negb full then "" else "," +:+ Itoa n.
Definition u_header (h : uhunk) : string :=
  "@@ -" +:+ range (u_full h) (u_old h) (Z.of_nat (length (old_side (u_body h)))) +:+ " +" +:+
  range (u_full h) (u_new h) (Z.of_nat (length (new_side (u_body h)))) +:+ " @@" +:+ u_context h.

Record uhunk_ok (h : uhunk) : Prop := {
  uo_old : (0 ≤ u_old h < 2 ^ 63)%Z;
  uo_new : (0 ≤ u_new h)%Z;
  uo_body : Forall body_line (u_body h);
  uo_range : (u_new h + Z.of_nat (length (u_body h)) < 2 ^ 63)%Z;
}.

(** The line numbers a hunk touches in the new file, from line [n] on: those of
    added lines, and for a removed line the one that took its place. *)
Fixpoint touched (n : Z) (body : list string) : list Z :=
  match body with
  | [] => []
  | "" :: body => touched (n + 1) body
  | String a _ :: body =>
      match kind_of a with
      | Context => touched (n + 1) body
      | Added => n :: touched (n + 1) body
      | Removed => n :: touched n body
      | Other => touched n body
      end
  end.

(** The lines [collectApply] keeps. *)
Definition kept_lines (body : list string) : list string :=
  omap (λ l, match l with
             | "" => Some " "
             | String a _ => if a == byte 92 then None else Some l
             end) body.

Definition ahunk (h : uhunk) : applyHunk := MkHunk (u_old h) (kept_lines (u_body h)).

(** The prefixes of body lines. *)
Lemma hunkBodyLine_inv a l :
  hunkBodyLine (String a l) = true →
  a = byte 32 ∨ a = tab ∨ a = byte 43 ∨ a = byte 45 ∨ a = byte 92.
Proof.
  intros H. unfold hunkBodyLine in H. apply bool_decide_eq_true in H.
  rewrite !elem_of_cons, elem_of_nil in H. tauto.
Qed.

Lemma body_line_kind l : body_line l → hunkBodyLine l = true.
Proof. intros [Hl _]. destruct l as [|a l]; [done|]. apply bool_decide_eq_true_2. by eapply Hl. Qed.

(** *** The line numbers of a header *)

Lemma IndexByte_app s c r : c ∉ bytes s → IndexByte (s +:+ String c r) c = Some (String.length s).
Proof.
  induction s as [|a s IH]; simpl; [by rewrite bool_decide_eq_true_2|]. intros [Hne Hs]%not_elem_of_cons.
  rewrite bool_decide_eq_false_2, IH by done. done.
Qed.
Lemma before_byte_app s c r : c ∉ bytes s → before_byte (s +:+ String c r) c = s.
Proof. intros Hs. unfold before_byte. rewrite IndexByte_app by done. apply str_take_app. Qed.
Lemma before_byte_none s c : c ∉ bytes s → before_byte s c = s.
Proof.
  intros Hs. unfold before_byte. assert (IndexByte s c = None) as ->; [|done].
  induction s as [|a s IH]; [done|]. cbn [bytes IndexByte] in *. apply not_elem_of_cons in Hs as [Hne Hs].
  by rewrite bool_decide_eq_false_2, IH.
Qed.
Lemma IndexAny_app s c r cs :
  (∀ a, a ∈ bytes s → a ∉ bytes cs) → c ∈ bytes cs → IndexAny (s +:+ String c r) cs = Some (String.length s).
Proof.
  intros Hs Hc. induction s as [|a s IH]; simpl; [by rewrite bool_decide_eq_true_2|].
  rewrite bool_decide_eq_false_2 by (apply Hs; left). rewrite IH; [done|]. intros b Hb. apply Hs. by right.
Qed.
Lemma Index_skip s c p r :
  (∀ a, a ∈ bytes s → a ≠ c) → Index (s +:+ String c p +:+ r) (String c p) = Some (String.length s).
Proof.
  intros Hs. induction s as [|a s IH].
  - change ("" +:+ String c p +:+ r) with (String c p +:+ r). pose proof (HasPrefix_app (String c p) r) as Hp.
    destruct (String c p +:+ r) eqn:E; [done|]. cbn [Index]. by rewrite Hp.
  - rewrite app_cons_str. cbn [Index]. destruct (HasPrefix _ _) eqn:E.
    + apply HasPrefix_spec in E as [x Hx]. rewrite app_cons_str in Hx. injection Hx as -> _.
      exfalso. by apply (Hs c); [left|].
    + rewrite IH; [done|]. intros b Hb. apply Hs. by right.
Qed.
Lemma trim_left_cut_none cut s : (∀ a, a ∈ bytes s → a ∉ bytes cut) → trim_left_cut cut s = s.
Proof. destruct s as [|a s]; [done|]. intros Hs. simpl. by rewrite bool_decide_eq_false_2 by (apply Hs; left). Qed.
Lemma Trim_none cut s : (∀ a, a ∈ bytes s → a ∉ bytes cut) → Trim s cut = s.
Proof.
  intros Hs. unfold Trim, TrimRight. rewrite (trim_left_cut_none cut s), trim_left_cut_none by
    (done || intros a; rewrite bytes_rev, elem_of_reverse; apply Hs). apply rev_rev.
Qed.

(** The bytes of a printed number and of what separates numbers. *)
Definition num_byte (a : ascii) : bool := is_digit a || (a == byte 44).
Lemma Itoa_num z : (0 ≤ z)%Z → ∀ a, a ∈ bytes (Itoa z) → is_digit a = true.
Proof.
  intros Hz a Ha. destruct (Itoa_digits z Hz) as (_ & Hd & _). rewrite forallb_forall in Hd.
  by apply Hd, list_elem_of_In.
Qed.
Lemma Itoa_not c z : (0 ≤ z)%Z → is_digit c = false → c ∉ bytes (Itoa z).
Proof. intros Hz Hc Hin%Itoa_num; [|done]. by rewrite Hin in Hc. Qed.


Lemma range_apart full y z cs :
  forallb (λ c, negb (num_byte c)) (bytes cs) = true → (0 ≤ y)%Z → (0 ≤ z)%Z →
  ∀ a, a ∈ bytes (range full y z) → a ∉ bytes cs.
Proof.
  intros Hc Hy Hz a Ha Hin. rewrite forallb_forall in Hc. apply list_elem_of_In, Hc in Hin.
  assert (num_byte a = true) as Hn; [|by rewrite Hn in Hin]. unfold num_byte, range in *.
  rewrite bytes_app, elem_of_app in Ha. destruct Ha as [Ha|Ha]; [by rewrite (Itoa_num y)|].
  destruct (_ && _); [by apply not_elem_of_nil in Ha|]. apply elem_of_cons in Ha as [->|Ha]; [done|].
  by rewrite (Itoa_num z).
Qed.

(** Reading the number in front of a range. *)
Lemma range_number full y z c r :
  (0 ≤ y)%Z → c ∈ [byte 32; byte 44] → IndexAny (range full y z +:+ String c r) " ," = Some (String.length (Itoa y)).
Proof.
  intros Hy Hc. assert (∀ a, a ∈ bytes (Itoa y) → a ∉ bytes " ,") as Hd.
  { intros a Ha%Itoa_num Hin; [|done]. assert (forallb (λ c, negb (is_digit c)) (bytes " ,") = true) as Hf by done.
    rewrite forallb_forall in Hf. apply list_elem_of_In, Hf in Hin. by rewrite Ha in Hin. }
  unfold range. rewrite str_app_assoc. destruct (_ && _); [rewrite app_nil_str; by apply IndexAny_app|].
  change ("," +:+ Itoa z +:+ String c r) with (String (byte 44) (Itoa z +:+ String c r)).
  rewrite str_app_assoc. apply IndexAny_app; [done|]. by right; left.
Qed.

Section header.
  Context (h : uhunk) (Hok : uhunk_ok h).

Lemma u_header_prefix : HasPrefix (u_header h) "@@ " = true.
Proof using Type. reflexivity. Qed.

Lemma hunkOldStart_header : hunkOldStart (u_header h) = Ok (u_old h).
Proof using Hok.
  pose proof (uo_old h Hok) as Ho. unfold hunkOldStart, u_header.
  assert (∀ x, IndexByte ("@@ -" +:+ x) (byte 45) = Some 3%nat) as -> by done.
  assert (∀ x, str_drop 4 ("@@ -" +:+ x) = x) as -> by done.
  set (rest := range _ (u_new h) _ +:+ _). change (" +" +:+ rest) with (String (byte 32) ("+" +:+ rest)).
  rewrite range_number by (lia || by left). unfold range. rewrite str_app_assoc, str_take_app, Atoi_Itoa by lia.
  by rewrite (proj2 (Z.ltb_ge _ _)) by lia.
Qed.

Lemma hunkNewStart_header : hunkNewStart (u_header h) = Ok (u_new h).
Proof using Hok.
  pose proof (uo_old h Hok) as Ho. pose proof (uo_new h Hok) as Hn. pose proof (uo_range h Hok) as Hr.
  unfold u_header. set (p := range _ (u_old h) _). set (m := Z.of_nat (length (new_side _))).
  assert (∀ x, Index ("@@ -" +:+ x) " +" = S <$> (S <$> (S <$> (S <$> Index x " +")))) as Hskip by done.
  unfold hunkNewStart. rewrite Hskip. change " +" with (String (byte 32) "+").
  rewrite Index_skip by (intros a Ha ->; eapply (range_apart (u_full h) (u_old h) _ " "); [done|lia| |exact Ha|left]; lia).
  cbn [fmap option_fmap option_map]. set (rest := range _ (u_new h) m +:+ _).
  assert (str_drop (S (S (S (S (String.length p)))) + 2) ("@@ -" +:+ p +:+ String (byte 32) "+" +:+ rest) = rest) as ->.
  { cbn [Nat.add str_drop String.append]. clear. induction p as [|a p IH]; [done|]. exact IH. }
  unfold rest. change (" @@" +:+ u_context h) with (String (byte 32) ("@@" +:+ u_context h)).
  rewrite IndexByte_app by (intros Ha; eapply (range_apart (u_full h) (u_new h) m " "); [done|lia|unfold m; lia|exact Ha|left]).
  rewrite str_take_app, Trim_none by (apply range_apart; done || unfold m; lia).
  assert (before_byte (range (u_full h) (u_new h) m) (byte 44) = Itoa (u_new h)) as ->.
  { unfold range. destruct (_ && _); [rewrite str_app_nil_r; apply before_byte_none|apply before_byte_app];
      apply Itoa_not; done || lia. }
  rewrite Atoi_Itoa by lia. by rewrite (proj2 (Z.ltb_ge _ _)) by lia.
Qed.
End header.

(** A body line is none of the lines that need no hunk. *)
Lemma body_line_rest l :
  body_line l →
  HasPrefix l "diff --git " = false ∧ HasPrefix l "new file mode" = false ∧
  HasPrefix l "deleted file mode" = false ∧ is_rename l = false ∧ is_binary l = false ∧
  HasPrefix l "@@ " = false.
Proof.
  intros H%body_line_kind. destruct l as [|a l]; [done|].
  apply hunkBodyLine_inv in H as [->|[->|[->|[->| ->]]]]; split_and!; reflexivity.
Qed.

Lemma header_rest l :
  HasPrefix l "@@ " = true →
  HasPrefix l "diff --git " = false ∧ HasPrefix l "new file mode" = false ∧
  HasPrefix l "deleted file mode" = false ∧ is_rename l = false ∧ is_binary l = false ∧
  HasPrefix l "+++ " = false ∧ HasPrefix l "--- " = false ∧ hunkBodyLine l = false.
Proof. intros [r ->]%HasPrefix_spec. split_and!; reflexivity. Qed.

Lemma parse_lines_app s l k :
  parse_lines s (l ++ k) = (let? s := parse_lines s l in parse_lines s k).
Proof.
  revert s. induction l as [|x l IH]; intros s; [done|]. simpl.
  destruct (parse_line s x); simpl; [apply IH|done].
Qed.
Lemma collect_lines_app s l k :
  collect_lines s (l ++ k) = (let? s := collect_lines s l in collect_lines s k).
Proof.
  revert s. induction l as [|x l IH]; intros s; [done|]. simpl.
  destruct (collect_line s x); simpl; [apply IH|done].
Qed.

(** ** One hunk *)

Definition add_lines (f : File) (ls : list Z) : File :=
  MkFile (Fl_Path f) (Fl_Status f) (Fl_Binary f) (Fl_Lines f ++ ls).

Lemma parse_line_body s f l :
  p_cur s = Some f → p_inHunk s = true → Fl_Binary f = false → body_line l →
  parse_line s l = Ok (p_body s f l).
Proof.
  intros Hc Hh Hb Hl. pose proof (body_line_rest l Hl) as (H1 & H2 & H3 & H4 & H5 & H6).
  pose proof (body_line_kind l Hl) as Hk. destruct Hl as (_ & Hp & Hm). unfold parse_line. rewrite Hh, Hk. cbn [negb andb].
  rewrite H1, Hc. unfold p_meta. rewrite H2, H3, H4, H5. unfold p_rest.
  by rewrite Hp, Hm, H6, Hc, Hh, Hb.
Qed.

Lemma parse_body body s f :
  p_cur s = Some f → p_inHunk s = true → Fl_Binary f = false → Forall body_line body →
  (0 ≤ p_newLn s)%Z → (p_newLn s + Z.of_nat (length body) < 2 ^ 63)%Z →
  parse_lines s body =
    Ok (MkP (p_files s) (Some (add_lines f (touched (p_newLn s) body))) true
          (p_newLn s + Z.of_nat (length (new_side body))) (p_hunks s)).
Proof.
  revert s f. induction body as [|l body IH]; intros s f Hc Hh Hb Hl H0 Hr.
  { simpl. destruct s, f. simpl in *. subst. unfold add_lines. simpl.
    by rewrite app_nil_r, Z.add_0_r. }
  inversion Hl as [|?? Hl1 Hl2]; subst. cbn [parse_lines length] in *.
  rewrite (parse_line_body s f) by done. cbn [rbind].
  assert (int64 (p_newLn s + 1) = p_newLn s + 1)%Z as Hw by (apply int64_id; unfold in_int64; lia).
  (* the state after the line: its current file and line number *)
  assert (∀ s' g k m, p_cur s' = Some g → p_inHunk s' = true → Fl_Binary g = false →
    p_files s' = p_files s → p_hunks s' = p_hunks s → (p_newLn s ≤ p_newLn s' ≤ p_newLn s + 1)%Z →
    add_lines g (touched (p_newLn s') body) = add_lines f k →
    (p_newLn s' + Z.of_nat (length (new_side body)) = p_newLn s + Z.of_nat m)%Z →
    parse_lines s' body =
      Ok (MkP (p_files s) (Some (add_lines f k)) true (p_newLn s + Z.of_nat m) (p_hunks s))) as Hgo.
  { intros s' g k m H1 H2 H3 H4 H5 H6 H7 H8. rewrite (IH s' g) by (done || lia).
    by rewrite H4, H5, H7, H8. }
  destruct l as [|a l].
  - eapply Hgo; simpl; rewrite ?Hw; done || lia.
  - pose proof (hunkBodyLine_inv a l (body_line_kind _ Hl1)) as Ha. rewrite new_side_cons. cbn [touched].
    destruct Ha as [->|[->|[->|[->| ->]]]]; eapply Hgo; simpl; rewrite ?Hw;
      try (done || lia); unfold add_lines; simpl; by rewrite <- app_assoc.
Qed.

Lemma hunkNewStart_nonneg line n : hunkNewStart line = Ok n → (0 ≤ n)%Z.
Proof. unfold hunkNewStart. intros H. repeat case_match; simplify_eq; go_inv; lia. Qed.

Lemma parse_hunk s f h :
  p_cur s = Some f → Fl_Binary f = false → uhunk_ok h → (p_hunks s < maxHunks)%Z →
  parse_lines s (u_header h :: u_body h) =
    Ok (MkP (p_files s) (Some (add_lines f (touched (u_new h) (u_body h)))) true
          (u_new h + Z.of_nat (length (new_side (u_body h)))) (p_hunks s + 1)).
Proof.
  intros Hc Hb Hok Hk. pose proof (u_header_prefix h) as Hp. pose proof (hunkNewStart_header h Hok) as Hn.
  destruct Hok as [_ _ Hl Hr].
  pose proof (header_rest _ Hp) as (H1 & H2 & H3 & H4 & H5 & H6 & H7 & H8).
  assert (parse_line s (u_header h) =
          Ok (MkP (p_files s) (Some f) true (u_new h) (p_hunks s + 1))) as Hline.
  { unfold parse_line. rewrite H1, H8, andb_true_r.
    set (s1 := if p_inHunk s then _ else _).
    assert (p_cur s1 = Some f ∧ p_files s1 = p_files s ∧ p_hunks s1 = p_hunks s) as (Hc1 & Hf1 & Hk1)
      by (unfold s1; by destruct (p_inHunk s)).
    rewrite Hc1. unfold p_meta. rewrite H2, H3, H4, H5. unfold p_rest. rewrite H6, H7, Hp.
    unfold p_hunk. rewrite Hc1, Hb, Hn. cbn [rbind]. rewrite Hk1, Hf1.
    by rewrite (proj2 (Z.ltb_ge _ _)) by lia. }
  cbn [parse_lines]. rewrite Hline. cbn [rbind]. apply hunkNewStart_nonneg in Hn.
  by rewrite (parse_body _ _ f).
Qed.

Definition hunks_text (hs : list uhunk) : list string := hs ≫= λ h, u_header h :: u_body h.
Definition hunks_touched (hs : list uhunk) : list Z := hs ≫= λ h, touched (u_new h) (u_body h).

Lemma parse_hunks hs s f :
  p_cur s = Some f → Fl_Binary f = false → Forall uhunk_ok hs →
  (p_hunks s + Z.of_nat (length hs) ≤ maxHunks)%Z →
  ∃ b n, parse_lines s (hunks_text hs) =
    Ok (MkP (p_files s) (Some (add_lines f (hunks_touched hs))) b n
          (p_hunks s + Z.of_nat (length hs))).
Proof.
  intros Hc Hb Hhs. revert s f Hc Hb. induction Hhs as [|h hs Hh _ IH]; intros s f Hc Hb Hk.
  { exists (p_inHunk s), (p_newLn s). destruct s, f. simpl in *. subst. unfold add_lines. simpl.
    by rewrite app_nil_r, Z.add_0_r. }
  cbn [length] in Hk. unfold hunks_text, hunks_touched. rewrite !bind_cons, parse_lines_app.
  rewrite (parse_hunk s f h) by (done || lia). cbn [rbind].
  match goal with |- ∃ b n, parse_lines ?s1 _ = _ =>
    destruct (IH s1 (add_lines f (touched (u_new h) (u_body h)))) as (b & n & H); [done..|simpl; lia|] end.
  exists b, n. fold (hunks_text hs) (hunks_touched hs). rewrite H. unfold add_lines. simpl.
  rewrite <- app_assoc. do 2 f_equal. lia.
Qed.

Lemma collect_line_body c g l :
  c_cur c = Some g → c_inHunk c = true → a_binary g = false → body_line l →
  collect_line c l = Ok (c_body c l).
Proof.
  intros Hc Hh Hb Hl. pose proof (body_line_rest l Hl) as (H1 & H2 & H3 & H4 & H5 & H6).
  pose proof (body_line_kind l Hl) as Hk. destruct Hl as (_ & Hp & Hm). unfold collect_line. rewrite Hh, Hk. cbn [negb andb].
  rewrite H1, Hc. unfold c_meta. rewrite H2, H3, H4, H5. unfold c_rest.
  by rewrite Hp, Hm, H6, Hc, Hh, Hb.
Qed.

Lemma collect_body body c g :
  c_cur c = Some g → c_inHunk c = true → a_binary g = false → Forall body_line body →
  collect_lines c body =
    Ok (MkC (c_files c) (Some g) true
          (MkHunk (h_oldStart (c_hunk c)) (h_lines (c_hunk c) ++ kept_lines body))).
Proof.
  revert c. induction body as [|l body IH]; intros c Hc Hh Hb Hl.
  { simpl. destruct c as [? ? ? []]. simpl in *. subst. by rewrite app_nil_r. }
  inversion Hl as [|?? Hl1 Hl2]; subst. cbn [collect_lines].
  rewrite (collect_line_body c g) by done. cbn [rbind].
  destruct l as [|a l]; [rewrite IH by done; simpl; by rewrite <- app_assoc|].
  pose proof (hunkBodyLine_inv a l (body_line_kind _ Hl1)) as Ha.
  destruct Ha as [->|[->|[->|[->| ->]]]]; rewrite IH by done; simpl; by rewrite <- ?app_assoc.
Qed.

Lemma flushHunk_idem c : flushHunk (flushHunk c) = flushHunk c.
Proof.
  unfold flushHunk at 2 3. destruct (c_cur c) as [f|] eqn:E; [|unfold flushHunk; by rewrite E].
  destruct (c_inHunk c) eqn:Eh; [done|]. unfold flushHunk. by rewrite E, Eh.
Qed.

Lemma flushHunk_idle c :
  (c_cur c = None → c_inHunk c = false) → c_inHunk (flushHunk c) = false.
Proof.
  intros Hidle. unfold flushHunk. destruct (c_cur c); [|by apply Hidle]. by destruct (c_inHunk c) eqn:E.
Qed.

Lemma collect_hunk c g h :
  c_cur (flushHunk c) = Some g → a_binary g = false → uhunk_ok h →
  ∃ c', collect_lines c (u_header h :: u_body h) = Ok c' ∧ c_files c' = c_files c ∧
    c_cur (flushHunk c') = Some (a_add_hunk g (ahunk h)).
Proof.
  intros Hc Hb Hok. pose proof (u_header_prefix h) as Hp. pose proof (hunkOldStart_header h Hok) as Ho.
  destruct Hok as [_ _ Hl Hr].
  pose proof (header_rest _ Hp) as (H1 & H2 & H3 & H4 & H5 & H6 & H7 & H8).
  assert (collect_line c (u_header h) =
          Ok (MkC (c_files c) (Some g) true (MkHunk (u_old h) []))) as Hline.
  { unfold collect_line. rewrite H1, H8, andb_true_r.
    set (c1 := if c_inHunk c then _ else _).
    assert (c1 = flushHunk c) as ->.
    { unfold c1. destruct (c_inHunk c) eqn:Eh; [done|]. unfold flushHunk. rewrite Eh.
      by destruct (c_cur c). }
    rewrite Hc. unfold c_meta. rewrite H2, H3, H4, H5. unfold c_rest. rewrite H6, H7, Hp.
    unfold c_open_hunk. rewrite Hc, Hb, Ho. cbn [rbind].
    by rewrite flushHunk_idem, Hc, flushHunk_files. }
  cbn [collect_lines]. rewrite Hline. cbn [rbind].
  rewrite (collect_body _ _ g) by done. eexists. split; [done|]. done.
Qed.

Lemma collect_hunks hs c g :
  c_cur (flushHunk c) = Some g → a_binary g = false → Forall uhunk_ok hs →
  ∃ c', collect_lines c (hunks_text hs) = Ok c' ∧ c_files c' = c_files c ∧
    c_cur (flushHunk c') =
      Some (MkApply (a_path g) (a_status g) false (a_hunks g ++ (ahunk <$> hs))).
Proof.
  intros Hc Hb Hhs. revert c g Hc Hb. induction Hhs as [|h hs Hh _ IH]; intros c g Hc Hb.
  { exists c. split; [done|]. split; [done|]. rewrite Hc. destruct g. simpl in *. subst.
    by rewrite app_nil_r. }
  unfold hunks_text. rewrite bind_cons, collect_lines_app.
  destruct (collect_hunk c g h Hc Hb Hh) as (c1 & -> & Hf & Hc1). cbn [rbind].
  destruct (IH c1 _ Hc1) as (c2 & H2 & Hf2 & Hc2); [done|]. exists c2.
  split; [exact H2|]. split; [congruence|]. rewrite Hc2. simpl. by rewrite <- app_assoc.
Qed.

(** ** The section of a modified file *)

(** The section of a file: its path, the lines between the first line and the names
    ([index ...]), and its hunks. *)
Record fsection := MkSec {
  s_name : string;
  s_index : list string;
  s_hunks : list uhunk;
}.

Definition s_git (sec : fsection) : string := "diff --git a/" +:+ s_name sec +:+ " b/" +:+ s_name sec.
Definition s_minus (sec : fsection) : string := "--- a/" +:+ s_name sec.
Definition s_plus (sec : fsection) : string := "+++ b/" +:+ s_name sec.
(** The path as it is reported: relative to the shop. *)
Definition s_path (sec : fsection) : string := TrimPrefix (s_name sec) "examples/shop/".

(** A path that git prints without quoting it: names of visible ASCII characters other
    than the backslash, joined by slashes, none of them empty or a dot, and without
    two dots in a row. *)
Definition path_byte (a : ascii) : bool := in_range 33 126 a && (a != byte 92).
Record git_name (p : string) : Prop := {
  gn_bytes : forallb path_byte (bytes p) = true;
  gn_elems : Forall plain (Split p slash);
  gn_dots : Contains p ".." = false;
}.

Record section_ok (sec : fsection) : Prop := {
  so_name : git_name (s_name sec);
  so_index : Forall (λ l, HasPrefix l "index " = true) (s_index sec);
  so_hunks : Forall uhunk_ok (s_hunks sec);
}.

(** *** Reading a path back *)

Lemma ReplaceByte_none s a b : a ∉ bytes s → ReplaceByte s a b = s.
Proof.
  unfold ReplaceByte. induction s as [|c s IH]; [done|]. cbn [bytes str_map]. intros [Hc Hs]%not_elem_of_cons.
  by rewrite bool_decide_eq_false_2, IH.
Qed.

Section name.
  Context (p : string) (Hp : git_name p).

Lemma name_visible : forallb visible (bytes p) = true.
Proof using Hp.
  pose proof (gn_bytes p Hp) as H. rewrite !forallb_forall in *. intros a Ha. specialize (H a Ha).
  revert H. clear. by destruct a as [[] [] [] [] [] [] [] []].
Qed.

Lemma headerPath_name x : forallb visible (bytes x) = true → headerPath (x +:+ p) = x +:+ p.
Proof using Hp.
  intros Hx. unfold headerPath. assert (forallb visible (bytes (x +:+ p)) = true) as Hv.
  { by rewrite bytes_app, forallb_app, Hx, name_visible. }
  rewrite TrimSpace_visible by done. rewrite forallb_forall in Hv.
  rewrite (before_byte_none _ tab), before_byte_none; [done|..]; intros Hin%list_elem_of_In%Hv; done.
Qed.

Lemma Clean_name : Clean p = p ∧ HasPrefix p "/" = false ∧ p ≠ "." ∧ p ≠ "".
Proof using Hp.
  pose proof (gn_elems p Hp) as He. assert (HasPrefix p "/" = false) as Hs.
  { apply not_true_is_false. intros [r Hr]%HasPrefix_spec. rewrite Hr in He.
    change ("/" +:+ r) with (String slash r) in He. cbn [Split] in He. rewrite bool_decide_eq_true_2 in He by done.
    by inversion He as [|?? []]. }
  assert (p ≠ "") as Hn by (intros ->; by inversion He as [|?? []]).
  assert (p ≠ ".") as Hd by (intros ->; inversion He as [|?? (_ & Hx & _)]; by apply Hx).
  split; [|done]. unfold Clean. rewrite Hs, clean_elems_plain, filter_plain by (done || by eapply Forall_impl; [exact He|auto]).
  change "/" with (String slash ""). rewrite (Join_Split p slash). by rewrite bool_decide_eq_false_2.
Qed.

Lemma CanonicalPath_name : CanonicalPath ("b/" +:+ p) = Some (TrimPrefix p "examples/shop/").
Proof using Hp.
  destruct Clean_name as (Hc & Hs & Hd & Hn). pose proof (gn_bytes p Hp) as Hb. rewrite forallb_forall in Hb.
  unfold CanonicalPath. rewrite TrimSpace_visible by (rewrite bytes_app, forallb_app; by rewrite name_visible).
  rewrite ReplaceByte_none; [|rewrite bytes_app, elem_of_app; intros [Hin|Hin%list_elem_of_In%Hb]; [|done];
    by apply (bool_decide_eq_true_2 _) in Hin].
  assert (TrimPrefix ("b/" +:+ p) "a/" = "b/" +:+ p) as -> by done. rewrite TrimPrefix_app, Hc.
  rewrite bool_decide_eq_false_2 by done. rewrite bool_decide_eq_false_2 by (by intros ->). cbn [orb].
  pose proof (gn_dots p Hp) as Hdd. rewrite Hdd, orb_false_r.
  assert (HasPrefix p "../" = false) as ->.
  { apply not_true_is_false. intros [r Hr]%HasPrefix_spec. apply not_true_iff_false in Hdd. apply Hdd, Contains_iff.
    exists "", ("/" +:+ r). by rewrite Hr. }
  assert (Contains p "/../" = false) as ->.
  { apply not_true_is_false. intros (u & v & Hu)%Contains_iff. apply not_true_iff_false in Hdd.
    apply Hdd, Contains_iff. exists (u +:+ "/"), ("/" +:+ v). by rewrite Hu, !str_app_assoc. }
  assert (TrimPrefix p "/" = p) as -> by (unfold TrimPrefix; by rewrite Hs).
  cbn [orb]. rewrite bool_decide_eq_false_2; [done|]. unfold TrimPrefix.
  destruct (HasPrefix p "examples/shop/") eqn:E; [|done]. apply HasPrefix_spec in E as [r Hr].
  rewrite Hr, str_drop_app. intros ->. pose proof (gn_elems p Hp) as He. rewrite Hr in He.
  rewrite Forall_forall in He. destruct (He "") as [[] _]; [|done]. by apply (bool_decide_unpack _).
Qed.
End name.

(** The path on the [+++] line. *)
Definition s_raw (sec : fsection) : string := "b/" +:+ s_name sec.
Lemma section_names sec :
  section_ok sec →
  headerPath (str_drop 4 (s_minus sec)) = "a/" +:+ s_name sec ∧
  headerPath (str_drop 4 (s_plus sec)) = s_raw sec ∧ CanonicalPath (s_raw sec) = Some (s_path sec).
Proof.
  intros [Hn _ _]. change (str_drop 4 (s_minus sec)) with ("a/" +:+ s_name sec).
  change (str_drop 4 (s_plus sec)) with ("b/" +:+ s_name sec). rewrite !headerPath_name by done.
  split; [done|]. split; [done|]. by apply CanonicalPath_name.
Qed.
Lemma s_raw_ne sec : s_raw sec ≠ "/dev/null" ∧ s_raw sec ≠ "".
Proof. split; discriminate. Qed.

Definition section_lines (sec : fsection) : list string :=
  s_git sec :: s_index sec ++ s_minus sec :: s_plus sec :: hunks_text (s_hunks sec).

Definition file_of (sec : fsection) : File :=
  MkFile (s_path sec) "modify" false (uniqueInts (hunks_touched (s_hunks sec))).
Definition apply_of (sec : fsection) : applyFile :=
  MkApply (s_path sec) "modify" false (ahunk <$> s_hunks sec).

(** The lines in front of the first hunk do the same in both passes: they open a
    file with the path of the section. *)
Lemma index_line_parse s f l :
  HasPrefix l "index " = true → p_cur s = Some f → p_inHunk s = false → parse_line s l = Ok s.
Proof.
  intros [r ->]%HasPrefix_spec Hc Hh. unfold parse_line. rewrite Hh. cbn [andb]. rewrite Hc. simpl.
  unfold p_rest. simpl. by rewrite Hc, Hh.
Qed.
Lemma index_line_collect c g l :
  HasPrefix l "index " = true → c_cur c = Some g → c_inHunk c = false → collect_line c l = Ok c.
Proof.
  intros [r ->]%HasPrefix_spec Hc Hh. unfold collect_line. rewrite Hh. cbn [andb]. rewrite Hc. simpl.
  unfold c_rest. simpl. by rewrite Hc, Hh.
Qed.

Lemma index_lines_parse ls s f :
  Forall (λ l, HasPrefix l "index " = true) ls → p_cur s = Some f → p_inHunk s = false →
  parse_lines s ls = Ok s.
Proof.
  intros Hls Hc Hh. induction Hls as [|l ls Hl _ IH]; [done|]. cbn [parse_lines].
  by rewrite (index_line_parse s f l).
Qed.
Lemma index_lines_collect ls c g :
  Forall (λ l, HasPrefix l "index " = true) ls → c_cur c = Some g → c_inHunk c = false →
  collect_lines c ls = Ok c.
Proof.
  intros Hls Hc Hh. induction Hls as [|l ls Hl _ IH]; [done|]. cbn [collect_lines].
  by rewrite (index_line_collect c g l).
Qed.

(** Starting a file flushes the one before it. *)
Lemma parse_git s s0 l :
  HasPrefix l "diff --git " = true → (p_cur s = None → p_inHunk s = false) → p_flush s = Ok s0 →
  parse_line s l = Ok (MkP (p_files s0) (Some (set_path new_file (git_path l))) false
                         (p_newLn s0) (p_hunks s0)).
Proof.
  intros Hl Hidle Hf. unfold parse_line. rewrite Hl. set (s1 := if _ && _ then _ else _).
  assert (p_flush s1 = Ok s0 ∧ p_inHunk s0 = false) as [Hf1 Hh].
  { assert (p_cur s = None → s1 = s) as Hs1 by (intros Hn; unfold s1; by rewrite Hidle).
    unfold p_flush in *. destruct (p_cur s) as [f|] eqn:E.
    - assert (p_cur s1 = Some f ∧ p_files s1 = p_files s ∧ p_newLn s1 = p_newLn s ∧
        p_hunks s1 = p_hunks s) as (-> & -> & -> & ->) by (unfold s1; by destruct (_ && _)).
      repeat case_match; by simplify_eq/=.
    - rewrite Hs1, E by done. split; [done|]. injection Hf as <-. by apply Hidle. }
  unfold p_start. rewrite Hf1. cbn [rbind]. unfold p_set_cur. simpl. by rewrite Hh.
Qed.

Lemma collect_git c l :
  HasPrefix l "diff --git " = true → (c_cur c = None → c_inHunk c = false) →
  ∃ h, collect_line c l = Ok (MkC (c_files (flushFile c)) (Some (a_set_path new_apply (git_path l)))
                                false h).
Proof.
  intros Hl Hidle. unfold collect_line. rewrite Hl. set (c1 := if _ && _ then _ else _).
  assert (flushFile c1 = flushFile c ∧ c_inHunk (flushFile c) = false) as [Hf Hh].
  { pose proof (flushHunk_idle c Hidle) as Hh. split.
    - unfold c1. destruct (_ && _); [|done]. unfold flushFile. by rewrite flushHunk_idem.
    - unfold flushFile. by repeat case_match. }
  unfold c_start, c_set_cur. simpl. rewrite Hf, Hh. by eexists.
Qed.

Lemma parse_minus s f l :
  HasPrefix l "--- " = true → p_cur s = Some f → p_inHunk s = false →
  parse_line s l = Ok (p_set_cur s (minus_header f (headerPath (str_drop 4 l)))).
Proof.
  intros [r ->]%HasPrefix_spec Hc Hh. unfold parse_line. rewrite Hh. cbn [andb]. rewrite Hc. simpl.
  unfold p_rest. simpl. unfold p_open. by rewrite Hc, (HasPrefix_app "" r).
Qed.
Lemma parse_plus s f l :
  HasPrefix l "+++ " = true → p_cur s = Some f → p_inHunk s = false →
  parse_line s l = Ok (p_set_cur s (plus_header f (headerPath (str_drop 4 l)))).
Proof.
  intros [r ->]%HasPrefix_spec Hc Hh. unfold parse_line. rewrite Hh. cbn [andb]. rewrite Hc. simpl.
  unfold p_rest. simpl. unfold p_open. by rewrite Hc, (HasPrefix_app "" r).
Qed.
Lemma collect_minus c g l :
  HasPrefix l "--- " = true → c_cur c = Some g → c_inHunk c = false →
  collect_line c l = Ok (c_set_cur c (a_minus_header g (headerPath (str_drop 4 l)))).
Proof.
  intros [r ->]%HasPrefix_spec Hc Hh. unfold collect_line. rewrite Hh. cbn [andb]. rewrite Hc. simpl.
  unfold c_rest. simpl. unfold c_open. by rewrite Hc, (HasPrefix_app "" r).
Qed.
Lemma collect_plus c g l :
  HasPrefix l "+++ " = true → c_cur c = Some g → c_inHunk c = false →
  collect_line c l = Ok (c_set_cur c (a_plus_header g (headerPath (str_drop 4 l)))).
Proof.
  intros [r ->]%HasPrefix_spec Hc Hh. unfold collect_line. rewrite Hh. cbn [andb]. rewrite Hc. simpl.
  unfold c_rest. simpl. unfold c_open. by rewrite Hc, (HasPrefix_app "" r).
Qed.

(** After both header lines the file has the path of the section. *)
Lemma headers_file sec f :
  section_ok sec → Fl_Status f = "modify" → Fl_Binary f = false → Fl_Lines f = [] →
  plus_header (minus_header f (headerPath (str_drop 4 (s_minus sec)))) (s_raw sec) =
    MkFile (s_raw sec) "modify" false [].
Proof.
  intros Hok Hs Hb Hl. destruct (section_names sec Hok) as (-> & _). destruct (s_raw_ne sec). unfold plus_header, minus_header.
  rewrite !(bool_decide_eq_false_2 (s_raw sec = _)) by done. cbn [negb andb].
  rewrite !(bool_decide_eq_false_2 (_ +:+ _ = _)) by done.
  unfold set_path. destruct (_ && _); simpl; by rewrite Hs, Hb, Hl.
Qed.
Lemma headers_apply sec g :
  section_ok sec → a_status g = "modify" → a_binary g = false → a_hunks g = [] →
  a_plus_header (a_minus_header g (headerPath (str_drop 4 (s_minus sec)))) (s_raw sec) =
    MkApply (s_raw sec) "modify" false [].
Proof.
  intros Hok Hs Hb Hl. destruct (section_names sec Hok) as (-> & _). destruct (s_raw_ne sec). unfold a_plus_header, a_minus_header.
  rewrite !(bool_decide_eq_false_2 (s_raw sec = _)) by done. cbn [negb andb].
  rewrite !(bool_decide_eq_false_2 (_ +:+ _ = _)) by done.
  unfold a_set_path. destruct (_ && _); simpl; by rewrite Hs, Hb, Hl.
Qed.

Lemma parse_section sec s s0 :
  section_ok sec → (p_cur s = None → p_inHunk s = false) → p_flush s = Ok s0 →
  (p_hunks s0 + Z.of_nat (length (s_hunks sec)) ≤ maxHunks)%Z →
  ∃ b n, parse_lines s (section_lines sec) =
    Ok (MkP (p_files s0) (Some (MkFile (s_raw sec) "modify" false (hunks_touched (s_hunks sec)))) b n
          (p_hunks s0 + Z.of_nat (length (s_hunks sec)))).
Proof.
  intros Hok Hidle Hf Hk. pose proof Hok as [_ Hi Hh]. destruct (section_names sec Hok) as (_ & Hraw & _).
  unfold section_lines. cbn [parse_lines]. rewrite (parse_git s s0) by done. cbn [rbind].
  rewrite parse_lines_app. erewrite index_lines_parse by done. cbn [rbind parse_lines].
  erewrite parse_minus by done. cbn [rbind]. erewrite parse_plus by done. cbn [rbind].
  rewrite Hraw, (headers_file sec) by done.
  match goal with |- ∃ b n, parse_lines ?s1 _ = _ =>
    destruct (parse_hunks (s_hunks sec) s1 (MkFile (s_raw sec) "modify" false []))
      as (b & n & H); [done..|] end.
  exists b, n. exact H.
Qed.

Lemma collect_section sec c :
  section_ok sec → (c_cur c = None → c_inHunk c = false) →
  ∃ c', collect_lines c (section_lines sec) = Ok c' ∧ c_files c' = c_files (flushFile c) ∧
    c_cur (flushHunk c') = Some (MkApply (s_raw sec) "modify" false (ahunk <$> s_hunks sec)).
Proof.
  intros Hok Hidle. pose proof Hok as [_ Hi Hh]. destruct (section_names sec Hok) as (_ & Hraw & _).
  destruct (collect_git c (s_git sec) eq_refl Hidle) as [h Hgit].
  unfold section_lines. cbn [collect_lines]. rewrite Hgit. cbn [rbind].
  rewrite collect_lines_app. erewrite index_lines_collect by done. cbn [rbind collect_lines].
  erewrite collect_minus by done. cbn [rbind]. erewrite collect_plus by done. cbn [rbind].
  rewrite Hraw, (headers_apply sec) by done.
  match goal with |- ∃ c', collect_lines ?c1 _ = _ ∧ _ =>
    destruct (collect_hunks (s_hunks sec) c1 (MkApply (s_raw sec) "modify" false []))
      as (c' & H1 & H2 & H3); [done..|] end.
  exists c'. done.
Qed.

(** ** The whole diff *)

Definition diff_lines (secs : list fsection) : list string := secs ≫= section_lines.
Definition diff_text (secs : list fsection) : string := Join (diff_lines secs) nl_str +:+ nl_str.
Definition count_hunks (secs : list fsection) : Z := total (λ sec, Z.of_nat (length (s_hunks sec))) secs.

Lemma parse_sections secs s s0 :
  Forall section_ok secs → (p_cur s = None → p_inHunk s = false) → p_flush s = Ok s0 →
  (length (p_files s0) + length secs ≤ maxFiles)%nat →
  (p_hunks s0 + count_hunks secs ≤ maxHunks)%Z →
  ∃ s' s0', parse_lines s (diff_lines secs) = Ok s' ∧ p_flush s' = Ok s0' ∧
    p_files s0' = p_files s0 ++ (file_of <$> secs).
Proof.
  intros Hok. revert s s0. induction Hok as [|sec secs Hsec _ IH]; intros s s0 Hidle Hf Hn Hk.
  { exists s, s0. by rewrite app_nil_r. }
  unfold count_hunks in Hk. rewrite total_cons in Hk. fold (count_hunks secs) in Hk.
  assert (0 ≤ count_hunks secs)%Z as Hpos.
  { clear. unfold count_hunks. induction secs; [done|]. rewrite total_cons. lia. }
  destruct (parse_section sec s s0 Hsec Hidle Hf) as (b & n & H1); [lia|].
  unfold diff_lines. rewrite bind_cons, parse_lines_app, H1. cbn [rbind].
  match goal with |- ∃ s' s0', parse_lines ?s1 _ = _ ∧ _ =>
    destruct (IH s1 (MkP (p_files s0 ++ [file_of sec]) None false n
      (p_hunks s0 + Z.of_nat (length (s_hunks sec))))) as (s' & s0' & H2 & H3 & H4) end.
  - done.
  - destruct (section_names sec Hsec) as (_ & _ & Hpath). destruct (s_raw_ne sec). unfold p_flush. cbn [p_cur Fl_Path].
    rewrite bool_decide_eq_false_2, Hpath by done. cbn [length] in Hn.
    rewrite (proj2 (Nat.ltb_ge _ _)) by (simpl; lia). done.
  - simpl in *. rewrite length_app. simpl. lia.
  - simpl. lia.
  - exists s', s0'. split; [done|]. split; [done|]. rewrite H4. simpl. by rewrite <- app_assoc.
Qed.

Lemma collect_sections secs c :
  Forall section_ok secs → (c_cur c = None → c_inHunk c = false) →
  ∃ c', collect_lines c (diff_lines secs) = Ok c' ∧
    c_files (flushFile c') = c_files (flushFile c) ++ (apply_of <$> secs).
Proof.
  intros Hok. revert c. induction Hok as [|sec secs Hsec _ IH]; intros c Hidle.
  { exists c. by rewrite app_nil_r. }
  destruct (collect_section sec c Hsec Hidle) as (c1 & H1 & H2 & H3).
  unfold diff_lines. rewrite bind_cons, collect_lines_app, H1. cbn [rbind].
  destruct (IH c1) as (c' & H4 & H5).
  { intros Hn. exfalso. unfold flushHunk in H3. by rewrite Hn, Hn in H3. }
  exists c'. split; [done|]. rewrite H5. destruct (section_names sec Hsec) as (_ & _ & Hpath). destruct (s_raw_ne sec).
  unfold flushFile at 1. rewrite H3. cbn [a_path].
  rewrite bool_decide_eq_false_2, Hpath by done. cbn [c_files].
  rewrite flushHunk_files, H2, <- app_assoc. done.
Qed.

(** A line of the text: no newline in it and no carriage return at its end. *)
Definition text_line (l : string) : Prop := one_line l ∧ drop_cr l = l.

Record text_ok (secs : list fsection) : Prop := {
  to_lines : Forall text_line (diff_lines secs);
  to_size : (len (diff_text secs) ≤ MaxBytes)%Z;
  to_utf8 : utf8_Valid (diff_text secs) = true;
}.

Lemma drop_last_empty_snoc l : drop_last_empty (l ++ [""]) = l.
Proof.
  induction l as [|x l IH]; [done|]. rewrite <- app_comm_cons. simpl.
  destruct (l ++ [""]) eqn:E; [by destruct l|]. by rewrite IH.
Qed.

Lemma scan_lines_text lines :
  lines ≠ [] → Forall text_line lines → scan_lines (Join lines nl_str +:+ nl_str) = lines.
Proof.
  intros Hne Hl. unfold scan_lines, nl_str. rewrite Split_app.
  rewrite (Split_Join lines nl) by (done || by eapply Forall_impl; [exact Hl|intros ? []]).
  change (Split "" nl) with [""]. rewrite drop_last_empty_snoc.
  clear Hne. induction Hl as [|l lines [_ Hl] _ IH]; [done|]. rewrite fmap_cons. by f_equal.
Qed.

Lemma scan_overflow_text max s : scan_overflow max (s +:+ nl_str) = false.
Proof.
  unfold scan_overflow. rewrite bool_decide_eq_false_2; [by rewrite andb_false_r|].
  induction s as [|a s IH]; [done|]. rewrite app_cons_str. cbn [IndexByte].
  case_bool_decide; [done|]. by destruct (IndexByte (s +:+ nl_str) nl).
Qed.

Lemma git_diff_read secs :
  secs ≠ [] → Forall section_ok secs → text_ok secs →
  (length secs ≤ maxFiles)%nat → (count_hunks secs ≤ maxHunks)%Z →
  Parse (diff_text secs) = Ok (MkDiff (file_of <$> secs)) ∧
  collectApply (diff_text secs) = Ok (apply_of <$> secs).
Proof.
  intros Hne Hok [Hl Hs Hu] Hn Hk.
  assert (scan_lines (diff_text secs) = diff_lines secs) as Hscan.
  { apply scan_lines_text; [|done]. by destruct secs. }
  destruct (parse_sections secs (MkP [] None false 0 0) (MkP [] None false 0 0))
    as (s & s0 & H1 & H2 & H3); [done..|]. destruct (collect_sections secs (MkC [] None false zeroHunk))
    as (c & H4 & H5); [done..|]. split.
  - unfold Parse. rewrite (proj2 (Z.ltb_ge _ _)) by done.
    rewrite bool_decide_eq_false_2 by (unfold diff_text; by destruct (Join _ _)).
    rewrite Hu. cbn [negb]. unfold diff_text at 1. rewrite scan_overflow_text, Hscan, H1. cbn [rbind].
    rewrite H2. cbn [rbind]. by rewrite H3.
  - unfold collectApply. unfold diff_text at 1. rewrite scan_overflow_text, Hscan, H4. cbn [rbind].
    by rewrite H5.
Qed.


(** ** The reported lines are sound *)

(** The new start of each hunk is where the lines before it put it. *)
Fixpoint positions_ok (delta : Z) (hs : list uhunk) : Prop :=
  match hs with
  | [] => True
  | h :: hs =>
      u_new h = (hunk_start (ahunk h) + delta)%Z ∧
      positions_ok (delta + Z.of_nat (length (new_side (u_body h))) -
                            Z.of_nat (length (old_side (u_body h)))) hs
  end.

Lemma kept_sides body :
  Forall body_line body →
  old_side (kept_lines body) = old_side body ∧ new_side (kept_lines body) = new_side body.
Proof.
  induction 1 as [|l body Hl _ [IHo IHn]]; [done|].
  destruct l as [|a l]; [unfold old_side, new_side in *; split; simpl; by f_equal|].
  assert (kept_lines (String a l :: body) =
          if a == byte 92 then kept_lines body else String a l :: kept_lines body) as ->
    by (unfold kept_lines; cbn [omap list_omap]; by case_bool_decide).
  rewrite (old_side_cons a l body), (new_side_cons a l body).
  case_bool_decide; [by subst|]. by rewrite old_side_cons, new_side_cons, IHo, IHn.
Qed.

(** A line of the new side that is not touched is a context line. *)
Lemma touched_sound body n i l :
  new_side body !! i = Some l → (n + Z.of_nat i)%Z ∉ touched n body → l ∈ old_side body.
Proof.
  revert n i. induction body as [|x body IH]; intros n i Hi Hn; [done|].
  assert (∀ y, (y :: new_side body) !! i = Some l →
    (n + Z.of_nat i)%Z ∉ touched (n + 1) body → l ∈ y :: old_side body) as Hctx.
  { intros y Hy Ht. destruct i as [|i]; [injection Hy as <-; left|]. right.
    apply (IH (n + 1)%Z i); [done|]. by replace (n + 1 + Z.of_nat i)%Z with (n + Z.of_nat (S i))%Z by lia. }
  destruct x as [|a x]; [by apply Hctx|].
  rewrite old_side_cons, new_side_cons in *. cbn [touched] in Hn.
  destruct (kind_of a).
  - by apply Hctx.
  - right. apply (IH n i); [done|]. set_solver.
  - destruct i as [|i]; [rewrite Z.add_0_r in Hn; set_solver|]. simpl in Hi.
    apply (IH (n + 1)%Z i); [done|]. replace (n + 1 + Z.of_nat i)%Z with (n + Z.of_nat (S i))%Z by lia.
    set_solver.
  - by apply (IH n i).
Qed.

Lemma patched_sound hs k delta orig out i l :
  Forall uhunk_ok hs → patched k orig (ahunk <$> hs) out → positions_ok delta hs →
  out !! i = Some l → (k + delta + Z.of_nat i)%Z ∉ hunks_touched hs → l ∈ orig.
Proof.
  intros Hok. revert k delta orig out i. induction Hok as [|h hs Hh _ IH];
    intros k delta orig out i Hp Hpos Hi Hn.
  { inversion Hp; subst. by eapply list_elem_of_lookup_2. }
  rewrite fmap_cons in Hp. inversion Hp as [|? pre rest ? ? out' Hs Hp']; subst.
  destruct Hpos as [Hnew Hpos]. destruct (kept_sides _ (uo_body h Hh)) as [Hko Hkn].
  change (h_lines (ahunk h)) with (kept_lines (u_body h)) in *. rewrite Hko, Hkn in *.
  unfold hunks_touched in Hn. rewrite bind_cons in Hn.
  apply not_elem_of_app in Hn as [Hn1 Hn2]. rewrite !elem_of_app.
  rewrite !lookup_app_Some in Hi. destruct Hi as [Hi|[Hlen [Hi|[Hlen2 Hi]]]].
  - left. by eapply list_elem_of_lookup_2.
  - right. left. apply (touched_sound _ (u_new h) (i - length pre)); [done|].
    by replace (u_new h + Z.of_nat (i - length pre))%Z with (k + delta + Z.of_nat i)%Z by lia.
  - right. right. apply (IH _ _ _ _ _ Hp' Hpos Hi).
    match goal with |- ?n ∉ _ => by replace n with (k + delta + Z.of_nat i)%Z by lia end.
Qed.

(** The added lines of a body with their numbers in the new file, from line [n] on. *)
Fixpoint added (n : Z) (body : list string) : list (Z * string) :=
  match body with
  | [] => []
  | "" :: body => added (n + 1) body
  | String a l :: body =>
      match kind_of a with
      | Context => added (n + 1) body
      | Added => (n, l) :: added (n + 1) body
      | Removed | Other => added n body
      end
  end.

Lemma added_touched n body ln l : (ln, l) ∈ added n body → ln ∈ touched n body.
Proof.
  revert n. induction body as [|x body IH]; intros n; [by intros ?%not_elem_of_nil|].
  destruct x as [|a x]; [apply IH|]. cbn [added touched]. destruct (kind_of a); [apply IH|set_solver| |apply IH].
  intros [[= -> ->]|Hx]%elem_of_cons; [left|right; by apply IH].
Qed.

Lemma added_new_side n body ln l :
  (ln, l) ∈ added n body → ∃ i, new_side body !! i = Some l ∧ ln = (n + Z.of_nat i)%Z.
Proof.
  revert n. induction body as [|x body IH]; intros n; [by intros ?%not_elem_of_nil|].
  assert (∀ y, (ln, l) ∈ added (n + 1) body →
    ∃ i, (y :: new_side body) !! i = Some l ∧ ln = (n + Z.of_nat i)%Z) as Hnext.
  { intros y (i & Hi & ->)%IH. exists (S i). split; [done|lia]. }
  destruct x as [|a x]; [apply Hnext|]. rewrite new_side_cons. cbn [added]. destruct (kind_of a); [apply Hnext|apply IH| |apply IH].
  intros [[= -> ->]|Hx]%elem_of_cons; [exists 0%nat; split; [done|lia]|by apply Hnext].
Qed.

(** The lines that hunks add stand in the new file under their numbers. *)
Lemma patched_added hs k delta orig out h ln l :
  Forall uhunk_ok hs → patched k orig (ahunk <$> hs) out → positions_ok delta hs →
  h ∈ hs → (ln, l) ∈ added (u_new h) (u_body h) → ∃ i, out !! i = Some l ∧ ln = (k + delta + Z.of_nat i)%Z.
Proof.
  intros Hok. revert k delta orig out. induction Hok as [|h' hs Hh' _ IH]; intros k delta orig out Hp Hpos Hh Hln.
  { by apply not_elem_of_nil in Hh. }
  rewrite fmap_cons in Hp. inversion Hp as [|? pre rest ? ? out' Hs Hp']; subst.
  destruct Hpos as [Hnew Hpos]. destruct (kept_sides _ (uo_body h' Hh')) as [Hko Hkn].
  change (h_lines (ahunk h')) with (kept_lines (u_body h')) in *. rewrite Hko, Hkn in *.
  apply elem_of_cons in Hh as [->|Hh].
  - apply added_new_side in Hln as (i & Hi & ->). exists (length pre + i)%nat. split; [|lia].
    rewrite lookup_app_r by lia. rewrite lookup_app_l by (apply lookup_lt_Some in Hi; lia).
    by replace (length pre + i - length pre)%nat with i by lia.
  - destruct (IH _ _ _ _ Hp' Hpos Hh Hln) as (i & Hi & ->).
    exists (length pre + (length (new_side (u_body h')) + i))%nat. split; [|lia].
    rewrite !lookup_app_r by lia. rewrite <- Hi. f_equal. lia.
Qed.

Lemma unique_go_elem seen l x : x ∈ unique_go seen l ↔ x ∈ l ∧ (0 < x)%Z ∧ x ∉ seen.
Proof.
  revert seen. induction l as [|n l IH]; intros seen; simpl; [set_solver|].
  destruct (Z.leb_spec n 0); simpl.
  - rewrite IH, elem_of_cons. split; [tauto|]. intros ([->|] & ? & ?); [lia|done].
  - case_bool_decide.
    + rewrite IH, elem_of_cons. split; [tauto|]. intros ([->|] & ? & ?); done.
    + rewrite !elem_of_cons, IH, elem_of_cons. destruct (decide (x = n)); naive_solver.
Qed.
Lemma uniqueInts_elem l x : x ∈ uniqueInts l ↔ x ∈ l ∧ (0 < x)%Z.
Proof. unfold uniqueInts. rewrite elem_of_sort_cmp, unique_go_elem. set_solver. Qed.

Lemma unreported_old secs i sec orig body :
  Forall section_ok secs → text_ok secs →
  (length secs ≤ maxFiles)%nat → (count_hunks secs ≤ maxHunks)%Z →
  secs !! i = Some sec → positions_ok 0 (s_hunks sec) →
  Parse (diff_text secs) = Ok (MkDiff (file_of <$> secs)) ∧
  collectApply (diff_text secs) = Ok (apply_of <$> secs) ∧
  (applyToLines orig (a_hunks (apply_of sec)) = Ok body →
   ∃ out, body = render orig out ∧
     (∀ n l, out !! n = Some l → (Z.of_nat n + 1)%Z ∉ Fl_Lines (file_of sec) → l ∈ orig) ∧
     ∀ h ln l, h ∈ s_hunks sec → (ln, l) ∈ added (u_new h) (u_body h) →
       ∃ n, ln = (Z.of_nat n + 1)%Z ∧ out !! n = Some l ∧ ln ∈ Fl_Lines (file_of sec)).
Proof.
  intros Hok Ht Hn Hk Hi Hpos. assert (secs ≠ []) as Hne by (by intros ->).
  destruct (git_diff_read secs) as [HP HC]; [done..|]. do 2 (split; [done|]).
  intros Ha. unfold applyToLines in Ha. apply rbind_ok in Ha as (res & Hp & [= <-]).
  apply apply_hunks_iff in Hp as (out & -> & Hp). exists out. split; [done|].
  pose proof (Forall_lookup_1 _ _ _ _ Hok Hi) as Hsec. split.
  - intros n l Hl Hnot. eapply (patched_sound (s_hunks sec) 1 0); [apply Hsec|exact Hp|done|exact Hl|].
    intros Hin. apply Hnot, uniqueInts_elem. split; [|lia].
    by replace (Z.of_nat n + 1)%Z with (1 + 0 + Z.of_nat n)%Z by lia.
  - intros h ln l Hh Hln. destruct (patched_added (s_hunks sec) 1 0 orig out h ln l) as (n & Hl & ->); [apply Hsec|done..|].
    exists n. split; [lia|]. split; [done|]. apply uniqueInts_elem. split; [|lia].
    apply list_elem_of_bind. exists h. split; [|done]. by eapply added_touched.
Qed.

(** The lines reported for a file are sound for the analysis. When the
    section of a file is applied to its old lines, every line of the result whose
    number is not reported was a line of the old file. The new starts of the
    hunks have to be right, which is what a unified diff promises. *)
Theorem reported_lines_sound secs i sec orig body :
  Forall section_ok secs → text_ok secs →
  (length secs ≤ maxFiles)%nat → (count_hunks secs ≤ maxHunks)%Z →
  secs !! i = Some sec → positions_ok 0 (s_hunks sec) →
  ∃ d fs f g, Parse (diff_text secs) = Ok d ∧ collectApply (diff_text secs) = Ok fs ∧
    D_Files d !! i = Some f ∧ fs !! i = Some g ∧
    (applyToLines orig (a_hunks g) = Ok body →
     ∃ out, body = render orig out ∧
       ∀ n l, out !! n = Some l → (Z.of_nat n + 1)%Z ∉ Fl_Lines f → l ∈ orig).
Proof.
  intros Hok Ht Hn Hk Hi Hpos.
  destruct (unreported_old secs i sec orig body) as (HP & HC & Hold); [done..|].
  exists (MkDiff (file_of <$> secs)), (apply_of <$> secs), (file_of sec), (apply_of sec).
  cbn [D_Files]. rewrite !list_lookup_fmap, Hi. do 4 (split; [done|]). intros Ha.
  destruct (Hold Ha) as (out & Hb & Ho & _). by exists out.
Qed.

(** ** Texts that are read differently from what they mean *)

Definition text (lines : list string) : string := Join lines nl_str +:+ nl_str.

(** In a unified diff without [diff --git] lines the header of a second file does
    not start a file: it renames the first one, whose lines are reported under
    the second path. *)
Definition plain_two_files : string :=
  text ["--- a/x.go"; "+++ b/x.go"; "@@ -1,1 +1,1 @@"; "-a"; "+b";
        "--- a/y.go"; "+++ b/y.go"; "@@ -5,1 +5,1 @@"; "-c"; "+d"].

Theorem plain_diff_merges_files :
  Parse plain_two_files = Ok (MkDiff [MkFile "y.go" "modify" false [1; 5]%Z]).
Proof. vm_compute. reflexivity. Qed.

(** An added line that starts with two plus signs and a space is taken for a
    header: the file is reported, and would be changed, under another path. *)
Definition plus_plus_line : string :=
  text ["diff --git a/x.c b/x.c"; "--- a/x.c"; "+++ b/x.c"; "@@ -1,1 +1,2 @@"; " a"; "+++ n;"].

Theorem added_line_renames_file :
  Parse plus_plus_line = Ok (MkDiff [MkFile "n;" "modify" false []]).
Proof. vm_compute. reflexivity. Qed.

(** The header of a hunk without old lines names the line before it; the hunk is
    applied in front of that line. *)
Theorem insertion_without_context_is_early :
  hunkOldStart "@@ -2,0 +3,1 @@" = Ok 2%Z ∧
  applyToLines ["a"; "b"; "c"] [MkHunk 2 ["+x"]] = Ok (text ["a"; "x"; "b"; "c"]).
Proof. split; vm_compute; reflexivity. Qed.

(** A file with carriage returns: the scanner takes them off the lines of the diff but
    they stay on the lines of the file, so that the diff git prints is refused. *)
Definition cr (s : string) : string := s +:+ String (byte 13) "".
Definition crlf_diff : string :=
  text ["diff --git a/x.c b/x.c"; "--- a/x.c"; "+++ b/x.c"; "@@ -1,2 +1,2 @@"; cr " a"; cr "-b"; cr "+c"].

Theorem crlf_mismatch :
  ∃ f, collectApply crlf_diff = Ok [f] ∧
    applyToLines (splitLines (text [cr "a"; cr "b"])) (a_hunks f) = Err "context mismatch".
Proof. eexists. split; vm_compute; reflexivity. Qed.

(** A symbolic link to a directory below the root leads a change out of it: the
    containment check looks at names only. *)
Definition linked_tree : os.tree :=
  list_to_map [(["r"], os.NDir); (["r"; "out"], os.NLink "/etc"); (["etc"], os.NDir);
               (["etc"; "passwd"], os.NFile (text ["root"]))].
Definition linked_diff : string :=
  text ["--- a/out/passwd"; "+++ b/out/passwd"; "@@ -1,1 +1,2 @@"; " root"; "+eve"].

Theorem Apply_follows_links :
  let '(r, t) := Apply None "/r" linked_diff linked_tree in
  r = Ok tt ∧ t !! ["etc"; "passwd"] = Some (os.NFile (text ["root"; "eve"])).
Proof. vm_compute. split; reflexivity. Qed.

End report.
