(* ===== verification/DiffExamples.v ===== *)
(** * A diff, read and applied

    A two-hunk change of one file, on which the theorems about diffs apply. *)

From S2P Require Import Prelude GoStrings GoText GoOS Diff DiffReport.
Import diff report.

Definition sample_section : fsection :=
  MkSec "svc/a.go" ["index 1..2 100644"]
    [MkU false 2 2 " func f" [" b"; "-c"; "+C"; "+D"]; MkU false 5 6 "" ["-e"; "+E"]].
Definition sample_diff : string := diff_text [sample_section].

Definition sample_old : list string := ["a"; "b"; "c"; "d"; "e"].
Definition sample_new : list string := ["a"; "b"; "C"; "D"; "d"; "E"].

Example sample_text :
  diff_lines [sample_section] =
    ["diff --git a/svc/a.go b/svc/a.go"; "index 1..2 100644"; "--- a/svc/a.go"; "+++ b/svc/a.go";
     "@@ -2,2 +2,3 @@ func f"; " b"; "-c"; "+C"; "+D"; "@@ -5 +6 @@"; "-e"; "+E"].
Proof. vm_compute. reflexivity. Qed.

Lemma body_lines_dec ls :
  forallb (λ l, hunkBodyLine l && negb (HasPrefix l "+++ ") && negb (HasPrefix l "--- ")) ls = true →
  Forall body_line ls.
Proof.
  rewrite forallb_True, Forall_forall. intros H l Hl. specialize (H l Hl).
  apply andb_true_iff in H as [[H1 H2]%andb_true_iff H3]. split; [|by go_inv].
  intros a r ->. cbn in H1. by apply bool_decide_eq_true in H1.
Qed.

Lemma sample_section_ok : section_ok sample_section.
Proof.
  split; [split|by repeat constructor|].
  - reflexivity.
  - repeat constructor; discriminate.
  - reflexivity.
  - constructor; [|constructor; [|constructor]]; (split; [cbn; lia|cbn; lia|by apply body_lines_dec|cbn; lia]).
Qed.

Lemma sample_text_ok : text_ok [sample_section].
Proof.
  split; [|discriminate|reflexivity].
  apply Forall_forall. intros l Hl.
  assert (forallb (λ l, negb (bool_decide (nl ∈ bytes l)) && (drop_cr l == l))
    (diff_lines [sample_section]) = true) as H by (vm_compute; reflexivity).
  rewrite forallb_True in H. specialize (H l Hl). apply andb_true_iff in H as [H1 H2].
  unfold text_line, one_line. by go_inv.
Qed.


Lemma reported_lines_sound_witness :
  ∃ out, text sample_new = render sample_old out ∧
    ∀ n l, out !! n = Some l → (Z.of_nat n + 1)%Z ∉ [3; 4; 6]%Z → l ∈ sample_old.
Proof.
  destruct (reported_lines_sound [sample_section] 0 sample_section sample_old (text sample_new))
    as (d & fs & f & g & HP & HC & Hf & Hg & H).
  - constructor; [apply sample_section_ok|constructor].
  - apply sample_text_ok.
  - vm_compute. lia.
  - vm_compute. discriminate.
  - reflexivity.
  - vm_compute. auto.
  - vm_compute in HP, HC. injection HP as <-. injection HC as <-.
    vm_compute in Hf, Hg. injection Hf as <-. injection Hg as <-.
    apply H. vm_compute. reflexivity.
Defined.

Definition sample_hunks : list applyHunk :=
  [MkHunk 2 [" b"; "-c"; "+C"; "+D"]; MkHunk 5 ["-e"; "+E"]].

Lemma applyToLines_undo_witness :
  applyToLines (splitLines (text sample_new)) (invert 0 sample_hunks) = Ok (text sample_old).
Proof.
  apply (applyToLines_undo (text sample_old) sample_hunks (text sample_new)).
  - reflexivity.
  - unfold one_lines. repeat constructor; unfold one_line; vm_compute; set_solver.
  - vm_compute. reflexivity.
  - discriminate.
Defined.

Definition sample_result : Diff := MkDiff [MkFile "svc/a.go" "modify" false [3; 4; 6]%Z].
Lemma sample_parsed : Parse sample_diff = Ok sample_result.
Proof. vm_compute. reflexivity. Qed.

Lemma collectApply_agrees_witness :
  ∃ d fs, Parse sample_diff = Ok d ∧ collectApply sample_diff = Ok fs ∧
    Forall2 same_file (D_Files d) fs.
Proof.
  pose proof (collectApply_agrees sample_diff _ sample_parsed) as H. exists sample_result.
  destruct (collectApply sample_diff) as [fs|e] eqn:Ec.
  - exists fs. split; [exact sample_parsed|]. split; [reflexivity|exact H].
  - vm_compute in Ec. discriminate.
Defined.

Definition sample_tree : os.tree :=
  list_to_map [(["r"], os.NDir); (["r"; "svc"], os.NDir);
               (["r"; "svc"; "a.go"], os.NFile (text sample_old)); (["etc"], os.NDir)].

Lemma sample_real_dir : os.real_dir sample_tree ["r"].
Proof.
  split.
  - intros q [k Hk]. destruct q as [|x q]; [done|]. injection Hk as <- Hk.
    destruct q; [|discriminate]. reflexivity.
  - intros q target _ Hq. unfold sample_tree in Hq.
    apply elem_of_list_to_map_2 in Hq. rewrite !elem_of_cons, elem_of_nil in Hq. naive_solver.
Qed.

Definition sample_applied : os.tree := (Apply None "/r" sample_diff sample_tree).2.

Lemma sample_apply : Apply None "/r" sample_diff sample_tree = (Ok tt, sample_applied).
Proof.
  rewrite (surjective_pairing (Apply None "/r" sample_diff sample_tree)). by f_equal.
Qed.

Lemma Apply_only_reported_witness :
  sample_applied !! ["r"; "svc"; "a.go"] = Some (os.NFile (text sample_new)) ∧
  ∀ q, sample_applied !! q ≠ sample_tree !! q → ["r"] `prefix_of` q.
Proof.
  split; [vm_compute; reflexivity|]. intros q Hq.
  destruct (Apply_only_reported None "/r" sample_diff sample_tree (Ok tt) sample_applied
    sample_result ["r"]) with (q := q) as [H _].
  - reflexivity.
  - discriminate.
  - constructor; [|constructor]. split; [discriminate|]. split; discriminate.
  - constructor; [|constructor]. unfold os.slashless. compute_done.
  - apply sample_real_dir.
  - exact sample_parsed.
  - exact sample_apply.
  - exact Hq.
  - exact H.
Defined.
