(* ===== verification/Rewrite.v ===== *)
(** * Known rewrites of the shop: [internal/rewrite]

    A candidate is a diff that replaces a known text of a known file by another
    text. The texts are given by their lines. *)

From S2P Require Import Prelude GoStrings GoText Flags GoOS Diff DiffReport.
Import diff report.

Module rewrite.

(** Lines with the newline that ends each of them. *)
Definition flat (ls : list string) : string := foldr (λ l s, l +:+ nl_str +:+ s) "" ls.

Fixpoint tabs (n : nat) (s : string) : string := match n with O => s | S n => String tab (tabs n s) end.
Definition q (s : string) : string := String (byte 34) (s +:+ String (byte 34) "").

Definition d1File : string := "internal/payment/handler.go".
Definition d2File : string := "internal/users/store.go".
Definition d3File : string := "migrations/000001_init.up.sql".
Definition d4File : string := "internal/checkout/handler.go".
Definition d5File : string := "internal/checkout/handler.go".
Definition d6File : string := "internal/inventory/handler.go".

Definition d1Old_lines : list string :=
  [tabs 1 "client := svcclient.NewEphemeral()"].
Definition d1New_lines : list string :=
  [tabs 1 "client := svcclient.Shared()"].
Definition d2Old_lines : list string :=
  [tabs 1 "rows, err := s.pool.Query(ctx, `SELECT id FROM user_addresses WHERE user_id = $1`, id)";
   tabs 1 "if err != nil {";
   tabs 2 "return nil, err";
   tabs 1 "}";
   tabs 1 "defer rows.Close()";
   "";
   tabs 1 "var addrIDs []string";
   tabs 1 "for rows.Next() {";
   tabs 2 "var addrID string";
   tabs 2 "if err := rows.Scan(&addrID); err != nil {";
   tabs 3 "return nil, err";
   tabs 2 "}";
   tabs 2 "addrIDs = append(addrIDs, addrID)";
   tabs 1 "}";
   tabs 1 "if err := rows.Err(); err != nil {";
   tabs 2 "return nil, err";
   tabs 1 "}";
   "";
   tabs 1 "u.Addresses = make([]Address, 0, len(addrIDs))";
   tabs 1 "for _, addrID := range addrIDs {";
   tabs 2 "var a Address";
   tabs 2 "err := s.pool.QueryRow(ctx,";
   tabs 3 "`SELECT id, line1, city FROM user_addresses WHERE id = $1`, addrID,";
   tabs 2 ").Scan(&a.ID, &a.Line1, &a.City)";
   tabs 2 "if err != nil {";
   tabs 3 "return nil, err";
   tabs 2 "}";
   tabs 2 "u.Addresses = append(u.Addresses, a)";
   tabs 1 "}"].
Definition d2New_lines : list string :=
  [tabs 1 "rows, err := s.pool.Query(ctx, `SELECT id, line1, city FROM user_addresses WHERE user_id = $1`, id)";
   tabs 1 "if err != nil {";
   tabs 2 "return nil, err";
   tabs 1 "}";
   tabs 1 "defer rows.Close()";
   tabs 1 "for rows.Next() {";
   tabs 2 "var a Address";
   tabs 2 "if err := rows.Scan(&a.ID, &a.Line1, &a.City); err != nil {";
   tabs 3 "return nil, err";
   tabs 2 "}";
   tabs 2 "u.Addresses = append(u.Addresses, a)";
   tabs 1 "}";
   tabs 1 "if err := rows.Err(); err != nil {";
   tabs 2 "return nil, err";
   tabs 1 "}"].
Definition d3Old_lines : list string :=
  ["CREATE TABLE inventory_events (";
   "    id          BIGSERIAL PRIMARY KEY,";
   "    sku         TEXT NOT NULL,";
   "    checkout_id TEXT NOT NULL,";
   "    kind        TEXT NOT NULL,";
   "    qty         INTEGER NOT NULL,";
   "    created_at  TIMESTAMPTZ NOT NULL DEFAULT now()";
   ");"].
Definition d3New_lines : list string :=
  ["CREATE TABLE inventory_events (";
   "    id          BIGSERIAL PRIMARY KEY,";
   "    sku         TEXT NOT NULL,";
   "    checkout_id TEXT NOT NULL,";
   "    kind        TEXT NOT NULL,";
   "    qty         INTEGER NOT NULL,";
   "    created_at  TIMESTAMPTZ NOT NULL DEFAULT now()";
   ");";
   "CREATE INDEX inventory_events_sku ON inventory_events (sku);"].
Definition d4Old_lines : list string :=
  [tabs 1 "for range 5 {"].
Definition d4New_lines : list string :=
  [tabs 1 "for range 1 {"].
Definition d5Old_lines : list string :=
  [tabs 1 ("_ = svcclient.PostJSON(ctx, h.http, h.notificationURL+" +:+ q "/notify" +:+ ", map[string]any{");
   tabs 2 (q "user_id" +:+ ": req.UserID, " +:+ q "checkout_id" +:+ ": checkoutID, " +:+ q "kind" +:+
      ": " +:+ q "order_confirmed" +:+ ",");
   tabs 1 "}, nil)"].
Definition d5New_lines : list string :=
  [tabs 1 "go func() {";
   tabs 2 ("_ = svcclient.PostJSON(context.Background(), h.http, h.notificationURL+" +:+ q "/notify" +:+
      ", map[string]any{");
   tabs 3 (q "user_id" +:+ ": req.UserID, " +:+ q "checkout_id" +:+ ": checkoutID, " +:+ q "kind" +:+
      ": " +:+ q "order_confirmed" +:+ ",");
   tabs 2 "}, nil)";
   tabs 1 "}()"].
Definition d6Old_lines : list string :=
  [tabs 1 ("ok, err := h.rdb.SetNX(ctx, " +:+ q "inventory:global" +:+
      ", req.CheckoutID, 3*time.Second).Result()");
   tabs 1 "if err != nil {";
   tabs 2 ("httputil.WriteError(w, http.StatusServiceUnavailable, " +:+ q "lock unavailable" +:+ ")");
   tabs 2 "return";
   tabs 1 "}";
   tabs 1 "if !ok {";
   tabs 2 ("httputil.WriteError(w, http.StatusConflict, " +:+ q "inventory busy" +:+ ")");
   tabs 2 "return";
   tabs 1 "}";
   tabs 1 ("defer func() { _ = h.rdb.Del(context.Background(), " +:+ q "inventory:global" +:+ ").Err() }()")].
Definition d6New_lines : list string :=
  [tabs 1 ("lockKey := " +:+ q "inventory:" +:+ " + req.SKU");
   tabs 1 "ok, err := h.rdb.SetNX(ctx, lockKey, req.CheckoutID, 3*time.Second).Result()";
   tabs 1 "if err != nil {";
   tabs 2 ("httputil.WriteError(w, http.StatusServiceUnavailable, " +:+ q "lock unavailable" +:+ ")");
   tabs 2 "return";
   tabs 1 "}";
   tabs 1 "if !ok {";
   tabs 2 ("httputil.WriteError(w, http.StatusConflict, " +:+ q "inventory busy" +:+ ")");
   tabs 2 "return";
   tabs 1 "}";
   tabs 1 "defer func() { _ = h.rdb.Del(context.Background(), lockKey).Err() }()"].

Definition d1Old : string := flat d1Old_lines.
Definition d1New : string := flat d1New_lines.
Definition d2Old : string := flat d2Old_lines.
Definition d2New : string := flat d2New_lines.
Definition d3Old : string := flat d3Old_lines.
Definition d3New : string := flat d3New_lines.
Definition d4Old : string := flat d4Old_lines.
Definition d4New : string := flat d4New_lines.
Definition d5Old : string := flat d5Old_lines.
Definition d5New : string := flat d5New_lines.
Definition d6Old : string := flat d6Old_lines.
Definition d6New : string := flat d6New_lines.

Definition touches (files : list string) (want : string) : bool :=
  bool_decide (files = []) || existsb (λ p, (p == want) || HasSuffix p ("/" +:+ want)) files.

(** [strings.Count] of newlines. *)
Definition count_lines (s : string) : Z := count (λ a, a == nl) (bytes s).

Definition unified (path : string) (start : Z) (oldText newText : string) : string :=
  let oldLines := Split (TrimSuffix oldText nl_str) nl in
  let newLines := Split (TrimSuffix newText nl_str) nl in
  "diff --git a/" +:+ path +:+ " b/" +:+ path +:+ nl_str +:+
  "--- a/" +:+ path +:+ nl_str +:+
  "+++ b/" +:+ path +:+ nl_str +:+
  "@@ -" +:+ Itoa start +:+ "," +:+ Itoa (Z.of_nat (length oldLines)) +:+ " +" +:+ Itoa start +:+ "," +:+
    Itoa (Z.of_nat (length newLines)) +:+ " @@" +:+ nl_str +:+
  flat (String (byte 45) <$> oldLines) +:+ flat (String (byte 43) <$> newLines).

Definition noCandidate : string := "rewrite: no candidate".

(** [wd] is the working directory. *)
Definition candidate (wd : option string) (t : os.tree) (dir : string) (files : list string)
    (rel oldText newText : string) : result string string :=
  if negb (touches files rel) then Err noCandidate
  else match os.Abs wd dir with
  | None => Err "rewrite: abs"
  | Some root =>
      match os.ReadFile t (os.path_Join root rel) with
      | None => Err "rewrite: open"
      | Some raw =>
          if negb (Contains raw oldText) then Err noCandidate
          else if Contains raw newText then Err noCandidate
          else match Index raw oldText with
               | None => Err noCandidate
               | Some idx => Ok (unified rel (1 + count_lines (str_take idx raw)) oldText newText)
               end
      end
  end.

Section rewrites.
  Context (wd : option string) (t : os.tree) (dir : string) (files : list string).

Definition D1 : result string string := candidate wd t dir files d1File d1Old d1New.
Definition D2 : result string string := candidate wd t dir files d2File d2Old d2New.
Definition D3 : result string string := candidate wd t dir files d3File d3Old d3New.
Definition D4 : result string string := candidate wd t dir files d4File d4Old d4New.
Definition D5 : result string string := candidate wd t dir files d5File d5Old d5New.
Definition D6 : result string string := candidate wd t dir files d6File d6Old d6New.

Fixpoint first_ok (rs : list (result string string)) : result string string :=
  match rs with
  | [] => Err noCandidate
  | Ok d :: _ => Ok d
  | Err _ :: rs => first_ok rs
  end.
Definition Candidates : result string string := first_ok [D1; D2; D4; D5; D6; D3].
End rewrites.

(** ** Lines *)

Lemma flat_app ls ks : flat (ls ++ ks) = flat ls +:+ flat ks.
Proof. induction ls as [|l ls IH]; [done|]. simpl. by rewrite IH, !str_app_assoc. Qed.
Lemma flat_Join ls : ls ≠ [] → flat ls = Join ls nl_str +:+ nl_str.
Proof.
  induction ls as [|l ls IH]; [done|]. intros _. destruct ls as [|k ls]; [by simpl; rewrite str_app_nil_r|].
  rewrite Join_cons by done. simpl flat in *. by rewrite IH, !str_app_assoc.
Qed.
Lemma flat_lines ls : ls ≠ [] → Forall one_line ls → Split (TrimSuffix (flat ls) nl_str) nl = ls.
Proof. intros Hne Hl. rewrite flat_Join, TrimSuffix_app by done. by apply Split_Join. Qed.
Lemma flat_length ls : (length ls ≤ String.length (flat ls))%nat.
Proof. induction ls as [|l ls IH]; [done|]. simpl. rewrite !length_str_app. simpl. lia. Qed.
Lemma count_flat ls : Forall one_line ls → count_lines (flat ls) = Z.of_nat (length ls).
Proof.
  unfold count_lines. induction 1 as [|l ls Hl _ IH]; [done|]. simpl flat.
  rewrite !bytes_app, !count_app, IH. assert (count (λ a, a == nl) (bytes l) = 0%Z) as ->.
  { apply Z.le_antisymm; [|apply count_nonneg]. apply Z.nlt_ge. intros (a & Ha & He)%count_pos. go_inv. done. }
  change (count _ (bytes nl_str)) with 1%Z. simpl length. lia.
Qed.

Lemma count_lines_app s u : count_lines (s +:+ u) = (count_lines s + count_lines u)%Z.
Proof. unfold count_lines. by rewrite bytes_app, count_app. Qed.
Lemma count_one_line l : one_line l → count_lines l = 0%Z.
Proof.
  intros Hl. apply Z.le_antisymm; [|apply count_nonneg]. apply Z.nlt_ge. intros (a & Ha & He)%count_pos. go_inv. done.
Qed.

Lemma Index_split s p i : Index s p = Some i → ∃ u v, s = u +:+ p +:+ v ∧ i = String.length u.
Proof.
  revert i. induction s as [|a s IH]; intros i; cbn [Index]; destruct (HasPrefix _ p) eqn:E.
  1,3: intros [= <-]; apply HasPrefix_spec in E as [r ->]; by exists "", r.
  - done.
  - intros (k & Hk & ->)%fmap_Some. destruct (IH k Hk) as (u & v & -> & ->). by exists (String a u), v.
Qed.

(** The next byte of a text begins a line; the text ends with a whole line. *)
Definition line_start (s : string) : bool := (s == "") || HasSuffix s nl_str.
Definition ended (s : string) : string := if line_start s then s else s +:+ nl_str.

Lemma line_start_app ls l : one_line l → line_start (flat ls +:+ l) = true ↔ l = "".
Proof.
  intros Hl. unfold line_start. rewrite orb_true_iff, bool_decide_eq_true. split.
  - intros [E|[r E]%HasSuffix_spec].
    + destruct l; [done|]. apply (f_equal String.length) in E. rewrite length_str_app in E. simpl in E. lia.
    + destruct (decide (bytes l = [])) as [Hn|Hn]; [by destruct l|]. exfalso.
      destruct (exists_last Hn) as (x & a & Ha). apply (f_equal bytes) in E. rewrite !bytes_app, Ha, app_assoc in E.
      apply app_inj_tail in E as [_ ->]. apply Hl. rewrite Ha. set_solver.
  - intros ->. rewrite str_app_nil_r. destruct ls as [|x ls]; [by left|right].
    apply HasSuffix_spec. exists (Join (x :: ls) nl_str). by apply flat_Join.
Qed.

(** Every text is a list of lines and the beginning of another one. *)
Lemma lines_of s :
  ∃ ls l, s = flat ls +:+ l ∧ Forall one_line ls ∧ one_line l ∧ (l = "" ↔ line_start s = true).
Proof.
  cut (∃ ls l, s = flat ls +:+ l ∧ Forall one_line ls ∧ one_line l).
  { intros (ls & l & -> & H1 & H2). exists ls, l. do 3 (split; [done|]). symmetry. by apply line_start_app. }
  induction s as [|a s (ls & l & -> & Hls & Hl)]; [exists [], ""; split_and!; [done..|by unfold one_line; apply not_elem_of_nil]|].
  assert (∀ x, one_line x → a ≠ nl → one_line (String a x)) as Hc.
  { unfold one_line. intros x Hx Hn [?|?]%elem_of_cons; [congruence|done]. }
  destruct (decide (a = nl)) as [->|Hn].
  - exists ("" :: ls), l. split_and!; [done| |done]. constructor; [by unfold one_line; apply not_elem_of_nil|done].
  - destruct ls as [|x ls]; [exists [], (String a l); by auto|].
    apply Forall_cons in Hls as [Hx Hls]. exists (String a x :: ls), l. split_and!; [done| |done]. constructor; auto.
Qed.

Lemma flat_snoc ls l : flat ls +:+ l = Join (ls ++ [l]) nl_str.
Proof.
  induction ls as [|x ls IH]; [done|]. rewrite <- app_comm_cons, Join_cons by (by destruct ls).
  simpl flat. by rewrite <- IH, !str_app_assoc.
Qed.

Lemma splitLines_flat ls l :
  Forall one_line ls → one_line l → ls ≠ [] ∨ l ≠ "" →
  splitLines (flat ls +:+ l) = ls ++ (if l == "" then [] else [l]).
Proof.
  intros Hls Hl Hne. case_bool_decide as E.
  - subst l. rewrite str_app_nil_r, app_nil_r. destruct Hne as [Hne|]; [|done].
    rewrite flat_Join by done. by apply splitLines_text.
  - unfold splitLines. pose proof (line_start_app ls l Hl) as Hs.
    assert (line_start (flat ls +:+ l) = false) as Hf by (apply not_true_is_false; tauto).
    unfold line_start in Hf. apply orb_false_iff in Hf as [Hf Hsuf]. rewrite Hf. unfold TrimSuffix. rewrite Hsuf, Hf.
    rewrite flat_snoc. apply Split_Join; [by destruct ls|]. apply Forall_app. split; [done|by apply Forall_singleton].
Qed.

(** A line of printable ASCII that is not taken for a file header. *)
Definition ascii_line (l : string) : bool :=
  forallb (λ a, in_range 32 126 a || (a == tab)) (bytes l).
Definition plain_line (l : string) : bool :=
  ascii_line l && negb (HasPrefix l "-- ") && negb (HasPrefix l "++ ").

Lemma ascii_byte a : in_range 32 126 a || (a == tab) = true → in_range 0 127 a = true ∧ a ≠ nl ∧ a ≠ byte 13.
Proof. destruct a as [[] [] [] [] [] [] [] []]; vm_compute; intros H; first [discriminate H|split_and!; [done|discriminate..]]. Qed.

Lemma ascii_text_line l : ascii_line l = true → text_line l.
Proof.
  unfold ascii_line. rewrite forallb_forall. intros Hl. split.
  - intros Hin%list_elem_of_In%Hl%ascii_byte. tauto.
  - unfold drop_cr, TrimSuffix. destruct (HasSuffix l _) eqn:E; [|done]. exfalso.
    apply HasSuffix_spec in E as [r ->]. assert (byte 13 ∈ bytes (r +:+ String (byte 13) "")) as Hin
      by (rewrite bytes_app; apply elem_of_app; right; left).
    apply list_elem_of_In, Hl, ascii_byte in Hin. tauto.
Qed.

Lemma utf8_ascii l : forallb (in_range 0 127) l = true → utf8_bytes l = true.
Proof. induction l as [|a l IH]; [done|]. simpl. intros [Ha Hl]%andb_true_iff. rewrite Ha. by apply IH. Qed.
Lemma utf8_flat ls : Forall (λ l, ascii_line l = true) ls → utf8_Valid (flat ls) = true.
Proof.
  intros Hls. apply utf8_ascii. induction Hls as [|l ls Hl _ IH]; [done|]. simpl flat.
  rewrite !bytes_app, !forallb_app, IH, andb_true_r.
  unfold ascii_line in Hl. rewrite forallb_forall in *. intros a Ha%Hl%ascii_byte. tauto.
Qed.

Lemma pretty_N_go_length k x s :
  (x < 10 ^ N.of_nat k)%N → (String.length (pretty_N_go x s) ≤ k + String.length s)%nat.
Proof.
  revert x s. induction k as [|k IH]; intros x s Hx.
  - simpl in Hx. assert (x = 0)%N as -> by lia. by rewrite pretty_N_go_0.
  - destruct (decide (x = 0)%N) as [->|Hne]; [rewrite pretty_N_go_0; lia|].
    rewrite pretty_N_go_step by lia. etrans; [apply IH|simpl; lia].
    apply N.Div0.div_lt_upper_bound. by rewrite Nat2N.inj_succ, N.pow_succ_r' in Hx.
Qed.
Lemma Itoa_length z : (0 ≤ z < 10 ^ 18)%Z → (String.length (Itoa z) ≤ 18)%nat.
Proof.
  intros Hz. destruct z as [|p|p]; [simpl; lia| |lia].
  change (Itoa (Z.pos p)) with (pretty_N_go (N.pos p) "").
  etrans; [apply (pretty_N_go_length 18)|simpl; lia]. change (10 ^ N.of_nat 18)%N with 1000000000000000000%N. lia.
Qed.
Lemma Itoa_ascii z : (0 ≤ z)%Z → ascii_line (Itoa z) = true.
Proof.
  intros Hz. apply forallb_forall. intros a Ha%list_elem_of_In%Itoa_num; [|done].
  revert Ha. clear. destruct a as [[] [] [] [] [] [] [] []]; vm_compute; done.
Qed.

Lemma name_ascii p : git_name p → ascii_line p = true.
Proof.
  intros [Hb _ _]. unfold ascii_line. rewrite forallb_forall in *. intros a Ha. specialize (Hb a Ha). revert Hb. clear.
  destruct a as [[] [] [] [] [] [] [] []]; vm_compute; done.
Qed.

(** ** A candidate can be applied *)

(** A rewrite: the file, the lines it replaces and the lines it puts there. *)
Record known := MkKnown { k_file : string; k_old : list string; k_new : list string }.
Definition rewrites : list known :=
  [MkKnown d1File d1Old_lines d1New_lines; MkKnown d2File d2Old_lines d2New_lines;
   MkKnown d4File d4Old_lines d4New_lines; MkKnown d5File d5Old_lines d5New_lines;
   MkKnown d6File d6Old_lines d6New_lines; MkKnown d3File d3Old_lines d3New_lines].

Definition hunk_of (k : known) (start : Z) : uhunk :=
  MkU true start start "" ((String (byte 45) <$> k_old k) ++ (String (byte 43) <$> k_new k)).
Definition section_of (k : known) (start : Z) : fsection := MkSec (k_file k) [] [hunk_of k start].

(** What can be checked of a rewrite once and for all. *)
Definition known_ok (k : known) : bool :=
  bool_decide (k_old k ≠ []) && bool_decide (k_new k ≠ []) && forallb plain_line (k_old k ++ k_new k) &&
  forallb path_byte (bytes (k_file k)) && bool_decide (Forall plain (Split (k_file k) slash)) &&
  negb (Contains (k_file k) "..") && bool_decide (TrimPrefix (k_file k) "examples/shop/" = k_file k) &&
  (len (flat (section_lines (section_of k 0))) <? 10000)%Z.
Lemma rewrites_ok : forallb known_ok rewrites = true.
Proof. vm_compute. reflexivity. Qed.

(** The same as a record. *)
Record known_good (k : known) : Prop := {
  kg_old : k_old k ≠ [];
  kg_new : k_new k ≠ [];
  kg_lines l : l ∈ k_old k ∨ l ∈ k_new k → plain_line l = true;
  kg_file : git_name (k_file k);
  kg_path : TrimPrefix (k_file k) "examples/shop/" = k_file k;
  kg_size : (len (flat (section_lines (section_of k 0))) < 10000)%Z;
}.
Lemma known_good_iff k : known_ok k = true → known_good k.
Proof.
  unfold known_ok. rewrite !andb_true_iff, !negb_true_iff, !bool_decide_eq_true, Z.ltb_lt.
  rewrite forallb_True. intros (((((((H1 & H2) & H3) & H4) & H5) & H6) & H7) & H8).
  split; try done. intros l Hl. apply H3, elem_of_app, Hl.
Qed.

Lemma side_known_cons drop a l ls :
  side drop (String a l :: ls) =
  (if (a != drop) && bool_decide (a ∈ [byte 32; tab; byte 43; byte 45]) then [l] else []) ++ side drop ls.
Proof. unfold side. cbn [omap list_omap]. by destruct (_ && _). Qed.
Lemma side_keep drop a ls :
  a ≠ drop → a ∈ [byte 32; tab; byte 43; byte 45] → side drop (String a <$> ls) = ls.
Proof.
  intros Hne Ha. induction ls as [|l ls IH]; [done|]. rewrite fmap_cons, side_known_cons.
  rewrite bool_decide_eq_false_2, bool_decide_eq_true_2 by done. simpl. by rewrite IH.
Qed.
Lemma side_drop a ls : side a (String a <$> ls) = [].
Proof.
  induction ls as [|l ls IH]; [done|]. rewrite fmap_cons, side_known_cons.
  by rewrite bool_decide_eq_true_2.
Qed.
Lemma hunk_sides k start : old_side (u_body (hunk_of k start)) = k_old k ∧ new_side (u_body (hunk_of k start)) = k_new k.
Proof.
  unfold hunk_of, old_side, new_side. cbn [u_body].
  assert (∀ drop ls ks, side drop (ls ++ ks) = side drop ls ++ side drop ks) as Happ
    by (intros; apply omap_app).
  rewrite !Happ, !side_drop, !side_keep, app_nil_r; try done; by apply (bool_decide_unpack _).
Qed.

Lemma known_header k start :
  u_header (hunk_of k start) =
    "@@ -" +:+ Itoa start +:+ "," +:+ Itoa (Z.of_nat (length (k_old k))) +:+ " +" +:+ Itoa start +:+ "," +:+
    Itoa (Z.of_nat (length (k_new k))) +:+ " @@".
Proof.
  unfold u_header. destruct (hunk_sides k start) as [-> ->]. unfold range. cbn [u_full u_old u_new u_context hunk_of negb].
  rewrite !andb_false_r, !str_app_assoc. done.
Qed.

Section known.
  Context (k : known) (Hk : known_good k) (start : Z) (Hs : (0 ≤ start < 10 ^ 18)%Z).

Lemma plain_one_line l : plain_line l = true → ascii_line l = true ∧ one_line l.
Proof. unfold plain_line. rewrite !andb_true_iff. intros [[Hl _] _]. split; [done|]. by apply ascii_text_line. Qed.
Lemma known_lines : Forall one_line (k_old k) ∧ Forall one_line (k_new k).
Proof using Hk. split; apply Forall_forall; intros l Hl; apply plain_one_line, Hk; auto. Qed.

Lemma unified_text : unified (k_file k) start (flat (k_old k)) (flat (k_new k)) = diff_text [section_of k start].
Proof using Hk.
  destruct known_lines as [Ho Hn]. unfold unified. rewrite !flat_lines by (done || apply Hk).
  unfold diff_text. rewrite <- flat_Join by done. unfold diff_lines, section_lines, hunks_text, s_git, s_minus, s_plus.
  cbn [mbind list_bind s_name s_index s_hunks section_of app]. rewrite known_header. simpl.
  rewrite !app_nil_r, flat_app. rewrite ?str_app_assoc. done.
Qed.

Lemma body_lines : Forall body_line (u_body (hunk_of k start)).
Proof using Hk.
  unfold hunk_of. cbn [u_body]. apply Forall_app. split; apply Forall_fmap, Forall_forall; intros l Hl; simpl;
    (assert (plain_line l = true) as Hp by (apply Hk; auto)); unfold plain_line in Hp;
    rewrite !andb_true_iff, !negb_true_iff in Hp; destruct Hp as [[_ Hm] Hq];
    (split; [intros a r [= <- <-]; by apply (bool_decide_unpack _)|done]).
Qed.

Lemma section_of_ok : (Z.of_nat (length (u_body (hunk_of k start))) < 2 ^ 62)%Z → section_ok (section_of k start).
Proof using Hk Hs.
  intros Hl. split; [apply Hk|constructor|]. constructor; [|constructor].
  split; cbn [u_old u_new hunk_of] in *; [lia..|apply body_lines|lia].
Qed.

(** The line number changes the size by at most six digits on each side. *)
Lemma section_size : (len (diff_text [section_of k start]) < 10100)%Z.
Proof using Hk Hs.
  pose proof (kg_size k Hk) as Hsz. revert Hsz. unfold diff_text. rewrite <- flat_Join by done.
  pose proof (Itoa_length start Hs) as Hi. unfold diff_lines, section_lines, hunks_text, len.
  cbn [mbind list_bind s_index s_hunks section_of app]. rewrite !known_header. simpl. rewrite !app_nil_r.
  rewrite !length_str_app. simpl. lia.
Qed.

Lemma section_text : text_ok [section_of k start].
Proof using Hk Hs.
  assert (Forall (λ l, ascii_line l = true) (diff_lines [section_of k start])) as Ha.
  { unfold diff_lines, section_lines, hunks_text. cbn [mbind list_bind s_index s_hunks section_of app].
    rewrite known_header. simpl. rewrite !app_nil_r. unfold ascii_line, s_git, s_minus, s_plus.
    pose proof (name_ascii (k_file k) (kg_file k Hk)) as Hf. unfold ascii_line in Hf. pose proof (Itoa_ascii start ltac:(lia)) as Hi.
    unfold ascii_line in Hi. constructor; [simpl; by rewrite !bytes_app, !forallb_app, Hf|].
    do 2 (constructor; [simpl; by rewrite ?bytes_app, ?forallb_app, Hf|]).
    constructor.
    - rewrite !bytes_app, !forallb_app, Hi. pose proof (Itoa_ascii (Z.of_nat (length (k_old k))) ltac:(lia)) as H1.
      pose proof (Itoa_ascii (Z.of_nat (length (k_new k))) ltac:(lia)) as H2. unfold ascii_line in H1, H2.
      by rewrite H1, H2.
    - apply Forall_app. split; apply Forall_fmap, Forall_forall; intros l Hl; simpl;
        by apply plain_one_line, Hk; auto. }
  split.
  - eapply Forall_impl; [exact Ha|]. apply ascii_text_line.
  - pose proof section_size. unfold MaxBytes. lia.
  - unfold diff_text. rewrite <- flat_Join by done. by apply utf8_flat.
Qed.

Lemma body_length : (Z.of_nat (length (u_body (hunk_of k start))) < 10000)%Z.
Proof using Hk.
  pose proof (kg_size k Hk) as Hsz. revert Hsz. unfold section_lines, hunks_text. simpl. rewrite app_nil_r.
  set (body := (_ ++ _) : list string). unfold len. intros Hsz.
  pose proof (flat_length body) as Hf. rewrite !length_str_app in Hsz. simpl in Hsz. lia.
Qed.

(** The printed rewrite is read back. *)
Lemma candidate_read :
  collectApply (unified (k_file k) start (flat (k_old k)) (flat (k_new k))) =
  Ok [MkApply (k_file k) "modify" false [ahunk (hunk_of k start)]].
Proof using Hk Hs.
  rewrite unified_text. destruct (git_diff_read [section_of k start]) as [_ ->].
  - done.
  - constructor; [|constructor]. apply section_of_ok. pose proof body_length. lia.
  - apply section_text.
  - unfold maxFiles. simpl. lia.
  - done.
  - simpl. unfold apply_of, s_path. cbn [s_name section_of s_hunks]. by rewrite (kg_path k Hk).
Qed.
End known.

(** The hunk of a rewrite on lines in which the old ones stand after [pre]. *)
Lemma candidate_lines k pre post :
  known_good k →
  applyToLines (pre ++ k_old k ++ post) [ahunk (hunk_of k (1 + Z.of_nat (length pre)))] =
  Ok (flat (pre ++ k_new k ++ post)).
Proof.
  intros Hk. set (start := (1 + _)%Z).
  assert (∀ ls, ls ≠ [] → pre ++ ls ++ post ≠ []) as Hne by (intros [] ? ?; [done|by destruct pre]).
  unfold applyToLines. rewrite (proj2 (apply_hunks_iff _ _ _ _ (pre ++ k_new k ++ post))).
  - simpl. unfold render. rewrite (bool_decide_eq_false_2 (_ = [])) by auto using kg_old. simpl.
    by rewrite flat_Join by auto using kg_new.
  - exists (pre ++ k_new k ++ post). split; [done|].
    destruct (kept_sides _ (body_lines k Hk start)) as [H1 H2]. destruct (hunk_sides k start) as [H3 H4].
    rewrite H3 in H1. rewrite H4 in H2. rewrite <- H1 at 1. rewrite <- H2.
    apply (patched_cons 1 pre post (ahunk (hunk_of k start)) [] post); [|constructor].
    unfold hunk_start, ahunk. cbn [h_oldStart u_old hunk_of]. rewrite (proj2 (Z.eqb_neq _ _)); unfold start; lia.
Qed.

(** The same hunk where another line stands. *)
Lemma candidate_mismatch k pre x post o os :
  k_old k = o :: os → x ≠ o →
  applyToLines (pre ++ x :: post) [ahunk (hunk_of k (1 + Z.of_nat (length pre)))] = Err "context mismatch".
Proof.
  intros Ho Hx. set (h := ahunk _). assert (hunk_start h = 1 + Z.of_nat (length pre))%Z as Hs.
  { unfold hunk_start, h. cbn [h_oldStart ahunk u_old hunk_of]. by rewrite (proj2 (Z.eqb_neq _ _)) by lia. }
  assert (h_lines h = String (byte 45) o :: kept_lines ((String (byte 45) <$> os) ++ (String (byte 43) <$> k_new k))) as Hl.
  { unfold h, ahunk, hunk_of. cbn [u_body h_lines]. by rewrite Ho. }
  unfold applyToLines. cbn [apply_hunks]. rewrite Hs, (proj2 (Z.ltb_ge _ _)) by lia.
  rewrite (proj2 (copy_to_iff _ 1 (pre ++ x :: post) [] (1 + Z.of_nat (length pre)) (x :: post) pre));
    [|exists pre; split_and!; done || lia].
  cbn [rbind fst snd]. rewrite Hl. cbn [hunk_lines]. rewrite (bool_decide_eq_false_2 (String _ _ = "")) by done.
  rewrite !(bool_decide_eq_false_2 (byte 45 = _)) by done. rewrite (bool_decide_eq_true_2 (byte 45 = _)) by done.
  cbn [orb]. by rewrite bool_decide_eq_false_2.
Qed.

(** C38: what becomes of a rewrite that is offered for a file: it is read back as one
    modification of that file. When the replaced text, where it first stands, begins
    a line, applying the modification replaces exactly this text by the new one and
    ends the last line of the file if it was not; when it begins inside of a line,
    the modification is refused. *)
Theorem candidate_applies k wd t dir files root d raw :
  k ∈ rewrites → os.Abs wd dir = Some root →
  os.ReadFile t (os.path_Join root (k_file k)) = Some raw → (len raw < 10 ^ 18 - 1)%Z →
  candidate wd t dir files (k_file k) (flat (k_old k)) (flat (k_new k)) = Ok d →
  ∃ pre post hunks,
    raw = pre +:+ flat (k_old k) +:+ post ∧ Index raw (flat (k_old k)) = Some (String.length pre) ∧
    collectApply d = Ok [MkApply (k_file k) "modify" false hunks] ∧
    applyToLines (splitLines raw) hunks =
      if line_start pre then Ok (pre +:+ flat (k_new k) +:+ ended post) else Err "context mismatch".
Proof.
  intros Hin Habs Hread Hlen Hc.
  assert (known_good k) as Hk.
  { apply known_good_iff. pose proof rewrites_ok as Hr. rewrite forallb_True in Hr. by apply Hr. }
  destruct (known_lines k Hk) as [Hol Hnl].
  unfold candidate in Hc. destruct (touches _ _); [|done]. rewrite Habs, Hread in Hc. simpl negb in Hc.
  destruct (Contains raw (flat (k_old k))); [|done]. destruct (Contains raw _); [done|].
  destruct (Index raw (flat (k_old k))) as [i|] eqn:Hi; [|done]. injection Hc as <-.
  pose proof (Index_split _ _ _ Hi) as (pre & post & Hraw & ->). exists pre, post.
  destruct (lines_of pre) as (pls & pl & Hpre & Hpls & Hpl & Hps).
  destruct (lines_of post) as (qls & ql & Hpost & Hqls & Hql & Hqs).
  assert (count_lines (str_take (String.length pre) raw) = Z.of_nat (length pls)) as ->.
  { by rewrite Hraw, str_take_app, Hpre, count_lines_app, count_flat, count_one_line, Z.add_0_r. }
  set (start := (1 + Z.of_nat (length pls))%Z). assert (0 ≤ start < 10 ^ 18)%Z as Hs.
  { unfold start, len in *. rewrite Hraw, Hpre, !length_str_app in Hlen. pose proof (flat_length pls). lia. }
  exists [ahunk (hunk_of k start)]. split; [done|]. split; [done|]. split; [by apply candidate_read|].
  destruct (line_start pre) eqn:El.
  - rewrite (proj2 Hps eq_refl), str_app_nil_r in Hpre.
    assert (raw = flat (pls ++ k_old k ++ qls) +:+ ql) as -> by (rewrite Hraw, Hpre, Hpost, !flat_app, !str_app_assoc; done).
    rewrite splitLines_flat; [|apply Forall_app; split; [done|by apply Forall_app]|done|].
    2: { left. pose proof (kg_old k Hk). destruct pls; [by destruct (k_old k)|done]. }
    rewrite <- !app_assoc. unfold start. rewrite candidate_lines by done. f_equal.
    rewrite Hpre, !flat_app. do 2 f_equal. unfold ended. destruct (line_start post) eqn:Ep.
    + rewrite Hpost, (proj2 Hqs eq_refl). done.
    + rewrite bool_decide_eq_false_2 by (intros E; apply Hqs in E; congruence). rewrite Hpost. simpl flat.
      by rewrite !str_app_assoc.
  - destruct (k_old k) as [|o os] eqn:Ho; [by destruct (kg_old k Hk)|]. apply Forall_cons in Hol as [Ho1 Hos].
    assert (raw = flat (pls ++ (pl +:+ o) :: os ++ qls) +:+ ql) as ->.
    { rewrite Hraw, Hpre, Hpost, flat_app. simpl flat. by rewrite flat_app, !str_app_assoc. }
    rewrite splitLines_flat; [|apply Forall_app; split; [done|]|done|left; by destruct pls].
    2: { constructor; [|by apply Forall_app]. unfold one_line. by rewrite bytes_app, not_elem_of_app. }
    rewrite <- app_assoc, <- app_comm_cons. unfold start. apply (candidate_mismatch k _ _ _ o os); [done|].
    intros E. assert (pl ≠ "") as Hne by (intros E'; apply Hps in E'; congruence).
    apply (f_equal String.length) in E. rewrite length_str_app in E. destruct pl; [done|simpl in E; lia].
Qed.

End rewrite.

(** ** Examples *)

Import rewrite.

Definition toy_checkout : list string := ["package checkout"; ""; "func retry() {"].
Definition toy_rest : list string := [tabs 2 "pay()"; tabs 1 "}"; "}"].
Definition toy_shop (ls : list string) : os.tree :=
  {[ ["internal"] := os.NDir; ["internal"; "checkout"] := os.NDir;
     ["internal"; "checkout"; "handler.go"] := os.NFile (flat ls) ]}.

Definition toy_diff : string :=
  match D4 None (toy_shop (toy_checkout ++ d4Old_lines ++ toy_rest)) "/" [] with Ok d => d | Err _ => "" end.

Lemma candidate_applies_witness :
  ∃ d hunks, Candidates None (toy_shop (toy_checkout ++ d4Old_lines ++ toy_rest)) "/" [] = Ok d ∧
    collectApply d = Ok [MkApply "internal/checkout/handler.go" "modify" false hunks] ∧
    applyToLines (splitLines (flat (toy_checkout ++ d4Old_lines ++ toy_rest))) hunks =
      Ok (flat (toy_checkout ++ [tabs 1 "for range 1 {"] ++ toy_rest)).
Proof.
  exists toy_diff. destruct (candidate_applies (MkKnown d4File d4Old_lines d4New_lines) None
    (toy_shop (toy_checkout ++ d4Old_lines ++ toy_rest)) "/" [] "/" toy_diff
    (flat (toy_checkout ++ d4Old_lines ++ toy_rest))) as (pre & post & hunks & Hraw & Hi & Hc & Ha).
  - right; right; left.
  - reflexivity.
  - vm_compute. reflexivity.
  - vm_compute. reflexivity.
  - vm_compute. reflexivity.
  - exists hunks. split; [vm_compute; reflexivity|]. split; [exact Hc|]. rewrite Ha.
    assert (pre = flat toy_checkout ∧ post = flat toy_rest) as [-> ->].
    { assert (Index (flat (toy_checkout ++ d4Old_lines ++ toy_rest)) (flat d4Old_lines) =
        Some (String.length (flat toy_checkout))) as E by (vm_compute; reflexivity).
      change (k_old _) with d4Old_lines in *. rewrite E in Hi. injection Hi as Hi.
      assert (∀ u v w, str_take (String.length u) (u +:+ v +:+ w) = u ∧
        str_drop (String.length u + String.length v) (u +:+ v +:+ w) = w) as Hcut.
      { intros u v w. split; [apply str_take_app|]. rewrite <- length_str_app, <- str_app_assoc. apply str_drop_app. }
      destruct (Hcut pre (flat d4Old_lines) post) as [Hp Hq]. rewrite <- Hraw, <- Hi in Hp, Hq.
      rewrite <- Hp, <- Hq. vm_compute. by split. }
    vm_compute. reflexivity.
Defined.

(** The replaced text is looked for anywhere, not at the start of a line: where the
    loop is indented once more, a rewrite is offered that does not apply. *)
Lemma candidate_inside_line :
  ∃ d, Candidates None (toy_shop (toy_checkout ++ [tabs 2 "for range 5 {"] ++ toy_rest)) "/" [] = Ok d ∧
    ∃ f, collectApply d = Ok [f] ∧
      applyToLines (splitLines (flat (toy_checkout ++ [tabs 2 "for range 5 {"] ++ toy_rest))) (a_hunks f) =
        Err "context mismatch".
Proof.
  eexists. split; [vm_compute; reflexivity|]. eexists. split; [vm_compute; reflexivity|]. vm_compute. reflexivity.
Qed.
