(* ===== verification/Net.v ===== *)
(** * Targets of experiment traffic: [internal/netguard/netguard.go]

    [net/url.Parse], the [String] method of [url.URL] and [netip.ParseAddr] are operations
    of the class [GoNet]: the development holds for every behaviour they may
    have. The accessors [Hostname] and [Port], [net.JoinHostPort] and the
    address classes of [net/netip] are written out. *)

From S2P Require Import Prelude GoStrings.

(** ** [net/url] *)

Record URL := MkURL {
  URL_Scheme : string;
  URL_Opaque : string;
  URL_User : option string;
  URL_Host : string;
  URL_Path : string;
  URL_RawQuery : string;
  URL_Fragment : string;
}.

(** An IP address: 32 bits, or 128 bits with a zone. *)
Inductive Addr :=
| V4 (a : N)
| V6 (a : N) (zone : string).

Class GoNet := {
  url_Parse : string → result string URL;
  url_String : URL → string;
  ParseAddr : string → option Addr;
}.

Definition is_digit (a : ascii) : bool :=
  ((48 <=? byte_val a) && (byte_val a <=? 57))%N.

Definition validOptionalPort (port : string) : bool :=
  match port with
  | "" => true
  | String c rest => (c == byte 58) && forallb is_digit (bytes rest)
  end.

Definition splitHostPort (hostPort : string) : string * string :=
  let '(host, port) :=
    match LastIndexByte hostPort (byte 58) with
    | Some colon =>
        if validOptionalPort (str_drop colon hostPort)
        then (str_take colon hostPort, str_drop (S colon) hostPort)
        else (hostPort, "")
    | None => (hostPort, "")
    end in
  if HasPrefix host "[" && HasSuffix host "]"
  then (str_take (String.length host - 2) (str_drop 1 host), port)
  else (host, port).

Definition Hostname (u : URL) : string := (splitHostPort (URL_Host u)).1.
Definition Port (u : URL) : string := (splitHostPort (URL_Host u)).2.

Definition JoinHostPort (host port : string) : string :=
  if Contains host ":" then "[" +:+ host +:+ "]:" +:+ port else host +:+ ":" +:+ port.

(** ** [net/netip] address classes *)

Definition v6u16 (a : N) : N := N.shiftr a 112.

Definition Unmap (a : Addr) : Addr :=
  match a with
  | V6 x _ => if (N.shiftr x 32 =? 0xffff)%N then V4 (N.land x 0xffffffff) else a
  | V4 _ => a
  end.

Definition IsLinkLocalUnicast (a : Addr) : bool :=
  match a with
  | V4 x => (N.shiftr x 16 =? 0xa9fe)%N
  | V6 x _ => (N.land (v6u16 x) 0xffc0 =? 0xfe80)%N
  end.
Definition IsLinkLocalMulticast (a : Addr) : bool :=
  match a with
  | V4 x => (N.shiftr x 8 =? 0xe00000)%N
  | V6 x _ => (N.land (v6u16 x) 0xff0f =? 0xff02)%N
  end.
Definition IsInterfaceLocalMulticast (a : Addr) : bool :=
  match a with
  | V4 _ => false
  | V6 x _ => (N.land (v6u16 x) 0xff0f =? 0xff01)%N
  end.
Definition IsMulticast (a : Addr) : bool :=
  match a with
  | V4 x => (N.shiftr x 28 =? 0xe)%N
  | V6 x _ => (N.shiftr x 120 =? 0xff)%N
  end.
Definition IsUnspecified (a : Addr) : bool :=
  match a with
  | V4 x => (x =? 0)%N
  | V6 x zone => (x =? 0)%N && (zone == "")
  end.

(** ** [netguard] *)

Inductive NetErr :=
| ErrBlocked
| NetErrorf (msg : string).

Definition net_err_text (e : NetErr) : string :=
  match e with
  | ErrBlocked => "netguard: address is not an experiment target"
  | NetErrorf msg => msg
  end.

Definition blockedHosts : list string :=
  ["metadata"; "metadata.google.internal"; "metadata.goog"].

Definition Blocked (addr : Addr) : bool :=
  let addr := Unmap addr in
  IsLinkLocalUnicast addr || IsLinkLocalMulticast addr ||
  IsMulticast addr || IsUnspecified addr || IsInterfaceLocalMulticast addr.

Definition CheckURL `{GoNet} (raw : string) : result NetErr () :=
  match url_Parse (TrimSpace raw) with
  | Err e => Err (NetErrorf ("netguard: " +:+ e))
  | Ok u =>
      check? guard_err ((URL_Scheme u != "http") && (URL_Scheme u != "https"))
               (NetErrorf "netguard: target must be http or https") in
      check? guard_err (bool_decide (is_Some (URL_User u)))
               (NetErrorf "netguard: target must not include userinfo") in
      let host := ToLower (TrimSuffix (Hostname u) ".") in
      check? guard_err (host == "") (NetErrorf "netguard: target missing host") in
      check? guard_err (bool_decide (host ∈ blockedHosts)) ErrBlocked in
      match ParseAddr host with
      | Some addr => guard_err (Blocked addr) ErrBlocked
      | None => Ok tt
      end
  end.

(** The dialer's [Control] hook: the address the name resolved to is checked
    again, after [netip.ParseAddrPort]. *)
Definition dialControl (resolved : result string Addr) : result NetErr () :=
  match resolved with
  | Err e => Err (NetErrorf ("netguard: " +:+ e))
  | Ok a => guard_err (Blocked a) ErrBlocked
  end.

(** ** Properties *)

Definition ipv4 (a b c d : N) : N := (((a * 256 + b) * 256 + c) * 256 + d)%N.

Lemma ipv4_shiftr16 a b c d :
  (c < 256)%N → (d < 256)%N → N.shiftr (ipv4 a b c d) 16 = (a * 256 + b)%N.
Proof.
  intros. unfold ipv4. rewrite N.shiftr_div_pow2. change (2 ^ 16)%N with 65536%N.
  symmetry. apply (N.div_unique _ _ _ (c * 256 + d)); lia.
Qed.

(** The IPv4 addresses that are refused are exactly 0.0.0.0, 169.254.0.0/16 and
    224.0.0.0/4. *)
Lemma Blocked_v4 x :
  Blocked (V4 x) = true ↔
    (x = 0 ∨ N.shiftr x 16 = 0xa9fe ∨ N.shiftr x 28 = 0xe)%N.
Proof.
  unfold Blocked.
  cbn [Unmap IsLinkLocalUnicast IsLinkLocalMulticast IsMulticast IsUnspecified
       IsInterfaceLocalMulticast]. rewrite !orb_true_iff, !N.eqb_eq. split; [|tauto].
  intros [[[[H|H]|H]|H]|H]; auto; [|done].
  right; right. rewrite N.shiftr_div_pow2 in *. change (2 ^ 8)%N with 256%N in H.
  change (2 ^ 28)%N with 268435456%N.
  pose proof (N.div_mod' x 256) as Hd. rewrite H in Hd.
  pose proof (N.mod_lt x 256 ltac:(done)) as Hm.
  symmetry. apply N.div_unique with (r := (x `mod` 256)%N); lia.
Qed.

(** A v4-mapped v6 address is judged as the v4 address it carries. *)
Lemma Blocked_mapped x zone :
  (x < 2 ^ 32)%N → Blocked (V6 (N.shiftl 0xffff 32 + x)%N zone) = Blocked (V4 x).
Proof.
  intros Hx. unfold Blocked.
  assert (Unmap (V6 (N.shiftl 65535 32 + x) zone) = V4 x) as ->; [|done].
  unfold Unmap. rewrite N.shiftl_mul_pow2, N.shiftr_div_pow2.
  rewrite N.div_add_l by done. rewrite N.div_small by done. simpl.
  f_equal. change 4294967295%N with (N.ones 32). rewrite N.land_ones.
  rewrite N.add_comm, N.Div0.mod_add. by apply N.mod_small.
Qed.

(** The IPv4 addresses that never receive traffic are exactly 0.0.0.0, the
    link-local block 169.254.0.0/16 where cloud metadata lives and the multicast
    block 224.0.0.0/4, also when written as IPv4-mapped IPv6 addresses; every
    other IPv4 address, loopback and private ranges included, stays allowed. *)
Theorem Blocked_ipv4 x zone :
  (x < 2 ^ 32)%N →
  (Blocked (V4 x) = true ↔ (x = 0 ∨ N.shiftr x 16 = 0xa9fe ∨ N.shiftr x 28 = 0xe)%N) ∧
  Blocked (V6 (N.shiftl 0xffff 32 + x)%N zone) = Blocked (V4 x).
Proof. intros Hx. split; [apply Blocked_v4|by apply Blocked_mapped]. Qed.
