(* ===== verification/Ingest.v ===== *)
(** * Normalized spans and trace windows: [internal/ingest]

    [Module ingest] models [span.go], [window.go], [attach.go], the in-process
    store of [memory.go] and the canonical forms of [sanitize.go] (its text functions
    are in [Otlp.v]). Times are nanoseconds since Go's zero
    time, so the zero [time.Time] is 0. *)

From S2P Require Import Prelude GoStrings.

Module ingest.

(** ** span.go *)

Definition defaultList : Z := 50.
Definition maxList : Z := 200.
Definition defaultTraceWindow : Z := 50.
Definition maxTraceWindow : Z := 200.
Definition maxWindowSpans : nat := Z.to_nat 10000.
Definition maxServiceName : nat := 128.

Record Span := MkSpan {
  Span_TraceID : string;
  Span_SpanID : string;
  Span_ParentSpanID : string;
  Span_ServiceName : string;
  Span_Name : string;
  Span_Kind : string;
  Span_StatusCode : string;
  Span_HTTPMethod : string;
  Span_HTTPRoute : string;
  Span_HTTPStatus : Z;
  Span_CodeFunction : string;
  Span_CodeFile : string;
  Span_StartTime : Z;
  Span_DurationNS : Z;
}.

Record ListQuery := MkListQuery {
  LQ_TraceID : string;
  LQ_Service : string;
  LQ_Limit : Z;
}.

Definition normalizeLimit (n : Z) : Z :=
  if (n <=? 0)%Z then defaultList else if (maxList <? n)%Z then maxList else n.

Definition normalizeTraceWindow (n : Z) : Z :=
  if (n <=? 0)%Z then defaultTraceWindow
  else if (maxTraceWindow <? n)%Z then maxTraceWindow else n.

(** ** window.go *)

Record traceInfo := MkTraceInfo {
  ti_id : string;
  ti_last : Z;
  ti_spans : list Span;
}.

Definition probeRoute (s : Span) : bool :=
  let route := ToLower (TrimSpace (Span_HTTPRoute s)) in
  let name := ToLower (TrimSpace (Span_Name s)) in
  bool_decide (route ∈ ["/healthz"; "/livez"; "/readyz"; "/health"]) ||
  bool_decide (name ∈ ["get /healthz"; "head /healthz"; "/healthz"; "get /readyz"; "get /livez"]).

Definition probeOnly (spans : list Span) : bool := forallb probeRoute spans.

(** The trace ids in order of first appearance. *)
Fixpoint first_ids (seen : list string) (spans : list Span) : list string :=
  match spans with
  | [] => []
  | s :: spans' =>
      let id := Span_TraceID s in
      if (id == "") || bool_decide (id ∈ seen) then first_ids seen spans'
      else id :: first_ids (id :: seen) spans'
  end.

Definition trace_spans (id : string) (spans : list Span) : list Span :=
  filter (λ s, Span_TraceID s = id) spans.

Definition latest (spans : list Span) : Z :=
  match spans with
  | [] => 0%Z
  | s :: _ => foldl (λ t s, if (t <? Span_StartTime s)%Z then Span_StartTime s else t)
                (Span_StartTime s) spans
  end.

Definition cmp_info : traceInfo → traceInfo → comparison :=
  cmp_then (cmp_on ti_last (cmp_desc Z.compare)) (cmp_on ti_id (cmp_desc String.compare)).

Definition groupTraces (spans : list Span) : list traceInfo :=
  sort_cmp cmp_info
    ((λ id, let ss := trace_spans id spans in MkTraceInfo id (latest ss) ss)
       <$> first_ids [] spans).

Definition sortTraceSpans (spans : list Span) : list Span :=
  sort_cmp (cmp_then (cmp_on Span_StartTime Z.compare) (cmp_on Span_SpanID String.compare)) spans.

Definition traceTouches (spans : list Span) (service : string) : bool :=
  (service == "") || existsb (λ s, Span_ServiceName s == service) spans.

Definition ClipService (s : string) : string := str_take maxServiceName (TrimSpace s).

(** The body of the loop over the traces: [kept] traces and [out] spans so far. *)
Fixpoint window_loop (n : Z) (service : string) (infos : list traceInfo)
    (kept : Z) (out : list Span) : list Span :=
  match infos with
  | [] => out
  | info :: rest =>
      if probeOnly (ti_spans info) || negb (traceTouches (ti_spans info) service)
      then window_loop n service rest kept out
      else
        let out := out ++ sortTraceSpans (ti_spans info) in
        let kept := (kept + 1)%Z in
        if (n <=? kept)%Z || (maxWindowSpans <=? length out)%nat then out
        else window_loop n service rest kept out
  end.

Definition SelectWindow (spans : list Span) (maxTraces : Z) (service : string) : list Span :=
  take maxWindowSpans
    (window_loop (normalizeTraceWindow maxTraces) (ClipService service)
       (groupTraces spans) 0 []).

(** ** memory.go *)

Record Memory := MkMemory {
  mem_spans : gmap string Span;
  mem_order : list string;
}.

Definition NewMemory : Memory := MkMemory ∅ [].

Definition spanKey (s : Span) : string := Span_TraceID s +:+ "/" +:+ Span_SpanID s.

Definition upsert1 (m : Memory) (s : Span) : Memory :=
  let k := spanKey s in
  MkMemory (<[k := s]> (mem_spans m))
    (match mem_spans m !! k with
     | Some _ => mem_order m
     | None => mem_order m ++ [k]
     end).

Definition UpsertSpans (m : Memory) (spans : list Span) : Memory := foldl upsert1 m spans.

(** Reading a missing key of a Go map gives the zero value. *)
Definition zeroSpan : Span := MkSpan "" "" "" "" "" "" "" "" "" 0 "" "" 0 0.

Definition stored (m : Memory) (k : string) : Span := default zeroSpan (mem_spans m !! k).

Definition all_spans (m : Memory) : list Span := stored m <$> mem_order m.

Definition ListSpans (m : Memory) (q : ListQuery) : list Span :=
  take (Z.to_nat (normalizeLimit (LQ_Limit q)))
    (filter (λ s, (LQ_TraceID q = "" ∨ Span_TraceID s = LQ_TraceID q) ∧
                  (LQ_Service q = "" ∨ Span_ServiceName s = LQ_Service q))
       (stored m <$> reverse (mem_order m))).

Definition ListTraceWindow (m : Memory) (maxTraces : Z) (service : string) : list Span :=
  SelectWindow (all_spans m) maxTraces service.

(** ** attach.go *)

Definition DefaultAttachList : Z := 20.
Definition maxAttaches : Z := 50.

Record Attach := MkAttach {
  Attach_Service : string;
  Attach_Spans : Z;
  Attach_LastSeen : Z;
}.

Definition clipAttaches (n : Z) : Z :=
  if (n <=? 0)%Z then DefaultAttachList else if (maxAttaches <? n)%Z then maxAttaches else n.

(** The accumulator per service: how many spans, and the newest start time. *)
Definition attach_add (by_ : gmap string (Z * Z)) (s : Span) : gmap string (Z * Z) :=
  let name := ClipService (Span_ServiceName s) in
  if name == "" then by_
  else
    let '(n, last) := default (0%Z, 0%Z) (by_ !! name) in
    <[name := ((n + 1)%Z,
               if (last <? Span_StartTime s)%Z then Span_StartTime s else last)]> by_.

Definition cmp_attach : Attach → Attach → comparison :=
  cmp_then (cmp_on Attach_LastSeen (cmp_desc Z.compare)) (cmp_on Attach_Service String.compare).

Definition attachesFrom (spans : list Span) (limit : Z) : list Attach :=
  take (Z.to_nat (clipAttaches limit))
    (sort_cmp cmp_attach
       ((λ '(name, (n, last)), MkAttach name n last)
          <$> map_to_list (foldl attach_add ∅ spans))).

Definition ListAttaches (m : Memory) (limit : Z) : list Attach :=
  attachesFrom (all_spans m) limit.

(** ** sanitize.go *)

Definition stripQueryAndFragment (s : string) : string :=
  before_byte (before_byte s (byte 35)) (byte 63).

Definition httpMethods : list string :=
  ["GET"; "POST"; "PUT"; "PATCH"; "DELETE"; "HEAD"; "OPTIONS"].

Definition canonicalMethod (s : string) : string :=
  let s := ToUpper (TrimSpace s) in
  let s := match IndexAny s (of_bytes [byte 32; byte 9; byte 13; byte 10]) with
           | Some i => str_take i s
           | None => s
           end in
  if bool_decide (s ∈ httpMethods) then s else "".

Definition canonicalStatus (n : Z) : Z := if (n <? 100)%Z || (599 <? n)%Z then 0%Z else n.
End ingest.
