(* ===== verification/Otlp.v ===== *)
(** * OTLP spans: [internal/ingest/otlp.go], [internal/ingest/sanitize.go]

    [Module otlp] models how an export request becomes spans: which spans are dropped,
    how identifiers, times and attributes are read, and how text is sanitized.
    Text is handled as the code points of a UTF-8 string. Protobuf decoding and
    [URL.EscapedPath] are operations of the class [GoOTLP]; a double attribute is
    represented by the decimal text that [strconv.FormatFloat] gives for it. *)

From Stdlib Require Import ZifyBool.
From S2P Require Import Prelude GoStrings GoText Net Ingest.
Import ingest.

Module otlp.

(** ** Code points *)

(** [strings.ToValidUTF8(s, "")] and the code points that are left: a byte that does not
    start a well-formed sequence is dropped. *)
Definition cont_val (a : ascii) : N := (byte_val a - 128)%N.

Fixpoint runes_of (l : list ascii) : list N :=
  match l with
  | [] => []
  | a :: l1 =>
      if in_range 0 127 a then byte_val a :: runes_of l1
      else match l1 with
      | [] => []
      | b :: l2 =>
          if in_range 194 223 a then
            if cont b then ((byte_val a - 192) * 64 + cont_val b)%N :: runes_of l2 else runes_of l1
          else match l2 with
          | [] => runes_of l1
          | c :: l3 =>
              if in_range 224 239 a then
                let lo := if (byte_val a =? 224)%N then 160%N else 128%N in
                let hi := if (byte_val a =? 237)%N then 159%N else 191%N in
                if in_range lo hi b && cont c
                then ((byte_val a - 224) * 4096 + cont_val b * 64 + cont_val c)%N :: runes_of l3
                else runes_of l1
              else match l3 with
              | [] => runes_of l1
              | d :: l4 =>
                  if in_range 240 244 a then
                    let lo := if (byte_val a =? 240)%N then 144%N else 128%N in
                    let hi := if (byte_val a =? 244)%N then 143%N else 191%N in
                    if in_range lo hi b && cont c && cont d
                    then ((byte_val a - 240) * 262144 + cont_val b * 4096 + cont_val c * 64 + cont_val d)%N
                           :: runes_of l4
                    else runes_of l1
                  else runes_of l1
              end
          end
      end
  end.
Definition runes (s : string) : list N := runes_of (bytes s).

(** The UTF-8 encoding of a code point. *)
Definition rune_bytes (r : N) : list ascii :=
  if (r <? 128)%N then [byte r]
  else if (r <? 2048)%N then [byte (192 + r / 64); byte (128 + r mod 64)]
  else if (r <? 65536)%N then
    [byte (224 + r / 4096); byte (128 + r / 64 mod 64); byte (128 + r mod 64)]
  else [byte (240 + r / 262144); byte (128 + r / 4096 mod 64); byte (128 + r / 64 mod 64); byte (128 + r mod 64)].
Definition of_runes (rs : list N) : string := of_bytes (rs ≫= rune_bytes).

Definition between (lo hi r : N) : bool := ((lo <=? r) && (r <=? hi))%N.

(** [unicode.Cf]: format characters. *)
Definition Cf (r : N) : bool :=
  (r =? 0xAD)%N || between 0x600 0x605 r || (r =? 0x61C)%N || (r =? 0x6DD)%N || (r =? 0x70F)%N ||
  between 0x890 0x891 r || (r =? 0x8E2)%N || (r =? 0x180E)%N || between 0x200B 0x200F r ||
  between 0x202A 0x202E r || between 0x2060 0x2064 r || between 0x2066 0x206F r || (r =? 0xFEFF)%N ||
  between 0xFFF9 0xFFFB r || (r =? 0x110BD)%N || (r =? 0x110CD)%N || between 0x13430 0x1343F r ||
  between 0x1BCA0 0x1BCA3 r || between 0x1D173 0x1D17A r || (r =? 0xE0001)%N || between 0xE0020 0xE007F r.

(** ** sanitize.go *)

Definition ESC : N := 27.
Definition CSI : N := 0x9B.

(** The rest after the longest prefix of code points in a class. *)
Fixpoint skip_class (p : N → bool) (rs : list N) : list N :=
  match rs with
  | r :: rs' => if p r then skip_class p rs' else rs
  | [] => []
  end.

(** [[0-?]*[ -/]*[@-~]]: the rest after the match. The classes are disjoint, so the
    longest prefixes are the only candidates. *)
Definition csi_tail (rs : list N) : option (list N) :=
  match skip_class (between 0x20 0x2F) (skip_class (between 0x30 0x3F) rs) with
  | r :: rest => if between 0x40 0x7E r then Some rest else None
  | [] => None
  end.

(** [[^\x07\x1b]*(\x07|\x1b\\)?] always matches. *)
Definition osc_tail (rs : list N) : list N :=
  match skip_class (λ r, negb ((r =? 7)%N || (r =? ESC)%N)) rs with
  | r :: rest =>
      if (r =? 7)%N then rest
      else match rest with
           | r2 :: rest2 => if (r =? ESC)%N && (r2 =? 0x5C)%N then rest2 else r :: rest
           | [] => r :: rest
           end
  | [] => []
  end.

(** A match of [ansiSeq] at the front of a text: the rest after it. *)
Definition ansi_match (rs : list N) : option (list N) :=
  match rs with
  | r :: rest =>
      if (r =? CSI)%N then csi_tail rest
      else if (r =? ESC)%N then
        match rest with
        | r2 :: rest2 =>
            if (r2 =? 0x5B)%N then csi_tail rest2
            else if (r2 =? 0x5D)%N then Some (osc_tail rest2)
            else if between 0x40 0x5A r2 || between 0x5C 0x5F r2 then Some rest2
            else None
        | [] => None
        end
      else None
  | [] => None
  end.

(** [ansiSeq.ReplaceAllString(s, "")]; a match is not empty, so the length of the text
    bounds the number of steps. *)
Fixpoint strip_ansi_fuel (fuel : nat) (rs : list N) : list N :=
  match fuel, rs with
  | S fuel, r :: rest =>
      match ansi_match rs with
      | Some rest' => strip_ansi_fuel fuel rest'
      | None => r :: strip_ansi_fuel fuel rest
      end
  | _, _ => []
  end.
Definition strip_ansi (rs : list N) : list N := strip_ansi_fuel (length rs) rs.

Definition keep_rune (r : N) : bool := negb ((r <? 32)%N || (r =? 127)%N) && negb (Cf r).

(** The text is well-formed here. *)
Definition clipRunes (s : string) (n : Z) : string :=
  if (n <=? 0)%Z || (s == "") then ""
  else of_runes (take (Z.to_nat n) (runes s)).

Definition maxString : Z := 512.

Definition sanitizeText (s : string) (max : Z) : string :=
  let rs := filter (λ r, keep_rune r = true) (strip_ansi (runes s)) in
  clipRunes (TrimSpace (of_runes rs)) max.

(** The request of the OTLP trace service, as far as it is read. *)
Inductive AnyValue :=
| StringValue (s : string)
| IntValue (n : Z)
| DoubleValue (text : string)
| BoolValue (b : bool)
| OtherValue.

Definition KeyValue : Type := string * option AnyValue.

Record PbSpan := MkPbSpan {
  Pb_TraceId : string;
  Pb_SpanId : string;
  Pb_ParentSpanId : string;
  Pb_Name : string;
  Pb_Kind : Z;
  Pb_Start : Z;
  Pb_End : Z;
  Pb_Attributes : list KeyValue;
  Pb_Status : option Z;
}.

Record ResourceSpans := MkResourceSpans {
  Rs_Attributes : list KeyValue;
  Rs_Scopes : list (list PbSpan);
}.

Definition ExportRequest : Type := list ResourceSpans.

Class GoOTLP := {
  proto_Unmarshal : string → result string ExportRequest;
  protojson_Unmarshal : string → result string ExportRequest;
  url_EscapedPath : URL → string;
}.

Section ops.
  Context `{GoNet, GoOTLP}.

Definition is_letter (a : ascii) : bool := in_range 97 122 a || in_range 65 90 a.

(** The longest suffix of ASCII letters of [s], removed. *)
Fixpoint drop_letters (rev_s : list ascii) : list ascii :=
  match rev_s with
  | a :: l => if is_letter a then drop_letters l else rev_s
  | [] => []
  end.

Definition stripAbsoluteURL (s : string) : string :=
  match Index s "://" with
  | None => s
  | Some idx =>
      let start := length (drop_letters (reverse (bytes (str_take idx s)))) in
      match url_Parse (str_drop start s) with
      | Err _ => ""
      | Ok u =>
          if URL_Host u == "" then ""
          else
            let p := url_EscapedPath u in
            let p := if p == "" then "/" else p in
            let prefix := TrimSpace (str_take start s) in
            if prefix == "" then p else TrimSpace (prefix +:+ " " +:+ p)
      end
  end.

Definition sanitizeName (s : string) : string :=
  stripAbsoluteURL (stripQueryAndFragment (sanitizeText s maxString)).

Definition sanitizeRoute (s : string) : string :=
  let s := sanitizeText s maxString in
  if s == "" then ""
  else if Contains s "://" then stripAbsoluteURL s
  else stripQueryAndFragment s.

Definition backslash_to_slash (a : ascii) : ascii := if a == byte 92 then byte 47 else a.

Definition sanitizeFile (s : string) : string :=
  let s := sanitizeText s maxString in
  if s == "" then ""
  else
    let s := Clean (str_map backslash_to_slash s) in
    if (s == ".") || (s == "/") || HasPrefix s "../" || Contains s "/../" || Contains s ".." then "" else s.

(** ** otlp.go *)

Definition otelTraceIDLen : nat := 16.
Definition otelSpanIDLen : nat := 8.
Definition maxOTLPBytes : Z := 4194304.
Definition maxSpansBatch : Z := 10000.
Definition MaxInt64 : Z := 9223372036854775807.

Inductive DecodeErr :=
| ErrUnsupportedType (ct : string)
| ErrEmptyBody
| ErrBodyTooLarge
| ErrPayload (msg : string).

Definition media_type (contentType : string) : string :=
  ToLower (TrimSpace (default "" (head (Split contentType (byte 59))))).

Definition payload (r : result string ExportRequest) : result DecodeErr ExportRequest :=
  match r with Ok x => Ok x | Err msg => Err (ErrPayload msg) end.

Definition DecodeOTLP (contentType body : string) : result DecodeErr ExportRequest :=
  if body == "" then Err ErrEmptyBody
  else if (maxOTLPBytes <? len body)%Z then Err ErrBodyTooLarge
  else
    let ct := media_type contentType in
    if ct == "application/json" then payload (protojson_Unmarshal body)
    else if bool_decide (ct ∈ [""; "application/x-protobuf"; "application/protobuf"])
    then payload (proto_Unmarshal body)
    else Err (ErrUnsupportedType contentType).

Definition anyString (v : option AnyValue) : string :=
  match v with
  | Some (StringValue s) => s
  | Some (IntValue n) => Itoa n
  | Some (DoubleValue text) => text
  | Some (BoolValue b) => if b then "true" else "false"
  | _ => ""
  end.

(** The first attribute with the first key that has one. *)
Fixpoint attr_find (attrs : list KeyValue) (keys : list string) : option (option AnyValue) :=
  match keys with
  | [] => None
  | key :: keys' =>
      match list_find (λ kv : KeyValue, kv.1 = key) attrs with
      | Some (_, kv) => Some kv.2
      | None => attr_find attrs keys'
      end
  end.

Definition attrString (attrs : list KeyValue) (keys : list string) : string :=
  match attr_find attrs keys with Some v => anyString v | None => "" end.

(** An [int] has 64 bits, so no [int64] is out of its range. *)
Definition attrInt (attrs : list KeyValue) (keys : list string) : Z :=
  match attr_find attrs keys with
  | Some (Some (IntValue n)) => n
  | Some (Some (StringValue s)) => default 0%Z (Atoi (TrimSpace s))
  | _ => 0%Z
  end.

Fixpoint first_attr (attrs : list KeyValue) (keys : list string) : string :=
  match keys with
  | [] => ""
  | key :: keys' => let v := attrString attrs [key] in if v != "" then v else first_attr attrs keys'
  end.
Definition httpRoute (attrs : list KeyValue) : string :=
  first_attr attrs ["http.route"; "url.path"; "http.target"; "url.full"; "http.url"].

Definition isZeroHex (b : string) : bool := forallb (λ a, a == byte 0) (bytes b).
Definition validID (b : string) (n : nat) : bool :=
  (String.length b =? n)%nat && negb (isZeroHex b).

Definition hexID (b : string) : string :=
  of_bytes (bytes b ≫= λ c, [hex_digit (byte_val c / 16); hex_digit (byte_val c mod 16)]).

Definition spanKind (k : Z) : string :=
  if (k =? 1)%Z then "internal" else if (k =? 2)%Z then "server" else if (k =? 3)%Z then "client"
  else if (k =? 4)%Z then "producer" else if (k =? 5)%Z then "consumer" else "".

Definition statusCode (st : option Z) : string :=
  match st with
  | None => ""
  | Some c => if (c =? 2)%Z then "error" else if (c =? 1)%Z then "ok" else ""
  end.

(** [strings.Cut] at the first blank. *)
Definition splitMethodRoute (method route : string) : string * string :=
  let method := canonicalMethod method in
  let route := TrimSpace route in
  match Index route " " with
  | None => (method, route)
  | Some i =>
      let cm := canonicalMethod (str_take i route) in
      if cm != "" then (if method == "" then cm else method, TrimSpace (str_drop (i + 1) route))
      else (method, route)
  end.

(** The time of the Unix epoch, counted from Go's zero time. *)
Definition unix_epoch : Z := 62135596800 * 1000000000.

Definition normalizeSpan (service : string) (sp : PbSpan) : option Span :=
  if negb (validID (Pb_TraceId sp) otelTraceIDLen) || negb (validID (Pb_SpanId sp) otelSpanIDLen) then None
  else if (MaxInt64 <? Pb_Start sp)%Z || (MaxInt64 <? Pb_End sp)%Z then None
  else
    let attrs := Pb_Attributes sp in
    let dur := if (Pb_End sp <? Pb_Start sp)%Z then 0%Z else (Pb_End sp - Pb_Start sp)%Z in
    let parent := if validID (Pb_ParentSpanId sp) otelSpanIDLen then hexID (Pb_ParentSpanId sp) else "" in
    let route := sanitizeRoute (httpRoute attrs) in
    let method := canonicalMethod (attrString attrs ["http.request.method"; "http.method"]) in
    let '(method, route) := splitMethodRoute method route in
    Some (MkSpan (hexID (Pb_TraceId sp)) (hexID (Pb_SpanId sp)) parent service (sanitizeName (Pb_Name sp))
            (spanKind (Pb_Kind sp)) (statusCode (Pb_Status sp)) method route
            (canonicalStatus (attrInt attrs ["http.response.status_code"; "http.status_code"]))
            (sanitizeText (attrString attrs ["code.function.name"; "code.function"]) maxString)
            (sanitizeFile (attrString attrs ["code.file.path"; "code.filepath"]))
            (unix_epoch + Pb_Start sp) dur).

Record Report := MkReport {
  Rp_Spans : list Span;
  Rp_Seen : Z;
  Rp_Dropped : Z;
  Rp_Truncated : bool;
}.

Definition Rejected (r : Report) : Z :=
  let n := (Rp_Seen r - Z.of_nat (length (Rp_Spans r)))%Z in if (n <? 0)%Z then 0%Z else n.

Definition add_span (limit : Z) (service : string) (out : Report) (sp : PbSpan) : Report :=
  match normalizeSpan service sp with
  | None => MkReport (Rp_Spans out) (Rp_Seen out + 1) (Rp_Dropped out + 1) (Rp_Truncated out)
  | Some span =>
      if (limit <=? Z.of_nat (length (Rp_Spans out)))%Z
      then MkReport (Rp_Spans out) (Rp_Seen out + 1) (Rp_Dropped out) true
      else MkReport (Rp_Spans out ++ [span]) (Rp_Seen out + 1) (Rp_Dropped out) (Rp_Truncated out)
  end.

Definition service_of (rs : ResourceSpans) : string :=
  let service := sanitizeText (attrString (Rs_Attributes rs) ["service.name"]) maxString in
  if service == "" then "unknown" else service.

Definition add_resource (limit : Z) (out : Report) (rs : ResourceSpans) : Report :=
  foldl (λ out ss, foldl (add_span limit (service_of rs)) out ss) out (Rs_Scopes rs).

Definition normalizeBatch (req : option ExportRequest) (limit : Z) : Report :=
  match req with
  | None => MkReport [] 0 0 false
  | Some req =>
      let limit := if (limit <=? 0)%Z then maxSpansBatch else limit in
      foldl (add_resource limit) (MkReport [] 0 0 false) req
  end.

Definition NormalizeReport (req : option ExportRequest) : Report := normalizeBatch req maxSpansBatch.
Definition Normalize (req : option ExportRequest) : list Span := Rp_Spans (NormalizeReport req).

End ops.

(** ** Reports *)

Section report.
  Context `{GoNet, GoOTLP}.

(** The spans of a request, each with the service of its resource. *)
Definition all_spans (req : ExportRequest) : list (string * PbSpan) :=
  req ≫= λ rs, Rs_Scopes rs ≫= λ ss, (λ sp, (service_of rs, sp)) <$> ss.
Definition good_spans (l : list (string * PbSpan)) : list Span := omap (λ '(service, sp), normalizeSpan service sp) l.

Definition add_pair (limit : Z) (out : Report) (x : string * PbSpan) : Report := add_span limit x.1 out x.2.

Lemma good_spans_length l : (length (good_spans l) ≤ length l)%nat.
Proof.
  unfold good_spans. induction l as [|[service sp] l IH]; [done|]. cbn [omap list_omap].
  change (list_omap _ _ ?f l) with (omap f l). destruct (normalizeSpan service sp); cbn [length]; lia.
Qed.

Lemma add_resources_flat limit out req :
  foldl (add_resource limit) out req = foldl (add_pair limit) out (all_spans req).
Proof.
  unfold all_spans. revert out. induction req as [|rs req IH]; intros out; [done|].
  cbn [foldl]. rewrite IH, bind_cons, foldl_app. f_equal. unfold add_resource. clear IH.
  generalize (service_of rs) as service. intros service. revert out.
  induction (Rs_Scopes rs) as [|ss l IH]; intros out; [done|]. cbn [foldl].
  rewrite IH, bind_cons, foldl_app. f_equal. clear IH. revert out.
  induction ss as [|sp ss IH]; intros out; [done|]. rewrite fmap_cons. cbn [foldl]. by rewrite IH.
Qed.

Lemma add_pairs_spec limit l out :
  (0 < limit)%Z → (Z.of_nat (length (Rp_Spans out)) ≤ limit)%Z →
  foldl (add_pair limit) out l =
    MkReport (take (Z.to_nat limit) (Rp_Spans out ++ good_spans l))
      (Rp_Seen out + Z.of_nat (length l))
      (Rp_Dropped out + Z.of_nat (length l) - Z.of_nat (length (good_spans l)))
      (Rp_Truncated out || (limit <? Z.of_nat (length (Rp_Spans out ++ good_spans l)))%Z).
Proof.
  intros Hl. revert out. induction l as [|[service sp] l IH]; intros out Ho; cbn [foldl].
  - cbn [good_spans omap list_omap length]. rewrite app_nil_r, take_ge by lia.
    replace (limit <? _)%Z with false by lia. rewrite orb_false_r. destruct out. cbn. f_equal; lia.
  - unfold add_pair at 2, add_span, good_spans. cbn [fst snd omap list_omap]. fold (good_spans l).
    change (list_omap _ _ (λ '(service, sp), normalizeSpan service sp) l) with (good_spans l).
    destruct (normalizeSpan service sp) as [span|].
    + destruct (limit <=? _)%Z eqn:E.
      * rewrite IH by done. cbn [Rp_Spans Rp_Seen Rp_Dropped Rp_Truncated]. rewrite !length_app. cbn [length].
        f_equal; [|lia|lia|].
        -- rewrite !take_app_le by lia. done.
        -- cbn [orb]. symmetry. apply orb_true_iff. right. apply Z.ltb_lt. apply Z.leb_le in E. lia.
      * rewrite IH by (cbn [Rp_Spans]; rewrite length_app; cbn; lia).
        cbn [Rp_Spans Rp_Seen Rp_Dropped Rp_Truncated]. rewrite <- app_assoc. cbn [length app]. f_equal; lia.
    + rewrite IH by done. cbn [Rp_Spans Rp_Seen Rp_Dropped Rp_Truncated length]. f_equal; lia.
Qed.

(** An export is reported exactly: the spans stored are the first ten thousand that
    can be normalized, in the order of the request; every span is counted, the
    dropped ones are those that cannot be normalized, and the number of rejected
    spans that is answered is that of the spans not stored. *)
Theorem NormalizeReport_spec req :
  let all := all_spans req in
  let good := good_spans all in
  let rep := NormalizeReport (Some req) in
  Rp_Spans rep = take (Z.to_nat maxSpansBatch) good ∧
  Rp_Seen rep = Z.of_nat (length all) ∧
  Rp_Dropped rep = (Z.of_nat (length all) - Z.of_nat (length good))%Z ∧
  (Rp_Truncated rep = true ↔ (maxSpansBatch < Z.of_nat (length good))%Z) ∧
  Rejected rep = (Z.of_nat (length all) - Z.of_nat (length (Rp_Spans rep)))%Z.
Proof.
  cbv zeta. unfold NormalizeReport, normalizeBatch.
  replace (if (maxSpansBatch <=? 0)%Z then maxSpansBatch else maxSpansBatch) with maxSpansBatch by done.
  rewrite add_resources_flat, add_pairs_spec by done.
  cbn [Rp_Spans Rp_Seen Rp_Dropped Rp_Truncated app]. split_and!; [done|lia|lia| |].
  - cbn [orb]. apply Z.ltb_lt.
  - unfold Rejected. cbn [Rp_Spans Rp_Seen]. rewrite length_take.
    pose proof (good_spans_length (all_spans req)).
    destruct (Z.ltb_spec (0 + Z.of_nat (length (all_spans req)) - Z.of_nat (Z.to_nat maxSpansBatch `min` length (good_spans (all_spans req)))) 0); lia.
Qed.
End report.

(** ** Sanitized text *)

(** Bytes that are no control characters of ASCII. *)
Definition printable (a : ascii) : bool := (32 <=? byte_val a)%N && negb (byte_val a =? 127)%N.

Lemma byte_val_byte n : (n < 256)%N → byte_val (byte n) = n.
Proof. intros. unfold byte_val, byte. by apply Stdlib.Strings.Ascii.N_ascii_embedding. Qed.
Lemma byte_val_lt a : (byte_val a < 256)%N.
Proof. apply Stdlib.Strings.Ascii.N_ascii_bounded. Qed.

(** Code points that [runes_of] gives. *)
Definition scalar (r : N) : Prop := (r < 0xD800 ∨ 0xDFFF < r)%N ∧ (r < 0x110000)%N.

(** Decides the tests on bytes whose value is known. *)
Ltac rune_tests :=
  repeat match goal with
         | |- context [if ?b then _ else _] =>
             let E := fresh in
             first [ assert (b = true) as E by lia | assert (b = false) as E by lia ]; rewrite E; clear E
         end.

(** What is decoded are code points, and from printable bytes printable ones. *)
Lemma runes_of_ind (P : N → Prop) (Q : list ascii → Prop) l :
  (∀ a l, Q (a :: l) → Q l) →
  (∀ a l, Q (a :: l) → in_range 0 127 a = true → P (byte_val a)) →
  (∀ r, 128 ≤ r → scalar r → P r)%N →
  Q l → Forall P (runes_of l).
Proof.
  intros Htl H1 H2. remember (length l) as n eqn:Hn. assert (length l ≤ n)%nat as Hl by lia. clear Hn.
  revert l Hl. induction n as [|n IH]; intros [|a l] Hl HQ; [constructor|cbn in Hl; lia|constructor|].
  cbn [length] in Hl. pose proof (Htl a l HQ) as HQl.
  assert (∀ k, k `suffix_of` l → Q k) as Hsuf.
  { intros k [pre ->]. clear -Htl HQl. induction pre as [|x pre IHp]; [done|]. apply IHp. by apply (Htl x). }
  assert (∀ k, k `suffix_of` l → Forall P (runes_of k)) as IHs.
  { intros k Hk. apply IH; [|by apply Hsuf]. apply suffix_length in Hk. lia. }
  cbn [runes_of]. destruct (in_range 0 127 a) eqn:Ha; [constructor; [by eapply H1|by apply IHs]|].
  destruct l as [|b l2]; [constructor|]. assert (l2 `suffix_of` b :: l2) as S2 by (by eexists [b]).
  destruct (in_range 194 223 a) eqn:Hr2.
  { destruct (cont b) eqn:Hb; [|by apply IHs]. constructor; [|by apply IHs].
    unfold in_range, cont, cont_val in *. unfold in_range in *.
    pose proof (byte_val_lt a). pose proof (byte_val_lt b). apply H2; [lia|]. split; lia. }
  destruct l2 as [|c l3]; [by apply IHs|]. assert (l3 `suffix_of` b :: c :: l3) as S3 by (by eexists [b; c]).
  destruct (in_range 224 239 a) eqn:Hr3.
  { cbv zeta. destruct (in_range _ _ b && cont c) eqn:Hb; [|by apply IHs]. constructor; [|by apply IHs].
    unfold cont, cont_val, in_range in *. apply H2; [|split]; destruct (byte_val a =? 224)%N eqn:?;
      destruct (byte_val a =? 237)%N eqn:?; lia. }
  destruct l3 as [|d l4]; [by apply IHs|]. assert (l4 `suffix_of` b :: c :: d :: l4) as S4 by (by eexists [b; c; d]).
  destruct (in_range 240 244 a) eqn:Hr4; [|by apply IHs]. cbv zeta.
  destruct (in_range _ _ b && cont c && cont d) eqn:Hb; [|by apply IHs]. constructor; [|by apply IHs].
  unfold cont, cont_val, in_range in *. apply H2; [|split]; destruct (byte_val a =? 240)%N eqn:?;
    destruct (byte_val a =? 244)%N eqn:?; lia.
Qed.

Lemma runes_scalar s : Forall scalar (runes s).
Proof.
  unfold runes. eapply (runes_of_ind _ (λ _, True)); [done| |done|done].
  intros a _ _ Ha. unfold in_range in Ha. split; lia.
Qed.

Lemma andb_iff_r (b c : bool) : b = true → b && c = c.
Proof. by intros ->. Qed.

(** A code point in groups of six bits. *)
Lemma rune_groups r :
  ∃ b c d e, r = (((b * 64 + c) * 64 + d) * 64 + e)%N ∧ (c < 64 ∧ d < 64 ∧ e < 64)%N ∧
    (r / 262144 = b ∧ r / 4096 mod 64 = c ∧ r / 64 mod 64 = d ∧ r mod 64 = e ∧
     r / 4096 = b * 64 + c ∧ r / 64 = (b * 64 + c) * 64 + d)%N.
Proof.
  exists (r / 262144)%N, (r / 4096 mod 64)%N, (r / 64 mod 64)%N, (r mod 64)%N.
  replace (r / 262144)%N with (r / 64 / 64 / 64)%N by (rewrite !N.Div0.div_div; done).
  replace (r / 4096)%N with (r / 64 / 64)%N by (rewrite !N.Div0.div_div; done).
  pose proof (N.div_mod r 64). pose proof (N.div_mod (r / 64) 64). pose proof (N.div_mod (r / 64 / 64) 64).
  pose proof (N.mod_lt r 64). pose proof (N.mod_lt (r / 64) 64). pose proof (N.mod_lt (r / 64 / 64) 64).
  set (x := (r / 64)%N) in *. set (y := (x / 64)%N) in *. set (z := (y / 64)%N) in *.
  set (u := (r mod 64)%N) in *. set (v := (x mod 64)%N) in *. set (w := (y mod 64)%N) in *. clearbody x y z u v w.
  split_and!; lia.
Qed.

Lemma rune_bytes_printable r a :
  scalar r → (32 ≤ r)%N → r ≠ 127%N → a ∈ rune_bytes r → printable a = true.
Proof.
  intros [_ Hs] H32 H127 Ha. unfold printable. assert (32 ≤ byte_val a ∧ byte_val a ≠ 127)%N; [|lia].
  unfold rune_bytes in Ha.
  destruct (rune_groups r) as (b & c & d & e & Hv & Hc & G1 & G2 & G3 & G4 & G5 & G6).
  rewrite ?G1, ?G2, ?G3, ?G4, ?G5, ?G6 in Ha. clear G1 G2 G3 G4 G5 G6. repeat case_match;
    repeat (apply elem_of_cons in Ha as [->|Ha]); try (by apply not_elem_of_nil in Ha);
    rewrite byte_val_byte by lia; lia.
Qed.

(** Decoding what was encoded. *)
Lemma runes_of_rune r l : scalar r → runes_of (rune_bytes r ++ l) = r :: runes_of l.
Proof.
  intros [Hr Hlt]. unfold rune_bytes.
  destruct (rune_groups r) as (b & c & d & e & Hv & Hc & -> & -> & -> & -> & -> & ->).
  destruct (r <? 128)%N eqn:E1; [|destruct (r <? 2048)%N eqn:E2; [|destruct (r <? 65536)%N eqn:E3]];
    cbn [app runes_of]; unfold cont, cont_val, in_range; rewrite !byte_val_byte by lia; cbv zeta.
  - by rune_tests.
  - rune_tests. f_equal. lia.
  - destruct (224 + (b * 64 + c) =? 224)%N eqn:E4, (224 + (b * 64 + c) =? 237)%N eqn:E5; rune_tests; f_equal; lia.
  - destruct (240 + b =? 240)%N eqn:E4, (240 + b =? 244)%N eqn:E5; rune_tests; f_equal; lia.
Qed.

Lemma utf8_rune r l : scalar r → utf8_bytes (rune_bytes r ++ l) = utf8_bytes l.
Proof.
  intros [Hr Hlt]. unfold rune_bytes.
  destruct (rune_groups r) as (b & c & d & e & Hv & Hc & -> & -> & -> & -> & -> & ->).
  destruct (r <? 128)%N eqn:E1; [|destruct (r <? 2048)%N eqn:E2; [|destruct (r <? 65536)%N eqn:E3]];
    cbn [app utf8_bytes]; unfold cont, in_range; rewrite !byte_val_byte by lia; cbv zeta.
  - by rune_tests.
  - rune_tests. apply andb_iff_r. lia.
  - rune_tests. apply andb_iff_r. destruct (224 + (b * 64 + c) =? 224)%N eqn:E4, (224 + (b * 64 + c) =? 237)%N eqn:E5; lia.
  - rune_tests. apply andb_iff_r. destruct (240 + b =? 240)%N eqn:E4, (240 + b =? 244)%N eqn:E5; lia.
Qed.

Lemma bytes_of_runes rs : bytes (of_runes rs) = rs ≫= rune_bytes.
Proof. unfold of_runes, bytes, of_bytes. apply String.list_ascii_of_string_of_list_ascii. Qed.

Lemma runes_of_runes rs : Forall scalar rs → runes (of_runes rs) = rs.
Proof.
  unfold runes. rewrite bytes_of_runes. induction 1 as [|r rs Hr _ IH]; [done|].
  rewrite bind_cons, runes_of_rune by done. by rewrite IH.
Qed.

Lemma utf8_of_runes rs : Forall scalar rs → utf8_Valid (of_runes rs) = true.
Proof.
  unfold utf8_Valid. rewrite bytes_of_runes. induction 1 as [|r rs Hr _ IH]; [done|].
  by rewrite bind_cons, utf8_rune.
Qed.

Lemma of_runes_printable rs :
  Forall scalar rs → Forall (λ r, 32 ≤ r ∧ r ≠ 127)%N rs → forallb printable (bytes (of_runes rs)) = true.
Proof.
  intros Hs Hp. rewrite forallb_True, bytes_of_runes. intros a (r & Ha & Hr)%list_elem_of_bind.
  rewrite Forall_forall in Hs, Hp. destruct (Hp r Hr). by eapply rune_bytes_printable; eauto.
Qed.

Lemma runes_printable s :
  forallb printable (bytes s) = true → Forall (λ r, 32 ≤ r ∧ r ≠ 127)%N (runes s).
Proof.
  intros Hs. unfold runes. apply (runes_of_ind _ (λ l, forallb printable l = true)); [| | |done].
  - intros a l. cbn. by intros [_ ?]%andb_true_iff.
  - intros a l Hq _. cbn in Hq. unfold printable in Hq. lia.
  - intros r Hr _. lia.
Qed.

(** *** Escape sequences *)

Lemma skip_class_sub p rs : skip_class p rs `suffix_of` rs.
Proof.
  induction rs as [|r rs IH]; [done|]. cbn. destruct (p r); [|done]. by apply suffix_cons_r.
Qed.

Lemma csi_tail_sub rs rest : csi_tail rs = Some rest → rest `suffix_of` rs.
Proof.
  unfold csi_tail. intros Hm. etrans; [|apply (skip_class_sub (between 0x30 0x3F))].
  etrans; [|apply (skip_class_sub (between 0x20 0x2F))]. destruct (skip_class _ _) as [|r l]; [done|].
  destruct (between _ _ r); [|done]. injection Hm as <-. by apply suffix_cons_r.
Qed.

Lemma osc_tail_sub rs : osc_tail rs `suffix_of` rs.
Proof.
  unfold osc_tail. etrans; [|apply (skip_class_sub (λ r, negb ((r =? 7)%N || (r =? ESC)%N)))].
  destruct (skip_class _ rs) as [|r l]; [done|]. destruct (r =? 7)%N; [by apply suffix_cons_r|].
  destruct l as [|r2 l]; [done|]. destruct (_ && _); [|done]. by do 2 apply suffix_cons_r.
Qed.

Lemma ansi_match_sub r rs rest : ansi_match (r :: rs) = Some rest → rest `suffix_of` rs.
Proof.
  cbn [ansi_match]. destruct (r =? CSI)%N; [apply csi_tail_sub|]. destruct (r =? ESC)%N; [|done].
  destruct rs as [|r2 rs]; [done|]. intros Hm. etrans; [|by apply (suffix_cons_r rs rs r2)].
  destruct (r2 =? 0x5B)%N; [by apply csi_tail_sub|]. destruct (r2 =? 0x5D)%N.
  - injection Hm as <-. apply osc_tail_sub.
  - destruct (_ || _); [|done]. by injection Hm as <-.
Qed.

(** The bound on the steps is enough: more fuel gives the same text. *)
Lemma strip_ansi_fuel_enough n m rs :
  (length rs ≤ n)%nat → (length rs ≤ m)%nat → strip_ansi_fuel n rs = strip_ansi_fuel m rs.
Proof.
  revert m rs. induction n as [|n IH]; intros [|m] [|r rs] Hn Hm; cbn [length] in *; try done; try lia.
  cbn [strip_ansi_fuel]. destruct (ansi_match (r :: rs)) as [rest|] eqn:Ha.
  - apply ansi_match_sub, suffix_length in Ha. apply IH; lia.
  - f_equal. apply IH; lia.
Qed.

Lemma strip_ansi_cons r rs :
  strip_ansi (r :: rs) = match ansi_match (r :: rs) with
                         | Some rest => strip_ansi rest
                         | None => r :: strip_ansi rs
                         end.
Proof.
  unfold strip_ansi. cbn [length]. cbn [strip_ansi_fuel]. destruct (ansi_match (r :: rs)) as [rest|] eqn:Ha; [|done].
  apply ansi_match_sub, suffix_length in Ha. by apply strip_ansi_fuel_enough.
Qed.

Lemma elem_of_strip_ansi r rs : r ∈ strip_ansi rs → r ∈ rs.
Proof.
  remember (length rs) as n eqn:Hn. assert (length rs ≤ n)%nat as Hl by lia. clear Hn. revert rs Hl.
  induction n as [|n IH]; intros [|x rs] Hl; cbn [length] in Hl; [done|lia|done|].
  rewrite strip_ansi_cons. destruct (ansi_match (x :: rs)) as [rest|] eqn:Ha.
  - apply ansi_match_sub in Ha as Hs. pose proof (suffix_length _ _ Hs). intros Hr. right.
    destruct Hs as [pre ->]. apply elem_of_app. right. apply IH; [lia|done].
  - rewrite !elem_of_cons. intros [->|Hr]; [by left|]. right. apply IH; [lia|done].
Qed.

(** C26: sanitized text is well-formed UTF-8 of at most the given number of code points
    and has no ASCII control characters: no line break and no escape. *)
Theorem sanitizeText_clean s max :
  (0 ≤ max)%Z →
  let t := sanitizeText s max in
  utf8_Valid t = true ∧ (Z.of_nat (length (runes t)) ≤ max)%Z ∧ forallb printable (bytes t) = true.
Proof.
  intros Hmax. unfold sanitizeText. cbv zeta.
  set (rs := filter _ _). assert (forallb printable (bytes (TrimSpace (of_runes rs))) = true) as Hp.
  { rewrite forallb_True. intros a Ha%elem_of_TrimSpace. revert a Ha. rewrite <- forallb_True.
    apply of_runes_printable; apply Forall_forall; intros r [Hk Hr%elem_of_strip_ansi]%list_elem_of_filter.
    - pose proof (runes_scalar s) as Hs. rewrite Forall_forall in Hs. by apply Hs.
    - unfold keep_rune in Hk. lia. }
  revert Hp. generalize (TrimSpace (of_runes rs)) as t. clear rs. intros t Hp.
  unfold clipRunes. destruct (_ || _); [split_and!; [done|exact Hmax|done]|].
  assert (Forall scalar (take (Z.to_nat max) (runes t))) as Hs by apply Forall_take, runes_scalar.
  split_and!; [by apply utf8_of_runes| |].
  - rewrite runes_of_runes by done. rewrite length_take. lia.
  - apply of_runes_printable; [done|]. by apply Forall_take, runes_printable.
Qed.

(** The reverse is not covered: a control sequence introducer written as the code point
    U+009B is removed only together with a well-formed sequence, and the sequence
    becomes well-formed when the format characters in it are removed afterwards. *)
Theorem sanitize_leaves_sequence :
  let text := of_runes [0x9B; 0x200B; 0x33; 0x31; 0x6D]%N in
  sanitizeText text maxString = of_runes [0x9B; 0x33; 0x31; 0x6D]%N ∧
  strip_ansi (runes (sanitizeText text maxString)) = [].
Proof. split; vm_compute; reflexivity. Qed.

(** ** Normalized spans *)

Lemma hex_digit_hex n : (n < 16)%N → is_hex (hex_digit n) = true ∧ hex_digit_val (hex_digit n) = n.
Proof.
  intros Hn. destruct n as [|p]; [done|]. do 4 (destruct p as [p|p|]; try done); lia.
Qed.

Lemma bytes_hexID b :
  bytes (hexID b) = bytes b ≫= λ c, [hex_digit (byte_val c / 16); hex_digit (byte_val c mod 16)].
Proof. unfold hexID, bytes, of_bytes. apply String.list_ascii_of_string_of_list_ascii. Qed.

Lemma length_bytes s : length (bytes s) = String.length s.
Proof. induction s as [|a s IH]; [done|]. cbn. by rewrite <- IH. Qed.

Lemma hexID_length b : String.length (hexID b) = (2 * String.length b)%nat.
Proof.
  rewrite <- !length_bytes, bytes_hexID. induction (bytes b) as [|a l IH]; [done|].
  rewrite bind_cons. cbn [app length]. lia.
Qed.

Lemma byte_halves a : (byte_val a / 16 < 16 ∧ byte_val a mod 16 < 16)%N.
Proof.
  pose proof (byte_val_lt a). split; [apply N.Div0.div_lt_upper_bound; lia|by apply N.mod_lt].
Qed.

Lemma hexID_hex b : all_hex (hexID b) = true.
Proof.
  unfold all_hex. rewrite forallb_True, bytes_hexID. intros x (c & Hx & _)%list_elem_of_bind.
  destruct (byte_halves c). repeat (apply elem_of_cons in Hx as [->|Hx]; [by apply hex_digit_hex|]).
  by apply not_elem_of_nil in Hx.
Qed.

Lemma byte_val_inj a b : byte_val a = byte_val b → a = b.
Proof.
  unfold byte_val. intros E. rewrite <- (Stdlib.Strings.Ascii.ascii_N_embedding a), E.
  apply Stdlib.Strings.Ascii.ascii_N_embedding.
Qed.

Lemma hexID_inj b b' : hexID b = hexID b' → b = b'.
Proof.
  intros E%(f_equal bytes). rewrite !bytes_hexID in E. apply bytes_inj. revert E. generalize (bytes b'), (bytes b).
  intros l' l. revert l'. induction l as [|x l IH]; intros [|y l'] E; try done.
  rewrite !bind_cons in E. cbn [app] in E. injection E as E1 E2 E.
  apply IH in E as ->. f_equal. apply byte_val_inj.
  apply (f_equal hex_digit_val) in E1, E2. destruct (byte_halves x), (byte_halves y).
  rewrite !(λ n Hn, proj2 (hex_digit_hex n Hn)) in E1 by done.
  rewrite !(λ n Hn, proj2 (hex_digit_hex n Hn)) in E2 by done.
  rewrite (N.div_mod (byte_val x) 16), (N.div_mod (byte_val y) 16) by done. by rewrite E1, E2.
Qed.

Section normalized.
  Context `{GoNet, GoOTLP}.

(** What a stored span promises to the readers of traces. *)
Record span_ok (s : Span) : Prop := {
  sk_trace : String.length (Span_TraceID s) = 32%nat ∧ all_hex (Span_TraceID s) = true;
  sk_span : String.length (Span_SpanID s) = 16%nat ∧ all_hex (Span_SpanID s) = true;
  sk_parent : Span_ParentSpanID s = "" ∨
    String.length (Span_ParentSpanID s) = 16%nat ∧ all_hex (Span_ParentSpanID s) = true;
  sk_method : Span_HTTPMethod s = "" ∨ Span_HTTPMethod s ∈ httpMethods;
  sk_status : Span_HTTPStatus s = 0%Z ∨ (100 ≤ Span_HTTPStatus s ≤ 599)%Z;
  sk_file : Contains (Span_CodeFile s) ".." = false;
  sk_duration : (0 ≤ Span_DurationNS s ≤ MaxInt64)%Z;
  sk_start : (unix_epoch ≤ Span_StartTime s ≤ unix_epoch + MaxInt64)%Z;
}.

Lemma canonicalMethod_in s : canonicalMethod s = "" ∨ canonicalMethod s ∈ httpMethods.
Proof. unfold canonicalMethod. case_bool_decide; auto. Qed.

Lemma splitMethodRoute_method m r :
  (splitMethodRoute m r).1 = "" ∨ (splitMethodRoute m r).1 ∈ httpMethods.
Proof.
  unfold splitMethodRoute. destruct (Index _ " "); [|apply canonicalMethod_in].
  destruct (canonicalMethod (str_take _ _) != ""); [|apply canonicalMethod_in]. cbn [fst].
  destruct (canonicalMethod m == ""); apply canonicalMethod_in.
Qed.

Lemma sanitizeFile_inside s : Contains (sanitizeFile s) ".." = false.
Proof.
  unfold sanitizeFile. cbv zeta. destruct (sanitizeText s maxString == ""); [done|].
  destruct (_ || _) eqn:E; [done|]. by apply orb_false_iff in E as [_ ?].
Qed.

Lemma canonicalStatus_range n : canonicalStatus n = 0%Z ∨ (100 ≤ canonicalStatus n ≤ 599)%Z.
Proof. unfold canonicalStatus. destruct (_ || _) eqn:Hc; lia. Qed.

Lemma validID_length b n : validID b n = true → String.length b = n.
Proof. unfold validID. intros [Hl _]%andb_true_iff. by apply Nat.eqb_eq. Qed.

Lemma normalizeSpan_inv service sp s :
  normalizeSpan service sp = Some s →
  validID (Pb_TraceId sp) otelTraceIDLen = true ∧ validID (Pb_SpanId sp) otelSpanIDLen = true ∧
  Span_TraceID s = hexID (Pb_TraceId sp) ∧ Span_SpanID s = hexID (Pb_SpanId sp).
Proof.
  unfold normalizeSpan. destruct (validID (Pb_TraceId sp) _), (validID (Pb_SpanId sp) _); cbn [negb orb]; try done.
  destruct (_ || _); [done|]. cbv zeta. destruct (splitMethodRoute _ _). by intros [= <-].
Qed.

Lemma normalizeSpan_ok service sp s :
  (0 ≤ Pb_Start sp)%Z → (0 ≤ Pb_End sp)%Z → normalizeSpan service sp = Some s → span_ok s.
Proof.
  intros H1 H2 Hn. destruct (normalizeSpan_inv _ _ _ Hn) as (Ht%validID_length & Hs%validID_length & Et & Es).
  unfold normalizeSpan in Hn. destruct (_ || _) eqn:E1 in Hn; [done|]. destruct (_ || _) eqn:E2 in Hn; [done|].
  apply orb_false_iff in E2 as [E2a E2b]. cbv zeta in Hn. pose proof (splitMethodRoute_method
    (canonicalMethod (attrString (Pb_Attributes sp) ["http.request.method"; "http.method"]))
    (sanitizeRoute (httpRoute (Pb_Attributes sp)))) as Hm.
  destruct (splitMethodRoute _ _) as [m r]. injection Hn as <-. cbn [fst] in Hm.
  split; cbn [Span_TraceID Span_SpanID Span_ParentSpanID Span_HTTPMethod Span_HTTPStatus Span_CodeFile Span_DurationNS Span_StartTime].
  - rewrite hexID_length, Ht. split; [done|apply hexID_hex].
  - rewrite hexID_length, Hs. split; [done|apply hexID_hex].
  - destruct (validID (Pb_ParentSpanId sp) _) eqn:Hp; [right|by left].
    apply validID_length in Hp. rewrite hexID_length, Hp. split; [done|apply hexID_hex].
  - done.
  - apply canonicalStatus_range.
  - apply sanitizeFile_inside.
  - destruct (Pb_End sp <? Pb_Start sp)%Z eqn:Hc; [done|]. apply Z.ltb_ge in Hc, E2a, E2b. lia.
  - apply Z.ltb_ge in E2a. lia.
Qed.

(** C25: every span stored from an export has lower-case hexadecimal identifiers of full
    length, a known method or none, a legal status or none, a file path without
    parent references and a duration that fits; and spans with different identifiers
    are stored under different keys. *)
Theorem Normalize_spans req s s' :
  (∀ service sp, (service, sp) ∈ all_spans req → 0 ≤ Pb_Start sp ∧ 0 ≤ Pb_End sp)%Z →
  s ∈ Normalize (Some req) → s' ∈ Normalize (Some req) →
  span_ok s ∧
  (spanKey s = spanKey s' → Span_TraceID s = Span_TraceID s' ∧ Span_SpanID s = Span_SpanID s').
Proof.
  intros Hreq Hs Hs'.
  assert (∀ x, x ∈ Normalize (Some req) → span_ok x) as Hok.
  { intros x Hx. unfold Normalize, NormalizeReport, normalizeBatch in Hx.
    replace (if (maxSpansBatch <=? 0)%Z then maxSpansBatch else maxSpansBatch) with maxSpansBatch in Hx by done.
    rewrite add_resources_flat, add_pairs_spec in Hx by done. cbn [Rp_Spans app] in Hx.
    apply elem_of_take in Hx as (i & Hx%list_elem_of_lookup_2 & _).
    apply list_elem_of_omap in Hx as ([service sp] & Hin & Hx). destruct (Hreq service sp Hin).
    by eapply normalizeSpan_ok. }
  split; [by apply Hok|]. intros E. unfold spanKey in E.
  destruct (sk_trace s (Hok s Hs)) as [L1 _], (sk_trace s' (Hok s' Hs')) as [L2 _].
  apply str_app_inj_len in E as [-> E]; [|congruence]. by apply str_app_inj_len in E as [_ ->].
Qed.
End normalized.
End otlp.
