(* ===== verification/Spans.v ===== *)
(** * Span stores: [internal/ingest/span.go], [memory.go], [postgres.go]

    The interface of the span stores is the class [SpanStore]; the in-process store of
    [Ingest.v] and [Module postgres_spans] implement it. The rows of the table
    [aquila.spans] are kept in the order in which the server scans them: SQL leaves the
    order of rows with equal sort keys open, and here they come in that order.
    A statement that fails, or a context that is done, is the argument [db]. *)

From S2P Require Import Prelude GoStrings Ingest.
Import ingest.

Class SpanStore (S : Type) := {
  SpanStore_UpsertSpans : option string → list Span → S → result string () * S;
  SpanStore_ListSpans : option string → ListQuery → S → result string (list Span);
  SpanStore_ListTraceWindow : option string → Z → string → S → result string (list Span);
  SpanStore_ListAttaches : option string → Z → S → result string (list Attach);
}.

(** The methods of [Memory] do not look at the context. *)
#[global] Instance Memory_SpanStore : SpanStore Memory := {
  SpanStore_UpsertSpans := λ _ spans m, (Ok tt, UpsertSpans m spans);
  SpanStore_ListSpans := λ _ q m, Ok (ListSpans m q);
  SpanStore_ListTraceWindow := λ _ n service m, Ok (ListTraceWindow m n service);
  SpanStore_ListAttaches := λ _ n m, Ok (ListAttaches m n);
}.

Definition UniqueServices (spans : list Span) : list string :=
  sort_cmp String.compare (remove_dups (filter (λ n, n ≠ "") (TrimSpace ∘ Span_ServiceName <$> spans))).

Module postgres_spans.

Record Postgres := MkPostgres { rows : list Span }.
Definition NewPostgres (l : list Span) : Postgres := MkPostgres l.

(** A row: a status that is not positive is stored as null and read as zero, and a
    time has microseconds. *)
Definition row_of (s : Span) : Span :=
  MkSpan (Span_TraceID s) (Span_SpanID s) (Span_ParentSpanID s) (Span_ServiceName s) (Span_Name s) (Span_Kind s)
    (Span_StatusCode s) (Span_HTTPMethod s) (Span_HTTPRoute s)
    (if (0 <? Span_HTTPStatus s)%Z then Span_HTTPStatus s else 0%Z) (Span_CodeFunction s) (Span_CodeFile s)
    (Span_StartTime s - Span_StartTime s `mod` 1000)%Z (Span_DurationNS s).

(** [upsertSQL]: the row with the key is replaced. *)
Definition upsert (l : list Span) (s : Span) : list Span :=
  filter (λ r, ¬ (Span_TraceID r = Span_TraceID s ∧ Span_SpanID r = Span_SpanID s)) l ++ [row_of s].

Definition UpsertSpans (db : option string) (spans : list Span) (p : Postgres) : result string () * Postgres :=
  if bool_decide (spans = []) then (Ok tt, p)
  else match db with
       | Some msg => (Err msg, p)
       | None => (Ok tt, MkPostgres (foldl upsert (rows p) spans))
       end.

Definition ListSpans (db : option string) (q : ListQuery) (p : Postgres) : result string (list Span) :=
  match db with
  | Some msg => Err msg
  | None =>
      let l := filter (λ s, (LQ_TraceID q = "" ∨ Span_TraceID s = LQ_TraceID q) ∧
                            (LQ_Service q = "" ∨ Span_ServiceName s = LQ_Service q)) (rows p) in
      Ok (take (Z.to_nat (normalizeLimit (LQ_Limit q))) (sort_cmp (cmp_on Span_StartTime (cmp_desc Z.compare)) l))
  end.

(** The condition of [HAVING] on one span of a trace. *)
Definition not_probe (s : Span) : bool :=
  let shown := if Span_HTTPRoute s == "" then Span_Name s else Span_HTTPRoute s in
  negb (bool_decide (shown ∈ ["/healthz"; "/livez"; "/readyz"; "/health"; "GET /healthz"; "HEAD /healthz"])).

Definition wanted_trace (l : list Span) (service id : string) : bool :=
  ((service == "") || existsb (λ s, Span_ServiceName s == service) (trace_spans id l)) &&
  existsb not_probe (trace_spans id l).

(** The traces of the common table expression [recent]. *)
Definition recent (l : list Span) (n : Z) (service : string) : list string :=
  take (Z.to_nat n)
    (sort_cmp (cmp_on (λ id, latest (trace_spans id l)) (cmp_desc Z.compare))
       (filter (λ id, wanted_trace l service id = true) (remove_dups (Span_TraceID <$> l)))).

Definition window_rows (l : list Span) (n : Z) (service : string) : list Span :=
  take maxWindowSpans
    (sort_cmp (cmp_then (cmp_on Span_StartTime Z.compare) (cmp_on Span_SpanID String.compare))
       (filter (λ s, Span_TraceID s ∈ recent l n service) l)).

Definition ListTraceWindow (db : option string) (maxTraces : Z) (service : string) (p : Postgres)
    : result string (list Span) :=
  match db with
  | Some msg => Err msg
  | None => Ok (SelectWindow (window_rows (rows p) (normalizeTraceWindow maxTraces) (ClipService service))
                  maxTraces service)
  end.

(** The groups of [listAttachesSQL]: one per name as it is stored. *)
Definition attach_row (l : list Span) (name : string) : Attach :=
  let mine := filter (λ s, Span_ServiceName s = name) l in
  MkAttach name (Z.of_nat (length mine)) (latest mine).

Definition ListAttaches (db : option string) (limit : Z) (p : Postgres) : result string (list Attach) :=
  match db with
  | Some msg => Err msg
  | None =>
      let names := remove_dups (filter (λ n, n ≠ "") (Span_ServiceName <$> rows p)) in
      let page := take (Z.to_nat (clipAttaches limit)) (sort_cmp cmp_attach (attach_row (rows p) <$> names)) in
      Ok (filter (λ a, Attach_Service a ≠ "")
            ((λ a, MkAttach (ClipService (Attach_Service a)) (Attach_Spans a) (Attach_LastSeen a)) <$> page))
  end.

#[global] Instance Postgres_SpanStore : SpanStore Postgres := {
  SpanStore_UpsertSpans := UpsertSpans;
  SpanStore_ListSpans := ListSpans;
  SpanStore_ListTraceWindow := ListTraceWindow;
  SpanStore_ListAttaches := ListAttaches;
}.

End postgres_spans.

(** ** The window of a store *)

Section window.

(** The traces that a window can show. *)
Definition shown (service : string) (spans : list Span) : bool :=
  negb (probeOnly spans) && traceTouches spans service.

Lemma window_loop_eq n service infos kept out :
  (0 ≤ kept < n)%Z → (length out + length (infos ≫= ti_spans) ≤ maxWindowSpans)%nat →
  window_loop n service infos kept out =
    out ++ (take (Z.to_nat (n - kept)) (filter (λ i, shown service (ti_spans i) = true) infos)
              ≫= λ i, sortTraceSpans (ti_spans i)).
Proof.
  revert kept out. induction infos as [|info infos IH]; intros kept out Hk Hlen; cbn [window_loop].
  - rewrite filter_nil, take_nil. cbn. by rewrite app_nil_r.
  - rewrite bind_cons, length_app in Hlen. rewrite filter_cons.
    replace (probeOnly (ti_spans info) || negb (traceTouches (ti_spans info) service))
      with (negb (shown service (ti_spans info))) by (unfold shown; by rewrite negb_andb, negb_involutive).
    destruct (shown service (ti_spans info)); cbn [negb].
    2: { rewrite decide_False by done. apply IH; lia. }
    rewrite decide_True by done.
    assert (length (sortTraceSpans (ti_spans info)) = length (ti_spans info)) as Hs
      by (unfold sortTraceSpans; apply length_sort_cmp).
    replace (Z.to_nat (n - kept)) with (S (Z.to_nat (n - (kept + 1)))) by lia. cbn [take].
    rewrite bind_cons. destruct (n <=? kept + 1)%Z eqn:E1; cbn [orb].
    { apply Z.leb_le in E1. replace (Z.to_nat (n - (kept + 1))) with 0%nat by lia. by rewrite take_0, app_nil_r. }
    apply Z.leb_gt in E1. destruct (maxWindowSpans <=? _)%nat eqn:E2.
    + apply Nat.leb_le in E2. rewrite length_app, Hs in E2.
      assert (infos ≫= ti_spans = []) as Hnil by (apply length_zero_iff_nil; lia).
      assert (∀ i, i ∈ infos → ti_spans i = []) as Hempty.
      { intros i Hi. apply elem_of_nil_inv. intros s Hs'. apply (not_elem_of_nil s). rewrite <- Hnil.
        apply list_elem_of_bind. by exists i. }
      rewrite (filter_none (λ i, shown service (ti_spans i) = true)).
      * rewrite take_nil. cbn. by rewrite app_nil_r.
      * intros i Hi. by rewrite (Hempty i Hi).
    + rewrite IH by (rewrite ?length_app, ?Hs; lia). by rewrite <- app_assoc.
Qed.

(** A window by the identifiers of its traces. *)
Definition cmp_trace (l : list Span) : string → string → comparison :=
  cmp_then (cmp_on (λ id, latest (trace_spans id l)) (cmp_desc Z.compare)) (cmp_desc String.compare).
Definition trace_ids (l : list Span) : list string := sort_cmp (cmp_trace l) (first_ids [] l).

#[local] Instance cmp_trace_ordcmp l : OrdCmp (cmp_trace l).
Proof. apply _. Qed.

Lemma cmp_trace_eq l x y : cmp_trace l x y = Eq → x = y.
Proof.
  unfold cmp_trace, cmp_then, cmp_on, cmp_desc. destruct (_ ?= _)%Z; [|done..].
  by intros ->%String.compare_eq_iff.
Qed.

Lemma elem_of_first_ids seen l id :
  id ∈ first_ids seen l ↔ id ≠ "" ∧ id ∉ seen ∧ id ∈ Span_TraceID <$> l.
Proof.
  revert seen. induction l as [|s l IH]; intros seen; cbn [first_ids]; [set_solver|].
  rewrite fmap_cons, elem_of_cons. destruct (_ || _) eqn:E.
  - rewrite IH. apply orb_true_iff in E. rewrite !bool_decide_eq_true in E. naive_solver.
  - rewrite elem_of_cons, IH, elem_of_cons. apply orb_false_iff in E. rewrite !bool_decide_eq_false in E.
    destruct (decide (id = Span_TraceID s)); naive_solver.
Qed.

Lemma NoDup_first_ids seen l : NoDup (first_ids seen l).
Proof.
  revert seen. induction l as [|s l IH]; intros seen; cbn [first_ids]; [constructor|].
  destruct (_ || _); [done|]. constructor; [|done]. rewrite elem_of_first_ids. set_solver.
Qed.

Lemma bind_ext_elem {A B} (f g : A → list B) l : (∀ x, x ∈ l → f x = g x) → l ≫= f = l ≫= g.
Proof.
  induction l as [|x l IH]; intros Hfg; [done|]. rewrite !bind_cons, Hfg by left. f_equal.
  apply IH. intros y Hy. apply Hfg. by right.
Qed.

Lemma trace_spans_total ids l :
  NoDup ids → (length (ids ≫= λ id, trace_spans id l) ≤ length l)%nat.
Proof.
  intros Hnd. revert l. induction Hnd as [|id ids Hid _ IH]; intros l; [cbn; lia|].
  rewrite bind_cons, length_app.
  assert (ids ≫= (λ id, trace_spans id l) = ids ≫= λ i, trace_spans i (filter (λ s, Span_TraceID s ≠ id) l)) as ->.
  { apply bind_ext_elem. intros i Hi. unfold trace_spans. rewrite list_filter_filter.
    apply list_filter_iff. intros s. split; [|naive_solver]. intros <-. split; [done|]. congruence. }
  specialize (IH (filter (λ s, Span_TraceID s ≠ id) l)). unfold trace_spans at 1.
  pose proof (Permutation_length (filter_app_complement (λ s, Span_TraceID s = id) l)) as Hs.
  rewrite length_app in Hs. lia.
Qed.

Lemma groupTraces_eq l :
  groupTraces l = (λ id, MkTraceInfo id (latest (trace_spans id l)) (trace_spans id l)) <$> trace_ids l.
Proof.
  unfold groupTraces, trace_ids. symmetry.
  rewrite (sort_cmp_fmap _ (cmp_trace l) cmp_info); [done|]. intros x y _ _.
  unfold cmp_info, cmp_trace, cmp_then, cmp_on, cmp_desc. done.
Qed.

Lemma normalizeTraceWindow_pos n : (0 < normalizeTraceWindow n)%Z.
Proof. unfold normalizeTraceWindow, defaultTraceWindow, maxTraceWindow. repeat case_match; lia. Qed.

(** The spans of a window: those of its traces, trace by trace. *)
Definition window_of (l : list Span) (n : Z) (service : string) : list Span :=
  take (Z.to_nat n) (filter (λ id, shown service (trace_spans id l) = true) (trace_ids l))
    ≫= λ id, sortTraceSpans (trace_spans id l).

Lemma SelectWindow_eq l maxTraces service :
  (length l ≤ maxWindowSpans)%nat →
  SelectWindow l maxTraces service = window_of l (normalizeTraceWindow maxTraces) (ClipService service).
Proof.
  intros Hl. unfold SelectWindow, window_of. pose proof (normalizeTraceWindow_pos maxTraces).
  assert (length (trace_ids l ≫= λ id, trace_spans id l) ≤ length l)%nat as Htot.
  { apply trace_spans_total. unfold trace_ids. rewrite sort_cmp_perm. apply NoDup_first_ids. }
  rewrite groupTraces_eq, window_loop_eq; [|lia|].
  - rewrite list_filter_fmap, <- fmap_take, Z.sub_0_r. cbn [app]. rewrite list_fmap_bind.
    rewrite take_ge; [done|]. etrans; [|exact Hl]. etrans; [|exact Htot].
    set (ids := take _ _). assert (ids ⊆+ trace_ids l) as Hsub.
    { etrans; [apply submseteq_take|]. apply sublist_submseteq, sublist_filter. }
    clearbody ids. revert Hsub. generalize (trace_ids l) as k. induction ids as [|id ids IH]; intros k Hk; [cbn; lia|].
    apply submseteq_cons_l in Hk as (k' & -> & Hk). rewrite !bind_cons, !length_app.
    unfold sortTraceSpans at 1. cbn [compose ti_spans]. rewrite length_sort_cmp. specialize (IH k' Hk). lia.
  - cbn [length]. rewrite list_fmap_bind. cbn. etrans; [exact Htot|done].
Qed.

(** *** The order of the spans does not matter *)

(** No two spans of a trace share an identifier. *)
Definition unique_spans (l : list Span) : Prop :=
  ∀ s s', s ∈ l → s' ∈ l → Span_TraceID s = Span_TraceID s' → Span_SpanID s = Span_SpanID s' → s = s'.

Lemma trace_spans_perm id l k : l ≡ₚ k → trace_spans id l ≡ₚ trace_spans id k.
Proof. intros Hp. unfold trace_spans. by rewrite Hp. Qed.

Lemma foldl_latest_ge t l :
  let m := foldl (λ t s, if (t <? Span_StartTime s)%Z then Span_StartTime s else t) t l in
  (t ≤ m)%Z ∧ (∀ s, s ∈ l → Span_StartTime s ≤ m)%Z ∧ (m = t ∨ ∃ s, s ∈ l ∧ m = Span_StartTime s).
Proof.
  cbv zeta. revert t. induction l as [|x l IH]; intros t; cbn [foldl]; [set_solver by lia|].
  set (t' := if (t <? Span_StartTime x)%Z then Span_StartTime x else t).
  assert (t ≤ t' ∧ Span_StartTime x ≤ t' ∧ (t' = t ∨ t' = Span_StartTime x))%Z as (Ht & Hx & Hor).
  { unfold t'. destruct (Z.ltb_spec t (Span_StartTime x)); lia. }
  destruct (IH t') as (H1 & H2 & H3). split; [lia|]. split.
  - intros s [->|Hs]%elem_of_cons; [lia|by apply H2].
  - destruct H3 as [->|(s & Hs & ->)]; [|right; exists s; by split; [right|]].
    destruct Hor as [->| ->]; [by left|]. right. exists x. by split; [left|].
Qed.

Lemma latest_perm l k : l ≡ₚ k → latest l = latest k.
Proof.
  assert (∀ l, l ≠ [] → (∀ s, s ∈ l → Span_StartTime s ≤ latest l)%Z ∧ ∃ s, s ∈ l ∧ latest l = Span_StartTime s) as Hmax.
  { intros [|x m]; [done|]. intros _. unfold latest. destruct (foldl_latest_ge (Span_StartTime x) (x :: m)) as (_ & H2 & H3).
    split; [exact H2|]. destruct H3 as [->|H3]; [|exact H3]. exists x. by split; [left|]. }
  intros Hp. destruct l as [|x l]; [by apply Permutation_nil_l in Hp as ->|].
  destruct (Hmax (x :: l)) as [H1 (s & Hs & E1)]; [done|].
  destruct (Hmax k) as [H2 (s' & Hs' & E2)]; [by intros ->; apply Permutation_nil_r in Hp|].
  rewrite Hp in Hs. rewrite <- Hp in Hs'. specialize (H1 s' Hs'). specialize (H2 s Hs). lia.
Qed.

Lemma shown_perm service l k : l ≡ₚ k → shown service l = shown service k.
Proof.
  intros Hp. unfold shown, probeOnly, traceTouches. f_equal.
  - f_equal. apply eq_true_iff_eq. rewrite !forallb_True. by setoid_rewrite Hp.
  - f_equal. apply eq_true_iff_eq. rewrite !existsb_True. by setoid_rewrite Hp.
Qed.

Lemma sortTraceSpans_perm id l k :
  unique_spans l → l ≡ₚ k → sortTraceSpans (trace_spans id l) = sortTraceSpans (trace_spans id k).
Proof.
  intros Hu Hp. apply sort_cmp_perm_eq; [apply _| |by apply trace_spans_perm].
  intros s s' [E1 Hs]%list_elem_of_filter [E2 Hs']%list_elem_of_filter Hc.
  apply Hu; [done..|congruence|]. revert Hc. unfold cmp_then, cmp_on. destruct (_ ?= _)%Z; [|done..].
  apply String.compare_eq_iff.
Qed.

Lemma first_ids_perm l k : l ≡ₚ k → first_ids [] l ≡ₚ first_ids [] k.
Proof.
  intros Hp. apply NoDup_Permutation; [apply NoDup_first_ids..|]. intros id.
  rewrite !elem_of_first_ids. by rewrite Hp.
Qed.

Lemma trace_ids_perm l k : l ≡ₚ k → trace_ids l = trace_ids k.
Proof.
  intros Hp. unfold trace_ids. transitivity (sort_cmp (cmp_trace k) (first_ids [] l)).
  - apply sort_cmp_ext. intros x y _ _. unfold cmp_trace, cmp_then, cmp_on.
    by rewrite !(latest_perm _ _ (trace_spans_perm _ _ _ Hp)).
  - apply sort_cmp_perm_eq; [apply _| |by apply first_ids_perm]. intros x y _ _. apply cmp_trace_eq.
Qed.

Lemma window_of_perm l k n service : unique_spans l → l ≡ₚ k → window_of l n service = window_of k n service.
Proof.
  intros Hu Hp. unfold window_of. rewrite (trace_ids_perm l k Hp).
  rewrite (list_filter_iff _ (λ id, shown service (trace_spans id k) = true)).
  - apply bind_ext_elem. intros id _. by apply sortTraceSpans_perm.
  - intros id. by rewrite (shown_perm service _ _ (trace_spans_perm id l k Hp)).
Qed.

(** *** Only the traces of the window matter *)

Lemma trace_spans_sub (R : list string) l id :
  trace_spans id (filter (λ s, Span_TraceID s ∈ R) l) = if decide (id ∈ R) then trace_spans id l else [].
Proof.
  unfold trace_spans. rewrite list_filter_filter. destruct (decide (id ∈ R)).
  - apply list_filter_iff. intros s. split; [by intros []|]. by intros <-.
  - apply filter_none. intros s _ [<- ?]. done.
Qed.

Lemma trace_ids_sub (R : list string) l :
  trace_ids (filter (λ s, Span_TraceID s ∈ R) l) = filter (λ id, id ∈ R) (trace_ids l).
Proof.
  unfold trace_ids. rewrite filter_sort_cmp by apply _. set (k := filter _ l).
  transitivity (sort_cmp (cmp_trace l) (first_ids [] k)).
  - apply sort_cmp_ext. intros x y Hx Hy. rewrite elem_of_first_ids in Hx, Hy.
    unfold cmp_trace, cmp_then, cmp_on, k. rewrite !trace_spans_sub.
    assert (∀ z, z ∈ Span_TraceID <$> k → z ∈ R) as Hz.
    { intros z (s & -> & [? _]%list_elem_of_filter)%list_elem_of_fmap. done. }
    rewrite !decide_True; naive_solver.
  - apply sort_cmp_perm_eq; [apply _|intros x y _ _; apply cmp_trace_eq|].
    apply NoDup_Permutation; [apply NoDup_first_ids|apply NoDup_filter, NoDup_first_ids|]. intros id.
    rewrite list_elem_of_filter, !elem_of_first_ids, !list_elem_of_fmap. unfold k.
    setoid_rewrite list_elem_of_filter. naive_solver.
Qed.

Lemma filter_every {A} (P : A → Prop) `{∀ x, Decision (P x)} (l : list A) : (∀ x, x ∈ l → P x) → filter P l = l.
Proof.
  induction l as [|x l IH]; intros Hl; [done|]. rewrite filter_cons, decide_True by (apply Hl; left).
  f_equal. apply IH. intros y Hy. apply Hl. by right.
Qed.

Lemma filter_take_self (L : list string) n : NoDup L → filter (λ x, x ∈ take n L) L = take n L.
Proof.
  intros Hnd. transitivity (filter (λ x, x ∈ take n L) (take n L ++ drop n L)); [by rewrite take_drop|].
  rewrite filter_app.
  rewrite <- (take_drop n L) in Hnd. apply NoDup_app in Hnd as (_ & Hd & _).
  rewrite (filter_none _ (drop n L)).
  - rewrite app_nil_r. apply filter_every. done.
  - intros x Hx Ht. by apply (Hd x).
Qed.

Lemma window_of_top l n service R :
  R = take (Z.to_nat n) (filter (λ id, shown service (trace_spans id l) = true) (trace_ids l)) →
  window_of (filter (λ s, Span_TraceID s ∈ R) l) n service = window_of l n service.
Proof.
  intros HR. unfold window_of. rewrite trace_ids_sub.
  assert (filter (λ id, shown service (trace_spans id (filter (λ s, Span_TraceID s ∈ R) l)) = true)
    (filter (λ id, id ∈ R) (trace_ids l)) = R) as E.
  { rewrite list_filter_filter.
    rewrite (list_filter_iff _ (λ id, id ∈ R ∧ shown service (trace_spans id l) = true)).
    - rewrite <- list_filter_filter, HR. apply filter_take_self, NoDup_filter. unfold trace_ids.
      rewrite sort_cmp_perm. apply NoDup_first_ids.
    - intros id. split; [intros [Hs Hin]|intros [Hin Hs]]; rewrite trace_spans_sub, decide_True in *; done. }
  rewrite E, <- HR. rewrite take_ge.
  - apply bind_ext_elem. intros id Hid. by rewrite trace_spans_sub, decide_True.
  - rewrite HR, length_take. lia.
Qed.
End window.

(** ** The two stores show the same window *)

Section agree.
Import postgres_spans.

(** The conditions under which the SQL of the window means what [SelectWindow] means:
    few enough spans, traces with distinct newest times, and only spans that both
    take for probes or both do not. *)
Record plain_rows (l : list Span) : Prop := {
  pr_small : (length l ≤ maxWindowSpans)%nat;
  pr_unique : unique_spans l;
  pr_trace s : s ∈ l → Span_TraceID s ≠ "";
  pr_times id id' : id ∈ Span_TraceID <$> l → id' ∈ Span_TraceID <$> l →
    latest (trace_spans id l) = latest (trace_spans id' l) → id = id';
  pr_probe s : s ∈ l → not_probe s = negb (probeRoute s);
}.

Lemma wanted_shown l service id :
  plain_rows l → wanted_trace l service id = shown service (trace_spans id l).
Proof.
  intros Hl. unfold wanted_trace, shown, traceTouches, probeOnly. rewrite andb_comm. f_equal.
  apply eq_true_iff_eq. rewrite existsb_True, negb_true_iff, forallb_False.
  assert (∀ s, s ∈ trace_spans id l → not_probe s = true ↔ probeRoute s = false) as Hp.
  { intros s [_ Hs]%list_elem_of_filter. rewrite (pr_probe l Hl s Hs). apply negb_true_iff. }
  naive_solver.
Qed.

Lemma recent_top l n service :
  plain_rows l →
  recent l n service =
    take (Z.to_nat n) (filter (λ id, shown service (trace_spans id l) = true) (trace_ids l)).
Proof.
  intros Hl. unfold recent, trace_ids. f_equal. rewrite filter_sort_cmp by apply _.
  rewrite (list_filter_iff _ (λ id, shown service (trace_spans id l) = true))
    by (intros id; by rewrite (wanted_shown l service id Hl)).
  set (ids := filter _ (remove_dups _)).
  assert (∀ id, id ∈ ids → id ∈ Span_TraceID <$> l) as Hids
    by (intros id; unfold ids; rewrite list_elem_of_filter, elem_of_remove_dups; tauto).
  transitivity (sort_cmp (cmp_trace l) ids).
  - apply sort_cmp_ext. intros x y Hx Hy. unfold cmp_trace, cmp_then, cmp_on, cmp_desc.
    destruct (_ ?= _)%Z eqn:E; [|done..]. apply Z.compare_eq_iff in E.
    rewrite (pr_times l Hl x y) by auto. pose proof (cmp_opp (c:=String.compare) y y) as Ho.
    by destruct (String.compare y y).
  - apply sort_cmp_perm_eq; [apply _|intros x y _ _; apply cmp_trace_eq|].
    apply NoDup_Permutation; [apply NoDup_filter, NoDup_remove_dups|apply NoDup_filter, NoDup_first_ids|].
    intros id. unfold ids. rewrite !list_elem_of_filter, elem_of_remove_dups, elem_of_first_ids.
    split; [|tauto]. intros [Hs Hin]. split_and!; [done| |apply not_elem_of_nil|done].
    apply list_elem_of_fmap in Hin as (s & -> & Hs'). by apply (pr_trace l Hl).
Qed.

(** C24: the Postgres store and the in-process store show the same window when they hold
    the same spans, provided the newest times of the traces differ, there are at most
    as many spans as a window may have, and no span is a probe for one and not for
    the other. *)
Theorem windows_agree m p maxTraces service :
  plain_rows (rows p) → rows p ≡ₚ all_spans m →
  ListTraceWindow None maxTraces service p = Ok (ingest.ListTraceWindow m maxTraces service).
Proof.
  intros Hl Hp. unfold ListTraceWindow, ingest.ListTraceWindow, window_rows. f_equal.
  pose proof (pr_small _ Hl) as Hsmall. pose proof (pr_unique _ Hl) as Hu.
  rewrite (SelectWindow_eq (all_spans m)) by (by rewrite <- Hp).
  rewrite <- (window_of_perm (rows p) (all_spans m)) by done.
  set (n := normalizeTraceWindow maxTraces). set (sv := ClipService service).
  set (kept := filter _ (rows p)).
  assert (length kept ≤ length (rows p))%nat by apply length_filter.
  rewrite take_ge by (rewrite length_sort_cmp; lia).
  rewrite SelectWindow_eq by (rewrite length_sort_cmp; lia).
  rewrite (window_of_perm _ kept).
  - unfold kept. apply window_of_top. by apply recent_top.
  - intros s s'. rewrite !elem_of_sort_cmp. unfold kept. rewrite !list_elem_of_filter. intros [_ ?] [_ ?]. by apply Hu.
  - apply sort_cmp_perm.
Qed.

(** A span of a probe that the SQL does not know takes the place of a trace: the window
    of one trace is empty in the Postgres store although there is a trace to show. *)
Definition real_span : Span := MkSpan "t1" "s1" "" "shop" "GET /items" "server" "" "GET" "/items" 200 "" "" 1000 5.
Definition ready_span : Span := MkSpan "t2" "s2" "" "shop" "GET /readyz" "server" "" "GET" "" 200 "" "" 2000 5.

Theorem probe_hides_trace :
  ListTraceWindow None 1 "" (MkPostgres [real_span; ready_span]) = Ok [] ∧
  SelectWindow [real_span; ready_span] 1 "" = [real_span].
Proof. split; vm_compute; reflexivity. Qed.
End agree.
