(* ===== verification/Source.v ===== *)
(** * The source graph: [internal/source/graph.go], [snapshot.go]

    [Module source] models the graph of packages, files and functions with its
    indexes, and rebuilding it from a snapshot. [Load.v] has the loading of Go
    packages ([load.go]) and the snapshot files. *)

From S2P Require Import Prelude GoStrings.

Module source.

Definition KindPackage : string := "package".
Definition KindFile : string := "file".
Definition KindFunction : string := "function".
Definition EdgeImports : string := "imports".
Definition EdgeContains : string := "contains".
Definition EdgeCalls : string := "calls".
Definition ProvenanceTypes : string := "types".
Definition ProvenanceSyntax : string := "syntax".
Definition DirOut : string := "out".
Definition DirIn : string := "in".
Definition maxNodes : Z := 20000.
Definition maxEdges : Z := 80000.

Record Node := MkNode {
  N_ID : string;
  N_Kind : string;
  N_Name : string;
  N_Pkg : string;
  N_File : string;
  N_Line : Z;
  N_EndLine : Z;
}.
#[global] Instance Node_eq_dec : EqDecision Node.
Proof. solve_decision. Defined.

Record Edge := MkEdge {
  E_From : string;
  E_To : string;
  E_Kind : string;
  E_Provenance : string;
}.
#[global] Instance Edge_eq_dec : EqDecision Edge.
Proof. solve_decision. Defined.

Record Neighbor := MkNeighbor {
  Nb_Node : Node;
  Nb_Kind : string;
  Nb_Direction : string;
}.

Record Snapshot := MkSnapshot {
  Sn_Module : string;
  Sn_Nodes : list Node;
  Sn_Edges : list Edge;
}.

(** The maps of the indexes: positions of nodes by identifier, positions of
    edges by their ends. *)
Record Graph := MkGraph {
  g_module : string;
  g_nodes : list Node;
  g_edges : list Edge;
  g_byID : gmap string nat;
  g_out : gmap string (list nat);
  g_in : gmap string (list nat);
}.

(** Appends an index to the list of a key. *)
Definition push (key : string) (i : nat) (m : gmap string (list nat)) : gmap string (list nat) :=
  <[key := default [] (m !! key) ++ [i]]> m.

Fixpoint index_nodes (i : nat) (ns : list Node) (m : gmap string nat) : gmap string nat :=
  match ns with
  | [] => m
  | n :: ns => index_nodes (S i) ns (<[N_ID n := i]> m)
  end.

Fixpoint index_edges (key : Edge → string) (i : nat) (es : list Edge) (m : gmap string (list nat))
    : gmap string (list nat) :=
  match es with
  | [] => m
  | e :: es => index_edges key (S i) es (push (key e) i m)
  end.

Definition index (module : string) (ns : list Node) (es : list Edge) : Graph :=
  MkGraph module ns es (index_nodes 0 ns ∅) (index_edges E_From 0 es ∅) (index_edges E_To 0 es ∅).

(** [None] is the nil graph. *)
Definition Module_ (g : option Graph) : string := from_option g_module "" g.
Definition NodeCount (g : option Graph) : Z := from_option (λ g, Z.of_nat (length (g_nodes g))) 0%Z g.
Definition Snapshot_ (g : option Graph) : Snapshot :=
  match g with
  | None => MkSnapshot "" [] []
  | Some g => MkSnapshot (g_module g) (g_nodes g) (g_edges g)
  end.

Definition NodeOf (g : Graph) (id : string) : option Node := i ← g_byID g !! id; g_nodes g !! i.

Definition neighbor_out (g : Graph) (ei : nat) : option Neighbor :=
  e ← g_edges g !! ei; n ← NodeOf g (E_To e); Some (MkNeighbor n (E_Kind e) DirOut).
Definition neighbor_in (g : Graph) (ei : nat) : option Neighbor :=
  e ← g_edges g !! ei; n ← NodeOf g (E_From e); Some (MkNeighbor n (E_Kind e) DirIn).

Definition cmp_neighbor : Neighbor → Neighbor → comparison :=
  cmp_then (cmp_on Nb_Direction String.compare)
    (cmp_then (cmp_on Nb_Kind String.compare) (cmp_on (λ n, N_ID (Nb_Node n)) String.compare)).

Definition Neighbors (g : Graph) (id : string) : option (list Neighbor) :=
  match g_byID g !! id with
  | None => None
  | Some _ =>
      Some (sort_cmp cmp_neighbor
              (omap (neighbor_out g) (default [] (g_out g !! id)) ++
               omap (neighbor_in g) (default [] (g_in g !! id))))
  end.

(** ** snapshot.go *)

Inductive SourceErr :=
| ErrMissingModule
| ErrNodeCap
| ErrEdgeCap
| ErrMissingID
| ErrNodeKind (kind : string)
| ErrDuplicate (id : string)
| ErrDanglingFrom (id : string)
| ErrDanglingTo (id : string)
| ErrEdgeKind (kind : string)
| ErrProvenance (p : string).

Definition validateNode (n : Node) : result SourceErr () :=
  check? guard_err (N_ID n == "") ErrMissingID in
  guard_err (negb (bool_decide (N_Kind n ∈ [KindPackage; KindFile; KindFunction])))
    (ErrNodeKind (N_Kind n)).

Definition validateEdge (e : Edge) (seen : gset string) : result SourceErr () :=
  check? guard_err (negb (bool_decide (E_From e ∈ seen))) (ErrDanglingFrom (E_From e)) in
  check? guard_err (negb (bool_decide (E_To e ∈ seen))) (ErrDanglingTo (E_To e)) in
  check? guard_err (negb (bool_decide (E_Kind e ∈ [EdgeImports; EdgeContains; EdgeCalls])))
           (ErrEdgeKind (E_Kind e)) in
  guard_err (negb (bool_decide (E_Provenance e ∈ [ProvenanceTypes; ProvenanceSyntax])))
    (ErrProvenance (E_Provenance e)).

Fixpoint check_nodes (seen : gset string) (ns : list Node) : result SourceErr (gset string) :=
  match ns with
  | [] => Ok seen
  | n :: ns =>
      check? validateNode n in
      check? guard_err (bool_decide (N_ID n ∈ seen)) (ErrDuplicate (N_ID n)) in
      check_nodes ({[ N_ID n ]} ∪ seen) ns
  end.

Fixpoint check_edges (seen : gset string) (es : list Edge) : result SourceErr () :=
  match es with
  | [] => Ok tt
  | e :: es => check? validateEdge e seen in check_edges seen es
  end.

Definition FromSnapshot (snap : Snapshot) : result SourceErr Graph :=
  check? guard_err (TrimSpace (Sn_Module snap) == "") ErrMissingModule in
  check? guard_err (maxNodes <? Z.of_nat (length (Sn_Nodes snap)))%Z ErrNodeCap in
  check? guard_err (maxEdges <? Z.of_nat (length (Sn_Edges snap)))%Z ErrEdgeCap in
  let? seen := check_nodes ∅ (Sn_Nodes snap) in
  check? check_edges seen (Sn_Edges snap) in
  Ok (index (Sn_Module snap) (Sn_Nodes snap) (Sn_Edges snap)).

(** ** A well-formed graph *)

Record graph_ok (g : Graph) : Prop := {
  go_index : g = index (g_module g) (g_nodes g) (g_edges g);
  go_module : TrimSpace (g_module g) ≠ "";
  go_ids : NoDup (N_ID <$> g_nodes g);
  go_nodes n : n ∈ g_nodes g → N_ID n ≠ "" ∧ N_Kind n ∈ [KindPackage; KindFile; KindFunction];
  go_edges e : e ∈ g_edges g →
    E_From e ∈ (N_ID <$> g_nodes g) ∧ E_To e ∈ (N_ID <$> g_nodes g) ∧
    E_Kind e ∈ [EdgeImports; EdgeContains; EdgeCalls] ∧
    E_Provenance e ∈ [ProvenanceTypes; ProvenanceSyntax];
  go_size : (Z.of_nat (length (g_nodes g)) ≤ maxNodes)%Z ∧ (Z.of_nat (length (g_edges g)) ≤ maxEdges)%Z;
}.

Lemma check_nodes_iff seen ns seen' :
  check_nodes seen ns = Ok seen' ↔
  seen' = list_to_set (N_ID <$> ns) ∪ seen ∧ NoDup (N_ID <$> ns) ∧
  (∀ n, n ∈ ns → N_ID n ∉ seen ∧ N_ID n ≠ "" ∧ N_Kind n ∈ [KindPackage; KindFile; KindFunction]).
Proof.
  revert seen. induction ns as [|n ns IH]; intros seen; cbn [check_nodes].
  { rewrite fmap_nil. simpl. split.
    - intros [= <-]. split; [set_solver|]. split; [constructor|set_solver].
    - intros (-> & _). f_equal. set_solver. }
  unfold validateNode. rewrite !rbind_ok. setoid_rewrite rbind_ok. setoid_rewrite guard_err_ok.
  setoid_rewrite IH. rewrite fmap_cons, NoDup_cons. split.
  - intros (u & (_ & H1 & H2) & _ & H3 & -> & Hnd & Hall). go_inv.
    split; [set_solver|]. split.
    + split; [|done]. intros (m & Hm & Hin)%list_elem_of_fmap. destruct (Hall m Hin) as [Hx _].
      set_solver.
    + intros m [->|Hm]%elem_of_cons; [done|]. destruct (Hall m Hm) as (Hx & ? & ?).
      split; [set_solver|done].
  - intros (-> & [Hn Hnd] & Hall). destruct (Hall n) as (Hs & Hne & Hk); [left|].
    exists tt. split.
    { exists tt. split; [by apply bool_decide_eq_false_2|].
      apply negb_false_iff. by apply bool_decide_eq_true_2. }
    exists tt. split; [by apply bool_decide_eq_false_2|]. split; [set_solver|]. split; [done|].
    intros m Hm. destruct (Hall m) as (? & ? & ?); [by right|]. split; [|done].
    rewrite elem_of_union, elem_of_singleton. intros [Hid|?]; [|done].
    apply Hn. rewrite <- Hid. apply list_elem_of_fmap. eauto.
Qed.

Lemma check_edges_iff seen es :
  check_edges seen es = Ok tt ↔ ∀ e, e ∈ es →
    E_From e ∈ seen ∧ E_To e ∈ seen ∧ E_Kind e ∈ [EdgeImports; EdgeContains; EdgeCalls] ∧
    E_Provenance e ∈ [ProvenanceTypes; ProvenanceSyntax].
Proof.
  induction es as [|e es IH]; cbn [check_edges].
  { split; [|done]. intros _ e []%not_elem_of_nil. }
  assert (validateEdge e seen = Ok tt ↔ E_From e ∈ seen ∧ E_To e ∈ seen ∧
    E_Kind e ∈ [EdgeImports; EdgeContains; EdgeCalls] ∧
    E_Provenance e ∈ [ProvenanceTypes; ProvenanceSyntax]) as He.
  { unfold validateEdge, guard_err. repeat case_bool_decide; simpl; naive_solver. }
  rewrite rbind_ok. split.
  - intros ([] & H1 & H2) e' [->|Hin]%elem_of_cons; [by apply He|by apply IH].
  - intros Hall. exists tt. split; [apply He, Hall; left|apply IH]. intros e' Hin. apply Hall. by right.
Qed.

(** A snapshot is accepted exactly when it describes a well-formed graph:
    distinct identifiers, known kinds, no dangling edge, within the caps. The
    graph built has the nodes and edges of the snapshot, and writing it out and
    reading it back gives the same graph. *)
Theorem FromSnapshot_iff snap g :
  FromSnapshot snap = Ok g ↔ Snapshot_ (Some g) = snap ∧ graph_ok g.
Proof.
  unfold FromSnapshot. repeat setoid_rewrite rbind_ok. setoid_rewrite guard_err_ok.
  setoid_rewrite check_nodes_iff. split.
  - intros (_ & H1 & _ & H2 & _ & H3 & seen & (-> & Hnd & Hn) & [] & He & [= <-]). go_inv.
    split; [by destruct snap|]. rewrite check_edges_iff in He. split; simpl; try done.
    + intros n Hin. by destruct (Hn n Hin) as (_ & ? & ?).
    + intros e Hin. destruct (He e Hin) as (Hf & Ht & ?). set_solver.
  - intros [<- [Hi Hm Hnd Hn He [Hs1 Hs2]]]. cbn [Snapshot_ Sn_Module Sn_Nodes Sn_Edges].
    exists tt. split; [by apply bool_decide_eq_false_2|].
    exists tt. split; [by apply Z.ltb_ge|]. exists tt. split; [by apply Z.ltb_ge|].
    eexists. split; [split; [done|]; split; [done|]; intros n Hin; split; [set_solver|by apply Hn]|].
    exists tt. split; [|by rewrite <- Hi].
    apply check_edges_iff. intros e Hin. destruct (He e Hin) as (Hf & Ht & ?). set_solver.
Qed.

(** ** What the indexes give *)

Lemma index_nodes_lookup ns i m id k :
  NoDup (N_ID <$> ns) →
  index_nodes i ns m !! id = Some k ↔
  (∃ n, ns !! (k - i)%nat = Some n ∧ N_ID n = id ∧ (i ≤ k)%nat) ∨
  (id ∉ (N_ID <$> ns) ∧ m !! id = Some k).
Proof.
  revert i m. induction ns as [|n ns IH]; intros i m Hnd; cbn [index_nodes].
  { split; [intros H; right; split; [apply not_elem_of_nil|done]|].
    intros [(n & Hn & _)|[_ H]]; [by rewrite lookup_nil in Hn|done]. }
  rewrite fmap_cons in *. apply NoDup_cons in Hnd as [Hn Hnd]. rewrite IH by done. split.
  - intros [(x & Hx & Hid & Hle)|[Hni Hm]].
    + left. exists x. split; [|split; [done|lia]].
      replace (k - i)%nat with (S (k - S i)) by lia. done.
    + destruct (decide (N_ID n = id)) as [<-|Hne].
      * rewrite lookup_insert_eq in Hm. injection Hm as <-. left. exists n.
        rewrite Nat.sub_diag. by split_and!.
      * rewrite lookup_insert_ne in Hm by done. right. rewrite not_elem_of_cons. by split.
  - intros [(x & Hx & Hid & Hle)|[Hni Hm]].
    + destruct (decide (k = i)) as [->|Hne].
      * rewrite Nat.sub_diag in Hx. injection Hx as <-. right. subst id.
        by rewrite lookup_insert_eq.
      * left. exists x. replace (k - i)%nat with (S (k - S i)) in Hx by lia. split_and!; [done..|lia].
    + rewrite not_elem_of_cons in Hni. destruct Hni. right. by rewrite lookup_insert_ne.
Qed.

Lemma NodeOf_iff g id n :
  graph_ok g → NodeOf g id = Some n ↔ n ∈ g_nodes g ∧ N_ID n = id.
Proof.
  intros Hg. pose proof (go_ids g Hg) as Hnd. unfold NodeOf.
  assert (g_byID g = index_nodes 0 (g_nodes g) ∅) as -> by (by rewrite (go_index g Hg)).
  rewrite bind_Some. setoid_rewrite index_nodes_lookup; [|done]. split.
  - intros (k & [(x & Hx & Hid & _)|[_ H]] & Hk); [|by rewrite lookup_empty in H].
    rewrite Nat.sub_0_r in Hx. rewrite Hx in Hk. injection Hk as <-.
    split; [by eapply list_elem_of_lookup_2|done].
  - intros [[k Hk]%list_elem_of_lookup Hid]. exists k. split; [|done]. left. exists n.
    rewrite Nat.sub_0_r. split_and!; [done..|lia].
Qed.

Lemma index_edges_elem key es i m id k :
  k ∈ default [] (index_edges key i es m !! id) ↔
  k ∈ default [] (m !! id) ∨ (∃ e, es !! (k - i)%nat = Some e ∧ key e = id ∧ (i ≤ k)%nat).
Proof.
  revert i m. induction es as [|e es IH]; intros i m; cbn [index_edges].
  { split; [by left|]. intros [|(e & He & _)]; [done|by rewrite lookup_nil in He]. }
  rewrite IH. unfold push. assert (
    k ∈ default [] (<[key e := default [] (m !! key e) ++ [i]]> m !! id) ↔
    k ∈ default [] (m !! id) ∨ (k = i ∧ key e = id)) as ->.
  { destruct (decide (key e = id)) as [<-|Hne].
    - rewrite lookup_insert_eq. simpl. rewrite elem_of_app, list_elem_of_singleton. naive_solver.
    - rewrite lookup_insert_ne by done. naive_solver. }
  split.
  - intros [[?|[-> Hk]]|(x & Hx & Hk & Hle)]; [by left|right; exists e; by rewrite Nat.sub_diag|].
    right. exists x. split; [|split; [done|lia]]. by replace (k - i)%nat with (S (k - S i)) by lia.
  - intros [?|(x & Hx & Hk & Hle)]; [by left; left|].
    destruct (decide (k = i)) as [->|Hne].
    + rewrite Nat.sub_diag in Hx. injection Hx as <-. by left; right.
    + right. exists x. replace (k - i)%nat with (S (k - S i)) in Hx by lia. split_and!; [done..|lia].
Qed.

Lemma index_edges_top key es id k :
  k ∈ default [] (index_edges key 0 es ∅ !! id) ↔ ∃ e, es !! k = Some e ∧ key e = id.
Proof.
  rewrite index_edges_elem, lookup_empty. simpl. setoid_rewrite Nat.sub_0_r.
  split; [intros [[]%not_elem_of_nil|(e & ? & ? & _)]; eauto|intros (e & ? & ?); right; exists e; split_and!; [done..|lia]].
Qed.

(** In a well-formed graph the neighbors of a known node are exactly the ends
    of its edges, with the kind and direction of the edge; there are none for an
    unknown one. *)
Lemma Neighbors_iff g id :
  graph_ok g →
  match Neighbors g id with
  | None => id ∉ (N_ID <$> g_nodes g)
  | Some ns => id ∈ (N_ID <$> g_nodes g) ∧ ∀ nb, nb ∈ ns ↔ ∃ e, e ∈ g_edges g ∧ Nb_Kind nb = E_Kind e ∧
      Nb_Node nb ∈ g_nodes g ∧
      ((Nb_Direction nb = DirOut ∧ E_From e = id ∧ N_ID (Nb_Node nb) = E_To e) ∨
       (Nb_Direction nb = DirIn ∧ E_To e = id ∧ N_ID (Nb_Node nb) = E_From e))
  end.
Proof.
  intros Hg. unfold Neighbors.
  assert (is_Some (g_byID g !! id) ↔ id ∈ (N_ID <$> g_nodes g)) as Hid.
  { assert (g_byID g = index_nodes 0 (g_nodes g) ∅) as -> by (by rewrite (go_index g Hg)).
    rewrite list_elem_of_fmap. split.
    - intros [k Hk]. apply index_nodes_lookup in Hk as [(n & Hn & Hnid & _)|[_ Hk]];
        [|by rewrite lookup_empty in Hk|apply Hg].
      exists n. split; [done|]. by eapply list_elem_of_lookup_2.
    - intros (n & -> & [k Hk]%list_elem_of_lookup). exists k. apply index_nodes_lookup; [apply Hg|].
      left. exists n. rewrite Nat.sub_0_r. split_and!; [done..|lia]. }
  destruct (g_byID g !! id) as [i|]; [|intros Hin; by apply Hid in Hin as []].
  split; [by apply Hid|]. intros nb.
  assert (g_out g = index_edges E_From 0 (g_edges g) ∅ ∧ g_in g = index_edges E_To 0 (g_edges g) ∅)
    as [-> ->] by (rewrite (go_index g Hg); done).
  rewrite elem_of_sort_cmp, elem_of_app, !list_elem_of_omap.
  setoid_rewrite index_edges_top. split.
  - intros [(k & (e & He & Hf) & Hx)|(k & (e & He & Hf) & Hx)];
      unfold neighbor_out, neighbor_in in Hx; rewrite He in Hx; simpl in Hx;
      apply bind_Some in Hx as (n & [Hn Hni]%NodeOf_iff & [= <-]); try done;
      exists e; (split; [by eapply list_elem_of_lookup_2|]); simpl; naive_solver.
  - intros (e & [k Hk]%list_elem_of_lookup & Hkind & Hn & Hends).
    destruct Hends as [(Hd & Hf & Hni)|(Hd & Hf & Hni)]; [left|right];
      (exists k; split; [eauto|]); unfold neighbor_out, neighbor_in; rewrite Hk; simpl;
      apply bind_Some; exists (Nb_Node nb); (split; [by apply NodeOf_iff|]);
      destruct nb; simpl in *; by subst.
Qed.

End source.
