(* ===== verification/Graph.v ===== *)
(** * The runtime graph: [internal/graph/graph.go]

    [Module graph] models [Build]: services, edges, paths and entry routes that a
    batch of spans shows. The maps of [Build] are [gmap]s; ranging over the spans
    of a trace is a fold over a list of their identifiers, and the theorems hold
    for every order of that list. *)

From S2P Require Import Prelude GoStrings Ingest.
Import ingest.

Module graph.

Definition ProvenanceObservedParent : string := "observed_parent".
Definition ProvenanceTraceEntry : string := "trace_entry".
Definition maxPaths : nat := 100.
Definition maxServices : nat := 500.
Definition maxEdges : nat := 2000.

Record Service := MkService { Sv_Name : string; Sv_SpanCount : Z }.
Record Edge := MkEdge {
  Ed_From : string;
  Ed_To : string;
  Ed_Count : Z;
  Ed_Provenance : string;
}.
Record Path := MkPath {
  Pa_Services : list string;
  Pa_Traces : Z;
  Pa_Provenance : string;
}.
Record EntryRoute := MkEntryRoute {
  En_TraceID : string;
  En_SpanID : string;
  En_Method : string;
  En_Route : string;
}.

Record Snapshot := MkSnapshot {
  Gs_entryBySpan : gmap (string * string) EntryRoute;
  Gs_EntryRoutes : list EntryRoute;
  Gs_Services : list Service;
  Gs_Edges : list Edge;
  Gs_Paths : list Path;
  Gs_SpanCount : Z;
  Gs_TraceCount : Z;
}.

(** The spans of one trace by identifier. *)
Notation spans_by_id := (gmap string Span).

Definition routedServer (s : Span) : bool :=
  EqualFold (TrimSpace (Span_Kind s)) "server" &&
  (TrimSpace (Span_HTTPMethod s) != "") && (TrimSpace (Span_HTTPRoute s) != "").

(** ** Entry routes *)

Definition zeroEntry : EntryRoute := MkEntryRoute "" "" "" "".
Record ancestry := MkAncestry { an_complete : bool; an_entry : EntryRoute }.
Definition zeroAncestry : ancestry := MkAncestry false zeroEntry.

Section entries.
  Context (tid : string) (byID : spans_by_id).

(** The inner loop: from [cursor] up to a resolved span, a root, a missing parent
    or a span seen before. It gives the spans passed, lowest first. *)
Fixpoint climb (fuel : nat) (resolved : gmap string ancestry) (seen : gset string)
    (chain : list string) (cursor : string) : option (list string * ancestry) :=
  match fuel with
  | O => None
  | S fuel =>
      match resolved !! cursor with
      | Some cached => Some (chain, cached)
      | None =>
          match byID !! cursor with
          | None => Some (chain, zeroAncestry)
          | Some s =>
              if bool_decide (cursor ∈ seen) then Some (chain, zeroAncestry)
              else
                let chain := chain ++ [cursor] in
                if Span_ParentSpanID s == "" then Some (chain, MkAncestry true zeroEntry)
                else climb fuel resolved ({[ cursor ]} ∪ seen) chain (Span_ParentSpanID s)
          end
      end
  end.

(** The entry that span [id] adds to the ancestry of its parent. *)
Definition extend (id : string) (parent : ancestry) : ancestry :=
  match byID !! id with
  | Some s =>
      if an_complete parent && (En_SpanID (an_entry parent) == "") && routedServer s
      then MkAncestry true (MkEntryRoute tid id (Span_HTTPMethod s) (Span_HTTPRoute s))
      else parent
  | None => parent
  end.

(** From the top of the chain down. *)
Definition unwind (chain : list string) (parent : ancestry) (resolved : gmap string ancestry)
    : ancestry * gmap string ancestry :=
  foldr (λ id pr, let a := extend id pr.1 in (a, <[id := a]> pr.2)) (parent, resolved) chain.

(** Enough for every span of the trace to be passed once. *)
Definition climb_fuel : nat := S (size byID).

Definition resolve_one (resolved : gmap string ancestry) (id : string) : gmap string ancestry :=
  match climb climb_fuel resolved ∅ [] id with
  | None => resolved
  | Some (chain, parent) => (unwind chain parent resolved).2
  end.

Definition resolve_all (order : list string) : gmap string ancestry := foldl resolve_one ∅ order.

Definition entry_found (a : ancestry) : option EntryRoute :=
  if an_complete a && (En_SpanID (an_entry a) != "") then Some (an_entry a) else None.

(** [traceEntries] for one order of the range over the spans. *)
Definition traceEntries_in (order : list string) : gmap string EntryRoute :=
  omap entry_found (resolve_all order).

Definition traceEntries : gmap string EntryRoute := traceEntries_in (map_to_list byID).*1.

End entries.

(** ** Paths *)

Definition nul_str : string := String (byte 0) "".

Section paths.
  Context (byID : spans_by_id).

(** The spans whose parent is [id]. *)
Definition children (id : string) : list string :=
  (filter (λ kv, Span_ParentSpanID kv.2 = id ∧ id ≠ "") (map_to_list byID)).*1.

Definition is_root (s : Span) : bool :=
  (Span_ParentSpanID s == "") || bool_decide (byID !! Span_ParentSpanID s = None).

(** The services so far with the service of one more span. *)
Definition add_service (services : list string) (name : string) : list string :=
  if name == "" then services
  else if bool_decide (last services = Some name) then services else services ++ [name].

(** The keys of the paths below [id]. *)
Fixpoint walkPaths (fuel : nat) (id : string) (services : list string) (visiting : gset string)
    : list string :=
  match fuel with
  | O => []
  | S fuel =>
      match byID !! id with
      | None => []
      | Some s =>
          if bool_decide (id ∈ visiting) then []
          else
            let next := add_service services (Span_ServiceName s) in
            if bool_decide (children id = [])
            then (if bool_decide (next = []) then [] else [Join next nul_str])
            else children id ≫= λ child, walkPaths fuel child next ({[ id ]} ∪ visiting)
      end
  end.

Definition roots : list string := (filter (λ kv, is_root kv.2 = true) (map_to_list byID)).*1.

(** The keys one trace contributes to. *)
Definition trace_paths : list string := roots ≫= λ id, walkPaths (S (size byID)) id [] ∅.

(** The keys of the edges of one trace, once per span. *)
Definition trace_edges : list string :=
  omap (λ kv,
    let pid := Span_ParentSpanID kv.2 in
    if pid == "" then None
    else match byID !! pid with
         | None => None
         | Some parent =>
             let from := Span_ServiceName parent in
             let to := Span_ServiceName kv.2 in
             if (from == "") || (to == "") || (from == to) then None
             else Some (from +:+ nul_str +:+ to)
         end) (map_to_list byID).
End paths.

(** The recursion ends before its fuel does: a span is not entered twice. *)
Lemma walkPaths_fuel byID fuel fuel' id services visiting :
  size (dom byID ∖ visiting) < fuel → size (dom byID ∖ visiting) < fuel' →
  walkPaths byID fuel id services visiting = walkPaths byID fuel' id services visiting.
Proof.
  revert fuel' id services visiting.
  induction fuel as [|fuel IH]; intros [|fuel'] id services visiting H1 H2; [lia..|]. cbn.
  destruct (byID !! id) as [s|] eqn:Es; [|done]. case_bool_decide as Hv; [done|].
  case_bool_decide; [done|]. assert (id ∈ dom byID) by (by eapply elem_of_dom_2).
  assert (dom byID ∖ ({[id]} ∪ visiting) ⊂ dom byID ∖ visiting) as Hlt%subset_size by set_solver.
  apply list_bind_ext; [|done]. intros c. apply IH; lia.
Qed.

(** ** Build *)

(** Counting occurrences: the maps [svcCount] and [edgeCount]. *)
Definition tally (l : list string) : gmap string Z :=
  foldl (λ m k, <[k := (default 0 (m !! k) + 1)%Z]> m) ∅ l.

Definition kept_spans (spans : list Span) : list Span :=
  filter (λ s, Span_TraceID s ≠ "" ∧ Span_SpanID s ≠ "") spans.

(** The map [traces]: a later span replaces an earlier one with its identifier. *)
Definition add_span (traces : gmap string spans_by_id) (s : Span) : gmap string spans_by_id :=
  let byID := default ∅ (traces !! Span_TraceID s) in
  <[Span_TraceID s := <[Span_SpanID s := s]> byID]> traces.
Definition group (spans : list Span) : gmap string spans_by_id := foldl add_span ∅ spans.

Definition cmp_service : Service → Service → comparison :=
  cmp_then (cmp_desc (cmp_on Sv_SpanCount Z.compare)) (cmp_on Sv_Name String.compare).
Definition servicesFromCount (counts : gmap string Z) : list Service :=
  take maxServices (sort_cmp cmp_service ((λ kv, MkService kv.1 kv.2) <$> map_to_list counts)).

Definition cmp_edge : Edge → Edge → comparison :=
  cmp_then (cmp_desc (cmp_on Ed_Count Z.compare))
    (cmp_then (cmp_on Ed_From String.compare) (cmp_on Ed_To String.compare)).
(** [strings.Cut] at the separator. *)
Definition edge_of (kv : string * Z) : option Edge :=
  match SplitN2 kv.1 (byte 0) with
  | Some (from, to) => Some (MkEdge from to kv.2 ProvenanceObservedParent)
  | None => None
  end.
Definition edgesFromCount (counts : gmap string Z) : list Edge :=
  take maxEdges (sort_cmp cmp_edge (omap edge_of (map_to_list counts))).

Definition cmp_path : Path → Path → comparison :=
  cmp_then (cmp_desc (cmp_on Pa_Traces Z.compare))
    (cmp_on (λ p, Join (Pa_Services p) "/") String.compare).
Definition path_of (kv : string * gset string) : Path :=
  MkPath (if kv.1 == "" then [] else Split kv.1 (byte 0)) (Z.of_nat (size kv.2))
    ProvenanceObservedParent.
Definition pathsFromTraces (m : gmap string (gset string)) : list Path :=
  take maxPaths (sort_cmp cmp_path (path_of <$> map_to_list m)).

(** The map [pathTraces] from the keys of each trace. *)
Definition add_path (m : gmap string (gset string)) (kt : string * string) : gmap string (gset string) :=
  <[kt.1 := {[ kt.2 ]} ∪ default ∅ (m !! kt.1)]> m.
Definition path_traces (traces : gmap string spans_by_id) : gmap string (gset string) :=
  foldl add_path ∅
    (map_to_list traces ≫= λ tb, (λ key, (key, tb.1)) <$> trace_paths tb.2).

Definition cmp_entry : EntryRoute → EntryRoute → comparison :=
  cmp_then (cmp_on En_TraceID String.compare) (cmp_on En_SpanID String.compare).

(** The entries of all traces, by trace and span. *)
Definition all_entries (traces : gmap string spans_by_id) : list (string * string * EntryRoute) :=
  map_to_list traces ≫= λ tb,
    (λ ie, (tb.1, ie.1, ie.2)) <$> map_to_list (traceEntries tb.1 tb.2).

Definition Build (spans : list Span) : Snapshot :=
  let kept := kept_spans spans in
  let traces := group kept in
  let entries := all_entries traces in
  MkSnapshot
    (list_to_map entries)
    (sort_cmp cmp_entry
       (omap (λ e, if En_SpanID e.2 == e.1.2 then Some e.2 else None) entries))
    (servicesFromCount (tally (filter (λ n, n ≠ "") (Span_ServiceName <$> kept))))
    (edgesFromCount (tally (map_to_list traces ≫= λ tb, trace_edges tb.2)))
    (pathsFromTraces (path_traces traces))
    (Z.of_nat (length kept)) (Z.of_nat (size traces)).

Definition EntryForSpan (s : Snapshot) (traceID spanID : string) : option EntryRoute :=
  Gs_entryBySpan s !! (traceID, spanID).

(** ** Ancestries *)

Section lineage.
  Context (find : string → option Span).

(** [lineage id l]: [l] is [id], its parent, and so on up to a span without a
    parent; every span on the way was received. *)
Inductive lineage : string → list string → Prop :=
| lineage_root id s :
    find id = Some s → Span_ParentSpanID s = "" → lineage id [id]
| lineage_step id s l :
    find id = Some s → Span_ParentSpanID s ≠ "" →
    lineage (Span_ParentSpanID s) l → lineage id (id :: l).

(** The root-most routed server of a lineage. *)
Definition entry_in (tid : string) (l : list string) (e : EntryRoute) : Prop :=
  ∃ low id high s,
    l = low ++ id :: high ∧ find id = Some s ∧ routedServer s = true ∧
    (∀ i t, i ∈ high → find i = Some t → routedServer t = false) ∧
    e = MkEntryRoute tid id (Span_HTTPMethod s) (Span_HTTPRoute s).

Definition parent_rel (x y : string) : Prop :=
  ∃ s, find x = Some s ∧ Span_ParentSpanID s = y ∧ y ≠ "".

Lemma lineage_head id l : lineage id l → is_Some (find id).
Proof. destruct 1; eauto. Qed.

Lemma lineage_found id l i : lineage id l → i ∈ l → is_Some (find i).
Proof. induction 1; set_solver. Qed.

Lemma lineage_functional id l k : lineage id l → lineage id k → l = k.
Proof.
  intros Hl. revert k. induction Hl as [id s Hs Hp|id s l Hs Hp Hl IH]; intros k Hk;
    inversion Hk; simplify_eq; [done|]. f_equal. auto.
Qed.

Lemma lineage_parent x y l : parent_rel x y → lineage x l → ∃ k, l = x :: k ∧ lineage y k.
Proof. intros (s & Hs & <- & Hne) Hl. inversion Hl; simplify_eq. eauto. Qed.

Lemma lineage_tc x y l : tc parent_rel x y → lineage x l →
  ∃ k, lineage y k ∧ length k < length l.
Proof.
  intros Ht. revert l. induction Ht as [x y Hxy|x y z Hxy _ IH]; intros l Hl.
  - destruct (lineage_parent x y l Hxy Hl) as (k & -> & Hk). exists k. simpl. auto with lia.
  - destruct (lineage_parent x y l Hxy Hl) as (k & -> & Hk).
    destruct (IH k Hk) as (k' & Hk' & ?). exists k'. simpl. auto with lia.
Qed.

(** A span among its own ancestors has no lineage. *)
Lemma lineage_acyclic x l : tc parent_rel x x → ¬ lineage x l.
Proof.
  intros Ht Hl. destruct (lineage_tc x x l Ht Hl) as (k & Hk & ?).
  rewrite (lineage_functional x l k Hl Hk) in *. lia.
Qed.
End lineage.

(** Only what is found matters. *)
#[export] Instance lineage_proper :
  Proper (pointwise_relation string (=) ==> (=) ==> (=) ==> iff) lineage.
Proof.
  assert (∀ f g id l, pointwise_relation string (=) f g → lineage f id l → lineage g id l) as H.
  { intros f g id l Hfg. induction 1 as [id s Hs|id s l Hs ? _ IH]; rewrite Hfg in Hs;
      [by eapply lineage_root|by eapply lineage_step]. }
  intros f g Hfg ? id -> ? l ->. split; apply H; [done|by symmetry].
Qed.
#[export] Instance entry_in_proper :
  Proper (pointwise_relation string (=) ==> (=) ==> (=) ==> (=) ==> iff) entry_in.
Proof.
  intros f g Hfg ? tid -> ? l -> ? e ->. unfold entry_in. by setoid_rewrite Hfg.
Qed.

Section resolve.
  Context (tid : string) (byID : spans_by_id).
  Notation find := (λ i, byID !! i).
  Notation extend := (extend tid byID).

Definition rootAncestry : ancestry := MkAncestry true zeroEntry.

(** What [resolved] should hold for a span. *)
Definition truth (id : string) (a : ancestry) : Prop :=
  (∃ l, lineage find id l ∧ a = foldr extend rootAncestry l) ∨
  ((∀ l, ¬ lineage find id l) ∧ a = zeroAncestry).

Definition sound (resolved : gmap string ancestry) : Prop :=
  map_Forall truth resolved.

(** The ways [climb] can end. *)
Inductive climbed (resolved : gmap string ancestry) : string → list string → ancestry → Prop :=
| climbed_cached c a : resolved !! c = Some a → climbed resolved c [] a
| climbed_dead c : (∀ l, ¬ lineage find c l) → climbed resolved c [] zeroAncestry
| climbed_root c s :
    byID !! c = Some s → Span_ParentSpanID s = "" → climbed resolved c [c] rootAncestry
| climbed_step c s l a :
    byID !! c = Some s → Span_ParentSpanID s ≠ "" →
    climbed resolved (Span_ParentSpanID s) l a → climbed resolved c (c :: l) a.

Lemma climb_climbed fuel resolved seen chain c chain' a :
  (∀ x, x ∈ seen → tc (parent_rel find) x c) →
  climb byID fuel resolved seen chain c = Some (chain', a) →
  ∃ up, chain' = chain ++ up ∧ climbed resolved c up a ∧
    (is_Some (byID !! c) → c ∉ seen → resolved !! c = None → c ∈ up).
Proof.
  revert seen chain c. induction fuel as [|fuel IH]; intros seen chain c Hseen; simpl; [done|].
  destruct (resolved !! c) as [b|] eqn:Er.
  { intros ?; simplify_eq. exists []. rewrite app_nil_r. split_and!; [done|by apply climbed_cached|congruence]. }
  destruct (byID !! c) as [s|] eqn:Es; last first.
  { intros ?; simplify_eq. exists []. rewrite app_nil_r. split_and!; [done| |by intros []].
    apply climbed_dead. intros l Hl. inversion Hl; simplify_eq/=. }
  case_bool_decide as Hc.
  { intros ?; simplify_eq. exists []. rewrite app_nil_r. split_and!; [done| |done].
    apply climbed_dead. intros l. by apply lineage_acyclic, Hseen. }
  case_bool_decide as Hp.
  { intros ?; simplify_eq. exists [c]. split_and!; [done| |set_solver]. by eapply climbed_root. }
  intros (up & -> & Hup & _)%IH.
  - exists (c :: up). rewrite <- (assoc_L (++)). split_and!; [done| |set_solver].
    by eapply climbed_step.
  - assert (parent_rel find c (Span_ParentSpanID s)) by (exists s; eauto).
    intros x [->%elem_of_singleton|Hx]%elem_of_union; [by apply tc_once|].
    eapply tc_r; eauto.
Qed.

Lemma extend_zero l : foldr extend zeroAncestry l = zeroAncestry.
Proof.
  induction l as [|id l IH]; simpl; [done|]. rewrite IH. unfold graph.extend.
  by destruct (byID !! id).
Qed.

Lemma climbed_truth resolved c l a :
  sound resolved → climbed resolved c l a → truth c (foldr extend a l).
Proof.
  intros Hr. induction 1 as [c a Ha|c Hc|c s Hs Hp|c s l a Hs Hp _ [(k & Hk & IH)|(Hk & IH)]].
  - by apply Hr.
  - by right.
  - left. exists [c]. eauto using lineage.
  - left. exists (c :: k). split; [by eapply lineage_step|]. simpl. by rewrite IH.
  - right. split; [|].
    + intros k Hl. inversion Hl; simplify_eq/=. by eapply Hk.
    + simpl. rewrite IH. apply (extend_zero [c]).
Qed.

Lemma unwind_fst l a resolved : (unwind tid byID l a resolved).1 = foldr extend a l.
Proof. induction l as [|id l IH]; simpl; [done|]. by rewrite IH. Qed.

Lemma unwind_sound resolved c l a :
  sound resolved → climbed resolved c l a → sound (unwind tid byID l a resolved).2.
Proof.
  intros Hr Hcl. induction Hcl as [c a Ha|c Hc|c s Hs Hp|c s l a Hs Hp Hcl IH]; [done..| |].
  - apply map_Forall_insert_2; [|done].
    by apply (climbed_truth resolved c [c] rootAncestry); eauto using climbed.
  - simpl. apply map_Forall_insert_2; [|done]. rewrite unwind_fst.
    by apply (climbed_truth resolved c (c :: l) a); eauto using climbed.
Qed.

Lemma unwind_dom l a resolved i :
  is_Some ((unwind tid byID l a resolved).2 !! i) ↔ i ∈ l ∨ is_Some (resolved !! i).
Proof.
  induction l as [|id l IH]; simpl; [set_solver|]. rewrite lookup_insert_is_Some', IH.
  rewrite elem_of_cons. naive_solver.
Qed.

(** [climb_fuel] is enough: the loop ends. *)
Lemma climb_total fuel resolved seen chain c :
  size (dom byID ∖ seen) < fuel → is_Some (climb byID fuel resolved seen chain c).
Proof.
  revert seen chain c. induction fuel as [|fuel IH]; intros seen chain c Hf; [lia|]. simpl.
  destruct (resolved !! c); [done|]. destruct (byID !! c) as [s|] eqn:Es; [|done].
  case_bool_decide as Hc; [done|]. case_bool_decide; [done|]. apply IH.
  assert (c ∈ dom byID) by (by eapply elem_of_dom_2).
  assert (dom byID ∖ ({[c]} ∪ seen) ⊂ dom byID ∖ seen) as Hlt%subset_size by set_solver. lia.
Qed.

Lemma resolve_one_spec resolved id :
  sound resolved →
  sound (resolve_one tid byID resolved id) ∧
  (∀ i, is_Some (resolved !! i) → is_Some (resolve_one tid byID resolved id !! i)) ∧
  (is_Some (byID !! id) → is_Some (resolve_one tid byID resolved id !! id)).
Proof.
  intros Hr. unfold resolve_one.
  destruct (climb_total (climb_fuel byID) resolved ∅ [] id) as [[chain a] Hcl].
  { unfold climb_fuel. rewrite <- size_dom. rewrite difference_empty_L. lia. }
  rewrite Hcl. apply climb_climbed in Hcl as (up & -> & Hup & Hin); [|set_solver].
  simpl. split_and!; [by eapply unwind_sound|intros i ?; apply unwind_dom; auto|].
  intros Hid. apply unwind_dom. destruct (resolved !! id) eqn:E; [eauto|left; set_solver].
Qed.

Lemma resolve_all_spec order :
  sound (resolve_all tid byID order) ∧
  ∀ id, id ∈ order → is_Some (byID !! id) → is_Some (resolve_all tid byID order !! id).
Proof.
  unfold resolve_all. induction order as [|x order [IH1 IH2]] using rev_ind; simpl.
  { split; [by apply map_Forall_empty|set_solver]. }
  rewrite foldl_snoc. destruct (resolve_one_spec _ x IH1) as (H1 & H2 & H3).
  split; [done|]. intros id [?| ->%list_elem_of_singleton]%elem_of_app; auto.
Qed.

Context (Hne : byID !! "" = None).

(** Going down, [extend] keeps the first routed server it meets. *)
Lemma extend_entry l :
  (∀ i, i ∈ l → is_Some (byID !! i)) →
  let a := foldr extend rootAncestry l in
  an_complete a = true ∧
  ((an_entry a = zeroEntry ∧ ∀ i t, i ∈ l → byID !! i = Some t → routedServer t = false) ∨
   (En_SpanID (an_entry a) ≠ "" ∧ entry_in find tid l (an_entry a))).
Proof using Hne.
  induction l as [|id l IH]; simpl; intros Hl; [split; [done|left; set_solver]|].
  destruct IH as (Hc & IH); [set_solver|]. destruct (Hl id) as [s Hs]; [set_solver|].
  generalize dependent (foldr extend rootAncestry l). intros a Hc IH.
  unfold graph.extend. rewrite Hs, Hc. simpl.
  destruct IH as [[He Hno]|(Hid & low & i & high & t & -> & Hi)].
  - rewrite He. simpl. destruct (routedServer s) eqn:Er; simpl.
    + split; [done|]. right. split; [intros ->; congruence|]. by exists [], id, l, s.
    + split; [done|]. left. split; [done|]. intros i t [->|Hi]%elem_of_cons Ht; [congruence|eauto].
  - rewrite bool_decide_eq_false_2 by done. simpl. split; [done|]. right. split; [done|].
    exists (id :: low), i, high, t. by destruct Hi.
Qed.

Lemma entry_found_iff id l e :
  lineage find id l →
  entry_found (foldr extend rootAncestry l) = Some e ↔ entry_in find tid l e.
Proof using Hne.
  intros Hl. pose proof (λ i, lineage_found find id l i Hl) as Hf.
  destruct (extend_entry l Hf) as (Hc & [[He Hno]|[Hid Hin]]); unfold entry_found; rewrite Hc.
  - rewrite He. simpl. split; [done|]. intros (low & i & high & s & -> & Hi & Hr & _).
    rewrite (Hno i s) in Hr; [done|set_solver|done].
  - rewrite bool_decide_eq_false_2 by done. simpl. split; [by intros [= <-]|].
    intros Hin'. f_equal. clear Hid.
    destruct Hin as (low & i & high & s & Hl1 & Hi & Hr & Hno & ->).
    destruct Hin' as (low' & i' & high' & s' & Hl2 & Hi' & Hr' & Hno' & ->).
    assert (i = i') as <-; [|by simplify_eq].
    rewrite Hl1 in Hl2. apply app_eq_inv in Hl2 as [(k & -> & Hk)|(k & -> & Hk)];
      destruct k as [|j k]; simplify_eq/=; [done| |done|].
    + by rewrite (Hno' i s) in Hr; [|set_solver|].
    + by rewrite (Hno i' s') in Hr'; [|set_solver|].
Qed.

(** Whatever order the spans are visited in, the entry found for a span is the
    root-most routed server of its lineage, if it has a lineage. *)
Lemma traceEntries_in_iff order id e :
  (∀ i, is_Some (byID !! i) → i ∈ order) →
  traceEntries_in tid byID order !! id = Some e ↔
  ∃ l, lineage find id l ∧ entry_in find tid l e.
Proof using Hne.
  intros Hord. destruct (resolve_all_spec order) as [Hs Hd].
  unfold traceEntries_in. rewrite lookup_omap_Some. split.
  - intros (a & Ha & Hr). destruct (Hs id a Hr) as [(l & Hl & ->)|[_ ->]]; [|done].
    exists l. by rewrite <- (entry_found_iff id l e).
  - intros (l & Hl & He).
    assert (is_Some (byID !! id)) as Hid by (by inversion Hl; simplify_eq/=; eauto).
    destruct (Hd id (Hord id Hid) Hid) as [a Ha]. exists a. split; [|done].
    destruct (Hs id a Ha) as [(k & Hk & ->)|[Hno _]]; [|by apply Hno in Hl].
    rewrite (lineage_functional find id k l Hk Hl). by apply (entry_found_iff id l e).
Qed.

Lemma traceEntries_iff id e :
  traceEntries tid byID !! id = Some e ↔ ∃ l, lineage find id l ∧ entry_in find tid l e.
Proof using Hne.
  apply traceEntries_in_iff. intros i [s Hs]. apply list_elem_of_fmap.
  exists (i, s). by rewrite elem_of_map_to_list.
Qed.

End resolve.

(** ** What [Build] gives *)

(** The span of a batch with the given identifiers: the last one received. *)
Definition find_span (spans : list Span) (tid id : string) : option Span :=
  if (tid == "") || (id == "") then None
  else last (filter (λ s, Span_TraceID s = tid ∧ Span_SpanID s = id) spans).

Definition trace (spans : list Span) (tid : string) : spans_by_id :=
  default ∅ (group (kept_spans spans) !! tid).

Lemma group_lookup spans tid id :
  default ∅ (group spans !! tid) !! id =
  last (filter (λ s, Span_TraceID s = tid ∧ Span_SpanID s = id) spans).
Proof.
  unfold group. induction spans as [|s spans IH] using rev_ind; [done|].
  rewrite foldl_snoc, filter_app, filter_cons, filter_nil. unfold add_span at 1.
  destruct (decide (Span_TraceID s = tid)) as [<-|Ht].
  - rewrite lookup_insert_eq. simpl. destruct (decide (Span_SpanID s = id)) as [<-|Hi].
    + rewrite lookup_insert_eq, decide_True by done. by rewrite last_snoc.
    + rewrite lookup_insert_ne, decide_False by naive_solver. by rewrite app_nil_r.
  - rewrite lookup_insert_ne, decide_False by naive_solver. by rewrite app_nil_r.
Qed.

Lemma trace_lookup spans tid id : trace spans tid !! id = find_span spans tid id.
Proof.
  unfold trace, find_span, kept_spans. rewrite group_lookup, list_filter_filter.
  destruct (decide (tid = "" ∨ id = "")) as [Hor|Hn].
  - replace ((tid == "") || (id == "")) with true
      by (destruct Hor as [->| ->]; by rewrite ?orb_true_r).
    rewrite filter_none; [done|]. naive_solver.
  - rewrite !bool_decide_eq_false_2 by tauto. simpl. f_equal.
    apply list_filter_iff. naive_solver.
Qed.

Lemma elem_of_all_entries traces tid id e :
  (tid, id, e) ∈ all_entries traces ↔
  ∃ byID, traces !! tid = Some byID ∧ traceEntries tid byID !! id = Some e.
Proof.
  unfold all_entries. rewrite list_elem_of_bind. split.
  - intros ([t byID] & Hin & Ht). apply list_elem_of_fmap in Hin as ([i f] & [= -> -> ->] & Hin).
    apply elem_of_map_to_list in Hin, Ht. eauto.
  - intros (byID & Ht & He). exists (tid, byID). rewrite elem_of_map_to_list. split; [|done].
    apply list_elem_of_fmap. exists (id, e). by rewrite elem_of_map_to_list.
Qed.

Lemma EntryForSpan_all spans tid id e :
  EntryForSpan (Build spans) tid id = Some e ↔
  (tid, id, e) ∈ all_entries (group (kept_spans spans)).
Proof.
  unfold EntryForSpan, Build. cbn [Gs_entryBySpan]. split; [apply elem_of_list_to_map_2|].
  intros He. apply elem_of_list_to_map_1'; [|done]. intros f Hf.
  apply elem_of_all_entries in He, Hf. naive_solver.
Qed.

(** The entry route that [Build] gives for a span is the root-most routed HTTP
    server span among the span and its ancestors, and it is given exactly when that
    ancestry is complete: every parent up to a span without a parent was received
    (the last span of an identifier counts) and there is no cycle. *)
Theorem EntryForSpan_iff spans tid id e :
  EntryForSpan (Build spans) tid id = Some e ↔
  ∃ l, lineage (find_span spans tid) id l ∧ entry_in (find_span spans tid) tid l e.
Proof.
  rewrite EntryForSpan_all, elem_of_all_entries.
  assert (pointwise_relation string (=) (find_span spans tid) (λ i, trace spans tid !! i)) as Hp
    by (intros i; by rewrite trace_lookup).
  setoid_rewrite Hp. unfold trace.
  destruct (group (kept_spans spans) !! tid) as [byID|] eqn:Et; simpl.
  - rewrite <- traceEntries_iff; [naive_solver|].
    specialize (Hp ""). unfold trace in Hp. rewrite Et in Hp. simpl in Hp. rewrite <- Hp.
    unfold find_span. by rewrite orb_comm.
  - split; [naive_solver|]. by intros (l & [s Hs]%lineage_head & _).
Qed.

(** ** Dependencies between services *)

Lemma tally_lookup l k :
  tally l !! k = if bool_decide (k ∈ l) then Some (count (λ x, x == k) l) else None.
Proof.
  unfold tally. induction l as [|x l IH] using rev_ind; [done|].
  rewrite foldl_snoc, count_app. cbn [count foldr].
  destruct (decide (x = k)) as [->|Hne].
  - rewrite lookup_insert_eq, IH, (bool_decide_eq_true_2 (k = k)) by done.
    rewrite (bool_decide_eq_true_2 (k ∈ l ++ [k])) by set_solver. f_equal.
    case_bool_decide as Hk; cbn; [lia|]. enough (count (λ x, x == k) l = 0)%Z by lia.
    pose proof (count_nonneg (λ x, x == k) l). destruct (decide (0 < count (λ x, x == k) l)%Z) as [Hc|]; [|lia].
    apply count_pos in Hc as (y & Hy & Hyk). go_inv. done.
  - rewrite lookup_insert_ne, IH, (bool_decide_eq_false_2 (x = k)) by done.
    rewrite (bool_decide_ext (k ∈ l ++ [x]) (k ∈ l)) by set_solver.
    case_bool_decide; [|done]. f_equal. lia.
Qed.

(** A span of one service has its parent in another one. *)
Definition observed (spans : list Span) (from to : string) : Prop :=
  ∃ tid id s p, find_span spans tid id = Some s ∧ find_span spans tid (Span_ParentSpanID s) = Some p ∧
    Span_ServiceName p = from ∧ Span_ServiceName s = to ∧ from ≠ "" ∧ to ≠ "" ∧ from ≠ to.

Definition all_edges (spans : list Span) : list string :=
  map_to_list (group (kept_spans spans)) ≫= λ tb, trace_edges tb.2.

Lemma elem_of_trace_edges byID k :
  k ∈ trace_edges byID ↔ ∃ id s p, byID !! id = Some s ∧ Span_ParentSpanID s ≠ "" ∧
    byID !! Span_ParentSpanID s = Some p ∧ Span_ServiceName p ≠ "" ∧ Span_ServiceName s ≠ "" ∧
    Span_ServiceName p ≠ Span_ServiceName s ∧
    k = Span_ServiceName p +:+ nul_str +:+ Span_ServiceName s.
Proof.
  unfold trace_edges. rewrite list_elem_of_omap. split.
  - intros ([id s] & Hin%elem_of_map_to_list & Hk). cbn in Hk. case_bool_decide; [done|].
    destruct (byID !! Span_ParentSpanID s) as [p|] eqn:Ep; [|done].
    destruct ((_ == "") || _ || _) eqn:E; [done|]. go_inv. by exists id, s, p.
  - intros (id & s & p & Hs & Hne & Hp & H1 & H2 & H3 & ->). exists (id, s).
    rewrite elem_of_map_to_list. split; [done|]. cbn. rewrite Hp.
    by rewrite !bool_decide_eq_false_2.
Qed.

Lemma elem_of_all_edges spans k :
  k ∈ all_edges spans ↔ ∃ from to, observed spans from to ∧ k = from +:+ nul_str +:+ to.
Proof.
  unfold all_edges. rewrite list_elem_of_bind. split.
  - intros ([tid byID] & Hk & Ht%elem_of_map_to_list). cbn in Hk.
    apply elem_of_trace_edges in Hk as (id & s & p & Hs & Hne & Hp & ? & ? & ? & ->).
    exists (Span_ServiceName p), (Span_ServiceName s). split; [|done]. exists tid, id, s, p.
    rewrite <- !trace_lookup. unfold trace. by rewrite Ht.
  - intros (from & to & (tid & id & s & p & Hs & Hp & Hf & Hto & ? & ? & ?) & ->).
    assert (Span_ParentSpanID s ≠ "") as Hne.
    { intros E. unfold find_span in Hp. rewrite E, orb_comm in Hp. done. }
    rewrite <- trace_lookup in Hs, Hp. unfold trace in Hs, Hp.
    destruct (group (kept_spans spans) !! tid) as [byID|] eqn:Et; cbn in Hs, Hp; [|done].
    exists (tid, byID). rewrite elem_of_map_to_list. split; [|done]. cbn.
    apply elem_of_trace_edges. exists id, s, p. subst. by split_and!.
Qed.

Lemma find_span_elem spans tid id s : find_span spans tid id = Some s → s ∈ spans.
Proof.
  unfold find_span. destruct (_ || _); [done|]. intros Hl%last_Some_elem_of.
  by apply list_elem_of_filter in Hl as [_ ?].
Qed.

Section edges.
  Context (spans : list Span).
  Context (Hnul : ∀ s, s ∈ spans → byte 0 ∉ bytes (Span_ServiceName s)).

Lemma observed_names from to : observed spans from to → byte 0 ∉ bytes from ∧ byte 0 ∉ bytes to.
Proof using Hnul.
  intros (tid & id & s & p & Hs%find_span_elem & Hp%find_span_elem & <- & <- & _). auto.
Qed.

Lemma elem_of_raw_edges e :
  e ∈ omap edge_of (map_to_list (tally (all_edges spans))) ↔
  observed spans (Ed_From e) (Ed_To e) ∧ Ed_Provenance e = ProvenanceObservedParent ∧
  Ed_Count e = count (λ k, k == Ed_From e +:+ nul_str +:+ Ed_To e) (all_edges spans).
Proof using Hnul.
  rewrite list_elem_of_omap. split.
  - intros ([k n] & Hin%elem_of_map_to_list & He). rewrite tally_lookup in Hin.
    case_bool_decide as Hk; [|done]. injection Hin as <-.
    apply elem_of_all_edges in Hk as (from & to & Hobs & ->).
    pose proof (observed_names from to Hobs) as [Hf _].
    unfold edge_of in He. cbn [fst snd] in He.
    change (from +:+ nul_str +:+ to) with (from +:+ String (byte 0) to) in He.
    rewrite SplitN2_app in He by done. by injection He as <-.
  - intros (Hobs & Hp & Hc). pose proof (observed_names _ _ Hobs) as [Hf _].
    exists (Ed_From e +:+ nul_str +:+ Ed_To e, Ed_Count e). split.
    + apply elem_of_map_to_list. rewrite tally_lookup, bool_decide_eq_true_2; [by rewrite Hc|].
      apply elem_of_all_edges. eauto.
    + unfold edge_of. cbn [fst snd].
      change (Ed_From e +:+ nul_str +:+ Ed_To e) with (Ed_From e +:+ String (byte 0) (Ed_To e)).
      rewrite SplitN2_app by done. destruct e; cbn in *; congruence.
Qed.

(** The edges of the runtime graph are the observed dependencies: an edge is
    listed only if some span of the second service has its parent, received in the
    same trace, in the first; and an observed dependency is listed unless the cap of
    2000 is reached by edges that were seen at least as often. *)
Theorem Build_edges from to :
  ((∃ n, MkEdge from to n ProvenanceObservedParent ∈ Gs_Edges (Build spans)) → observed spans from to) ∧
  (observed spans from to →
   ∃ n, (0 < n)%Z ∧
     (MkEdge from to n ProvenanceObservedParent ∈ Gs_Edges (Build spans) ∨
      (length (Gs_Edges (Build spans)) = 2000%nat ∧
       ∀ e, e ∈ Gs_Edges (Build spans) → (n ≤ Ed_Count e)%Z))).
Proof using Hnul.
  unfold Build. cbn [Gs_Edges]. unfold edgesFromCount. fold (all_edges spans). split.
  - intros [n (i & Hin & _)%elem_of_take].
    apply list_elem_of_lookup_2, elem_of_sort_cmp in Hin. by apply elem_of_raw_edges in Hin as [? _].
  - intros Hobs. set (n := count (λ k, k == from +:+ nul_str +:+ to) (all_edges spans)).
    exists n. split.
    { apply count_pos. exists (from +:+ nul_str +:+ to). split; [apply elem_of_all_edges; eauto|].
      by apply bool_decide_eq_true_2. }
    destruct (take_sort_cmp cmp_edge maxEdges (omap edge_of (map_to_list (tally (all_edges spans))))
      (MkEdge from to n ProvenanceObservedParent)) as [?|[Hlen Hle]]; [|by left|right; split; [done|]].
    + by apply elem_of_raw_edges.
    + intros e He. specialize (Hle e He). unfold cmp_edge, cmp_then, cmp_desc, cmp_on in Hle. cbn in Hle.
      destruct (Z.compare_spec n (Ed_Count e)); [lia..|done].
Qed.
End edges.

End graph.
