(* ===== verification/Locate.v ===== *)
(** * Joining spans to source functions: [internal/locate/bind.go]

    [Module locate] models [Bind]: each span with code attributes is attached to
    the one function of the source graph that they name, or it is counted as
    unmapped with the reason. The result of [bindOne] is a [result]: a binding, or
    the record of the unmapped span. *)

From S2P Require Import Prelude GoStrings GoText Ingest Source.
Import ingest source.

Module locate.

Definition ProvenanceCodeAttrs : string := "code_attrs".
Definition ReasonMissingAttrs : string := "missing_code_attrs".
Definition ReasonInvalidFile : string := "invalid_code_file".
Definition ReasonNoFile : string := "no_file".
Definition ReasonNoFunction : string := "no_function".
Definition ReasonAmbiguous : string := "ambiguous".
Definition maxBindings : nat := 2000.
Definition maxUnmappedReturned : nat := 200.

Record Binding := MkBinding {
  B_TraceID : string;
  B_SpanID : string;
  B_ServiceName : string;
  B_SpanName : string;
  B_CodeFunction : string;
  B_CodeFile : string;
  B_SourceID : string;
  B_SourceName : string;
  B_File : string;
  B_Line : Z;
  B_HTTPMethod : string;
  B_HTTPRoute : string;
  B_Provenance : string;
}.

Record Unmapped := MkUnmapped {
  U_TraceID : string;
  U_SpanID : string;
  U_ServiceName : string;
  U_SpanName : string;
  U_CodeFunction : string;
  U_CodeFile : string;
  U_Reason : string;
}.

Record Snapshot := MkSnapshot {
  Lo_Bindings : list Binding;
  Lo_Unmapped : list Unmapped;
  Lo_Bound : Z;
  Lo_UnmappedCount : Z;
  Lo_SpanCount : Z;
}.

(** ** The index *)

Record sourceIndex := MkIndex {
  si_files : gset string;
  si_funcs : gmap string (list Node);
}.

Definition add_node (idx : sourceIndex) (n : Node) : sourceIndex :=
  if N_File n == "" then idx
  else if N_Kind n == KindFile then MkIndex ({[ N_File n ]} ∪ si_files idx) (si_funcs idx)
  else if N_Kind n == KindFunction then
    MkIndex (si_files idx) (<[N_File n := default [] (si_funcs idx !! N_File n) ++ [n]]> (si_funcs idx))
  else idx.

Definition indexSource (g : Graph) : sourceIndex := foldl add_node (MkIndex ∅ ∅) (g_nodes g).

(** ** One span *)

Definition normalizeFile (raw : string) : option string :=
  let s := Clean (ReplaceByte (TrimSpace raw) (byte 92) slash) in
  if (s == ".") || (s == "/") || HasPrefix s "../" || Contains s "/../" then None
  else
    let s := TrimPrefix (TrimPrefix s "/") "examples/shop/" in
    if (s == "") || Contains s ".." then None else Some s.

Definition functionName (codeFunction : string) : string :=
  let s := TrimSpace codeFunction in
  match LastIndexByte s (byte 46) with
  | Some i => if (S i <? String.length s)%nat then str_drop (S i) s else s
  | None => s
  end.

Definition unmapped (sp : Span) (reason : string) : Unmapped :=
  MkUnmapped (Span_TraceID sp) (Span_SpanID sp) (Span_ServiceName sp) (Span_Name sp)
    (Span_CodeFunction sp) (Span_CodeFile sp) reason.

Definition binding (sp : Span) (fn : Node) : Binding :=
  MkBinding (Span_TraceID sp) (Span_SpanID sp) (Span_ServiceName sp) (Span_Name sp)
    (Span_CodeFunction sp) (Span_CodeFile sp) (N_ID fn) (N_Name fn) (N_File fn) (N_Line fn)
    (TrimSpace (Span_HTTPMethod sp)) (TrimSpace (Span_HTTPRoute sp)) ProvenanceCodeAttrs.

Definition no_attrs (sp : Span) : bool :=
  (TrimSpace (Span_CodeFunction sp) == "") || (TrimSpace (Span_CodeFile sp) == "").

Definition bindOne (idx : sourceIndex) (sp : Span) : result Unmapped Binding :=
  check? guard_err (no_attrs sp) (unmapped sp ReasonMissingAttrs) in
  match normalizeFile (Span_CodeFile sp) with
  | None => Err (unmapped sp ReasonInvalidFile)
  | Some file =>
      check? guard_err (negb (bool_decide (file ∈ si_files idx)) &&
                        bool_decide (si_funcs idx !! file = None)) (unmapped sp ReasonNoFile) in
      let want := functionName (Span_CodeFunction sp) in
      match filter (λ fn, N_Name fn = want) (default [] (si_funcs idx !! file)) with
      | [] => Err (unmapped sp ReasonNoFunction)
      | [fn] => Ok (binding sp fn)
      | _ => Err (unmapped sp ReasonAmbiguous)
      end
  end.

(** Without a source graph no span is bound. *)
Definition bindNil (sp : Span) : result Unmapped Binding :=
  Err (unmapped sp (if no_attrs sp then ReasonMissingAttrs else ReasonNoFile)).

(** ** All spans *)

Definition bind_step (bind : Span → result Unmapped Binding) (out : Snapshot) (sp : Span) : Snapshot :=
  if (Span_TraceID sp == "") || (Span_SpanID sp == "") then out
  else
    match bind sp with
    | Ok b =>
        MkSnapshot (append_capped maxBindings (Lo_Bindings out) b) (Lo_Unmapped out)
          (Lo_Bound out + 1) (Lo_UnmappedCount out) (Lo_SpanCount out + 1)
    | Err u =>
        MkSnapshot (Lo_Bindings out) (append_capped maxUnmappedReturned (Lo_Unmapped out) u)
          (Lo_Bound out) (Lo_UnmappedCount out + 1) (Lo_SpanCount out + 1)
    end.

Definition cmp_binding : Binding → Binding → comparison :=
  cmp_then (cmp_on B_TraceID String.compare) (cmp_on B_SpanID String.compare).

Definition bind_all (bind : Span → result Unmapped Binding) (spans : list Span) : Snapshot :=
  foldl (bind_step bind) (MkSnapshot [] [] 0 0 0) spans.

Definition Bind (g : option Graph) (spans : list Span) : Snapshot :=
  match g with
  | None => bind_all bindNil spans
  | Some g =>
      let out := bind_all (bindOne (indexSource g)) spans in
      MkSnapshot (sort_cmp cmp_binding (Lo_Bindings out)) (Lo_Unmapped out) (Lo_Bound out)
        (Lo_UnmappedCount out) (Lo_SpanCount out)
  end.

(** ** Properties *)

Lemma add_node_files idx n f :
  f ∈ si_files (add_node idx n) ↔
  f ∈ si_files idx ∨ (N_Kind n = KindFile ∧ N_File n = f ∧ f ≠ "").
Proof.
  unfold add_node. case_bool_decide as Hf; [naive_solver|].
  case_bool_decide as Hk; simpl.
  - rewrite elem_of_union, elem_of_singleton. naive_solver.
  - case_bool_decide; simpl; naive_solver.
Qed.

Lemma add_node_funcs idx n f :
  default [] (si_funcs (add_node idx n) !! f) =
  default [] (si_funcs idx !! f) ++ filter (λ n, N_Kind n = KindFunction ∧ N_File n = f ∧ f ≠ "") [n].
Proof.
  rewrite filter_cons, filter_nil. unfold add_node. case_bool_decide as Hf.
  { rewrite decide_False by naive_solver. by rewrite app_nil_r. }
  case_bool_decide as Hk.
  { rewrite decide_False; [by rewrite app_nil_r|]. intros [Hk' _]. by rewrite Hk in Hk'. }
  case_bool_decide as Hk2; simpl.
  - destruct (decide (N_File n = f)) as [<-|Hne].
    + rewrite lookup_insert_eq, decide_True by done. done.
    + rewrite lookup_insert_ne, decide_False by naive_solver. by rewrite app_nil_r.
  - rewrite decide_False by naive_solver. by rewrite app_nil_r.
Qed.

Lemma index_files g f :
  f ∈ si_files (indexSource g) ↔ f ≠ "" ∧ ∃ n, n ∈ g_nodes g ∧ N_Kind n = KindFile ∧ N_File n = f.
Proof.
  unfold indexSource. induction (g_nodes g) as [|n ns IH] using rev_ind; simpl; [set_solver|].
  rewrite foldl_snoc, add_node_files, IH. setoid_rewrite elem_of_app.
  setoid_rewrite list_elem_of_singleton. naive_solver.
Qed.

Lemma index_funcs g f :
  default [] (si_funcs (indexSource g) !! f) =
  filter (λ n, N_Kind n = KindFunction ∧ N_File n = f ∧ f ≠ "") (g_nodes g).
Proof.
  unfold indexSource. induction (g_nodes g) as [|n ns IH] using rev_ind; [done|].
  by rewrite foldl_snoc, add_node_funcs, IH, filter_app.
Qed.

(** The functions a pair of code attributes can mean. *)
Definition candidates (g : Graph) (file name : string) : list Node :=
  filter (λ n, N_Kind n = KindFunction ∧ N_File n = file ∧ N_Name n = name) (g_nodes g).

Lemma normalizeFile_nonempty raw s : normalizeFile raw = Some s → s ≠ "".
Proof. unfold normalizeFile. intros Hs. repeat case_match; go_inv; done. Qed.

(** A span is bound exactly when its attributes name one function. *)
Lemma bindOne_ok g sp b :
  bindOne (indexSource g) sp = Ok b ↔
  no_attrs sp = false ∧
  ∃ file fn, normalizeFile (Span_CodeFile sp) = Some file ∧
    candidates g file (functionName (Span_CodeFunction sp)) = [fn] ∧ b = binding sp fn.
Proof.
  unfold bindOne. rewrite rbind_ok. setoid_rewrite guard_err_ok.
  destruct (normalizeFile (Span_CodeFile sp)) as [file|] eqn:En; [|naive_solver].
  pose proof (normalizeFile_nonempty _ _ En) as Hne.
  assert (filter (λ fn, N_Name fn = functionName (Span_CodeFunction sp))
      (default [] (si_funcs (indexSource g) !! file)) =
    candidates g file (functionName (Span_CodeFunction sp))) as Hc.
  { rewrite index_funcs, list_filter_filter. apply list_filter_iff. naive_solver. }
  setoid_rewrite rbind_ok. setoid_rewrite guard_err_ok. rewrite Hc. split.
  - intros (_ & Ha & _ & _ & Hm). split; [done|].
    destruct (candidates g file _) as [|fn [|]] eqn:E; simplify_eq. eauto.
  - intros (Ha & ? & fn & [= <-] & Hfn & ->). exists tt. split; [done|]. exists tt.
    rewrite Hfn. split; [|done]. apply andb_false_iff. right. apply bool_decide_eq_false_2.
    intros Hn. rewrite Hn in Hc. simpl in Hc. rewrite filter_nil in Hc. congruence.
Qed.

(** ** The whole window *)

Definition identified (sp : Span) : Prop := Span_TraceID sp ≠ "" ∧ Span_SpanID sp ≠ "".
#[export] Instance identified_dec sp : Decision (identified sp).
Proof. apply _. Defined.

Definition bound {E A} (r : result E A) : option A := match r with Ok a => Some a | Err _ => None end.
Definition failed {E A} (r : result E A) : option E := match r with Ok _ => None | Err e => Some e end.

Lemma bind_all_spec bind spans :
  let rs := bind <$> filter identified spans in
  bind_all bind spans =
  MkSnapshot (take maxBindings (omap bound rs)) (take maxUnmappedReturned (omap failed rs))
    (Z.of_nat (length (omap bound rs))) (Z.of_nat (length (omap failed rs))) (Z.of_nat (length rs)).
Proof.
  simpl. unfold bind_all. induction spans as [|sp spans IH] using rev_ind; [done|].
  rewrite foldl_snoc, IH, filter_app, filter_cons, filter_nil. unfold bind_step.
  destruct (decide (identified sp)) as [[Ht Hi]|Hn].
  - rewrite !bool_decide_eq_false_2 by done. simpl. rewrite fmap_app, !omap_app, !length_app. simpl.
    destruct (bind sp); simpl; rewrite ?app_nil_r, ?take_snoc; f_equal; simpl; lia.
  - replace ((Span_TraceID sp == "") || (Span_SpanID sp == "")) with true.
    { by rewrite app_nil_r. }
    unfold identified in Hn. repeat case_bool_decide; naive_solver.
Qed.

(** Joining a window of spans to a source graph counts every identified span
    once, as bound or as unmapped, and guesses nothing: while at most 2000 spans are
    bound, the bindings returned are exactly those of the spans whose code
    attributes name one single function of the file they name. *)
Theorem Bind_iff g spans :
  let out := Bind (Some g) spans in
  (Lo_Bound out + Lo_UnmappedCount out = Lo_SpanCount out)%Z ∧
  Lo_SpanCount out = Z.of_nat (length (filter identified spans)) ∧
  ((Lo_Bound out ≤ 2000)%Z → ∀ b, b ∈ Lo_Bindings out ↔
     ∃ sp file fn, sp ∈ spans ∧ identified sp ∧ no_attrs sp = false ∧
       normalizeFile (Span_CodeFile sp) = Some file ∧
       candidates g file (functionName (Span_CodeFunction sp)) = [fn] ∧ b = binding sp fn).
Proof.
  unfold Bind. rewrite bind_all_spec. simpl. set (rs := bindOne _ <$> _). split_and!.
  - generalize rs. clear. intros rs. induction rs as [|[b|u] rs IH]; cbn in *; lia.
  - unfold rs. by rewrite length_fmap.
  - intros Hle b. rewrite elem_of_sort_cmp, take_ge by (unfold maxBindings; lia).
    rewrite list_elem_of_omap. unfold rs. setoid_rewrite list_elem_of_fmap.
    setoid_rewrite list_elem_of_filter. split.
    + intros (r & (sp & -> & Hid & Hin) & Hb). destruct (bindOne _ sp) eqn:E; simplify_eq/=.
      apply bindOne_ok in E as (Ha & file & fn & Hf & Hc & ->). by exists sp, file, fn.
    + intros (sp & file & fn & Hin & Hid & Ha & Hf & Hc & ->).
      exists (Ok (binding sp fn)). split; [|done]. exists sp. split; [|done].
      symmetry. apply bindOne_ok. split; [done|]. by exists file, fn.
Qed.

End locate.
