(* ===== verification/Replay.v ===== *)
(** * Replaying a workload and comparing two runs: [internal/replay]

    [Module replay] models [compare.go], [latency.go], [repeat.go], [burst.go]
    and the pure parts of [run.go], [healthz.go], [file.go]. The HTTP exchange
    itself is an argument ([exchange]): what a gateway answers to one request.
    [encoding/json] decoding is the operation of the class [GoJSON]. Float64
    arithmetic is the IEEE-754 model of [SpecFloat]. What it means that two JSON
    values are the same up to volatile fields is the relation [json_same]. *)

From Stdlib Require Import Floats.SpecFloat.
From S2P Require Import Prelude GoStrings Net Ingest.

(** ** JSON values, as [json.Unmarshal] into [any] produces them

    Objects are Go maps: their keys are distinct. Numbers are float64. *)

Inductive json :=
| JNull
| JBool (b : bool)
| JNum (f : spec_float)
| JStr (s : string)
| JArr (l : list json)
| JObj (m : list (string * json)).

(** Objects are maps, so their keys are distinct. *)
Inductive json_wf : json → Prop :=
| wf_null : json_wf JNull
| wf_bool b : json_wf (JBool b)
| wf_num f : json_wf (JNum f)
| wf_str s : json_wf (JStr s)
| wf_arr l : Forall json_wf l → json_wf (JArr l)
| wf_obj m : NoDup m.*1 → Forall (λ kv, json_wf kv.2) m → json_wf (JObj m).

Class GoJSON := {
  json_Unmarshal : string → option json;
  json_Unmarshal_wf s v : json_Unmarshal s = Some v → json_wf v;
}.

Fixpoint assoc {A} (k : string) (m : list (string * A)) : option A :=
  match m with
  | [] => None
  | (k', v) :: m' => if k == k' then Some v else assoc k m'
  end.

(** [reflect.DeepEqual] on such values. *)
Fixpoint DeepEqual (a b : json) : bool :=
  match a, b with
  | JNull, JNull => true
  | JBool x, JBool y => Bool.eqb x y
  | JNum x, JNum y => SFeqb x y
  | JStr x, JStr y => x == y
  | JArr l, JArr k =>
      (fix go l k := match l, k with
        | [], [] => true
        | x :: l', y :: k' => DeepEqual x y && go l' k'
        | _, _ => false
        end) l k
  | JObj m, JObj n =>
      (length m =? length n)%nat &&
      (fix go m := match m with
        | [] => true
        | (k, v) :: m' =>
            match assoc k n with
            | Some w => DeepEqual v w
            | None => false
            end && go m'
        end) m
  | _, _ => false
  end.

Module replay.

(** ** compare.go *)

Definition VerdictMatch : string := "match".
Definition VerdictDiffer : string := "differ".
Definition VerdictIncomplete : string := "incomplete".
Definition NoteAuthRejected : string := "auth_rejected".

(** [run.go], [Observation] and [Result]. *)
Record Observation := MkObservation {
  Obs_Method : string;
  Obs_Path : string;
  Obs_Status : Z;
  Obs_Body : string;
  Obs_DurationNS : Z;
  Obs_Err : string;
}.

Record Result := MkResult {
  Result_Target : string;
  Result_Steps : list Observation;
}.

Record Delta := MkDelta {
  Delta_Method : string;
  Delta_Path : string;
  Delta_Status : string;
  Delta_BaselineStatus : Z;
  Delta_PatchStatus : Z;
  Delta_Notes : list string;
}.

Record Report := MkReport {
  Report_Verdict : string;
  Report_Steps : list Delta;
}.

Definition AuthRejected (d : Delta) : bool :=
  existsb (λ n, n == NoteAuthRejected) (Delta_Notes d).

Definition authStatus (code : Z) : bool := (code =? 401)%Z || (code =? 403)%Z.

Definition volatileKeys : list string :=
  ["id"; "timestamp"; "request_id"; "trace_id"; "span_id"; "created_at";
   "updated_at"; "checkout_id"].

Fixpoint stripVolatile (v : json) : json :=
  match v with
  | JObj m =>
      JObj ((fix go m := match m with
        | [] => []
        | (k, val) :: m' =>
            if bool_decide (k ∈ volatileKeys) then go m'
            else (k, stripVolatile val) :: go m'
        end) m)
  | JArr l => JArr (map stripVolatile l)
  | _ => v
  end.

Section compare.
  Context `{GoJSON}.

Definition decodeJSON (raw : string) : option json :=
  let raw := TrimSpace raw in
  if raw == "" then None else json_Unmarshal raw.

Definition jsonNotes (a b : string) : list string :=
  match decodeJSON a, decodeJSON b with
  | None, None => if TrimSpace a == TrimSpace b then [] else ["opaque body"]
  | Some va, Some vb =>
      if DeepEqual (stripVolatile va) (stripVolatile vb) then [] else ["json"]
  | _, _ => ["json vs opaque"]
  end.

Definition compareObs (a b : Observation) : Delta :=
  let d status bs ps notes :=
    MkDelta (Obs_Method a) (Obs_Path a) status bs ps notes in
  if (Obs_Path a != Obs_Path b) || (Obs_Method a != Obs_Method b) then
    d VerdictIncomplete 0%Z 0%Z ["step mismatch"]
  else if (Obs_Err a != "") || (Obs_Err b != "") then
    d VerdictIncomplete 0%Z 0%Z
      ((if Obs_Err a != "" then ["error:baseline:" +:+ Obs_Err a] else []) ++
       (if Obs_Err b != "" then ["error:patch:" +:+ Obs_Err b] else []))
  else if authStatus (Obs_Status a) && authStatus (Obs_Status b) then
    d VerdictIncomplete (Obs_Status a) (Obs_Status b) [NoteAuthRejected]
  else
    let sdiff := negb (Obs_Status a =? Obs_Status b)%Z in
    let notes := jsonNotes (Obs_Body a) (Obs_Body b) in
    d (if sdiff || negb (bool_decide (notes = [])) then VerdictDiffer else VerdictMatch)
      (Obs_Status a) (Obs_Status b)
      ((if sdiff then ["status"] else []) ++ notes).

Definition Compare (base patch : Result) : Report :=
  let bs := Result_Steps base in
  let ps := Result_Steps patch in
  let n := (length bs `min` length ps)%nat in
  let ds := zip_with compareObs (take n bs) (take n ps) in
  let incomplete :=
    negb (length bs =? length ps)%nat ||
    existsb (λ d, existsb (λ note, HasPrefix note "error:") (Delta_Notes d) ||
                  (Delta_Status d == VerdictIncomplete)) ds in
  let differ := existsb (λ d, Delta_Status d == VerdictDiffer) ds in
  MkReport (if incomplete then VerdictIncomplete
            else if differ then VerdictDiffer else VerdictMatch) ds.

End compare.

(** ** latency.go *)

Definition minPercentileN : Z := 20.
Definition ShiftRatio : Z := 2.
Definition ShiftMinNS : Z := 5000000.

Record Summary := MkSummary {
  Sum_N : Z;
  Sum_MinNS : Z;
  Sum_MedNS : Z;
  Sum_P95NS : Z;
  Sum_P99NS : Z;
  Sum_HasP95 : bool;
  Sum_HasP99 : bool;
}.

Record StepLatency := MkStepLatency {
  Lat_Method : string;
  Lat_Path : string;
  Lat_Baseline : Summary;
  Lat_Patch : Summary;
}.

Definition Shifted (l : StepLatency) : bool :=
  if (Sum_N (Lat_Baseline l) =? 0)%Z || (Sum_N (Lat_Patch l) =? 0)%Z then false
  else
    let b := Sum_MedNS (Lat_Baseline l) in
    let p := Sum_MedNS (Lat_Patch l) in
    (int64 (ShiftRatio * b) <? p)%Z && (ShiftMinNS <=? int64 (p - b))%Z.

(** The float64 constants 0.50, 0.95 and 0.99: mantissa and binary exponent. *)
Definition f050 : spec_float := S754_finite false 4503599627370496 (-53).
Definition f095 : spec_float := S754_finite false 8556839292003942 (-53).
Definition f099 : spec_float := S754_finite false 8917127262193582 (-53).

Definition float64_of_int (n : Z) : spec_float := binary_normalize 53 1024 n 0 false.

(** [int(math.Ceil(x))] for a finite [x]. *)
Definition int_ceil (x : spec_float) : Z :=
  match x with
  | S754_finite s m e =>
      let v := if s then Zneg m else Zpos m in
      if (0 <=? e)%Z then (v * 2 ^ e)%Z else (- ((- v) / 2 ^ (- e)))%Z
  | _ => 0%Z
  end.

Definition rank_index (n : Z) (p : spec_float) : Z :=
  let idx := (int_ceil (SFmul 53 1024 p (float64_of_int n)) - 1)%Z in
  let idx := if (idx <? 0)%Z then 0%Z else idx in
  if (n <=? idx)%Z then (n - 1)%Z else idx.

Definition rank (sorted : list Z) (p : spec_float) : Z :=
  let n := Z.of_nat (length sorted) in
  if (n =? 0)%Z then 0%Z
  else default 0%Z (sorted !! Z.to_nat (rank_index n p)).

Definition Summarize (samples : list Z) : Summary :=
  let n := Z.of_nat (length samples) in
  if (n =? 0)%Z then MkSummary n 0 0 0 0 false false
  else
    let cp := sort_cmp Z.compare samples in
    let enough := (minPercentileN <=? n)%Z in
    MkSummary n (default 0%Z (cp !! 0%nat)) (rank cp f050)
      (if enough then rank cp f095 else 0%Z) (if enough then rank cp f099 else 0%Z)
      enough enough.

Definition successful (s : Observation) : bool :=
  (Obs_Err s == "") && (0 <? Obs_Status s)%Z && (0 <? Obs_DurationNS s)%Z.

Definition successfulDurations (runs : list Result) (step : nat) : list Z :=
  omap (λ r, match Result_Steps r !! step with
             | Some s => if successful s then Some (Obs_DurationNS s) else None
             | None => None
             end) runs.

Definition first_steps (runs : list Result) : list Observation :=
  match runs with
  | [] => []
  | r :: _ => Result_Steps r
  end.

Definition Latency (base patch : list Result) : list StepLatency :=
  let n0 := length (first_steps base) in
  let n := match patch with
           | [] => n0
           | p :: _ => if (length (Result_Steps p) <? n0)%nat
                       then length (Result_Steps p) else n0
           end in
  map (λ i,
    let o := first_steps base !! i in
    MkStepLatency (default "" (Obs_Method <$> o)) (default "" (Obs_Path <$> o))
      (Summarize (successfulDurations base i))
      (Summarize (successfulDurations patch i))) (seq 0 n).

(** ** workload.go, file.go *)

Definition maxSteps : nat := 20.
Definition ProvenanceSpanRoute : string := "span_route".
Definition ProvenanceChangedLines : string := "changed_lines".
Definition ProvenanceShopFixture : string := "shop_fixture".
Definition DefaultHealthPath : string := "/healthz".

(** Headers are an [http.Header]: values per canonical name. *)
Record Step := MkStep {
  Step_Method : string;
  Step_Path : string;
  Step_Body : string;
  Step_Headers : list (string * list string);
  Step_Provenance : string;
  Step_Service : string;
}.

Record Workload := MkWorkload { Workload_Steps : list Step }.

Definition isHTTPMethod (s : string) : bool := bool_decide (s ∈ ingest.httpMethods).

Definition safePath (path : string) : bool :=
  HasPrefix path "/" &&
  negb (Contains path ".." || Contains path "\" || Contains path "@") &&
  negb (ContainsAny path "{}*") && negb (Contains path "://").

Definition safeFileStep (method path : string) : bool := isHTTPMethod method && safePath path.

Definition readMethods : list string := ["GET"; "HEAD"; "OPTIONS"].

Definition safeReplay (method path : string) : bool :=
  bool_decide (method ∈ readMethods) && safePath path.

Definition skipKind (kind : string) : bool :=
  bool_decide (ToLower (TrimSpace kind) ∈ ["client"; "producer"; "consumer"; "internal"]).

Definition routeParts (s : ingest.Span) : option (string * string) :=
  let method := ToUpper (TrimSpace (ingest.Span_HTTPMethod s)) in
  let path := before_byte (TrimSpace (ingest.Span_HTTPRoute s)) (byte 63) in
  let '(method, path) :=
    match IndexByte path (byte 32) with
    | Some i =>
        let left := ToUpper (str_take i path) in
        if isHTTPMethod left
        then (if method == "" then left else method, str_drop (S i) path)
        else (method, path)
    | None => (method, path)
    end in
  if (method == "") || (path == "") then None
  else Some (method, if HasPrefix path "/" then path else "/" +:+ path).

(** The loop of [FromSpans], with the set of keys already used. *)
Fixpoint fromSpans_loop (spans : list ingest.Span) (seen : list string) (out : list Step)
    : list Step :=
  match spans with
  | [] => out
  | s :: rest =>
      if skipKind (ingest.Span_Kind s) then fromSpans_loop rest seen out
      else match routeParts s with
           | None => fromSpans_loop rest seen out
           | Some (method, path) =>
               if negb (safeReplay method path) then fromSpans_loop rest seen out
               else
                 let key := method +:+ " " +:+ path in
                 if bool_decide (key ∈ seen) then fromSpans_loop rest seen out
                 else
                   let out := out ++ [MkStep method path "" [] ProvenanceSpanRoute
                                        (ingest.Span_ServiceName s)] in
                   if (maxSteps <=? length out)%nat then out
                   else fromSpans_loop rest (key :: seen) out
           end
  end.

Definition FromSpans (spans : list ingest.Span) : Workload :=
  MkWorkload (fromSpans_loop spans [] []).

Definition step_key (s : Step) : string := Step_Method s +:+ " " +:+ Step_Path s.

Definition set_provenance (s : Step) (p : string) : Step :=
  MkStep (Step_Method s) (Step_Path s) (Step_Body s) (Step_Headers s) p (Step_Service s).

Definition RestrictToRoutes (w : Workload) (labels : list string) (provenance : string)
    : Workload :=
  if bool_decide (labels = []) || bool_decide (Workload_Steps w = []) then w
  else
    let keep := filter (λ l, l ≠ "") (TrimSpace <$> labels) in
    if bool_decide (keep = []) then w
    else
      let out := (λ s, if provenance == "" then s else set_provenance s provenance)
                   <$> filter (λ s, step_key s ∈ keep) (Workload_Steps w) in
      if bool_decide (out = []) then w else MkWorkload out.

(** [HeaderNames] exposes the names only. *)
Definition HeaderNames (s : Step) : list string :=
  sort_cmp String.compare (Step_Headers s).*1.

(** ** run.go, repeat.go, burst.go, healthz.go *)

Definition maxResponse : Z := 65536.
Definition maxRepeats : Z := 100.
Definition maxBurst : Z := 32.

Inductive RunErr :=
| RunErrorf (msg : string)
| RunNet (e : NetErr)
| RunCtx (msg : string).

Definition run_err_text (e : RunErr) : string :=
  match e with
  | RunErrorf msg => msg
  | RunNet e => "replay: " +:+ net_err_text e
  | RunCtx msg => msg
  end.

(** The verb %q on a path of printable characters. *)
Definition quote (s : string) : string := String (byte 34) (s +:+ String (byte 34) "").

(** What the HTTP client gives for one request: the request cannot be built,
    the exchange fails, or a response arrives whose body may fail to be read. *)
Inductive Reply :=
| RequestErr (msg : string)
| ExchangeErr (dur : Z) (msg : string)
| Response (dur : Z) (status : Z) (body : result string string).

Definition runStep (st : Step) (r : Reply) : Observation :=
  let obs status body dur err :=
    MkObservation (Step_Method st) (Step_Path st) status body dur err in
  match r with
  | RequestErr e => obs 0%Z "" 0%Z e
  | ExchangeErr dur e => obs 0%Z "" dur e
  | Response dur status (Err e) => obs status "" dur e
  | Response dur status (Ok body) =>
      let raw := str_take (Z.to_nat (maxResponse + 1)) body in
      if (maxResponse <? len raw)%Z then obs status "" dur "response too large"
      else obs status raw dur ""
  end.

Section run.
  Context `{GoNet}.

Definition parseTarget (raw : string) : result RunErr string :=
  let raw := TrimSpace raw in
  check? guard_err (raw == "") (RunErrorf "replay: empty target") in
  let raw := if Contains raw "://" then raw else "http://" +:+ raw in
  match url_Parse raw with
  | Err e => Err (RunErrorf ("replay: target: " +:+ e))
  | Ok u =>
      check? guard_err ((URL_Scheme u != "http") && (URL_Scheme u != "https"))
               (RunErrorf "replay: target must be http or https") in
      check? guard_err (URL_Host u == "") (RunErrorf "replay: target missing host") in
      check? guard_err (bool_decide (is_Some (URL_User u)))
               (RunErrorf "replay: target must not include userinfo") in
      match CheckURL (url_String u) with
      | Err e => Err (RunNet e)
      | Ok _ =>
          Ok (TrimRight (url_String
                (MkURL (URL_Scheme u) (URL_Opaque u) (URL_User u) (URL_Host u) "" "" "")) "/")
      end
  end.

Definition CheckTarget (raw : string) : result RunErr () :=
  let? _ := parseTarget raw in Ok tt.

(** [exchange url st] is what the network answers to the request for [st]. *)
Definition Run (exchange : string → Step → Reply) (target : string) (w : Workload)
    : result RunErr Result :=
  let? base := parseTarget target in
  check? guard_err (bool_decide (Workload_Steps w = [])) (RunErrorf "replay: empty workload") in
  Ok (MkResult base
        ((λ st, runStep st (exchange (base +:+ Step_Path st) st)) <$> Workload_Steps w)).

Definition clipRepeats (n : Z) : result RunErr Z :=
  check? guard_err (n <? 1)%Z (RunErrorf "replay: n must be >= 1") in
  check? guard_err (maxRepeats <? n)%Z (RunErrorf "replay: n exceeds 100") in
  Ok n.

(** The loop of [Repeat], iteration [i] on: [ctx i] is the context's error, if
    any, when the iteration starts, [ex i] the network during it. *)
Fixpoint repeat_loop (k i : nat) (ctx : nat → option string)
    (ex : nat → string → Step → Reply) (target : string) (w : Workload)
    : result RunErr (list Result) :=
  match k with
  | O => Ok []
  | S k =>
      match ctx i with
      | Some e => Err (RunCtx e)
      | None =>
          let? r := Run (ex i) target w in
          let? rs := repeat_loop k (S i) ctx ex target w in
          Ok (r :: rs)
      end
  end.

Definition Repeat (ctx : nat → option string) (ex : nat → string → Step → Reply)
    (target : string) (w : Workload) (n : Z) : result RunErr (list Result) :=
  let? n := clipRepeats n in repeat_loop (Z.to_nat n) 0 ctx ex target w.

(** The goroutines of [Burst] finish in some order [fin]; each stores its result
    in its own slot or, holding the lock, records the first error. *)
Definition burst_one (ctx : nat → option string) (ex : nat → string → Step → Reply)
    (target : string) (w : Workload) (i : nat) : result RunErr Result :=
  match ctx i with
  | Some e => Err (RunCtx e)
  | None => Run (ex i) target w
  end.

Definition zeroResult : Result := MkResult "" [].

Definition burst_finish (run : nat → result RunErr Result)
    (st : list Result * option RunErr) (i : nat) : list Result * option RunErr :=
  match run i with
  | Ok r => (<[i := r]> st.1, st.2)
  | Err e => (st.1, match st.2 with Some e0 => Some e0 | None => Some e end)
  end.

Definition Burst (fin : list nat) (ctx : nat → option string)
    (ex : nat → string → Step → Reply) (target : string) (w : Workload) (n : Z)
    : result RunErr (list Result) :=
  check? guard_err (n <? 1)%Z (RunErrorf "replay: n must be >= 1") in
  check? guard_err (maxBurst <? n)%Z (RunErrorf "replay: n exceeds 32") in
  check? CheckTarget target in
  check? guard_err (bool_decide (Workload_Steps w = [])) (RunErrorf "replay: empty workload") in
  match foldl (burst_finish (burst_one ctx ex target w))
              (replicate (Z.to_nat n) zeroResult, None) fin with
  | (_, Some e) => Err e
  | (out, None) => Ok out
  end.

(** One health probe: [probe url] is the status the gateway answers with, or
    the transport error. *)
Definition oneHealthz (probe : string → result string Z) (target path : string)
    : result RunErr () :=
  let? base := parseTarget target in
  match probe (base +:+ path) with
  | Err e => Err (RunErrorf e)
  | Ok status =>
      guard_err ((status <? 200)%Z || (299 <? status)%Z) (RunErrorf ("status " +:+ Itoa status))
  end.

Definition HealthzPath (probe : string → result string Z) (baseline patch path : string)
    : result RunErr () :=
  let path := if path == "" then DefaultHealthPath else path in
  check? guard_err (negb (safeReplay "GET" path))
           (RunErrorf ("replay: health path " +:+ quote path +:+ " is not a local GET path")) in
  match oneHealthz probe baseline path with
  | Err e => Err (RunErrorf ("replay: baseline GET " +:+ path +:+ ": " +:+ run_err_text e))
  | Ok _ =>
      match oneHealthz probe patch path with
      | Err e => Err (RunErrorf ("replay: patch GET " +:+ path +:+ ": " +:+ run_err_text e))
      | Ok _ => Ok tt
      end
  end.

End run.

(** ** JSON values that are the same up to volatile fields *)

(** Same kind, same number, string or boolean; arrays element by element; objects
    field by field, in any order, the volatile fields left out at every level. *)
Inductive json_same : json → json → Prop :=
| same_null : json_same JNull JNull
| same_bool b : json_same (JBool b) (JBool b)
| same_num x y : SFeqb x y = true → json_same (JNum x) (JNum y)
| same_str s : json_same (JStr s) (JStr s)
| same_arr l k : Forall2 json_same l k → json_same (JArr l) (JArr k)
| same_obj m n :
    (∀ key, key ∉ ["id"; "timestamp"; "request_id"; "trace_id"; "span_id"; "created_at";
                   "updated_at"; "checkout_id"] →
       option_Forall2 json_same (assoc key m) (assoc key n)) →
    json_same (JObj m) (JObj n).

(** Induction over a value with its elements and fields. *)
Lemma json_nested_ind (P : json → Prop) :
  P JNull → (∀ b, P (JBool b)) → (∀ f, P (JNum f)) → (∀ s, P (JStr s)) →
  (∀ l, Forall P l → P (JArr l)) → (∀ m, Forall (λ kv, P kv.2) m → P (JObj m)) → ∀ v, P v.
Proof.
  intros Hn Hb Hf Hs Ha Ho. fix IH 1. intros [|b|f|s|l|m]; [done|done|done|done|apply Ha|apply Ho].
  - induction l as [|v l IHl]; constructor; [apply IH|exact IHl].
  - induction m as [|[k v] m IHm]; constructor; [apply IH|exact IHm].
Qed.

Definition strip_field (kv : string * json) : option (string * json) :=
  if bool_decide (kv.1 ∈ volatileKeys) then None else Some (kv.1, stripVolatile kv.2).

Lemma strip_cons k v m :
  omap strip_field ((k, v) :: m) =
  if bool_decide (k ∈ volatileKeys) then omap strip_field m else (k, stripVolatile v) :: omap strip_field m.
Proof. simpl. unfold strip_field at 1. cbn [fst snd]. by case_bool_decide. Qed.

Lemma strip_obj m : stripVolatile (JObj m) = JObj (omap strip_field m).
Proof.
  simpl. f_equal. induction m as [|[k v] m IH]; [done|]. rewrite strip_cons, <- IH. by case_bool_decide.
Qed.

Lemma deep_arr l k : DeepEqual (JArr l) (JArr k) = true ↔ Forall2 (λ x y, DeepEqual x y = true) l k.
Proof.
  revert k. induction l as [|x l IH]; intros [|y k].
  1-3: cbn; split; try done; by inversion 1.
  rewrite Forall2_cons, <- IH. cbn. by rewrite andb_true_iff.
Qed.

Definition field_equal (n : list (string * json)) (kv : string * json) : Prop :=
  ∃ w, assoc kv.1 n = Some w ∧ DeepEqual kv.2 w = true.
Lemma deep_obj m n :
  DeepEqual (JObj m) (JObj n) = true ↔ length m = length n ∧ Forall (field_equal n) m.
Proof.
  cbn [DeepEqual]. rewrite andb_true_iff, Nat.eqb_eq. apply and_iff_compat_l. generalize n as n'. intros n'.
  induction m as [|[k v] m IH]; [by split; [constructor|]|]. rewrite andb_true_iff, IH, Forall_cons.
  apply and_iff_compat_r. unfold field_equal. cbn. destruct (assoc k n'); naive_solver.
Qed.

Lemma assoc_elem {A} k (v : A) m : NoDup m.*1 → assoc k m = Some v ↔ (k, v) ∈ m.
Proof.
  induction m as [|[k' v'] m IH]; cbn; [set_solver|]. intros [Hn Hnd]%NoDup_cons.
  rewrite elem_of_cons. case_bool_decide as E.
  - subst k'. split; [intros [= ->]; by left|]. intros [[= ->]|Hin]; [done|]. exfalso. apply Hn.
    apply list_elem_of_fmap. by exists (k, v).
  - rewrite IH by done. naive_solver.
Qed.
Lemma assoc_None {A} k (m : list (string * A)) : assoc k m = None ↔ k ∉ m.*1.
Proof.
  induction m as [|[k' v'] m IH]; cbn; [set_solver|]. rewrite not_elem_of_cons.
  case_bool_decide; naive_solver.
Qed.

Lemma strip_assoc k m :
  assoc k (omap strip_field m) = if bool_decide (k ∈ volatileKeys) then None else stripVolatile <$> assoc k m.
Proof.
  induction m as [|[k' v] m IH]; [by case_bool_decide|]. rewrite strip_cons. cbn [assoc].
  destruct (decide (k = k')) as [->|Hne].
  - rewrite (bool_decide_eq_true_2 (k' = k')) by done. case_bool_decide as Hv.
    + exact IH.
    + cbn [assoc]. by rewrite bool_decide_eq_true_2.
  - rewrite (bool_decide_eq_false_2 (k = k')), <- IH by done.
    destruct (bool_decide (k' ∈ volatileKeys)); [done|]. cbn [assoc]. by rewrite bool_decide_eq_false_2.
Qed.
Lemma strip_keys m : NoDup m.*1 → NoDup (omap strip_field m).*1.
Proof.
  intros Hnd. eapply sublist_NoDup; [exact Hnd|]. clear. induction m as [|[k v] m IH]; [done|].
  rewrite strip_cons. case_bool_decide; rewrite ?fmap_cons; cbn.
  - by apply sublist_cons.
  - by apply sublist_skip.
Qed.

(** Two maps with the same number of keys, where each field of the first one has an
    equal one in the second, have the same fields. *)
Lemma fields_iff m n :
  NoDup m.*1 → NoDup n.*1 →
  (length m = length n ∧ Forall (field_equal n) m) ↔
  ∀ k, option_Forall2 (λ v w, DeepEqual v w = true) (assoc k m) (assoc k n).
Proof.
  intros Hm Hn. rewrite Forall_forall. split.
  - intros [Hlen Hf] k. assert (m.*1 ⊆+ n.*1) as Hsub.
    { apply NoDup_submseteq; [done|]. intros x ([k' v] & -> & Hin)%list_elem_of_fmap.
      destruct (Hf _ Hin) as (w & Hw & _). apply assoc_elem in Hw; [|done]. apply list_elem_of_fmap.
      by exists (k', w). }
    assert (m.*1 ≡ₚ n.*1) as Hp by (apply submseteq_length_Permutation; [done|rewrite !length_fmap; lia]).
    destruct (assoc k m) as [v|] eqn:Ek.
    + apply assoc_elem in Ek; [|done]. destruct (Hf _ Ek) as (w & Hw & He). cbn in Hw. rewrite Hw. by constructor.
    + apply assoc_None in Ek. rewrite Hp in Ek. apply assoc_None in Ek as ->. constructor.
  - intros Hk. assert (m.*1 ≡ₚ n.*1) as Hp.
    { apply NoDup_Permutation; [done..|]. intros k.
      assert (k ∉ m.*1 ↔ k ∉ n.*1) as Hkeys.
      { rewrite <- !assoc_None. by destruct (Hk k). }
      destruct (decide (k ∈ m.*1)), (decide (k ∈ n.*1)); tauto. }
    split; [apply Permutation_length in Hp; by rewrite !length_fmap in Hp|].
    intros [k v] Hin. apply assoc_elem in Hin; [|done]. specialize (Hk k). rewrite Hin in Hk.
    inversion Hk as [? w Hw E1 E2|]; subst. by exists w.
Qed.

(** The comparison of the program is this relation. *)
Lemma strip_equal_iff a b :
  json_wf a → json_wf b → DeepEqual (stripVolatile a) (stripVolatile b) = true ↔ json_same a b.
Proof.
  revert b. induction a as [|x|x|x|l IH|m IH] using json_nested_ind; intros b Ha Hb.
  1-4: destruct b; try (split; [done|by inversion 1]); cbn.
  - by split; [constructor|].
  - rewrite eqb_true_iff. split; [intros ->; constructor|by inversion 1].
  - split; [by constructor|by inversion 1].
  - rewrite bool_decide_eq_true. split; [intros ->; constructor|by inversion 1].
  - destruct b as [| | | |k|n]; try (split; [done|by inversion 1]).
    change (stripVolatile (JArr l)) with (JArr (stripVolatile <$> l)).
    change (stripVolatile (JArr k)) with (JArr (stripVolatile <$> k)).
    rewrite deep_arr, Forall2_fmap. inversion Ha as [| | | |? Hl|]; inversion Hb as [| | | |? Hk|]; subst.
    clear Ha Hb. rewrite Forall_forall in IH, Hl, Hk.
    assert (Forall2 (λ x y, DeepEqual (stripVolatile x) (stripVolatile y) = true) l k ↔ Forall2 json_same l k) as ->.
    { rewrite !Forall2_same_length_lookup. apply and_iff_compat_l.
      split; intros H i x y Hx Hy; apply (IH x); eauto using list_elem_of_lookup_2. }
    split; [by constructor|by inversion 1].
  - destruct b as [| | | |k|n]; try (split; [rewrite strip_obj; done|by inversion 1]).
    inversion Ha as [| | | | |? Hm1 Hm2]; inversion Hb as [| | | | |? Hn1 Hn2]; subst. clear Ha Hb.
    rewrite !strip_obj, deep_obj, fields_iff by (by apply strip_keys). rewrite Forall_forall in IH, Hm2, Hn2.
    assert (∀ k, option_Forall2 json_same (assoc k m) (assoc k n) ↔
      option_Forall2 (λ v w, DeepEqual v w = true) (stripVolatile <$> assoc k m) (stripVolatile <$> assoc k n)) as Heq.
    { intros k. destruct (assoc k m) as [v|] eqn:Ev, (assoc k n) as [w|] eqn:Ew; cbn;
        (split; intros H; inversion H; subst; constructor);
        (apply assoc_elem in Ev; [|done]); (apply assoc_elem in Ew; [|done]);
        apply (IH _ Ev w (Hm2 _ Ev) (Hn2 _ Ew)); done. }
    split.
    + intros H. constructor. intros k Hk. apply Heq. specialize (H k). rewrite !strip_assoc in H.
      by rewrite bool_decide_eq_false_2 in H by done.
    + intros H k. inversion H as [| | | | |? ? Hs]; subst. rewrite !strip_assoc. case_bool_decide as Hk; [constructor|].
      by apply Heq, Hs.
Qed.

(** ** Properties of the comparison *)

Section compare_props.
  Context `{GoJSON}.

Lemma decodeJSON_wf raw v : decodeJSON raw = Some v → json_wf v.
Proof. unfold decodeJSON. case_bool_decide; [done|]. apply json_Unmarshal_wf. Qed.

(** Two bodies agree: both are JSON and the same up to volatile fields, or neither
    is JSON and they are equal but for the space around them. *)
Definition bodies_agree (a b : string) : Prop :=
  (∃ va vb, decodeJSON a = Some va ∧ decodeJSON b = Some vb ∧ json_same va vb) ∨
  (decodeJSON a = None ∧ decodeJSON b = None ∧ TrimSpace a = TrimSpace b).

(** The declarative reading of a matching pair of observations. *)
Record obs_match (a b : Observation) : Prop := {
  om_path : Obs_Path a = Obs_Path b;
  om_method : Obs_Method a = Obs_Method b;
  om_err_l : Obs_Err a = "";
  om_err_r : Obs_Err b = "";
  om_auth : ¬ (Obs_Status a ∈ [401; 403]%Z ∧ Obs_Status b ∈ [401; 403]%Z);
  om_status : Obs_Status a = Obs_Status b;
  om_body : bodies_agree (Obs_Body a) (Obs_Body b);
}.

(** Two observations that say nothing about the patch: they are of different
    requests, an exchange failed, or both sides refused the request. *)
Definition not_comparable (a b : Observation) : Prop :=
  Obs_Path a ≠ Obs_Path b ∨ Obs_Method a ≠ Obs_Method b ∨ Obs_Err a ≠ "" ∨ Obs_Err b ≠ "" ∨
  (Obs_Status a ∈ [401; 403]%Z ∧ Obs_Status b ∈ [401; 403]%Z).

Lemma authStatus_iff code : authStatus code = true ↔ code ∈ [401; 403]%Z.
Proof. unfold authStatus. rewrite orb_true_iff, !Z.eqb_eq, !elem_of_cons, elem_of_nil. tauto. Qed.

Lemma jsonNotes_iff a b : jsonNotes a b = [] ↔ bodies_agree a b.
Proof.
  unfold jsonNotes, bodies_agree. destruct (decodeJSON a) as [va|] eqn:Ea, (decodeJSON b) as [vb|] eqn:Eb.
  - pose proof (strip_equal_iff va vb (decodeJSON_wf a va Ea) (decodeJSON_wf b vb Eb)) as Hs.
    destruct (DeepEqual _ _); naive_solver.
  - naive_solver.
  - naive_solver.
  - case_bool_decide; naive_solver.
Qed.

Lemma compareObs_incomplete_notes a b :
  existsb (λ note, HasPrefix note "error:") (Delta_Notes (compareObs a b)) = true →
  Delta_Status (compareObs a b) = VerdictIncomplete.
Proof.
  unfold compareObs.
  destruct ((Obs_Path a != Obs_Path b) || (Obs_Method a != Obs_Method b)); [done|].
  destruct ((Obs_Err a != "") || (Obs_Err b != "")); [done|].
  destruct (authStatus (Obs_Status a) && authStatus (Obs_Status b)); [done|].
  intros (n & Hn & Hp)%existsb_True. exfalso.
  assert (n ∈ ["status"; "opaque body"; "json vs opaque"; "json"]) as Hin.
  { unfold jsonNotes in Hn. repeat case_match; set_solver. }
  set_unfold in Hin. naive_solver.
Qed.

Lemma compareObs_match_iff a b :
  Delta_Status (compareObs a b) = VerdictMatch ↔ obs_match a b.
Proof.
  unfold compareObs.
  destruct ((Obs_Path a != Obs_Path b) || (Obs_Method a != Obs_Method b)) eqn:E1; simpl.
  { split; [done|]. intros []. go_cases. }
  apply orb_false_iff in E1 as [E1 E1']. go_inv.
  destruct ((Obs_Err a != "") || (Obs_Err b != "")) eqn:E2; simpl.
  { split; [done|]. intros []. go_cases. }
  apply orb_false_iff in E2 as [E2 E2']. go_inv.
  destruct (authStatus (Obs_Status a) && authStatus (Obs_Status b)) eqn:E3; simpl.
  { split; [done|]. intros []. rewrite andb_true_iff, !authStatus_iff in E3. tauto. }
  destruct (Z.eqb_spec (Obs_Status a) (Obs_Status b)) as [E4|E4]; simpl.
  - case_bool_decide as E5; simpl; split; try done.
    + intros _. split; try done; [|by apply jsonNotes_iff]. rewrite <- !authStatus_iff, <- andb_true_iff. congruence.
    + intros []. by destruct E5; apply jsonNotes_iff.
  - split; [done|]. by intros [].
Qed.

Lemma compareObs_incomplete_iff a b :
  Delta_Status (compareObs a b) = VerdictIncomplete ↔ not_comparable a b.
Proof.
  unfold compareObs, not_comparable. rewrite <- !authStatus_iff, <- andb_true_iff.
  destruct ((Obs_Path a != Obs_Path b) || (Obs_Method a != Obs_Method b)) eqn:E1; simpl.
  { split; [intros _|done]. repeat case_bool_decide; first [done|tauto]. }
  apply orb_false_iff in E1 as [E1 E1']. go_inv.
  destruct ((Obs_Err a != "") || (Obs_Err b != "")) eqn:E2; simpl.
  { split; [intros _|done]. repeat case_bool_decide; first [done|tauto]. }
  apply orb_false_iff in E2 as [E2 E2']. go_inv.
  destruct (authStatus (Obs_Status a) && authStatus (Obs_Status b)); [naive_solver|].
  case_match; naive_solver.
Qed.

Lemma compareObs_status a b :
  Delta_Status (compareObs a b) ∈ [VerdictMatch; VerdictDiffer; VerdictIncomplete].
Proof. unfold compareObs. repeat case_match; set_solver. Qed.

(** What the loop of [Compare] concludes from the list of step results. *)
Definition verdict_of (incomplete : bool) (ds : list Delta) : string :=
  if incomplete ||
     existsb (λ d, existsb (λ note, HasPrefix note "error:") (Delta_Notes d) ||
                   (Delta_Status d == VerdictIncomplete)) ds
  then VerdictIncomplete
  else if existsb (λ d, Delta_Status d == VerdictDiffer) ds
       then VerdictDiffer else VerdictMatch.

Definition is_delta (d : Delta) : Prop := ∃ a b, d = compareObs a b.

Lemma verdict_of_match ds :
  Forall is_delta ds →
  verdict_of false ds = VerdictMatch ↔ Forall (λ d, Delta_Status d = VerdictMatch) ds.
Proof.
  intros Hds. unfold verdict_of. rewrite orb_false_l, Forall_forall.
  rewrite Forall_forall in Hds. split.
  - destruct (existsb _ ds) eqn:E1; [done|].
    destruct (existsb (λ d, _ == VerdictDiffer) ds) eqn:E2; [done|].
    intros _ d Hd. rewrite existsb_False in E1, E2.
    specialize (E1 d Hd). specialize (E2 d Hd). go_inv.
    destruct (Hds d Hd) as (a & b & ->).
    pose proof (compareObs_status a b). set_solver.
  - intros Hm. rewrite (proj2 (existsb_False _ _)).
    + rewrite (proj2 (existsb_False _ _)); [done|].
      intros d Hd. rewrite (Hm d Hd). done.
    + intros d Hd. specialize (Hm d Hd). rewrite Hm. rewrite orb_false_r.
      destruct (Hds d Hd) as (a & b & ->).
      pose proof (compareObs_incomplete_notes a b) as Hn.
      destruct (existsb _ _); [|done]. rewrite Hm in Hn. by specialize (Hn eq_refl).
Qed.

Lemma verdict_of_incomplete b ds :
  Forall is_delta ds →
  verdict_of b ds = VerdictIncomplete ↔
    b = true ∨ ∃ d, d ∈ ds ∧ Delta_Status d = VerdictIncomplete.
Proof.
  intros Hds. rewrite Forall_forall in Hds. unfold verdict_of.
  destruct b; cbn [orb]; [naive_solver|].
  destruct (existsb _ ds) eqn:E.
  - split; [intros _|done]. right. apply existsb_True in E as (d & Hd & He).
    exists d. split; [done|]. apply orb_true_iff in He as [He|He]; [|by apply bool_decide_eq_true in He].
    destruct (Hds d Hd) as (x & y & ->). by apply compareObs_incomplete_notes.
  - rewrite existsb_False in E. split; [by case_match|]. intros [?|(d & Hd & Hs)]; [done|].
    specialize (E d Hd). apply orb_false_iff in E as [_ E]. by rewrite Hs in E.
Qed.

Lemma is_delta_zip l k : Forall is_delta (zip_with compareObs l k).
Proof.
  revert k. induction l as [|a l IH]; intros [|b k]; simpl; constructor; auto.
  by exists a, b.
Qed.

Lemma Forall_zip_Forall2 {A B C} (f : A → B → C) (P : C → Prop) l k :
  length l = length k →
  Forall P (zip_with f l k) ↔ Forall2 (λ a b, P (f a b)) l k.
Proof.
  revert k. induction l as [|a l IH]; intros [|b k] Hlen; simplify_eq/=.
  - by split; constructor.
  - rewrite Forall_cons, (IH k) by done. split.
    + intros []. by constructor.
    + by inversion 1.
Qed.

Lemma Compare_verdict base patch :
  Report_Verdict (Compare base patch) =
    verdict_of (negb (length (Result_Steps base) =? length (Result_Steps patch))%nat)
      (Report_Steps (Compare base patch)).
Proof. reflexivity. Qed.

Lemma Compare_steps base patch :
  length (Result_Steps base) = length (Result_Steps patch) →
  Report_Steps (Compare base patch)
    = zip_with compareObs (Result_Steps base) (Result_Steps patch).
Proof.
  intros Hlen. unfold Compare. simpl. rewrite <- Hlen, Nat.min_id.
  rewrite !take_ge; [done|lia..].
Qed.

Lemma Compare_match_iff base patch :
  Report_Verdict (Compare base patch) = VerdictMatch ↔
    Forall2 obs_match (Result_Steps base) (Result_Steps patch).
Proof.
  rewrite Compare_verdict.
  destruct (Nat.eqb_spec (length (Result_Steps base)) (length (Result_Steps patch)))
    as [Hlen|Hlen]; cbn [negb].
  - rewrite (Compare_steps _ _ Hlen).
    rewrite verdict_of_match by apply is_delta_zip.
    rewrite Forall_zip_Forall2 by done. split; intros Hf;
      (eapply Forall2_impl; [exact Hf|]); intros ??; apply compareObs_match_iff.
  - split; [done|]. by intros ?%Forall2_length.
Qed.

(** C29: two runs match exactly when they have the same number of steps and every
    pair of observations is of the same request, without an error, not refused by
    authentication on both sides, with the same status and with bodies that are
    JSON values equal up to volatile fields, or no JSON and equal up to the space
    around them; they are incomplete
    exactly when the lengths differ or some pair cannot be compared (different
    requests, an error, both refused); there is no other verdict but differ. *)
Theorem Compare_verdicts base patch :
  let rep := Compare base patch in
  (Report_Verdict rep = VerdictMatch ↔
     Forall2 obs_match (Result_Steps base) (Result_Steps patch)) ∧
  (Report_Verdict rep = VerdictIncomplete ↔
     length (Result_Steps base) ≠ length (Result_Steps patch) ∨
     ∃ i a b, Result_Steps base !! i = Some a ∧ Result_Steps patch !! i = Some b ∧ not_comparable a b) ∧
  Report_Verdict rep ∈ [VerdictMatch; VerdictDiffer; VerdictIncomplete].
Proof.
  intros rep. split; [apply Compare_match_iff|]. unfold rep. rewrite Compare_verdict.
  split; [|unfold verdict_of; repeat case_match; set_solver].
  rewrite verdict_of_incomplete by apply is_delta_zip. rewrite negb_true_iff, Nat.eqb_neq.
  destruct (decide (length (Result_Steps base) = length (Result_Steps patch))) as [Hlen|Hlen]; [|tauto].
  rewrite (Compare_steps _ _ Hlen). apply or_iff_compat_l. split.
  - intros (d & (i & Hd)%list_elem_of_lookup & Hs).
    apply lookup_zip_with_Some in Hd as (a & b & -> & Ha & Hb). exists i, a, b. by rewrite <- compareObs_incomplete_iff.
  - intros (i & a & b & Ha & Hb & Hn). exists (compareObs a b). split; [|by apply compareObs_incomplete_iff].
    apply list_elem_of_lookup. exists i. apply lookup_zip_with_Some. by exists a, b.
Qed.

End compare_props.

(** ** Properties of the latency summary *)

(** The float64 computation of the index is the exact nearest rank for every
    number of samples a run can have (at most [maxRepeats]). *)
Definition nearest_rank (pct n : Z) : Z := ((pct * n + 99) / 100 - 1)%Z.

Lemma rank_index_exact n :
  (1 ≤ n ≤ maxRepeats)%Z →
  rank_index n f050 = nearest_rank 50 n ∧ rank_index n f095 = nearest_rank 95 n ∧
  rank_index n f099 = nearest_rank 99 n.
Proof.
  intros Hn. unfold maxRepeats in Hn.
  assert (forallb (λ k, let n := Z.of_nat k in
            (rank_index n f050 =? nearest_rank 50 n)%Z &&
            (rank_index n f095 =? nearest_rank 95 n)%Z &&
            (rank_index n f099 =? nearest_rank 99 n)%Z) (seq 1 100) = true) as H
    by (vm_compute; reflexivity).
  rewrite forallb_True in H.
  assert (Z.to_nat n ∈ seq 1 100) as Hin by (apply elem_of_seq; lia).
  specialize (H _ Hin). cbv beta zeta in H. rewrite Z2Nat.id in H by lia.
  apply andb_true_iff in H as [[H1 H2]%andb_true_iff H3].
  by rewrite Z.eqb_eq in H1, H2, H3.
Qed.

Lemma rank_index_range n p : (0 < n)%Z → (0 ≤ rank_index n p < n)%Z.
Proof.
  unfold rank_index. intros Hn.
  destruct (Z.ltb_spec (int_ceil (SFmul 53 1024 p (float64_of_int n)) - 1) 0);
    match goal with |- context [(?a <=? ?b)%Z] => destruct (Z.leb_spec a b) end; lia.
Qed.

Lemma rank_elem l p : l ≠ [] → rank l p ∈ l.
Proof.
  intros Hl. unfold rank. destruct l as [|z l]; [done|].
  pose proof (rank_index_range (Z.of_nat (length (z :: l))) p ltac:(simpl; lia)) as Hr.
  destruct (Z.eqb_spec (Z.of_nat (length (z :: l))) 0); [simpl in *; lia|].
  destruct (lookup_lt_is_Some_2 (z :: l) (Z.to_nat (rank_index (Z.of_nat (length (z :: l))) p)))
    as [x Hx]; [lia|]. rewrite Hx. by eapply list_elem_of_lookup_2.
Qed.

(** In a sorted list, the samples up to index [i] are at most the one at [i],
    and those from [i] on at least. *)
Lemma sorted_count_le l i x :
  StronglySorted (λ a b, Z.compare a b ≠ Gt) l → l !! i = Some x →
  (Z.of_nat i + 1 ≤ count (λ y, (y <=? x)%Z) l)%Z ∧
  (Z.of_nat (length l) - Z.of_nat i ≤ count (λ y, (x <=? y)%Z) l)%Z.
Proof.
  intros Hs. revert i x. induction Hs as [|a l Hs IH Ha]; intros i x Hi; [done|].
  rewrite Forall_forall in Ha. destruct i as [|i]; simplify_eq/=.
  - rewrite Z.leb_refl. split.
    + pose proof (count_nonneg (λ y, (y <=? x)%Z) l). lia.
    + assert (count (λ _, true) l ≤ count (λ y, (x <=? y)%Z) l)%Z as Hc.
      { apply count_le. intros y Hy _. apply Z.leb_le. by apply Ha in Hy. }
      assert (count (λ _ : Z, true) l = Z.of_nat (length l)) as Hlen.
      { clear. induction l as [|b l IH]; [done|]. simpl length. simpl count. lia. }
      lia.
  - destruct (IH _ _ Hi) as [H1 H2].
    assert (a ≤ x)%Z by (apply (Ha x); by eapply list_elem_of_lookup_2).
    rewrite (proj2 (Z.leb_le a x)) by done.
    split; [lia|]. destruct (x <=? a)%Z; lia.
Qed.

Lemma rank_lookup l p :
  l ≠ [] → l !! Z.to_nat (rank_index (Z.of_nat (length l)) p) = Some (rank l p).
Proof.
  intros Hl. unfold rank.
  assert (0 < Z.of_nat (length l))%Z by (destruct l; [done|simpl; lia]).
  pose proof (rank_index_range (Z.of_nat (length l)) p ltac:(done)).
  destruct (Z.eqb_spec (Z.of_nat (length l)) 0); [lia|].
  destruct (lookup_lt_is_Some_2 l (Z.to_nat (rank_index (Z.of_nat (length l)) p)))
    as [x Hx]; [lia|]. by rewrite Hx.
Qed.

Lemma sort_Z_sorted l : StronglySorted (λ a b, Z.compare a b ≠ Gt) (sort_cmp Z.compare l).
Proof. apply sort_cmp_sorted, _. Qed.

(** A nearest-rank percentile: an observed sample, with at least [pct] percent
    of the samples at or below it and the rest at or above it. *)
Definition percentile (pct x : Z) (samples : list Z) : Prop :=
  let n := Z.of_nat (length samples) in
  x ∈ samples ∧
  (pct * n ≤ 100 * count (λ y, y <=? x) samples)%Z ∧
  ((100 - pct) * n ≤ 100 * count (λ y, x <=? y) samples)%Z.

Lemma rank_percentile samples pct f :
  samples ≠ [] → (0 ≤ pct ≤ 100)%Z →
  rank_index (Z.of_nat (length samples)) f = nearest_rank pct (Z.of_nat (length samples)) →
  percentile pct (rank (sort_cmp Z.compare samples) f) samples.
Proof.
  intros Hne Hpct Hidx. unfold percentile.
  set (cp := sort_cmp Z.compare samples).
  assert (length cp = length samples) as Hlen by apply length_sort_cmp.
  assert (cp ≡ₚ samples) as Hp by apply sort_cmp_perm.
  assert (cp ≠ []) as Hcp by (by rewrite <- length_zero_iff_nil, Hlen, length_zero_iff_nil).
  pose proof (rank_lookup cp f Hcp) as Hl. rewrite Hlen, Hidx in Hl.
  pose proof (sorted_count_le cp _ _ (sort_Z_sorted samples) Hl) as [H1 H2].
  rewrite Hlen in H2. rewrite Hp in H1, H2.
  split; [rewrite <- Hp; by apply rank_elem|].
  assert (0 < Z.of_nat (length samples))%Z by (destruct samples; [done|simpl; lia]).
  pose proof (rank_index_range (Z.of_nat (length samples)) f ltac:(done)) as Hr.
  rewrite Hidx in Hr. unfold nearest_rank in *.
  pose proof (Z.div_mod (pct * Z.of_nat (length samples) + 99) 100 ltac:(done)).
  pose proof (Z.mod_pos_bound (pct * Z.of_nat (length samples) + 99) 100 ltac:(done)).
  split; lia.
Qed.

(** [Summarize] reports the sample count, the least sample and the nearest-rank
    median, and the 95th and 99th percentiles exactly when there are at least
    [minPercentileN] samples; below that they are withheld. *)
Record summary_of (samples : list Z) (s : Summary) : Prop := {
  so_n : Sum_N s = Z.of_nat (length samples);
  so_min : samples ≠ [] → Sum_MinNS s ∈ samples ∧ ∀ x, x ∈ samples → (Sum_MinNS s ≤ x)%Z;
  so_med : samples ≠ [] → percentile 50 (Sum_MedNS s) samples;
  so_enough : (minPercentileN ≤ Sum_N s)%Z →
    Sum_HasP95 s = true ∧ Sum_HasP99 s = true ∧
    percentile 95 (Sum_P95NS s) samples ∧ percentile 99 (Sum_P99NS s) samples;
  so_withheld : (Sum_N s < minPercentileN)%Z →
    Sum_HasP95 s = false ∧ Sum_HasP99 s = false ∧ Sum_P95NS s = 0%Z ∧ Sum_P99NS s = 0%Z;
}.

Lemma sorted_head_le l x y :
  StronglySorted (λ a b, Z.compare a b ≠ Gt) l → l !! 0%nat = Some x → y ∈ l → (x ≤ y)%Z.
Proof.
  destruct 1 as [|a l Hs Ha]; intros Hx Hy; simplify_eq/=.
  apply elem_of_cons in Hy as [->|Hy]; [lia|]. rewrite Forall_forall in Ha. by apply Ha.
Qed.

Lemma Summarize_nil : Summarize [] = MkSummary 0 0 0 0 0 false false.
Proof. reflexivity. Qed.

Lemma Summarize_min samples :
  samples ≠ [] →
  Sum_MinNS (Summarize samples) ∈ samples ∧
  ∀ x, x ∈ samples → (Sum_MinNS (Summarize samples) ≤ x)%Z.
Proof.
  intros Hne. unfold Summarize.
  destruct (Z.eqb_spec (Z.of_nat (length samples)) 0); [by destruct samples|]. simpl.
  pose proof (sort_Z_sorted samples) as Hs.
  pose proof (sort_cmp_perm Z.compare samples) as Hp.
  destruct (sort_cmp Z.compare samples) as [|a l] eqn:E.
  { by apply Permutation_nil_l in Hp. }
  simpl. split; [rewrite <- Hp; left|].
  intros x Hx. rewrite <- Hp in Hx. by eapply sorted_head_le.
Qed.

(** For as many samples as a run can have, [Summarize] reports their number,
    the least one and the nearest-rank median, and the 95th and 99th percentiles
    exactly when there are at least twenty samples; the rank computed in
    floating point is the exact one. *)
Theorem Summarize_summary samples :
  (Z.of_nat (length samples) ≤ maxRepeats)%Z → summary_of samples (Summarize samples).
Proof.
  intros Hmax. destruct (decide (samples = [])) as [->|Hne].
  { rewrite Summarize_nil. by split; simpl; try done; unfold minPercentileN. }
  pose proof (Summarize_min samples Hne) as Hmin. revert Hmin. unfold Summarize.
  assert (1 ≤ Z.of_nat (length samples))%Z by (destruct samples; [done|simpl; lia]).
  destruct (Z.eqb_spec (Z.of_nat (length samples)) 0); [lia|]. intros Hmin.
  destruct (rank_index_exact (Z.of_nat (length samples))) as (H5 & H95 & H99); [done|].
  split; simpl; [done|by intros _|intros _; by apply rank_percentile|..].
  - intros Hn. rewrite (proj2 (Z.leb_le _ _) Hn). 
    split; [done|]. split; [done|]. split; by apply rank_percentile.
  - intros Hn. by rewrite (proj2 (Z.leb_gt _ _) Hn).
Qed.

(** Away from overflow of the 64-bit products, [Shifted] is the documented
    bound: more than twice the baseline median and at least 5 ms slower. *)
Theorem Shifted_spec l :
  (0 ≤ Sum_MedNS (Lat_Baseline l) < 2 ^ 62)%Z → (0 ≤ Sum_MedNS (Lat_Patch l) < 2 ^ 62)%Z →
  Shifted l = true ↔
    Sum_N (Lat_Baseline l) ≠ 0%Z ∧ Sum_N (Lat_Patch l) ≠ 0%Z ∧
    (2 * Sum_MedNS (Lat_Baseline l) < Sum_MedNS (Lat_Patch l))%Z ∧
    (5000000 ≤ Sum_MedNS (Lat_Patch l) - Sum_MedNS (Lat_Baseline l))%Z.
Proof.
  intros Hb Hp. unfold Shifted, ShiftRatio, ShiftMinNS.
  rewrite !int64_id by (unfold in_int64; lia).
  destruct (Z.eqb_spec (Sum_N (Lat_Baseline l)) 0), (Z.eqb_spec (Sum_N (Lat_Patch l)) 0);
    simpl; [naive_solver..|].
  rewrite andb_true_iff, Z.ltb_lt, Z.leb_le. lia.
Qed.

(** ** Properties of workloads and runs *)

(** A step that may be derived from traces: a read-only method, a safe concrete
    path, and no body or headers. *)
Definition derived_step (st : Step) : Prop :=
  safeReplay (Step_Method st) (Step_Path st) = true ∧ Step_Body st = "" ∧
  Step_Headers st = [] ∧ Step_Provenance st = ProvenanceSpanRoute.

Record derived_steps (seen : list string) (out : list Step) : Prop := {
  ds_safe : Forall derived_step out;
  ds_nodup : NoDup (step_key <$> out);
  ds_seen : ∀ k, k ∈ step_key <$> out → k ∈ seen;
}.

Lemma derived_steps_snoc seen out st :
  derived_steps seen out → derived_step st → step_key st ∉ seen →
  derived_steps (step_key st :: seen) (out ++ [st]).
Proof.
  intros [Hs Hn Hse] Hst Hk. split.
  - apply Forall_app. by split; [|constructor].
  - rewrite fmap_app. apply NoDup_app. split; [done|].
    split; [set_solver|]. apply NoDup_singleton.
  - intros k. rewrite fmap_app, elem_of_app. set_solver.
Qed.

Lemma fromSpans_loop_ok spans seen out :
  derived_steps seen out → (length out < maxSteps)%nat →
  ∃ seen', derived_steps seen' (fromSpans_loop spans seen out) ∧
           (length (fromSpans_loop spans seen out) ≤ maxSteps)%nat.
Proof.
  revert seen out. induction spans as [|s spans IH]; intros seen out Hd Hlen;
    cbn [fromSpans_loop].
  { exists seen. split; [done|lia]. }
  destruct (skipKind _); [by apply IH|].
  destruct (routeParts s) as [[m p]|]; [|by apply IH].
  destruct (safeReplay m p) eqn:Hsafe; cbn [negb]; [|by apply IH].
  case_bool_decide as Hk; [by apply IH|].
  set (st := MkStep m p "" [] ProvenanceSpanRoute (ingest.Span_ServiceName s)).
  assert (derived_steps (step_key st :: seen) (out ++ [st])) as Hd'
    by (apply derived_steps_snoc; [done|by repeat split|done]).
  destruct (Nat.leb_spec maxSteps (length (out ++ [st]))) as [Hl|Hl].
  - exists (step_key st :: seen). split; [done|]. rewrite length_app. simpl. lia.
  - by apply IH.
Qed.

(** A workload derived from traces has at most [maxSteps] steps, all with a
    read-only method and a safe concrete path, no body and no headers, and no
    request twice. *)
Theorem FromSpans_derived spans :
  let steps := Workload_Steps (FromSpans spans) in
  Forall derived_step steps ∧ NoDup (step_key <$> steps) ∧ (length steps ≤ maxSteps)%nat.
Proof.
  destruct (fromSpans_loop_ok spans [] []) as (seen & [Hs Hn _] & Hlen).
  - split; [constructor|constructor|set_solver].
  - unfold maxSteps. simpl. lia.
  - by split.
Qed.

Section run_props.
  Context `{GoNet}.

(** A run has one observation per step of the workload, in its order. *)
Theorem Run_ok ex target w r :
  Run ex target w = Ok r →
  (λ o, (Obs_Method o, Obs_Path o)) <$> Result_Steps r =
  (λ st, (Step_Method st, Step_Path st)) <$> Workload_Steps w.
Proof.
  unfold Run. intros (b & Hb & Hr)%rbind_ok. apply rbind_ok in Hr as ([] & _ & Hr).
  simplify_eq/=. rewrite <- list_fmap_compose. apply list_fmap_ext. intros i st _.
  unfold compose, runStep. repeat case_match; done.
Qed.

(** A body over the limit is an error of the step, never a truncated body
    that could compare equal: without an error the whole body was recorded. *)
Theorem runStep_body st dur status body :
  Obs_Err (runStep st (Response dur status (Ok body))) = "" →
  Obs_Body (runStep st (Response dur status (Ok body))) = body ∧ (len body ≤ maxResponse)%Z.
Proof.
  unfold runStep. destruct (Z.ltb_spec maxResponse
    (len (str_take (Z.to_nat (maxResponse + 1)) body))) as [Hl|Hl]; [done|].
  intros _. cbn [Obs_Body].
  assert (String.length body ≤ Z.to_nat maxResponse)%nat as Hb.
  { unfold len, maxResponse in *. rewrite length_str_take in Hl. lia. }
  split; [|unfold len, maxResponse in *; lia].
  apply str_take_all. unfold maxResponse in *. lia.
Qed.

Lemma burst_finish_ok run f n fin out :
  (∀ i, (i < n)%nat → run i = Ok (f i)) → (∀ i, i ∈ fin → (i < n)%nat) →
  foldl (burst_finish run) (out, None) fin =
    (foldl (λ o i, <[i := f i]> o) out fin, None).
Proof.
  intros Hrun. revert out. induction fin as [|i fin IH]; intros out Hfin; simpl; [done|].
  unfold burst_finish at 2. rewrite Hrun by set_solver. apply IH. set_solver.
Qed.

Lemma foldl_insert_lookup {A} (f : nat → A) fin out j :
  (∀ i, i ∈ fin → (i < length out)%nat) → NoDup fin →
  foldl (λ o i, <[i := f i]> o) out fin !! j =
    if bool_decide (j ∈ fin) then Some (f j) else out !! j.
Proof.
  revert out. induction fin as [|i fin IH]; intros out Hlt Hnd; simpl; [done|].
  inversion Hnd; subst. rewrite IH; [|intros; rewrite length_insert; set_solver|done].
  destruct (decide (j ∈ fin)) as [Hj|Hj].
  - by rewrite !bool_decide_eq_true_2 by set_solver.
  - rewrite (bool_decide_eq_false_2 (j ∈ fin)) by done.
    destruct (decide (i = j)) as [->|Hij].
    + rewrite bool_decide_eq_true_2 by set_solver.
      apply list_lookup_insert_eq. set_solver.
    + rewrite bool_decide_eq_false_2 by set_solver. by apply list_lookup_insert_ne.
Qed.

(** Whatever order the goroutines finish in, a burst whose runs all succeed
    returns the results in the order of their slots. *)
Theorem Burst_slots fin ctx ex target w n f :
  (1 ≤ n ≤ maxBurst)%Z → is_ok (CheckTarget target) = true → Workload_Steps w ≠ [] →
  fin ≡ₚ seq 0 (Z.to_nat n) →
  (∀ i, (i < Z.to_nat n)%nat → burst_one ctx ex target w i = Ok (f i)) →
  Burst fin ctx ex target w n = Ok (f <$> seq 0 (Z.to_nat n)).
Proof.
  intros Hn Ht Hw Hfin Hrun. unfold Burst, guard_err.
  destruct (Z.ltb_spec n 1); [lia|]. destruct (Z.ltb_spec maxBurst n); [lia|]. simpl.
  destruct (CheckTarget target); [simpl|done].
  rewrite bool_decide_eq_false_2 by done. simpl.
  assert (∀ i, i ∈ fin → (i < Z.to_nat n)%nat) as Hlt.
  { intros i Hi. rewrite Hfin in Hi. apply elem_of_seq in Hi. lia. }
  rewrite (burst_finish_ok _ f (Z.to_nat n)) by done. f_equal. apply list_eq. intros j.
  assert (NoDup fin) as Hnd by (rewrite Hfin; apply NoDup_seq).
  rewrite foldl_insert_lookup; [|by rewrite length_replicate|done].
  rewrite list_lookup_fmap. destruct (decide (j < Z.to_nat n)%nat) as [Hj|Hj].
  - rewrite lookup_seq_lt by done. rewrite bool_decide_eq_true_2; [done|].
    rewrite Hfin. apply elem_of_seq. lia.
  - rewrite lookup_seq_ge by lia. rewrite bool_decide_eq_false_2.
    + simpl. apply lookup_ge_None_2. rewrite length_replicate. lia.
    + intros Hin%Hlt. lia.
Qed.

End run_props.

End replay.
