(* ===== verification/Impact.v ===== *)
(** * Impact findings, routes and classified changes: [internal/impact]

    [Module impact] models the data of [analyze.go], all of [routes.go] and
    [eval.go], and the classification of [files.go]. A Go map used as a set
    and then sorted is the sorted list of its distinct keys. *)

From S2P Require Import Prelude GoStrings Ingest.

Module impact.

Definition maxFindings : nat := 500.
Definition ProvenanceTraceEntryCaller : string := "trace_entry_caller".

Record Finding := MkFinding {
  F_Via : string;
  F_TraceID : string;
  F_SpanID : string;
  F_EntrySpanID : string;
  F_Name : string;
  F_File : string;
  F_SourceID : string;
  F_Service : string;
  F_Path : string;
  F_Route : string;
  F_Line : Z;
  F_Reason : string;
  F_Provenance : string;
}.

Record RouteAttribution := MkRouteAttribution {
  RA_Route : string;
  RA_Provenance : string;
  RA_Via : string;
}.
#[global] Instance RouteAttribution_eq_dec : EqDecision RouteAttribution.
Proof. solve_decision. Defined.

Record RouteTraceCount := MkRouteTraceCount {
  RT_Route : string;
  RT_Traces : Z;
}.

Record Report := MkReport {
  Rep_RouteTraceCounts : list RouteTraceCount;
  Rep_Files : list string;
  Rep_Direct : list Finding;
  Rep_Likely : list Finding;
  Rep_Runtime : list Finding;
  Rep_Unobserved : list Finding;
}.

Record Changes := MkChanges {
  Ch_Bound : list string;
  Ch_Unanalyzed : list string;
}.

(** The sorted keys of a set of strings. *)
Definition sorted_set (l : list string) : list string :=
  sort_cmp String.compare (remove_dups l).

(** ** analyze.go: helpers *)

Definition routeLabel (method path : string) : string :=
  let method := ToUpper (TrimSpace method) in
  let path := before_byte (TrimSpace path) (byte 63) in
  if (method == "") || (path == "") then ""
  else method +:+ " " +:+ (if HasPrefix path "/" then path else "/" +:+ path).

Definition appendFinding (dst : list Finding) (f : Finding) : list Finding :=
  if (maxFindings <=? length dst)%nat then dst else dst ++ [f].

Definition cmp_finding : Finding → Finding → comparison :=
  cmp_then (cmp_on F_File String.compare)
  (cmp_then (cmp_on F_Name String.compare)
  (cmp_then (cmp_on F_Path String.compare)
  (cmp_then (cmp_on F_Route String.compare)
  (cmp_then (cmp_on F_TraceID String.compare)
            (cmp_on F_SpanID String.compare))))).

Definition sortFindings (fs : list Finding) : list Finding := sort_cmp cmp_finding fs.

(** ** routes.go *)

Definition splitRoute (raw : string) : option (string * string) :=
  match SplitN2 (TrimSpace raw) (byte 32) with
  | None => None
  | Some (a, b) =>
      let method := ToUpper (TrimSpace a) in
      let path := before_byte (TrimSpace b) (byte 63) in
      if (method == "") || (path == "") then None
      else Some (method, if HasPrefix path "/" then path else "/" +:+ path)
  end.

Definition finding_raw (f : Finding) : string :=
  let raw := TrimSpace (F_Route f) in
  if raw == "" then TrimSpace (F_Name f) else raw.

Definition replayLabel (f : Finding) : option string :=
  match splitRoute (finding_raw f) with
  | None => None
  | Some (method, path) =>
      if negb (bool_decide (method ∈ ["GET"; "HEAD"; "OPTIONS"])) then None
      else if ContainsAny path "{}*" || Contains path ".." then None
      else Some (method +:+ " " +:+ path)
  end.

(** First occurrences, in order: the [seen] map of the loops. *)
Fixpoint first_seen (seen : list string) (l : list string) : list string :=
  match l with
  | [] => []
  | x :: l' =>
      if bool_decide (x ∈ seen) then first_seen seen l' else x :: first_seen (x :: seen) l'
  end.

Definition ReplayableRoutes (rep : Report) : list string :=
  first_seen [] (omap replayLabel (Rep_Runtime rep)).

Definition isMethod (m : string) : bool :=
  forallb (λ c, (65 <=? byte_val c) && (byte_val c <=? 90))%N (bytes m) && (m != "").

Definition runtimeRoute (f : Finding) : option string :=
  let raw := finding_raw f in
  match SplitN2 raw (byte 32) with
  | None => None
  | Some (_, b) =>
      if negb (HasPrefix (TrimSpace b) "/") then None
      else match splitRoute raw with
           | None => None
           | Some (method, path) =>
               if negb (isMethod method) || Contains path " " then None
               else Some (method +:+ " " +:+ path)
           end
  end.

Definition RuntimeRoutes (rep : Report) : list string :=
  sorted_set (omap runtimeRoute (Rep_Runtime rep)).

Definition wildSegment (t : string) : bool :=
  (HasPrefix t "{" && HasSuffix t "}") || HasPrefix t ":".

Fixpoint matchSegments (ts ps : list string) : bool :=
  match ts, ps with
  | [], [] => true
  | t :: ts', p :: ps' =>
      if (wildSegment t && (p != "")) || (t == p) then matchSegments ts' ps' else false
  | _, _ => false
  end.

Definition segments (path : string) : list string := Split (Trim path "/") (byte 47).

Definition RouteMatches (route method path : string) : bool :=
  match splitRoute route with
  | None => false
  | Some (rm, tmpl) =>
      EqualFold rm method && matchSegments (segments tmpl) (segments (before_byte path (byte 63)))
  end.

(** ** files.go: [Inert] and [Classify] *)

(** [path.Ext]: from the last dot of the last element. *)
Definition path_Ext (p : string) : string :=
  let base := match LastIndexByte p (byte 47) with
              | Some i => str_drop (S i) p
              | None => p
              end in
  match LastIndexByte base (byte 46) with
  | Some i => str_drop i base
  | None => ""
  end.

(** [path.Base]: the last element, trailing slashes removed. *)
Definition path_Base (p : string) : string :=
  if p == "" then "."
  else
    let q := TrimRight p "/" in
    if q == "" then "/"
    else match LastIndexByte q (byte 47) with
         | Some i => str_drop (S i) q
         | None => q
         end.

Definition Inert (p : string) : bool :=
  bool_decide (path_Ext p ∈ [".md"; ".rst"]) ||
  let b := path_Base p in
  HasPrefix b "LICENSE" || HasPrefix b "NOTICE" || HasPrefix b "AUTHORS" ||
  HasPrefix b "CHANGELOG" || (b == "CODEOWNERS") || HasSuffix b "_test.go".

Definition direct_of (rep : Report) (p : string) : list Finding :=
  filter (λ f, F_File f = p) (Rep_Direct rep).

Definition binds (f : Finding) : bool :=
  (F_Reason f == "changed_lines") && (F_SourceID f != "").

(** Whether every direct finding of a changed path binds changed lines of a
    function, and there is one. *)
Definition analyzed (rep : Report) (p : string) : bool :=
  forallb binds (direct_of rep p) && negb (bool_decide (direct_of rep p = [])).

Definition Classify (rep : Report) : Changes :=
  let live := filter (λ p, Inert p = false) (Rep_Files rep) in
  MkChanges
    (sorted_set (F_SourceID <$> (filter (λ p, analyzed rep p = true) live ≫= direct_of rep)))
    (sorted_set (filter (λ p, analyzed rep p = false) live)).

(** ** eval.go *)

Record Label := MkLabel {
  L_ID : string;
  L_Direct : list string;
  L_Likely : list string;
  L_ForbidLikely : list string;
  L_Unobserved : string;
}.

Record CaseScore := MkCaseScore {
  CS_ID : string;
  CS_DirectHit : Z;
  CS_DirectPred : Z;
  CS_DirectGold : Z;
  CS_LikelyHit : Z;
  CS_LikelyPred : Z;
  CS_LikelyGold : Z;
  CS_Misses : list string;
  CS_ForbiddenLikely : list string;
}.

Definition nameSet (fs : list Finding) (reason : string) : list string :=
  remove_dups (F_Name <$>
    filter (λ f, (reason = "" ∨ F_Reason f = reason) ∧ F_Name f ≠ "") fs).

Definition zlen {A} (l : list A) : Z := Z.of_nat (length l).

Definition Score (rep : Report) (lab : Label) : CaseScore :=
  let predD := nameSet (Rep_Direct rep) "changed_lines" in
  let predL := nameSet (Rep_Likely rep) "caller" in
  let missing := negb (existsb (λ f, F_Reason f == L_Unobserved lab) (Rep_Unobserved rep)) in
  MkCaseScore (L_ID lab)
    (zlen (filter (λ n, n ∈ predD) (L_Direct lab))) (zlen predD) (zlen (L_Direct lab))
    (zlen (filter (λ n, n ∈ predL) (L_Likely lab))) (zlen predL) (zlen (L_Likely lab))
    (((λ n, "direct:" +:+ n) <$> filter (λ n, n ∉ predD) (L_Direct lab)) ++
     ((λ n, "likely:" +:+ n) <$> filter (λ n, n ∉ predL) (L_Likely lab)) ++
     (if (L_Unobserved lab != "") && missing then ["unobserved:" +:+ L_Unobserved lab] else []))
    (filter (λ n, n ∈ predL) (L_ForbidLikely lab)).

(** ** Properties *)

Lemma elem_of_sorted_set x l : x ∈ sorted_set l ↔ x ∈ l.
Proof. unfold sorted_set. by rewrite elem_of_sort_cmp, elem_of_remove_dups. Qed.

Lemma NoDup_sorted_set l : NoDup (sorted_set l).
Proof. unfold sorted_set. rewrite sort_cmp_perm. apply NoDup_remove_dups. Qed.

Lemma sorted_set_sorted l : StronglySorted (λ x y, String.compare x y ≠ Gt) (sorted_set l).
Proof. apply sort_cmp_sorted, _. Qed.

(** The order in which a Go map is iterated before the sort is not observable. *)
Lemma sorted_set_perm l k : (∀ x, x ∈ l ↔ x ∈ k) → sorted_set l = sorted_set k.
Proof.
  intros Hlk. apply sort_cmp_perm_eq; [apply _|intros x y _ _; apply String.compare_eq_iff|].
  apply NoDup_Permutation; [apply NoDup_remove_dups..|].
  intros x. by rewrite !elem_of_remove_dups.
Qed.

Lemma elem_of_direct_of rep p f :
  f ∈ direct_of rep p ↔ F_File f = p ∧ f ∈ Rep_Direct rep.
Proof. unfold direct_of. by rewrite list_elem_of_filter. Qed.

Lemma analyzed_true rep p :
  analyzed rep p = true ↔
    (∃ f, f ∈ Rep_Direct rep ∧ F_File f = p) ∧
    ∀ f, f ∈ Rep_Direct rep → F_File f = p → binds f = true.
Proof.
  unfold analyzed. rewrite andb_true_iff, forallb_True, negb_true_iff, bool_decide_eq_false.
  setoid_rewrite elem_of_direct_of. split.
  - intros [Hb Hne]. split; [|naive_solver].
    destruct (direct_of rep p) as [|f l] eqn:E; [done|].
    exists f. assert (f ∈ direct_of rep p) as Hf by (rewrite E; left).
    by apply elem_of_direct_of in Hf as [].
  - intros [(f & Hf & Hp) Hb]. split; [naive_solver|].
    intros E. assert (f ∈ direct_of rep p) as Hin by (by apply elem_of_direct_of).
    rewrite E in Hin. by apply not_elem_of_nil in Hin.
Qed.

Lemma elem_of_Unanalyzed rep p :
  p ∈ Ch_Unanalyzed (Classify rep) ↔
    p ∈ Rep_Files rep ∧ Inert p = false ∧ analyzed rep p = false.
Proof.
  unfold Classify. simpl. rewrite elem_of_sorted_set, !list_elem_of_filter. tauto.
Qed.

Lemma elem_of_Bound rep id :
  id ∈ Ch_Bound (Classify rep) ↔
    ∃ f, f ∈ Rep_Direct rep ∧ F_SourceID f = id ∧ F_File f ∈ Rep_Files rep ∧
         Inert (F_File f) = false ∧ analyzed rep (F_File f) = true.
Proof.
  unfold Classify. simpl. rewrite elem_of_sorted_set, list_elem_of_fmap.
  setoid_rewrite list_elem_of_bind. split.
  - intros (f & -> & p & [<- Hf]%elem_of_direct_of & Hp).
    apply list_elem_of_filter in Hp as [Ha [Hi Hp]%list_elem_of_filter]. by exists f.
  - intros (f & Hf & <- & Hp & Hi & Ha). exists f. split; [done|].
    exists (F_File f). by rewrite elem_of_direct_of, !list_elem_of_filter.
Qed.

(** Classification drops nothing: a changed path that is not inert is reported
    as unanalyzed, or it has a direct finding and every direct finding of it
    names a function, all of which are reported as bound. *)
Theorem Classify_total rep p :
  p ∈ Rep_Files rep → Inert p = false →
  p ∈ Ch_Unanalyzed (Classify rep) ∨
  ((∃ f, f ∈ Rep_Direct rep ∧ F_File f = p) ∧
   ∀ f, f ∈ Rep_Direct rep → F_File f = p →
     F_Reason f = "changed_lines" ∧ F_SourceID f ≠ "" ∧
     F_SourceID f ∈ Ch_Bound (Classify rep)).
Proof.
  intros Hp Hi. destruct (analyzed rep p) eqn:Ha.
  - right. pose proof Ha as [Hex Hall]%analyzed_true. split; [done|].
    intros f Hf Hfp. pose proof (Hall f Hf Hfp) as Hb. unfold binds in Hb. go_inv.
    split; [done|]. split; [done|]. apply elem_of_Bound. by exists f.
  - left. by apply elem_of_Unanalyzed.
Qed.

(** A request matches a route segment by segment. *)
Definition seg_match (t p : string) : Prop := (wildSegment t = true ∧ p ≠ "") ∨ t = p.

Lemma matchSegments_iff ts ps : matchSegments ts ps = true ↔ Forall2 seg_match ts ps.
Proof.
  revert ps. induction ts as [|t ts IH]; intros [|p ps]; simpl.
  - by split; [constructor|].
  - split; [done|inversion 1].
  - split; [done|inversion 1].
  - unfold seg_match at 1. split.
    + destruct ((wildSegment t && (p != "")) || (t == p)) eqn:E; [|done].
      intros Hm%IH. constructor; [|done]. apply orb_true_iff in E as [E|E]; go_inv; auto.
    + inversion 1 as [|???? Hs Hf]; subst. apply IH in Hf. rewrite Hf.
      destruct Hs as [[-> Hp]| ->].
      * by rewrite bool_decide_eq_false_2.
      * rewrite (bool_decide_eq_true_2 (p = p)) by done. by rewrite orb_true_r.
Qed.

(** A request matches a route exactly when the methods agree up to case and
    the paths have the same number of segments, each equal or matched by a
    wildcard segment of the route. *)
Theorem RouteMatches_iff route method path :
  RouteMatches route method path = true ↔
    ∃ rm tmpl, splitRoute route = Some (rm, tmpl) ∧ ToLower rm = ToLower method ∧
      Forall2 seg_match (segments tmpl) (segments (before_byte path (byte 63))).
Proof.
  unfold RouteMatches. destruct (splitRoute route) as [[rm tmpl]|].
  - unfold EqualFold. rewrite andb_true_iff, bool_decide_eq_true, matchSegments_iff.
    naive_solver.
  - naive_solver.
Qed.

End impact.
