(* ===== verification/Analyze.v ===== *)
(** * Impact analysis: [internal/impact/analyze.go], [FromDiff] of [files.go]

    [Module analyze] models [Analyze]: a diff is mapped onto the functions of the
    source graph, their callers, the spans bound to them and the routes those
    spans were entered by. Ranging over the set of changed functions is a fold over
    a list of them; the theorems hold for every order of that list. [sort.Slice]
    may leave findings that differ in no sort key in any order, so the theorems
    speak of the findings reported, not of their positions. *)

From S2P Require Import Prelude GoStrings GoText Ingest Diff DiffReport Source Graph Locate Impact.
Import ingest impact.

Module analyze.

(** ** The index of functions by file *)

Record srcIndex := MkSrcIndex {
  ix_files : gmap string source.Node;
  ix_funcs : gmap string (list source.Node);
}.

Definition add_node (idx : srcIndex) (n : source.Node) : srcIndex :=
  if source.N_File n == "" then idx
  else if source.N_Kind n == source.KindFile then
    MkSrcIndex (<[source.N_File n := n]> (ix_files idx)) (ix_funcs idx)
  else if source.N_Kind n == source.KindFunction then
    MkSrcIndex (ix_files idx)
      (<[source.N_File n := default [] (ix_funcs idx !! source.N_File n) ++ [n]]> (ix_funcs idx))
  else idx.

Definition cmp_func : source.Node → source.Node → comparison :=
  cmp_then (cmp_on source.N_Line Z.compare) (cmp_on source.N_ID String.compare).

Definition index (g : source.Graph) : srcIndex :=
  let idx := foldl add_node (MkSrcIndex ∅ ∅) (source.g_nodes g) in
  MkSrcIndex (ix_files idx) (sort_cmp cmp_func <$> ix_funcs idx).

Definition funcs_of (idx : srcIndex) (path : string) : list source.Node :=
  default [] (ix_funcs idx !! path).

(** ** Functions that changed lines fall into *)

Definition MaxInt : Z := 2 ^ 63 - 1.

(** The line after a function: after its last line when that is known, else where
    the next function begins. *)
Definition func_end (fn : source.Node) (next : option source.Node) : Z :=
  if (source.N_Line fn <=? source.N_EndLine fn)%Z && (0 <? source.N_EndLine fn)%Z
  then int64 (source.N_EndLine fn + 1)
  else match next with Some n => source.N_Line n | None => MaxInt end.

Fixpoint func_spans (funcs : list source.Node) : list (source.Node * Z) :=
  match funcs with
  | [] => []
  | fn :: rest => (fn, func_end fn (head rest)) :: func_spans rest
  end.

(** The function a line falls into: the first one that spans it. *)
Definition span_at (spans : list (source.Node * Z)) (ln : Z) : option source.Node :=
  fst <$> head (filter (λ s, (source.N_Line s.1 ≤ ln < s.2)%Z) spans).

Record funcHit := MkHit { fh_fn : source.Node; fh_line : Z }.

Definition overlap_step (spans : list (source.Node * Z))
    (st : gset string * list funcHit * bool) (ln : Z) : gset string * list funcHit * bool :=
  let '(seen, out, outside) := st in
  match span_at spans ln with
  | None => (seen, out, true)
  | Some n =>
      if bool_decide (source.N_ID n ∈ seen) then st
      else ({[ source.N_ID n ]} ∪ seen, out ++ [MkHit n ln], outside)
  end.

Definition overlappingFuncs (funcs : list source.Node) (lines : list Z) : list funcHit * bool :=
  if bool_decide (funcs = []) || bool_decide (lines = []) then ([], negb (bool_decide (lines = [])))
  else
    let '(_, out, outside) := foldl (overlap_step (func_spans funcs)) (∅, [], false) lines in
    (out, outside).

(** ** Direct findings *)

(** Names of the fields of a finding that the literals of the source set. *)
Definition file_finding (name path id reason prov : string) : Finding :=
  MkFinding "" "" "" "" name path id "" "" "" 0 reason prov.

Definition hit_finding (h : funcHit) : Finding :=
  let n := fh_fn h in
  MkFinding "" "" "" "" (source.N_Name n) (source.N_File n) (source.N_ID n) "" "" ""
    (fh_line h) "changed_lines" "diff".

(** What one changed file adds to [Direct], and whether it is known. *)
Definition file_direct (idx : srcIndex) (f : diff.File) : list Finding :=
  let path := diff.Fl_Path f in
  match ix_files idx !! path with
  | None => []
  | Some fileNode =>
      let whole reason := file_finding (source.N_Name fileNode) path (source.N_ID fileNode) reason "diff" in
      if diff.Fl_Binary f then [whole "binary"]
      else
        let '(hits, outside) := overlappingFuncs (funcs_of idx path) (diff.Fl_Lines f) in
        (if outside then [whole "changed_outside_func"] else []) ++
        match hits with [] => [whole "changed_file"] | _ => hit_finding <$> hits end
  end.

(** The functions of one changed file that it changes. *)
Definition file_hits (idx : srcIndex) (f : diff.File) : list string :=
  match ix_files idx !! diff.Fl_Path f with
  | None => []
  | Some _ =>
      if diff.Fl_Binary f then []
      else source.N_ID ∘ fh_fn <$> (overlappingFuncs (funcs_of idx (diff.Fl_Path f)) (diff.Fl_Lines f)).1
  end.

Record dstate := MkDState {
  ds_files : list string;
  ds_direct : list Finding;
  ds_unobserved : list Finding;
  ds_ids : gset string;
}.

Definition direct_step (idx : srcIndex) (st : dstate) (f : diff.File) : dstate :=
  let path := diff.Fl_Path f in
  MkDState
    (if bool_decide (path ∈ ds_files st) then ds_files st else ds_files st ++ [path])
    (foldl appendFinding (ds_direct st) (file_direct idx f))
    (match ix_files idx !! path with
     | None => appendFinding (ds_unobserved st) (file_finding path path "" "unknown_file" "diff")
     | Some _ => ds_unobserved st
     end)
    (list_to_set (file_hits idx f) ∪ ds_ids st).

Definition direct_phase (idx : srcIndex) (d : diff.Diff) : dstate :=
  foldl (direct_step idx) (MkDState [] [] [] ∅) (diff.D_Files d).

(** ** Callers *)

Record lstate := MkLState {
  ls_ids : gset string;
  ls_targets : gmap string (gset string);
  ls_likely : list Finding;
}.

Definition caller_finding (n : source.Node) : Finding :=
  MkFinding "" "" "" "" (source.N_Name n) (source.N_File n) (source.N_ID n) "" "" ""
    (source.N_Line n) "caller" source.ProvenanceTypes.

Definition caller_step (g : source.Graph) (direct : gset string) (id : string) (st : lstate)
    (nb : source.Neighbor) : lstate :=
  if (source.Nb_Direction nb != source.DirIn) || (source.Nb_Kind nb != source.EdgeCalls) then st
  else
    let caller := source.Nb_Node nb in
    let cid := source.N_ID caller in
    let old := default ∅ (ls_targets st !! cid) in
    let targets :=
      match source.NodeOf g id with
      | Some changed => {[ source.N_ID changed ]} ∪ old
      | None => old
      end in
    let known := bool_decide (cid ∈ direct) || bool_decide (cid ∈ ls_ids st) in
    MkLState
      (if known then ls_ids st else {[ cid ]} ∪ ls_ids st)
      (<[cid := targets]> (ls_targets st))
      (if known then ls_likely st else appendFinding (ls_likely st) (caller_finding caller)).

Definition callers_of (g : source.Graph) (direct : gset string) (st : lstate) (id : string) : lstate :=
  match source.Neighbors g id with
  | None => st
  | Some ns => foldl (caller_step g direct id) st ns
  end.

Definition likely_phase (g : source.Graph) (direct : gset string) (order : list string) : lstate :=
  foldl (callers_of g direct) (MkLState ∅ ∅ []) order.

(** ** Bound spans and their entry routes *)

Definition boundFindings (b : locate.Binding) (entry : graph.EntryRoute) (direct : bool)
    (targets : gset string) : list Finding :=
  let route := routeLabel (graph.En_Method entry) (graph.En_Route entry) in
  let finding via reason prov :=
    MkFinding via (locate.B_TraceID b) (locate.B_SpanID b) (graph.En_SpanID entry)
      (locate.B_SourceName b) (locate.B_File b) (locate.B_SourceID b) (locate.B_ServiceName b) ""
      route (locate.B_Line b) reason prov in
  if route == "" then [finding "" "bound_span" locate.ProvenanceCodeAttrs]
  else
    (if direct then [finding "" "bound_span" graph.ProvenanceTraceEntry] else []) ++
    (if bool_decide (targets = ∅) then []
     else
       let links := sort_cmp String.compare
         ((λ t, locate.B_SourceID b +:+ " -> " +:+ t) <$> elements targets) in
       [finding (Join links "; ") "bound_span_caller" ProvenanceTraceEntryCaller]).

Record rstate := MkRState {
  rs_services : gset string;
  rs_seen : gset string;
  rs_traces : gmap string (gset string);
  rs_runtime : list Finding;
}.

Definition bind_key (f : Finding) : string :=
  F_SourceID f +:+ graph.nul_str +:+ F_Route f +:+ graph.nul_str +:+ F_Provenance f.

Definition runtime_step (traceID : string) (st : rstate) (f : Finding) : rstate :=
  if (F_Service f == "") && (F_Route f == "") then st
  else
    let traces :=
      if (F_Route f != "") && (traceID != "")
      then <[F_Route f := {[ traceID ]} ∪ default ∅ (rs_traces st !! F_Route f)]> (rs_traces st)
      else rs_traces st in
    if bool_decide (bind_key f ∈ rs_seen st)
    then MkRState (rs_services st) (rs_seen st) traces (rs_runtime st)
    else MkRState (rs_services st) ({[ bind_key f ]} ∪ rs_seen st) traces
           (appendFinding (rs_runtime st) f).

Definition binding_findings (rt : graph.Snapshot) (direct : gset string)
    (targets : gmap string (gset string)) (b : locate.Binding) : list Finding :=
  let entry := default graph.zeroEntry (graph.EntryForSpan rt (locate.B_TraceID b) (locate.B_SpanID b)) in
  boundFindings b entry (bool_decide (locate.B_SourceID b ∈ direct))
    (default ∅ (targets !! locate.B_SourceID b)).

Definition binding_step (rt : graph.Snapshot) (direct : gset string) (ls : lstate) (st : rstate)
    (b : locate.Binding) : rstate :=
  if negb (bool_decide (locate.B_SourceID b ∈ direct ∪ ls_ids ls)) then st
  else
    let services :=
      if locate.B_ServiceName b == "" then rs_services st
      else {[ locate.B_ServiceName b ]} ∪ rs_services st in
    foldl (runtime_step (locate.B_TraceID b))
      (MkRState services (rs_seen st) (rs_traces st) (rs_runtime st))
      (binding_findings rt direct (ls_targets ls) b).

Definition runtime_phase (rt : graph.Snapshot) (loc : locate.Snapshot) (direct : gset string)
    (ls : lstate) : rstate :=
  foldl (binding_step rt direct ls) (MkRState ∅ ∅ ∅ []) (locate.Lo_Bindings loc).

Definition pathTouches (path : list string) (services : gset string) : bool :=
  existsb (λ s, bool_decide (s ∈ services)) path.

Definition path_finding (p : graph.Path) : Finding :=
  MkFinding "" "" "" "" "" "" "" "" (Join (graph.Pa_Services p) " -> ") "" 0 "observed_path"
    graph.ProvenanceObservedParent.

Definition path_findings (rt : graph.Snapshot) (services : gset string) : list Finding :=
  path_finding <$> filter (λ p, pathTouches (graph.Pa_Services p) services = true) (graph.Gs_Paths rt).

(** ** Changes without a bound span *)

Definition locateHit (loc : locate.Snapshot) (id : string) : bool :=
  existsb (λ b, locate.B_SourceID b == id) (locate.Lo_Bindings loc).

Definition unbound (loc : locate.Snapshot) (f : Finding) : option Finding :=
  if (F_SourceID f == "") || locateHit loc (F_SourceID f) then None
  else Some (file_finding (F_Name f) (F_File f) (F_SourceID f) "no_runtime_bind" "locate").

Definition route_count (traces : gmap string (gset string)) (route : string) : option RouteTraceCount :=
  let n := size (default ∅ (traces !! route)) in
  if (0 <? n)%nat then Some (MkRouteTraceCount route (Z.of_nat n)) else None.

(** ** [Analyze] *)

(** [order] lists the changed functions in the order they are ranged over. *)
Definition Analyze_in (order : gset string → list string) (g : option source.Graph) (d : diff.Diff)
    (loc : locate.Snapshot) (rt : graph.Snapshot) : Report :=
  match g with
  | None => MkReport [] [] [] [] [] []
  | Some g =>
      let ds := direct_phase (index g) d in
      let ls := likely_phase g (ds_ids ds) (order (ds_ids ds)) in
      let rs := runtime_phase rt loc (ds_ids ds) ls in
      let runtime := foldl appendFinding (rs_runtime rs) (path_findings rt (rs_services rs)) in
      let unobserved := foldl appendFinding (ds_unobserved ds) (omap (unbound loc) (ds_direct ds)) in
      MkReport
        (omap (route_count (rs_traces rs)) (RuntimeRoutes (MkReport [] [] [] [] runtime [])))
        (sort_cmp String.compare (ds_files ds)) (sortFindings (ds_direct ds))
        (sortFindings (ls_likely ls)) (sortFindings runtime) (sortFindings unobserved)
  end.

Definition Analyze := Analyze_in elements.

(** ** [FromDiff] *)

Definition codeFileMatch (diffPath codeFile : string) : bool :=
  let dp := default (Clean (ReplaceByte diffPath (byte 92) slash)) (diff.CanonicalPath diffPath) in
  let cp :=
    match diff.CanonicalPath codeFile with
    | Some cp => cp
    | None => TrimPrefix (Clean (ReplaceByte (TrimSpace codeFile) (byte 92) slash)) "/"
    end in
  if (dp == "") || (cp == "") || (dp == ".") || (cp == ".") then false
  else if dp == cp then true
  else if negb (Contains dp "/") then false
  else HasSuffix cp ("/" +:+ dp).

Definition runtime_name (sp : Span) : string :=
  let name := TrimSpace (Span_HTTPMethod sp +:+ " " +:+ Span_HTTPRoute sp) in
  let name := if name == "" then TrimSpace (Span_Name sp) else name in
  if name == "" then Span_ServiceName sp else name.

Record fstate := MkFState {
  fs_files : list string;
  fs_seen : gset string;
  fs_runtime : list Finding;
  fs_unobserved : list Finding;
}.

Definition span_step (p : string) (st : fstate) (sp : Span) : fstate :=
  if negb (codeFileMatch p (Span_CodeFile sp)) then st
  else
    let name := runtime_name sp in
    let key := Span_ServiceName sp +:+ graph.nul_str +:+ name +:+ graph.nul_str +:+ p in
    if bool_decide (key ∈ fs_seen st) then st
    else
      MkFState (fs_files st) ({[ key ]} ∪ fs_seen st)
        (appendFinding (fs_runtime st)
           (MkFinding "" "" "" "" name p "" (Span_ServiceName sp) (TrimSpace (Span_HTTPRoute sp))
              (routeLabel (Span_HTTPMethod sp) (Span_HTTPRoute sp)) 0 "code_file"
              locate.ProvenanceCodeAttrs))
        (fs_unobserved st).

Definition file_step (spans : list Span) (st : fstate) (f : diff.File) : fstate :=
  let p := diff.Fl_Path f in
  if p == "" then st
  else
    let reason := if diff.Fl_Status f == "add" then "new_file" else "unknown_file" in
    foldl (span_step p)
      (MkFState
         (if bool_decide (p ∈ fs_files st) then fs_files st else fs_files st ++ [p])
         (fs_seen st) (fs_runtime st)
         (appendFinding (fs_unobserved st)
            (MkFinding "" "" "" "" p p "" "" p "" 0 reason "diff")))
      spans.

Definition FromDiff (d : diff.Diff) (spans : list Span) : Report :=
  let st := foldl (file_step spans) (MkFState [] ∅ [] []) (diff.D_Files d) in
  MkReport [] (sort_cmp String.compare (fs_files st)) [] [] (sortFindings (fs_runtime st))
    (sortFindings (fs_unobserved st)).

(** ** Properties: the index *)

Lemma index_funcs_raw ns path :
  default [] (ix_funcs (foldl add_node (MkSrcIndex ∅ ∅) ns) !! path) =
  filter (λ n, source.N_Kind n = source.KindFunction ∧ source.N_File n = path ∧ path ≠ "") ns.
Proof.
  induction ns as [|n ns IH] using rev_ind; [done|].
  rewrite foldl_snoc, filter_app, filter_cons, filter_nil, <- IH. unfold add_node.
  case_bool_decide as Hf.
  { rewrite decide_False by naive_solver. by rewrite app_nil_r. }
  case_bool_decide as Hk.
  { rewrite decide_False; [by rewrite app_nil_r|]. intros [Hk' _]. by rewrite Hk in Hk'. }
  case_bool_decide as Hk2; simpl.
  - destruct (decide (source.N_File n = path)) as [<-|Hne].
    + rewrite lookup_insert_eq, decide_True by done. done.
    + rewrite lookup_insert_ne, decide_False by naive_solver. by rewrite app_nil_r.
  - rewrite decide_False by naive_solver. by rewrite app_nil_r.
Qed.

Lemma elem_of_funcs_of g path n :
  n ∈ funcs_of (index g) path ↔
  n ∈ source.g_nodes g ∧ source.N_Kind n = source.KindFunction ∧ source.N_File n = path ∧ path ≠ "".
Proof.
  unfold funcs_of, index. cbn [ix_funcs]. rewrite lookup_fmap.
  pose proof (index_funcs_raw (source.g_nodes g) path) as Hr. revert Hr.
  destruct (ix_funcs _ !! path) as [l|]; cbn [fmap option_fmap option_map default id]; intros Hr.
  - rewrite elem_of_sort_cmp. rewrite Hr, list_elem_of_filter. tauto.
  - rewrite Hr, list_elem_of_filter. tauto.
Qed.

(** ** Functions that lines fall into *)

Lemma func_spans_elem funcs n e :
  (n, e) ∈ func_spans funcs → n ∈ funcs ∧ ∃ next, e = func_end n next.
Proof.
  induction funcs as [|fn funcs IH]; simpl; [intros []%not_elem_of_nil|].
  intros [[= -> ->]|Hin]%elem_of_cons; [split; [left|eauto]|].
  destruct (IH Hin). split; [by right|done].
Qed.

(** A line is in a function: not before its first line, nor after its last line if
    that is known. *)
Definition inside (n : source.Node) (ln : Z) : Prop :=
  (source.N_Line n ≤ ln)%Z ∧
  ((source.N_Line n ≤ source.N_EndLine n)%Z → (0 < source.N_EndLine n)%Z → (ln ≤ source.N_EndLine n)%Z).

Lemma func_end_inside n next ln :
  in_int64 (source.N_EndLine n) → (source.N_Line n ≤ ln < func_end n next)%Z → inside n ln.
Proof.
  intros Hr [Hle Hlt]. split; [done|]. intros H1 H2. unfold func_end in Hlt.
  rewrite (proj2 (Z.leb_le _ _) H1), (proj2 (Z.ltb_lt _ _) H2) in Hlt. simpl in Hlt.
  unfold in_int64 in Hr. destruct (decide (source.N_EndLine n = 2 ^ 63 - 1)%Z) as [E|Hne].
  - pose proof (int64_range (source.N_EndLine n + 1)) as Hi. unfold in_int64 in Hi. lia.
  - rewrite int64_id in Hlt; [lia|]. unfold in_int64. lia.
Qed.

Lemma span_at_Some spans ln n :
  span_at spans ln = Some n → ∃ e, (n, e) ∈ spans ∧ (source.N_Line n ≤ ln < e)%Z.
Proof.
  unfold span_at. intros ([m e] & Hm & Hn)%fmap_Some. simpl in Hn. subst m. exists e.
  apply head_Some_elem_of, list_elem_of_filter in Hm. tauto.
Qed.

Lemma span_at_None spans ln :
  span_at spans ln = None ↔ ∀ n e, (n, e) ∈ spans → ¬ (source.N_Line n ≤ ln < e)%Z.
Proof.
  unfold span_at. rewrite fmap_None, head_None. split.
  - intros Hf n e Hin Hb. by eapply (filter_nil_not_elem_of _ _ (n, e) Hf).
  - intros Hn. apply filter_none. intros [n e] Hin. by apply Hn.
Qed.

Lemma overlap_fold spans lines seen out outside :
  let '(_, out', outside') := foldl (overlap_step spans) (seen, out, outside) lines in
  (outside' = true ↔ outside = true ∨ ∃ ln, ln ∈ lines ∧ span_at spans ln = None) ∧
  (∀ h, h ∈ out' → h ∈ out ∨ (fh_line h ∈ lines ∧ span_at spans (fh_line h) = Some (fh_fn h))) ∧
  (∀ h, h ∈ out → h ∈ out') ∧
  ((∀ id, id ∈ seen → ∃ h, h ∈ out ∧ source.N_ID (fh_fn h) = id) →
   ∀ ln n, ln ∈ lines → span_at spans ln = Some n →
     ∃ h, h ∈ out' ∧ source.N_ID (fh_fn h) = source.N_ID n).
Proof.
  revert seen out outside. induction lines as [|ln lines IH]; intros seen out outside.
  { simpl. split_and!; [|auto|auto|]; [|by intros _ ?? []%not_elem_of_nil].
    split; [by left|]. by intros [|(? & []%not_elem_of_nil & _)]. }
  cbn [foldl]. unfold overlap_step at 2.
  destruct (span_at spans ln) as [n|] eqn:En; [case_bool_decide as Hseen|].
  - specialize (IH seen out outside). destruct (foldl _ _ _) as [[seen' out'] outside'].
    destruct IH as (IH1 & IH2 & IH3 & IH4). setoid_rewrite elem_of_cons. split_and!; [|naive_solver|done|].
    + rewrite IH1. naive_solver.
    + intros Hs l m [->|Hl] Hm; [|by eapply IH4]. simplify_eq.
      destruct (Hs _ Hseen) as (h & Hh & <-). eauto.
  - specialize (IH ({[source.N_ID n]} ∪ seen) (out ++ [MkHit n ln]) outside).
    destruct (foldl _ _ _) as [[seen' out'] outside'].
    destruct IH as (IH1 & IH2 & IH3 & IH4). setoid_rewrite elem_of_cons. split_and!.
    + rewrite IH1. naive_solver.
    + intros h [[Hh|Hh%list_elem_of_singleton]%elem_of_app|?]%IH2; [naive_solver| |naive_solver].
      subst h. right. simpl. auto.
    + intros h Hh. apply IH3, elem_of_app. by left.
    + intros Hs l m [->|Hl] Hm.
      * simplify_eq. eexists (MkHit _ ln). split; [|done]. apply IH3, elem_of_app. right. left.
      * eapply IH4; [|done..]. intros id [->%elem_of_singleton|Hid]%elem_of_union.
        -- exists (MkHit n ln). split; [apply elem_of_app; right; left|done].
        -- destruct (Hs id Hid) as (h & Hh & ?). exists h. split; [apply elem_of_app; by left|done].
  - specialize (IH seen out true). destruct (foldl _ _ _) as [[seen' out'] outside'].
    destruct IH as (IH1 & IH2 & IH3 & IH4). setoid_rewrite elem_of_cons. split_and!; [|naive_solver|done|].
    + rewrite IH1. naive_solver.
    + intros Hs l m [->|Hl] Hm; [simplify_eq|by eapply IH4].
Qed.

(** What [overlappingFuncs] gives: the functions that some changed line falls into,
    and whether some changed line falls into none. *)
Lemma overlappingFuncs_spec funcs lines :
  let '(hits, outside) := overlappingFuncs funcs lines in
  (outside = true ↔ ∃ ln, ln ∈ lines ∧ span_at (func_spans funcs) ln = None) ∧
  (∀ h, h ∈ hits → fh_line h ∈ lines ∧ span_at (func_spans funcs) (fh_line h) = Some (fh_fn h)) ∧
  (∀ ln n, ln ∈ lines → span_at (func_spans funcs) ln = Some n →
     ∃ h, h ∈ hits ∧ source.N_ID (fh_fn h) = source.N_ID n).
Proof.
  unfold overlappingFuncs. case_bool_decide as Hf; [|case_bool_decide as Hl]; simpl.
  - subst. split_and!; [|by intros ? []%not_elem_of_nil|done].
    destruct lines as [|ln lines]; simpl; [|naive_solver eauto using list_elem_of_here].
    split; [done|]. by intros (? & []%not_elem_of_nil & _).
  - subst. split_and!; [|by intros ? []%not_elem_of_nil|by intros ?? []%not_elem_of_nil].
    split; [done|]. by intros (? & []%not_elem_of_nil & _).
  - pose proof (overlap_fold (func_spans funcs) lines ∅ [] false) as Ho.
    destruct (foldl _ _ _) as [[seen out] outside]. destruct Ho as (H1 & H2 & _ & H4).
    split_and!; [naive_solver| |apply H4; set_solver].
    intros h [[]%not_elem_of_nil|?]%H2. done.
Qed.

(** ** Direct findings *)

Lemma appendFinding_capped dst f : appendFinding dst f = append_capped maxFindings dst f.
Proof.
  unfold appendFinding, append_capped.
  destruct (Nat.leb_spec maxFindings (length dst)), (Nat.ltb_spec (length dst) maxFindings); lia || done.
Qed.

Lemma foldl_appendFinding l fs :
  foldl appendFinding (take maxFindings l) fs = take maxFindings (l ++ fs).
Proof.
  rewrite <- foldl_append_capped. generalize (take maxFindings l). clear l.
  induction fs as [|f fs IH]; intros l; [done|]. cbn [foldl]. by rewrite appendFinding_capped, IH.
Qed.

Definition all_direct (idx : srcIndex) (d : diff.Diff) : list Finding :=
  diff.D_Files d ≫= file_direct idx.

Lemma direct_phase_spec idx d :
  ds_direct (direct_phase idx d) = take maxFindings (all_direct idx d) ∧
  (∀ p, p ∈ ds_files (direct_phase idx d) ↔ ∃ f, f ∈ diff.D_Files d ∧ diff.Fl_Path f = p) ∧
  (∀ id, id ∈ ds_ids (direct_phase idx d) ↔ ∃ f, f ∈ diff.D_Files d ∧ id ∈ file_hits idx f).
Proof.
  unfold direct_phase, all_direct. induction (diff.D_Files d) as [|f fs IH] using rev_ind.
  { split_and!; [done|set_solver..]. }
  destruct IH as (IH1 & IH2 & IH3). rewrite foldl_snoc.
  generalize dependent (foldl (direct_step idx) (MkDState [] [] [] ∅) fs). intros st IH1 IH2 IH3.
  unfold direct_step. cbn [ds_direct ds_files ds_ids].
  setoid_rewrite elem_of_app. setoid_rewrite list_elem_of_singleton. split_and!.
  - by rewrite IH1, foldl_appendFinding, bind_app, bind_cons, app_nil_r.
  - intros p. case_bool_decide as Hp.
    + rewrite IH2. split; [naive_solver|]. intros (g & [Hg| ->] & <-); [eauto|by apply IH2].
    + rewrite elem_of_app, list_elem_of_singleton, IH2. naive_solver.
  - intros id. rewrite elem_of_union, elem_of_list_to_set, IH3. naive_solver.
Qed.

Lemma file_hits_funcs g f h :
  h ∈ (overlappingFuncs (funcs_of (index g) (diff.Fl_Path f)) (diff.Fl_Lines f)).1 →
  source.N_File (fh_fn h) = diff.Fl_Path f.
Proof.
  pose proof (overlappingFuncs_spec (funcs_of (index g) (diff.Fl_Path f)) (diff.Fl_Lines f)) as Ho.
  destruct (overlappingFuncs _ _) as [hits outside]. destruct Ho as (_ & H2 & _).
  intros [_ (e & [Hin _]%func_spans_elem & _)%span_at_Some]%H2.
  apply elem_of_funcs_of in Hin. tauto.
Qed.

Lemma file_direct_file g f x : x ∈ file_direct (index g) f → F_File x = diff.Fl_Path f.
Proof.
  unfold file_direct. destruct (ix_files _ !! _); [|intros []%not_elem_of_nil].
  destruct (diff.Fl_Binary f); [by intros ->%list_elem_of_singleton|].
  pose proof (file_hits_funcs g f) as Hh. destruct (overlappingFuncs _ _) as [hits outside].
  intros [Hx|Hx]%elem_of_app.
  - destruct outside; [by apply list_elem_of_singleton in Hx as ->|by apply not_elem_of_nil in Hx].
  - destruct hits as [|h hits]; [by apply list_elem_of_singleton in Hx as ->|].
    apply list_elem_of_fmap in Hx as (h' & -> & Hx). by apply (Hh h').
Qed.

Lemma file_direct_nil idx f : file_direct idx f = [] ↔ ix_files idx !! diff.Fl_Path f = None.
Proof.
  unfold file_direct. destruct (ix_files idx !! _); [|done]. split; [|done].
  destruct (diff.Fl_Binary f); [done|].
  destruct (overlappingFuncs _ _) as [[|h hits] outside]; destruct outside; done.
Qed.

(** If every finding of a file binds changed lines, every changed line of it is in a
    function that is found. *)
Lemma file_direct_line g f ln :
  (∀ n, n ∈ source.g_nodes g → in_int64 (source.N_EndLine n)) →
  ln ∈ diff.Fl_Lines f →
  file_direct (index g) f ≠ [] → (∀ x, x ∈ file_direct (index g) f → binds x = true) →
  ∃ n x, n ∈ source.g_nodes g ∧ source.N_Kind n = source.KindFunction ∧
    source.N_File n = diff.Fl_Path f ∧ inside n ln ∧
    x ∈ file_direct (index g) f ∧ F_SourceID x = source.N_ID n.
Proof.
  intros Hw Hln. unfold file_direct. destruct (ix_files _ !! _) as [fileNode|]; [|done].
  intros _. destruct (diff.Fl_Binary f).
  { intros Hb. by specialize (Hb _ (list_elem_of_here _ _)). }
  pose proof (overlappingFuncs_spec (funcs_of (index g) (diff.Fl_Path f)) (diff.Fl_Lines f)) as Ho.
  destruct (overlappingFuncs _ _) as [hits outside]. destruct Ho as (H1 & _ & H3). intros Hb.
  destruct outside.
  { by specialize (Hb _ (list_elem_of_here _ _)). }
  simpl in *.
  destruct (span_at (func_spans (funcs_of (index g) (diff.Fl_Path f))) ln) as [n|] eqn:En; last first.
  { discriminate (proj2 H1 (ex_intro _ ln (conj Hln En))). }
  destruct (H3 ln n Hln En) as (h & Hh & Hid).
  apply span_at_Some in En as (e & [Hin [next ->]]%func_spans_elem & Hb').
  apply elem_of_funcs_of in Hin as (Hin & Hk & Hf & _).
  exists n, (hit_finding h). split_and!; try done; [by eapply func_end_inside; eauto|].
  destruct hits as [|h0 hits]; [by apply not_elem_of_nil in Hh|]. by apply list_elem_of_fmap_2.
Qed.

(** While at most 500 direct findings are made, the analysis of a diff and its
    classification lose no change: a changed line of a path that is not inert lies
    in a function of that file which is reported as bound, or the path is
    reported as unanalyzed. *)
Lemma Analyze_complete order g d loc rt f ln :
  (∀ n, n ∈ source.g_nodes g → in_int64 (source.N_EndLine n)) →
  (length (all_direct (index g) d) ≤ 500)%nat →
  f ∈ diff.D_Files d → ln ∈ diff.Fl_Lines f → Inert (diff.Fl_Path f) = false →
  let changes := Classify (Analyze_in order (Some g) d loc rt) in
  diff.Fl_Path f ∈ Ch_Unanalyzed changes ∨
  ∃ n, n ∈ source.g_nodes g ∧ source.N_Kind n = source.KindFunction ∧
    source.N_File n = diff.Fl_Path f ∧ inside n ln ∧ source.N_ID n ∈ Ch_Bound changes.
Proof.
  intros Hw Hcap Hf Hln Hi changes. destruct (direct_phase_spec (index g) d) as (Hd & Hp & _).
  rewrite take_ge in Hd by done. unfold changes. set (rep := Analyze_in _ _ _ _ _).
  assert (∀ x, x ∈ Rep_Direct rep ↔ x ∈ all_direct (index g) d) as Hx.
  { intros x. unfold rep. simpl. unfold sortFindings. by rewrite elem_of_sort_cmp, Hd. }
  assert (diff.Fl_Path f ∈ Rep_Files rep) as Hpath.
  { unfold rep. simpl. rewrite elem_of_sort_cmp. apply Hp. eauto. }
  destruct (analyzed rep (diff.Fl_Path f)) eqn:Ha; [right|left; by apply elem_of_Unanalyzed].
  pose proof Ha as [(y & Hy & Hyf) Hall]%analyzed_true.
  assert (∀ x, x ∈ file_direct (index g) f → x ∈ Rep_Direct rep ∧ F_File x = diff.Fl_Path f) as Hin.
  { intros x Hxf. split; [|by eapply file_direct_file]. apply Hx, list_elem_of_bind. eauto. }
  destruct (file_direct_line g f ln Hw Hln) as (n & x & Hn & Hk & Hnf & Hins & Hxf & Hid).
  - apply Hx, list_elem_of_bind in Hy as (f' & Hy & Hf').
    intros E. pose proof (file_direct_file g f' y Hy) as Hpf. rewrite Hyf in Hpf.
    apply file_direct_nil in E. rewrite Hpf in E. apply file_direct_nil in E. rewrite E in Hy.
    by apply not_elem_of_nil in Hy.
  - intros x Hxf. apply Hall; by apply Hin.
  - exists n. split_and!; try done. apply elem_of_Bound. exists x.
    destruct (Hin x Hxf) as [? ->]. split_and!; done.
Qed.


(** ** Callers *)

(** The changed functions with their neighbors, in the order they are visited. *)
Definition visits (g : source.Graph) (order : list string) : list (string * source.Neighbor) :=
  order ≫= λ id, (λ nb, (id, nb)) <$> default [] (source.Neighbors g id).

Definition is_call (nb : source.Neighbor) : Prop :=
  source.Nb_Direction nb = source.DirIn ∧ source.Nb_Kind nb = source.EdgeCalls.

Lemma likely_phase_visits g direct order :
  likely_phase g direct order =
  foldl (λ st v, caller_step g direct v.1 st v.2) (MkLState ∅ ∅ []) (visits g order).
Proof.
  unfold likely_phase, visits. generalize (MkLState ∅ ∅ []).
  induction order as [|id order IH]; intros st; [done|].
  rewrite bind_cons, foldl_app. cbn [foldl]. rewrite IH. f_equal. unfold callers_of.
  destruct (source.Neighbors g id) as [ns|]; [|done]. simpl. clear IH. revert st.
  induction ns as [|nb ns IH]; intros st; [done|]. cbn. apply IH.
Qed.

(** [v] shows a call by [c] of a function with identifier [t]. *)
Definition shows_call (g : source.Graph) (c t : string) (v : string * source.Neighbor) : Prop :=
  is_call v.2 ∧ source.N_ID (source.Nb_Node v.2) = c ∧ source.N_ID <$> source.NodeOf g v.1 = Some t.
Definition shows_caller (c : string) (v : string * source.Neighbor) : Prop :=
  is_call v.2 ∧ source.N_ID (source.Nb_Node v.2) = c.

Lemma caller_fold g direct vs :
  let st := foldl (λ st v, caller_step g direct v.1 st v.2) (MkLState ∅ ∅ []) vs in
  (∀ c, c ∈ ls_ids st ↔ c ∉ direct ∧ Exists (shows_caller c) vs) ∧
  (∀ c t, t ∈ default ∅ (ls_targets st !! c) ↔ Exists (shows_call g c t) vs) ∧
  (∃ L, ls_likely st = take maxFindings L ∧ (∀ c, c ∈ ls_ids st ↔ c ∈ F_SourceID <$> L)).
Proof.
  induction vs as [|v vs IH] using rev_ind.
  { simpl. split_and!; [intros c|intros c t|exists []; set_solver].
    - rewrite Exists_nil. set_solver.
    - rewrite Exists_nil, lookup_empty. set_solver. }
  simpl. rewrite foldl_snoc. simpl in IH. revert IH.
  generalize (foldl (λ st v, caller_step g direct v.1 st v.2) (MkLState ∅ ∅ []) vs).
  intros st (IH1 & IH2 & L & HL & IH3). setoid_rewrite Exists_snoc.
  unfold caller_step. destruct (decide (is_call v.2)) as [Hc|Hc]; last first.
  { replace ((_ != _) || (_ != _)) with true.
    2: { unfold is_call in Hc. repeat case_bool_decide; tauto. }
    split_and!; [intros c; rewrite IH1|intros c t; rewrite IH2|by exists L];
      unfold shows_caller, shows_call; tauto. }
  pose proof Hc as [Hc1 Hc2]. rewrite !(bool_decide_eq_true_2 _ Hc1), !(bool_decide_eq_true_2 _ Hc2).
  assert (∀ c, shows_caller c v ↔ source.N_ID (source.Nb_Node v.2) = c) as Hs
    by (unfold shows_caller; tauto).
  assert (∀ c t, shows_call g c t v ↔
    source.N_ID (source.Nb_Node v.2) = c ∧ source.N_ID <$> source.NodeOf g v.1 = Some t) as Ht
    by (unfold shows_call; tauto).
  set (cid := source.N_ID (source.Nb_Node v.2)) in *. cbn [negb orb ls_ids ls_targets ls_likely].
  split_and!.
  - intros c. rewrite Hs. case_bool_decide as Hd; [|case_bool_decide as Hk]; cbn [orb].
    + rewrite IH1. split; [tauto|]. by intros [? [?| <-]].
    + rewrite IH1. split; [tauto|]. intros [? [?| <-]]; [done|]. by apply IH1.
    + rewrite elem_of_union, elem_of_singleton, IH1. split; [|naive_solver].
      intros [->|]; tauto.
  - intros c t. rewrite Ht. destruct (decide (c = cid)) as [->|Hne].
    + rewrite lookup_insert_eq. cbn [default id]. destruct (source.NodeOf g v.1) as [n|]; cbn.
      * rewrite elem_of_union, elem_of_singleton, IH2. split; [intros [->|]; tauto|].
        intros [|[_ [= ->]]]; tauto.
      * rewrite IH2. split; [tauto|]. by intros [|[_ ?]].
    + rewrite lookup_insert_ne by done. rewrite IH2. split; [tauto|]. by intros [|[<- _]].
  - destruct (bool_decide (cid ∈ direct) || _); [by exists L|].
    exists (L ++ [caller_finding (source.Nb_Node v.2)]). split.
    + by rewrite appendFinding_capped, take_snoc, HL.
    + intros c. rewrite elem_of_union, elem_of_singleton, fmap_app, elem_of_app, IH3. cbn.
      rewrite list_elem_of_singleton. tauto.
Qed.

Definition calls (g : source.Graph) (c t : string) : Prop :=
  ∃ e, e ∈ source.g_edges g ∧ source.E_Kind e = source.EdgeCalls ∧
    source.E_From e = c ∧ source.E_To e = t.

Lemma elem_of_visits g order id nb :
  (id, nb) ∈ visits g order ↔ id ∈ order ∧ nb ∈ default [] (source.Neighbors g id).
Proof.
  unfold visits. rewrite list_elem_of_bind. setoid_rewrite list_elem_of_fmap. naive_solver.
Qed.

Lemma Neighbors_call g id nb :
  source.graph_ok g →
  (nb ∈ default [] (source.Neighbors g id) ∧ is_call nb) ↔
  (∃ n, source.NodeOf g id = Some n) ∧ source.Nb_Direction nb = source.DirIn ∧
  source.Nb_Kind nb = source.EdgeCalls ∧
  source.Nb_Node nb ∈ source.g_nodes g ∧ calls g (source.N_ID (source.Nb_Node nb)) id.
Proof.
  intros Hg. pose proof (source.Neighbors_iff g id Hg) as Hn.
  assert ((∃ n, source.NodeOf g id = Some n) ↔ id ∈ (source.N_ID <$> source.g_nodes g)) as ->.
  { rewrite list_elem_of_fmap. setoid_rewrite source.NodeOf_iff; [|done]. naive_solver. }
  unfold is_call, calls. destruct (source.Neighbors g id) as [ns|]; cbn.
  - destruct Hn as [Hid Hn]. rewrite Hn. split.
    + intros [(e & He & Hk & Hnode & [(Hd & _)|(Hd & Ht & Hf)]) [Hd' Hk']]; [by rewrite Hd in Hd'|].
      split_and!; try done. exists e. split_and!; congruence.
    + intros (_ & Hd & Hk & Hnode & e & He & Hek & Hf & Ht). split; [|done].
      exists e. split_and!; try congruence. by right.
  - split; [by intros [[]%not_elem_of_nil _]|]. naive_solver.
Qed.

Lemma visits_call g order c t :
  source.graph_ok g → Exists (shows_call g c t) (visits g order) ↔ t ∈ order ∧ calls g c t.
Proof.
  intros Hg. rewrite Exists_exists. split.
  - intros ([id nb] & [Ho Hin]%elem_of_visits & Hc & Hid & Ht). simpl in *.
    apply fmap_Some in Ht as (n & Hn & ->). pose proof Hn as [_ <-]%source.NodeOf_iff; [|done].
    split; [done|]. destruct (proj1 (Neighbors_call g (source.N_ID n) nb Hg)) as (_ & _ & _ & _ & Hcalls);
      [done|]. by rewrite Hid in Hcalls.
  - intros [Ho (e & He & Hk & Hf & Ht)].
    destruct (source.go_edges g Hg e He) as ((m & Hm & Hmin)%list_elem_of_fmap &
      (n & Hn & Hnin)%list_elem_of_fmap & _).
    assert (source.NodeOf g t = Some n) as Hnode by (apply source.NodeOf_iff; [done|split; congruence]).
    set (nb := source.MkNeighbor m source.EdgeCalls source.DirIn).
    destruct (proj2 (Neighbors_call g t nb Hg)) as [Hnb Hc].
    { split_and!; [by exists n|done..|]. exists e. simpl. split_and!; congruence. }
    exists (t, nb). rewrite elem_of_visits. split; [done|]. split_and!; [done|simpl; congruence|].
    simpl. rewrite Hnode. simpl. congruence.
Qed.

Lemma visits_caller g order c :
  source.graph_ok g →
  Exists (shows_caller c) (visits g order) ↔ ∃ t, t ∈ order ∧ calls g c t.
Proof.
  intros Hg. setoid_rewrite <- (λ t, visits_call g order c t Hg). setoid_rewrite Exists_exists.
  unfold shows_caller, shows_call. split; [|naive_solver].
  intros ([id nb] & Hv & Hc & Hid). simpl in *. pose proof Hv as [Ho Hin]%elem_of_visits.
  destruct (proj1 (Neighbors_call g id nb Hg)) as ([n Hn] & _); [done|].
  exists (source.N_ID n), (id, nb). simpl. by rewrite Hn.
Qed.

Definition enumerates (order : gset string → list string) : Prop := ∀ X x, x ∈ order X ↔ x ∈ X.

Lemma likely_phase_spec g direct order :
  source.graph_ok g → (∀ x, x ∈ order ↔ x ∈ direct) →
  let st := likely_phase g direct order in
  (∀ c, c ∈ ls_ids st ↔ c ∉ direct ∧ ∃ t, t ∈ direct ∧ calls g c t) ∧
  (∀ c t, t ∈ default ∅ (ls_targets st !! c) ↔ t ∈ direct ∧ calls g c t) ∧
  (∃ L, ls_likely st = take maxFindings L ∧ (∀ c, c ∈ ls_ids st ↔ c ∈ F_SourceID <$> L)).
Proof.
  intros Hg Ho. simpl. rewrite likely_phase_visits.
  destruct (caller_fold g direct (visits g order)) as (H1 & H2 & H3). split_and!; [| |done].
  - intros c. rewrite H1, visits_caller by done. by setoid_rewrite Ho.
  - intros c t. rewrite H2, visits_call by done. by rewrite Ho.
Qed.

(** While fewer than 500 callers are reported, the likely functions of a report
    are exactly the unchanged functions that call a changed one, in whatever order
    the changed functions are visited. *)
Theorem Analyze_callers order g d loc rt c :
  source.graph_ok g → enumerates order →
  let rep := Analyze_in order (Some g) d loc rt in
  let changed := ds_ids (direct_phase (index g) d) in
  (length (Rep_Likely rep) < 500)%nat →
  c ∈ F_SourceID <$> Rep_Likely rep ↔ c ∉ changed ∧ ∃ t, t ∈ changed ∧ calls g c t.
Proof.
  intros Hg Ho. simpl. set (changed := ds_ids _). intros Hlen.
  destruct (likely_phase_spec g changed (order changed) Hg (Ho changed)) as (H1 & _ & L & HL & H3).
  rewrite <- H1, H3. unfold sortFindings in *. rewrite length_sort_cmp in Hlen. rewrite HL in *.
  rewrite length_take in Hlen. rewrite take_ge by (unfold maxFindings in *; lia).
  by rewrite sort_cmp_perm.
Qed.

(** ** Bound spans *)

(** A finding that names a service or a route. *)
Definition reported (f : Finding) : Prop := ¬ (F_Service f = "" ∧ F_Route f = "").

(** The findings considered so far, each with the trace of its span, are what a
    state of the loop stands for. *)
Record stands_for (vs : list (string * Finding)) (st : rstate) : Prop := {
  sf_seen k : k ∈ rs_seen st ↔ Exists (λ v, reported v.2 ∧ bind_key v.2 = k) vs;
  sf_traces r t : t ∈ default ∅ (rs_traces st !! r) ↔
    Exists (λ v, F_Route v.2 = r ∧ v.1 = t ∧ r ≠ "" ∧ t ≠ "") vs;
  sf_runtime : ∃ L, rs_runtime st = take maxFindings L ∧
    (∀ f, f ∈ L → reported f ∧ f ∈ vs.*2) ∧ (∀ k, k ∈ rs_seen st ↔ k ∈ bind_key <$> L);
}.

Lemma traces_insert (m : gmap string (gset string)) r0 t0 r t :
  t ∈ default ∅ (<[r0 := {[ t0 ]} ∪ default ∅ (m !! r0)]> m !! r) ↔
  t ∈ default ∅ (m !! r) ∨ (r0 = r ∧ t0 = t).
Proof.
  destruct (decide (r0 = r)) as [<-|Hne].
  - rewrite lookup_insert_eq. cbn. set_solver.
  - rewrite lookup_insert_ne by done. naive_solver.
Qed.

Lemma runtime_step_stands vs st t f :
  stands_for vs st → stands_for (vs ++ [(t, f)]) (runtime_step t st f).
Proof.
  intros [Hs Ht (L & HL & Hin & Hk)]. unfold runtime_step.
  destruct (decide (reported f)) as [Hr|Hr]; last first.
  { replace ((F_Service f == "") && (F_Route f == "")) with true
      by (unfold reported in Hr; repeat case_bool_decide; tauto).
    split.
    - intros k. rewrite Exists_snoc, Hs. cbn. tauto.
    - intros r t'. rewrite Exists_snoc, Ht. cbn. split; [tauto|]. intros [?|(<- & <- & ? & _)]; [done|].
      unfold reported in Hr. tauto.
    - exists L. rewrite fmap_app. set_solver. }
  replace ((F_Service f == "") && (F_Route f == "")) with false
    by (unfold reported in Hr; repeat case_bool_decide; tauto).
  set (traces := if _ && _ then _ else _).
  assert (∀ r t', t' ∈ default ∅ (traces !! r) ↔
    Exists (λ v, F_Route v.2 = r ∧ v.1 = t' ∧ r ≠ "" ∧ t' ≠ "") (vs ++ [(t, f)])) as Htr.
  { intros r t'. rewrite Exists_snoc, <- Ht. unfold traces. cbn.
    destruct ((F_Route f != "") && (t != "")) eqn:E.
    - rewrite traces_insert. go_inv. naive_solver.
    - split; [by left|]. intros [?|(<- & <- & ? & ?)]; [done|].
      rewrite !bool_decide_eq_false_2 in E by done. done. }
  case_bool_decide as Hseen; (split; cbn [rs_seen rs_traces rs_runtime]; [|exact Htr|]).
  - intros k. rewrite Exists_snoc, Hs. cbn. split; [tauto|]. intros [?|[_ <-]]; [done|]. by apply Hs.
  - exists L. rewrite fmap_app. set_solver.
  - intros k. rewrite Exists_snoc, elem_of_union, elem_of_singleton, Hs. cbn. naive_solver.
  - exists (L ++ [f]). rewrite appendFinding_capped, take_snoc, HL. split_and!; [done| |].
    + intros x [Hx|Hx%list_elem_of_singleton]%elem_of_app; rewrite fmap_app, elem_of_app.
      * destruct (Hin x Hx). tauto.
      * subst x. split; [done|]. right. cbn. by apply list_elem_of_singleton.
    + intros k. rewrite fmap_app, elem_of_app, elem_of_union, elem_of_singleton, Hk. cbn.
      rewrite list_elem_of_singleton. tauto.
Qed.

Lemma runtime_fold_stands vs st t fs :
  stands_for vs st → stands_for (vs ++ ((λ f, (t, f)) <$> fs)) (foldl (runtime_step t) st fs).
Proof.
  revert vs st. induction fs as [|f fs IH]; intros vs st Hst; cbn; [by rewrite app_nil_r|].
  replace (vs ++ (t, f) :: ((λ f, (t, f)) <$> fs)) with ((vs ++ [(t, f)]) ++ ((λ f, (t, f)) <$> fs))
    by (by rewrite <- (assoc_L (++))).
  by apply IH, runtime_step_stands.
Qed.

(** The findings of the bindings to watched functions. *)
Definition considered (rt : graph.Snapshot) (direct : gset string) (ls : lstate)
    (bs : list locate.Binding) : list (string * Finding) :=
  filter (λ b, locate.B_SourceID b ∈ direct ∪ ls_ids ls) bs ≫=
    λ b, (λ f, (locate.B_TraceID b, f)) <$> binding_findings rt direct (ls_targets ls) b.

Lemma runtime_phase_stands rt loc direct ls :
  stands_for (considered rt direct ls (locate.Lo_Bindings loc)) (runtime_phase rt loc direct ls).
Proof.
  unfold runtime_phase, considered.
  induction (locate.Lo_Bindings loc) as [|b bs IH] using rev_ind.
  { split; cbn [foldl rs_seen rs_traces rs_runtime].
    - intros k. rewrite Exists_nil. set_solver.
    - intros r t. rewrite Exists_nil, lookup_empty. cbn. set_solver.
    - exists []. split_and!; [done|intros ? []%not_elem_of_nil|set_solver]. }
  rewrite foldl_snoc, filter_app, filter_cons, filter_nil. unfold binding_step at 1.
  case_bool_decide as Hb; cbn [negb].
  - rewrite decide_True by done. rewrite bind_app, bind_cons, app_nil_r.
    apply runtime_fold_stands. destruct IH as [H1 H2 H3]. by split.
  - rewrite decide_False by done. by rewrite app_nil_r.
Qed.

Lemma bind_key_inj f f' :
  byte 0 ∉ bytes (F_SourceID f) → byte 0 ∉ bytes (F_SourceID f') →
  byte 0 ∉ bytes (F_Provenance f) → byte 0 ∉ bytes (F_Provenance f') →
  bind_key f = bind_key f' →
  F_SourceID f = F_SourceID f' ∧ F_Route f = F_Route f' ∧ F_Provenance f = F_Provenance f'.
Proof.
  intros ???? He. apply sep_inj_l in He as [-> He]; [|done..].
  apply sep_inj_r in He as [-> ->]; done.
Qed.

(** The span of a binding was entered by route [r]. *)
Definition entered (rt : graph.Snapshot) (b : locate.Binding) (r : string) : Prop :=
  r ≠ "" ∧ ∃ e, graph.EntryForSpan rt (locate.B_TraceID b) (locate.B_SpanID b) = Some e ∧
    routeLabel (graph.En_Method e) (graph.En_Route e) = r.

Definition bind_provenances : list string :=
  [locate.ProvenanceCodeAttrs; graph.ProvenanceTraceEntry; ProvenanceTraceEntryCaller].

Lemma binding_findings_spec rt direct targets b f :
  f ∈ binding_findings rt direct targets b →
  F_SourceID f = locate.B_SourceID b ∧ F_Provenance f ∈ bind_provenances ∧
  (F_Provenance f = graph.ProvenanceTraceEntry → locate.B_SourceID b ∈ direct ∧ entered rt b (F_Route f)) ∧
  (F_Provenance f = ProvenanceTraceEntryCaller →
     (∃ t, t ∈ default ∅ (targets !! locate.B_SourceID b)) ∧ entered rt b (F_Route f)) ∧
  (F_Route f ≠ "" → entered rt b (F_Route f)).
Proof.
  unfold binding_findings, boundFindings.
  set (entry := default _ _). set (tg := default _ _).
  assert (∀ r, routeLabel (graph.En_Method entry) (graph.En_Route entry) = r → r ≠ "" → entered rt b r) as He.
  { intros r Hr Hne. split; [done|]. unfold entry in Hr. destruct (graph.EntryForSpan rt _ _) as [e|];
      [by exists e|]. by rewrite <- Hr in Hne. }
  case_bool_decide as Hr.
  - intros ->%list_elem_of_singleton. cbn. split_and!; [done|left|done|done|by rewrite Hr].
  - intros [Hf|Hf]%elem_of_app.
    + case_bool_decide; [|by apply not_elem_of_nil in Hf]. apply list_elem_of_singleton in Hf as ->.
      cbn. split_and!; [done|right; left| |done|by apply He]. intros _. split; [done|by apply He].
    + case_bool_decide as Ht; [by apply not_elem_of_nil in Hf|]. apply list_elem_of_singleton in Hf as ->.
      cbn. split_and!; [done|right; right; left|done| |by apply He]. intros _. split; [|by apply He].
      by apply set_choose_L.
Qed.

Lemma binding_findings_entry rt direct targets b r :
  entered rt b r →
  (locate.B_SourceID b ∈ direct → ∃ f, f ∈ binding_findings rt direct targets b ∧
     F_Route f = r ∧ F_Provenance f = graph.ProvenanceTraceEntry) ∧
  (∀ t, t ∈ default ∅ (targets !! locate.B_SourceID b) → ∃ f, f ∈ binding_findings rt direct targets b ∧
     F_Route f = r ∧ F_Provenance f = ProvenanceTraceEntryCaller).
Proof.
  intros (Hne & e & He & Hr). unfold binding_findings, boundFindings. rewrite He. cbn [default id].
  rewrite Hr, (bool_decide_eq_false_2 (r = "")) by done. split.
  - intros Hd. rewrite (bool_decide_eq_true_2 (_ ∈ direct)) by done.
    eexists. split; [left|done].
  - intros t Ht. rewrite (bool_decide_eq_false_2 (_ = ∅)) by set_solver.
    eexists. split; [apply elem_of_app; right; left|done].
Qed.

(** ** The runtime findings of a report *)

Section runtime.
  Context (order : gset string → list string) (g : source.Graph) (d : diff.Diff)
    (loc : locate.Snapshot) (rt : graph.Snapshot).
  Context (Hg : source.graph_ok g) (Horder : enumerates order).
  Context (Hnul : ∀ b, b ∈ locate.Lo_Bindings loc → byte 0 ∉ bytes (locate.B_SourceID b)).
Let rep := Analyze_in order (Some g) d loc rt.
Let changed := ds_ids (direct_phase (index g) d).
Let ls := likely_phase g changed (order changed).
  Context (Hcap : (length (Rep_Runtime rep) < 500)%nat).

Lemma elem_of_considered v bs :
  v ∈ considered rt changed ls bs ↔
  ∃ b, b ∈ bs ∧ locate.B_SourceID b ∈ changed ∪ ls_ids ls ∧ v.1 = locate.B_TraceID b ∧
    v.2 ∈ binding_findings rt changed (ls_targets ls) b.
Proof.
  unfold considered. rewrite list_elem_of_bind. setoid_rewrite list_elem_of_fmap.
  setoid_rewrite list_elem_of_filter. destruct v as [t f]. cbn. naive_solver.
Qed.

(** A route is reported for a function exactly when a finding with it was
    considered. *)
Lemma runtime_listed id r p :
  r ≠ "" → p ≠ graph.ProvenanceObservedParent →
  (∃ x, x ∈ Rep_Runtime rep ∧ F_SourceID x = id ∧ F_Route x = r ∧ F_Provenance x = p) ↔
  ∃ b f, b ∈ locate.Lo_Bindings loc ∧ locate.B_SourceID b ∈ changed ∪ ls_ids ls ∧
    f ∈ binding_findings rt changed (ls_targets ls) b ∧
    F_SourceID f = id ∧ F_Route f = r ∧ F_Provenance f = p.
Proof using Hnul Hcap.
  intros Hr Hp. destruct (runtime_phase_stands rt loc changed ls) as [Hs _ (L & HL & Hin & Hk)].
  unfold rep in *. cbn [Analyze_in Rep_Runtime] in *. fold changed ls in Hcap |- *.
  rewrite HL, foldl_appendFinding in *. unfold sortFindings in *.
  rewrite length_sort_cmp, length_take in Hcap. rewrite take_ge in * by (unfold maxFindings in *; lia).
  setoid_rewrite elem_of_sort_cmp. setoid_rewrite elem_of_app. split.
  - intros (x & [Hx|Hx] & Hid & Hxr & Hxp); last first.
    { unfold path_findings in Hx. apply list_elem_of_fmap in Hx as (q & -> & _). by rewrite <- Hxp in Hp. }
    destruct (Hin x Hx) as [_ (v & -> & Hv)%list_elem_of_fmap].
    apply elem_of_considered in Hv as (b & Hb & Hw & _ & Hf). by exists b, v.2.
  - intros (b & f & Hb & Hw & Hf & Hid & Hfr & Hfp).
    assert (bind_key f ∈ rs_seen (runtime_phase rt loc changed ls)) as Hseen.
    { apply Hs, Exists_exists. exists (locate.B_TraceID b, f). split; [|split; [|done]].
      - apply elem_of_considered. by exists b.
      - unfold reported. cbn. naive_solver. }
    apply Hk, list_elem_of_fmap in Hseen as (f' & Hkey & Hf').
    destruct (Hin f' Hf') as [_ (v & Hv2 & (b' & Hb' & _ & _ & Hbf')%elem_of_considered)%list_elem_of_fmap].
    rewrite <- Hv2 in Hbf'.
    destruct (binding_findings_spec _ _ _ _ _ Hf) as (Hsid & Hprov & _).
    destruct (binding_findings_spec _ _ _ _ _ Hbf') as (Hsid' & Hprov' & _).
    assert (∀ q, q ∈ bind_provenances → byte 0 ∉ bytes q) as Hq.
    { intros q. unfold bind_provenances. rewrite !elem_of_cons, elem_of_nil.
      intros [->|[->|[->|[]]]]; by apply (bool_decide_unpack _); vm_compute. }
    apply bind_key_inj in Hkey as (He1 & He2 & He3); [|rewrite ?Hsid, ?Hsid'; auto..].
    exists f'. split_and!; [by left|congruence..].
Qed.

(** A function to watch: a changed one or a caller of a changed one. *)
Definition watched (id : string) : Prop := id ∈ changed ∨ ∃ t, t ∈ changed ∧ calls g id t.

(** The count reported for a route is the number of distinct traces that entered by
    it and passed a watched function. *)
Lemma RouteTraceCounts_exact r n :
  MkRouteTraceCount r n ∈ Rep_RouteTraceCounts rep →
  ∃ X : gset string, n = Z.of_nat (size X) ∧ ∀ t, t ∈ X ↔
    t ≠ "" ∧ ∃ b, b ∈ locate.Lo_Bindings loc ∧ locate.B_TraceID b = t ∧ entered rt b r ∧
      watched (locate.B_SourceID b).
Proof using Hg Horder.
  destruct (likely_phase_spec g changed (order changed) Hg (Horder changed)) as (Hl & Ht & _).
  fold ls in Hl, Ht. assert (∀ id, watched id ↔ id ∈ changed ∪ ls_ids ls) as Hw.
  { intros id. rewrite elem_of_union, Hl. unfold watched. destruct (decide (id ∈ changed)); tauto. }
  unfold rep. cbn [Analyze_in Rep_RouteTraceCounts]. fold changed ls.
  intros (r' & _ & Hc)%list_elem_of_omap. unfold route_count in Hc.
  destruct (0 <? _)%nat; [|done]. injection Hc as -> <-.
  eexists. split; [done|]. intros t.
  rewrite (sf_traces _ _ (runtime_phase_stands rt loc changed ls)), Exists_exists.
  setoid_rewrite elem_of_considered. split.
  - intros (v & (b & Hb & Hid & Htr & Hf) & Hr & <- & Hne & Htne). split; [done|].
    exists b. split_and!; try done; [|by apply Hw]. rewrite <- Hr in Hne |- *.
    by apply (binding_findings_spec rt changed (ls_targets ls)).
  - intros (Htne & b & Hb & Htr & He & Hid).
    destruct (binding_findings_entry rt changed (ls_targets ls) b r He) as [Hd Hc].
    assert (∃ f, f ∈ binding_findings rt changed (ls_targets ls) b ∧ F_Route f = r) as (f & Hf & Hfr).
    { destruct Hid as [Hid|(t' & Ht' & Hcall)]; [destruct (Hd Hid) as (f & ? & ? & _); eauto|].
      destruct (Hc t') as (f & ? & ? & _); [by apply Ht|eauto]. }
    exists (locate.B_TraceID b, f). cbn. split; [|destruct He; by split_and!].
    exists b. split_and!; try done. by apply Hw.
Qed.

(** A route is attributed to a changed function exactly when a span bound to it was
    entered by the route, and to a caller of a changed function likewise. *)
Lemma routes_listed id r :
  ((∃ x, x ∈ Rep_Runtime rep ∧ F_SourceID x = id ∧ F_Route x = r ∧ r ≠ "" ∧
      F_Provenance x = graph.ProvenanceTraceEntry) ↔
   id ∈ changed ∧ ∃ b, b ∈ locate.Lo_Bindings loc ∧ locate.B_SourceID b = id ∧ entered rt b r) ∧
  ((∃ x, x ∈ Rep_Runtime rep ∧ F_SourceID x = id ∧ F_Route x = r ∧ r ≠ "" ∧
      F_Provenance x = ProvenanceTraceEntryCaller) ↔
   (∃ t, t ∈ changed ∧ calls g id t) ∧
   ∃ b, b ∈ locate.Lo_Bindings loc ∧ locate.B_SourceID b = id ∧ entered rt b r).
Proof using Hg Horder Hnul Hcap.
  destruct (likely_phase_spec g changed (order changed) Hg (Horder changed)) as (Hl & Ht & _).
  fold ls in Hl, Ht.
  assert (graph.ProvenanceTraceEntry ≠ graph.ProvenanceObservedParent) as Hpe by done.
  assert (ProvenanceTraceEntryCaller ≠ graph.ProvenanceObservedParent) as Hpc by done.
  split; (split; [intros (x & Hx & Hid & Hr & Hne & Hp)|intros [Hid (b & Hb & <- & He)]]).
  - destruct (proj1 (runtime_listed id r _ Hne Hpe) (ex_intro _ x (conj Hx (conj Hid (conj Hr Hp)))))
      as (b & f & Hb & Hw & Hf & Hfid & Hfr & Hfp).
    destruct (binding_findings_spec _ _ _ _ _ Hf) as (Hsid & _ & Hd & _).
    destruct (Hd Hfp) as [Hdir He]. rewrite Hfr in He. rewrite <- Hfid, Hsid. split; [done|]. by exists b.
  - destruct (binding_findings_entry rt changed (ls_targets ls) b r He) as [Hd _].
    destruct (Hd Hid) as (f & Hf & Hfr & Hfp). pose proof (proj1 He) as Hne.
    destruct (proj2 (runtime_listed (locate.B_SourceID b) r _ Hne Hpe))
      as (x & ? & ? & ? & ?); [|by exists x].
    exists b, f. split_and!; try done; [set_solver|]. by apply (binding_findings_spec rt changed (ls_targets ls)).
  - destruct (proj1 (runtime_listed id r _ Hne Hpc) (ex_intro _ x (conj Hx (conj Hid (conj Hr Hp)))))
      as (b & f & Hb & Hw & Hf & Hfid & Hfr & Hfp).
    destruct (binding_findings_spec _ _ _ _ _ Hf) as (Hsid & _ & _ & Hc & _).
    destruct (Hc Hfp) as [[t Htg] He]. rewrite Hfr in He. apply Ht in Htg. rewrite <- Hfid, Hsid.
    split; [by exists t|]. by exists b.
  - destruct Hid as (t & Htc & Hcall).
    destruct (binding_findings_entry rt changed (ls_targets ls) b r He) as [_ Hc].
    destruct (Hc t) as (f & Hf & Hfr & Hfp); [by apply Ht|]. pose proof (proj1 He) as Hne.
    destruct (proj2 (runtime_listed (locate.B_SourceID b) r _ Hne Hpc))
      as (x & ? & ? & ? & ?); [|by exists x].
    exists b, f. split_and!; try done; [|by apply (binding_findings_spec rt changed (ls_targets ls))].
    apply elem_of_union. destruct (decide (locate.B_SourceID b ∈ changed)); [by left|right].
    apply Hl. eauto.
Qed.

End runtime.

(** A span whose code attributes name the single function [id] of the file they name
    ran below the entry route [r]: the span and its ancestors up to a span without
    a parent were all received, and [r] is the route of the last HTTP server span
    with a route on the way up. *)
Definition ran_below (g : source.Graph) (spans : list Span) (id r : string) : Prop :=
  ∃ sp file fn l e, sp ∈ spans ∧ locate.identified sp ∧ locate.no_attrs sp = false ∧
    locate.normalizeFile (Span_CodeFile sp) = Some file ∧
    locate.candidates g file (locate.functionName (Span_CodeFunction sp)) = [fn] ∧ source.N_ID fn = id ∧
    graph.lineage (graph.find_span spans (Span_TraceID sp)) (Span_SpanID sp) l ∧
    graph.entry_in (graph.find_span spans (Span_TraceID sp)) (Span_TraceID sp) l e ∧
    routeLabel (graph.En_Method e) (graph.En_Route e) = r ∧ r ≠ "".

Lemma ran_below_entered g spans id r :
  (locate.Lo_Bound (locate.Bind (Some g) spans) ≤ 2000)%Z →
  ran_below g spans id r ↔
  ∃ b, b ∈ locate.Lo_Bindings (locate.Bind (Some g) spans) ∧ locate.B_SourceID b = id ∧
    entered (graph.Build spans) b r.
Proof.
  intros Hle. destruct (locate.Bind_iff g spans) as (_ & _ & Hb). specialize (Hb Hle). unfold ran_below, entered.
  setoid_rewrite Hb. setoid_rewrite graph.EntryForSpan_iff. split.
  - intros (sp & file & fn & l & e & Hin & Hid & Ha & Hf & Hc & Hn & Hl & He & Hr & Hne).
    exists (locate.binding sp fn). split; [by exists sp, file, fn|]. split; [done|]. split; [done|].
    exists e. split; [by exists l|done].
  - intros (b & (sp & file & fn & Hin & Hid & Ha & Hf & Hc & ->) & Hn & Hne & e & (l & Hl & He) & Hr).
    by exists sp, file, fn, l, e.
Qed.

(** C23: while fewer than 500 runtime findings are reported and at most 2000 spans are
    bound, a route is attributed to a changed function (one the direct phase finds)
    exactly when a span of that function ran below that entry route, and it is
    attributed to a caller exactly when the caller calls a changed function and a
    span of the caller ran below that entry route. Function identifiers hold no
    NUL byte. *)
Theorem Analyze_routes order g d spans id r :
  let rep := Analyze_in order (Some g) d (locate.Bind (Some g) spans) (graph.Build spans) in
  let changed := ds_ids (direct_phase (index g) d) in
  source.graph_ok g → enumerates order →
  (∀ n, n ∈ source.g_nodes g → byte 0 ∉ bytes (source.N_ID n)) →
  (locate.Lo_Bound (locate.Bind (Some g) spans) ≤ 2000)%Z → (length (Rep_Runtime rep) < 500)%nat →
  ((∃ x, x ∈ Rep_Runtime rep ∧ F_SourceID x = id ∧ F_Route x = r ∧ r ≠ "" ∧
      F_Provenance x = graph.ProvenanceTraceEntry) ↔
   id ∈ changed ∧ ran_below g spans id r) ∧
  ((∃ x, x ∈ Rep_Runtime rep ∧ F_SourceID x = id ∧ F_Route x = r ∧ r ≠ "" ∧
      F_Provenance x = ProvenanceTraceEntryCaller) ↔
   (∃ t, t ∈ changed ∧ calls g id t) ∧ ran_below g spans id r).
Proof.
  intros rep changed Hg Horder Hnul Hle Hcap. rewrite !(ran_below_entered g spans id r Hle).
  apply routes_listed; [done..| |done]. intros b Hb.
  apply locate.Bind_iff in Hb as (sp & file & fn & _ & _ & _ & _ & Hc & ->); [|done]. apply Hnul.
  assert (fn ∈ locate.candidates g file (locate.functionName (Span_CodeFunction sp))) as Hin
    by (rewrite Hc; by left). by apply list_elem_of_filter in Hin as [_ Hin].
Qed.

End analyze.
