(* ===== verification/Investigate.v ===== *)
(** * Evidence search: [investigate/search.go]

    A question is split into words; [Search] lists the observed facts (services,
    hops, paths, routes, bindings, findings) that the words and the services next
    to them touch. Text is UTF-8; which characters outside ASCII are letters or
    numbers is the argument [word]. *)

From S2P Require Import Prelude GoStrings GoText Graph Locate Otlp Impact.

Module investigate.

Definition maxQuestion : Z := Z.shiftl 2 10.

Record Report := MkReport {
  R_Question : string;
  R_Origin : string;
  R_Hits : list string;
  R_Notes : list string;
}.
Record Hop := MkHop { H_From : string; H_To : string; H_Provenance : string }.
Record Path := MkPath { P_Services : list string; P_Provenance : string }.
Record Bind := MkBind {
  B_Service : string;
  B_Name : string;
  B_File : string;
  B_Route : string;
  B_Provenance : string;
  B_Line : Z;
}.
Record Input := MkInput {
  I_Question : string;
  I_Origin : string;
  I_Services : list string;
  I_Hops : list Hop;
  I_Paths : list Path;
  I_Routes : list string;
  I_Binds : list Bind;
  I_Impact : option impact.Report;
}.

(** ** Words *)

Definition stop (t : string) : bool :=
  bool_decide (t ∈ ["the"; "and"; "for"; "how"; "what"; "why"; "can"; "this"; "that";
                    "with"; "from"; "are"; "was"; "does"; "did"; "not"; "our"; "any"]).

Definition word_rune (word : N → bool) (r : N) : bool :=
  if (r <? 128)%N then is_digit (byte r) || in_range 97 122 (lower_byte (byte r)) else word r.

(** [strings.FieldsFunc] on code points. *)
Fixpoint fields_func (f : N → bool) (cur : list N) (rs : list N) : list (list N) :=
  match rs with
  | [] => if cur == [] then [] else [cur]
  | r :: rs =>
      if f r then (if cur == [] then fields_func f [] rs else cur :: fields_func f [] rs)
      else fields_func f (cur ++ [r]) rs
  end.

Definition tokens (word : N → bool) (q : string) : list string :=
  let fields := otlp.of_runes <$> fields_func (λ r, negb (word_rune word r)) [] (otlp.runes (ToLower q)) in
  impact.first_seen [] (filter (λ t, negb ((len t <? 3)%Z || stop t) = true) fields).

Definition match_ (fact : string) (tokens : list string) : bool := existsb (λ t, Contains (ToLower fact) t) tokens.

(** ** Facts *)

Definition label (kind text prov : string) : string :=
  let text := TrimSpace text in
  if text == "" then ""
  else if prov == "" then kind +:+ "  " +:+ text
  else kind +:+ "  " +:+ text +:+ "  " +:+ prov.

Definition or_else (prov fallback : string) : string := if prov == "" then fallback else prov.

Definition formatHop (h : Hop) : string :=
  label "hop" (H_From h +:+ " -> " +:+ H_To h) (or_else (H_Provenance h) graph.ProvenanceObservedParent).
Definition formatPath (p : Path) : string :=
  label "path" (Join (P_Services p) " -> ") (or_else (P_Provenance p) graph.ProvenanceObservedParent).
Definition formatBind (b : Bind) : string :=
  let text := TrimSpace (B_Service b +:+ " " +:+ B_Name b +:+ " " +:+ B_File b) in
  let text := if (0 <? B_Line b)%Z then text +:+ ":" +:+ Itoa (B_Line b) else text in
  let r := TrimSpace (B_Route b) in
  let text := if r != "" then text +:+ " " +:+ r else text in
  label "bind" text (or_else (B_Provenance b) locate.ProvenanceCodeAttrs).

Definition findingText (f : impact.Finding) : string :=
  let loc := TrimSpace (impact.F_Name f +:+ " " +:+ impact.F_File f) in
  if (0 <? impact.F_Line f)%Z then loc +:+ ":" +:+ Itoa (impact.F_Line f) else loc.
Definition provenanceOr (got fallback : string) : string := or_else (TrimSpace got) fallback.

Definition impactFacts (rep : impact.Report) : list string :=
  ((λ f, label "file" f "changed_lines") <$> impact.Rep_Files rep) ++
  ((λ f, label "direct" (findingText f) (provenanceOr (impact.F_Reason f) "changed_lines")) <$>
     impact.Rep_Direct rep) ++
  ((λ f, label "likely" (findingText f) (provenanceOr (impact.F_Provenance f) "typed_call")) <$>
     impact.Rep_Likely rep) ++
  ((λ f, label "runtime" (TrimSpace (impact.F_Route f +:+ " " +:+ impact.F_Path f +:+ " " +:+ impact.F_Name f))
           (provenanceOr (impact.F_Provenance f) graph.ProvenanceObservedParent)) <$> impact.Rep_Runtime rep) ++
  ((λ f, label "unobserved" (findingText f) (provenanceOr (impact.F_Reason f) "unobserved")) <$>
     impact.Rep_Unobserved rep).

(** ** Which services a question is about *)

Definition finding_seed (tokens : list string) (where_ : impact.Finding → string) (f : impact.Finding)
    : list string :=
  if (match_ (impact.F_Name f) tokens || match_ (where_ f) tokens || match_ (impact.F_Service f) tokens ||
      match_ (impact.F_Route f) tokens) && (impact.F_Service f != "")
  then [impact.F_Service f] else [].

(** The services named by the question or by a fact that it names. *)
Definition named (inp : Input) (tokens : list string) : list string :=
  let keep s := match_ s tokens = true in
  filter keep (I_Services inp) ++
  filter keep (I_Hops inp ≫= λ h, [H_From h; H_To h]) ++
  filter keep (I_Paths inp ≫= P_Services) ++
  (I_Binds inp ≫= λ b,
     if (match_ (B_Service b) tokens || match_ (B_Name b) tokens || match_ (B_File b) tokens ||
         match_ (B_Route b) tokens) && (B_Service b != "") then [B_Service b] else []) ++
  match I_Impact inp with
  | None => []
  | Some rep =>
      (impact.Rep_Direct rep ≫= finding_seed tokens impact.F_File) ++
      (impact.Rep_Runtime rep ≫= finding_seed tokens impact.F_Path)
  end.

(** One pass over the hops, in their order. *)
Definition spread (seed : gset string) (h : Hop) : gset string :=
  let seed := if bool_decide (H_From h ∈ seed) then {[H_To h]} ∪ seed else seed in
  if bool_decide (H_To h ∈ seed) then {[H_From h]} ∪ seed else seed.
Definition seeds (inp : Input) (tokens : list string) : gset string :=
  foldl spread (list_to_set (named inp tokens)) (I_Hops inp).

Definition pathTouches (services : list string) (seed : gset string) : bool :=
  existsb (λ s, bool_decide (s ∈ seed)) services.

Definition impactTouches (rep : impact.Report) (tokens : list string) (seed : gset string) : bool :=
  existsb (λ f, match_ f tokens) (impact.Rep_Files rep) ||
  existsb (λ f, (bool_decide (impact.F_Service f ∈ seed) && (impact.F_Service f != "")) ||
                match_ (impact.F_Name f) tokens || match_ (impact.F_File f) tokens ||
                match_ (impact.F_Route f) tokens || match_ (impact.F_Path f) tokens)
    (impact.Rep_Direct rep ++ impact.Rep_Likely rep ++ impact.Rep_Runtime rep ++ impact.Rep_Unobserved rep).

(** ** The search *)

(** The lines that [join] adds, in order. *)
Definition facts (inp : Input) (tokens : list string) : list string :=
  let seed := seeds inp tokens in
  let inseed s := bool_decide (s ∈ seed) in
  ((λ s, label "service" s "") <$> filter (λ s, inseed s = true) (I_Services inp)) ++
  (formatHop <$> filter (λ h, inseed (H_From h) || inseed (H_To h) = true) (I_Hops inp)) ++
  (formatPath <$> filter (λ p, pathTouches (P_Services p) seed = true) (I_Paths inp)) ++
  filter (λ r, match_ r tokens = true) (I_Routes inp) ++
  (formatBind <$> filter (λ b, inseed (B_Service b) || match_ (B_Name b) tokens || match_ (B_File b) tokens ||
                               match_ (B_Route b) tokens = true) (I_Binds inp)) ++
  match I_Impact inp with
  | Some rep => if impactTouches rep tokens seed then impactFacts rep else []
  | None => []
  end.

(** Each line once, no empty ones. *)
Definition join (inp : Input) (tokens : list string) : list string :=
  impact.first_seen [] (filter (λ l, l ≠ "") (facts inp tokens)).

Definition factsOnly : string := "facts only. not a patch. not validated.".

Definition Search (word : N → bool) (inp : Input) : result string Report :=
  let q := TrimSpace (I_Question inp) in
  if q == "" then
    match I_Impact inp with
    | None => Err "investigate: empty question"
    | Some rep =>
        let hits := impactFacts rep in
        Ok (MkReport "local edit" (I_Origin inp) hits
              ([factsOnly; "question omitted: citing the local worktree"] ++
               (if hits == [] then ["no local-edit facts"] else [])))
    end
  else if (maxQuestion <? len q)%Z then Err "investigate: question too large"
  else
    let toks := tokens word q in
    if toks == [] then Ok (MkReport q (I_Origin inp) [] [factsOnly; "no searchable token"])
    else
      let hits := join inp toks in
      Ok (MkReport q (I_Origin inp) hits
            ([factsOnly] ++ (if hits == [] then ["no token matched observed facts"] else []))).

(** ** Each line once *)

Lemma elem_of_first_seen seen l x : x ∈ impact.first_seen seen l ↔ x ∈ l ∧ x ∉ seen.
Proof.
  revert seen. induction l as [|y l IH]; intros seen; simpl; [set_solver|].
  case_bool_decide; rewrite ?elem_of_cons, IH; destruct (decide (x = y)); set_solver.
Qed.
Lemma first_seen_NoDup seen l : NoDup (impact.first_seen seen l).
Proof.
  revert seen. induction l as [|y l IH]; intros seen; simpl; [constructor|].
  case_bool_decide; [done|]. constructor; [|done]. rewrite elem_of_first_seen. set_solver.
Qed.

(** ** Hits are facts of the window *)

Section search.
  Context (inp : Input).

(** Services next to each other in the runtime graph. *)
Definition adjacent (a b : string) : Prop :=
  ∃ h, h ∈ I_Hops inp ∧ ((H_From h = a ∧ H_To h = b) ∨ (H_From h = b ∧ H_To h = a)).

(** A service that the question names, or one connected to it by observed hops. *)
Definition near (toks : list string) (s : string) : Prop := ∃ n, n ∈ named inp toks ∧ rtc adjacent n s.

Lemma spread_near toks seed h :
  h ∈ I_Hops inp → (∀ s, s ∈ seed → near toks s) → ∀ s, s ∈ spread seed h → near toks s.
Proof.
  intros Hh Hseed. assert (∀ a b X, (∀ s, s ∈ X → near toks s) → adjacent a b →
    ∀ s, s ∈ (if bool_decide (a ∈ X) then {[b]} ∪ X else X : gset string) → near toks s) as Hstep.
  { intros a b X HX Hab s. case_bool_decide as Ha; [|by apply HX].
    intros [->%elem_of_singleton|Hs]%elem_of_union; [|by apply HX].
    destruct (HX _ Ha) as (n & Hn & Hr). exists n. split; [done|]. by eapply rtc_r. }
  unfold spread. intros s. apply Hstep; [|exists h; split; [done|by right]].
  apply Hstep; [done|exists h; split; [done|by left]].
Qed.

Lemma seeds_near toks s : s ∈ seeds inp toks → near toks s.
Proof.
  unfold seeds. assert (∀ hs seed, hs ⊆ I_Hops inp → (∀ x, x ∈ seed → near toks x) →
    ∀ x, x ∈ foldl spread seed hs → near toks x) as Hf.
  { induction hs as [|h hs IH]; intros seed Hsub Hseed; [done|]. simpl. apply IH.
    - intros x Hx. apply Hsub. by right.
    - apply spread_near; [apply Hsub; by left|done]. }
  apply Hf; [done|]. intros x Hx%elem_of_list_to_set. exists x. split; [done|apply rtc_refl].
Qed.

(** The lines that may be cited, with why: a named word or a service near it. *)
Inductive cited (toks : list string) : string → Prop :=
| cited_service s : s ∈ I_Services inp → near toks s → cited toks (label "service" s "")
| cited_hop h : h ∈ I_Hops inp → near toks (H_From h) ∨ near toks (H_To h) → cited toks (formatHop h)
| cited_path p s : p ∈ I_Paths inp → s ∈ P_Services p → near toks s → cited toks (formatPath p)
| cited_route r : r ∈ I_Routes inp → match_ r toks = true → cited toks r
| cited_bind b : b ∈ I_Binds inp →
    near toks (B_Service b) ∨ match_ (B_Name b) toks = true ∨ match_ (B_File b) toks = true ∨
      match_ (B_Route b) toks = true → cited toks (formatBind b)
| cited_impact rep l : I_Impact inp = Some rep → impactTouches rep toks (seeds inp toks) = true →
    l ∈ impactFacts rep → cited toks l.

Lemma facts_cited toks l : l ∈ facts inp toks → cited toks l.
Proof.
  unfold facts. rewrite !elem_of_app. intros [Hl|[Hl|[Hl|[Hl|[Hl|Hl]]]]].
  - apply list_elem_of_fmap in Hl as (s & -> & [Hs Hin]%list_elem_of_filter). apply bool_decide_eq_true in Hs.
    apply cited_service; [done|by apply seeds_near].
  - apply list_elem_of_fmap in Hl as (h & -> & [Hs Hin]%list_elem_of_filter). apply cited_hop; [done|].
    apply orb_true_iff in Hs as [Hs|Hs]; apply bool_decide_eq_true in Hs; [left|right]; by apply seeds_near.
  - apply list_elem_of_fmap in Hl as (p & -> & [Hs Hin]%list_elem_of_filter).
    apply existsb_True in Hs as (s & Hsp & Hs). apply bool_decide_eq_true in Hs.
    by eapply cited_path, seeds_near.
  - apply list_elem_of_filter in Hl as [Hs Hin]. by apply cited_route.
  - apply list_elem_of_fmap in Hl as (b & -> & [Hs Hin]%list_elem_of_filter). apply cited_bind; [done|].
    rewrite !orb_true_iff in Hs. destruct Hs as [[[Hs|Hs]|Hs]|Hs]; [left|tauto..].
    apply bool_decide_eq_true in Hs. by apply seeds_near.
  - destruct (I_Impact inp) as [rep|] eqn:Ei; [|by apply not_elem_of_nil in Hl].
    destruct (impactTouches rep toks _) eqn:Et; [|by apply not_elem_of_nil in Hl]. by eapply cited_impact.
Qed.

(** An answer to a question is only made of facts that were observed and that the
    question's words reach: each hit, cited once, is a fact of the window whose
    own text or whose services the words name, directly or along observed hops;
    without a hit the report says so instead of guessing. *)
Theorem Search_cited word rep :
  Search word inp = Ok rep → TrimSpace (I_Question inp) ≠ "" →
  NoDup (R_Hits rep) ∧ "" ∉ R_Hits rep ∧
  (∀ l, l ∈ R_Hits rep → cited (tokens word (TrimSpace (I_Question inp))) l) ∧
  (R_Hits rep = [] ↔ "no searchable token" ∈ R_Notes rep ∨ "no token matched observed facts" ∈ R_Notes rep).
Proof.
  intros Hs Hq. unfold Search in Hs. rewrite bool_decide_eq_false_2 in Hs by done.
  destruct (_ <? _)%Z; [done|]. case_bool_decide as Ht; injection Hs as <-; cbn [R_Hits R_Notes].
  { split_and!; [constructor|apply not_elem_of_nil|by intros l ?%elem_of_nil|].
    split; [intros _; left; by right; left|done]. }
  unfold join. split_and!.
  - apply first_seen_NoDup.
  - rewrite elem_of_first_seen. by intros [[? _]%list_elem_of_filter _].
  - intros l [[_ Hl]%list_elem_of_filter _]%elem_of_first_seen. by apply facts_cited.
  - case_bool_decide as Hh; rewrite ?app_nil_r; split; try done.
    + intros _. right. by right; left.
    + intros [Hn|Hn]; exfalso; apply list_elem_of_singleton in Hn; discriminate Hn.
Qed.
End search.

End investigate.
