(* ===== verification/Plan.v ===== *)
(** * Experiment plans and their execution: [internal/plan], [internal/fault]

    [Module fault] models the checks of the fault proxy of [fault/proxy.go] (the
    handler itself is in Fault.v); [Module plan] models [plan.go], [run.go], [fault.go] and
    [tests.go]. The outside world of one execution (what the gateways answer,
    in which order goroutines finish, what [go test] prints) is the record
    [World]. *)

From Stdlib Require Import Floats.SpecFloat.
From S2P Require Import Prelude GoStrings Net Ingest Replay Impact.

Module fault.

Definition maxDelay : Z := 30000000000.

Record Spec := MkSpec {
  Spec_Delay : Z;
  Spec_Status : Z;
}.

Section handler.
  Context `{GoNet}.

(** The checks [Handler] makes before it returns a handler for the target. *)
Definition Handler (target : string) (spec : Spec) : result string URL :=
  let raw := TrimSpace target in
  check? guard_err (raw == "") "fault: empty target" in
  let raw := if Contains raw "://" then raw else "http://" +:+ raw in
  match url_Parse raw with
  | Err e => Err ("fault: target: " +:+ e)
  | Ok u =>
      check? guard_err ((URL_Scheme u != "http") && (URL_Scheme u != "https"))
               "fault: target must be http or https" in
      check? guard_err (URL_Host u == "") "fault: target missing host" in
      check? guard_err (bool_decide (is_Some (URL_User u)))
               "fault: target must not include userinfo" in
      check? guard_err (Spec_Delay spec <? 0)%Z "fault: delay must be >= 0" in
      check? guard_err (maxDelay <? Spec_Delay spec)%Z "fault: delay exceeds 30s" in
      check? guard_err ((Spec_Status spec <? 0)%Z || (599 <? Spec_Status spec)%Z)
               "fault: status out of range" in
      match CheckURL (url_String u) with
      | Err e => Err ("fault: " +:+ net_err_text e)
      | Ok _ => Ok u
      end
  end.

End handler.

End fault.

Module plan.

Definition KindEnv : string := "env".
Definition KindBehavior : string := "behavior".
Definition KindLatency : string := "latency".
Definition KindConcurrency : string := "concurrency".
Definition KindTests : string := "tests".
Definition KindFaultStatus : string := "fault_status".
Definition DefaultLatencyN : Z := 20.
Definition DefaultConcurrencyN : Z := 8.
Definition VerdictSkipped : string := "skipped".
Definition VerdictSamples : string := "samples".
Definition VerdictPrepared : string := "prepared".

Record Step := MkStep {
  Step_ID : string;
  Step_Kind : string;
  Step_Required : bool;
  Step_Operator : bool;
  Step_N : Z;
  Step_Status : Z;
  Step_DependsOn : list string;
  Step_Reason : string;
}.

Record DAG := MkDAG {
  DAG_Steps : list Step;
  DAG_Notes : list string;
  DAG_Module : string;
  DAG_TestPackages : list string;
  DAG_HealthPath : string;
}.

Record StepResult := MkStepResult {
  SR_ID : string;
  SR_Kind : string;
  SR_Verdict : string;
  SR_Notes : list string;
  SR_Latency : list replay.StepLatency;
  SR_Steps : list replay.Delta;
}.

Record Evidence := MkEvidence {
  Ev_Overall : string;
  Ev_Steps : list StepResult;
  Ev_Notes : list string;
}.

(** ** plan.go *)

Definition hasRuntime (rep : impact.Report) : bool :=
  negb (bool_decide (length (impact.Rep_Runtime rep) = 0%nat)).

Definition hasKind (dag : DAG) (kind : string) : bool :=
  existsb (λ s, Step_Kind s == kind) (DAG_Steps dag).

Definition step_env : Step :=
  MkStep "env" KindEnv true false 0 0 []
    "GET /healthz on baseline and patch; compose is a local shop path".
Definition step_behavior : Step :=
  MkStep "behavior" KindBehavior true false 0 0 ["env"] "first-run status and json compare".
Definition step_latency : Step :=
  MkStep "latency" KindLatency true false DefaultLatencyN 0 ["env"]
    "successful-sample median; p95 withheld below 20; no regression threshold".
Definition step_concurrency : Step :=
  MkStep "concurrency" KindConcurrency true false DefaultConcurrencyN 0 ["env"]
    "parallel replay error-rate compare; not a latency threshold".
Definition step_fault : Step :=
  MkStep "fault_status" KindFaultStatus false false 0 502 ["env"]
    "one-sided 502 inject on patch via loopback proxy; probe, not a patch verdict".

Definition empty_report (rep : impact.Report) : bool :=
  (length (impact.Rep_Files rep) =? 0)%nat && (length (impact.Rep_Direct rep) =? 0)%nat &&
  (length (impact.Rep_Likely rep) =? 0)%nat && (length (impact.Rep_Runtime rep) =? 0)%nat &&
  (length (impact.Rep_Unobserved rep) =? 0)%nat.

Definition FromImpact (rep : impact.Report) : result string DAG :=
  if empty_report rep then Err "plan: empty impact"
  else
    let note :=
      "not validated until required executable steps succeed on a clean recorded revision. match is not a pass." in
    Ok (MkDAG
      ([step_env; step_behavior; step_latency] ++
       (if hasRuntime rep then [step_concurrency; step_fault] else []))
      [note; if hasRuntime rep
             then "fault is a one-sided inject probe and does not vote overall"
             else "concurrency and fault omitted: no observed runtime path"]
      "" [] "").

Definition set_steps (dag : DAG) (steps : list Step) : DAG :=
  MkDAG steps (DAG_Notes dag) (DAG_Module dag) (DAG_TestPackages dag) (DAG_HealthPath dag).
Definition set_notes (dag : DAG) (notes : list string) : DAG :=
  MkDAG (DAG_Steps dag) notes (DAG_Module dag) (DAG_TestPackages dag) (DAG_HealthPath dag).
Definition set_tests (dag : DAG) (m : string) (pkgs : list string) : DAG :=
  MkDAG (DAG_Steps dag) (DAG_Notes dag) m pkgs (DAG_HealthPath dag).
Definition set_health (dag : DAG) (path : string) : DAG :=
  MkDAG (DAG_Steps dag) (DAG_Notes dag) (DAG_Module dag) (DAG_TestPackages dag) path.

Definition step_set_N (s : Step) (n : Z) : Step :=
  MkStep (Step_ID s) (Step_Kind s) (Step_Required s) (Step_Operator s) n
    (Step_Status s) (Step_DependsOn s) (Step_Reason s).
Definition step_set_local (s : Step) (op : bool) (reason : string) : Step :=
  MkStep (Step_ID s) (Step_Kind s) (Step_Required s) op (Step_N s)
    (Step_Status s) (Step_DependsOn s) reason.

Definition WithLatencyN (dag : DAG) (n : Z) : DAG :=
  if (n <? 1)%Z then dag
  else set_steps dag
    ((λ s, if Step_Kind s == KindLatency then step_set_N s n else s) <$> DAG_Steps dag).

(** [strings.ReplaceAll(s, old, new)] for a non-empty [old]. *)
Fixpoint replace_all (fuel : nat) (s old new : string) : string :=
  match fuel with
  | O => s
  | S fuel =>
      match Index s old with
      | Some i =>
          str_take i s +:+ new +:+ replace_all fuel (str_drop (i + String.length old) s) old new
      | None => s
      end
  end.

(** A round takes at least one byte away, so more rounds than bytes change nothing. *)
Lemma replace_all_fuel fuel fuel' s old new :
  old ≠ "" → (String.length s < fuel)%nat → (String.length s < fuel')%nat →
  replace_all fuel s old new = replace_all fuel' s old new.
Proof.
  intros Hold. revert fuel' s. induction fuel as [|fuel IH]; intros [|fuel'] s H1 H2; [lia..|]. cbn.
  destruct (Index s old) as [i|] eqn:E; [|done]. f_equal. f_equal. destruct s as [|a s].
  { cbn [Index] in E. destruct (HasPrefix "" old) eqn:Ep; [|done]. apply HasPrefix_spec in Ep as [r Hr]. destruct old; [done|]. by rewrite app_cons_str in Hr. }
  assert (String.length old ≠ 0%nat) as Hl by by destruct old.
  pose proof (str_take_drop (i + String.length old) (String a s)) as Hcut. apply (f_equal String.length) in Hcut.
  rewrite length_str_app, length_str_take in Hcut. apply IH; simpl in *; lia.
Qed.

Definition WithHealthPath (dag : DAG) (path : string) : DAG :=
  let path := TrimSpace path in
  if (path == "") || (path == replay.DefaultHealthPath) then dag
  else
    set_steps (set_health dag path)
      ((λ s, if Step_Kind s == KindEnv
             then step_set_local s (Step_Operator s)
                    (replace_all (S (String.length (Step_Reason s))) (Step_Reason s)
                       ("GET " +:+ replay.DefaultHealthPath) ("GET " +:+ path))
             else s) <$> DAG_Steps dag).

Definition WithLocalEnv (dag : DAG) : DAG :=
  set_steps dag
    ((λ s, if Step_Kind s == KindEnv
           then step_set_local s false
             "isolated shop pair started by aquila; GET /healthz; traces stay out of the live store"
           else s) <$> DAG_Steps dag).

Definition replayRepeats (dag : DAG) : Z * bool :=
  foldl (λ '(n, need) s,
    if Step_Operator s then (n, need)
    else if Step_Kind s == KindBehavior then (n, true)
    else if Step_Kind s == KindLatency
         then ((if (n <? Step_N s)%Z then Step_N s else n), true)
    else (n, need)) (1%Z, false) (DAG_Steps dag).

Definition concurrencyN (dag : DAG) : Z * bool :=
  foldl (λ '(n, need) s,
    if Step_Operator s || (Step_Kind s != KindConcurrency) then (n, need)
    else ((if (0 <? Step_N s)%Z then Step_N s else n), true))
    (DefaultConcurrencyN, false) (DAG_Steps dag).

Definition compareFirst `{GoJSON} (base patch : list replay.Result) : replay.Report :=
  match base, patch with
  | b :: _, p :: _ => replay.Compare b p
  | _, _ => replay.MkReport replay.VerdictIncomplete []
  end.

(** ** run.go: the overall verdict *)

Record votes := MkVotes {
  v_incomplete : bool;
  v_differ : bool;
  v_executed : Z;
}.

Fixpoint overall_loop (steps : list StepResult) (v : votes) : option votes :=
  match steps with
  | [] => Some v
  | s :: rest =>
      if (SR_Kind s == KindEnv) && (SR_Verdict s == replay.VerdictIncomplete) then None
      else if SR_Verdict s == VerdictSkipped then overall_loop rest v
      else if (SR_Kind s == KindEnv) || (SR_Kind s == KindFaultStatus) then overall_loop rest v
      else
        let ex := (v_executed v + 1)%Z in
        if SR_Kind s == KindLatency then
          overall_loop rest
            (MkVotes (v_incomplete v || (SR_Verdict s == replay.VerdictIncomplete))
               (v_differ v) ex)
        else
          overall_loop rest
            (MkVotes (v_incomplete v || (SR_Verdict s == replay.VerdictIncomplete))
               (v_differ v || (SR_Verdict s == replay.VerdictDiffer)) ex)
  end.

Definition overall (steps : list StepResult) : string :=
  match overall_loop steps (MkVotes false false 0) with
  | None => replay.VerdictIncomplete
  | Some v =>
      if (v_executed v =? 0)%Z then replay.VerdictIncomplete
      else if v_incomplete v then replay.VerdictIncomplete
      else if v_differ v then replay.VerdictDiffer
      else replay.VerdictMatch
  end.

Definition Overall (steps : list StepResult) : string := overall steps.

(** ** fault.go *)

Definition isErrorObs (s : replay.Observation) : bool :=
  (replay.Obs_Err s != "") || (500 <=? replay.Obs_Status s)%Z || (replay.Obs_Status s =? 0)%Z.

Definition burstErrors (runs : list replay.Result) : Z * Z :=
  let obs := runs ≫= replay.Result_Steps in
  (count isErrorObs obs, Z.of_nat (length obs)).

Definition compareBurst (base patch : list replay.Result) : StepResult :=
  let out verdict notes := MkStepResult "concurrency" KindConcurrency verdict notes [] [] in
  if (length base =? 0)%nat || (length patch =? 0)%nat
  then out replay.VerdictIncomplete ["no samples"]
  else
    let '(be, bn) := burstErrors base in
    let '(pe, pn) := burstErrors patch in
    if (bn =? 0)%Z || (pn =? 0)%Z then out replay.VerdictIncomplete ["no observations"]
    else
      let note := "baseline_errors=" +:+ Itoa be +:+ "/" +:+ Itoa bn +:+
                  " patch_errors=" +:+ Itoa pe +:+ "/" +:+ Itoa pn in
      if (be <? pe)%Z then
        out replay.VerdictDiffer [note; "patch errors more under concurrency"]
      else if (pe <? be)%Z then
        out replay.VerdictDiffer [note; "patch errors less under concurrency"]
      else out replay.VerdictMatch [note].

Definition probeStep (w : replay.Workload) : replay.Step :=
  match filter (λ s, ToUpper (TrimSpace (replay.Step_Method s)) ∈ replay.readMethods)
          (replay.Workload_Steps w) with
  | s :: _ => s
  | [] =>
      match replay.Workload_Steps w with
      | s :: _ => s
      | [] => replay.MkStep "GET" replay.DefaultHealthPath "" [] "" ""
      end
  end.

(** What happens around the loopback proxy of one probe: [net.Listen] gives an
    address or fails, and the proxy and the baseline answer. *)
Record FaultWorld := MkFaultWorld {
  FW_listen : result string string;
  FW_inject : string → replay.Step → replay.Reply;
  FW_base : string → replay.Step → replay.Reply;
}.

Definition probeFault `{GoNet} (fw : FaultWorld) (s : Step) (base patch : string)
    (w : replay.Workload) : StepResult :=
  let out verdict notes := MkStepResult (Step_ID s) (Step_Kind s) verdict notes [] [] in
  let incomplete note := out replay.VerdictIncomplete [note] in
  let status := if (Step_Status s <? 1)%Z then 502%Z else Step_Status s in
  let step := probeStep w in
  match fault.Handler patch (fault.MkSpec 0 status) with
  | Err e => incomplete e
  | Ok _ =>
    match FW_listen fw with
    | Err e => incomplete e
    | Ok addr =>
      match replay.Run (FW_inject fw) ("http://" +:+ addr) (replay.MkWorkload [step]) with
      | Err e => incomplete (replay.run_err_text e)
      | Ok inj =>
        match replay.Run (FW_base fw) base (replay.MkWorkload [step]) with
        | Err e => incomplete (replay.run_err_text e)
        | Ok baseRun =>
          match replay.Result_Steps inj, replay.Result_Steps baseRun with
          | i :: _, b :: _ =>
              if negb (replay.Obs_Status i =? status)%Z
              then incomplete "inject did not return the requested status"
              else if (replay.Obs_Err b != "") || (replay.Obs_Status b =? status)%Z
              then incomplete "baseline also failed; inject is not distinguishable"
              else out VerdictPrepared ["one-sided " +:+ Itoa status]
          | [], _ => incomplete "inject did not return the requested status"
          | i :: _, [] =>
              if negb (replay.Obs_Status i =? status)%Z
              then incomplete "inject did not return the requested status"
              else incomplete "baseline also failed; inject is not distinguishable"
          end
        end
      end
    end
  end.

(** ** tests.go *)

Definition pathDir (p : string) : string :=
  match LastIndexByte p (byte 47) with
  | Some (S i) => str_take (S i) p
  | _ => "."
  end.

Definition safeRel (dir : string) : bool :=
  (dir == ".") || (dir == "") ||
  negb (HasPrefix dir "/" || Contains dir ".." || Contains dir "\").

(** [ReadDir root dir] lists the entries of [filepath.Join(root, dir)], each
    with whether it is a directory, or fails. *)
Definition hasGoFiles (ents : option (list (string * bool))) : bool :=
  match ents with
  | None => false
  | Some ents => existsb (λ e, negb e.2 && HasSuffix e.1 ".go") ents
  end.

(** The package of one changed file, if it is a Go file of a readable package. *)
Definition testPackage (ReadDir : string → string → option (list (string * bool)))
    (root : string) (f : string) : option string :=
  if negb (HasSuffix f ".go") || Contains f "/testdata/" then None
  else
    let dir := pathDir f in
    if negb (safeRel dir) then None
    else
      let local := (dir == ".") || (dir == "") in
      let pkg := if local then "." else "./" +:+ dir in
      if hasGoFiles (ReadDir root (if local then "" else dir)) then Some pkg else None.

Definition testPackages (ReadDir : string → string → option (list (string * bool)))
    (root : string) (files : list string) : list string :=
  impact.first_seen [] (omap (testPackage ReadDir root) files).

Definition step_tests : Step :=
  MkStep "tests" KindTests true false 0 0 []
    "go test of impact packages in the current module; not a two-revision compare".

(** [abs] is the absolute module path, or [None] when it cannot be resolved;
    [goMod] says whether it has a go.mod. *)
Definition WithTests (ReadDir : string → string → option (list (string * bool)))
    (abs : option string) (goMod : bool) (dag : DAG) (files : list string) : DAG :=
  match abs with
  | None => dag
  | Some root =>
      if negb goMod then set_notes dag (DAG_Notes dag ++ ["tests omitted: no go.mod"])
      else
        let pkgs := testPackages ReadDir root files in
        if bool_decide (pkgs = [])
        then set_notes dag (DAG_Notes dag ++ ["tests omitted: no go packages in impact"])
        else if hasKind dag KindTests then set_tests dag root pkgs
        else
          set_tests
            (set_notes (set_steps dag (DAG_Steps dag ++ [step_tests]))
               (DAG_Notes dag ++
                ["impacted tests are of the current module, not baseline vs patch"]))
            root pkgs
  end.

Definition clipBytes (raw : string) (n : nat) : string := str_take n (TrimSpace raw).

(** How the [go test] command ends. *)
Inductive TestRun :=
| TestsPassed
| TestsCanceled
| TestsExit (code : Z) (msg : string) (output : string)
| TestsError (msg : string) (output : string).

Definition badPackage (p : string) : bool :=
  ((p != ".") && negb (HasPrefix p "./")) || Contains p "..".

Definition runTests (dag : DAG) (outcome : TestRun) : StepResult :=
  let out verdict notes := MkStepResult "tests" KindTests verdict notes [] [] in
  if (TrimSpace (DAG_Module dag) == "") || bool_decide (DAG_TestPackages dag = [])
  then out replay.VerdictIncomplete ["no test packages"]
  else if existsb badPackage (DAG_TestPackages dag)
  then out replay.VerdictIncomplete ["invalid package"]
  else
    match outcome with
    | TestsPassed => out VerdictPrepared ["go test"]
    | TestsCanceled => out replay.VerdictIncomplete ["tests canceled"]
    | TestsExit code msg output =>
        let note := clipBytes output 512 in
        if (0 <? code)%Z then out replay.VerdictDiffer [note]
        else out replay.VerdictIncomplete [if note == "" then msg else note]
    | TestsError msg output =>
        let note := clipBytes output 512 in
        out replay.VerdictIncomplete [if note == "" then msg else note]
    end.

(** ** run.go: execution *)

Definition routePath (p : string) : string := before_byte p (byte 63).

(** One side of a phase: the context's error when run [i] starts, and what the
    network answers during it. *)
Record Phase := MkPhase {
  Ph_ctx : nat → option string;
  Ph_exchange : nat → string → replay.Step → replay.Reply;
}.

(** The outside world of one [Execute]. The lists [W_baseFin] and [W_patchFin]
    are the orders in which the goroutines of the two bursts finish. *)
Record World := MkWorld {
  W_probe : string → result string Z;
  W_base : Phase;
  W_patch : Phase;
  W_baseFin : list nat;
  W_baseBurst : Phase;
  W_patchFin : list nat;
  W_patchBurst : Phase;
  W_tests : TestRun;
  W_fault : nat → FaultWorld;
}.

Record execData := MkExecData {
  ed_envErr : option string;
  ed_base : list replay.Result;
  ed_patch : list replay.Result;
  ed_baseBurst : list replay.Result;
  ed_patchBurst : list replay.Result;
  ed_tests : StepResult;
  ed_fault : gmap string StepResult;
}.

Definition zeroStepResult : StepResult := MkStepResult "" "" "" [] [] [].

Definition hasSamples (lat : list replay.StepLatency) : bool :=
  existsb (λ s, (0 <? replay.Sum_N (replay.Lat_Baseline s))%Z ||
                (0 <? replay.Sum_N (replay.Lat_Patch s))%Z) lat.

(** The verb %.1f on [float64(ns)/1e6]: the quotient is the float64 nearest to
    the exact one, and printing rounds its exact value half to even. *)
Definition half_even (num den : Z) : Z :=
  let q := (num / den)%Z in
  let r := (num mod den)%Z in
  if (2 * r <? den)%Z then q
  else if (den <? 2 * r)%Z then (q + 1)%Z
  else if Z.even q then q else (q + 1)%Z.

Definition tenths (x : spec_float) : Z :=
  match x with
  | S754_finite _ m e =>
      if (0 <=? e)%Z then (10 * Zpos m * 2 ^ e)%Z else half_even (10 * Zpos m) (2 ^ (- e))
  | _ => 0%Z
  end.

Definition fmt_ms (ns : Z) : string :=
  let x := SFdiv 53 1024 (replay.float64_of_int ns) (replay.float64_of_int 1000000) in
  let t := tenths x in
  let sign := match x with S754_finite true _ _ => "-" | _ => "" end in
  sign +:+ Itoa (t / 10) +:+ "." +:+ Itoa (t mod 10).

Definition behaviorNote (d : replay.Delta) : string :=
  let note := replay.Delta_Method d +:+ " " +:+ routePath (replay.Delta_Path d) +:+ " " +:+
    Itoa (replay.Delta_BaselineStatus d) +:+ "/" +:+ Itoa (replay.Delta_PatchStatus d) +:+
    " " +:+ Join (replay.Delta_Notes d) "," in
  if replay.AuthRejected d
  then note +:+ ": handler did not run; check workload headers" else note.

Definition latencyNote (l : replay.StepLatency) : string :=
  "latency_shift " +:+ replay.Lat_Method l +:+ " " +:+ routePath (replay.Lat_Path l) +:+
  " median " +:+ fmt_ms (replay.Sum_MedNS (replay.Lat_Baseline l)) +:+ "ms -> " +:+
  fmt_ms (replay.Sum_MedNS (replay.Lat_Patch l)) +:+ "ms (> " +:+ Itoa replay.ShiftRatio +:+
  "x and >= " +:+ Itoa (replay.ShiftMinNS / 1000000) +:+ "ms slower); blocks validated".

Definition evalStep `{GoJSON} (s : Step) (data : execData) : StepResult :=
  let out verdict notes := MkStepResult (Step_ID s) (Step_Kind s) verdict notes [] [] in
  if (Step_Kind s == KindEnv) && negb (Step_Operator s) then
    match ed_envErr data with
    | Some e => out replay.VerdictIncomplete [e]
    | None => out VerdictPrepared ["healthz"]
    end
  else if Step_Operator s then out VerdictSkipped ["operator"]
  else if Step_Kind s == KindBehavior then
    let rep := compareFirst (ed_base data) (ed_patch data) in
    MkStepResult (Step_ID s) (Step_Kind s) (replay.Report_Verdict rep)
      (behaviorNote <$> filter (λ d, replay.Delta_Notes d ≠ []) (replay.Report_Steps rep))
      [] (replay.Report_Steps rep)
  else if Step_Kind s == KindLatency then
    if bool_decide (ed_base data = []) || bool_decide (ed_patch data = [])
    then out replay.VerdictIncomplete ["no samples"]
    else
      let lat := replay.Latency (ed_base data) (ed_patch data) in
      if negb (hasSamples lat) then
        MkStepResult (Step_ID s) (Step_Kind s) replay.VerdictIncomplete
          ["no successful samples"] lat []
      else
        MkStepResult (Step_ID s) (Step_Kind s) VerdictSamples
          (latencyNote <$> filter (λ l, replay.Shifted l = true) lat) lat []
  else if Step_Kind s == KindConcurrency then
    let got := compareBurst (ed_baseBurst data) (ed_patchBurst data) in
    MkStepResult (Step_ID s) (SR_Kind got) (SR_Verdict got) (SR_Notes got)
      (SR_Latency got) (SR_Steps got)
  else if Step_Kind s == KindTests then
    let got := ed_tests data in
    MkStepResult (Step_ID s) KindTests (SR_Verdict got) (SR_Notes got)
      (SR_Latency got) (SR_Steps got)
  else if Step_Kind s == KindFaultStatus then
    match ed_fault data !! Step_ID s with
    | Some got => got
    | None => out replay.VerdictIncomplete ["fault not executed"]
    end
  else out replay.VerdictIncomplete ["unknown step"].

Section execute.
  Context `{GoNet, GoJSON}.

Definition probeEnv (probe : string → result string Z) (dag : DAG) (base patch : string)
    : option string :=
  if existsb (λ s, (Step_Kind s == KindEnv) && negb (Step_Operator s)) (DAG_Steps dag)
  then match replay.HealthzPath probe base patch (DAG_HealthPath dag) with
       | Ok _ => None
       | Err e => Some (replay.run_err_text e)
       end
  else None.

(** The fault probes, in the order of the steps; [i] is the position in the DAG. *)
Fixpoint probeFaults (fw : nat → FaultWorld) (i : nat) (steps : list Step)
    (base patch : string) (w : replay.Workload) (m : gmap string StepResult)
    : gmap string StepResult :=
  match steps with
  | [] => m
  | s :: rest =>
      probeFaults fw (S i) rest base patch w
        (if (Step_Kind s == KindFaultStatus) && negb (Step_Operator s)
         then <[Step_ID s := probeFault (fw i) s base patch w]> m else m)
  end.

(** The two replays, or nothing when they are not needed. *)
Definition replayPair (run : bool) (base patch : result replay.RunErr (list replay.Result))
    : result replay.RunErr (list replay.Result * list replay.Result) :=
  if run then let? b := base in let? p := patch in Ok (b, p) else Ok ([], []).

Definition Execute (wd : World) (dag : DAG) (base patch : string) (w : replay.Workload)
    : result replay.RunErr Evidence :=
  check? replay.CheckTarget base in
  check? replay.CheckTarget patch in
  let '(n, needReplay) := replayRepeats dag in
  let '(cn, needBurst) := concurrencyN dag in
  check? guard_err ((needReplay || needBurst) && bool_decide (replay.Workload_Steps w = []))
           (replay.RunErrorf "plan: empty workload") in
  let envErr := probeEnv (W_probe wd) dag base patch in
  let up := bool_decide (envErr = None) in
  let? rs := replayPair (up && needReplay)
    (replay.Repeat (Ph_ctx (W_base wd)) (Ph_exchange (W_base wd)) base w n)
    (replay.Repeat (Ph_ctx (W_patch wd)) (Ph_exchange (W_patch wd)) patch w n) in
  let? bs := replayPair (up && needBurst)
    (replay.Burst (W_baseFin wd) (Ph_ctx (W_baseBurst wd)) (Ph_exchange (W_baseBurst wd))
       base w cn)
    (replay.Burst (W_patchFin wd) (Ph_ctx (W_patchBurst wd)) (Ph_exchange (W_patchBurst wd))
       patch w cn) in
  let data := MkExecData envErr rs.1 rs.2 bs.1 bs.2
    (if hasKind dag KindTests then runTests dag (W_tests wd) else zeroStepResult)
    (probeFaults (W_fault wd) 0 (DAG_Steps dag) base patch w ∅) in
  let steps := (λ s, evalStep s data) <$> DAG_Steps dag in
  Ok (MkEvidence (overall steps) steps (DAG_Notes dag)).

End execute.

(** ** Properties of the overall verdict *)

Definition env_down (s : StepResult) : bool :=
  (SR_Kind s == KindEnv) && (SR_Verdict s == replay.VerdictIncomplete).

(** The steps that vote: not skipped, and neither the environment check nor the
    fault probe. *)
Definition voting (s : StepResult) : bool :=
  (SR_Verdict s != VerdictSkipped) && (SR_Kind s != KindEnv) && (SR_Kind s != KindFaultStatus).

Definition votes_incomplete (s : StepResult) : bool :=
  voting s && (SR_Verdict s == replay.VerdictIncomplete).

Definition votes_differ (s : StepResult) : bool :=
  voting s && (SR_Kind s != KindLatency) && (SR_Verdict s == replay.VerdictDiffer).

Lemma overall_loop_spec steps v :
  overall_loop steps v =
    if existsb env_down steps then None
    else Some (MkVotes (v_incomplete v || existsb votes_incomplete steps)
                 (v_differ v || existsb votes_differ steps)
                 (v_executed v + count voting steps)).
Proof.
  revert v. induction steps as [|s steps IH]; intros v; cbn [overall_loop existsb count].
  { destruct v; simpl. by rewrite !orb_false_r, Z.add_0_r. }
  unfold env_down at 1.
  destruct ((SR_Kind s == KindEnv) && (SR_Verdict s == replay.VerdictIncomplete)) eqn:Hd;
    [done|]. cbn [orb].
  assert (voting s = (SR_Verdict s != VerdictSkipped) && (SR_Kind s != KindEnv) &&
            (SR_Kind s != KindFaultStatus)) as Hv by done.
  unfold votes_incomplete at 1, votes_differ at 1. rewrite count_cons, Hv.
  destruct (SR_Verdict s == VerdictSkipped); [by rewrite IH|].
  destruct (SR_Kind s == KindEnv); [by rewrite IH|].
  destruct (SR_Kind s == KindFaultStatus); [by rewrite IH|].
  cbn [orb andb negb].
  destruct (SR_Kind s == KindLatency); rewrite IH; cbn [v_incomplete v_differ v_executed];
    destruct (existsb env_down steps); try done; cbn [negb andb orb];
    by rewrite ?orb_assoc, ?orb_false_r, <- ?Z.add_assoc.
Qed.

(** The verdict as a function of which votes occur, not of their order. *)
Lemma overall_eq steps :
  overall steps =
    if existsb env_down steps || negb (existsb voting steps) || existsb votes_incomplete steps
    then replay.VerdictIncomplete
    else if existsb votes_differ steps then replay.VerdictDiffer else replay.VerdictMatch.
Proof.
  unfold overall. rewrite overall_loop_spec. destruct (existsb env_down steps); [done|].
  cbn [v_executed v_incomplete v_differ orb].
  assert ((0 + count voting steps =? 0)%Z = negb (existsb voting steps)) as ->;
    [|by destruct (existsb voting steps)].
  pose proof (count_nonneg voting steps). destruct (existsb voting steps) eqn:E; cbn [negb].
  - apply existsb_True, count_pos in E. apply Z.eqb_neq. lia.
  - apply Z.eqb_eq. enough (¬ (0 < count voting steps)%Z) by lia.
    rewrite count_pos, <- existsb_True. congruence.
Qed.

Lemma overall_range steps :
  overall steps ∈ [replay.VerdictMatch; replay.VerdictDiffer; replay.VerdictIncomplete].
Proof. rewrite overall_eq. repeat case_match; set_solver. Qed.

Lemma env_up steps :
  existsb env_down steps = false ↔ ∀ s, s ∈ steps → env_down s = false.
Proof. apply existsb_False. Qed.

Lemma no_incomplete_vote steps :
  existsb votes_incomplete steps = false ↔
    ∀ s, s ∈ steps → voting s = true → SR_Verdict s ≠ replay.VerdictIncomplete.
Proof.
  rewrite existsb_False. unfold votes_incomplete. split; intros H s Hs.
  - intros Hv. specialize (H s Hs). rewrite Hv in H. by apply bool_decide_eq_false in H.
  - destruct (voting s) eqn:Hv; [|done]. apply bool_decide_eq_false. auto.
Qed.

Lemma differ_vote steps :
  existsb votes_differ steps = true ↔
    ∃ s, s ∈ steps ∧ voting s = true ∧ SR_Kind s ≠ KindLatency ∧
         SR_Verdict s = replay.VerdictDiffer.
Proof.
  rewrite existsb_True. unfold votes_differ. split; intros (s & Hs & Hd); exists s.
  - apply andb_true_iff in Hd as [[Hv Hk]%andb_true_iff Hd].
    apply negb_true_iff, bool_decide_eq_false in Hk. by apply bool_decide_eq_true in Hd.
  - destruct Hd as (-> & Hk & ->). by rewrite bool_decide_eq_false_2.
Qed.

Lemma overall_match_iff steps :
  overall steps = replay.VerdictMatch ↔
    (∀ s, s ∈ steps → env_down s = false) ∧ (∃ s, s ∈ steps ∧ voting s = true) ∧
    (∀ s, s ∈ steps → voting s = true → SR_Verdict s ≠ replay.VerdictIncomplete) ∧
    ¬ (∃ s, s ∈ steps ∧ voting s = true ∧ SR_Kind s ≠ KindLatency ∧
            SR_Verdict s = replay.VerdictDiffer).
Proof.
  rewrite overall_eq, <- env_up, <- existsb_True, <- no_incomplete_vote, <- differ_vote.
  destruct (existsb env_down steps), (existsb voting steps), (existsb votes_incomplete steps),
    (existsb votes_differ steps); cbn; naive_solver.
Qed.

(** The overall verdict is match exactly when the environment check did not
    fail, at least one step voted, no vote is incomplete and no vote other than
    latency differs; it is differ exactly when some such vote differs and none
    is incomplete; and it is nothing but match, differ or incomplete. Skipped
    steps, the environment check and the fault probe have no vote. *)
Theorem overall_verdict steps :
  (overall steps = replay.VerdictMatch ↔
     (∀ s, s ∈ steps → env_down s = false) ∧ (∃ s, s ∈ steps ∧ voting s = true) ∧
     (∀ s, s ∈ steps → voting s = true → SR_Verdict s ≠ replay.VerdictIncomplete) ∧
     ¬ (∃ s, s ∈ steps ∧ voting s = true ∧ SR_Kind s ≠ KindLatency ∧
             SR_Verdict s = replay.VerdictDiffer)) ∧
  (overall steps = replay.VerdictDiffer ↔
     (∀ s, s ∈ steps → env_down s = false) ∧
     (∀ s, s ∈ steps → voting s = true → SR_Verdict s ≠ replay.VerdictIncomplete) ∧
     ∃ s, s ∈ steps ∧ voting s = true ∧ SR_Kind s ≠ KindLatency ∧
          SR_Verdict s = replay.VerdictDiffer) ∧
  overall steps ∈ [replay.VerdictMatch; replay.VerdictDiffer; replay.VerdictIncomplete].
Proof.
  split; [apply overall_match_iff|]. split; [|apply overall_range].
  rewrite overall_eq, <- env_up, <- no_incomplete_vote, <- differ_vote.
  assert (existsb votes_differ steps = true → existsb voting steps = true) as Hv.
  { rewrite differ_vote, existsb_True. naive_solver. }
  destruct (existsb env_down steps), (existsb voting steps), (existsb votes_incomplete steps),
    (existsb votes_differ steps); cbn; naive_solver.
Qed.

(** The verdict depends on the results only, not on their order. *)
#[global] Instance overall_Permutation : Proper ((≡ₚ) ==> (=)) overall.
Proof.
  intros l k Hp. rewrite !overall_eq.
  assert (∀ f : StepResult → bool, existsb f l = existsb f k) as He.
  { intros f. apply eq_true_iff_eq. rewrite !existsb_True. by setoid_rewrite Hp. }
  by rewrite !He.
Qed.

(** ** Properties of execution *)

Section execute_props.
  Context `{GoNet, GoJSON}.

(** A stored fault result carries the identity of the step it was made for. *)
Definition fault_ids (m : gmap string StepResult) : Prop :=
  ∀ id r, m !! id = Some r → SR_ID r = id ∧ SR_Kind r = KindFaultStatus.

Lemma probeFault_id fw s base patch w :
  SR_ID (probeFault fw s base patch w) = Step_ID s ∧
  SR_Kind (probeFault fw s base patch w) = Step_Kind s.
Proof. unfold probeFault. repeat case_match; done. Qed.

Lemma probeFaults_ids fw i steps base patch w m :
  fault_ids m → fault_ids (probeFaults fw i steps base patch w m).
Proof.
  revert i m. induction steps as [|s steps IH]; intros i m Hm; simpl; [done|].
  apply IH. destruct ((Step_Kind s == KindFaultStatus) && _) eqn:E; [|done].
  intros id r. rewrite lookup_insert_Some. intros [[<- <-]|[_ ?]]; [|by apply Hm].
  destruct (probeFault_id (fw i) s base patch w) as [-> ->]. go_inv. by split.
Qed.

Lemma compareBurst_kind b p : SR_Kind (compareBurst b p) = KindConcurrency.
Proof. unfold compareBurst. repeat case_match; done. Qed.

Lemma evalStep_id s data :
  fault_ids (ed_fault data) →
  SR_ID (evalStep s data) = Step_ID s ∧ SR_Kind (evalStep s data) = Step_Kind s.
Proof.
  intros Hf. unfold evalStep.
  destruct ((Step_Kind s == KindEnv) && negb (Step_Operator s)); [by case_match|].
  destruct (Step_Operator s); [done|].
  destruct (Step_Kind s == KindBehavior); [done|].
  destruct (Step_Kind s == KindLatency); [by repeat case_match|].
  case_bool_decide as Hc; [by rewrite compareBurst_kind|].
  case_bool_decide as Ht; [done|].
  case_bool_decide as Hfs; [|done].
  destruct (ed_fault data !! Step_ID s) as [r|] eqn:Er; [|done].
  apply Hf in Er as [-> ->]. by rewrite Hfs.
Qed.

(** What each kind of step establishes when it does not end incomplete or
    different. *)
Lemma compareFirst_match b p :
  replay.Report_Verdict (compareFirst b p) = replay.VerdictMatch →
  ∃ r rs q qs, b = r :: rs ∧ p = q :: qs ∧
    Forall2 replay.obs_match (replay.Result_Steps r) (replay.Result_Steps q).
Proof.
  destruct b as [|r rs], p as [|q qs]; try done; cbn [compareFirst].
  rewrite replay.Compare_match_iff. naive_solver.
Qed.

Lemma compareBurst_match b p :
  SR_Verdict (compareBurst b p) = replay.VerdictMatch →
  b ≠ [] ∧ p ≠ [] ∧ (0 < (burstErrors b).2)%Z ∧ (0 < (burstErrors p).2)%Z ∧
  (burstErrors b).1 = (burstErrors p).1.
Proof.
  unfold compareBurst. destruct b as [|b0 b], p as [|p0 p]; try done.
  cbn [length Nat.eqb orb].
  destruct (burstErrors (b0 :: b)) as [be bn] eqn:Eb, (burstErrors (p0 :: p)) as [pe pn] eqn:Ep.
  unfold burstErrors in Eb, Ep. simplify_eq.
  destruct (Z.eqb_spec (Z.of_nat (length ((b0 :: b) ≫= replay.Result_Steps))) 0); [done|].
  destruct (Z.eqb_spec (Z.of_nat (length ((p0 :: p) ≫= replay.Result_Steps))) 0); [done|].
  cbn [orb]. destruct (Z.ltb_spec
    (count isErrorObs ((b0 :: b) ≫= replay.Result_Steps))
    (count isErrorObs ((p0 :: p) ≫= replay.Result_Steps))); [done|].
  destruct (Z.ltb_spec
    (count isErrorObs ((p0 :: p) ≫= replay.Result_Steps))
    (count isErrorObs ((b0 :: b) ≫= replay.Result_Steps))); [done|].
  intros _. split; [done|]. split; [done|]. cbn [fst snd]. lia.
Qed.

Lemma compareBurst_verdict b p :
  SR_Verdict (compareBurst b p) ∈
    [replay.VerdictMatch; replay.VerdictDiffer; replay.VerdictIncomplete].
Proof. unfold compareBurst. repeat case_match; set_solver. Qed.

Lemma Compare_verdict_in b p :
  replay.Report_Verdict (compareFirst b p) ∈
    [replay.VerdictMatch; replay.VerdictDiffer; replay.VerdictIncomplete].
Proof.
  destruct b as [|r rs], p as [|q qs]; cbn [compareFirst]; [set_solver..|].
  rewrite replay.Compare_verdict. unfold replay.verdict_of. repeat case_match; set_solver.
Qed.

Lemma runTests_verdict dag t :
  SR_Verdict (runTests dag t) ∈ [VerdictPrepared; replay.VerdictDiffer; replay.VerdictIncomplete].
Proof. unfold runTests. repeat case_match; set_solver. Qed.

Lemma replayPair_ok run base patch b p :
  replayPair run base patch = Ok (b, p) →
  (base = Ok b ∧ patch = Ok p) ∨ (b = [] ∧ p = []).
Proof.
  unfold replayPair. destruct run; [|intros; simplify_eq; by right].
  intros (b' & Hb & Hr)%rbind_ok. apply rbind_ok in Hr as (p' & Hp & Hr). simplify_eq. by left.
Qed.

(** What a successful [Execute] computed. *)
Lemma Execute_inv wd dag base patch w ev :
  Execute wd dag base patch w = Ok ev →
  ∃ data,
    ev = MkEvidence (overall ((λ s, evalStep s data) <$> DAG_Steps dag))
           ((λ s, evalStep s data) <$> DAG_Steps dag) (DAG_Notes dag) ∧
    fault_ids (ed_fault data) ∧
    ed_envErr data = probeEnv (W_probe wd) dag base patch ∧
    (∀ r, r ∈ ed_base data →
       replay.Repeat (Ph_ctx (W_base wd)) (Ph_exchange (W_base wd))
         base w (replayRepeats dag).1 = Ok (ed_base data)) ∧
    (∀ r, r ∈ ed_patch data →
       replay.Repeat (Ph_ctx (W_patch wd)) (Ph_exchange (W_patch wd))
         patch w (replayRepeats dag).1 = Ok (ed_patch data)) ∧
    (hasKind dag KindTests = true → ed_tests data = runTests dag (W_tests wd)) ∧
    (∀ r, r ∈ ed_baseBurst data →
       replay.Burst (W_baseFin wd) (Ph_ctx (W_baseBurst wd)) (Ph_exchange (W_baseBurst wd))
         base w (concurrencyN dag).1 = Ok (ed_baseBurst data)) ∧
    (∀ r, r ∈ ed_patchBurst data →
       replay.Burst (W_patchFin wd) (Ph_ctx (W_patchBurst wd)) (Ph_exchange (W_patchBurst wd))
         patch w (concurrencyN dag).1 = Ok (ed_patchBurst data)).
Proof.
  unfold Execute. intros ([] & _ & He)%rbind_ok. apply rbind_ok in He as ([] & _ & He).
  destruct (replayRepeats dag) as [n nr], (concurrencyN dag) as [cn nb].
  apply rbind_ok in He as ([] & _ & He).
  apply rbind_ok in He as ([rb rp] & Hr & He). apply rbind_ok in He as ([bb bp] & Hb & He).
  simplify_eq. eexists. split; [reflexivity|]. cbn [ed_fault ed_envErr ed_base ed_patch ed_tests fst].
  split; [by apply probeFaults_ids|]. split; [done|].
  cbn [fst snd ed_baseBurst ed_patchBurst].
  apply replayPair_ok in Hr as [[Hr1 Hr2]|[-> ->]], Hb as [[Hb1 Hb2]|[-> ->]];
    (split; [by (done || intros ? ?%not_elem_of_nil)|]);
    (split; [by (done || intros ? ?%not_elem_of_nil)|]);
    (split; [by intros ->|]); split; by (done || intros ? ?%not_elem_of_nil).
Qed.

(** The evidence has one result per step of the plan, in its order and with its
    identity and kind, and its verdict is [overall] of them. *)
Lemma Execute_shape wd dag base patch w ev :
  Execute wd dag base patch w = Ok ev →
  (λ r, (SR_ID r, SR_Kind r)) <$> Ev_Steps ev
    = (λ s, (Step_ID s, Step_Kind s)) <$> DAG_Steps dag ∧
  Ev_Overall ev = overall (Ev_Steps ev).
Proof.
  intros (data & -> & Hf & _)%Execute_inv. split; [|done]. simpl.
  rewrite <- list_fmap_compose. apply list_fmap_ext. intros i s _. unfold compose.
  by destruct (evalStep_id s data Hf) as [-> ->].
Qed.

(** An executable step of the plan, of the given kind. *)
Definition runs_step (dag : DAG) (kind : string) : Prop :=
  ∃ s, s ∈ DAG_Steps dag ∧ Step_Kind s = kind ∧ Step_Operator s = false.

(** What the verdict match of an executed plan says of the two gateways. *)
Record match_evidence (wd : World) (dag : DAG) (base patch : string) (w : replay.Workload)
    : Prop := {
  me_env : runs_step dag KindEnv →
    replay.HealthzPath (W_probe wd) base patch (DAG_HealthPath dag) = Ok tt;
  me_behavior : runs_step dag KindBehavior →
    ∃ b bs p ps,
      replay.Repeat (Ph_ctx (W_base wd)) (Ph_exchange (W_base wd)) base w
        (replayRepeats dag).1 = Ok (b :: bs) ∧
      replay.Repeat (Ph_ctx (W_patch wd)) (Ph_exchange (W_patch wd)) patch w
        (replayRepeats dag).1 = Ok (p :: ps) ∧
      Forall2 replay.obs_match (replay.Result_Steps b) (replay.Result_Steps p);
  me_burst : runs_step dag KindConcurrency →
    ∃ b p,
      replay.Burst (W_baseFin wd) (Ph_ctx (W_baseBurst wd)) (Ph_exchange (W_baseBurst wd))
        base w (concurrencyN dag).1 = Ok b ∧
      replay.Burst (W_patchFin wd) (Ph_ctx (W_patchBurst wd)) (Ph_exchange (W_patchBurst wd))
        patch w (concurrencyN dag).1 = Ok p ∧
      (burstErrors b).1 = (burstErrors p).1;
  me_tests : runs_step dag KindTests →
    SR_Verdict (runTests dag (W_tests wd)) = VerdictPrepared;
}.

Lemma evalStep_verdict_voting s data k :
  fault_ids (ed_fault data) → Step_Kind s = k → Step_Operator s = false →
  k ∈ [KindBehavior; KindConcurrency; KindTests] →
  SR_Verdict (evalStep s data) =
    if bool_decide (k = KindBehavior)
    then replay.Report_Verdict (compareFirst (ed_base data) (ed_patch data))
    else if bool_decide (k = KindConcurrency)
    then SR_Verdict (compareBurst (ed_baseBurst data) (ed_patchBurst data))
    else SR_Verdict (ed_tests data).
Proof.
  intros Hf Hk Ho Hin. unfold evalStep. rewrite Hk, Ho.
  apply elem_of_cons in Hin as [->|Hin]; [done|].
  apply elem_of_cons in Hin as [->|Hin%list_elem_of_singleton]; [done|]. by rewrite Hin.
Qed.

Lemma evalStep_env s data :
  Step_Kind s = KindEnv → Step_Operator s = false →
  SR_Verdict (evalStep s data) =
    if ed_envErr data then replay.VerdictIncomplete else VerdictPrepared.
Proof. intros Hk Ho. unfold evalStep. rewrite Hk, Ho. by destruct (ed_envErr data). Qed.

Lemma overall_match_votes data dag s :
  fault_ids (ed_fault data) →
  overall ((λ s, evalStep s data) <$> DAG_Steps dag) = replay.VerdictMatch →
  s ∈ DAG_Steps dag →
  env_down (evalStep s data) = false ∧
  (Step_Kind s ∉ [KindEnv; KindFaultStatus; KindLatency] →
   SR_Verdict (evalStep s data) ≠ VerdictSkipped →
   SR_Verdict (evalStep s data) ∉ [replay.VerdictDiffer; replay.VerdictIncomplete]).
Proof.
  intros Hf Hm Hs. apply overall_match_iff in Hm as (Henv & _ & Hv & Hd).
  assert (evalStep s data ∈ (λ s, evalStep s data) <$> DAG_Steps dag) as Hin
    by (apply list_elem_of_fmap; eauto).
  split; [by apply Henv|]. intros Hk Hsk.
  destruct (evalStep_id s data Hf) as [_ Hkind].
  rewrite !not_elem_of_cons in *. destruct Hk as (? & ? & ? & _).
  assert (voting (evalStep s data) = true) as Hvo.
  { unfold voting. rewrite Hkind. by rewrite !bool_decide_eq_false_2. }
  split; [|split; [by apply Hv|apply not_elem_of_nil]].
  intros Hdi. apply Hd. exists (evalStep s data). by rewrite Hkind.
Qed.

Lemma voting_verdict (v good : string) (P : Prop) :
  v ∈ [good; replay.VerdictDiffer; replay.VerdictIncomplete] →
  (P → v ≠ VerdictSkipped → v ∉ [replay.VerdictDiffer; replay.VerdictIncomplete]) →
  good ≠ VerdictSkipped → P → v = good.
Proof.
  intros [->|Hv]%elem_of_cons Hvote Hg HP; [done|]. exfalso.
  apply (Hvote HP); [|done]. intros ->.
  revert Hv. change (VerdictSkipped ∉ [replay.VerdictDiffer; replay.VerdictIncomplete]).
  compute_done.
Qed.

(** When [Execute] reports match: every health probe it made succeeded, the
    first replays of both gateways agree observation by observation, and the
    impacted tests passed, for each of these steps that the plan has. *)
Lemma Execute_match wd dag base patch w ev :
  Execute wd dag base patch w = Ok ev → Ev_Overall ev = replay.VerdictMatch →
  match_evidence wd dag base patch w.
Proof.
  intros (data & -> & Hf & Henv & Hb & Hp & Ht & Hbb & Hbp)%Execute_inv Hm. simpl in Hm.
  pose proof (λ s, overall_match_votes data dag s Hf Hm) as Hv.
  split; intros (s & Hs & Hk & Ho); destruct (Hv s Hs) as [Hdown Hvote].
  - unfold env_down in Hdown. destruct (evalStep_id s data Hf) as [_ Hkind].
    rewrite Hkind, Hk, evalStep_env in Hdown by done. revert Henv. unfold probeEnv.
    rewrite (proj2 (existsb_True _ _)); [|exists s; by rewrite Hk, Ho].
    destruct (replay.HealthzPath _ _ _ _) as [[]|e]; [done|]. intros Henv. by rewrite Henv in Hdown.
  - rewrite (evalStep_verdict_voting s data KindBehavior) in Hvote by (done || set_solver).
    rewrite Hk, bool_decide_eq_true_2 in Hvote by done.
    pose proof (voting_verdict _ _ _ (Compare_verdict_in (ed_base data) (ed_patch data)) Hvote
      ltac:(done) ltac:(compute_done)) as Hc.
    apply compareFirst_match in Hc as (r & rs & q & qs & Er & Eq & Hobs).
    pose proof (Hb r ltac:(rewrite Er; left)) as Hr.
    pose proof (Hp q ltac:(rewrite Eq; left)) as Hq.
    rewrite Er in Hr. rewrite Eq in Hq. by exists r, rs, q, qs.
  - rewrite (evalStep_verdict_voting s data KindConcurrency) in Hvote by (done || set_solver).
    rewrite Hk, bool_decide_eq_false_2, bool_decide_eq_true_2 in Hvote by done.
    pose proof (voting_verdict _ _ _ (compareBurst_verdict (ed_baseBurst data) (ed_patchBurst data))
      Hvote ltac:(done) ltac:(compute_done)) as Hc.
    apply compareBurst_match in Hc as (Hb0 & Hp0 & _ & _ & Hcount).
    exists (ed_baseBurst data), (ed_patchBurst data). split; [|split; [|done]].
    + destruct (ed_baseBurst data) as [|r0 ?]; [done|]. apply (Hbb r0). left.
    + destruct (ed_patchBurst data) as [|r0 ?]; [done|]. apply (Hbp r0). left.
  - rewrite (evalStep_verdict_voting s data KindTests) in Hvote by (done || set_solver).
    rewrite Hk, 2!bool_decide_eq_false_2, Ht in Hvote; try done.
    2:{ apply existsb_True. exists s. split; [done|]. by apply bool_decide_eq_true. }
    by apply (voting_verdict _ _ _ (runTests_verdict dag (W_tests wd)) Hvote); [|compute_done].
Qed.

(** C9: the evidence of an execution has one result per step of the plan, in
    its order and with its identity and kind; its verdict is that of its
    results; and when the verdict is match, every health probe succeeded, the
    first replays of both gateways agree observation by observation, the two
    bursts have the same number of errors and the impacted tests passed, for
    each of these steps the plan has. *)
Theorem Execute_evidence wd dag base patch w ev :
  Execute wd dag base patch w = Ok ev →
  (λ r, (SR_ID r, SR_Kind r)) <$> Ev_Steps ev
    = (λ s, (Step_ID s, Step_Kind s)) <$> DAG_Steps dag ∧
  Ev_Overall ev = overall (Ev_Steps ev) ∧
  (Ev_Overall ev = replay.VerdictMatch → match_evidence wd dag base patch w).
Proof.
  intros Hex. destruct (Execute_shape _ _ _ _ _ _ Hex). split; [done|]. split; [done|].
  by apply Execute_match.
Qed.

(** When the health probe of either gateway fails, the execution is
    incomplete, whatever the other steps found. *)
Theorem Execute_env_gate wd dag base patch w ev e :
  Execute wd dag base patch w = Ok ev → runs_step dag KindEnv →
  replay.HealthzPath (W_probe wd) base patch (DAG_HealthPath dag) = Err e →
  Ev_Overall ev = replay.VerdictIncomplete.
Proof.
  intros (data & -> & Hf & Henv & _)%Execute_inv (s & Hs & Hk & Ho) Hh. simpl.
  unfold probeEnv in Henv. rewrite (proj2 (existsb_True _ _)) in Henv;
    [|exists s; by rewrite Hk, Ho]. rewrite Hh in Henv.
  rewrite overall_eq, (proj2 (existsb_True _ _)); [done|].
  exists (evalStep s data). split; [apply list_elem_of_fmap; eauto|]. unfold env_down.
  destruct (evalStep_id s data Hf) as [_ Hkind].
  by rewrite Hkind, Hk, evalStep_env, Henv by done.
Qed.

End execute_props.

End plan.
