(* ===== verification/Validate.v ===== *)
(** * The validation policy: [internal/validate]

    [Module gitrev] holds the revision record of [gitrev/snapshot.go];
    [Module validate] models all of [validate/decide.go]. The Go map that counts
    steps per kind is a [gmap]; its iteration order is fixed by [map_to_list],
    and [duplicateBlockers_order] shows that the order does not matter. *)

From S2P Require Import Prelude GoStrings Net Ingest Replay Impact Plan.

Module gitrev.

Definition SourceBuilt : string := "built".
Definition SourceDeclared : string := "declared".

Record Revision := MkRevision {
  Rev_Commit : string;
  Rev_Tree : string;
  Rev_Path : string;
  Rev_Dirty : bool;
  Rev_Source : string;
}.

End gitrev.

Module validate.

Definition minLatencyN : Z := 20.
Definition CoverageObserved : string := "observed".
Definition CoverageInferred : string := "inferred".

Definition CodeLegacySchema : string := "legacy_schema".
Definition CodeDirtyBaseline : string := "dirty_baseline".
Definition CodeUnverifiedRevision : string := "unverified_revision".
Definition CodeMissingTarget : string := "missing_target".
Definition CodeSameTarget : string := "same_target".
Definition CodeNotMatch : string := "not_match".
Definition CodeStepMissing : string := "step_missing".
Definition CodeStepFailed : string := "step_failed".
Definition CodeDuplicateStep : string := "duplicate_step".
Definition CodeLatencyN : string := "latency_n".
Definition CodeLatencyShift : string := "latency_shift".
Definition CodeUnanalyzedChange : string := "unanalyzed_change".
Definition CodeNoFunctionBinding : string := "no_function_binding".
Definition CodeNoRuntimeRoute : string := "no_runtime_route".
Definition CodeRouteMissed : string := "route_missed".

(** [graph.ProvenanceTraceEntry] and [locate.ProvenanceCodeAttrs]. *)
Definition ProvenanceTraceEntry : string := "trace_entry".
Definition ProvenanceCodeAttrs : string := "code_attrs".

Definition coreKinds : list string :=
  [plan.KindEnv; plan.KindBehavior; plan.KindLatency; plan.KindConcurrency].

Record Blocker := MkBlocker {
  B_Code : string;
  B_Subject : string;
}.
#[global] Instance Blocker_eq_dec : EqDecision Blocker.
Proof. solve_decision. Defined.

(** [Blocker.String] *)
Definition Blocker_String (b : Blocker) : string :=
  if B_Subject b == "" then B_Code b else B_Code b +:+ ":" +:+ B_Subject b.

Record Decision := MkDecision {
  D_CoverageBasis : string;
  D_Validated : bool;
  D_Blockers : list Blocker;
}.

Record Input := MkInput {
  In_Attributions : list impact.RouteAttribution;
  In_BaselineRev : gitrev.Revision;
  In_PatchRev : gitrev.Revision;
  In_Baseline : string;
  In_Patch : string;
  In_Plan : plan.DAG;
  In_Result : plan.Evidence;
  In_Impacted : list string;
  In_Workload : list replay.Step;
  In_Changes : impact.Changes;
}.

Definition Legacy : Decision := MkDecision "" false [MkBlocker CodeLegacySchema ""].

Definition cmp_blocker : Blocker → Blocker → comparison :=
  cmp_then (cmp_on B_Subject String.compare) (cmp_on B_Code String.compare).

#[global] Instance cmp_blocker_ordcmp : OrdCmp cmp_blocker.
Proof. unfold cmp_blocker. apply _. Qed.

Definition sortedBlockers (l : list Blocker) : list Blocker := sort_cmp cmp_blocker l.

(** A Go [if cond { blockers = append(blockers, b) }]. *)
Definition when (c : bool) (b : Blocker) : list Blocker := if c then [b] else [].

Definition normURL `{GoNet} (raw : string) : string :=
  match url_Parse (TrimSpace raw) with
  | Err _ => TrimRight raw "/"
  | Ok u =>
      let scheme := ToLower (URL_Scheme u) in
      let host := ToLower (Hostname u) in
      let host := if bool_decide (host ∈ ["localhost"; "127.0.0.1"; "::1"])
                  then "127.0.0.1" else host in
      let port := Port u in
      let port := if ((scheme == "http") && (port == "80")) ||
                     ((scheme == "https") && (port == "443")) then "" else port in
      let h := if port != "" then JoinHostPort host port
               else if Contains host ":" then "[" +:+ host +:+ "]" else host in
      TrimRight (url_String
        (MkURL scheme (URL_Opaque u) (URL_User u) h (URL_Path u) (URL_RawQuery u)
           (URL_Fragment u))) "/"
  end.

Definition targetBlockers `{GoNet} (inp : Input) : list Blocker :=
  sortedBlockers (
    when (TrimSpace (In_Baseline inp) == "") (MkBlocker CodeMissingTarget "baseline") ++
    when (TrimSpace (In_Patch inp) == "") (MkBlocker CodeMissingTarget "patch") ++
    when ((In_Baseline inp != "") && (In_Patch inp != "") &&
          (normURL (In_Baseline inp) == normURL (In_Patch inp)))
      (MkBlocker CodeSameTarget (normURL (In_Baseline inp)))).

Definition step_counts (inp : Input) : gmap string (Z * Z) :=
  let planned := foldl (λ (m : gmap string (Z * Z)) s,
      let n := default (0, 0)%Z (m !! plan.Step_Kind s) in
      <[plan.Step_Kind s := (n.1 + 1, n.2)%Z]> m) ∅ (plan.DAG_Steps (In_Plan inp)) in
  foldl (λ (m : gmap string (Z * Z)) s,
      let n := default (0, 0)%Z (m !! plan.SR_Kind s) in
      <[plan.SR_Kind s := (n.1, n.2 + 1)%Z]> m) planned (plan.Ev_Steps (In_Result inp)).

(** The loop over the map, for one iteration order of its entries. *)
Definition duplicates_of (entries : list (string * (Z * Z))) : list Blocker :=
  sortedBlockers (entries ≫= λ '(kind, n),
    when ((1 <? n.1)%Z || (1 <? n.2)%Z) (MkBlocker CodeDuplicateStep kind)).

Definition duplicateBlockers (inp : Input) : list Blocker :=
  duplicates_of (map_to_list (step_counts inp)).

Definition latencyN (got : plan.StepResult) : Z :=
  let side l := let n := replay.Sum_N (replay.Lat_Baseline l) in
                if (replay.Sum_N (replay.Lat_Patch l) <? n)%Z
                then replay.Sum_N (replay.Lat_Patch l) else n in
  match plan.SR_Latency got with
  | [] => 0%Z
  | l :: rest => foldl (λ m l, if (side l <? m)%Z then side l else m) (side l) rest
  end.

Definition stepOK (kind : string) (got : plan.StepResult) : bool :=
  let v := ToLower (TrimSpace (plan.SR_Verdict got)) in
  if (kind == plan.KindEnv) || (kind == plan.KindTests) then v == plan.VerdictPrepared
  else if (kind == plan.KindBehavior) || (kind == plan.KindConcurrency)
  then v == replay.VerdictMatch
  else if kind == plan.KindLatency then
    if (v != plan.VerdictSamples) || (latencyN got <? minLatencyN)%Z then false
    else negb (existsb replay.Shifted (plan.SR_Latency got))
  else (v == replay.VerdictMatch) || (v == plan.VerdictSamples) || (v == plan.VerdictPrepared).

(** The blockers of one latency step. *)
Definition latencyBlockers (step : plan.StepResult) : list Blocker :=
  when (latencyN step <? minLatencyN)%Z (MkBlocker CodeLatencyN (Itoa (latencyN step))) ++
  (plan.SR_Latency step ≫= λ row, when (replay.Shifted row)
     (MkBlocker CodeLatencyShift (replay.Lat_Method row +:+ " " +:+ replay.Lat_Path row))).

Definition kindBlockers (results : list plan.StepResult) (kind : string) : list Blocker :=
  let steps := filter (λ s, plan.SR_Kind s = kind) results in
  let failed := existsb (λ s, negb (stepOK kind s)) steps in
  (if kind == plan.KindLatency then steps ≫= latencyBlockers else []) ++
  (if bool_decide (steps = []) then [MkBlocker CodeStepMissing kind]
   else if failed then [MkBlocker CodeStepFailed kind] else []).

Definition stepBlockers (kinds : list string) (results : list plan.StepResult)
    : list Blocker :=
  sortedBlockers (kinds ≫= kindBlockers results).

Definition required_step (s : plan.Step) : bool :=
  plan.Step_Required s && negb (plan.Step_Operator s) &&
  negb (bool_decide (plan.Step_Kind s ∈ coreKinds)).

Definition requiredKinds (inp : Input) : list string :=
  foldl (λ kinds s,
    if required_step s && negb (bool_decide (plan.Step_Kind s ∈ kinds))
    then kinds ++ [plan.Step_Kind s] else kinds) [] (plan.DAG_Steps (In_Plan inp)).

Definition requiredStepBlockers (inp : Input) : list Blocker :=
  stepBlockers (requiredKinds inp) (plan.Ev_Steps (In_Result inp)).

Definition changeBlockers (inp : Input) : list Blocker :=
  sortedBlockers (
    (MkBlocker CodeUnanalyzedChange <$> impact.Ch_Unanalyzed (In_Changes inp)) ++
    (if bool_decide (impact.Ch_Bound (In_Changes inp) = [])
     then [MkBlocker CodeNoFunctionBinding ""]
     else when (bool_decide (In_Impacted inp = [])) (MkBlocker CodeNoRuntimeRoute ""))).

Definition answered_deltas (res : plan.Evidence) : list replay.Delta :=
  filter (λ d, replay.Delta_BaselineStatus d ≠ 0%Z ∧ replay.Delta_PatchStatus d ≠ 0%Z ∧
               replay.AuthRejected d = false)
    (filter (λ s, plan.SR_Kind s = plan.KindBehavior) (plan.Ev_Steps res) ≫= plan.SR_Steps).

Definition Covered (impacted : list string) (work : list replay.Step) (res : plan.Evidence)
    : bool :=
  let answered : gset string := list_to_set
    ((λ d, replay.Delta_Method d +:+ " " +:+ replay.Delta_Path d) <$> answered_deltas res) in
  existsb (λ st,
    bool_decide (replay.Step_Method st +:+ " " +:+ replay.Step_Path st ∈ answered) &&
    existsb (λ route, impact.RouteMatches route (replay.Step_Method st) (replay.Step_Path st))
      impacted) work.

Definition coverageBlockers (inp : Input) : list Blocker :=
  sortedBlockers (In_Impacted inp ≫= λ route,
    when (negb (Covered [route] (In_Workload inp) (In_Result inp)))
      (MkBlocker CodeRouteMissed route)).

Fixpoint coverageBasis_loop (inp : Input) (routes : list string) (basis : string) : string :=
  match routes with
  | [] => basis
  | route :: rest =>
      if negb (Covered [route] (In_Workload inp) (In_Result inp))
      then coverageBasis_loop inp rest basis
      else
        let mine := filter (λ a, impact.RA_Route a = route) (In_Attributions inp) in
        let observed := existsb (λ a, (impact.RA_Provenance a == ProvenanceTraceEntry) ||
                                      (impact.RA_Provenance a == ProvenanceCodeAttrs)) mine in
        let inferred := existsb (λ a,
          impact.RA_Provenance a == impact.ProvenanceTraceEntryCaller) mine in
        if inferred && negb observed then CoverageInferred
        else coverageBasis_loop inp rest (if observed then CoverageObserved else basis)
  end.

Definition coverageBasis (inp : Input) : string :=
  coverageBasis_loop inp (In_Impacted inp) "".

Definition unverified (r : gitrev.Revision) : bool :=
  (gitrev.Rev_Tree r == "") || (gitrev.Rev_Source r != gitrev.SourceBuilt).

Definition Decide `{GoNet} (inp : Input) : Decision :=
  let base := In_BaselineRev inp in
  let patch := In_PatchRev inp in
  let blockers :=
    when (gitrev.Rev_Dirty base) (MkBlocker CodeDirtyBaseline "") ++
    when (unverified base) (MkBlocker CodeUnverifiedRevision "baseline") ++
    when (unverified patch) (MkBlocker CodeUnverifiedRevision "patch") ++
    when ((gitrev.Rev_Tree base != "") && (gitrev.Rev_Tree base == gitrev.Rev_Tree patch))
      (MkBlocker CodeSameTarget (gitrev.Rev_Tree base)) ++
    targetBlockers inp ++
    when (ToLower (TrimSpace (plan.Ev_Overall (In_Result inp))) != replay.VerdictMatch)
      (MkBlocker CodeNotMatch (plan.Ev_Overall (In_Result inp))) ++
    duplicateBlockers inp ++
    stepBlockers coreKinds (plan.Ev_Steps (In_Result inp)) ++
    requiredStepBlockers inp ++
    changeBlockers inp ++
    coverageBlockers inp in
  MkDecision (coverageBasis inp) (bool_decide (blockers = [])) blockers.

Definition CoverageNote (d : Decision) : string :=
  if D_CoverageBasis d == CoverageInferred then " (coverage inferred via caller)"
  else if D_CoverageBasis d == CoverageObserved then " (coverage observed)"
  else "".

(** ** What each blocker means

    The declarative policy: which blocker an input has, one rule per code. *)

Definition steps_of (inp : Input) (kind : string) : list plan.StepResult :=
  filter (λ s, plan.SR_Kind s = kind) (plan.Ev_Steps (In_Result inp)).

(** The kinds whose steps must have succeeded. *)
Definition must_run (inp : Input) (kind : string) : Prop :=
  kind ∈ coreKinds ∨
  ∃ s, s ∈ plan.DAG_Steps (In_Plan inp) ∧ plan.Step_Kind s = kind ∧
       plan.Step_Required s = true ∧ plan.Step_Operator s = false.

Definition count_plan (inp : Input) (kind : string) : Z :=
  count (λ s, plan.Step_Kind s == kind) (plan.DAG_Steps (In_Plan inp)).
Definition count_result (inp : Input) (kind : string) : Z :=
  count (λ s, plan.SR_Kind s == kind) (plan.Ev_Steps (In_Result inp)).

(** A route is exercised when a workload step matches it and both revisions
    answered that step from a handler. *)
Definition exercised (inp : Input) (route : string) : Prop :=
  ∃ st d,
    st ∈ In_Workload inp ∧ d ∈ answered_deltas (In_Result inp) ∧
    replay.Step_Method st +:+ " " +:+ replay.Step_Path st =
      replay.Delta_Method d +:+ " " +:+ replay.Delta_Path d ∧
    impact.RouteMatches route (replay.Step_Method st) (replay.Step_Path st) = true.

Section policy.
  Context `{GoNet}.

Inductive blocks (inp : Input) : Blocker → Prop :=
| blocks_dirty :
    gitrev.Rev_Dirty (In_BaselineRev inp) = true → blocks inp (MkBlocker CodeDirtyBaseline "")
| blocks_base_rev :
    unverified (In_BaselineRev inp) = true →
    blocks inp (MkBlocker CodeUnverifiedRevision "baseline")
| blocks_patch_rev :
    unverified (In_PatchRev inp) = true →
    blocks inp (MkBlocker CodeUnverifiedRevision "patch")
| blocks_same_tree :
    gitrev.Rev_Tree (In_BaselineRev inp) ≠ "" →
    gitrev.Rev_Tree (In_BaselineRev inp) = gitrev.Rev_Tree (In_PatchRev inp) →
    blocks inp (MkBlocker CodeSameTarget (gitrev.Rev_Tree (In_BaselineRev inp)))
| blocks_no_baseline :
    TrimSpace (In_Baseline inp) = "" → blocks inp (MkBlocker CodeMissingTarget "baseline")
| blocks_no_patch :
    TrimSpace (In_Patch inp) = "" → blocks inp (MkBlocker CodeMissingTarget "patch")
| blocks_same_url :
    In_Baseline inp ≠ "" → In_Patch inp ≠ "" →
    normURL (In_Baseline inp) = normURL (In_Patch inp) →
    blocks inp (MkBlocker CodeSameTarget (normURL (In_Baseline inp)))
| blocks_not_match :
    ToLower (TrimSpace (plan.Ev_Overall (In_Result inp))) ≠ replay.VerdictMatch →
    blocks inp (MkBlocker CodeNotMatch (plan.Ev_Overall (In_Result inp)))
| blocks_duplicate kind :
    (1 < count_plan inp kind ∨ 1 < count_result inp kind)%Z →
    blocks inp (MkBlocker CodeDuplicateStep kind)
| blocks_missing kind :
    must_run inp kind → steps_of inp kind = [] → blocks inp (MkBlocker CodeStepMissing kind)
| blocks_failed kind s :
    must_run inp kind → s ∈ steps_of inp kind → stepOK kind s = false →
    blocks inp (MkBlocker CodeStepFailed kind)
| blocks_latency_n s :
    s ∈ steps_of inp plan.KindLatency → (latencyN s < minLatencyN)%Z →
    blocks inp (MkBlocker CodeLatencyN (Itoa (latencyN s)))
| blocks_latency_shift s row :
    s ∈ steps_of inp plan.KindLatency → row ∈ plan.SR_Latency s → replay.Shifted row = true →
    blocks inp (MkBlocker CodeLatencyShift (replay.Lat_Method row +:+ " " +:+ replay.Lat_Path row))
| blocks_unanalyzed path :
    path ∈ impact.Ch_Unanalyzed (In_Changes inp) →
    blocks inp (MkBlocker CodeUnanalyzedChange path)
| blocks_no_binding :
    impact.Ch_Bound (In_Changes inp) = [] → blocks inp (MkBlocker CodeNoFunctionBinding "")
| blocks_no_route :
    impact.Ch_Bound (In_Changes inp) ≠ [] → In_Impacted inp = [] →
    blocks inp (MkBlocker CodeNoRuntimeRoute "")
| blocks_missed route :
    route ∈ In_Impacted inp → ¬ exercised inp route →
    blocks inp (MkBlocker CodeRouteMissed route).

End policy.

(** ** The groups of blockers *)

Lemma elem_of_when (c : bool) b x : x ∈ when c b ↔ c = true ∧ x = b.
Proof. unfold when. destruct c; set_solver. Qed.

Lemma elem_of_sortedBlockers b l : b ∈ sortedBlockers l ↔ b ∈ l.
Proof. apply elem_of_sort_cmp. Qed.

Lemma step_counts_lookup inp kind :
  default (0, 0)%Z (step_counts inp !! kind) = (count_plan inp kind, count_result inp kind).
Proof.
  unfold step_counts, count_plan, count_result.
  set (f := λ (m : gmap string (Z * Z)) s,
      <[plan.Step_Kind s := ((default (0, 0)%Z (m !! plan.Step_Kind s)).1 + 1,
         (default (0, 0)%Z (m !! plan.Step_Kind s)).2)%Z]> m).
  set (g := λ (m : gmap string (Z * Z)) s,
      <[plan.SR_Kind s := ((default (0, 0)%Z (m !! plan.SR_Kind s)).1,
         (default (0, 0)%Z (m !! plan.SR_Kind s)).2 + 1)%Z]> m).
  assert (∀ l m, default (0, 0)%Z (foldl f m l !! kind) =
    ((default (0, 0)%Z (m !! kind)).1 + count (λ s, plan.Step_Kind s == kind) l,
     (default (0, 0)%Z (m !! kind)).2)%Z) as Hf.
  { induction l as [|s l IH]; intros m; cbn [foldl];
      [by rewrite count_nil, Z.add_0_r, <- surjective_pairing|].
    rewrite IH, count_cons. unfold f. case_bool_decide as Hk.
    - rewrite Hk, lookup_insert_eq. simpl. f_equal. lia.
    - by rewrite lookup_insert_ne. }
  assert (∀ l m, default (0, 0)%Z (foldl g m l !! kind) =
    ((default (0, 0)%Z (m !! kind)).1,
     (default (0, 0)%Z (m !! kind)).2 + count (λ s, plan.SR_Kind s == kind) l)%Z) as Hg.
  { induction l as [|s l IH]; intros m; cbn [foldl];
      [by rewrite count_nil, Z.add_0_r, <- surjective_pairing|].
    rewrite IH, count_cons. unfold g. case_bool_decide as Hk.
    - rewrite Hk, lookup_insert_eq. simpl. f_equal. lia.
    - by rewrite lookup_insert_ne. }
  etrans; [apply Hg|]. rewrite Hf, lookup_empty. simpl. done.
Qed.

Lemma elem_of_duplicateBlockers inp b :
  b ∈ duplicateBlockers inp ↔
    ∃ kind, b = MkBlocker CodeDuplicateStep kind ∧
      (1 < count_plan inp kind ∨ 1 < count_result inp kind)%Z.
Proof.
  unfold duplicateBlockers, duplicates_of. rewrite elem_of_sortedBlockers, list_elem_of_bind.
  split.
  - intros ([kind n] & Hb & Hn). apply elem_of_when in Hb as [Hc ->].
    apply elem_of_map_to_list in Hn. pose proof (step_counts_lookup inp kind) as Hl.
    rewrite Hn in Hl. simpl in Hl. subst n. exists kind. split; [done|].
    apply orb_true_iff in Hc. by rewrite !Z.ltb_lt in Hc.
  - intros (kind & -> & Hk). pose proof (step_counts_lookup inp kind) as Hl.
    destruct (step_counts inp !! kind) as [n|] eqn:E; simpl in Hl; [|simplify_eq; lia].
    subst n. eexists (kind, _). split; [|by apply elem_of_map_to_list].
    apply elem_of_when. split; [|done]. simpl. rewrite orb_true_iff, !Z.ltb_lt. done.
Qed.

(** Go ranges over the map of step counts in an arbitrary order; every order
    gives the same duplicate blockers. *)
Theorem duplicateBlockers_order inp entries :
  entries ≡ₚ map_to_list (step_counts inp) → duplicates_of entries = duplicateBlockers inp.
Proof.
  intros Hp. unfold duplicateBlockers, duplicates_of, sortedBlockers.
  apply sort_cmp_perm_eq; [apply _|..].
  - intros [c1 s1] [c2 s2] _ _. unfold cmp_blocker, cmp_then, cmp_on. simpl.
    destruct (String.compare s1 s2) eqn:E1; try done. intros E2.
    by apply String.compare_eq_iff in E1 as ->; apply String.compare_eq_iff in E2 as ->.
  - by rewrite Hp.
Qed.

Lemma elem_of_kindBlockers results kind b :
  let steps := filter (λ s, plan.SR_Kind s = kind) results in
  b ∈ kindBlockers results kind ↔
    (b = MkBlocker CodeStepMissing kind ∧ steps = []) ∨
    (b = MkBlocker CodeStepFailed kind ∧ ∃ s, s ∈ steps ∧ stepOK kind s = false) ∨
    (kind = plan.KindLatency ∧ ∃ s, s ∈ steps ∧ b ∈ latencyBlockers s).
Proof.
  intros steps. unfold kindBlockers. fold steps. rewrite elem_of_app.
  assert (b ∈ (if kind == plan.KindLatency then steps ≫= latencyBlockers else []) ↔
    kind = plan.KindLatency ∧ ∃ s, s ∈ steps ∧ b ∈ latencyBlockers s) as ->.
  { case_bool_decide; [rewrite list_elem_of_bind; naive_solver|].
    rewrite elem_of_nil. naive_solver. }
  case_bool_decide as Hs.
  - rewrite list_elem_of_singleton, Hs. set_solver.
  - destruct (existsb _ steps) eqn:E.
    + apply existsb_True in E as (s & Hin & Hok). apply negb_true_iff in Hok.
      rewrite list_elem_of_singleton. naive_solver.
    + rewrite existsb_False in E. rewrite elem_of_nil. split; [naive_solver|].
      intros [[_ ?]|[(_ & s & Hin & Hok)|?]]; [done| |by left].
      specialize (E s Hin). simpl in E. by rewrite Hok in E.
Qed.

Lemma elem_of_stepBlockers kinds results b :
  b ∈ stepBlockers kinds results ↔ ∃ kind, kind ∈ kinds ∧ b ∈ kindBlockers results kind.
Proof.
  unfold stepBlockers. rewrite elem_of_sortedBlockers, list_elem_of_bind. naive_solver.
Qed.

Lemma elem_of_requiredKinds inp kind :
  kind ∈ requiredKinds inp ↔
    ∃ s, s ∈ plan.DAG_Steps (In_Plan inp) ∧ required_step s = true ∧ plan.Step_Kind s = kind.
Proof.
  unfold requiredKinds.
  assert (∀ l acc, kind ∈ foldl (λ kinds s,
      if required_step s && negb (bool_decide (plan.Step_Kind s ∈ kinds))
      then kinds ++ [plan.Step_Kind s] else kinds) acc l ↔
    kind ∈ acc ∨ ∃ s, s ∈ l ∧ required_step s = true ∧ plan.Step_Kind s = kind) as Hl.
  { induction l as [|s l IH]; intros acc; cbn [foldl]; [set_solver|].
    rewrite IH. destruct (required_step s) eqn:Er; cbn [andb].
    - case_bool_decide as Hin; cbn [negb]; rewrite ?elem_of_app, ?list_elem_of_singleton;
        setoid_rewrite elem_of_cons; naive_solver.
    - setoid_rewrite elem_of_cons. naive_solver congruence. }
  rewrite Hl. set_solver.
Qed.

Lemma must_run_iff inp kind : must_run inp kind ↔ kind ∈ coreKinds ∨ kind ∈ requiredKinds inp.
Proof.
  rewrite elem_of_requiredKinds. unfold must_run, required_step. split.
  - intros [?|(s & Hs & Hk & Hr & Ho)]; [by left|].
    destruct (decide (kind ∈ coreKinds)); [by left|right]. exists s.
    rewrite Hr, Ho, Hk, bool_decide_eq_false_2 by done. done.
  - intros [?|(s & Hs & Hr & Hk)]; [by left|right]. go_inv. eauto.
Qed.

Lemma latency_not_required inp : plan.KindLatency ∉ requiredKinds inp.
Proof.
  rewrite elem_of_requiredKinds. intros (s & _ & Hr & Hk). unfold required_step in Hr.
  rewrite Hk, bool_decide_eq_true_2, andb_false_r in Hr; [done|]. compute_done.
Qed.

Lemma Covered_iff inp route :
  Covered [route] (In_Workload inp) (In_Result inp) = true ↔ exercised inp route.
Proof.
  unfold Covered, exercised. rewrite existsb_True. split.
  - intros (st & Hst & Hc). apply andb_true_iff in Hc as [Ha Hr]. cbn [existsb] in Hr.
    rewrite orb_false_r in Hr. apply bool_decide_eq_true in Ha.
    apply elem_of_list_to_set, list_elem_of_fmap in Ha as (d & Hd & Hin). eauto 10.
  - intros (st & d & Hst & Hd & Heq & Hr). exists st. split; [done|].
    cbn [existsb]. rewrite Hr, orb_true_l, andb_true_r. apply bool_decide_eq_true.
    apply elem_of_list_to_set, list_elem_of_fmap. eauto.
Qed.

Lemma elem_of_latencyBlockers s b :
  b ∈ latencyBlockers s ↔
    ((latencyN s < minLatencyN)%Z ∧ b = MkBlocker CodeLatencyN (Itoa (latencyN s))) ∨
    ∃ row, row ∈ plan.SR_Latency s ∧ replay.Shifted row = true ∧
      b = MkBlocker CodeLatencyShift (replay.Lat_Method row +:+ " " +:+ replay.Lat_Path row).
Proof.
  unfold latencyBlockers. rewrite elem_of_app, elem_of_when, list_elem_of_bind, Z.ltb_lt.
  setoid_rewrite elem_of_when. naive_solver.
Qed.

(** The step blockers of the core kinds and of the required kinds together. *)
Lemma elem_of_runBlockers inp b :
  b ∈ stepBlockers coreKinds (plan.Ev_Steps (In_Result inp)) ∨ b ∈ requiredStepBlockers inp ↔
    (∃ kind, must_run inp kind ∧
       (b = MkBlocker CodeStepMissing kind ∧ steps_of inp kind = [] ∨
        b = MkBlocker CodeStepFailed kind ∧
          ∃ s, s ∈ steps_of inp kind ∧ stepOK kind s = false)) ∨
    (∃ s, s ∈ steps_of inp plan.KindLatency ∧ b ∈ latencyBlockers s).
Proof.
  unfold requiredStepBlockers. rewrite !elem_of_stepBlockers.
  assert (plan.KindLatency ∈ coreKinds) as Hlat by compute_done.
  pose proof (latency_not_required inp) as Hnl.
  setoid_rewrite must_run_iff. setoid_rewrite elem_of_kindBlockers. split.
  - intros [(k & Hk & Hb)|(k & Hk & Hb)].
    + destruct Hb as [?|[?|(-> & ?)]]; eauto 10.
    + destruct Hb as [?|[?|(-> & ?)]]; [by eauto 10..|done].
  - intros [(k & [Hk|Hk] & [?|?])|?]; eauto 10.
Qed.

Section decide_props.
  Context `{GoNet}.

Lemma elem_of_targetBlockers inp b :
  b ∈ targetBlockers inp ↔
    (TrimSpace (In_Baseline inp) = "" ∧ b = MkBlocker CodeMissingTarget "baseline") ∨
    (TrimSpace (In_Patch inp) = "" ∧ b = MkBlocker CodeMissingTarget "patch") ∨
    (In_Baseline inp ≠ "" ∧ In_Patch inp ≠ "" ∧
       normURL (In_Baseline inp) = normURL (In_Patch inp) ∧
       b = MkBlocker CodeSameTarget (normURL (In_Baseline inp))).
Proof.
  unfold targetBlockers. rewrite elem_of_sortedBlockers, !elem_of_app, !elem_of_when.
  rewrite !andb_true_iff, !negb_true_iff, !bool_decide_eq_true, !bool_decide_eq_false.
  naive_solver.
Qed.

Lemma elem_of_changeBlockers inp b :
  b ∈ changeBlockers inp ↔
    (∃ path, path ∈ impact.Ch_Unanalyzed (In_Changes inp) ∧
       b = MkBlocker CodeUnanalyzedChange path) ∨
    (impact.Ch_Bound (In_Changes inp) = [] ∧ b = MkBlocker CodeNoFunctionBinding "") ∨
    (impact.Ch_Bound (In_Changes inp) ≠ [] ∧ In_Impacted inp = [] ∧
       b = MkBlocker CodeNoRuntimeRoute "").
Proof.
  unfold changeBlockers. rewrite elem_of_sortedBlockers, elem_of_app, list_elem_of_fmap.
  case_bool_decide as Hb; [rewrite list_elem_of_singleton; naive_solver|].
  rewrite elem_of_when, bool_decide_eq_true. naive_solver.
Qed.

Lemma elem_of_coverageBlockers inp b :
  b ∈ coverageBlockers inp ↔
    ∃ route, route ∈ In_Impacted inp ∧ ¬ exercised inp route ∧
      b = MkBlocker CodeRouteMissed route.
Proof.
  unfold coverageBlockers. rewrite elem_of_sortedBlockers, list_elem_of_bind.
  setoid_rewrite elem_of_when. setoid_rewrite negb_true_iff.
  setoid_rewrite <- not_true_iff_false. setoid_rewrite Covered_iff. naive_solver.
Qed.

Lemma Decide_blockers_app inp b :
  b ∈ D_Blockers (Decide inp) ↔
    (gitrev.Rev_Dirty (In_BaselineRev inp) = true ∧ b = MkBlocker CodeDirtyBaseline "") ∨
    (unverified (In_BaselineRev inp) = true ∧ b = MkBlocker CodeUnverifiedRevision "baseline") ∨
    (unverified (In_PatchRev inp) = true ∧ b = MkBlocker CodeUnverifiedRevision "patch") ∨
    (gitrev.Rev_Tree (In_BaselineRev inp) ≠ "" ∧
       gitrev.Rev_Tree (In_BaselineRev inp) = gitrev.Rev_Tree (In_PatchRev inp) ∧
       b = MkBlocker CodeSameTarget (gitrev.Rev_Tree (In_BaselineRev inp))) ∨
    b ∈ targetBlockers inp ∨
    (ToLower (TrimSpace (plan.Ev_Overall (In_Result inp))) ≠ replay.VerdictMatch ∧
       b = MkBlocker CodeNotMatch (plan.Ev_Overall (In_Result inp))) ∨
    b ∈ duplicateBlockers inp ∨
    (b ∈ stepBlockers coreKinds (plan.Ev_Steps (In_Result inp)) ∨ b ∈ requiredStepBlockers inp) ∨
    b ∈ changeBlockers inp ∨ b ∈ coverageBlockers inp.
Proof.
  unfold Decide. cbn [D_Blockers]. rewrite !elem_of_app, !elem_of_when.
  rewrite !andb_true_iff, !negb_true_iff, !bool_decide_eq_true, !bool_decide_eq_false.
  tauto.
Qed.

Lemma Decide_blockers inp b : b ∈ D_Blockers (Decide inp) ↔ blocks inp b.
Proof.
  rewrite Decide_blockers_app, elem_of_targetBlockers, elem_of_duplicateBlockers,
    elem_of_runBlockers, elem_of_changeBlockers, elem_of_coverageBlockers.
  setoid_rewrite elem_of_latencyBlockers. split.
  - intros Hb. repeat first [destruct Hb as [Hb|Hb] | destruct Hb as (? & Hb)];
      subst; econstructor; eauto.
  - destruct 1; pick_or.
Qed.

(** ** What a validated decision guarantees *)

Record policy_ok (inp : Input) : Prop := {
  po_clean : gitrev.Rev_Dirty (In_BaselineRev inp) = false;
  po_base_built : gitrev.Rev_Tree (In_BaselineRev inp) ≠ "" ∧
    gitrev.Rev_Source (In_BaselineRev inp) = gitrev.SourceBuilt;
  po_patch_built : gitrev.Rev_Tree (In_PatchRev inp) ≠ "" ∧
    gitrev.Rev_Source (In_PatchRev inp) = gitrev.SourceBuilt;
  po_trees : gitrev.Rev_Tree (In_BaselineRev inp) ≠ gitrev.Rev_Tree (In_PatchRev inp);
  po_targets : TrimSpace (In_Baseline inp) ≠ "" ∧ TrimSpace (In_Patch inp) ≠ "";
  po_distinct : normURL (In_Baseline inp) ≠ normURL (In_Patch inp);
  po_match : ToLower (TrimSpace (plan.Ev_Overall (In_Result inp))) = replay.VerdictMatch;
  po_once kind : (count_plan inp kind ≤ 1)%Z ∧ (count_result inp kind ≤ 1)%Z;
  po_steps kind : must_run inp kind → ∃ s, steps_of inp kind = [s] ∧ stepOK kind s = true;
  po_analyzed : impact.Ch_Unanalyzed (In_Changes inp) = [];
  po_bound : impact.Ch_Bound (In_Changes inp) ≠ [];
  po_impacted : In_Impacted inp ≠ [];
  po_exercised route : route ∈ In_Impacted inp → exercised inp route;
}.

Lemma Decide_validated_blockers inp :
  D_Validated (Decide inp) = true ↔ ∀ b, ¬ blocks inp b.
Proof.
  setoid_rewrite <- Decide_blockers. unfold Decide. cbn [D_Validated D_Blockers].
  rewrite bool_decide_eq_true. split.
  - intros ->. apply not_elem_of_nil.
  - intros Hb. destruct (_ ++ _) as [|b l]; [done|]. destruct (Hb b). left.
Qed.

Lemma count_result_steps inp kind :
  count_result inp kind = Z.of_nat (length (steps_of inp kind)).
Proof.
  unfold count_result, steps_of. induction (plan.Ev_Steps _) as [|s l IH]; [done|].
  rewrite count_cons, filter_cons. case_bool_decide; case_decide; try done;
    simpl length; lia.
Qed.

Lemma not_unverified r :
  unverified r = false ↔ gitrev.Rev_Tree r ≠ "" ∧ gitrev.Rev_Source r = gitrev.SourceBuilt.
Proof.
  unfold unverified. rewrite orb_false_iff, negb_false_iff, bool_decide_eq_true,
    bool_decide_eq_false. done.
Qed.

Lemma stepOK_latency s :
  stepOK plan.KindLatency s = true ↔
    ToLower (TrimSpace (plan.SR_Verdict s)) = plan.VerdictSamples ∧
    (minLatencyN ≤ latencyN s)%Z ∧
    ∀ row, row ∈ plan.SR_Latency s → replay.Shifted row = false.
Proof.
  change (stepOK plan.KindLatency s) with
    (if (ToLower (TrimSpace (plan.SR_Verdict s)) != plan.VerdictSamples) ||
        (latencyN s <? minLatencyN)%Z then false
     else negb (existsb replay.Shifted (plan.SR_Latency s))).
  case_bool_decide; cbn [negb orb]; [|naive_solver]. destruct (Z.ltb_spec (latencyN s) minLatencyN).
  - split; [done|]. intros (_ & ? & _). lia.
  - rewrite negb_true_iff, existsb_False. naive_solver.
Qed.

Lemma policy_no_blocker inp b : policy_ok inp → ¬ blocks inp b.
Proof.
  intros P Hb. destruct P as [Hd Hbb Hpb Ht Htg Hdi Hm Ho Hs Ha Hbo Hi He].
  rewrite <- not_unverified in Hbb, Hpb.
  destruct Hb as [| | | | | | | |k| k Hr|k s Hr Hin Hok|s Hin Hn|s row Hin Hrow Hsh|path Hp| | |r Hr];
    try congruence.
  - by destruct Htg.
  - by destruct Htg.
  - specialize (Ho k). lia.
  - destruct (Hs k Hr) as (s & Hs' & _). congruence.
  - destruct (Hs k Hr) as (s' & Hs' & Hok'). rewrite Hs', list_elem_of_singleton in Hin. congruence.
  - destruct (Hs plan.KindLatency) as (s' & Hs' & Hok'); [left; compute_done|].
    rewrite Hs', list_elem_of_singleton in Hin. subst. apply stepOK_latency in Hok'. lia.
  - destruct (Hs plan.KindLatency) as (s' & Hs' & Hok'); [left; compute_done|].
    rewrite Hs', list_elem_of_singleton in Hin. subst. apply stepOK_latency in Hok' as (_ & _ & Hno).
    by rewrite Hno in Hsh.
  - rewrite Ha in Hp. by apply not_elem_of_nil in Hp.
  - auto.
Qed.

Lemma no_blocker_policy inp : (∀ b, ¬ blocks inp b) → policy_ok inp.
Proof.
  intros Hb.
  assert (TrimSpace (In_Baseline inp) ≠ "") as Ht1
    by (intros ?; by eapply Hb, blocks_no_baseline).
  assert (TrimSpace (In_Patch inp) ≠ "") as Ht2
    by (intros ?; by eapply Hb, blocks_no_patch).
  assert (unverified (In_BaselineRev inp) = false) as Hu1
    by (apply not_true_is_false; intros ?; by eapply Hb, blocks_base_rev).
  assert (unverified (In_PatchRev inp) = false) as Hu2
    by (apply not_true_is_false; intros ?; by eapply Hb, blocks_patch_rev).
  assert (∀ kind, (count_plan inp kind ≤ 1)%Z ∧ (count_result inp kind ≤ 1)%Z) as Ho.
  { intros kind. split; apply Z.nlt_ge; intros ?; apply (Hb (MkBlocker CodeDuplicateStep kind));
      apply blocks_duplicate; auto. }
  rewrite not_unverified in Hu1, Hu2.
  split; try done.
  - apply not_true_is_false. intros ?. by eapply Hb, blocks_dirty.
  - intros He. destruct Hu1. apply (Hb (MkBlocker CodeSameTarget
      (gitrev.Rev_Tree (In_BaselineRev inp)))). by apply blocks_same_tree.
  - intros He. apply (Hb (MkBlocker CodeSameTarget (normURL (In_Baseline inp)))).
    apply blocks_same_url; [| |done]; intros E; [by rewrite E in Ht1|by rewrite E in Ht2].
  - apply dec_stable. intros ?. apply (Hb (MkBlocker CodeNotMatch
      (plan.Ev_Overall (In_Result inp)))). by apply blocks_not_match.
  - intros kind Hr. destruct (Ho kind) as [_ Hc]. rewrite count_result_steps in Hc.
    destruct (steps_of inp kind) as [|s [|s' l]] eqn:Es; simpl in Hc; [|exists s|lia].
    + exfalso. by apply (Hb (MkBlocker CodeStepMissing kind)), blocks_missing.
    + split; [done|]. apply not_false_is_true. intros Hok.
      assert (s ∈ steps_of inp kind) by (rewrite Es; left).
      by eapply (Hb (MkBlocker CodeStepFailed kind)), blocks_failed.
  - destruct (impact.Ch_Unanalyzed (In_Changes inp)) as [|path l] eqn:Eu; [done|].
    exfalso. assert (path ∈ impact.Ch_Unanalyzed (In_Changes inp)) by (rewrite Eu; left).
    by apply (Hb (MkBlocker CodeUnanalyzedChange path)), blocks_unanalyzed.
  - intros ?. by apply (Hb (MkBlocker CodeNoFunctionBinding "")), blocks_no_binding.
  - intros Hi. destruct (decide (impact.Ch_Bound (In_Changes inp) = [])).
    + by apply (Hb (MkBlocker CodeNoFunctionBinding "")), blocks_no_binding.
    + by apply (Hb (MkBlocker CodeNoRuntimeRoute "")), blocks_no_route.
  - intros route Hr. destruct (Covered [route] (In_Workload inp) (In_Result inp)) eqn:Hc.
    + by apply Covered_iff.
    + exfalso. apply (Hb (MkBlocker CodeRouteMissed route)). apply blocks_missed; [done|].
      intros He%Covered_iff. congruence.
Qed.

(** C1: the decision validates a change exactly when every requirement of the
    policy holds: a clean baseline, two distinct built revisions at two distinct
    targets, the verdict match, every core and every required step present once
    and successful, every change analyzed and bound, and every impacted route
    exercised by a request both sides answered. *)
Theorem Decide_validated_iff inp : D_Validated (Decide inp) = true ↔ policy_ok inp.
Proof.
  rewrite Decide_validated_blockers. split; [apply no_blocker_policy|].
  intros ? b. by apply policy_no_blocker.
Qed.

(** ** Validated executions *)

Lemma stepOK_not_skipped kind s :
  kind ∈ coreKinds → stepOK kind s = true → plan.SR_Verdict s ≠ plan.VerdictSkipped.
Proof.
  intros Hk Hok Hv. revert Hok. unfold stepOK. rewrite Hv.
  repeat (apply elem_of_cons in Hk as [->|Hk]; [by vm_compute|]). by apply not_elem_of_nil in Hk.
Qed.

Lemma operator_skipped `{GoJSON} s data :
  plan.Step_Operator s = true → plan.SR_Verdict (plan.evalStep s data) = plan.VerdictSkipped.
Proof. intros Ho. unfold plan.evalStep. by rewrite Ho, andb_false_r. Qed.

(** A core step of a validated execution was executed, not left to the
    operator. *)
Lemma validated_runs `{GoJSON} wd inp base patch w kind :
  plan.Execute wd (In_Plan inp) base patch w = Ok (In_Result inp) →
  policy_ok inp → kind ∈ coreKinds → plan.runs_step (In_Plan inp) kind.
Proof.
  intros Hex P Hk. destruct (po_steps inp P kind) as (r & Hr & Hok); [by left|].
  assert (r ∈ steps_of inp kind) as Hin by (rewrite Hr; left).
  apply list_elem_of_filter in Hin as [Hkind Hin].
  destruct (plan.Execute_inv _ _ _ _ _ _ Hex) as (data & Hev & Hf & _).
  rewrite Hev in Hin. simpl in Hin. apply list_elem_of_fmap in Hin as (s & -> & Hs).
  destruct (plan.evalStep_id s data Hf) as [_ Hks]. exists s. split; [done|].
  split; [congruence|]. apply not_true_is_false. intros Ho.
  by eapply (stepOK_not_skipped kind), operator_skipped.
Qed.

Lemma validated_execution `{GoJSON} wd inp base patch w :
  plan.Execute wd (In_Plan inp) base patch w = Ok (In_Result inp) →
  D_Validated (Decide inp) = true →
  (gitrev.Rev_Tree (In_BaselineRev inp) ≠ gitrev.Rev_Tree (In_PatchRev inp)) ∧
  replay.HealthzPath (plan.W_probe wd) base patch (plan.DAG_HealthPath (In_Plan inp)) = Ok tt ∧
  (∃ b bs p ps,
     replay.Repeat (plan.Ph_ctx (plan.W_base wd)) (plan.Ph_exchange (plan.W_base wd)) base w
       (plan.replayRepeats (In_Plan inp)).1 = Ok (b :: bs) ∧
     replay.Repeat (plan.Ph_ctx (plan.W_patch wd)) (plan.Ph_exchange (plan.W_patch wd)) patch w
       (plan.replayRepeats (In_Plan inp)).1 = Ok (p :: ps) ∧
     Forall2 replay.obs_match (replay.Result_Steps b) (replay.Result_Steps p)) ∧
  (∀ route, route ∈ In_Impacted inp → exercised inp route).
Proof.
  intros Hex Hv. pose proof (no_blocker_policy _ (proj1 (Decide_validated_blockers _) Hv)) as P.
  assert (plan.Ev_Overall (In_Result inp) = replay.VerdictMatch) as Hm.
  { pose proof (po_match inp P) as Hm. destruct (plan.Execute_shape _ _ _ _ _ _ Hex) as [_ Ho].
    rewrite Ho in *. pose proof (plan.overall_range (plan.Ev_Steps (In_Result inp))) as Hin.
    revert Hm. repeat (apply elem_of_cons in Hin as [->|Hin]; [by vm_compute|]).
    by apply not_elem_of_nil in Hin. }
  pose proof (plan.Execute_match _ _ _ _ _ _ Hex Hm) as [Henv Hbeh _ _].
  split; [apply (po_trees inp P)|]. split; [|split; [|apply (po_exercised inp P)]].
  - apply Henv. eapply validated_runs; [done..|compute_done].
  - apply Hbeh. eapply validated_runs; [done..|compute_done].
Qed.

(** C4: when the evidence came from [Execute] and the decision validates it,
    both gateways were up, their first replays agree observation by observation,
    the revisions are distinct trees, and every impacted route was exercised. *)
Theorem Decide_Execute_validated `{GoJSON} wd inp base patch w :
  plan.Execute wd (In_Plan inp) base patch w = Ok (In_Result inp) →
  D_Validated (Decide inp) = true →
  (gitrev.Rev_Tree (In_BaselineRev inp) ≠ gitrev.Rev_Tree (In_PatchRev inp)) ∧
  replay.HealthzPath (plan.W_probe wd) base patch (plan.DAG_HealthPath (In_Plan inp)) = Ok tt ∧
  (∃ b bs p ps,
     replay.Repeat (plan.Ph_ctx (plan.W_base wd)) (plan.Ph_exchange (plan.W_base wd)) base w
       (plan.replayRepeats (In_Plan inp)).1 = Ok (b :: bs) ∧
     replay.Repeat (plan.Ph_ctx (plan.W_patch wd)) (plan.Ph_exchange (plan.W_patch wd)) patch w
       (plan.replayRepeats (In_Plan inp)).1 = Ok (p :: ps) ∧
     Forall2 replay.obs_match (replay.Result_Steps b) (replay.Result_Steps p)) ∧
  (∀ route, route ∈ In_Impacted inp → exercised inp route).
Proof. apply validated_execution. Qed.

(** C10: [Decide] reports exactly the blockers of the declarative policy, each
    rule of which names its code and its subject, and validates exactly when it
    reports none. *)
Theorem Decide_reports inp :
  (∀ b, b ∈ D_Blockers (Decide inp) ↔ blocks inp b) ∧
  (D_Validated (Decide inp) = true ↔ D_Blockers (Decide inp) = []).
Proof.
  split; [apply Decide_blockers|]. unfold Decide. cbn [D_Validated D_Blockers].
  apply bool_decide_eq_true.
Qed.

End decide_props.

End validate.
