(* ===== verification/Jobs.v ===== *)
(** * Experiment jobs: [internal/jobs]

    [Module jobs] models the data of [store.go], and [enqueue.go], [earned.go],
    [quota.go] and [occupancy.go]: building a job from a plan, the task state
    machine, the status and the decision of a job, and the scheduling choices.
    A [time.Time] is the number of nanoseconds since Go's zero time, so that
    [IsZero] is [= 0]. The clock and the random source are arguments. *)

From S2P Require Import Prelude GoStrings Net Ingest Replay Impact Plan Validate.

Module jobs.

Definition maxChanges : nat := 500.
Definition maxChangeBytes : Z := 512.

Definition StatusPending : string := "pending".
Definition StatusRunning : string := "running".
Definition StatusComplete : string := "complete".
Definition StatusFailed : string := "failed".
Definition StatusCanceled : string := "canceled".

Definition StatePending : string := "pending".
Definition StateReady : string := "ready".
Definition StateLeased : string := "leased".
Definition StateSucceeded : string := "succeeded".
Definition StateFailed : string := "failed".
Definition StateSkipped : string := "skipped".

Definition second : Z := 1000000000.
Definition idLen : nat := 16.
Definition leaseTTL : Z := 15 * second.
Definition DefaultSlots : Z := 1.
Definition MaxSlots : Z := 8.
Definition maxSteps : nat := 20.
Definition maxBody : Z := 8192.
Definition DefaultList : Z := 20.
Definition MaxList : Z := 50.
Definition maxServiceName : nat := 128.
Definition DefaultDeadline : Z := 600 * second.

Inductive JobErr :=
| ErrNotFound
| ErrStaleAttempt
| ErrNotLeased
| ErrNoReady
| ErrCapacity
| ErrInvalidID
| ErrBusy
| ErrQuota
| Errorf (msg : string)
| CtxErr (msg : string).

Record Step := MkStep {
  Step_Method : string;
  Step_Path : string;
  Step_Provenance : string;
  Step_Body : string;
}.

Record Task := MkTask {
  T_ID : string;
  T_JobID : string;
  T_PlanID : string;
  T_Kind : string;
  T_Operator : bool;
  T_Required : bool;
  T_DependsOn : list string;
  T_N : Z;
  T_State : string;
  T_AttemptID : string;
  T_Fence : Z;
  T_LeaseUntil : Z;
  T_WorkerID : string;
  T_Result : plan.StepResult;
  T_Err : string;
}.

Record Job := MkJob {
  J_BaselineRev : gitrev.Revision;
  J_PatchRev : gitrev.Revision;
  J_ImpactSource : string;
  J_ID : string;
  J_Created : Z;
  J_Status : string;
  J_Service : string;
  J_Baseline : string;
  J_Patch : string;
  J_BaselineSHA : string;
  J_Dirty : bool;
  J_Deadline : Z;
  J_Canceled : bool;
  J_Impacted : list string;
  J_Changes : impact.Changes;
  J_Workload : list Step;
  J_Plan : plan.DAG;
  J_Tasks : list Task;
  J_Blockers : list validate.Blocker;
  J_Validated : bool;
}.

Record CreateOpts := MkCreateOpts {
  Co_BaselineRev : gitrev.Revision;
  Co_PatchRev : gitrev.Revision;
  Co_Baseline : string;
  Co_Patch : string;
  Co_Service : string;
  Co_Deadline : Z;
  Co_Workload : replay.Workload;
  Co_Plan : plan.DAG;
  Co_Impacted : list string;
  Co_Changes : impact.Changes;
}.

Record Worker := MkWorker {
  W_ID : string;
  W_Slots : Z;
  W_JobID : string;
}.

Record Lease := MkLease {
  L_Job : Job;
  L_Task : Task;
  L_N : Z;
  L_Fence : Z;
  L_Attempt : string;
}.

Record Quota := MkQuota {
  Q_ActiveJobs : Z;
  Q_LeasedTasks : Z;
}.

(** The fields of a task and of a job that change after they are built. *)
Definition task_upd (t : Task) (state attempt : string) (fence until : Z)
    (worker : string) (res : plan.StepResult) (err : string) : Task :=
  MkTask (T_ID t) (T_JobID t) (T_PlanID t) (T_Kind t) (T_Operator t) (T_Required t)
    (T_DependsOn t) (T_N t) state attempt fence until worker res err.

Definition job_upd (j : Job) (status : string) (canceled : bool) (tasks : list Task)
    (d : validate.Decision) : Job :=
  MkJob (J_BaselineRev j) (J_PatchRev j) (J_ImpactSource j) (J_ID j) (J_Created j) status
    (J_Service j) (J_Baseline j) (J_Patch j) (J_BaselineSHA j) (J_Dirty j) (J_Deadline j)
    canceled (J_Impacted j) (J_Changes j) (J_Workload j) (J_Plan j) tasks
    (validate.D_Blockers d) (validate.D_Validated d).

Definition set_state (t : Task) (state : string) : Task :=
  task_upd t state (T_AttemptID t) (T_Fence t) (T_LeaseUntil t) (T_WorkerID t) (T_Result t) (T_Err t).

Definition set_tasks (j : Job) (status : string) (tasks : list Task) : Job :=
  MkJob (J_BaselineRev j) (J_PatchRev j) (J_ImpactSource j) (J_ID j) (J_Created j) status
    (J_Service j) (J_Baseline j) (J_Patch j) (J_BaselineSHA j) (J_Dirty j) (J_Deadline j)
    (J_Canceled j) (J_Impacted j) (J_Changes j) (J_Workload j) (J_Plan j) tasks
    (J_Blockers j) (J_Validated j).

(** ** store.go *)

(** [Worker.id] and [Worker.slots] *)
Definition worker_id (w : Worker) : result JobErr string :=
  check? guard_err (TrimSpace (W_ID w) == "") (Errorf "jobs: worker id required") in
  Ok (W_ID w).

Definition worker_slots (w : Worker) : Z :=
  if (W_Slots w <? 1)%Z then DefaultSlots
  else if (MaxSlots <? W_Slots w)%Z then MaxSlots else W_Slots w.

Definition clipLimit (n : Z) : Z :=
  if (n <=? 0)%Z then DefaultList else if (MaxList <? n)%Z then MaxList else n.

Definition clipService (s : string) : string := str_take maxServiceName (TrimSpace s).

Definition normalizeID (raw : string) : option string :=
  let s := ToLower (TrimSpace raw) in
  if (len s <? 8)%Z || (64 <? len s)%Z then None
  else if negb (all_hex s) then None
  else Some (str_take idLen s).

Definition ParseID (raw : string) : result JobErr string :=
  match normalizeID raw with
  | None => Err ErrInvalidID
  | Some id => Ok id
  end.

Definition controls : string := String (byte 13) (String (byte 10) (String (byte 0) "")).

Fixpoint validateEntries (name : string) (i : nat) (entries : list string) : result JobErr () :=
  match entries with
  | [] => Ok tt
  | v :: rest =>
      let at_ := "jobs: changes." +:+ name +:+ "[" +:+ Itoa (Z.of_nat i) +:+ "]" in
      check? guard_err (maxChangeBytes <? len v)%Z
               (Errorf (at_ +:+ " exceeds " +:+ Itoa maxChangeBytes +:+ " bytes")) in
      check? guard_err (ContainsAny v controls)
               (Errorf (at_ +:+ " contains a forbidden control character")) in
      validateEntries name (S i) rest
  end.

Definition validateChanges (name : string) (entries : list string) : result JobErr () :=
  check? guard_err (maxChanges <? length entries)%nat
           (Errorf ("jobs: changes." +:+ name +:+ " exceeds " +:+
                    Itoa (Z.of_nat maxChanges) +:+ " entries")) in
  validateEntries name 0 entries.

Definition http_url (s : string) : bool := HasPrefix s "http://" || HasPrefix s "https://".

Definition check_target `{GoNet} (name url : string) : result JobErr () :=
  match CheckURL url with
  | Ok _ => Ok tt
  | Err e => Err (Errorf ("jobs: " +:+ name +:+ ": " +:+ net_err_text e))
  end.

(** [now] is the clock when the deadline is checked. *)
Definition validateCreate `{GoNet} (now : Z) (opts : CreateOpts) : result JobErr () :=
  check? validateChanges "bound" (impact.Ch_Bound (Co_Changes opts)) in
  check? validateChanges "unanalyzed" (impact.Ch_Unanalyzed (Co_Changes opts)) in
  check? guard_err ((TrimSpace (Co_Baseline opts) == "") || (TrimSpace (Co_Patch opts) == ""))
           (Errorf "jobs: baseline and patch are required") in
  check? guard_err (negb (http_url (Co_Baseline opts)))
           (Errorf "jobs: baseline must be http or https") in
  check? guard_err (negb (http_url (Co_Patch opts)))
           (Errorf "jobs: patch must be http or https") in
  check? check_target "baseline" (Co_Baseline opts) in
  check? check_target "patch" (Co_Patch opts) in
  check? guard_err (bool_decide (plan.DAG_Steps (Co_Plan opts) = []))
           (Errorf "jobs: empty plan") in
  check? guard_err (bool_decide (replay.Workload_Steps (Co_Workload opts) = []))
           (Errorf "jobs: empty workload") in
  check? guard_err (negb (Co_Deadline opts =? 0)%Z && (Co_Deadline opts <=? now - second)%Z)
           (Errorf "jobs: deadline has passed") in
  check? guard_err (maxSteps <? length (replay.Workload_Steps (Co_Workload opts)))%nat
           (Errorf "jobs: too many workload steps") in
  check? guard_err (maxSteps <? length (Co_Impacted opts))%nat
           (Errorf "jobs: too many impacted routes") in
  check? guard_err (existsb (λ r, (512 <? len r)%Z || ContainsAny r controls) (Co_Impacted opts))
           (Errorf "jobs: invalid impacted route") in
  guard_err (existsb (λ s, (maxBody <? len (replay.Step_Body s))%Z)
               (replay.Workload_Steps (Co_Workload opts)))
    (Errorf "jobs: body too large").

Definition workloadOf (w : replay.Workload) : list Step :=
  (λ s, MkStep (replay.Step_Method s) (replay.Step_Path s) (replay.Step_Provenance s)
          (replay.Step_Body s)) <$> replay.Workload_Steps w.

Definition replayWorkload (steps : list Step) : replay.Workload :=
  replay.MkWorkload
    ((λ s, replay.MkStep (Step_Method s) (Step_Path s) (Step_Body s) []
             (Step_Provenance s) "") <$> steps).

Definition Workload (j : Job) : replay.Workload := replayWorkload (J_Workload j).

(** [MarshalJSON] sends the workload as steps with bodies; [UnmarshalJSON] reads
    it back. The JSON encoding itself is not modelled: a [createWire] is the
    value encoded. *)
Record createWire := MkCreateWire {
  Cw_BaselineRev : gitrev.Revision;
  Cw_PatchRev : gitrev.Revision;
  Cw_Baseline : string;
  Cw_Patch : string;
  Cw_Service : string;
  Cw_Deadline : Z;
  Cw_Workload : list Step;
  Cw_Plan : plan.DAG;
  Cw_Impacted : list string;
  Cw_Changes : impact.Changes;
}.

Definition MarshalJSON (o : CreateOpts) : createWire :=
  MkCreateWire (Co_BaselineRev o) (Co_PatchRev o) (Co_Baseline o) (Co_Patch o) (Co_Service o)
    (Co_Deadline o) (workloadOf (Co_Workload o)) (Co_Plan o) (Co_Impacted o) (Co_Changes o).

Definition UnmarshalJSON (w : createWire) : CreateOpts :=
  MkCreateOpts (Cw_BaselineRev w) (Cw_PatchRev w) (Cw_Baseline w) (Cw_Patch w) (Cw_Service w)
    (Cw_Deadline w) (replayWorkload (Cw_Workload w)) (Cw_Plan w) (Cw_Impacted w) (Cw_Changes w).

(** ** enqueue.go *)

(** Eight random bytes, or the clock's nanoseconds, as a 64-bit number printed
    with sixteen hexadecimal digits. *)
Definition newID (v : N) : string := hex_pad 16 v.

Definition taskID (jobID : string) (i : nat) : string :=
  let jobID := if (len jobID <? 12)%Z then jobID +:+ "000000000000" else jobID in
  str_take 12 jobID +:+ hex_pad 4 (N.of_nat i).

Definition stateByPlan (tasks : list Task) : gmap string string :=
  foldl (λ m t, <[T_PlanID t := T_State t]> m) ∅ tasks.

Definition depsOK (t : Task) (by_plan : gmap string string) : bool :=
  forallb (λ d, let st := default "" (by_plan !! d) in
                (st == StateSucceeded) || (st == StateSkipped)) (T_DependsOn t).

Definition settle_task (by_plan : gmap string string) (t : Task) : Task :=
  if T_Operator t && (T_State t == StatePending) then set_state t StateSkipped
  else if (T_State t == StatePending) && depsOK t by_plan then set_state t StateReady
  else t.

(** One pass over the tasks: the map of states is read once, before the pass. *)
Definition settle_pass (tasks : list Task) : list Task :=
  settle_task (stateByPlan tasks) <$> tasks.

Fixpoint settle_loop (passes : nat) (tasks : list Task) : list Task :=
  match passes with
  | O => tasks
  | S n =>
      let tasks' := settle_pass tasks in
      if bool_decide (T_State <$> tasks' = T_State <$> tasks) then tasks'
      else settle_loop n tasks'
  end.

Definition settle (tasks : list Task) : list Task := settle_loop (length tasks) tasks.

Definition has_state (tasks : list Task) (state : string) : bool :=
  existsb (λ t, T_State t == state) tasks.

Definition jobStatus (tasks : list Task) : string :=
  if has_state tasks StateFailed then StatusFailed
  else if has_state tasks StateLeased || has_state tasks StateReady then StatusRunning
  else if has_state tasks StatePending then StatusPending
  else StatusComplete.

Definition applyCommit (t : Task) (attempt : string) (res : plan.StepResult) (fail : string)
    : result JobErr Task :=
  check? guard_err (T_State t != StateLeased) ErrNotLeased in
  check? guard_err (T_AttemptID t != attempt) ErrStaleAttempt in
  if fail != "" then Ok (task_upd t StateFailed (T_AttemptID t) (T_Fence t) 0 "" res fail)
  else
    check? guard_err ((plan.SR_Verdict res == "pass") || (plan.SR_Verdict res == "validated"))
             (Errorf "jobs: result cannot be a pass") in
    Ok (task_upd t StateSucceeded (T_AttemptID t) (T_Fence t) 0 "" res "").

Definition applyHeartbeat (t : Task) (attempt workerID : string) (now : Z)
    : result JobErr Task :=
  check? guard_err (T_State t != StateLeased) ErrNotLeased in
  check? guard_err ((T_AttemptID t != attempt) || (T_WorkerID t != workerID)) ErrStaleAttempt in
  Ok (task_upd t (T_State t) (T_AttemptID t) (T_Fence t) (now + leaseTTL) (T_WorkerID t)
        (T_Result t) (T_Err t)).

Definition leased_by (workerID : string) (t : Task) : bool :=
  (T_State t == StateLeased) && (T_WorkerID t == workerID).

Definition countLeased (jobs : list Job) (workerID : string) : Z :=
  count (leased_by workerID) (jobs ≫= J_Tasks).

(** The task after [requeue], and whether it was requeued. *)
Definition requeue (t : Task) (now : Z) (canceled : bool) : Task * bool :=
  if T_State t != StateLeased then (t, false)
  else if (T_LeaseUntil t =? 0)%Z || negb (T_LeaseUntil t <? now)%Z then (t, false)
  else if canceled
  then (task_upd t StateSkipped "" (T_Fence t) 0 "" (T_Result t) "canceled", true)
  else (task_upd t StateReady "" (T_Fence t) 0 "" (T_Result t) (T_Err t), true).

(** ** earned.go *)

Definition evidence_of (t : Task) : plan.StepResult :=
  let r := T_Result t in
  let id := if plan.SR_ID r == "" then T_PlanID t else plan.SR_ID r in
  let kind := if plan.SR_Kind r == "" then T_Kind t else plan.SR_Kind r in
  let v := plan.SR_Verdict r in
  let verdict :=
    if T_State t == StateSkipped then (if v == "" then plan.VerdictSkipped else v)
    else if T_State t == StateSucceeded then v
    else if T_State t == StateFailed then (if v == "" then replay.VerdictIncomplete else v)
    else replay.VerdictIncomplete in
  plan.MkStepResult id kind verdict (plan.SR_Notes r) (plan.SR_Latency r) (plan.SR_Steps r).

Definition jobEvidence (job : Job) : plan.Evidence :=
  let steps := evidence_of <$> J_Tasks job in
  plan.MkEvidence (plan.Overall steps) steps [].

Definition blocked_by_status (status : string) : validate.Decision :=
  validate.MkDecision "" false
    [validate.MkBlocker validate.CodeStepFailed ("job:" +:+ status)].

Definition job_input (job : Job) : validate.Input :=
  validate.MkInput [] (J_BaselineRev job) (J_PatchRev job) (J_Baseline job) (J_Patch job)
    (J_Plan job) (jobEvidence job) (J_Impacted job)
    (replay.Workload_Steps (Workload job)) (J_Changes job).

Definition jobDecision `{GoNet} (job : Job) : validate.Decision :=
  if J_Canceled job || (J_Status job != StatusComplete)
  then blocked_by_status (J_Status job)
  else validate.Decide (job_input job).

Definition refreshJob `{GoNet} (job : Job) : Job :=
  let tasks := settle (J_Tasks job) in
  let status := if J_Canceled job then StatusCanceled else jobStatus tasks in
  let job := set_tasks job status tasks in
  job_upd job status (J_Canceled job) tasks (jobDecision job).

Definition ended (job : Job) : bool :=
  J_Canceled job || (J_Status job == StatusComplete) || (J_Status job == StatusFailed) ||
  (J_Status job == StatusCanceled).

Definition cancel_task (t : Task) : Task :=
  if (T_State t == StatePending) || (T_State t == StateReady)
  then task_upd t StateSkipped (T_AttemptID t) (T_Fence t) (T_LeaseUntil t) (T_WorkerID t)
         (T_Result t) "canceled"
  else t.

Definition applyCancel `{GoNet} (job : Job) : Job :=
  if ended job then job
  else
    refreshJob (MkJob (J_BaselineRev job) (J_PatchRev job) (J_ImpactSource job) (J_ID job)
      (J_Created job) (J_Status job) (J_Service job) (J_Baseline job) (J_Patch job)
      (J_BaselineSHA job) (J_Dirty job) (J_Deadline job) true (J_Impacted job) (J_Changes job)
      (J_Workload job) (J_Plan job) (cancel_task <$> J_Tasks job) (J_Blockers job)
      (J_Validated job)).

Definition deadline_task (t : Task) : Task :=
  if bool_decide (T_State t ∈ [StatePending; StateReady; StateLeased])
  then task_upd t StateFailed (T_AttemptID t) (T_Fence t) 0 "" (T_Result t) "deadline"
  else t.

(** The deadline a job has: its own, or one counted from its creation. *)
Definition job_deadline (job : Job) : option Z :=
  if (J_Deadline job =? 0)%Z
  then if (J_Created job =? 0)%Z then None else Some (J_Created job + DefaultDeadline)%Z
  else Some (J_Deadline job).

(** [None] when nothing expires. *)
Definition failDeadline `{GoNet} (job : Job) (now : Z) : option Job :=
  match job_deadline job with
  | None => None
  | Some deadline =>
      if negb (deadline <? now)%Z then None
      else if ended job then None
      else
        let job := set_tasks job StatusFailed (deadline_task <$> J_Tasks job) in
        Some (job_upd job StatusFailed (J_Canceled job) (J_Tasks job) (jobDecision job))
  end.

(** ** enqueue.go: building a job *)

Definition build_task (id : string) (i : nat) (s : plan.Step) : Task :=
  MkTask (taskID id i) id (plan.Step_ID s) (plan.Step_Kind s) (plan.Step_Operator s)
    (plan.Step_Required s) (plan.Step_DependsOn s) (plan.Step_N s)
    (if plan.Step_Operator s then StateSkipped else StatePending) "" 0 0 ""
    plan.zeroStepResult "".

Definition declared (r : gitrev.Revision) : gitrev.Revision :=
  gitrev.MkRevision (gitrev.Rev_Commit r) (gitrev.Rev_Tree r) (gitrev.Rev_Path r)
    (gitrev.Rev_Dirty r) gitrev.SourceDeclared.

Definition truncate_ms (t : Z) : Z := (t - t `mod` 1000000)%Z.

(** [v] is the random number of the job's id; [tv] and [tb] are the clock when
    the options are validated and when the job is built. *)
Definition buildJob `{GoNet} (v : N) (tv tb : Z) (opts : CreateOpts) : result JobErr Job :=
  check? validateCreate tv opts in
  let base := declared (Co_BaselineRev opts) in
  let patch := declared (Co_PatchRev opts) in
  let id := newID v in
  let now := truncate_ms tb in
  let tasks := settle (imap (build_task id) (plan.DAG_Steps (Co_Plan opts))) in
  let deadline := if (Co_Deadline opts =? 0)%Z then (now + DefaultDeadline)%Z
                  else Co_Deadline opts in
  Ok (refreshJob (MkJob base patch "client" id now "" (clipService (Co_Service opts))
        (Co_Baseline opts) (Co_Patch opts) (gitrev.Rev_Commit base) (gitrev.Rev_Dirty patch)
        deadline false (Co_Impacted opts) (Co_Changes opts) (workloadOf (Co_Workload opts))
        (Co_Plan opts) tasks [] false)).

(** ** quota.go *)

Definition DefaultActiveJobs : Z := 4.
Definition DefaultLeasedTasks : Z := 2.

Definition normalized (q : Quota) : Quota :=
  MkQuota (if (Q_ActiveJobs q <=? 0)%Z then DefaultActiveJobs else Q_ActiveJobs q)
          (if (Q_LeasedTasks q <=? 0)%Z then DefaultLeasedTasks else Q_LeasedTasks q).

Definition occupies (j : Job) : bool :=
  (J_Status j == StatusPending) || (J_Status j == StatusRunning).

Definition overActive (existing : list Job) (candidate : Job) (q : Quota) : bool :=
  (Q_ActiveJobs (normalized q) <=?
   count (λ j, (J_ID j != J_ID candidate) && (J_Service j == J_Service candidate) &&
               occupies j) existing)%Z.

Definition leased_in (jobs : list Job) (service : string) : Z :=
  count (λ t, T_State t == StateLeased)
    (filter (λ j, J_Service j = service) jobs ≫= J_Tasks).

Definition ready_task (t : Task) : bool := (T_State t == StateReady) && negb (T_Operator t).

(** The index of the first task a worker may take. *)
Fixpoint first_ready (i : nat) (tasks : list Task) : option nat :=
  match tasks with
  | [] => None
  | t :: rest => if ready_task t then Some i else first_ready (S i) rest
  end.

Definition eligible (all : list Job) (wantJob : string) (q : Quota) (j : Job) : bool :=
  negb ((wantJob != "") && (J_ID j != wantJob)) &&
  negb (J_Canceled j || (J_Status j == StatusCanceled)) &&
  (leased_in all (J_Service j) <? Q_LeasedTasks (normalized q))%Z.

(** The loop of [pickReady] from job [ji] on; [cur] is the choice so far with
    the number of leased tasks of its service. *)
Fixpoint pick_loop (all : list Job) (wantJob : string) (q : Quota) (ji : nat) (rest : list Job)
    (cur : option (nat * nat * Z)) : option (nat * nat * Z) :=
  match rest with
  | [] => cur
  | j :: rest' =>
      let n := leased_in all (J_Service j) in
      let skip := negb (eligible all wantJob q j) ||
        match cur with Some (_, _, best) => (best <=? n)%Z | None => false end in
      let cur' :=
        if skip then cur
        else match first_ready 0 (J_Tasks j) with
             | Some ti => Some (ji, ti, n)
             | None => cur
             end in
      pick_loop all wantJob q (S ji) rest' cur'
  end.

Definition pickReady (all : list Job) (wantJob : string) (q : Quota) : option (nat * nat) :=
  fst <$> pick_loop all wantJob q 0 all None.

(** ** occupancy.go *)

Definition occupancyKey `{GoNet} (raw : string) : string :=
  match url_Parse (TrimSpace raw) with
  | Err _ => ToLower (TrimSpace raw)
  | Ok u =>
      if URL_Host u == "" then ToLower (TrimSpace raw)
      else ToLower (URL_Scheme u) +:+ "://" +:+ ToLower (URL_Host u)
  end.

Definition occupancyKeys `{GoNet} (j : Job) : list string :=
  let a := occupancyKey (J_Baseline j) in
  let b := occupancyKey (J_Patch j) in
  if a == b then [a] else [a; b].

Definition gatewayBusy `{GoNet} (existing : list Job) (candidate : Job) : bool :=
  let want := filter (λ k, k ≠ "") (occupancyKeys candidate) in
  existsb (λ j, (J_ID j != J_ID candidate) && occupies j &&
                existsb (λ k, bool_decide (k ∈ want)) (occupancyKeys j)) existing.


(** ** The task state machine *)

Definition states : list string :=
  [StatePending; StateReady; StateLeased; StateSucceeded; StateFailed; StateSkipped].
Definition live_states : list string := [StatePending; StateReady; StateLeased].
Definition terminal (t : Task) : Prop := T_State t ∈ [StateSucceeded; StateFailed; StateSkipped].
#[global] Instance terminal_dec t : Decision (terminal t) := _.

(** The transitions a task may make. *)
Inductive trans : string → string → Prop :=
| trans_ready : trans StatePending StateReady
| trans_skip s : s ∈ live_states → trans s StateSkipped
| trans_lease : trans StateReady StateLeased
| trans_succeed : trans StateLeased StateSucceeded
| trans_fail s : s ∈ live_states → trans s StateFailed
| trans_requeue : trans StateLeased StateReady.

(** The fields that identify a task and never change. *)
Definition static (t : Task) : string * string * string * string * bool * bool * list string * Z :=
  (T_ID t, T_JobID t, T_PlanID t, T_Kind t, T_Operator t, T_Required t, T_DependsOn t, T_N t).

(** How sequences of operations may change a task: its identity is kept, its state
    moves along [trans] and a finished task is untouched. What one operation may do,
    also to the fence, is the relation [task_step] of [JobSteps.v]. *)
Record evolves (t t' : Task) : Prop := {
  ev_static : static t' = static t;
  ev_trans : rtc trans (T_State t) (T_State t');
  ev_terminal : terminal t → t' = t;
}.

#[global] Instance evolves_refl : Reflexive evolves.
Proof. intros t. by split. Qed.
#[global] Instance evolves_trans : Transitive evolves.
Proof.
  intros t1 t2 t3 [S1 T1 M1] [S2 T2 M2]. split.
  - congruence.
  - by etrans.
  - intros Ht. rewrite M2; [by apply M1|]. by rewrite M1.
Qed.

Lemma static_inv t t' :
  static t' = static t →
  T_ID t' = T_ID t ∧ T_PlanID t' = T_PlanID t ∧ T_Operator t' = T_Operator t ∧
  T_DependsOn t' = T_DependsOn t.
Proof. unfold static. intros. by simplify_eq. Qed.

(** ** [settle] *)

Lemma static_settle_task m t : static (settle_task m t) = static t.
Proof. unfold settle_task. repeat case_match; done. Qed.

Lemma set_state_inj t s : T_State (set_state t s) = T_State t → set_state t s = t.
Proof. destruct t; unfold set_state, task_upd; simpl. intros. by subst. Qed.

Lemma settle_task_eq m t : T_State (settle_task m t) = T_State t → settle_task m t = t.
Proof. unfold settle_task. repeat case_match; eauto using set_state_inj. Qed.

Lemma settle_pass_eq ts :
  T_State <$> settle_pass ts = T_State <$> ts → settle_pass ts = ts.
Proof.
  unfold settle_pass. generalize (stateByPlan ts). intros m Hs.
  rewrite <- (list_fmap_id ts) at 2. apply list_fmap_ext. intros i t Ht. apply settle_task_eq.
  apply (f_equal (.!! i)) in Hs. rewrite !list_lookup_fmap, Ht in Hs. by simplify_eq/=.
Qed.

Definition pending (t : Task) : bool := T_State t == StatePending.

Lemma settle_task_pending m t : pending (settle_task m t) = true → settle_task m t = t.
Proof. unfold settle_task, pending. by repeat case_match. Qed.

Lemma settle_task_id m t : pending t = false → settle_task m t = t.
Proof. unfold settle_task, pending. intros ->. by rewrite andb_false_r. Qed.

Lemma settle_pass_count ts :
  (count pending (settle_pass ts) ≤ count pending ts)%Z ∧
  (settle_pass ts ≠ ts → (count pending (settle_pass ts) < count pending ts)%Z).
Proof.
  unfold settle_pass. generalize (stateByPlan ts). intros m.
  induction ts as [|t ts [IH1 IH2]]; [done|].
  rewrite fmap_cons, !count_cons.
  destruct (pending (settle_task m t)) eqn:E.
  - rewrite settle_task_pending in * by done. rewrite E. split; [lia|].
    intros Hne. enough (settle_task m <$> ts ≠ ts) by (specialize (IH2 ltac:(done)); lia).
    congruence.
  - destruct (pending t) eqn:E'; [split; [lia|intros; lia]|].
    rewrite settle_task_id by done. split; [lia|]. intros Hne.
    enough (settle_task m <$> ts ≠ ts) by (specialize (IH2 ltac:(done)); lia). congruence.
Qed.

Lemma settle_loop_fix n ts :
  (count pending ts ≤ Z.of_nat n)%Z →
  settle_pass (settle_loop n ts) = settle_loop n ts.
Proof.
  revert ts. induction n as [|n IH]; intros ts Hn; cbn [settle_loop].
  - destruct (decide (T_State <$> settle_pass ts = T_State <$> ts)) as [Hs|Hne];
      [by apply settle_pass_eq|].
    pose proof (proj2 (settle_pass_count ts) ltac:(congruence)).
    pose proof (count_nonneg pending (settle_pass ts)). lia.
  - case_bool_decide as Hs.
    + apply settle_pass_eq in Hs. by rewrite !Hs.
    + apply IH. enough (count pending (settle_pass ts) < count pending ts)%Z by lia.
      apply settle_pass_count. congruence.
Qed.

Lemma count_le_length {A} (f : A → bool) l : (count f l ≤ Z.of_nat (length l))%Z.
Proof.
  induction l as [|x l IH]; [done|]. rewrite count_cons. simpl length. destruct (f x); lia.
Qed.

(** The passes of [settle] are enough: another pass changes nothing. *)
Lemma settle_fix ts : settle_pass (settle ts) = settle ts.
Proof. apply settle_loop_fix, count_le_length. Qed.

Lemma settle_loop_id n ts : settle_pass ts = ts → settle_loop n ts = ts.
Proof. intros Hs. destruct n; cbn [settle_loop]; [done|]. by rewrite Hs, bool_decide_eq_true_2. Qed.

Lemma settle_id ts : settle_pass ts = ts → settle ts = ts.
Proof. apply settle_loop_id. Qed.

(** Any property of task lists kept by a pass is kept by [settle]. *)
Lemma settle_ind (P : list Task → Prop) ts :
  (∀ ts, P ts → P (settle_pass ts)) → P ts → P (settle ts).
Proof.
  intros HP. unfold settle. generalize (length ts). intros n. revert ts.
  induction n as [|n IH]; intros ts Hts; cbn [settle_loop]; [done|].
  case_bool_decide; auto.
Qed.

Lemma settle_task_nonpending m t : T_State t ≠ StatePending → settle_task m t = t.
Proof. intros Hp. apply settle_task_id. unfold pending. by apply bool_decide_eq_false. Qed.

Lemma settle_nonpending ts :
  Forall2 (λ t t', T_State t ≠ StatePending → t' = t) ts (settle ts).
Proof.
  apply (settle_ind (Forall2 (λ t t', T_State t ≠ StatePending → t' = t) ts)).
  - intros ts' Hs. unfold settle_pass. apply Forall2_fmap_r. eapply Forall2_impl; [exact Hs|].
    intros t t' Ht Hp. rewrite settle_task_nonpending; [auto|]. by rewrite Ht.
  - apply Forall_Forall2_diag, Forall_forall. done.
Qed.

(** ** Dependencies *)

Definition finished (s : string) : Prop := s = StateSucceeded ∨ s = StateSkipped.
Definition active (t : Task) : Prop := T_State t ∈ [StateReady; StateLeased; StateSucceeded].

Lemma depsOK_iff t m :
  depsOK t m = true ↔ ∀ d, d ∈ T_DependsOn t → ∃ s, m !! d = Some s ∧ finished s.
Proof.
  unfold depsOK, finished. rewrite forallb_True. split; intros Hd d Hin; specialize (Hd d Hin).
  - destruct (m !! d) as [s|]; simpl in Hd; [|done].
    apply orb_true_iff in Hd. rewrite !bool_decide_eq_true in Hd. eauto.
  - destruct Hd as (s & -> & [-> | ->]); done.
Qed.

Lemma depsOK_false t m :
  depsOK t m = false ↔ ∃ d, d ∈ T_DependsOn t ∧ ¬ ∃ s, m !! d = Some s ∧ finished s.
Proof.
  split.
  - intros Hd. unfold depsOK in Hd. apply forallb_False in Hd as (d & Hin & Hd).
    exists d. split; [done|]. intros (s & Hs & Hf). rewrite Hs in Hd. simpl in Hd.
    destruct Hf as [-> | ->]; done.
  - intros (d & Hin & Hn). apply not_true_is_false. rewrite depsOK_iff. intros Hd. auto.
Qed.

(** Finished states are kept, so satisfied dependencies stay satisfied. *)
Definition keeps (t t' : Task) : Prop :=
  static t' = static t ∧ (finished (T_State t) → T_State t' = T_State t).

Lemma stateByPlan_mono ts ts' d s :
  Forall2 keeps ts ts' → stateByPlan ts !! d = Some s → finished s →
  stateByPlan ts' !! d = Some s.
Proof.
  unfold stateByPlan. intros Hk.
  assert (∀ m m' : gmap string string,
    (∀ d s, m !! d = Some s → finished s → m' !! d = Some s) →
    ∀ d s, foldl (λ m t, <[T_PlanID t := T_State t]> m) m ts !! d = Some s → finished s →
           foldl (λ m t, <[T_PlanID t := T_State t]> m) m' ts' !! d = Some s) as H.
  { induction Hk as [|t t' ts ts' [Hst Hf] _ IH]; intros m m' Hm d' s'; cbn [foldl]; [apply Hm|].
    apply IH. intros d'' s''. apply static_inv in Hst as (_ & -> & _).
    destruct (decide (T_PlanID t = d'')) as [->|Hne].
    - rewrite !lookup_insert_eq. intros [= <-] Hfin. by rewrite Hf.
    - rewrite !lookup_insert_ne by done. apply Hm. }
  intros Hl Hf. eapply H; [|done..]. intros ??. by rewrite lookup_empty.
Qed.

Lemma depsOK_mono ts ts' t t' :
  Forall2 keeps ts ts' → T_DependsOn t' = T_DependsOn t →
  depsOK t (stateByPlan ts) = true → depsOK t' (stateByPlan ts') = true.
Proof.
  rewrite !depsOK_iff. intros Hk -> Hd d Hin. destruct (Hd d Hin) as (s & Hs & Hf).
  eauto using stateByPlan_mono.
Qed.

(** Every task that is ready, leased or has succeeded has all its dependencies
    succeeded or skipped. *)
Definition deps_inv (ts : list Task) : Prop :=
  ∀ t, t ∈ ts → active t → depsOK t (stateByPlan ts) = true.

Definition starts (ts : list Task) (t t' : Task) : Prop :=
  keeps t t' ∧ (active t' → active t ∨ depsOK t (stateByPlan ts) = true).

Lemma deps_inv_starts ts ts' : Forall2 (starts ts) ts ts' → deps_inv ts → deps_inv ts'.
Proof.
  intros Hf Hd t' Ht' Ha. assert (Forall2 keeps ts ts') as Hk
    by (eapply Forall2_impl; [exact Hf|by intros ?? []]).
  apply list_elem_of_lookup in Ht' as [i Hi].
  destruct (Forall2_lookup_r _ _ _ _ _ Hf Hi) as (t & Ht & [[Hst _] Hs]).
  apply static_inv in Hst as (_ & _ & _ & Hdep).
  apply (depsOK_mono ts ts' t t' Hk Hdep).
  destruct (Hs Ha) as [Ha'|Ha']; [|done]. apply Hd; [|done]. by eapply list_elem_of_lookup_2.
Qed.


(** ** Well-formed tasks *)

(** A task has one of the six states; it has a worker and a lease only while it
    is leased; an operator task is skipped. *)
Record task_ok (t : Task) : Prop := {
  to_state : T_State t ∈ states;
  to_leased : T_State t = StateLeased → TrimSpace (T_WorkerID t) ≠ "";
  to_free : T_State t ≠ StateLeased → T_WorkerID t = "" ∧ T_LeaseUntil t = 0%Z;
  to_operator : T_Operator t = true → T_State t = StateSkipped;
}.

(** Closes a goal from contradictory facts about the state of a task. *)
Ltac state_ne :=
  exfalso;
  repeat match goal with
    | H : _ ∨ _ |- _ => destruct H as [H|H]
    | H : _ ∧ _ |- _ => destruct H
    end;
  unfold StatePending, StateReady, StateLeased, StateSucceeded, StateFailed, StateSkipped in *;
  congruence.

(** The six states, as a case analysis. *)
Lemma states_inv s : s ∈ states →
  s = StatePending ∨ s = StateReady ∨ s = StateLeased ∨ s = StateSucceeded ∨
  s = StateFailed ∨ s = StateSkipped.
Proof. unfold states. rewrite !elem_of_cons, elem_of_nil. tauto. Qed.

Lemma live_inv s : s ∈ live_states ↔ s = StatePending ∨ s = StateReady ∨ s = StateLeased.
Proof. unfold live_states. rewrite !elem_of_cons, elem_of_nil. tauto. Qed.

Lemma terminal_inv t : terminal t ↔
  T_State t = StateSucceeded ∨ T_State t = StateFailed ∨ T_State t = StateSkipped.
Proof. unfold terminal. rewrite !elem_of_cons, elem_of_nil. tauto. Qed.

Lemma active_inv t : active t ↔
  T_State t = StateReady ∨ T_State t = StateLeased ∨ T_State t = StateSucceeded.
Proof. unfold active. rewrite !elem_of_cons, elem_of_nil. tauto. Qed.

Lemma terminal_or_live t : task_ok t → terminal t ∨ T_State t ∈ live_states.
Proof.
  intros [Hs _ _ _]. rewrite terminal_inv, live_inv. apply states_inv in Hs. tauto.
Qed.

(** One change of a task that is not finished. *)
Lemma evolves_live t t' :
  static t' = static t → T_State t ∈ live_states → trans (T_State t) (T_State t') → evolves t t'.
Proof.
  intros Hs Hl Ht. split; [done|by apply rtc_once|].
  rewrite terminal_inv. rewrite live_inv in Hl. intros. state_ne.
Qed.

Lemma evolves_keeps t t' : evolves t t' → keeps t t'.
Proof.
  intros [Hs _ Ht]. split; [done|]. intros [Hf|Hf]; rewrite Ht; [done|..];
    rewrite ?terminal_inv; auto.
Qed.

Lemma settle_task_live m t :
  settle_task m t = t ∨
  (T_State t = StatePending ∧ T_Operator t = true ∧ settle_task m t = set_state t StateSkipped) ∨
  (T_State t = StatePending ∧ T_Operator t = false ∧ depsOK t m = true ∧
   settle_task m t = set_state t StateReady).
Proof.
  unfold settle_task.
  destruct (T_Operator t); cbn [andb]; case_bool_decide as Hp; cbn [andb]; auto.
  destruct (depsOK t m); auto 10.
Qed.

Lemma settle_task_evolves m t : evolves t (settle_task m t).
Proof.
  destruct (settle_task_live m t) as [->|[(Hp & _ & ->)|(Hp & _ & _ & ->)]]; [done|..];
    (apply evolves_live; [done|rewrite Hp; by left|]); rewrite Hp; constructor. by left.
Qed.

Lemma task_ok_set_state t s :
  task_ok t → T_State t ≠ StateLeased → s ∈ states → s ≠ StateLeased →
  (T_Operator t = true → s = StateSkipped) → task_ok (set_state t s).
Proof. intros [H1 H2 H3 H4] Hl Hs Hsl Ho. split; simpl; auto; done. Qed.

Lemma settle_task_ok m t : task_ok t → task_ok (settle_task m t).
Proof.
  intros Hok. destruct (settle_task_live m t) as [->|[(Hp & Ho & ->)|(Hp & Ho & _ & ->)]];
    [done|..]; (apply task_ok_set_state; [done|rewrite Hp; done|compute_done|done|congruence]).
Qed.

Lemma settle_pass_starts ts : Forall2 (starts ts) ts (settle_pass ts).
Proof.
  unfold settle_pass. apply Forall2_fmap_r, Forall_Forall2_diag, Forall_forall. intros t _.
  split; [apply evolves_keeps, settle_task_evolves|]. rewrite !active_inv.
  destruct (settle_task_live (stateByPlan ts) t) as [->|[(Hp & Ho & ->)|(Hp & Ho & Hd & ->)]];
    simpl; [by left| |by right]. intros. state_ne.
Qed.

Lemma settle_deps ts : deps_inv ts → deps_inv (settle ts).
Proof.
  apply (settle_ind deps_inv). intros ts' Hd. eapply deps_inv_starts; [|done].
  apply settle_pass_starts.
Qed.

Lemma settle_tasks_ok ts : Forall task_ok ts → Forall task_ok (settle ts).
Proof.
  apply (settle_ind (Forall task_ok)). intros ts' Hok. unfold settle_pass.
  apply Forall_fmap. eapply Forall_impl; [exact Hok|]. intros t. apply settle_task_ok.
Qed.

Lemma settle_evolves ts : Forall2 evolves ts (settle ts).
Proof.
  apply (settle_ind (Forall2 evolves ts)); [|apply Forall_Forall2_diag, Forall_forall; done].
  intros ts' Hev. etrans; [exact Hev|]. unfold settle_pass. apply Forall2_fmap_r, Forall_Forall2_diag, Forall_forall.
  intros t _. apply settle_task_evolves.
Qed.


(** ** The changes other than [settle] *)

(** A change that starts no task: whatever is active afterwards was before. *)
Record moves (t t' : Task) : Prop := {
  mv_evolves : evolves t t';
  mv_active : active t' → active t;
  mv_ok : task_ok t → task_ok t';
}.

#[global] Instance moves_refl : Reflexive moves.
Proof. intros t. by split. Qed.

(** A live task becomes finished. *)
Lemma moves_end t t' :
  static t' = static t → T_State t ∈ live_states →
  (T_State t' = StateFailed ∨ T_State t' = StateSkipped ∨
   (T_State t = StateLeased ∧ T_State t' = StateSucceeded)) →
  (task_ok t → T_WorkerID t' = "" ∧ T_LeaseUntil t' = 0%Z) →
  moves t t'.
Proof.
  intros Hst Hl Hs Hw. split.
  - apply evolves_live; [done..|].
    destruct Hs as [-> |[-> |[Hl' ->]]]; [by constructor..|rewrite Hl'; constructor].
  - rewrite !active_inv. intros Ha. destruct Hs as [Hs|[Hs|[Hl' _]]]; [state_ne..|auto].
  - intros Hok. destruct (Hw Hok). apply static_inv in Hst as (_ & _ & Hop & _). split.
    + destruct Hs as [-> |[-> |[_ ->]]]; compute_done.
    + intros. state_ne.
    + done.
    + rewrite Hop. intros Ho%(to_operator t Hok). rewrite live_inv in Hl. state_ne.
Qed.

Lemma leased_live t : T_State t = StateLeased → T_State t ∈ live_states.
Proof. intros ->. compute_done. Qed.

Lemma applyCommit_inv t attempt res fail t' :
  applyCommit t attempt res fail = Ok t' →
  T_State t = StateLeased ∧ T_AttemptID t = attempt ∧
  t' = task_upd t (if fail == "" then StateSucceeded else StateFailed)
         attempt (T_Fence t) 0 "" res fail ∧
  (fail = "" → plan.SR_Verdict res ≠ "pass" ∧ plan.SR_Verdict res ≠ "validated").
Proof.
  unfold applyCommit. intros ([] & Hs & He)%rbind_ok. apply rbind_ok in He as ([] & Ha & He).
  apply guard_err_ok, negb_false_iff, bool_decide_eq_true in Hs, Ha. subst attempt.
  case_bool_decide as Hf; cbn [negb] in He.
  - apply rbind_ok in He as ([] & Hv & He). apply guard_err_ok in Hv. go_inv. done.
  - simplify_eq. done.
Qed.

Lemma applyCommit_moves t attempt res fail t' :
  applyCommit t attempt res fail = Ok t' → moves t t'.
Proof.
  intros (Hl & Ha & -> & _)%applyCommit_inv.
  apply moves_end; [done|by apply leased_live| |done].
  cbn. case_bool_decide; auto.
Qed.

Lemma applyHeartbeat_inv t attempt workerID now t' :
  applyHeartbeat t attempt workerID now = Ok t' →
  T_State t = StateLeased ∧ T_AttemptID t = attempt ∧ T_WorkerID t = workerID ∧
  t' = task_upd t StateLeased attempt (T_Fence t) (now + leaseTTL) workerID
         (T_Result t) (T_Err t).
Proof.
  unfold applyHeartbeat. intros ([] & Hs & He)%rbind_ok. apply rbind_ok in He as ([] & Ha & He).
  apply guard_err_ok in Hs, Ha. go_inv. by rewrite Hs.
Qed.

Lemma applyHeartbeat_moves t attempt workerID now t' :
  applyHeartbeat t attempt workerID now = Ok t' → moves t t'.
Proof.
  intros (Hl & Ha & Hw & ->)%applyHeartbeat_inv. split.
  - split; [done|by rewrite Hl|rewrite terminal_inv; intros; state_ne].
  - rewrite !active_inv. simpl. by rewrite Hl.
  - intros [H1 H2 H3 H4]. split; simpl; [compute_done|intros; subst; auto|done|].
    intros Ho%H4. state_ne.
Qed.

Lemma requeue_moves t now canceled : moves t (requeue t now canceled).1.
Proof.
  unfold requeue. case_bool_decide as Hl; cbn [negb]; [|done].
  destruct (_ || _); [done|]. destruct canceled; cbn [fst].
  { apply moves_end; [done|by apply leased_live|simpl; auto|done]. }
  split.
  - apply evolves_live; [done|by apply leased_live|rewrite Hl; constructor].
  - rewrite !active_inv. auto.
  - intros [H1 H2 H3 H4]. split; simpl; [compute_done|done|done|].
    intros Ho%H4. state_ne.
Qed.

Lemma cancel_task_moves t : moves t (cancel_task t).
Proof.
  unfold cancel_task. destruct (_ || _) eqn:E; [|done].
  apply orb_true_iff in E. rewrite !bool_decide_eq_true in E.
  apply moves_end; [done|rewrite live_inv; tauto|simpl; auto|].
  intros Hok. simpl. apply (to_free t Hok). intros ?. state_ne.
Qed.

Lemma deadline_task_moves t : moves t (deadline_task t).
Proof.
  unfold deadline_task. case_bool_decide; [|done]. by apply moves_end; [..|simpl; auto|].
Qed.

(** A worker takes a ready task ([Memory.Lease] and [Postgres.Lease]). *)
Definition lease_task (t : Task) (attempt workerID : string) (now : Z) : Task :=
  task_upd t StateLeased attempt (int64 (T_Fence t + 1)) (now + leaseTTL) workerID
    (T_Result t) (T_Err t).

Lemma lease_task_moves t attempt workerID now :
  ready_task t = true → TrimSpace workerID ≠ "" → moves t (lease_task t attempt workerID now).
Proof.
  unfold ready_task. intros Hr Hw. go_inv. split.
  - split; [done|rewrite H; apply rtc_once; constructor|].
    rewrite terminal_inv. intros. state_ne.
  - rewrite !active_inv. auto.
  - intros [H1 H2 H3 H4]. split; simpl; [compute_done|done|done|]. congruence.
Qed.


(** ** Well-formed jobs *)

Definition declared_revs (j : Job) : Prop :=
  gitrev.Rev_Source (J_BaselineRev j) = gitrev.SourceDeclared ∧
  gitrev.Rev_Source (J_PatchRev j) = gitrev.SourceDeclared.

(** A job that is about to be refreshed: its tasks are those of the plan, each
    well formed, with satisfied dependencies where they have started, and if
    the job was canceled none is waiting. *)
Record job_pre (j : Job) : Prop := {
  jp_static : static <$> J_Tasks j =
    static <$> imap (build_task (J_ID j)) (plan.DAG_Steps (J_Plan j));
  jp_tasks : Forall task_ok (J_Tasks j);
  jp_deps : deps_inv (J_Tasks j);
  jp_canceled : J_Canceled j = true →
    Forall (λ t, T_State t ≠ StatePending ∧ T_State t ≠ StateReady) (J_Tasks j);
  jp_declared : declared_revs j;
}.

(** The invariant of stored jobs. *)
Record job_ok (j : Job) : Prop := {
  jo_pre : job_pre j;
  jo_settled : settle_pass (J_Tasks j) = J_Tasks j;
  jo_status : J_Status j = if J_Canceled j then StatusCanceled else jobStatus (J_Tasks j);
  jo_validated : J_Validated j = false;
  jo_blocked : J_Blockers j ≠ [];
}.

(** What never changes in a job. *)
Definition job_static (j : Job) : gitrev.Revision * gitrev.Revision * string * Z * string *
    string * string * Z * list string * impact.Changes * list Step * plan.DAG :=
  (J_BaselineRev j, J_PatchRev j, J_ID j, J_Created j, J_Service j, J_Baseline j, J_Patch j,
   J_Deadline j, J_Impacted j, J_Changes j, J_Workload j, J_Plan j).

(** How operations may change a job. *)
Record job_evolves (j j' : Job) : Prop := {
  je_static : job_static j' = job_static j;
  je_canceled : J_Canceled j = true → J_Canceled j' = true;
  je_tasks : Forall2 evolves (J_Tasks j) (J_Tasks j');
}.

#[global] Instance job_evolves_refl : Reflexive job_evolves.
Proof. intros j. by split. Qed.
#[global] Instance job_evolves_trans : Transitive job_evolves.
Proof. intros j1 j2 j3 [] []. split; [congruence|auto|by etrans]. Qed.

Lemma job_static_inv j j' :
  job_static j' = job_static j →
  J_ID j' = J_ID j ∧ J_Service j' = J_Service j ∧ J_Baseline j' = J_Baseline j ∧
  J_Patch j' = J_Patch j ∧ J_Plan j' = J_Plan j ∧ (declared_revs j' ↔ declared_revs j).
Proof. unfold job_static, declared_revs. intros Hs. simplify_eq. naive_solver congruence. Qed.

Lemma static_evolves ts ts' : Forall2 evolves ts ts' → static <$> ts' = static <$> ts.
Proof. induction 1 as [|t t' ts ts' [Hs _ _] _ IH]; csimpl; congruence. Qed.

Lemma moves_tasks_ok ts ts' : Forall2 moves ts ts' → Forall task_ok ts → Forall task_ok ts'.
Proof.
  induction 1 as [|t t' ts ts' Hmv _ IH]; [done|]. rewrite !Forall_cons. intros [? ?].
  split; [by apply (mv_ok t)|auto].
Qed.

Section job_ops.
  Context `{GoNet}.

(** A job that declares its revisions is never validated. *)
Lemma declared_blocked j : declared_revs j →
  validate.D_Validated (jobDecision j) = false ∧ validate.D_Blockers (jobDecision j) ≠ [].
Proof.
  intros [Hb _]. unfold jobDecision. destruct (_ || _); [done|].
  assert (validate.blocks (job_input j)
            (validate.MkBlocker validate.CodeUnverifiedRevision "baseline")) as Hbl.
  { apply validate.blocks_base_rev. unfold validate.unverified. simpl. rewrite Hb.
    by rewrite orb_true_r. }
  split.
  - apply not_true_is_false. rewrite validate.Decide_validated_blockers. intros Hn.
    by apply (Hn _ Hbl).
  - apply validate.Decide_blockers in Hbl. intros E. rewrite E in Hbl.
    by apply not_elem_of_nil in Hbl.
Qed.

Lemma settle_not_pending ts :
  Forall (λ t, T_State t ≠ StatePending ∧ T_State t ≠ StateReady) ts → settle ts = ts.
Proof.
  intros Hf. apply settle_id. unfold settle_pass. generalize (stateByPlan ts). intros m.
  rewrite <- (list_fmap_id ts) at 2.
  apply list_fmap_ext. intros i t Ht. apply settle_task_id.
  rewrite Forall_lookup in Hf. destruct (Hf i t Ht). unfold pending. by case_bool_decide.
Qed.

Lemma refreshJob_tasks j : J_Tasks (refreshJob j) = settle (J_Tasks j).
Proof. done. Qed.
Lemma refreshJob_static j : job_static (refreshJob j) = job_static j.
Proof. done. Qed.

Lemma refreshJob_ok j : job_pre j → job_ok (refreshJob j).
Proof.
  intros [Hs Ht Hd Hc Hr].
  destruct (declared_blocked (set_tasks j (if J_Canceled j then StatusCanceled
    else jobStatus (settle (J_Tasks j))) (settle (J_Tasks j)))) as [Hv Hb]; [exact Hr|].
  split; [|apply settle_fix|done|exact Hv|exact Hb]. split.
  - rewrite refreshJob_tasks. etrans; [|exact Hs]. apply static_evolves, settle_evolves.
  - by apply settle_tasks_ok.
  - by apply settle_deps.
  - intros Hca. specialize (Hc Hca). rewrite refreshJob_tasks. by rewrite settle_not_pending.
  - exact Hr.
Qed.

Lemma refreshJob_evolves j : job_evolves j (refreshJob j).
Proof. split; [done|done|apply settle_evolves]. Qed.

(** Changing tasks of a stored job along [moves]. *)
Lemma set_tasks_pre j status ts :
  job_ok j → Forall2 moves (J_Tasks j) ts →
  (J_Canceled j = true → Forall (λ t, T_State t ≠ StatePending ∧ T_State t ≠ StateReady) ts) →
  job_pre (set_tasks j status ts).
Proof.
  intros [[Hs Ht Hd Hc Hr] _ _ _ _] Hm Hca.
  assert (Forall2 evolves (J_Tasks j) ts) as Hev by (eapply Forall2_impl; [done|by intros ?? []]).
  split; simpl; [| | |done|done].
  - rewrite <- Hs. by apply static_evolves.
  - by eapply moves_tasks_ok.
  - eapply deps_inv_starts; [|done]. eapply Forall2_impl; [exact Hm|].
    intros t t' [He Ha _]. split; [by apply evolves_keeps|auto].
Qed.

Lemma Forall2_moves_evolves ts ts' : Forall2 moves ts ts' → Forall2 evolves ts ts'.
Proof. intros Hm. eapply Forall2_impl; [done|by intros ?? []]. Qed.

Lemma set_tasks_evolves j status ts :
  Forall2 moves (J_Tasks j) ts → job_evolves j (set_tasks j status ts).
Proof. intros Hm. split; [done|done|by apply Forall2_moves_evolves]. Qed.

(** The body of the loop of [requeueExpiredLocked] and of [expireTx]: the job
    afterwards and how many expirations it had. *)
Definition expire_job (job : Job) (now : Z) : Job * Z :=
  match failDeadline job now with
  | Some job' => (job', 1%Z)
  | None =>
      let rs := (λ t, requeue t now (J_Canceled job)) <$> J_Tasks job in
      let n := count snd rs in
      if (0 <? n)%Z then (refreshJob (set_tasks job (J_Status job) rs.*1), n) else (job, 0%Z)
  end.

(** The job after the commit of task [i] has been applied. *)
Definition commit_job (job : Job) (i : nat) (t : Task) : Job :=
  refreshJob (set_tasks job (J_Status job) (<[i := t]> (J_Tasks job))).

Definition heartbeat_job (job : Job) (i : nat) (t : Task) : Job :=
  set_tasks job (J_Status job) (<[i := t]> (J_Tasks job)).

(** ** Every operation keeps the invariant of jobs *)

Definition keeps_job (j j' : Job) : Prop := job_ok j → job_ok j' ∧ job_evolves j j'.

Lemma refresh_keeps j status ts :
  Forall2 moves (J_Tasks j) ts →
  (J_Canceled j = true → Forall2 (λ t t', T_State t' = T_State t ∨
     T_State t' ∈ [StateSucceeded; StateFailed; StateSkipped]) (J_Tasks j) ts) →
  keeps_job j (refreshJob (set_tasks j status ts)).
Proof.
  intros Hm Hc Hok. split.
  - apply refreshJob_ok, set_tasks_pre; [done..|]. intros Hca. specialize (Hc Hca).
    pose proof (jp_canceled j (jo_pre j Hok) Hca) as Hn. rewrite Forall_lookup in *.
    intros i t' Ht'. destruct (Forall2_lookup_r _ _ _ _ _ Hc Ht') as (t & Ht & Hs).
    destruct (Hn i t Ht) as [Hn1 Hn2]. destruct Hs as [->|Hs]; [done|].
    rewrite !elem_of_cons, elem_of_nil in Hs. split; intros E; state_ne.
  - etrans; [by apply set_tasks_evolves|apply refreshJob_evolves].
Qed.

Lemma insert_moves ts i t t' :
  ts !! i = Some t → moves t t' → Forall2 moves ts (<[i := t']> ts).
Proof.
  intros Ht Hm. rewrite <- (list_insert_id ts i t Ht) at 1.
  apply Forall2_insert; [|done]. apply Forall_Forall2_diag, Forall_forall. done.
Qed.

Lemma commit_keeps j i t attempt res fail t' :
  J_Tasks j !! i = Some t → applyCommit t attempt res fail = Ok t' →
  keeps_job j (commit_job j i t').
Proof.
  intros Ht Hc. apply refresh_keeps.
  - by eapply insert_moves, applyCommit_moves.
  - intros _. rewrite <- (list_insert_id (J_Tasks j) i t Ht) at 1. apply Forall2_insert.
    + apply Forall_Forall2_diag, Forall_forall. auto.
    + apply applyCommit_inv in Hc as (_ & _ & -> & _). right. cbn.
      case_bool_decide; compute_done.
Qed.

Lemma settled_iff ts :
  settle_pass ts = ts ↔
    ∀ t, t ∈ ts → T_State t = StatePending →
      T_Operator t = false ∧ depsOK t (stateByPlan ts) = false.
Proof.
  unfold settle_pass. generalize (stateByPlan ts). intros m. split.
  - intros Hs t Ht Hp. apply list_elem_of_lookup in Ht as [i Hi].
    apply (f_equal (.!! i)) in Hs. rewrite list_lookup_fmap, Hi in Hs. simpl in Hs.
    apply (inj Some) in Hs. apply (f_equal T_State) in Hs. revert Hs.
    unfold settle_task. rewrite Hp, bool_decide_eq_true_2, andb_true_r by done. cbn [andb].
    destruct (T_Operator t); [done|]. by destruct (depsOK t m).
  - intros Hs. rewrite <- (list_fmap_id ts) at 2. apply list_fmap_ext. intros i t Ht.
    unfold settle_task. apply list_elem_of_lookup_2 in Ht.
    case_bool_decide as Hp; [|by rewrite andb_false_r].
    destruct (Hs t Ht Hp) as [-> ->]. done.
Qed.

(** A task that is leased or waits for a lease finishes nobody's dependency, so
    replacing it keeps the tasks settled. *)
Lemma settled_insert ts i t t' :
  ts !! i = Some t → settle_pass ts = ts → T_State t' = StateLeased →
  static t' = static t → settle_pass (<[i := t']> ts) = <[i := t']> ts.
Proof.
  rewrite !settled_iff. intros Ht Hs Hl Hst u Hu Hp.
  assert (Forall2 keeps (<[i := t']> ts) ts) as Hk.
  { rewrite <- (list_insert_id ts i t Ht) at 2. apply Forall2_insert.
    - apply Forall_Forall2_diag, Forall_forall. by split.
    - split; [done|]. unfold finished. intros. state_ne. }
  assert (u ∈ ts) as Hu'.
  { apply list_elem_of_lookup in Hu as [k Hk']. apply list_lookup_insert_Some in Hk'
      as [(_ & <- & _)|[_ ?]]; [state_ne|by eapply list_elem_of_lookup_2]. }
  destruct (Hs u Hu' Hp) as [Ho Hd]. split; [done|]. apply not_true_is_false. intros Hd'.
  by rewrite (depsOK_mono _ _ u u Hk) in Hd.
Qed.

Lemma has_state_True ts s : has_state ts s = true ↔ ∃ t, t ∈ ts ∧ T_State t = s.
Proof. unfold has_state. rewrite existsb_True. by setoid_rewrite bool_decide_eq_true. Qed.

(** Replacing tasks without touching the states. *)
Lemma jobStatus_states ts ts' : T_State <$> ts' = T_State <$> ts → jobStatus ts' = jobStatus ts.
Proof.
  intros Hs. assert (∀ s, has_state ts' s = has_state ts s) as Hh.
  { intros s. unfold has_state. revert ts Hs.
    induction ts' as [|t' ts' IH]; intros [|t ts] Hs; simplify_eq/=; [done|].
    rewrite (IH ts) by done. by rewrite H0. }
  unfold jobStatus. by rewrite !Hh.
Qed.

Lemma fmap_state_insert (ts : list Task) i t t' :
  ts !! i = Some t → T_State t' = T_State t → T_State <$> <[i := t']> ts = T_State <$> ts.
Proof.
  intros Ht Hs. rewrite list_fmap_insert. apply list_insert_id.
  by rewrite list_lookup_fmap, Ht, Hs.
Qed.

Lemma Forall_insert_iff_states (P : string → Prop) ts i t t' :
  ts !! i = Some t → T_State t' = T_State t →
  Forall (λ t, P (T_State t)) ts → Forall (λ t, P (T_State t)) (<[i := t']> ts).
Proof.
  intros Ht Hs Hf. apply Forall_insert; [done|]. rewrite Hs.
  rewrite Forall_lookup in Hf. by apply (Hf i).
Qed.

Lemma heartbeat_keeps j i t attempt w now t' :
  J_Tasks j !! i = Some t → applyHeartbeat t attempt w now = Ok t' →
  keeps_job j (heartbeat_job j i t').
Proof.
  intros Ht Hh Hok.
  pose proof (applyHeartbeat_moves _ _ _ _ _ Hh) as Hm.
  apply applyHeartbeat_inv in Hh as (Hl & _ & _ & E).
  assert (T_State t' = T_State t) as Hst by (by rewrite E, Hl).
  pose proof (insert_moves _ _ _ _ Ht Hm) as Hms.
  split; [|by apply set_tasks_evolves]. split.
  - apply set_tasks_pre; [done..|]. intros Hca.
    by apply (Forall_insert_iff_states (λ s, s ≠ StatePending ∧ s ≠ StateReady) _ i t),
      (jp_canceled j (jo_pre j Hok)).
  - apply (settled_insert _ i t); [done|apply (jo_settled j Hok)|by rewrite Hst|apply Hm].
  - cbn. rewrite (jobStatus_states (J_Tasks j)) by (by eapply fmap_state_insert).
    apply (jo_status j Hok).
  - apply (jo_validated j Hok).
  - apply (jo_blocked j Hok).
Qed.

(** The job after task [i] has been leased, as [Memory.Lease] leaves it. *)
Definition lease_job (j : Job) (i : nat) (t : Task) : Job :=
  let ts := <[i := t]> (J_Tasks j) in set_tasks j (jobStatus ts) ts.

Lemma lease_keeps j i t attempt w now :
  J_Tasks j !! i = Some t → ready_task t = true → TrimSpace w ≠ "" → J_Canceled j = false →
  keeps_job j (lease_job j i (lease_task t attempt w now)).
Proof.
  intros Ht Hr Hw Hc Hok.
  pose proof (lease_task_moves t attempt w now Hr Hw) as Hm.
  pose proof (insert_moves _ _ _ _ Ht Hm) as Hms.
  split; [|by apply set_tasks_evolves]. split.
  - apply set_tasks_pre; [done..|]. congruence.
  - apply (settled_insert _ i t); [done|apply (jo_settled j Hok)|done|apply Hm].
  - cbn. by rewrite Hc.
  - apply (jo_validated j Hok).
  - apply (jo_blocked j Hok).
Qed.


Lemma ended_false j :
  ended j = false ↔ J_Canceled j = false ∧ J_Status j ≠ StatusComplete ∧
    J_Status j ≠ StatusFailed ∧ J_Status j ≠ StatusCanceled.
Proof.
  unfold ended. rewrite !orb_false_iff, !bool_decide_eq_false. tauto.
Qed.

Lemma fmap_moves f ts : (∀ t, moves t (f t)) → Forall2 moves ts (f <$> ts).
Proof. intros Hf. apply Forall2_fmap_r, Forall_Forall2_diag, Forall_forall. auto. Qed.

Lemma cancel_keeps j : keeps_job j (applyCancel j).
Proof.
  intros Hok. unfold applyCancel. destruct (ended j) eqn:He; [by split|].
  assert (Forall2 moves (J_Tasks j) (cancel_task <$> J_Tasks j)) as Hm
    by apply fmap_moves, cancel_task_moves.
  destruct (set_tasks_pre j (J_Status j) _ Hok Hm) as [Hs Ht Hd _ Hr].
  { apply ended_false in He as [Hc _]. congruence. }
  split.
  - apply refreshJob_ok. split; [exact Hs|exact Ht|exact Hd| |exact Hr].
    intros _. simpl. apply Forall_fmap, Forall_forall. intros t _. simpl. unfold cancel_task.
    repeat case_bool_decide; cbn [orb]; by split.
  - split; [done|done|]. etrans; [by apply Forall2_moves_evolves|apply settle_evolves].
Qed.

Lemma deadline_task_live t : T_State t ∈ live_states → T_State (deadline_task t) = StateFailed.
Proof. intros Hl. unfold deadline_task. by rewrite bool_decide_eq_true_2. Qed.

Lemma deadline_task_not_live t : T_State (deadline_task t) ∉ live_states.
Proof.
  unfold deadline_task. case_bool_decide as Hl; [|done]. compute_done.
Qed.

(** A job that has not ended has a live task. *)
Lemma running_live j :
  job_ok j → ended j = false → ∃ t, t ∈ J_Tasks j ∧ T_State t ∈ live_states.
Proof.
  intros Hok (Hc & Hne1 & Hne2 & _)%ended_false. pose proof (jo_status j Hok) as Hs.
  rewrite Hc in Hs. unfold jobStatus in Hs.
  destruct (has_state _ StateFailed); [congruence|].
  destruct (has_state (J_Tasks j) StateLeased) eqn:E1.
  { apply has_state_True in E1 as (t & Ht & Hst). exists t. rewrite Hst. split; [done|compute_done]. }
  destruct (has_state (J_Tasks j) StateReady) eqn:E2.
  { apply has_state_True in E2 as (t & Ht & Hst). exists t. rewrite Hst. split; [done|compute_done]. }
  destruct (has_state (J_Tasks j) StatePending) eqn:E3; [|simpl in Hs; congruence].
  apply has_state_True in E3 as (t & Ht & Hst). exists t. rewrite Hst. split; [done|compute_done].
Qed.

Lemma deadline_keeps j now j' : failDeadline j now = Some j' → keeps_job j j'.
Proof.
  unfold failDeadline. destruct (job_deadline j) as [d|]; [|done].
  destruct (negb _); [done|]. destruct (ended j) eqn:He; [done|]. intros [= <-] Hok.
  assert (Forall2 moves (J_Tasks j) (deadline_task <$> J_Tasks j)) as Hm
    by apply fmap_moves, deadline_task_moves.
  assert (J_Canceled j = false) as Hc by (by apply ended_false).
  assert (job_pre (set_tasks j StatusFailed (deadline_task <$> J_Tasks j))) as Hp
    by (apply set_tasks_pre; [done..|congruence]).
  destruct (declared_blocked _ (jp_declared _ Hp)) as [Hv Hb].
  split; [|split; [done|done|by apply Forall2_moves_evolves]].
  split; [by destruct Hp| | |exact Hv|exact Hb].
  - cbn. apply settled_iff. intros t Ht Hpe. apply list_elem_of_fmap in Ht as (u & -> & _).
    destruct (deadline_task_not_live u). rewrite Hpe. compute_done.
  - cbn. rewrite Hc. unfold jobStatus.
    destruct (running_live j Hok He) as (t & Ht & Hl).
    rewrite (proj2 (has_state_True _ _)); [done|]. exists (deadline_task t).
    split; [apply list_elem_of_fmap; eauto|]. by apply deadline_task_live.
Qed.

Lemma requeue_state t now canceled :
  T_State (requeue t now canceled).1 = T_State t ∨
  (T_State t = StateLeased ∧
   T_State (requeue t now canceled).1 = if canceled then StateSkipped else StateReady).
Proof.
  unfold requeue. case_bool_decide; cbn [negb]; [|by left].
  destruct (_ || _); [by left|]. destruct canceled; by right.
Qed.

Lemma expire_keeps j now : keeps_job j (expire_job j now).1.
Proof.
  unfold expire_job. destruct (failDeadline j now) as [j'|] eqn:Hf; [by eapply deadline_keeps|].
  destruct (0 <? _)%Z; [|by split]. cbn [fst]. rewrite <- list_fmap_compose.
  apply refresh_keeps.
  - apply fmap_moves. intros t. apply requeue_moves.
  - intros Hc. apply Forall2_fmap_r, Forall_Forall2_diag, Forall_forall. intros t _.
    unfold compose. rewrite Hc. destruct (requeue_state t now true) as [?|[_ ->]]; [by left|].
    right. compute_done.
Qed.

(** ** New jobs *)

Lemma build_task_ok id i s : task_ok (build_task id i s).
Proof.
  unfold build_task. destruct (plan.Step_Operator s) eqn:Ho; split; simpl; try done;
    try compute_done; try congruence.
Qed.

Lemma imap_Forall {A B} (f : nat → A → B) (P : B → Prop) l :
  (∀ i x, P (f i x)) → Forall P (imap f l).
Proof.
  intros Hf. apply Forall_forall. intros y Hy. apply list_elem_of_lookup in Hy as [i Hi].
  rewrite list_lookup_imap in Hi. destruct (l !! i); simplify_eq/=. auto.
Qed.

Lemma buildJob_inv v tv tb opts j :
  buildJob v tv tb opts = Ok j →
  validateCreate tv opts = Ok tt ∧ J_ID j = newID v ∧ J_Service j = clipService (Co_Service opts) ∧
  J_Baseline j = Co_Baseline opts ∧ J_Patch j = Co_Patch opts ∧ J_Plan j = Co_Plan opts ∧
  job_ok j.
Proof.
  unfold buildJob. intros ([] & Hv & He)%rbind_ok. injection He as <-.
  split; [done|]. do 5 (split; [done|]). apply refreshJob_ok. split.
  - apply static_evolves, settle_evolves.
  - apply settle_tasks_ok, imap_Forall. intros. apply build_task_ok.
  - apply settle_deps. intros t Ht Ha. apply active_inv in Ha.
    assert (Forall (λ t, T_State t ∈ [StateSkipped; StatePending])
      (imap (build_task (newID v)) (plan.DAG_Steps (Co_Plan opts)))) as Hf.
    { apply imap_Forall. intros i s. simpl. destruct (plan.Step_Operator s); compute_done. }
    rewrite Forall_forall in Hf. specialize (Hf t Ht). rewrite !elem_of_cons, elem_of_nil in Hf.
    state_ne.
  - done.
  - done.
Qed.

(** ** Jobs that occupy their gateways *)

Lemma occupies_iff j :
  job_ok j → occupies j = true ↔
    J_Canceled j = false ∧ has_state (J_Tasks j) StateFailed = false ∧
    ∃ t, t ∈ J_Tasks j ∧ T_State t ∈ live_states.
Proof.
  intros Hok. unfold occupies. rewrite (jo_status j Hok).
  destruct (J_Canceled j); [split; [done|by intros []]|]. unfold jobStatus.
  destruct (has_state (J_Tasks j) StateFailed) eqn:Ef; [split; [done|naive_solver]|].
  assert ((∃ t, t ∈ J_Tasks j ∧ T_State t ∈ live_states) ↔
    has_state (J_Tasks j) StateLeased || has_state (J_Tasks j) StateReady ||
    has_state (J_Tasks j) StatePending = true) as ->.
  { rewrite !orb_true_iff, !has_state_True. setoid_rewrite live_inv. naive_solver. }
  destruct (_ || has_state (J_Tasks j) StateReady); [naive_solver|].
  destruct (has_state (J_Tasks j) StatePending); naive_solver.
Qed.

(** A job that has given up its gateways never takes them back. *)
Lemma occupies_mono j j' :
  job_ok j → job_ok j' → job_evolves j j' → occupies j' = true → occupies j = true.
Proof.
  intros Hok Hok' [_ Hc Ht]. rewrite !occupies_iff by done. intros (Hc' & Hf' & t' & Ht' & Hl').
  split; [destruct (J_Canceled j); naive_solver|]. split.
  - apply not_true_is_false. rewrite has_state_True. intros (t & Hin & Hs).
    apply list_elem_of_lookup in Hin as [i Hi].
    destruct (Forall2_lookup_l _ _ _ _ _ Ht Hi) as (u & Hu & Hev).
    assert (u = t) as -> by (apply Hev, terminal_inv; auto).
    apply not_true_iff_false in Hf'. apply Hf', has_state_True.
    exists t. split; [by eapply list_elem_of_lookup_2|done].
  - apply list_elem_of_lookup in Ht' as [i Hi].
    destruct (Forall2_lookup_r _ _ _ _ _ Ht Hi) as (t & Hti & Hev).
    assert (t ∈ J_Tasks j) as Hin by (by eapply list_elem_of_lookup_2).
    exists t. split; [done|]. pose proof (jp_tasks j (jo_pre j Hok)) as Hall.
    rewrite Forall_forall in Hall. destruct (terminal_or_live t (Hall t Hin)) as [Hte|]; [|done].
    by rewrite (ev_terminal _ _ Hev Hte) in Hl'.
Qed.

End job_ops.


(** ** Identifiers *)

Lemma newID_hex v : all_hex (newID v) = true.
Proof. apply hex_pad_hex. Qed.

Lemma newID_length v : (v < 2 ^ 64)%N → String.length (newID v) = 16%nat.
Proof. apply (hex_pad_length 15). Qed.

Lemma normalizeID_hex s :
  all_hex s = true → String.length s = 16%nat → normalizeID s = Some s.
Proof.
  intros Hh Hl. unfold normalizeID. rewrite TrimSpace_hex, ToLower_hex by done.
  unfold len. rewrite Hl, Hh. cbn [negb]. 
  replace ((Z.of_nat 16 <? 8)%Z || (64 <? Z.of_nat 16)%Z) with false by done.
  f_equal. apply str_take_all. unfold idLen. lia.
Qed.

Lemma normalizeID_newID v : (v < 2 ^ 64)%N → normalizeID (newID v) = Some (newID v).
Proof. intros. apply normalizeID_hex; [apply newID_hex|by apply newID_length]. Qed.

Lemma taskID_prefix id i : String.length id = 16%nat → taskID id i = str_take 12 id +:+ hex_pad 4 (N.of_nat i).
Proof.
  intros Hl. unfold taskID, len. rewrite Hl. done.
Qed.

Lemma normalizeID_taskID id i :
  all_hex id = true → String.length id = 16%nat → (N.of_nat i < 65536)%N →
  normalizeID (taskID id i) = Some (taskID id i).
Proof.
  intros Hh Hl Hi. rewrite taskID_prefix by done. apply normalizeID_hex.
  - rewrite all_hex_app, hex_pad_hex, andb_true_r. by apply all_hex_take.
  - rewrite length_str_app, length_str_take, Hl. by rewrite (hex_pad_length 3).
Qed.

Lemma taskID_inj id id' i i' :
  String.length id = 16%nat → String.length id' = 16%nat →
  (N.of_nat i < 65536)%N → (N.of_nat i' < 65536)%N →
  taskID id i = taskID id' i' → str_take 12 id = str_take 12 id' ∧ i = i'.
Proof.
  intros Hl Hl' Hi Hi'. rewrite !taskID_prefix by done. intros Heq.
  apply str_app_inj_len in Heq as [Ht Hx]; [|by rewrite !length_str_take, Hl, Hl'].
  split; [done|]. apply hex_pad_inj in Hx; lia.
Qed.

(** Reading back what [MarshalJSON] sends gives the same options, except that
    the headers and the service names of the workload's steps, which never leave
    the client, are gone. *)
Theorem wire_roundtrip o :
  UnmarshalJSON (MarshalJSON o) =
    MkCreateOpts (Co_BaselineRev o) (Co_PatchRev o) (Co_Baseline o) (Co_Patch o) (Co_Service o)
      (Co_Deadline o)
      (replay.MkWorkload ((λ s, replay.MkStep (replay.Step_Method s) (replay.Step_Path s)
         (replay.Step_Body s) [] (replay.Step_Provenance s) "")
         <$> replay.Workload_Steps (Co_Workload o)))
      (Co_Plan o) (Co_Impacted o) (Co_Changes o).
Proof.
  unfold UnmarshalJSON, MarshalJSON, replayWorkload, workloadOf. simpl.
  by rewrite <- list_fmap_compose.
Qed.

(** ** The choice of the next task *)

Lemma first_ready_Some i ts ti :
  first_ready i ts = Some ti ↔
    ∃ k t, ti = (i + k)%nat ∧ ts !! k = Some t ∧ ready_task t = true ∧
      ∀ k' t', (k' < k)%nat → ts !! k' = Some t' → ready_task t' = false.
Proof.
  revert i. induction ts as [|t ts IH]; intros i; cbn [first_ready].
  { split; [done|]. by intros (k & t & _ & Hl & _). }
  destruct (ready_task t) eqn:Hr.
  - split.
    + intros [= <-]. exists 0%nat, t. split; [lia|]. repeat split; [done..|]. intros; lia.
    + intros (k & t' & -> & Hl & Hr' & Hmin). destruct k as [|k]; [f_equal; lia|].
      specialize (Hmin 0%nat t ltac:(lia) eq_refl). congruence.
  - rewrite IH. split.
    + intros (k & t' & -> & Hl & Hr' & Hmin). exists (S k), t'. split; [lia|].
      repeat split; [done..|]. intros [|k'] u Hk Hu; simplify_eq/=; [done|].
      apply (Hmin k'); [lia|done].
    + intros (k & t' & -> & Hl & Hr' & Hmin). destruct k as [|k]; simplify_eq/=; [congruence|].
      exists k, t'. split; [lia|]. repeat split; [done..|]. intros k' u Hk Hu.
      apply (Hmin (S k')); [lia|done].
Qed.

Lemma first_ready_None i ts : first_ready i ts = None ↔ ∀ t, t ∈ ts → ready_task t = false.
Proof.
  revert i. induction ts as [|t ts IH]; intros i; cbn [first_ready].
  - set_solver.
  - destruct (ready_task t) eqn:Hr; [split; [done|]|].
    + intros H. by rewrite (H t) in Hr by left.
    + rewrite IH. setoid_rewrite elem_of_cons. naive_solver.
Qed.

(** A job the loop may choose, with the number of leased tasks of its service. *)
Definition candidate (all : list Job) (want : string) (q : Quota) (ji : nat) (n : Z) : Prop :=
  ∃ j, all !! ji = Some j ∧ eligible all want q j = true ∧
       (∃ t, t ∈ J_Tasks j ∧ ready_task t = true) ∧ n = leased_in all (J_Service j).

(** The choice among the first [k] jobs: the least loaded service, and among
    those the oldest job. *)
Definition best_of (all : list Job) (want : string) (q : Quota) (k : nat)
    (cur : option (nat * nat * Z)) : Prop :=
  match cur with
  | None => ∀ ji n, (ji < k)%nat → ¬ candidate all want q ji n
  | Some (ji, ti, n) =>
      (ji < k)%nat ∧ candidate all want q ji n ∧
      (∃ j, all !! ji = Some j ∧ first_ready 0 (J_Tasks j) = Some ti) ∧
      ∀ ji' n', (ji' < k)%nat → candidate all want q ji' n' →
        (n < n' ∨ n = n' ∧ (ji ≤ ji')%nat)%Z
  end.

Lemma pick_step all want q k j cur :
  all !! k = Some j → best_of all want q k cur →
  best_of all want q (S k)
    (if negb (eligible all want q j) ||
        match cur with Some (_, _, best) => (best <=? leased_in all (J_Service j))%Z
                  | None => false end
     then cur
     else match first_ready 0 (J_Tasks j) with
          | Some ti => Some (k, ti, leased_in all (J_Service j))
          | None => cur
          end).
Proof.
  intros Hj Hb.
  assert (∀ n, candidate all want q k n → eligible all want q j = true ∧
    first_ready 0 (J_Tasks j) ≠ None ∧ n = leased_in all (J_Service j)) as Hk.
  { intros n (j' & Hj' & He & (t & Ht & Hr) & ->). simplify_eq. split; [done|]. split; [|done].
    rewrite first_ready_None. intros Hn. by rewrite (Hn t Ht) in Hr. }
  assert (∀ ti, eligible all want q j = true → first_ready 0 (J_Tasks j) = Some ti →
    candidate all want q k (leased_in all (J_Service j))) as Hc.
  { intros ti He Hf. exists j. split; [done|]. split; [done|]. split; [|done].
    apply first_ready_Some in Hf as (i & t & _ & Ht & Hr & _).
    exists t. split; [by eapply list_elem_of_lookup_2|done]. }
  assert (∀ ji, (ji < S k)%nat → (ji < k)%nat ∨ ji = k) as Hlt by lia.
  destruct (eligible all want q j) eqn:He; cbn [negb orb].
  2:{ destruct cur as [[[ji ti] n]|]; simpl in *.
      - destruct Hb as (? & ? & ? & Hmin). repeat split; [lia|done..|].
        intros ji' n' [?| ->]%Hlt Hca; [eauto|]. by destruct (Hk _ Hca).
      - intros ji n [?| ->]%Hlt Hca; [by eapply Hb|]. by destruct (Hk _ Hca). }
  destruct cur as [[[ji ti] n]|]; simpl in Hb.
  - destruct Hb as (Hji & Hca & Hti & Hmin). destruct (Z.leb_spec n (leased_in all (J_Service j))).
    + simpl. repeat split; [lia|done..|]. intros ji' n' [?| ->]%Hlt Hca'; [eauto|].
      destruct (Hk _ Hca') as (_ & _ & ->). lia.
    + destruct (first_ready 0 (J_Tasks j)) as [ti'|] eqn:Hf; simpl.
      * repeat split; [lia|eauto|eauto|]. intros ji' n' [Hl| ->]%Hlt Hca'.
        -- destruct (Hmin ji' n' Hl Hca'); lia.
        -- destruct (Hk _ Hca') as (_ & _ & ->). lia.
      * repeat split; [lia|done..|]. intros ji' n' [?| ->]%Hlt Hca'; [eauto|].
        by destruct (Hk _ Hca') as (_ & ? & _).
  - destruct (first_ready 0 (J_Tasks j)) as [ti'|] eqn:Hf; simpl.
    + repeat split; [lia|eauto|eauto|]. intros ji' n' [Hl| ->]%Hlt Hca'.
      * by apply Hb in Hca'.
      * destruct (Hk _ Hca') as (_ & _ & ->). lia.
    + intros ji n [?| ->]%Hlt Hca; [by eapply Hb|]. by destruct (Hk _ Hca) as (_ & ? & _).
Qed.

Lemma pick_loop_best all want q k rest cur :
  (∀ i, rest !! i = all !! (k + i)%nat) → best_of all want q k cur →
  best_of all want q (k + length rest) (pick_loop all want q k rest cur).
Proof.
  revert k cur. induction rest as [|j rest IH]; intros k cur Hr Hb; cbn [pick_loop length].
  { by rewrite Nat.add_0_r. }
  replace (k + S (length rest))%nat with (S k + length rest)%nat by lia. apply IH.
  - intros i. specialize (Hr (S i)). simpl in Hr. rewrite Hr. f_equal. lia.
  - apply pick_step; [|done]. specialize (Hr 0%nat). by rewrite Nat.add_0_r in Hr.
Qed.

Lemma pickReady_best all want q :
  best_of all want q (length all) (pick_loop all want q 0 all None).
Proof. apply (pick_loop_best all want q 0 all None); [done|]. intros ji n. lia. Qed.


(** ** Leases only shrink, except when a task is leased *)

Definition shrinks (t t' : Task) : Prop :=
  T_State t' = StateLeased → T_State t = StateLeased ∧ T_WorkerID t' = T_WorkerID t.

#[global] Instance shrinks_refl : Reflexive shrinks.
Proof. by intros t. Qed.
#[global] Instance shrinks_trans : Transitive shrinks.
Proof. unfold shrinks. intros t1 t2 t3 H12 H23 Hl. destruct (H23 Hl). naive_solver congruence. Qed.

Definition job_shrinks (j j' : Job) : Prop := Forall2 shrinks (J_Tasks j) (J_Tasks j').

Lemma fmap_shrinks f ts : (∀ t, shrinks t (f t)) → Forall2 shrinks ts (f <$> ts).
Proof. intros Hf. apply Forall2_fmap_r, Forall_Forall2_diag, Forall_forall. auto. Qed.

Lemma insert_shrinks (ts : list Task) i t t' :
  ts !! i = Some t → shrinks t t' → Forall2 shrinks ts (<[i := t']> ts).
Proof.
  intros Ht Hs. rewrite <- (list_insert_id ts i t Ht) at 1. apply Forall2_insert; [|done].
  apply Forall_Forall2_diag, Forall_forall. done.
Qed.

Lemma settle_shrinks ts : Forall2 shrinks ts (settle ts).
Proof.
  apply (settle_ind (Forall2 shrinks ts)); [|apply Forall_Forall2_diag, Forall_forall; done].
  intros ts' Hs. etrans; [exact Hs|]. apply fmap_shrinks. intros t.
  destruct (settle_task_live (stateByPlan ts') t) as [->|[(_ & _ & ->)|(_ & _ & _ & ->)]];
    [done|by intros ?..].
Qed.

Section shrink.
  Context `{GoNet}.

Lemma commit_shrinks j i t attempt res fail t' :
  J_Tasks j !! i = Some t → applyCommit t attempt res fail = Ok t' →
  job_shrinks j (commit_job j i t').
Proof.
  intros Ht (_ & _ & -> & _)%applyCommit_inv. unfold job_shrinks.
  etrans; [|apply settle_shrinks]. apply (insert_shrinks _ i t); [done|].
  unfold shrinks. simpl. by case_bool_decide.
Qed.

Lemma heartbeat_shrinks j i t attempt w now t' :
  J_Tasks j !! i = Some t → applyHeartbeat t attempt w now = Ok t' →
  job_shrinks j (heartbeat_job j i t').
Proof.
  intros Ht (Hl & _ & Hw & ->)%applyHeartbeat_inv. apply (insert_shrinks _ i t); [done|].
  by intros _.
Qed.

Lemma cancel_shrinks j : job_shrinks j (applyCancel j).
Proof.
  unfold job_shrinks, applyCancel. destruct (ended j); [done|].
  etrans; [|apply settle_shrinks]. simpl. apply fmap_shrinks. intros t. unfold cancel_task.
  destruct (_ || _); [by intros ?|done].
Qed.

Lemma expire_shrinks j now : job_shrinks j (expire_job j now).1.
Proof.
  unfold job_shrinks, expire_job. destruct (failDeadline j now) as [j'|] eqn:Hf.
  - unfold failDeadline in Hf. repeat case_match; simplify_eq. simpl. apply fmap_shrinks.
    intros t. unfold deadline_task. case_bool_decide; [by intros ?|done].
  - destruct (0 <? _)%Z; [|done]. cbn [fst]. etrans; [|apply settle_shrinks]. simpl.
    rewrite <- list_fmap_compose. apply fmap_shrinks. intros t. unfold compose, requeue.
    repeat case_match; simpl; done || by intros ?.
Qed.

End shrink.

(** ** Loads *)

Definition leased_task (t : Task) : bool := T_State t == StateLeased.

Lemma leased_by_state w t : leased_by w t = true → T_State t = StateLeased.
Proof. unfold leased_by. by intros [?%bool_decide_eq_true _]%andb_true_iff. Qed.
Lemma leased_task_state t : leased_task t = true → T_State t = StateLeased.
Proof. apply bool_decide_eq_true_1. Qed.

Lemma countLeased_total all w :
  countLeased all w = total (λ j, count (leased_by w) (J_Tasks j)) all.
Proof. apply total_bind_count. Qed.

Lemma leased_in_total all s :
  leased_in all s =
    total (λ j, if J_Service j == s then count leased_task (J_Tasks j) else 0%Z) all.
Proof.
  unfold leased_in. induction all as [|j all IH]; [done|]. rewrite filter_cons, total_cons.
  case_decide as Hs.
  - rewrite bind_cons, count_app, IH. by rewrite bool_decide_eq_true_2.
  - rewrite IH. by rewrite bool_decide_eq_false_2.
Qed.

Lemma shrinks_loads j j' :
  job_shrinks j j' →
  (∀ w, count (leased_by w) (J_Tasks j') ≤ count (leased_by w) (J_Tasks j))%Z ∧
  (count leased_task (J_Tasks j') ≤ count leased_task (J_Tasks j))%Z.
Proof.
  intros Hs. split; [intros w|]; apply count_Forall2; (eapply Forall2_impl; [exact Hs|]);
    intros t t' Hsh; unfold leased_by, leased_task, shrinks in *.
  - intros [Hl Hw]%andb_true_iff. apply bool_decide_eq_true in Hl, Hw.
    destruct (Hsh Hl) as [-> Hw']. rewrite <- Hw', Hw. by rewrite !bool_decide_eq_true_2.
  - intros Hl%bool_decide_eq_true. by destruct (Hsh Hl) as [-> _].
Qed.

Lemma lease_loads (j : Job) i t attempt w now :
  J_Tasks j !! i = Some t → ready_task t = true →
  let j' := lease_job j i (lease_task t attempt w now) in
  (∀ w', count (leased_by w') (J_Tasks j') =
     count (leased_by w') (J_Tasks j) + (if w == w' then 1 else 0))%Z ∧
  (count leased_task (J_Tasks j') = count leased_task (J_Tasks j) + 1)%Z.
Proof.
  intros Ht Hr. unfold ready_task in Hr. go_inv. split; [intros w'|]; simpl;
    rewrite (count_insert _ _ _ _ _ Ht); unfold leased_by, leased_task; simpl; rewrite H; simpl.
  - destruct (w == w'); lia.
  - lia.
Qed.


(** ** New jobs hold no lease, and their gateways have keys *)

Lemma ToLower_nonempty s : s ≠ "" → ToLower s ≠ "".
Proof. by destruct s. Qed.

Lemma build_unleased id i s : T_State (build_task id i s) ≠ StateLeased.
Proof. simpl. by destruct (plan.Step_Operator s). Qed.

Lemma shrinks_unleased ts ts' :
  Forall2 shrinks ts ts' → Forall (λ t, T_State t ≠ StateLeased) ts →
  Forall (λ t, T_State t ≠ StateLeased) ts'.
Proof.
  induction 1 as [|t t' ts ts' Hs _ IH]; [done|]. rewrite !Forall_cons. intros [Ht Hts].
  split; [|auto]. intros Hl. by destruct (Hs Hl).
Qed.

Section new_jobs.
  Context `{GoNet}.

Lemma buildJob_unleased v tv tb opts j :
  buildJob v tv tb opts = Ok j → Forall (λ t, T_State t ≠ StateLeased) (J_Tasks j).
Proof.
  unfold buildJob. intros ([] & _ & [= <-])%rbind_ok. cbn [refreshJob job_upd set_tasks J_Tasks].
  eapply shrinks_unleased; [apply settle_shrinks|].
  eapply shrinks_unleased; [apply settle_shrinks|]. apply imap_Forall. apply build_unleased.
Qed.

Lemma buildJob_size v tv tb opts j :
  buildJob v tv tb opts = Ok j → length (J_Tasks j) = length (plan.DAG_Steps (Co_Plan opts)).
Proof.
  intros Hb. destruct (buildJob_inv _ _ _ _ _ Hb) as (_ & _ & _ & _ & _ & Hp & Hok).
  pose proof (jp_static j (jo_pre j Hok)) as Hs. apply (f_equal length) in Hs.
  rewrite !length_fmap, length_imap, Hp in Hs. done.
Qed.

Lemma unleased_count (f : Task → bool) ts :
  (∀ t, f t = true → T_State t = StateLeased) →
  Forall (λ t, T_State t ≠ StateLeased) ts → count f ts = 0%Z.
Proof.
  intros Hf. induction 1 as [|t ts Ht _ IH]; [done|]. rewrite count_cons, IH.
  destruct (f t) eqn:E; [by apply Hf in E|done].
Qed.

Lemma occupancyKey_nonempty raw : TrimSpace raw ≠ "" → occupancyKey raw ≠ "".
Proof.
  intros Hr. unfold occupancyKey. destruct (url_Parse _) as [u|]; [|by apply ToLower_nonempty].
  case_bool_decide; [by apply ToLower_nonempty|]. intros He.
  apply (f_equal String.length) in He. rewrite !length_str_app in He. simpl in He. lia.
Qed.

Lemma validateCreate_targets now opts :
  validateCreate now opts = Ok tt →
  TrimSpace (Co_Baseline opts) ≠ "" ∧ TrimSpace (Co_Patch opts) ≠ "".
Proof.
  unfold validateCreate. intros ([] & _ & He)%rbind_ok. apply rbind_ok in He as ([] & _ & He).
  apply rbind_ok in He as ([] & Hg & _). apply guard_err_ok, orb_false_iff in Hg.
  by rewrite !bool_decide_eq_false in Hg.
Qed.

Lemma buildJob_keys v tv tb opts j :
  buildJob v tv tb opts = Ok j → "" ∉ occupancyKeys j.
Proof.
  intros (Hv & _ & _ & Hb & Hp & _ & _)%buildJob_inv.
  apply validateCreate_targets in Hv as [Hvb Hvp]. unfold occupancyKeys. rewrite Hb, Hp.
  apply occupancyKey_nonempty in Hvb, Hvp. case_bool_decide; set_solver.
Qed.

Lemma gatewayBusy_false all c :
  gatewayBusy all c = false ↔
    ∀ j k, j ∈ all → J_ID j ≠ J_ID c → occupies j = true → k ∈ occupancyKeys j →
      k ≠ "" → k ∉ occupancyKeys c.
Proof.
  unfold gatewayBusy. rewrite existsb_False. split.
  - intros Hb j k Hj Hid Ho Hk Hne Hc. specialize (Hb j Hj). simpl in Hb.
    rewrite Ho, bool_decide_eq_false_2 in Hb by done. simpl in Hb.
    rewrite existsb_False in Hb. specialize (Hb k Hk). simpl in Hb.
    apply bool_decide_eq_false in Hb. apply Hb. by apply list_elem_of_filter.
  - intros Hb j Hj. apply not_true_is_false. intros He.
    apply andb_true_iff in He as [[Hid Ho]%andb_true_iff Hk].
    apply negb_true_iff, bool_decide_eq_false in Hid.
    apply existsb_True in Hk as (k & Hk & Hw). apply bool_decide_eq_true in Hw.
    apply list_elem_of_filter in Hw as [Hne Hw]. by apply (Hb j k).
Qed.

End new_jobs.

(** C30: the passes of [settle] are enough: afterwards every operator task is
    skipped, every task left pending waits for a dependency, nothing that was
    not pending has changed, and settling again changes nothing. *)
Theorem settle_complete ts :
  settle (settle ts) = settle ts ∧
  (∀ t, t ∈ settle ts → T_State t = StatePending →
     T_Operator t = false ∧ depsOK t (stateByPlan (settle ts)) = false) ∧
  Forall2 (λ t t', T_State t ≠ StatePending → t' = t) ts (settle ts).
Proof.
  split; [apply settle_id, settle_fix|].
  split; [apply settled_iff, settle_fix|apply settle_nonpending].
Qed.

(** [pickReady] chooses the first ready task of an eligible job whose service
    has the fewest leased tasks, the oldest job among equals; it chooses nothing
    exactly when no eligible job has a ready task. *)
Theorem pickReady_spec all want q :
  match pickReady all want q with
  | Some (ji, ti) =>
      ∃ j n, all !! ji = Some j ∧ first_ready 0 (J_Tasks j) = Some ti ∧
        candidate all want q ji n ∧
        ∀ ji' n', candidate all want q ji' n' → (n < n' ∨ n = n' ∧ (ji ≤ ji')%nat)%Z
  | None => ∀ ji n, ¬ candidate all want q ji n
  end.
Proof.
  unfold pickReady. pose proof (pickReady_best all want q) as Hb.
  assert (∀ ji n, candidate all want q ji n → (ji < length all)%nat) as Hlt.
  { intros ji n (j & Hj & _). by eapply lookup_lt_Some. }
  destruct (pick_loop _ _ _ _ _ _) as [[[ji ti] n]|]; cbn [fmap option_fmap option_map fst].
  - destruct Hb as (_ & Hc & (j & Hj & Hf) & Hmin). exists j, n. eauto 10.
  - intros ji n Hc. by apply (Hb ji n); [eauto|].
Qed.

(** Task identifiers survive [normalizeID] and identify the task: the twelve
    leading digits of the job and the position of the step, for plans of at most
    65536 steps. *)
Theorem taskID_identifies id id' i i' :
  all_hex id = true → String.length id = 16%nat → String.length id' = 16%nat →
  (N.of_nat i < 65536)%N → (N.of_nat i' < 65536)%N →
  normalizeID (taskID id i) = Some (taskID id i) ∧
  (taskID id i = taskID id' i' ↔ str_take 12 id = str_take 12 id' ∧ i = i').
Proof.
  intros Hh Hl Hl' Hi Hi'. split; [by apply normalizeID_taskID|]. split.
  - by apply taskID_inj.
  - intros [Hp ->]. rewrite !taskID_prefix by done. by rewrite Hp.
Qed.

End jobs.
