(* ===== verification/JobStore.v ===== *)
(** * The in-memory job store: [internal/jobs/memory.go], [reaper.go]

    The interface [Store] of [store.go] is the class [Store]: every operation
    takes the store and gives a result and the store afterwards. [Module memory]
    is its in-process implementation, with the map of jobs as a [gmap] and the
    creation order as a list. Methods hold the mutex from start to end, so an
    execution of concurrent callers is a sequence of these operations; the
    relation [step] is one of them. What the environment decides (the context's
    error, random identifiers, the clock) is an argument of the operation. *)

From S2P Require Import Prelude GoStrings Net Ingest Replay Impact Plan Validate Jobs.
Import jobs.

(** The context's error when the call starts, a random number, and the clock
    when options are validated, when the job is built and when leases expire. *)
Record CreateEnv := MkCreateEnv {
  Ce_ctx : option string;
  Ce_rand : N;
  Ce_validate : Z;
  Ce_build : Z;
  Ce_expire : Z;
}.

Class Store (S : Type) := {
  Store_Create : CreateEnv → CreateOpts → S → result JobErr Job * S;
  Store_Get : option string → string → S → result JobErr Job;
  Store_List : option string → Z → string → S → result JobErr (list Job);
  Store_Lease : option string → N → Worker → Z → S → result JobErr Lease * S;
  Store_Heartbeat : option string → string → string → string → Z → S → result JobErr () * S;
  Store_Commit : option string → string → string → plan.StepResult → string → S →
    result JobErr Task * S;
  Store_RequeueExpired : option string → Z → S → result JobErr Z * S;
  Store_Cancel : option string → string → S → result JobErr Job * S;
}.

(** ** reaper.go *)

Section reaper.
  Context {S : Type} `{Store S}.

(** [None] is the nil store. *)
Definition Reap (ctx : option string) (store : option S) (now : Z)
    : result JobErr Z * option S :=
  match store with
  | None => (Ok 0%Z, None)
  | Some s => let '(r, s') := Store_RequeueExpired ctx now s in (r, Some s')
  end.

(** The loop reaps once when it starts, at [start], and then at each tick until
    the context is canceled; errors are dropped. [ticks] are the context's error
    during a tick and its time. *)
Definition Loop (store : option S) (start : option string * Z)
    (ticks : list (option string * Z)) : option S :=
  match store with
  | None => None
  | Some _ => foldl (λ st tick, (Reap tick.1 st tick.2).2) store (start :: ticks)
  end.

End reaper.

Module memory.

Record Memory := MkMemory {
  byID : gmap string Job;
  order : list string;
  quota : Quota;
}.

Definition NewMemory : Memory := MkMemory ∅ [] (MkQuota 0 0).

Definition WithQuota (q : Quota) (m : Memory) : Memory := MkMemory (byID m) (order m) q.

Definition set_byID (m : Memory) (b : gmap string Job) : Memory := MkMemory b (order m) (quota m).

(** The zero [Job] a Go map gives for a missing key. *)
Definition zeroRevision : gitrev.Revision := gitrev.MkRevision "" "" "" false "".
Definition zeroJob : Job :=
  MkJob zeroRevision zeroRevision "" "" 0 "" "" "" "" "" false 0 false []
    (impact.MkChanges [] []) [] (plan.MkDAG [] [] "" [] "") [] [] false.

(** The method [jobs]: all jobs in creation order. *)
Definition jobs_of (m : Memory) : list Job :=
  (λ id, default zeroJob (byID m !! id)) <$> order m.

Section ops.
  Context `{GoNet}.

(** The loop ranges over the map and replaces each job on its own, so the order
    of the range does not matter. *)
Definition requeueExpiredLocked (m : Memory) (now : Z) : Memory * Z :=
  (set_byID m ((λ j, (expire_job j now).1) <$> byID m),
   map_fold (λ _ j n, (n + (expire_job j now).2)%Z) 0%Z (byID m)).

Definition Create (e : CreateEnv) (opts : CreateOpts) (m : Memory)
    : result JobErr Job * Memory :=
  match Ce_ctx e with
  | Some err => (Err (CtxErr err), m)
  | None =>
      match buildJob (Ce_rand e) (Ce_validate e) (Ce_build e) opts with
      | Err err => (Err err, m)
      | Ok job =>
          let m := (requeueExpiredLocked m (Ce_expire e)).1 in
          if gatewayBusy (jobs_of m) job then (Err ErrBusy, m)
          else if overActive (jobs_of m) job (quota m) then (Err ErrQuota, m)
          else (Ok job, MkMemory (<[J_ID job := job]> (byID m)) (order m ++ [J_ID job]) (quota m))
      end
  end.

Definition Get (ctx : option string) (id : string) (m : Memory) : result JobErr Job :=
  match ctx with
  | Some err => Err (CtxErr err)
  | None =>
      match normalizeID id with
      | None => Err (Errorf "jobs: invalid id")
      | Some id =>
          match byID m !! id with
          | None => Err ErrNotFound
          | Some job => Ok job
          end
      end
  end.

Definition cmp_newest : Job → Job → comparison :=
  cmp_then (cmp_desc (cmp_on J_Created Z.compare)) (cmp_desc (cmp_on J_ID String.compare)).

Definition List (ctx : option string) (limit : Z) (service : string) (m : Memory)
    : result JobErr (list Job) :=
  match ctx with
  | Some err => Err (CtxErr err)
  | None =>
      let limit := clipLimit limit in
      let want := clipService service in
      let out := filter (λ j, ¬ (want ≠ "" ∧ J_Service j ≠ want)) (jobs_of m) in
      Ok (take (Z.to_nat limit) (sort_cmp cmp_newest out))
  end.

Definition RequeueExpired (ctx : option string) (now : Z) (m : Memory)
    : result JobErr Z * Memory :=
  match ctx with
  | Some err => (Err (CtxErr err), m)
  | None => let '(m, n) := requeueExpiredLocked m now in (Ok n, m)
  end.

(** The job a worker asks for, if any. *)
Definition wanted (w : Worker) : result JobErr string :=
  if TrimSpace (W_JobID w) == "" then Ok ""
  else match normalizeID (W_JobID w) with
       | None => Err ErrInvalidID
       | Some id => Ok id
       end.

(** [v] is the random number of the attempt. *)
Definition Lease (ctx : option string) (v : N) (w : Worker) (now : Z) (m : Memory)
    : result JobErr jobs.Lease * Memory :=
  match ctx with
  | Some err => (Err (CtxErr err), m)
  | None =>
      match worker_id w with
      | Err err => (Err err, m)
      | Ok workerID =>
          let m := (requeueExpiredLocked m now).1 in
          if (worker_slots w <=? countLeased (jobs_of m) workerID)%Z then (Err ErrCapacity, m)
          else
            match wanted w with
            | Err err => (Err err, m)
            | Ok wantJob =>
                let all := jobs_of m in
                match pickReady all wantJob (quota m) with
                | None => (Err ErrNoReady, m)
                | Some (ji, ti) =>
                    let job := default zeroJob (all !! ji) in
                    match J_Tasks job !! ti with
                    | None => (Err ErrNoReady, m)
                    | Some t0 =>
                        let t := lease_task t0 (newID v) workerID now in
                        let job := lease_job job ti t in
                        (Ok (MkLease job t (T_N t) (T_Fence t) (T_AttemptID t)),
                         set_byID m (<[J_ID job := job]> (byID m)))
                    end
                end
            end
      end
  end.

(** The first task with the given identifier, in the order the entries of the
    map are visited. *)
Fixpoint find_task (tid : string) (entries : list (string * Job))
    : option (string * Job * nat * Task) :=
  match entries with
  | [] => None
  | (id, job) :: rest =>
      match list_find (λ t, T_ID t = tid) (J_Tasks job) with
      | Some (i, t) => Some (id, job, i, t)
      | None => find_task tid rest
      end
  end.

(** [Heartbeat] and [Commit] for one iteration order of the map. *)
Definition Heartbeat_in (entries : list (string * Job)) (ctx : option string)
    (taskID attemptID workerID : string) (now : Z) (m : Memory) : result JobErr () * Memory :=
  match ctx with
  | Some err => (Err (CtxErr err), m)
  | None =>
      match normalizeID taskID with
      | None => (Err (Errorf "jobs: invalid id"), m)
      | Some tid =>
          match normalizeID attemptID with
          | None => (Err (Errorf "jobs: invalid attempt"), m)
          | Some aid =>
              match find_task tid entries with
              | None => (Err ErrNotFound, m)
              | Some (id, job, i, t) =>
                  match applyHeartbeat t aid workerID now with
                  | Err err => (Err err, m)
                  | Ok t' => (Ok tt, set_byID m (<[id := heartbeat_job job i t']> (byID m)))
                  end
              end
          end
      end
  end.

Definition Commit_in (entries : list (string * Job)) (ctx : option string)
    (taskID attemptID : string) (res : plan.StepResult) (fail : string) (m : Memory)
    : result JobErr Task * Memory :=
  match ctx with
  | Some err => (Err (CtxErr err), m)
  | None =>
      match normalizeID taskID with
      | None => (Err (Errorf "jobs: invalid id"), m)
      | Some tid =>
          match normalizeID attemptID with
          | None => (Err (Errorf "jobs: invalid attempt"), m)
          | Some aid =>
              match find_task tid entries with
              | None => (Err ErrNotFound, m)
              | Some (id, job, i, t) =>
                  match applyCommit t aid res fail with
                  | Err err => (Err err, m)
                  | Ok t' =>
                      let job' := commit_job job i t' in
                      (Ok (default t' (J_Tasks job' !! i)),
                       set_byID m (<[id := job']> (byID m)))
                  end
              end
          end
      end
  end.

Definition Heartbeat (ctx : option string) (taskID attemptID workerID : string) (now : Z)
    (m : Memory) : result JobErr () * Memory :=
  Heartbeat_in (map_to_list (byID m)) ctx taskID attemptID workerID now m.

Definition Commit (ctx : option string) (taskID attemptID : string) (res : plan.StepResult)
    (fail : string) (m : Memory) : result JobErr Task * Memory :=
  Commit_in (map_to_list (byID m)) ctx taskID attemptID res fail m.

Definition Cancel (ctx : option string) (id : string) (m : Memory) : result JobErr Job * Memory :=
  match ctx with
  | Some err => (Err (CtxErr err), m)
  | None =>
      match normalizeID id with
      | None => (Err (Errorf "jobs: invalid id"), m)
      | Some id =>
          match byID m !! id with
          | None => (Err ErrNotFound, m)
          | Some job => let job := applyCancel job in (Ok job, set_byID m (<[id := job]> (byID m)))
          end
      end
  end.

#[global] Instance Memory_Store : Store Memory := {
  Store_Create := Create;
  Store_Get := Get;
  Store_List := List;
  Store_Lease := Lease;
  Store_Heartbeat := Heartbeat;
  Store_Commit := Commit;
  Store_RequeueExpired := RequeueExpired;
  Store_Cancel := Cancel;
}.

End ops.


(** ** The invariant of the store *)

(** How many unfinished jobs a service has. *)
Definition active_in (all : list Job) (service : string) : Z :=
  count (λ j, (J_Service j == service) && occupies j) all.

Section store.
  Context `{GoNet}.

(** A stored job: well formed, under its own identifier, with task identifiers
    that fit in four hexadecimal digits. *)
Record stored (id : string) (j : Job) : Prop := {
  sj_id : J_ID j = id;
  sj_ok : job_ok j;
  sj_hex : all_hex id = true;
  sj_len : String.length id = 16%nat;
  sj_size : (N.of_nat (length (J_Tasks j)) ≤ 65536)%N;
}.

(** Distinct jobs that are not finished use distinct gateways. *)
Definition exclusive (all : list Job) : Prop :=
  ∀ j j' k, j ∈ all → j' ∈ all → occupies j = true → occupies j' = true →
    J_ID j ≠ J_ID j' → k ∈ occupancyKeys j → k ∉ occupancyKeys j'.

Record store_ok (m : Memory) : Prop := {
  so_jobs id j : byID m !! id = Some j → stored id j;
  so_nodup : NoDup (order m);
  so_order id : id ∈ order m ↔ is_Some (byID m !! id);
  so_prefix id id' : id ∈ order m → id' ∈ order m → str_take 12 id = str_take 12 id' → id = id';
  so_slots w : (countLeased (jobs_of m) w ≤ MaxSlots)%Z;
  so_leased s : (leased_in (jobs_of m) s ≤ Q_LeasedTasks (normalized (quota m)))%Z;
  so_active s : (active_in (jobs_of m) s ≤ Q_ActiveJobs (normalized (quota m)))%Z;
  so_gateway : exclusive (jobs_of m);
}.

Lemma normalized_pos q :
  (0 < Q_ActiveJobs (normalized q))%Z ∧ (0 < Q_LeasedTasks (normalized q))%Z.
Proof.
  unfold normalized, DefaultActiveJobs, DefaultLeasedTasks. simpl.
  destruct (Z.leb_spec (Q_ActiveJobs q) 0), (Z.leb_spec (Q_LeasedTasks q) 0); lia.
Qed.

Lemma NewMemory_ok q : store_ok (WithQuota q NewMemory).
Proof.
  pose proof (normalized_pos q) as [Ha Hl]. split; cbn [byID order quota WithQuota NewMemory].
  - intros id j. by rewrite lookup_empty.
  - constructor.
  - intros id. rewrite lookup_empty, elem_of_nil. split; [done|by intros []].
  - intros id id' []%not_elem_of_nil.
  - done.
  - intros s. change (leased_in (jobs_of (WithQuota q NewMemory)) s) with 0%Z. lia.
  - intros s. change (active_in (jobs_of (WithQuota q NewMemory)) s) with 0%Z. lia.
  - intros j j' k []%not_elem_of_nil.
Qed.

(** *** Looking up jobs by creation order *)

Lemma jobs_of_elem m j :
  store_ok m → j ∈ jobs_of m ↔ byID m !! J_ID j = Some j.
Proof.
  intros Hok. unfold jobs_of. rewrite list_elem_of_fmap. split.
  - intros (id & -> & [j' Hj]%(so_order m Hok)). rewrite Hj. simpl.
    by rewrite (sj_id _ _ (so_jobs m Hok _ _ Hj)).
  - intros Hj. exists (J_ID j). rewrite Hj. split; [done|]. apply (so_order m Hok). eauto.
Qed.

Lemma jobs_of_lookup m ji j :
  store_ok m → jobs_of m !! ji = Some j →
  order m !! ji = Some (J_ID j) ∧ byID m !! J_ID j = Some j ∧ stored (J_ID j) j.
Proof.
  intros Hok Hj. unfold jobs_of in Hj. apply list_lookup_fmap_Some in Hj as (id & -> & Hid).
  assert (is_Some (byID m !! id)) as [j' Hj]
    by (apply (so_order m Hok); by eapply list_elem_of_lookup_2).
  rewrite Hj. simpl. pose proof (so_jobs m Hok _ _ Hj) as Hs.
  rewrite (sj_id _ _ Hs). done.
Qed.

(** *** Changing jobs in place *)

Definition kept (j j' : Job) : Prop := job_ok j' ∧ job_evolves j j'.

(** All jobs change along [kept] and leases only shrink. *)
Record in_place (m m' : Memory) : Prop := {
  ip_order : order m' = order m;
  ip_quota : quota m' = quota m;
  ip_none id : byID m !! id = None → byID m' !! id = None;
  ip_some id j : byID m !! id = Some j → ∃ j', byID m' !! id = Some j' ∧ kept j j';
}.

Lemma kept_stored id j j' : stored id j → kept j j' → stored id j'.
Proof.
  intros [Hi Ho Hh Hl Hs] [Hok' [Hst _ Ht]]. apply job_static_inv in Hst as (Hid & _).
  split; [congruence|done|done|done|]. by rewrite <- (Forall2_length _ _ _ Ht).
Qed.

Lemma in_place_jobs m m' :
  store_ok m → in_place m m' →
  Forall2 (λ j j', job_ok j ∧ kept j j' ∧ byID m !! J_ID j = Some j ∧
                   byID m' !! J_ID j = Some j') (jobs_of m) (jobs_of m').
Proof.
  intros Hok [Ho _ _ Hsome]. unfold jobs_of. rewrite Ho.
  apply Forall2_fmap_2, Forall_Forall2_diag, Forall_forall. intros id [j Hj]%(so_order m Hok).
  destruct (Hsome id j Hj) as (j' & Hj' & Hk). rewrite Hj, Hj'. simpl.
  pose proof (so_jobs m Hok _ _ Hj) as [Hid Hjok _ _ _]. by rewrite Hid.
Qed.

Lemma in_place_ok m m' :
  store_ok m → in_place m m' →
  (∀ w, countLeased (jobs_of m') w ≤ MaxSlots)%Z →
  (∀ s, leased_in (jobs_of m') s ≤ Q_LeasedTasks (normalized (quota m)))%Z →
  store_ok m'.
Proof.
  intros Hok Hip Hsl Hle. pose proof (in_place_jobs m m' Hok Hip) as Hf.
  destruct Hip as [Ho Hq Hnone Hsome]. split; rewrite ?Ho, ?Hq; [|apply Hok|..|done|done| |].
  - intros id j' Hj'. destruct (byID m !! id) as [j|] eqn:Hj.
    + destruct (Hsome id j Hj) as (j'' & ? & Hk). simplify_eq.
      eapply kept_stored; [by apply (so_jobs m Hok)|done].
    + by rewrite Hnone in Hj'.
  - intros id. rewrite (so_order m Hok). split.
    + intros [j Hj]. destruct (Hsome id j Hj) as (j' & ? & _). eauto.
    + intros [j' Hj']. destruct (byID m !! id) eqn:Hj; [eauto|]. by rewrite Hnone in Hj'.
  - apply (so_prefix m Hok).
  - intros s. etrans; [|apply (so_active m Hok s)]. apply count_Forall2.
    eapply Forall2_impl; [exact Hf|]. intros j j' (Hjok & [Hjok' Hev] & _) [Hs Hoc]%andb_true_iff.
    pose proof (job_static_inv _ _ (je_static _ _ Hev)) as (_ & Hsv & _). rewrite <- Hsv, Hs.
    simpl. by eapply occupies_mono.
  - intros j1' j2' k H1 H2 Ho1 Ho2 Hne Hk1.
    apply list_elem_of_lookup in H1 as [i1 H1], H2 as [i2 H2].
    destruct (Forall2_lookup_r _ _ _ _ _ Hf H1) as (j1 & Hi1 & Hok1 & [Hok1' Hev1] & _).
    destruct (Forall2_lookup_r _ _ _ _ _ Hf H2) as (j2 & Hi2 & Hok2 & [Hok2' Hev2] & _).
    apply list_elem_of_lookup_2 in Hi1, Hi2.
    pose proof (job_static_inv _ _ (je_static _ _ Hev1)) as (Eid1 & _ & Eb1 & Ep1 & _).
    pose proof (job_static_inv _ _ (je_static _ _ Hev2)) as (Eid2 & _ & Eb2 & Ep2 & _).
    unfold occupancyKeys in *. rewrite Eb1, Ep1 in Hk1. rewrite Eb2, Ep2.
    apply (so_gateway m Hok j1 j2 k); [done|done|by apply (occupies_mono j1 j1')|
      by apply (occupies_mono j2 j2')|congruence|done].
Qed.

(** When leases only shrink, the loads stay within their bounds. *)
Lemma in_place_shrinks_ok m m' :
  store_ok m → in_place m m' →
  (∀ id j j', byID m !! id = Some j → byID m' !! id = Some j' → job_shrinks j j') →
  store_ok m'.
Proof.
  intros Hok Hip Hsh. pose proof (in_place_jobs m m' Hok Hip) as Hf.
  apply (in_place_ok m m' Hok Hip).
  - intros w. etrans; [|apply (so_slots m Hok w)]. rewrite !countLeased_total. apply total_mono.
    eapply Forall2_impl; [exact Hf|]. intros j j' (_ & _ & Hj & Hj').
    by apply shrinks_loads, (Hsh (J_ID j)).
  - intros s. etrans; [|apply (so_leased m Hok s)]. rewrite !leased_in_total. apply total_mono.
    eapply Forall2_impl; [exact Hf|]. intros j j' (_ & [_ Hev] & Hj & Hj').
    pose proof (job_static_inv _ _ (je_static _ _ Hev)) as (_ & Hsv & _). rewrite Hsv.
    case_bool_decide; [|done]. by apply shrinks_loads, (Hsh (J_ID j)).
Qed.


(** *** The operations that change jobs in place *)

Lemma in_place_refl m : store_ok m → in_place m m.
Proof.
  intros Hok. split; [done..|]. intros id j Hj. exists j. split; [done|].
  split; [apply (so_jobs m Hok _ _ Hj)|done].
Qed.

Lemma in_place_trans m1 m2 m3 : in_place m1 m2 → in_place m2 m3 → in_place m1 m3.
Proof.
  intros [Ho Hq Hn Hs] [Ho' Hq' Hn' Hs']. split; [congruence|congruence|auto|].
  intros id j Hj. destruct (Hs id j Hj) as (j' & Hj' & [_ He]).
  destruct (Hs' id j' Hj') as (j'' & Hj'' & [Hok He']). exists j''. split; [done|].
  split; [done|by etrans].
Qed.

Lemma in_place_requeue m now : store_ok m → in_place m (requeueExpiredLocked m now).1.
Proof.
  intros Hok. split; [done|done|..]; simpl; intros id.
  - intros Hn. by rewrite lookup_fmap, Hn.
  - intros j Hj. rewrite lookup_fmap, Hj. simpl. eexists. split; [done|].
    apply expire_keeps, (so_jobs m Hok _ _ Hj).
Qed.

Lemma requeue_ok m now : store_ok m → store_ok (requeueExpiredLocked m now).1.
Proof.
  intros Hok. apply (in_place_shrinks_ok m _ Hok); [by apply in_place_requeue|].
  intros id j j' Hj. simpl. rewrite lookup_fmap, Hj. intros [= <-]. apply expire_shrinks.
Qed.

Lemma in_place_insert m id j j' :
  store_ok m → byID m !! id = Some j → kept j j' →
  in_place m (set_byID m (<[id := j']> (byID m))).
Proof.
  intros Hok Hj Hk. split; [done|done|..]; simpl; intros id'.
  - intros Hn. rewrite lookup_insert_ne; [done|congruence].
  - intros u Hu. destruct (decide (id = id')) as [<-|Hne].
    + rewrite lookup_insert_eq. simplify_eq. eauto.
    + rewrite lookup_insert_ne by done. exists u. split; [done|].
      split; [apply (so_jobs m Hok _ _ Hu)|done].
Qed.

Lemma insert_ok m id j j' :
  store_ok m → byID m !! id = Some j → kept j j' → job_shrinks j j' →
  store_ok (set_byID m (<[id := j']> (byID m))).
Proof.
  intros Hok Hj Hk Hs. apply (in_place_shrinks_ok m _ Hok); [by eapply in_place_insert|].
  intros id' u u' Hu. simpl. destruct (decide (id = id')) as [<-|Hne].
  - rewrite lookup_insert_eq. intros [= <-]. by simplify_eq.
  - rewrite lookup_insert_ne by done. intros Hu'. simplify_eq. unfold job_shrinks. done.
Qed.

Lemma find_task_Some tid entries id j i t :
  find_task tid entries = Some (id, j, i, t) →
  (id, j) ∈ entries ∧ J_Tasks j !! i = Some t ∧ T_ID t = tid.
Proof.
  induction entries as [|[id' j'] rest IH]; cbn [find_task]; [done|].
  destruct (list_find _ _) as [[i' t']|] eqn:Hf.
  - intros [= -> -> -> ->]. apply list_find_Some in Hf as (Hl & Hid & _).
    split; [left|done].
  - intros Hr. destruct (IH Hr) as (Hin & ?). split; [by right|done].
Qed.

(** What [Commit] and [Heartbeat] do when they succeed. *)
Lemma Commit_in_inv entries ctx tid aid res fail m r m' :
  entries ≡ₚ map_to_list (byID m) →
  Commit_in entries ctx tid aid res fail m = (r, m') →
  m' = m ∨
  ∃ id j i t t', byID m !! id = Some j ∧ J_Tasks j !! i = Some t ∧
    (∃ a, normalizeID aid = Some a ∧ applyCommit t a res fail = Ok t') ∧
    normalizeID tid = Some (T_ID t) ∧
    r = Ok (default t' (J_Tasks (commit_job j i t') !! i)) ∧
    m' = set_byID m (<[id := commit_job j i t']> (byID m)).
Proof.
  intros Hp. unfold Commit_in. destruct ctx; [intros [= <- <-]; by left|].
  destruct (normalizeID tid) as [tid'|] eqn:Htid; [|intros [= <- <-]; by left].
  destruct (normalizeID aid) as [aid'|] eqn:Haid; [|intros [= <- <-]; by left].
  destruct (find_task tid' entries) as [[[[id j] i] t]|] eqn:Hf; [|intros [= <- <-]; by left].
  destruct (applyCommit t aid' res fail) as [t'|e] eqn:Hc; intros [= <- <-]; [right|by left].
  apply find_task_Some in Hf as (Hin & Ht & Hid). rewrite Hp in Hin.
  apply elem_of_map_to_list in Hin. exists id, j, i, t, t'. subst tid'. eauto 10.
Qed.

Lemma Heartbeat_in_inv entries ctx tid aid w now m r m' :
  entries ≡ₚ map_to_list (byID m) →
  Heartbeat_in entries ctx tid aid w now m = (r, m') →
  m' = m ∨
  ∃ id j i t t', byID m !! id = Some j ∧ J_Tasks j !! i = Some t ∧
    (∃ a, normalizeID aid = Some a ∧ applyHeartbeat t a w now = Ok t') ∧
    m' = set_byID m (<[id := heartbeat_job j i t']> (byID m)).
Proof.
  intros Hp. unfold Heartbeat_in. destruct ctx; [intros [= <- <-]; by left|].
  destruct (normalizeID tid) as [tid'|] eqn:Htid; [|intros [= <- <-]; by left].
  destruct (normalizeID aid) as [aid'|] eqn:Haid; [|intros [= <- <-]; by left].
  destruct (find_task tid' entries) as [[[[id j] i] t]|] eqn:Hf; [|intros [= <- <-]; by left].
  destruct (applyHeartbeat t aid' w now) as [t'|e] eqn:Hc; intros [= <- <-]; [right|by left].
  apply find_task_Some in Hf as (Hin & Ht & _). rewrite Hp in Hin.
  apply elem_of_map_to_list in Hin. eauto 15.
Qed.

(** The result of an operation on a good store: still good, and its jobs have
    changed in place. *)
Definition safe_op (m m' : Memory) : Prop := store_ok m' ∧ in_place m m'.

Lemma Commit_safe entries ctx tid aid res fail m r m' :
  store_ok m → entries ≡ₚ map_to_list (byID m) →
  Commit_in entries ctx tid aid res fail m = (r, m') → safe_op m m'.
Proof.
  intros Hok Hp [->|(id & j & i & t & t' & Hj & Ht & (a & _ & Hc) & _ & _ & ->)]%Commit_in_inv;
    [by split; [|apply in_place_refl]| |done].
  pose proof (commit_keeps j i t _ _ _ _ Ht Hc (sj_ok _ _ (so_jobs m Hok _ _ Hj))) as Hk.
  split; [|by eapply in_place_insert].
  eapply insert_ok; [done..|by eapply commit_shrinks].
Qed.

Lemma Heartbeat_safe entries ctx tid aid w now m r m' :
  store_ok m → entries ≡ₚ map_to_list (byID m) →
  Heartbeat_in entries ctx tid aid w now m = (r, m') → safe_op m m'.
Proof.
  intros Hok Hp [->|(id & j & i & t & t' & Hj & Ht & (a & _ & Hc) & ->)]%Heartbeat_in_inv;
    [by split; [|apply in_place_refl]| |done].
  pose proof (heartbeat_keeps j i t _ _ _ _ Ht Hc (sj_ok _ _ (so_jobs m Hok _ _ Hj))) as Hk.
  split; [|by eapply in_place_insert].
  eapply insert_ok; [done..|by eapply heartbeat_shrinks].
Qed.

Lemma Cancel_safe ctx id m r m' : store_ok m → Cancel ctx id m = (r, m') → safe_op m m'.
Proof.
  intros Hok. unfold Cancel.
  assert (safe_op m m) by (by split; [|apply in_place_refl]).
  destruct ctx; [by intros [= <- <-]|]. destruct (normalizeID id) as [id'|]; [|by intros [= <- <-]].
  destruct (byID m !! id') as [j|] eqn:Hj; [|by intros [= <- <-]]. intros [= <- <-].
  pose proof (cancel_keeps j (sj_ok _ _ (so_jobs m Hok _ _ Hj))) as Hk.
  split; [|by eapply in_place_insert]. eapply insert_ok; [done..|apply cancel_shrinks].
Qed.

Lemma RequeueExpired_safe ctx now m r m' :
  store_ok m → RequeueExpired ctx now m = (r, m') → safe_op m m'.
Proof.
  intros Hok. unfold RequeueExpired. destruct ctx.
  - intros [= <- <-]. by split; [|apply in_place_refl].
  - intros [= <- <-]. split; [by apply (requeue_ok m now)|by apply (in_place_requeue m now)].
Qed.


(** *** Leasing *)

Lemma jobs_of_insert m ji id j' :
  store_ok m → order m !! ji = Some id →
  jobs_of (set_byID m (<[id := j']> (byID m))) = <[ji := j']> (jobs_of m).
Proof.
  intros Hok Hji. unfold jobs_of. cbn [order set_byID byID]. apply list_eq. intros k.
  destruct (decide (ji = k)) as [<-|Hne].
  - rewrite list_lookup_insert_eq.
    + rewrite list_lookup_fmap, Hji. simpl. by rewrite lookup_insert_eq.
    + rewrite length_fmap. by eapply lookup_lt_Some.
  - rewrite list_lookup_insert_ne by done. rewrite !list_lookup_fmap.
    destruct (order m !! k) as [id'|] eqn:Hk; [|done]. simpl.
    rewrite lookup_insert_ne; [done|]. intros <-. apply Hne.
    by eapply NoDup_lookup; [apply (so_nodup m Hok)|..].
Qed.

(** What a successful [Lease] did: expired leases were requeued first, the
    worker had a free slot, and the chosen task is the first ready one of the
    best job. *)
Record leases (v : N) (w : Worker) (now : Z) (m : Memory) (l : jobs.Lease) (m' : Memory) : Prop := {
  le_worker : TrimSpace (W_ID w) ≠ "";
  le_slot : (countLeased (jobs_of (requeueExpiredLocked m now).1) (W_ID w) < worker_slots w)%Z;
  le_choice : ∃ want ji ti n j t,
    wanted w = Ok want ∧
    best_of (jobs_of (requeueExpiredLocked m now).1) want (quota m)
      (length (jobs_of (requeueExpiredLocked m now).1)) (Some (ji, ti, n)) ∧
    jobs_of (requeueExpiredLocked m now).1 !! ji = Some j ∧
    J_Tasks j !! ti = Some t ∧ ready_task t = true ∧
    let t' := lease_task t (newID v) (W_ID w) now in
    let j' := lease_job j ti t' in
    l = MkLease j' t' (T_N t') (T_Fence t') (T_AttemptID t') ∧
    m' = set_byID (requeueExpiredLocked m now).1
           (<[J_ID j := j']> (byID (requeueExpiredLocked m now).1));
}.

Lemma Lease_inv ctx v w now m r m' :
  Lease ctx v w now m = (r, m') →
  (∃ err, r = Err err ∧ (m' = m ∨ m' = (requeueExpiredLocked m now).1)) ∨
  ∃ l, r = Ok l ∧ leases v w now m l m'.
Proof.
  unfold Lease. destruct ctx; [intros [= <- <-]; eauto 10|].
  destruct (worker_id w) as [wid|err] eqn:Hw; [|intros [= <- <-]; eauto 10].
  unfold worker_id in Hw. apply rbind_ok in Hw as ([] & Hw & [= <-]).
  apply guard_err_ok, bool_decide_eq_false in Hw.
  set (m1 := (requeueExpiredLocked m now).1).
  destruct (Z.leb_spec (worker_slots w) (countLeased (jobs_of m1) (W_ID w))) as [|Hslot];
    [intros [= <- <-]; eauto 10|].
  destruct (wanted w) as [want|err] eqn:Hwant; [|intros [= <- <-]; eauto 10].
  unfold pickReady. pose proof (pickReady_best (jobs_of m1) want (quota m1)) as Hb.
  destruct (pick_loop _ _ _ _ _ _) as [[[ji ti] n]|]; [|intros [= <- <-]; eauto 10].
  cbn [fmap option_fmap option_map fst].
  pose proof Hb as (_ & _ & (j & Hj & Hf) & _). rewrite Hj. cbn [default].
  apply first_ready_Some in Hf as (k & t & -> & Ht & Hr & _). cbn [Nat.add].
  change (id j) with j. rewrite Ht. intros [= <- <-]. right. eexists. split; [done|].
  split; [done|done|]. exists want, ji, k, n, j, t. done.
Qed.

Lemma Lease_safe ctx v w now m r m' :
  store_ok m → Lease ctx v w now m = (r, m') → safe_op m m'.
Proof.
  intros Hok [(err & _ & [-> | ->])|(l & _ & Hl)]%Lease_inv.
  - by split; [|apply in_place_refl].
  - by split; [apply requeue_ok|apply in_place_requeue].
  - destruct Hl as [Hw Hslot (want & ji & ti & n & j & t & _ & Hb & Hj & Ht & Hr & _ & ->)].
    pose proof (requeue_ok m now Hok) as Hok1. pose proof (in_place_requeue m now Hok) as Hip.
    set (m1 := (requeueExpiredLocked m now).1) in *.
    destruct (jobs_of_lookup m1 ji j Hok1 Hj) as (Hji & Hbj & Hst).
    destruct Hb as (_ & (j0 & Hj0 & He & _) & _). rewrite Hj in Hj0. injection Hj0 as <-.
    unfold eligible in He. apply andb_true_iff in He as [[_ Hc]%andb_true_iff Hq].
    apply negb_true_iff, orb_false_iff in Hc as [Hc _]. apply Z.ltb_lt in Hq.
    assert (kept j (lease_job j ti (lease_task t (newID v) (W_ID w) now))) as Hk
      by (apply lease_keeps; [done..|apply Hst]).
    pose proof (in_place_insert m1 (J_ID j) j _ Hok1 Hbj Hk) as Hip1.
    destruct (lease_loads j ti t (newID v) (W_ID w) now Ht Hr) as [Hlw Hll].
    split; [apply (in_place_ok m1 _ Hok1 Hip1)|].
    + intros w'. rewrite (jobs_of_insert m1 ji) by done.
      pose proof (so_slots m1 Hok1 w') as Hs. rewrite countLeased_total in *.
      rewrite (total_insert _ _ _ _ _ Hj), Hlw. case_bool_decide as Hww; [subst w'|lia].
      assert (worker_slots w ≤ MaxSlots)%Z.
      { unfold worker_slots. repeat case_match; go_inv; unfold DefaultSlots, MaxSlots in *; lia. }
      lia.
    + intros s. rewrite (jobs_of_insert m1 ji) by done.
      pose proof (so_leased m1 Hok1 s) as Hs. rewrite leased_in_total in *.
      rewrite (total_insert _ _ _ _ _ Hj). cbn [lease_job set_tasks J_Service] in *.
      case_bool_decide as Hss; [subst s|lia]. rewrite Hll.
      change (quota m1) with (quota m) in *. lia.
    + by eapply in_place_trans.
Qed.


(** *** Creating *)

(** The identifier a new job is given is fresh: its first twelve digits, which
    prefix the identifiers of its tasks, are those of no stored job. *)
Definition fresh (m : Memory) (id : string) : Prop :=
  ∀ id', id' ∈ order m → str_take 12 id' ≠ str_take 12 id.

Lemma Create_inv e opts m r m' :
  Create e opts m = (r, m') →
  (∃ err, r = Err err ∧ (m' = m ∨ m' = (requeueExpiredLocked m (Ce_expire e)).1)) ∨
  ∃ j, r = Ok j ∧ buildJob (Ce_rand e) (Ce_validate e) (Ce_build e) opts = Ok j ∧
    let m1 := (requeueExpiredLocked m (Ce_expire e)).1 in
    gatewayBusy (jobs_of m1) j = false ∧ overActive (jobs_of m1) j (quota m1) = false ∧
    m' = MkMemory (<[J_ID j := j]> (byID m1)) (order m1 ++ [J_ID j]) (quota m1).
Proof.
  unfold Create. destruct (Ce_ctx e); [intros [= <- <-]; eauto 10|].
  destruct (buildJob _ _ _ _) as [j|err]; [|intros [= <- <-]; eauto 10].
  set (m1 := (requeueExpiredLocked m (Ce_expire e)).1).
  destruct (gatewayBusy _ _) eqn:Hg; [intros [= <- <-]; eauto 10|].
  destruct (overActive _ _ _) eqn:Ho; [intros [= <- <-]; eauto 10|].
  intros [= <- <-]. right. eexists. done.
Qed.

Lemma jobs_of_snoc m j :
  J_ID j ∉ order m →
  jobs_of (MkMemory (<[J_ID j := j]> (byID m)) (order m ++ [J_ID j]) (quota m)) = jobs_of m ++ [j].
Proof.
  intros Hn. unfold jobs_of. simpl. rewrite fmap_app. simpl. rewrite lookup_insert_eq. f_equal.
  apply list_fmap_ext. intros i id Hi. rewrite lookup_insert_ne; [done|]. intros <-.
  by apply list_elem_of_lookup_2 in Hi.
Qed.

Lemma total_snoc {A} (f : A → Z) l x : total f (l ++ [x]) = (total f l + f x)%Z.
Proof. rewrite total_app. simpl. lia. Qed.

Lemma create_ok m v tv tb opts j :
  store_ok m → buildJob v tv tb opts = Ok j → fresh m (newID v) → (v < 2 ^ 64)%N →
  (N.of_nat (length (plan.DAG_Steps (Co_Plan opts))) ≤ 65536)%N →
  gatewayBusy (jobs_of m) j = false → overActive (jobs_of m) j (quota m) = false →
  store_ok (MkMemory (<[J_ID j := j]> (byID m)) (order m ++ [J_ID j]) (quota m)).
Proof.
  intros Hok Hb Hfr Hv Hsz Hg Ho.
  destruct (buildJob_inv _ _ _ _ _ Hb) as (_ & Hid & _ & _ & _ & _ & Hjok).
  pose proof (buildJob_unleased _ _ _ _ _ Hb) as Hun.
  pose proof (buildJob_keys _ _ _ _ _ Hb) as Hkeys.
  rewrite <- Hid in Hfr.
  assert (J_ID j ∉ order m) as Hni by (intros Hin; by apply (Hfr _ Hin)).
  assert (∀ u, u ∈ jobs_of m → J_ID u ≠ J_ID j) as Hne.
  { intros u Hu E. apply (jobs_of_elem m u Hok) in Hu. apply Hni, (so_order m Hok).
    rewrite <- E. eauto. }
  assert (stored (J_ID j) j) as Hst.
  { split; [done|done|rewrite Hid; apply newID_hex|by rewrite Hid, newID_length|].
    by rewrite (buildJob_size _ _ _ _ _ Hb). }
  split; cbn [byID order quota].
  - intros id u. destruct (decide (J_ID j = id)) as [<-|Hneq].
    + rewrite lookup_insert_eq. by intros [= <-].
    + rewrite lookup_insert_ne by done. apply (so_jobs m Hok).
  - apply NoDup_app. split; [apply (so_nodup m Hok)|]. split; [set_solver|apply NoDup_singleton].
  - intros id. rewrite elem_of_app, list_elem_of_singleton, (so_order m Hok).
    destruct (decide (J_ID j = id)) as [<-|Hneq].
    + rewrite lookup_insert_eq. naive_solver.
    + rewrite lookup_insert_ne by done. naive_solver.
  - intros id id'. rewrite !elem_of_app, !list_elem_of_singleton.
    intros [Hi|Hi] [Hi'|Hi'] Heq; subst; [by apply (so_prefix m Hok)| | |done].
    + by destruct (Hfr id Hi).
    + by destruct (Hfr id' Hi').
  - intros w. rewrite jobs_of_snoc by done. rewrite countLeased_total, total_snoc.
    rewrite (unleased_count _ _ (leased_by_state w) Hun).
    rewrite <- countLeased_total, Z.add_0_r. apply (so_slots m Hok).
  - intros s. rewrite jobs_of_snoc by done. rewrite leased_in_total, total_snoc.
    rewrite (unleased_count _ _ leased_task_state Hun).
    rewrite <- leased_in_total. pose proof (so_leased m Hok s). destruct (_ == _); lia.
  - intros s. rewrite jobs_of_snoc by done. unfold active_in. rewrite count_app, count_cons, count_nil.
    change (count (λ j, (J_Service j == s) && occupies j) (jobs_of m))
      with (active_in (jobs_of m) s).
    pose proof (so_active m Hok s) as Ha. destruct (_ && _) eqn:Hc; [|lia].
    apply andb_true_iff in Hc as [Hs%bool_decide_eq_true _]. subst s.
    unfold overActive in Ho. apply Z.leb_gt in Ho.
    enough (active_in (jobs_of m) (J_Service j) ≤ count (λ u, (J_ID u != J_ID j) &&
      (J_Service u == J_Service j) && occupies u) (jobs_of m))%Z by lia.
    apply count_le. intros u Hu [Hsu Hou]%andb_true_iff.
    rewrite Hsu, Hou, bool_decide_eq_false_2 by auto. done.
  - rewrite jobs_of_snoc by done. rewrite gatewayBusy_false in Hg.
    intros u u' k. rewrite !elem_of_app, !list_elem_of_singleton.
    intros [Hu| ->] [Hu'| ->] Hou Hou' Hneq Hk Hk'.
    + by eapply (so_gateway m Hok u u').
    + destruct (decide (k = "")) as [->|]; [done|]. by eapply (Hg u k).
    + destruct (decide (k = "")) as [->|]; [done|]. by eapply (Hg u' k).
    + done.
Qed.

Lemma Create_safe e opts m r m' :
  store_ok m → fresh m (newID (Ce_rand e)) → (Ce_rand e < 2 ^ 64)%N →
  (N.of_nat (length (plan.DAG_Steps (Co_Plan opts))) ≤ 65536)%N →
  Create e opts m = (r, m') → store_ok m'.
Proof.
  intros Hok Hf Hv Hs [(err & _ & [-> | ->])|(j & _ & Hb & Hg & Ho & ->)]%Create_inv.
  - done.
  - by apply requeue_ok.
  - eapply create_ok; [by apply requeue_ok|done..].
Qed.

(** ** Executions *)

(** One operation of some caller. *)
Inductive step (m : Memory) : Memory → Prop :=
| step_create e opts r m' :
    fresh m (newID (Ce_rand e)) → (Ce_rand e < 2 ^ 64)%N →
    (N.of_nat (length (plan.DAG_Steps (Co_Plan opts))) ≤ 65536)%N →
    Create e opts m = (r, m') → step m m'
| step_lease ctx v w now r m' :
    (v < 2 ^ 64)%N → Lease ctx v w now m = (r, m') → step m m'
| step_heartbeat entries ctx tid aid w now r m' :
    entries ≡ₚ map_to_list (byID m) →
    Heartbeat_in entries ctx tid aid w now m = (r, m') → step m m'
| step_commit entries ctx tid aid res fail r m' :
    entries ≡ₚ map_to_list (byID m) →
    Commit_in entries ctx tid aid res fail m = (r, m') → step m m'
| step_requeue ctx now r m' : RequeueExpired ctx now m = (r, m') → step m m'
| step_cancel ctx id r m' : Cancel ctx id m = (r, m') → step m m'.

(** The states a store with the given quota can reach. *)
Definition reachable (q : Quota) (m : Memory) : Prop := rtc step (WithQuota q NewMemory) m.

Lemma step_ok m m' : store_ok m → step m m' → store_ok m'.
Proof.
  intros Hok [e opts r m1 ??? Hc|ctx v w now r m1 _ Hc|en ctx tid aid w now r m1 Hp Hc|
              en ctx tid aid res fail r m1 Hp Hc|ctx now r m1 Hc|ctx id r m1 Hc].
  - by eapply Create_safe.
  - by eapply Lease_safe.
  - by eapply Heartbeat_safe.
  - by eapply Commit_safe.
  - by eapply RequeueExpired_safe.
  - by eapply Cancel_safe.
Qed.

Lemma reachable_ok q m : reachable q m → store_ok m.
Proof.
  intros Hr. assert (store_ok (WithQuota q NewMemory)) as H0 by apply NewMemory_ok.
  revert H0. unfold reachable in Hr. induction Hr as [|m1 m2 m3 Hs _ IH]; [done|].
  intros Hok. by eapply IH, step_ok.
Qed.


(** ** Task identifiers are unique *)

Lemma stored_task_id id j i t :
  stored id j → J_Tasks j !! i = Some t → T_ID t = taskID id i ∧ (N.of_nat i < 65536)%N.
Proof.
  intros [Hid Hok _ _ Hsz] Ht. split.
  - pose proof (jp_static j (jo_pre j Hok)) as Hs. apply (f_equal (.!! i)) in Hs.
    rewrite !list_lookup_fmap, Ht, list_lookup_imap in Hs.
    destruct (plan.DAG_Steps (J_Plan j) !! i) as [s|]; [|done].
    simpl in Hs. unfold static in Hs. simplify_eq/=. done.
  - apply lookup_lt_Some in Ht. lia.
Qed.

Lemma task_ids_unique m id id' j j' i i' t t' :
  store_ok m → byID m !! id = Some j → byID m !! id' = Some j' →
  J_Tasks j !! i = Some t → J_Tasks j' !! i' = Some t' → T_ID t = T_ID t' → id = id' ∧ i = i'.
Proof.
  intros Hok Hj Hj' Ht Ht' Heq.
  pose proof (so_jobs m Hok _ _ Hj) as Hs. pose proof (so_jobs m Hok _ _ Hj') as Hs'.
  destruct (stored_task_id _ _ _ _ Hs Ht) as [E Hi].
  destruct (stored_task_id _ _ _ _ Hs' Ht') as [E' Hi']. rewrite E, E' in Heq.
  apply taskID_inj in Heq as [Hp ->]; [|apply Hs|apply Hs'|done|done]. split; [|done].
  apply (so_prefix m Hok); [apply (so_order m Hok); eauto..|done].
Qed.

(** So a search of the map finds the same task in every iteration order. *)
Lemma find_task_complete m entries id j i t :
  store_ok m → entries ≡ₚ map_to_list (byID m) →
  byID m !! id = Some j → J_Tasks j !! i = Some t →
  find_task (T_ID t) entries = Some (id, j, i, t).
Proof.
  intros Hok Hp Hj Ht.
  assert (∀ id' j', (id', j') ∈ entries → byID m !! id' = Some j') as Hin.
  { intros id' j'. rewrite Hp. apply elem_of_map_to_list. }
  assert ((id, j) ∈ entries) as Hmem by (rewrite Hp; by apply elem_of_map_to_list).
  clear Hp. induction entries as [|[id' j'] rest IH]; [by apply not_elem_of_nil in Hmem|].
  cbn [find_task]. destruct (list_find _ _) as [[i' t']|] eqn:Hf.
  - apply list_find_Some in Hf as (Ht' & Hid & _).
    assert (byID m !! id' = Some j') as Hj' by (apply Hin; left).
    destruct (task_ids_unique m id id' j j' i i' t t' Hok Hj Hj' Ht Ht' (eq_sym Hid)) as [-> ->].
    congruence.
  - apply list_find_None in Hf. apply elem_of_cons in Hmem as [[= <- <-]|Hmem].
    + rewrite Forall_lookup in Hf. by destruct (Hf i t Ht).
    + apply IH; [|done]. intros id'' j'' H''. apply Hin. by right.
Qed.

Lemma find_task_None m entries tid :
  entries ≡ₚ map_to_list (byID m) →
  find_task tid entries = None ↔
    ∀ id j t, byID m !! id = Some j → t ∈ J_Tasks j → T_ID t ≠ tid.
Proof.
  intros Hp. trans (∀ id j t, (id, j) ∈ entries → t ∈ J_Tasks j → T_ID t ≠ tid).
  - clear Hp. induction entries as [|[id j] rest IH]; cbn [find_task].
    { split; [|done]. intros _ id j t []%not_elem_of_nil. }
    destruct (list_find _ _) as [[i t]|] eqn:Hf.
    + split; [done|]. intros Hn. apply list_find_Some in Hf as (Ht & Hid & _).
      destruct (Hn id j t); [left|by eapply list_elem_of_lookup_2|done].
    + rewrite IH. apply list_find_None in Hf. rewrite Forall_forall in Hf.
      setoid_rewrite elem_of_cons. naive_solver.
  - setoid_rewrite Hp. by setoid_rewrite elem_of_map_to_list.
Qed.

Lemma find_task_order m entries tid :
  store_ok m → entries ≡ₚ map_to_list (byID m) →
  find_task tid entries = find_task tid (map_to_list (byID m)).
Proof.
  intros Hok Hp. destruct (find_task tid (map_to_list (byID m))) as [[[[id j] i] t]|] eqn:Hf.
  - apply find_task_Some in Hf as (Hin & Ht & <-). apply elem_of_map_to_list in Hin.
    by eapply find_task_complete.
  - apply (proj2 (find_task_None m _ tid Hp)). by apply (proj1 (find_task_None m _ tid (reflexivity _))).
Qed.

Lemma Commit_in_order m entries ctx tid aid res fail :
  store_ok m → entries ≡ₚ map_to_list (byID m) →
  Commit_in entries ctx tid aid res fail m = Commit ctx tid aid res fail m.
Proof.
  intros Hok Hp. unfold Commit, Commit_in. destruct ctx; [done|].
  destruct (normalizeID tid); [|done]. by rewrite (find_task_order m entries).
Qed.

Lemma Heartbeat_in_order m entries ctx tid aid w now :
  store_ok m → entries ≡ₚ map_to_list (byID m) →
  Heartbeat_in entries ctx tid aid w now m = Heartbeat ctx tid aid w now m.
Proof.
  intros Hok Hp. unfold Heartbeat, Heartbeat_in. destruct ctx; [done|].
  destruct (normalizeID tid); [|done]. by rewrite (find_task_order m entries).
Qed.

(** ** What one operation does to the jobs that were there *)

Lemma step_quota m m' : step m m' → quota m' = quota m.
Proof.
  intros [e opts r m1 ??? Hc|ctx v w now r m1 _ Hc|en ctx tid aid w now r m1 Hp Hc|
          en ctx tid aid res fail r m1 Hp Hc|ctx now r m1 Hc|ctx id r m1 Hc].
  - apply Create_inv in Hc as [(? & _ & [-> | ->])|(? & _ & _ & _ & _ & ->)]; done.
  - apply Lease_inv in Hc as [(? & _ & [-> | ->])|(l & _ & [_ _ Hl])]; [done..|].
    by destruct Hl as (? & ? & ? & ? & ? & ? & _ & _ & _ & _ & _ & _ & ->).
  - apply Heartbeat_in_inv in Hc as [->|(? & ? & ? & ? & ? & _ & _ & _ & ->)]; done.
  - apply Commit_in_inv in Hc as [->|(? & ? & ? & ? & ? & _ & _ & _ & _ & _ & ->)]; done.
  - unfold RequeueExpired in Hc. destruct ctx; by injection Hc as _ <-.
  - unfold Cancel in Hc. repeat case_match; by simplify_eq.
Qed.

Lemma reachable_quota q m : reachable q m → quota m = q.
Proof.
  intros Hr. assert (quota (WithQuota q NewMemory) = q) as H0 by done.
  revert H0. unfold reachable in Hr. induction Hr as [|m1 m2 m3 Hs _ IH]; [done|].
  intros Hq. apply IH. by rewrite (step_quota _ _ Hs).
Qed.

Lemma Create_jobs e opts m r m' id j :
  store_ok m → fresh m (newID (Ce_rand e)) → Create e opts m = (r, m') →
  byID m !! id = Some j → ∃ j', byID m' !! id = Some j' ∧ kept j j'.
Proof.
  intros Hok Hf Hc Hj. pose proof (in_place_requeue m (Ce_expire e) Hok) as Hip.
  apply Create_inv in Hc as [(err & _ & [-> | ->])|(u & _ & Hb & _ & _ & ->)].
  - by apply (in_place_refl m Hok).
  - by apply Hip.
  - destruct (ip_some _ _ Hip _ _ Hj) as (j' & Hj' & Hk). exists j'. split; [|done].
    cbn [byID]. rewrite lookup_insert_ne; [done|].
    apply buildJob_inv in Hb as (_ & -> & _). intros E. subst id.
    apply (Hf (newID (Ce_rand e))); [|done]. apply (so_order m Hok). eauto.
Qed.

Lemma step_jobs m m' id j :
  store_ok m → step m m' → byID m !! id = Some j →
  ∃ j', byID m' !! id = Some j' ∧ kept j j'.
Proof.
  intros Hok [e opts r m1 ??? Hc|ctx v w now r m1 _ Hc|en ctx tid aid w now r m1 Hp Hc|
              en ctx tid aid res fail r m1 Hp Hc|ctx now r m1 Hc|ctx id' r m1 Hc] Hj.
  - by eapply Create_jobs.
  - by apply (Lease_safe _ _ _ _ _ _ _ Hok Hc).
  - by apply (Heartbeat_safe _ _ _ _ _ _ _ _ _ Hok Hp Hc).
  - by apply (Commit_safe _ _ _ _ _ _ _ _ _ Hok Hp Hc).
  - by apply (RequeueExpired_safe _ _ _ _ _ Hok Hc).
  - by apply (Cancel_safe _ _ _ _ _ Hok Hc).
Qed.


(** ** The store's guarantees *)

(** C2: in every reachable state of the store, no worker holds more than
    [MaxSlots] leases, no service has more leased tasks or more unfinished jobs
    than its quota allows, and two unfinished jobs never share a gateway. *)
Theorem reachable_limits q m :
  reachable q m →
  (∀ w, countLeased (jobs_of m) w ≤ MaxSlots)%Z ∧
  (∀ s, leased_in (jobs_of m) s ≤ Q_LeasedTasks (normalized q))%Z ∧
  (∀ s, active_in (jobs_of m) s ≤ Q_ActiveJobs (normalized q))%Z ∧
  exclusive (jobs_of m).
Proof.
  intros Hr. pose proof (reachable_ok q m Hr) as [? ? ? ? Hs Hl Ha Hg].
  rewrite (reachable_quota q m Hr) in Hl, Ha. done.
Qed.

(** C5: a job created through the store declares its revisions, so no reachable
    state ever reports it validated: it always has at least one blocker. *)
Theorem reachable_never_validated q m id j :
  reachable q m → byID m !! id = Some j → J_Validated j = false ∧ J_Blockers j ≠ [].
Proof.
  intros Hr Hj. pose proof (so_jobs m (reachable_ok q m Hr) _ _ Hj) as [_ [] _ _ _]. done.
Qed.

(** C6: in every reachable state a task that is ready, leased or has succeeded
    has all its dependencies succeeded or skipped, and a pending task of a
    settled job waits for at least one that is not. *)
Theorem reachable_dependencies q m id j t :
  reachable q m → byID m !! id = Some j → t ∈ J_Tasks j →
  (active t → ∀ d, d ∈ T_DependsOn t →
     ∃ s, stateByPlan (J_Tasks j) !! d = Some s ∧ finished s) ∧
  (T_State t = StatePending → T_Operator t = false ∧
     ∃ d, d ∈ T_DependsOn t ∧ ¬ ∃ s, stateByPlan (J_Tasks j) !! d = Some s ∧ finished s).
Proof.
  intros Hr Hj Ht. pose proof (so_jobs m (reachable_ok q m Hr) _ _ Hj) as [_ Hok _ _ _]. split.
  - intros Ha. apply depsOK_iff. by apply (jp_deps j (jo_pre j Hok)).
  - intros Hp. destruct (proj1 (settled_iff _) (jo_settled j Hok) t Ht Hp) as [Ho Hd].
    split; [done|]. by apply depsOK_false.
Qed.

(** In every reachable state the recorded status of a job is the one its
    tasks determine, tasks keep one of the six states, hold a worker and an
    expiry only while leased, and operator tasks stay skipped. *)
Theorem reachable_coherent q m id j :
  reachable q m → byID m !! id = Some j →
  J_ID j = id ∧
  J_Status j = (if J_Canceled j then StatusCanceled else jobStatus (J_Tasks j)) ∧
  Forall task_ok (J_Tasks j) ∧
  static <$> J_Tasks j = static <$> imap (build_task id) (plan.DAG_Steps (J_Plan j)).
Proof.
  intros Hr Hj. pose proof (so_jobs m (reachable_ok q m Hr) _ _ Hj) as [<- Hok _ _ _].
  split; [done|]. split; [apply (jo_status j Hok)|].
  split; [apply (jp_tasks j (jo_pre j Hok))|apply (jp_static j (jo_pre j Hok))].
Qed.

Lemma steps_evolve m m' id j i t :
  store_ok m → rtc step m m' → byID m !! id = Some j → J_Tasks j !! i = Some t →
  ∃ j' t', byID m' !! id = Some j' ∧ J_Tasks j' !! i = Some t' ∧ evolves t t'.
Proof.
  intros Hok Hr. revert j t Hok. induction Hr as [m|m1 m2 m3 Hs _ IH]; intros j t Hok Hj Ht.
  { by exists j, t. }
  destruct (step_jobs m1 m2 id j Hok Hs Hj) as (j2 & Hj2 & [_ [_ _ Hev]]).
  destruct (Forall2_lookup_l _ _ _ _ _ Hev Ht) as (t2 & Ht2 & He).
  destruct (IH j2 t2) as (j3 & t3 & Hj3 & Ht3 & He3); [by eapply step_ok|done..|].
  exists j3, t3. split; [done|]. split; [done|]. by etrans.
Qed.

(** C3: once a task has succeeded, failed or been skipped, no later sequence of
    operations of any callers changes it: its result, error and attempt are
    final, so at most one commit of a task ever takes effect. *)
Theorem finished_is_final q m m' id j i t :
  reachable q m → rtc step m m' → byID m !! id = Some j → J_Tasks j !! i = Some t →
  terminal t → ∃ j', byID m' !! id = Some j' ∧ J_Tasks j' !! i = Some t.
Proof.
  intros Hr Hs Hj Ht Hte.
  destruct (steps_evolve m m' id j i t (reachable_ok q m Hr) Hs Hj Ht) as (j' & t' & Hj' & Ht' & He).
  rewrite (ev_terminal _ _ He Hte) in Ht'. eauto.
Qed.

(** C7: a successful [Lease] gives the caller a task that was ready, is not an
    operator task and has its dependencies finished, of a job that is not
    canceled; the worker had a free slot and the service was below its cap; no
    eligible job has a service with fewer leased tasks, nor one with as few
    that was created earlier; the fence goes up by one. *)
Theorem Lease_grants q m ctx v w now l m' :
  reachable q m → Lease ctx v w now m = (Ok l, m') →
  let all := jobs_of (requeueExpiredLocked m now).1 in
  (countLeased all (W_ID w) < worker_slots w)%Z ∧
  ∃ want ji ti j t,
    wanted w = Ok want ∧ all !! ji = Some j ∧ J_Tasks j !! ti = Some t ∧
    ready_task t = true ∧ depsOK t (stateByPlan (J_Tasks j)) = true ∧
    eligible all want q j = true ∧
    (∀ ji' n', candidate all want q ji' n' →
       leased_in all (J_Service j) < n' ∨
       leased_in all (J_Service j) = n' ∧ (ji ≤ ji')%nat)%Z ∧
    L_Task l = lease_task t (newID v) (W_ID w) now ∧
    L_Fence l = int64 (T_Fence t + 1) ∧ L_Attempt l = newID v.
Proof.
  intros Hr [(err & [=] & _)|(l' & [= <-] & [_ Hsl Hch])]%Lease_inv. intros all.
  split; [done|]. destruct Hch as (want & ji & ti & n & j & t & Hw & Hb & Hj & Ht & Hrt & -> & _).
  rewrite (reachable_quota q m Hr) in Hb. fold all in Hb, Hj.
  destruct Hb as (_ & (j0 & Hj0 & He & _ & ->) & _ & Hmin). rewrite Hj in Hj0. injection Hj0 as <-.
  destruct (jobs_of_lookup _ ji j (requeue_ok m now (reachable_ok q m Hr)) Hj) as (_ & _ & Hst).
  exists want, ji, ti, j, t. split; [done|]. split; [done|]. split; [done|]. split; [done|].
  split.
  { apply (jp_deps j (jo_pre j (sj_ok _ _ Hst))); [by eapply list_elem_of_lookup_2|].
    apply active_inv. unfold ready_task in Hrt. go_inv. auto. }
  split; [done|]. split; [|done]. intros ji' n' Hca. apply (Hmin ji' n'); [|done].
  destruct Hca as (j' & Hj' & _). by eapply lookup_lt_Some.
Qed.


(** When no task can be given, [Lease] says so: [ErrNoReady] means that no
    eligible job has a ready task, after expired leases have been requeued. *)
Theorem Lease_no_ready q m ctx v w now m' :
  reachable q m → Lease ctx v w now m = (Err ErrNoReady, m') →
  ∃ want, wanted w = Ok want ∧ m' = (requeueExpiredLocked m now).1 ∧
    ∀ j t, j ∈ jobs_of m' → eligible (jobs_of m') want q j = true → t ∈ J_Tasks j →
      ready_task t = false.
Proof.
  intros Hr. unfold Lease. destruct ctx; [done|].
  destruct (worker_id w) as [wid|err] eqn:Hw; [|unfold worker_id in Hw; by destruct (_ == _);
    simplify_eq/=].
  destruct (worker_slots w <=? _)%Z; [done|].
  destruct (wanted w) as [want|err] eqn:Hwant; [|unfold wanted in Hwant; by repeat case_match;
    simplify_eq/=].
  set (m1 := (requeueExpiredLocked m now).1). unfold pickReady.
  pose proof (pickReady_best (jobs_of m1) want (quota m1)) as Hb.
  destruct (pick_loop _ _ _ _ _ _) as [[[ji ti] n]|]; cbn [fmap option_fmap option_map fst].
  - destruct Hb as (_ & _ & (j & Hj & Hf) & _). rewrite Hj. cbn [default]. change (id j) with j.
    apply first_ready_Some in Hf as (k & t & -> & Ht & _). cbn [Nat.add]. by rewrite Ht.
  - intros [= <-]. exists want. split; [done|]. split; [done|]. intros j t Hj He Ht.
    apply not_true_is_false. intros Hrt. apply list_elem_of_lookup in Hj as [ji Hji].
    change (quota m1) with (quota m) in Hb. rewrite (reachable_quota q m Hr) in Hb.
    apply (Hb ji (leased_in (jobs_of m1) (J_Service j))); [by eapply lookup_lt_Some|].
    exists j. eauto 10.
Qed.

Lemma commit_job_task j i t' :
  T_State t' ≠ StatePending → (i < length (J_Tasks j))%nat →
  J_Tasks (commit_job j i t') !! i = Some t'.
Proof.
  intros Hp Hi. unfold commit_job. rewrite refreshJob_tasks. cbn [set_tasks J_Tasks].
  assert (<[i := t']> (J_Tasks j) !! i = Some t') as Hl by (by apply list_lookup_insert_eq).
  destruct (Forall2_lookup_l _ _ _ _ _ (settle_nonpending (<[i := t']> (J_Tasks j))) Hl)
    as (t'' & Ht'' & Hk). rewrite Ht''. f_equal. by apply Hk.
Qed.

(** The commit of a leased task, found by its own identifiers. *)
Lemma Commit_leased m id j i t v res fail :
  store_ok m → byID m !! id = Some j → J_Tasks j !! i = Some t →
  T_State t = StateLeased → T_AttemptID t = newID v → (v < 2 ^ 64)%N →
  plan.SR_Verdict res ≠ "pass" → plan.SR_Verdict res ≠ "validated" →
  let t' := task_upd t (if fail == "" then StateSucceeded else StateFailed)
              (newID v) (T_Fence t) 0 "" res fail in
  Commit None (T_ID t) (T_AttemptID t) res fail m =
    (Ok t', set_byID m (<[id := commit_job j i t']> (byID m))).
Proof.
  intros Hok Hj Ht Hl Ha Hv Hp1 Hp2 t'. pose proof (so_jobs m Hok _ _ Hj) as Hst.
  destruct (stored_task_id _ _ _ _ Hst Ht) as [Htid Hsz]. unfold Commit, Commit_in.
  rewrite Htid at 1. rewrite normalizeID_taskID by (apply Hst || done). rewrite <- Htid.
  rewrite Ha, normalizeID_newID by done.
  rewrite (find_task_complete m _ id j i t Hok (reflexivity _) Hj Ht).
  assert (applyCommit t (newID v) res fail = Ok t') as ->.
  { unfold applyCommit. rewrite Hl, Ha, !bool_decide_eq_true_2 by done. cbn [negb guard_err rbind].
    unfold t'. case_bool_decide as Hf; [subst fail|done]. cbn [negb].
    by rewrite !bool_decide_eq_false_2. }
  rewrite commit_job_task; [done| |by eapply lookup_lt_Some].
  unfold t'. simpl. by case_bool_decide.
Qed.

(** A worker that commits the lease it was just given is heard: the commit
    succeeds, and the stored task carries its result and is finished. *)
Theorem Lease_then_Commit q m ctx v w now l m' res fail :
  reachable q m → (v < 2 ^ 64)%N → Lease ctx v w now m = (Ok l, m') →
  plan.SR_Verdict res ≠ "pass" → plan.SR_Verdict res ≠ "validated" →
  ∃ t' m'', Commit None (T_ID (L_Task l)) (L_Attempt l) res fail m' = (Ok t', m'') ∧
    T_ID t' = T_ID (L_Task l) ∧ T_Result t' = res ∧ T_Err t' = fail ∧
    T_State t' = (if fail == "" then StateSucceeded else StateFailed) ∧
    ∃ id j, byID m'' !! id = Some j ∧ t' ∈ J_Tasks j.
Proof.
  intros Hr Hv Hl Hp1 Hp2. pose proof (reachable_ok q m Hr) as Hok.
  destruct (Lease_safe _ _ _ _ _ _ _ Hok Hl) as [Hok' _].
  apply Lease_inv in Hl as [(err & [=] & _)|(l' & [= <-] & [_ _ Hch])].
  destruct Hch as (want & ji & ti & n & j & t & _ & _ & Hj & Ht & _ & -> & Hm').
  set (t' := lease_task t (newID v) (W_ID w) now) in *. set (j' := lease_job j ti t') in *.
  cbn [L_Task L_Attempt]. pose proof (lookup_lt_Some _ _ _ Ht) as Hlt.
  assert (byID m' !! J_ID j = Some j') as Hj' by (rewrite Hm'; apply lookup_insert_eq).
  assert (J_Tasks j' !! ti = Some t') as Ht' by (by apply list_lookup_insert_eq).
  rewrite (Commit_leased m' _ _ _ _ v res fail Hok' Hj' Ht') by done.
  do 2 eexists. split; [done|]. do 4 (split; [done|]).
  exists (J_ID j). eexists. split; [apply lookup_insert_eq|].
  eapply list_elem_of_lookup_2, commit_job_task; [simpl; by case_bool_decide|].
  by eapply lookup_lt_Some.
Qed.

(** [Commit] takes effect only for the attempt that holds the lease: the
    task was leased under exactly that attempt, and a success cannot be recorded
    with the verdict pass or validated. In every other case the store is
    unchanged. *)
Theorem Commit_needs_lease q m ctx tid aid res fail r m' :
  reachable q m → Commit ctx tid aid res fail m = (r, m') →
  m' = m ∨
  ∃ id j i t, byID m !! id = Some j ∧ J_Tasks j !! i = Some t ∧
    normalizeID tid = Some (T_ID t) ∧ normalizeID aid = Some (T_AttemptID t) ∧
    T_State t = StateLeased ∧
    (fail = "" → plan.SR_Verdict res ≠ "pass" ∧ plan.SR_Verdict res ≠ "validated") ∧
    (∀ id', id' ≠ id → byID m' !! id' = byID m !! id').
Proof.
  intros Hr [->|(id & j & i & t & t' & Hj & Ht & (a & Ha & Hc) & Htid & _ & ->)]%Commit_in_inv;
    [by left|right|done].
  apply applyCommit_inv in Hc as (Hl & <- & _ & Hv). exists id, j, i, t.
  do 6 (split; [done|]). intros id' Hne. by apply lookup_insert_ne.
Qed.

(** The result of [Commit] and [Heartbeat] does not depend on the order in
    which Go ranges over the map of jobs. *)
Theorem range_order_irrelevant q m entries ctx tid aid res fail w now :
  reachable q m → entries ≡ₚ map_to_list (byID m) →
  Commit_in entries ctx tid aid res fail m = Commit ctx tid aid res fail m ∧
  Heartbeat_in entries ctx tid aid w now m = Heartbeat ctx tid aid w now m.
Proof.
  intros Hr Hp. apply reachable_ok in Hr.
  split; [by apply Commit_in_order|by apply Heartbeat_in_order].
Qed.


(** ** Cancellation, expiry, creation and listing *)

Lemma ended_occupies j : job_ok j → ended j = negb (occupies j).
Proof.
  intros Hok. pose proof (jo_status j Hok) as Hs. unfold ended, occupies. rewrite Hs.
  destruct (J_Canceled j); [done|]. unfold jobStatus. by repeat case_match.
Qed.

Lemma set_byID_same m : set_byID m (byID m) = m.
Proof. by destruct m. Qed.

Lemma applyCancel_live j :
  job_ok j → ended j = false →
  J_Canceled (applyCancel j) = true ∧ J_Status (applyCancel j) = StatusCanceled ∧
  J_Tasks (applyCancel j) = cancel_task <$> J_Tasks j.
Proof.
  intros Hok He. unfold applyCancel. rewrite He. split; [done|]. split; [done|].
  rewrite refreshJob_tasks. cbn [J_Tasks]. apply settle_not_pending.
  apply Forall_fmap, Forall_forall. intros t _. simpl. unfold cancel_task.
  repeat case_bool_decide; cbn [orb]; by split.
Qed.

Lemma applyCancel_ended j : job_ok j → ended (applyCancel j) = true.
Proof.
  intros Hok. destruct (ended j) eqn:He.
  - unfold applyCancel. by rewrite He.
  - unfold ended. by destruct (applyCancel_live j Hok He) as [-> _].
Qed.

(** [Cancel] leaves a finished job alone; a job it cancels becomes canceled,
    its waiting tasks are skipped while leased tasks keep running, and canceling
    again changes nothing. *)
Theorem Cancel_effect q m id j' m' :
  reachable q m → Cancel None id m = (Ok j', m') →
  ∃ key j, normalizeID id = Some key ∧ byID m !! key = Some j ∧ byID m' !! key = Some j' ∧
    (ended j = true → j' = j) ∧
    (ended j = false → J_Canceled j' = true ∧ J_Status j' = StatusCanceled ∧
       J_Tasks j' = cancel_task <$> J_Tasks j ∧
       ∀ t, t ∈ J_Tasks j' → T_State t ≠ StatePending ∧ T_State t ≠ StateReady) ∧
    Cancel None id m' = (Ok j', m').
Proof.
  intros Hr. apply reachable_ok in Hr. unfold Cancel.
  destruct (normalizeID id) as [key|]; [|done].
  destruct (byID m !! key) as [j|] eqn:Hj; [|done]. intros [= <- <-]. exists key, j.
  pose proof (sj_ok _ _ (so_jobs m Hr _ _ Hj)) as Hok.
  split; [done|]. split; [done|]. cbn [byID set_byID]. rewrite lookup_insert_eq. split; [done|].
  split; [|split].
  - intros He. unfold applyCancel. by rewrite He.
  - intros He. destruct (applyCancel_live j Hok He) as (Hc & Hs & Ht).
    split; [done|]. split; [done|]. split; [done|].
    pose proof (cancel_keeps j Hok) as [Hok' _].
    pose proof (jp_canceled _ (jo_pre _ Hok') Hc) as Hf. by rewrite Forall_forall in Hf.
  - assert (applyCancel (applyCancel j) = applyCancel j) as ->.
    { unfold applyCancel at 1. by rewrite applyCancel_ended. }
    by rewrite insert_insert_eq.
Qed.

Lemma settle_leased ts t :
  t ∈ settle ts → T_State t = StateLeased → t ∈ ts.
Proof.
  intros Ht Hl. apply list_elem_of_lookup in Ht as [i Hi].
  destruct (Forall2_lookup_r _ _ _ _ _ (settle_shrinks ts) Hi) as (u & Hu & Hs).
  destruct (Forall2_lookup_r _ _ _ _ _ (settle_nonpending ts) Hi) as (u' & Hu' & Hn).
  rewrite Hu in Hu'. injection Hu' as <-. destruct (Hs Hl) as [Hul _].
  rewrite Hn by (rewrite Hul; done). by eapply list_elem_of_lookup_2.
Qed.

Lemma requeue_leased t now c :
  T_State (requeue t now c).1 = StateLeased →
  (requeue t now c).1 = t ∧ (T_LeaseUntil t = 0 ∨ now ≤ T_LeaseUntil t)%Z.
Proof.
  unfold requeue. case_bool_decide as Hl; cbn [negb].
  - destruct ((T_LeaseUntil t =? 0)%Z || negb (T_LeaseUntil t <? now)%Z) eqn:E.
    + intros _. split; [done|]. apply orb_true_iff in E as [E|E]; [left|right]; go_inv; lia.
    + destruct c; done.
  - intros. done.
Qed.

Lemma expire_leased j now t :
  t ∈ J_Tasks (expire_job j now).1 → T_State t = StateLeased →
  (T_LeaseUntil t = 0 ∨ now ≤ T_LeaseUntil t)%Z.
Proof.
  unfold expire_job. destruct (failDeadline j now) as [j'|] eqn:Hf.
  - unfold failDeadline in Hf. repeat case_match; simplify_eq. simpl.
    intros (u & -> & _)%list_elem_of_fmap Hl. destruct (deadline_task_not_live u).
    rewrite Hl. compute_done.
  - destruct (Z.ltb_spec 0 (count snd ((λ t, requeue t now (J_Canceled j)) <$> J_Tasks j)));
      cbn [fst].
    + intros Ht Hl. apply settle_leased in Ht; [|done].
      cbn [set_tasks J_Tasks] in Ht. rewrite <- list_fmap_compose in Ht.
      apply list_elem_of_fmap in Ht as (u & -> & _). unfold compose in *.
      apply requeue_leased in Hl as [-> ?]. done.
    + intros Ht Hl. assert ((requeue t now (J_Canceled j)).2 = false) as Hq.
      { apply not_true_is_false. intros Hq.
        assert (0 < count snd ((λ t, requeue t now (J_Canceled j)) <$> J_Tasks j))%Z; [|lia].
        apply count_pos. exists (requeue t now (J_Canceled j)).
        split; [apply list_elem_of_fmap; eauto|done]. }
      apply (requeue_leased t now (J_Canceled j)). revert Hq. unfold requeue.
      rewrite Hl, bool_decide_eq_true_2 by done. cbn [negb].
      destruct (_ || _); [done|]. by destruct (J_Canceled j).
Qed.

Lemma expire_deadline j now d :
  job_ok j → job_deadline j = Some d → (d < now)%Z → ended (expire_job j now).1 = true.
Proof.
  intros Hok Hd Hlt. destruct (expire_keeps j now Hok) as [Hok' Hev].
  rewrite ended_occupies by done. apply negb_true_iff, not_true_is_false. intros Ho'.
  pose proof (occupies_mono _ _ Hok Hok' Hev Ho') as Ho.
  assert (ended j = false) as He by (by rewrite ended_occupies, Ho).
  revert Ho'. unfold expire_job, failDeadline. rewrite Hd, He.
  by rewrite (proj2 (Z.ltb_lt d now) Hlt).
Qed.

(** C32: after the reaper has run at time [now], no task is held by a lease that
    ran out before [now], and every job whose deadline has passed has ended. *)
Theorem RequeueExpired_complete q m now id j :
  reachable q m → byID (RequeueExpired None now m).2 !! id = Some j →
  (∀ t, t ∈ J_Tasks j → T_State t = StateLeased →
     T_LeaseUntil t = 0 ∨ now ≤ T_LeaseUntil t)%Z ∧
  (∀ d, job_deadline j = Some d → (d < now)%Z → ended j = true).
Proof.
  intros Hr. apply reachable_ok in Hr. simpl. rewrite lookup_fmap. intros Hj.
  destruct (byID m !! id) as [u|] eqn:Hu; [|done]. injection Hj as <-.
  pose proof (sj_ok _ _ (so_jobs m Hr _ _ Hu)) as Hok.
  split; [intros t; apply expire_leased|]. intros d Hd. apply expire_deadline; [done|].
  destruct (expire_keeps u now Hok) as [_ [Hs _ _]]. revert Hd. unfold job_deadline.
  unfold job_static in Hs. injection Hs as _ _ _ -> _ _ _ -> _ _ _ _. done.
Qed.

(** A created job can be read back under its identifier, and it comes last
    in creation order; the jobs before it are the ones there were. *)
Theorem Create_then_Get q m e opts j m' :
  reachable q m → (Ce_rand e < 2 ^ 64)%N → fresh m (newID (Ce_rand e)) →
  Create e opts m = (Ok j, m') →
  Get None (J_ID j) m' = Ok j ∧
  jobs_of m' = jobs_of (requeueExpiredLocked m (Ce_expire e)).1 ++ [j] ∧
  J_Status j ∈ [StatusPending; StatusRunning; StatusComplete; StatusFailed].
Proof.
  intros Hr Hv Hf [(err & [=] & _)|(u & [= <-] & Hb & _ & _ & ->)]%Create_inv.
  destruct (buildJob_inv _ _ _ _ _ Hb) as (_ & Hid & _ & _ & _ & _ & Hok). split.
  - unfold Get. rewrite Hid, normalizeID_newID by done. cbn [byID]. rewrite <- Hid.
    by rewrite lookup_insert_eq.
  - split; [apply jobs_of_snoc; rewrite Hid; intros Hin; by apply (Hf _ Hin)|].
    rewrite (jo_status j Hok). unfold buildJob in Hb. apply rbind_ok in Hb as ([] & _ & [= <-]).
    cbn [refreshJob job_upd set_tasks J_Canceled]. unfold jobStatus.
    repeat case_match; compute_done.
Qed.

(** [List] gives the newest jobs of the service first, ties by identifier,
    at most as many as the clipped limit. *)
Theorem List_newest ctx limit service m out :
  List ctx limit service m = Ok out →
  ∃ full, full ≡ₚ filter (λ j, ¬ (clipService service ≠ "" ∧ J_Service j ≠ clipService service))
                    (jobs_of m) ∧
    StronglySorted (λ j j', cmp_newest j j' ≠ Gt) full ∧
    out = take (Z.to_nat (clipLimit limit)) full ∧ (1 ≤ clipLimit limit ≤ MaxList)%Z.
Proof.
  unfold List. destruct ctx; [done|]. intros [= <-]. eexists. split; [apply sort_cmp_perm|].
  split; [apply sort_cmp_sorted; unfold cmp_newest; apply _|]. split; [done|].
  unfold clipLimit, DefaultList, MaxList. repeat case_match; go_inv; lia.
Qed.

(** The reaper loop only makes store operations, and when its last tick went
    through, no lease that ran out before that tick is still held. *)
Theorem Loop_reaps q m start ticks now :
  reachable q m →
  ∃ m', Loop (Some m) start (ticks ++ [(None, now)]) = Some m' ∧ reachable q m' ∧
    ∀ id j t, byID m' !! id = Some j → t ∈ J_Tasks j → T_State t = StateLeased →
      (T_LeaseUntil t = 0 ∨ now ≤ T_LeaseUntil t)%Z.
Proof.
  intros Hr. unfold Loop. rewrite app_comm_cons, foldl_app. generalize (start :: ticks). clear start ticks.
  intros ticks. assert (∃ m1, foldl (λ st tick, (Reap tick.1 st tick.2).2) (Some m) ticks = Some m1 ∧
    reachable q m1) as (m1 & -> & Hr1).
  { revert m Hr. induction ticks as [|[ctx tn] ticks IH]; intros m Hr; cbn [foldl]; [eauto|].
    cbn [Reap fst snd]. destruct (Store_RequeueExpired ctx tn m) as [r m2] eqn:E. cbn [snd].
    apply IH. eapply rtc_r; [exact Hr|]. exact (step_requeue _ ctx tn r m2 E). }
  cbn [foldl Reap fst snd Store_RequeueExpired Memory_Store RequeueExpired].
  eexists. split; [done|]. split.
  - eapply rtc_r; [exact Hr1|]. by eapply (step_requeue _ None now _ (set_byID m1 _)).
  - intros id j t Hj. apply reachable_ok in Hr1. simpl in Hj. rewrite lookup_fmap in Hj.
    destruct (byID m1 !! id) as [u|] eqn:Hu; [|done]. injection Hj as <-. apply expire_leased.
Qed.

End store.

End memory.
