(* ===== verification/JobSteps.v ===== *)
(** * What one operation of the job store does to a task

    [Module steps]: the relation [task_step] is the abstract task of the job store:
    the changes that one call of [Create], [Lease], [Heartbeat], [Commit],
    [RequeueExpired] or [Cancel] may make to a stored task, with all its fields. The
    in-memory store refines it: a call changes each task along one [task_step] at
    most, and while fewer than 2^63 - 1 calls are made the fence of a task counts
    the leases of it without wrapping. *)

From S2P Require Import Prelude GoStrings Net Ingest Replay Impact Plan Validate Jobs JobStore.
Import jobs memory.

Module steps.

(** ** The abstract task *)

Inductive task_step (t : Task) : Task → Prop :=
| ts_keep : task_step t t
(** its dependencies are finished *)
| ts_ready : T_State t = StatePending → task_step t (set_state t StateReady)
(** a worker takes it: it was ready, or its lease had run out *)
| ts_lease attempt worker now :
    T_State t = StateReady ∨ (T_State t = StateLeased ∧ (T_LeaseUntil t < now)%Z) →
    task_step t (MkTask (T_ID t) (T_JobID t) (T_PlanID t) (T_Kind t) (T_Operator t) (T_Required t)
      (T_DependsOn t) (T_N t) StateLeased attempt (int64 (T_Fence t + 1)) (now + leaseTTL) worker
      (T_Result t) (T_Err t))
(** its worker is alive *)
| ts_heartbeat until :
    T_State t = StateLeased →
    task_step t (MkTask (T_ID t) (T_JobID t) (T_PlanID t) (T_Kind t) (T_Operator t) (T_Required t)
      (T_DependsOn t) (T_N t) StateLeased (T_AttemptID t) (T_Fence t) until (T_WorkerID t)
      (T_Result t) (T_Err t))
(** its worker commits a result, or an error *)
| ts_commit res fail :
    T_State t = StateLeased →
    task_step t (MkTask (T_ID t) (T_JobID t) (T_PlanID t) (T_Kind t) (T_Operator t) (T_Required t)
      (T_DependsOn t) (T_N t) (if fail == "" then StateSucceeded else StateFailed) (T_AttemptID t)
      (T_Fence t) 0 "" res fail)
(** its lease runs out; in a canceled job it is skipped *)
| ts_expire state err :
    T_State t = StateLeased →
    (state = StateReady ∧ err = T_Err t) ∨ (state = StateSkipped ∧ err = "canceled") →
    task_step t (MkTask (T_ID t) (T_JobID t) (T_PlanID t) (T_Kind t) (T_Operator t) (T_Required t)
      (T_DependsOn t) (T_N t) state "" (T_Fence t) 0 "" (T_Result t) err)
(** its job is canceled before it is leased *)
| ts_cancel :
    T_State t = StatePending ∨ T_State t = StateReady →
    task_step t (MkTask (T_ID t) (T_JobID t) (T_PlanID t) (T_Kind t) (T_Operator t) (T_Required t)
      (T_DependsOn t) (T_N t) StateSkipped (T_AttemptID t) (T_Fence t) (T_LeaseUntil t) (T_WorkerID t)
      (T_Result t) "canceled")
(** its job misses its deadline *)
| ts_deadline :
    T_State t ∈ live_states →
    task_step t (MkTask (T_ID t) (T_JobID t) (T_PlanID t) (T_Kind t) (T_Operator t) (T_Required t)
      (T_DependsOn t) (T_N t) StateFailed (T_AttemptID t) (T_Fence t) 0 "" (T_Result t) "deadline").

#[export] Hint Constructors task_step : steps.

(** The only step that changes the fence is a lease, which counts it up by one. *)
Lemma task_step_fence t t' :
  task_step t t' →
  T_Fence t' = T_Fence t ∨
  (T_Fence t' = int64 (T_Fence t + 1) ∧ T_State t' = StateLeased ∧
   (T_State t = StateReady ∨ (T_State t = StateLeased ∧ (T_LeaseUntil t < T_LeaseUntil t' - leaseTTL)%Z))).
Proof.
  destruct 1 as [| |attempt worker now Hs| | | | |]; auto. right. split; [done|]. split; [done|]. cbn.
  destruct Hs as [Hs|[Hs Hl]]; [by left|right]. split; [done|lia].
Qed.

(** ** The changes of the tasks of one job *)

(** [settle] makes tasks ready and does nothing else. *)
Definition readied (t u : Task) : Prop :=
  u = t ∨ (T_State t = StatePending ∧ u = set_state t StateReady).

Lemma readied_step t u : readied t u → task_step t u.
Proof. intros [->|[? ->]]; eauto with steps. Qed.

Lemma settle_readied ts : Forall task_ok ts → Forall2 readied ts (settle ts).
Proof.
  intros Hok. apply (settle_ind (Forall2 readied ts)).
  - intros us Hus. unfold settle_pass. apply Forall2_fmap_r. generalize (stateByPlan us). intros m.
    revert Hok. induction Hus as [|t u ts us Hr _ IH]; intros Hok; [constructor|].
    apply Forall_cons in Hok as [Ht Hok]. constructor; [|by apply IH]. unfold compose.
    destruct Hr as [->|[Hp ->]].
    + destruct (settle_task_live m t) as [->|[(Hp & Ho & _)|(Hp & _ & _ & ->)]]; [by left| |by right].
      apply (to_operator t Ht) in Ho. state_ne.
    + right. split; [done|]. by apply settle_task_nonpending.
  - apply Forall_Forall2_diag, Forall_forall. by left.
Qed.

(** A change of single tasks, and then [settle]: whoever was changed is not pending
    afterwards, so that the two changes never meet in one task. *)
Lemma settle_steps ts us :
  Forall task_ok us → Forall2 (λ t u, task_step t u ∧ (u = t ∨ T_State u ≠ StatePending)) ts us →
  Forall2 task_step ts (settle us).
Proof.
  intros Hok Hs. pose proof (settle_readied us Hok) as Hr.
  apply Forall2_same_length_lookup. split.
  - by rewrite (Forall2_length _ _ _ Hs), (Forall2_length _ _ _ Hr).
  - intros i t v Ht Hv. destruct (Forall2_lookup_r _ _ _ _ _ Hr Hv) as (u & Hu & Huv).
    pose proof (Forall2_lookup_lr _ _ _ _ _ _ Hs Ht Hu) as [Hstep Hc].
    destruct Huv as [->|[Hp ->]]; [done|]. destruct Hc as [->|Hn]; [by apply ts_ready|done].
Qed.

Lemma insert_steps ts i t u :
  ts !! i = Some t → task_step t u → T_State u ≠ StatePending →
  Forall2 (λ t u, task_step t u ∧ (u = t ∨ T_State u ≠ StatePending)) ts (<[i := u]> ts).
Proof.
  intros Ht Hs Hp. rewrite <- (list_insert_id ts i t Ht) at 1. apply Forall2_insert; [|by auto].
  apply Forall_Forall2_diag, Forall_forall. intros x _. eauto with steps.
Qed.

Lemma steps_of ts us :
  Forall2 (λ t u, task_step t u ∧ (u = t ∨ T_State u ≠ StatePending)) ts us → Forall2 task_step ts us.
Proof. intros H. eapply Forall2_impl; [exact H|]. by intros ?? []. Qed.

Section jobs.
  Context `{GoNet}.

Lemma commit_steps j i t attempt res fail t' :
  job_ok j → J_Tasks j !! i = Some t → applyCommit t attempt res fail = Ok t' →
  Forall2 task_step (J_Tasks j) (J_Tasks (commit_job j i t')).
Proof.
  intros Hok Ht Hc. unfold commit_job. rewrite refreshJob_tasks. apply settle_steps.
  - eapply moves_tasks_ok; [by eapply insert_moves, applyCommit_moves|apply (jp_tasks j (jo_pre j Hok))].
  - apply applyCommit_inv in Hc as (Hl & <- & -> & _). apply (insert_steps _ _ t); [done| |].
    + by apply ts_commit.
    + cbn. by case_bool_decide.
Qed.

Lemma heartbeat_steps j i t attempt w now t' :
  J_Tasks j !! i = Some t → applyHeartbeat t attempt w now = Ok t' →
  Forall2 task_step (J_Tasks j) (J_Tasks (heartbeat_job j i t')).
Proof.
  intros Ht (Hl & <- & <- & ->)%applyHeartbeat_inv. apply steps_of, (insert_steps _ _ t); [done| |done].
  by apply ts_heartbeat.
Qed.

Lemma cancel_steps j : Forall2 task_step (J_Tasks j) (J_Tasks (applyCancel j)).
Proof.
  unfold applyCancel. destruct (ended j); [apply Forall_Forall2_diag, Forall_forall; eauto with steps|].
  rewrite refreshJob_tasks. cbn [J_Tasks]. rewrite settle_not_pending.
  - apply Forall2_fmap_r, Forall_Forall2_diag, Forall_forall. intros t _. unfold compose, cancel_task.
    destruct (_ || _) eqn:E; [|apply ts_keep]. apply ts_cancel.
    by rewrite orb_true_iff, !bool_decide_eq_true in E.
  - apply Forall_fmap, Forall_forall. intros t _. cbn. unfold cancel_task.
    repeat case_bool_decide; cbn [orb]; by split.
Qed.

(** *** Expiring leases and deadlines *)

Lemma requeue_inv t now canceled :
  (requeue t now canceled).1 = t ∨
  (T_State t = StateLeased ∧ (T_LeaseUntil t < now)%Z ∧
   (requeue t now canceled).1 =
     task_upd t (if canceled then StateSkipped else StateReady) "" (T_Fence t) 0 "" (T_Result t)
       (if canceled then "canceled" else T_Err t)).
Proof.
  unfold requeue. case_bool_decide; cbn [negb]; [|by left].
  destruct (T_LeaseUntil t =? 0)%Z; cbn [orb]; [by left|].
  destruct (Z.ltb_spec (T_LeaseUntil t) now); cbn [negb]; [|by left]. destruct canceled; by right.
Qed.

(** Requeued tasks finish nobody's dependency, so nothing is left for [settle]. *)
Lemma requeue_settled j now :
  job_ok j → settle ((λ t, (requeue t now (J_Canceled j)).1) <$> J_Tasks j) =
    ((λ t, (requeue t now (J_Canceled j)).1) <$> J_Tasks j).
Proof.
  intros Hok. destruct (J_Canceled j) eqn:Hc.
  - apply settle_not_pending, Forall_fmap. eapply Forall_impl; [exact (jp_canceled j (jo_pre j Hok) Hc)|].
    intros t [Hp Hr]. cbn. destruct (requeue_inv t now true) as [->|(_ & _ & ->)]; by split.
  - apply settle_id, settled_iff. intros u (t & -> & Ht)%list_elem_of_fmap Hp.
    pose proof (proj1 (settled_iff _) (jo_settled j Hok) t Ht) as Hs.
    destruct (requeue_inv t now false) as [E|(_ & _ & E)]; rewrite E in *; [|done].
    destruct (Hs Hp) as [Ho Hd]. split; [done|]. apply not_true_is_false. intros Hd'.
    rewrite (depsOK_mono ((λ t, (requeue t now false).1) <$> J_Tasks j) (J_Tasks j) t t) in Hd; [done| |done|done].
    apply Forall2_fmap_l, Forall_Forall2_diag, Forall_forall. intros x _. unfold compose.
    destruct (requeue_inv x now false) as [->|(Hl & _ & ->)]; [by split|]. split; [done|].
    unfold finished. cbn. intros. state_ne.
Qed.

(** What [expire_job] does to a task: nothing, requeue it, or fail it. *)
Lemma expire_tasks j now :
  job_ok j →
  Forall2 (λ t u, u = t ∨ (T_State t ∈ live_states ∧ u = deadline_task t) ∨
    (u = (requeue t now (J_Canceled j)).1 ∧ T_State t = StateLeased ∧ (T_LeaseUntil t < now)%Z))
    (J_Tasks j) (J_Tasks (expire_job j now).1).
Proof.
  intros Hok. unfold expire_job. destruct (failDeadline j now) as [j'|] eqn:Hf.
  - unfold failDeadline in Hf. destruct (job_deadline j) as [d|]; [|done].
    destruct (negb _); [done|]. destruct (ended j); [done|]. injection Hf as <-. cbn.
    apply Forall2_fmap_r, Forall_Forall2_diag, Forall_forall. intros t _. unfold compose.
    destruct (decide (T_State t ∈ live_states)) as [Hl|Hl]; [by right; left|left].
    unfold deadline_task. by rewrite bool_decide_eq_false_2.
  - destruct (0 <? _)%Z; cbn [fst]; [|apply Forall_Forall2_diag, Forall_forall; by left].
    rewrite refreshJob_tasks. cbn [set_tasks job_upd J_Tasks]. rewrite <- list_fmap_compose.
    change (settle (_ <$> _)) with (settle ((λ t, (requeue t now (J_Canceled j)).1) <$> J_Tasks j)).
    rewrite requeue_settled by done. apply Forall2_fmap_r, Forall_Forall2_diag, Forall_forall. intros t _. unfold compose.
    destruct (requeue_inv t now (J_Canceled j)) as [E|(Hl & Hu & _)]; [by left|by right; right].
Qed.

Lemma expire_steps j now : job_ok j → Forall2 task_step (J_Tasks j) (J_Tasks (expire_job j now).1).
Proof.
  intros Hok. eapply Forall2_impl; [by apply expire_tasks|]. intros t u [->|[[Hl ->]|(-> & Hl & Hu)]].
  - apply ts_keep.
  - unfold deadline_task. rewrite bool_decide_eq_true_2 by done. by apply ts_deadline.
  - destruct (requeue_inv t now (J_Canceled j)) as [->|(_ & _ & ->)]; [apply ts_keep|].
    apply (ts_expire t (if J_Canceled j then StateSkipped else StateReady)
             (if J_Canceled j then "canceled" else T_Err t)); [done|]. destruct (J_Canceled j); auto.
Qed.

(** A task that is ready once leases have been expired is leased: it was ready
    before, or its lease had run out. *)
Lemma expire_lease j now i u attempt w :
  job_ok j → J_Tasks (expire_job j now).1 !! i = Some u → ready_task u = true →
  Forall2 task_step (J_Tasks j)
    (J_Tasks (lease_job (expire_job j now).1 i (lease_task u attempt w now))).
Proof.
  intros Hok Hu Hr. pose proof (expire_steps j now Hok) as Hs. pose proof (expire_tasks j now Hok) as Hx.
  destruct (Forall2_lookup_r _ _ _ _ _ Hx Hu) as (t & Ht & Hc). cbn [lease_job set_tasks job_upd J_Tasks].
  rewrite <- (list_insert_id (J_Tasks j) i t Ht). apply Forall2_insert; [done|].
  unfold ready_task in Hr. apply andb_true_iff in Hr as [Hr%bool_decide_eq_true _].
  destruct Hc as [->|[[Hl ->]|(-> & Hl & Hlt)]].
  - apply (ts_lease t attempt w now). by left.
  - rewrite deadline_task_live in Hr by done. done.
  - destruct (requeue_inv t now (J_Canceled j)) as [E|(_ & _ & E)]; rewrite E in *; [state_ne|].
    destruct (J_Canceled j); [done|]. apply (ts_lease t attempt w now). by right.
Qed.

(** ** The store *)

Definition stepped (m m' : Memory) (id : string) (j : Job) : Prop :=
  ∃ j', byID m' !! id = Some j' ∧ Forall2 task_step (J_Tasks j) (J_Tasks j').

Lemma stepped_refl m id j : byID m !! id = Some j → stepped m m id j.
Proof. intros Hj. exists j. split; [done|]. apply Forall_Forall2_diag, Forall_forall. eauto with steps. Qed.

Lemma stepped_requeue m now id j :
  store_ok m → byID m !! id = Some j → stepped m (requeueExpiredLocked m now).1 id j.
Proof.
  intros Hok Hj. exists (expire_job j now).1. split; [cbn; by rewrite lookup_fmap, Hj|].
  apply expire_steps, (so_jobs m Hok _ _ Hj).
Qed.

Lemma stepped_insert m id j k u :
  byID m !! id = Some j → (∀ j0, byID m !! k = Some j0 → Forall2 task_step (J_Tasks j0) (J_Tasks u)) →
  stepped m (set_byID m (<[k := u]> (byID m))) id j.
Proof.
  intros Hj Hu. destruct (decide (k = id)) as [->|Hne].
  - exists u. split; [cbn; by rewrite lookup_insert_eq|]. by apply Hu.
  - destruct (stepped_refl m id j Hj) as (j' & Hj' & Hs). exists j'. split; [|done].
    cbn. by rewrite lookup_insert_ne.
Qed.

Lemma Lease_stepped v w now m l m' id j :
  store_ok m → leases v w now m l m' → byID m !! id = Some j → stepped m m' id j.
Proof.
  intros Hok [Hw _ (want & ji & ti & n & u & t & _ & _ & Hu & Ht & Hr & _ & ->)] Hj.
  pose proof (requeue_ok m now Hok) as Hok1.
  destruct (jobs_of_lookup _ ji u Hok1 Hu) as (_ & Hub & _).
  destruct (stepped_requeue m now id j Hok Hj) as (j1 & Hj1 & Hs1).
  destruct (decide (J_ID u = id)) as [E|Hne].
  - eexists. split; [cbn; by rewrite E, lookup_insert_eq|].
    cbn in Hub. rewrite lookup_fmap, E, Hj in Hub. injection Hub as <-.
    apply expire_lease; [apply (so_jobs m Hok _ _ Hj)|done|done].
  - exists j1. split; [|done]. cbn. rewrite lookup_insert_ne by done. exact Hj1.
Qed.

Lemma step_stepped m m' id j :
  store_ok m → memory.step m m' → byID m !! id = Some j → stepped m m' id j.
Proof.
  intros Hok [e opts r m1 Hf ?? Hc|ctx v w now r m1 _ Hc|en ctx tid aid w now r m1 Hp Hc|
              en ctx tid aid res fail r m1 Hp Hc|ctx now r m1 Hc|ctx id' r m1 Hc] Hj.
  - apply Create_inv in Hc as [(? & _ & [-> | ->])|(u & _ & Hb & _ & _ & ->)];
      [by apply stepped_refl|by apply stepped_requeue|].
    destruct (stepped_requeue m (Ce_expire e) id j Hok Hj) as (j' & Hj' & Hs). exists j'. split; [|done].
    cbn [byID]. rewrite lookup_insert_ne; [done|]. apply buildJob_inv in Hb as (_ & -> & _). intros E. subst id.
    apply (Hf (newID (Ce_rand e))); [|done]. apply (so_order m Hok). eauto.
  - apply Lease_inv in Hc as [(? & _ & [-> | ->])|(l & _ & Hl)];
      [by apply stepped_refl|by apply stepped_requeue|by eapply Lease_stepped].
  - apply Heartbeat_in_inv in Hc as [->|(k & u & i & t & t' & Hu & Ht & (a & _ & Ha) & ->)]; [|..|done];
      [by apply stepped_refl|]. apply stepped_insert; [done|]. intros j0 Hj0. simplify_eq.
    by eapply heartbeat_steps.
  - apply Commit_in_inv in Hc as [->|(k & u & i & t & t' & Hu & Ht & (a & _ & Ha) & _ & _ & ->)]; [|..|done];
      [by apply stepped_refl|]. apply stepped_insert; [done|]. intros j0 Hj0. simplify_eq.
    eapply commit_steps; [apply (so_jobs m Hok _ _ Hu)|done..].
  - unfold RequeueExpired in Hc. destruct ctx; injection Hc as _ <-; [by apply stepped_refl|].
    by apply stepped_requeue.
  - unfold Cancel in Hc. destruct ctx; [injection Hc as _ <-; by apply stepped_refl|].
    destruct (normalizeID id'); [|injection Hc as _ <-; by apply stepped_refl].
    destruct (byID m !! _) as [u|] eqn:Hu; injection Hc as _ <-; [|by apply stepped_refl].
    apply stepped_insert; [done|]. intros j0 Hj0. simplify_eq. apply cancel_steps.
Qed.

(** ** The fence counts leases *)

Definition fences (n : Z) (m : Memory) : Prop :=
  ∀ id j t, byID m !! id = Some j → t ∈ J_Tasks j → (0 ≤ T_Fence t ≤ n)%Z.

Lemma buildJob_fence v tv tb opts j t :
  buildJob v tv tb opts = Ok j → t ∈ J_Tasks j → T_Fence t = 0%Z.
Proof.
  unfold buildJob. intros ([] & _ & [= <-])%rbind_ok. rewrite refreshJob_tasks. cbn [J_Tasks].
  rewrite (settle_id (settle _)) by apply settle_fix. set (ts := imap _ _).
  assert (Forall task_ok ts) as Hok by (apply imap_Forall; intros; apply build_task_ok).
  intros [i Hi]%list_elem_of_lookup. destruct (Forall2_lookup_r _ _ _ _ _ (settle_readied ts Hok) Hi) as (u & Hu & Hr).
  unfold ts in Hu. rewrite list_lookup_imap in Hu. apply fmap_Some in Hu as (s & _ & ->).
  by destruct Hr as [->|[_ ->]].
Qed.

Lemma step_new m m' id j t :
  store_ok m → memory.step m m' → byID m !! id = None → byID m' !! id = Some j → t ∈ J_Tasks j → T_Fence t = 0%Z.
Proof.
  intros Hok Hs Hn Hj Ht. assert (∀ m1, in_place m m1 → byID m1 !! id = Some j → T_Fence t = 0%Z) as Hip.
  { intros m1 Hip Hj1. by rewrite (ip_none _ _ Hip id Hn) in Hj1. }
  destruct Hs as [e opts r m1 ??? Hc|ctx v w now r m1 _ Hc|en ctx tid aid w now r m1 Hp Hc|
                  en ctx tid aid res fail r m1 Hp Hc|ctx now r m1 Hc|ctx id' r m1 Hc].
  - apply Create_inv in Hc as [(? & _ & [-> | ->])|(u & _ & Hb & _ & _ & ->)];
      [by rewrite Hn in Hj|by apply (Hip _ (in_place_requeue m (Ce_expire e) Hok))|].
    cbn [byID] in Hj. destruct (decide (J_ID u = id)) as [E|Hne].
    + rewrite E, lookup_insert_eq in Hj. injection Hj as <-. by eapply buildJob_fence.
    + rewrite lookup_insert_ne in Hj by done. by apply (Hip _ (in_place_requeue m (Ce_expire e) Hok)).
  - apply Lease_safe in Hc as [_ ?]; [|done]. eauto.
  - apply Heartbeat_safe in Hc as [_ ?]; [|done..]. eauto.
  - apply Commit_safe in Hc as [_ ?]; [|done..]. eauto.
  - apply RequeueExpired_safe in Hc as [_ ?]; [|done]. eauto.
  - apply Cancel_safe in Hc as [_ ?]; [|done]. eauto.
Qed.

Lemma nsteps_reachable q n m : nsteps memory.step n (WithQuota q NewMemory) m → reachable q m.
Proof. intros Hn. apply rtc_nsteps. by exists n. Qed.

Lemma nsteps_fences q n m :
  nsteps memory.step n (WithQuota q NewMemory) m → (Z.of_nat n < 2 ^ 63)%Z → fences (Z.of_nat n) m.
Proof.
  revert m. induction n as [|n IH]; intros m Hn Hlt id j t Hj Ht.
  - inversion Hn; subst. cbn in Hj. by rewrite lookup_empty in Hj.
  - apply nsteps_inv_r in Hn as (m0 & Hn & Hs).
    pose proof (reachable_ok q m0 (nsteps_reachable q n m0 Hn)) as Hok.
    destruct (byID m0 !! id) as [j0|] eqn:Hj0.
    + destruct (step_stepped m0 m id j0 Hok Hs Hj0) as (j' & Hj' & Hsteps). simplify_eq.
      apply list_elem_of_lookup in Ht as [i Hi].
      destruct (Forall2_lookup_r _ _ _ _ _ Hsteps Hi) as (t0 & Ht0 & Hst).
      assert (0 ≤ T_Fence t0 ≤ Z.of_nat n)%Z as Hf
        by (eapply IH; [done|lia|done|by eapply list_elem_of_lookup_2]).
      apply task_step_fence in Hst as [->|[-> _]]; [lia|]. rewrite int64_id; [lia|]. unfold in_int64. lia.
    + rewrite (step_new m0 m id j t) by done. lia.
Qed.

(** C8: one call of the store changes every stored task by one step of the abstract
    task at most, which says what becomes of all its fields, and loses no job; while
    fewer than 2^63 - 1 calls have been made, the fence stays as it is or goes up by
    one, and it goes up exactly when the task is leased, which is when it was ready or
    its lease had run out. *)
Theorem step_refines q n m m' id j i t :
  nsteps memory.step n (WithQuota q NewMemory) m → (Z.of_nat n < 2 ^ 63 - 1)%Z →
  memory.step m m' → byID m !! id = Some j → J_Tasks j !! i = Some t →
  ∃ j' t', byID m' !! id = Some j' ∧ length (J_Tasks j') = length (J_Tasks j) ∧
    J_Tasks j' !! i = Some t' ∧ task_step t t' ∧
    (T_Fence t' = T_Fence t ∨
     (T_Fence t' = T_Fence t + 1)%Z ∧ T_State t' = StateLeased ∧
     (T_State t = StateReady ∨ (T_State t = StateLeased ∧ (T_LeaseUntil t < T_LeaseUntil t' - leaseTTL)%Z))).
Proof.
  intros Hn Hlt Hs Hj Ht. pose proof (reachable_ok q m (nsteps_reachable q n m Hn)) as Hok.
  destruct (step_stepped m m' id j Hok Hs Hj) as (j' & Hj' & Hsteps).
  destruct (Forall2_lookup_l _ _ _ _ _ Hsteps Ht) as (t' & Ht' & Hst). exists j', t'.
  do 2 (split; [done || by rewrite (Forall2_length _ _ _ Hsteps)|]). split; [done|]. split; [done|].
  apply task_step_fence in Hst as [?|[Hf ?]]; [by left|right]. split; [|done].
  assert (0 ≤ T_Fence t ≤ Z.of_nat n)%Z.
  { eapply (nsteps_fences q n m); [done|lia|done|by eapply list_elem_of_lookup_2]. }
  rewrite Hf. apply int64_id. unfold in_int64. lia.
Qed.

End jobs.
End steps.
