(* ===== verification/JobPg.v ===== *)
(** * The Postgres job store: [internal/jobs/postgres.go]

    [Module postgres] is the second instance of the class [Store]: the table
    [aquila.jobs] is a map from its primary key to rows. A row has the columns of the
    table; the JSON payload is the job it encodes. A method runs in one
    transaction that locks the rows it reads, so an execution of concurrent callers
    is a sequence of these operations, and a method that returns an error without
    committing leaves the table as it was. [db] is the error of a statement of the
    transaction, if one fails. *)

From S2P Require Import Prelude GoStrings Net Ingest Replay Impact Plan Validate Jobs JobStore.
Import jobs.

Module postgres.

Record Row := MkRow {
  Row_id : string;
  Row_created_at : Z;
  Row_status : string;
  Row_baseline : string;
  Row_patch : string;
  Row_baseline_sha : string;
  Row_dirty : bool;
  Row_validated : bool;
  Row_payload : Job;
}.

Record Postgres := MkPostgres {
  table : gmap string Row;
  pg_quota : Quota;
}.

Definition NewPostgres (rows : gmap string Row) : Postgres := MkPostgres rows (MkQuota 0 0).
Definition WithQuota (q : Quota) (p : Postgres) : Postgres := MkPostgres (table p) q.

(** [updateJobSQL] *)
Definition set_row (r : Row) (job : Job) : Row :=
  MkRow (Row_id r) (Row_created_at r) (J_Status job) (Row_baseline r) (Row_patch r)
    (Row_baseline_sha r) (Row_dirty r) (J_Validated job) job.
Definition update (p : Postgres) (job : Job) : Postgres :=
  MkPostgres (alter (λ r, set_row r job) (J_ID job) (table p)) (pg_quota p).

(** [insertJobSQL] *)
Definition row_of (job : Job) : Row :=
  MkRow (J_ID job) (J_Created job) (J_Status job) (J_Baseline job) (J_Patch job)
    (J_BaselineSHA job) (J_Dirty job) (J_Validated job) job.

Definition cmp_oldest : Row → Row → comparison :=
  cmp_then (cmp_on Row_created_at Z.compare) (cmp_on Row_id String.compare).
Definition cmp_newest : Row → Row → comparison := cmp_desc cmp_oldest.

Definition open_row (r : Row) : bool :=
  (Row_status r == StatusPending) || (Row_status r == StatusRunning).

Section ops.
  Context `{GoNet}.

(** The decision is computed again when a job is read. *)
Definition decodeJob (job : Job) : Job :=
  job_upd job (J_Status job) (J_Canceled job) (J_Tasks job) (jobDecision job).

(** [lockJobsSQL] and the loop over its rows. *)
Definition open_rows (p : Postgres) : list Row :=
  sort_cmp cmp_oldest (filter (λ r, open_row r = true) (map_to_list (table p)).*2).
Definition lockJobs (p : Postgres) : list Job := decodeJob ∘ Row_payload <$> open_rows p.

(** The jobs that [expireTx] writes back, and how many expirations it counts. *)
Definition expired (now : Z) (job : Job) : option Job :=
  let '(job', n) := expire_job job now in if (0 <? n)%Z then Some job' else None.
Definition expireTx (p : Postgres) (now : Z) : Postgres * Z :=
  (foldl update p (omap (expired now) (lockJobs p)),
   total (λ job, (expire_job job now).2) (lockJobs p)).

Definition Create (db : option JobErr) (e : CreateEnv) (opts : CreateOpts) (p : Postgres)
    : result JobErr Job * Postgres :=
  match buildJob (Ce_rand e) (Ce_validate e) (Ce_build e) opts with
  | Err err => (Err err, p)
  | Ok job =>
      match db with
      | Some err => (Err err, p)
      | None =>
          let p' := (expireTx p (Ce_expire e)).1 in
          let existing := lockJobs p' in
          if gatewayBusy existing job then (Err ErrBusy, p)
          else if overActive existing job (pg_quota p) then (Err ErrQuota, p)
          else match table p' !! J_ID job with
               | Some _ => (Err (Errorf "insert job"), p)
               | None => (Ok job, MkPostgres (<[J_ID job := row_of job]> (table p')) (pg_quota p))
               end
      end
  end.

Definition Get (db : option JobErr) (id : string) (p : Postgres) : result JobErr Job :=
  match normalizeID id with
  | None => Err (Errorf "jobs: invalid id")
  | Some id =>
      match db with
      | Some err => Err err
      | None =>
          match table p !! id with
          | None => Err ErrNotFound
          | Some r => Ok (decodeJob (Row_payload r))
          end
      end
  end.

(** [listJobSQL] *)
Definition List (db : option JobErr) (limit : Z) (service : string) (p : Postgres)
    : result JobErr (list Job) :=
  match db with
  | Some err => Err err
  | None =>
      let want := clipService service in
      let rows := filter (λ r, want = "" ∨ J_Service (Row_payload r) = want) (map_to_list (table p)).*2 in
      Ok (decodeJob ∘ Row_payload <$> take (Z.to_nat (clipLimit limit)) (sort_cmp cmp_newest rows))
  end.

Definition RequeueExpired (db : option JobErr) (now : Z) (p : Postgres) : result JobErr Z * Postgres :=
  match db with
  | Some err => (Err err, p)
  | None => let '(p', n) := expireTx p now in (Ok n, p')
  end.

(** The job after task [i] has been leased. *)
Definition lease_row (job : Job) (i : nat) (t : Task) : Job :=
  refreshJob (set_tasks job (J_Status job) (<[i := t]> (J_Tasks job))).

Definition Lease (db : option JobErr) (v : N) (w : Worker) (now : Z) (p : Postgres)
    : result JobErr jobs.Lease * Postgres :=
  match worker_id w with
  | Err err => (Err err, p)
  | Ok workerID =>
      match memory.wanted w with
      | Err err => (Err err, p)
      | Ok wantJob =>
          match db with
          | Some err => (Err err, p)
          | None =>
              let p' := (expireTx p now).1 in
              let all := lockJobs p' in
              if (worker_slots w <=? countLeased all workerID)%Z then (Err ErrCapacity, p')
              else
                match pickReady all wantJob (pg_quota p) with
                | None => (Err ErrNoReady, p')
                | Some (ji, ti) =>
                    let job := default memory.zeroJob (all !! ji) in
                    match J_Tasks job !! ti with
                    | None => (Err ErrNoReady, p')
                    | Some t0 =>
                        let t := lease_task t0 (newID v) workerID now in
                        let job := lease_row job ti t in
                        let t := default t (J_Tasks job !! ti) in
                        (Ok (MkLease job t (T_N t) (T_Fence t) (T_AttemptID t)), update p' job)
                    end
                end
          end
      end
  end.

(** The locked jobs with their identifiers. *)
Definition job_rows (p : Postgres) : list (string * Job) := (λ j, (J_ID j, j)) <$> lockJobs p.

Definition Heartbeat (db : option JobErr) (taskID attemptID workerID : string) (now : Z) (p : Postgres)
    : result JobErr () * Postgres :=
  match normalizeID taskID with
  | None => (Err (Errorf "jobs: invalid id"), p)
  | Some tid =>
      match normalizeID attemptID with
      | None => (Err (Errorf "jobs: invalid attempt"), p)
      | Some aid =>
          match db with
          | Some err => (Err err, p)
          | None =>
              match memory.find_task tid (job_rows p) with
              | None => (Err ErrNotFound, p)
              | Some (_, job, i, t) =>
                  match applyHeartbeat t aid workerID now with
                  | Err err => (Err err, p)
                  | Ok t' => (Ok tt, update p (heartbeat_job job i t'))
                  end
              end
          end
      end
  end.

Definition Commit (db : option JobErr) (taskID attemptID : string) (res : plan.StepResult) (fail : string)
    (p : Postgres) : result JobErr Task * Postgres :=
  match normalizeID taskID with
  | None => (Err (Errorf "jobs: invalid id"), p)
  | Some tid =>
      match normalizeID attemptID with
      | None => (Err (Errorf "jobs: invalid attempt"), p)
      | Some aid =>
          match db with
          | Some err => (Err err, p)
          | None =>
              match memory.find_task tid (job_rows p) with
              | None => (Err ErrNotFound, p)
              | Some (_, job, i, t) =>
                  match applyCommit t aid res fail with
                  | Err err => (Err err, p)
                  | Ok t' =>
                      let job' := commit_job job i t' in
                      (Ok (default t' (J_Tasks job' !! i)), update p job')
                  end
              end
          end
      end
  end.

Definition Cancel (db : option JobErr) (id : string) (p : Postgres) : result JobErr Job * Postgres :=
  match normalizeID id with
  | None => (Err (Errorf "jobs: invalid id"), p)
  | Some id =>
      match db with
      | Some err => (Err err, p)
      | None =>
          match table p !! id with
          | None => (Err ErrNotFound, p)
          | Some r => let job := applyCancel (decodeJob (Row_payload r)) in (Ok job, update p job)
          end
      end
  end.

(** A canceled context is a failed statement. *)
Definition ctx_db (ctx : option string) : option JobErr := CtxErr <$> ctx.

#[global] Instance Postgres_Store : Store Postgres := {
  Store_Create := λ e, Create (ctx_db (Ce_ctx e)) e;
  Store_Get := λ ctx, Get (ctx_db ctx);
  Store_List := λ ctx, List (ctx_db ctx);
  Store_Lease := λ ctx, Lease (ctx_db ctx);
  Store_Heartbeat := λ ctx, Heartbeat (ctx_db ctx);
  Store_Commit := λ ctx, Commit (ctx_db ctx);
  Store_RequeueExpired := λ ctx, RequeueExpired (ctx_db ctx);
  Store_Cancel := λ ctx, Cancel (ctx_db ctx);
}.

End ops.

(** ** Part of a good in-memory store is a good store *)

Section sub.
  Context `{GoNet}.
Import memory.

Lemma total_submseteq {A} (f : A → Z) l k :
  (∀ x, 0 ≤ f x)%Z → l ⊆+ k → (total f l ≤ total f k)%Z.
Proof.
  intros Hf Hlk. induction Hlk as [|x l k _ IH|x y l|x l k _ IH|l k n _ IH1 _ IH2];
    rewrite ?total_cons; try lia. specialize (Hf x). lia.
Qed.

Lemma jobs_of_sub m m2 :
  store_ok m → byID m2 ⊆ byID m → NoDup (order m2) →
  (∀ id, id ∈ order m2 ↔ is_Some (byID m2 !! id)) → jobs_of m2 ⊆+ jobs_of m.
Proof.
  intros Hok Hsub Hnd Hord. unfold jobs_of.
  assert ((λ id, default zeroJob (byID m2 !! id)) <$> order m2 =
    (λ id, default zeroJob (byID m !! id)) <$> order m2) as ->.
  - apply list_fmap_ext. intros i id Hi%list_elem_of_lookup_2. apply Hord in Hi as [j Hj]. rewrite Hj.
    by rewrite (lookup_weaken _ _ _ _ Hj Hsub).
  - apply fmap_submseteq, NoDup_submseteq; [done|]. intros id [j Hj]%Hord.
    apply (so_order m Hok). exists j. by eapply lookup_weaken.
Qed.

Lemma store_ok_sub m m2 :
  store_ok m → byID m2 ⊆ byID m → NoDup (order m2) →
  (∀ id, id ∈ order m2 ↔ is_Some (byID m2 !! id)) → quota m2 = quota m → store_ok m2.
Proof.
  intros Hok Hsub Hnd Hord Hq. pose proof (jobs_of_sub m m2 Hok Hsub Hnd Hord) as Hjs.
  assert (∀ id, id ∈ order m2 → id ∈ order m) as Hin.
  { intros id [j Hj]%Hord. apply (so_order m Hok). exists j. by eapply lookup_weaken. }
  assert (∀ j, j ∈ jobs_of m2 → j ∈ jobs_of m) as Hel by (intros j Hj; by eapply elem_of_submseteq).
  split; rewrite ?Hq; [|done|done|..].
  - intros id j Hj. apply (so_jobs m Hok). by eapply lookup_weaken.
  - intros id id' ?%Hin ?%Hin. by apply (so_prefix m Hok).
  - intros w. etrans; [|apply (so_slots m Hok w)]. rewrite !countLeased_total.
    apply total_submseteq; [|done]. intros j. apply count_nonneg.
  - intros s. etrans; [|apply (so_leased m Hok s)]. rewrite !leased_in_total.
    apply total_submseteq; [|done]. intros j. case_bool_decide; [apply count_nonneg|lia].
  - intros s. etrans; [|apply (so_active m Hok s)]. unfold active_in. rewrite !count_total.
    apply total_submseteq; [|done]. intros j. destruct (_ && _); lia.
  - intros j j' k Hj Hj'. apply (so_gateway m Hok); auto.
Qed.
End sub.

(** ** Reading jobs *)

Section reading.
  Context `{GoNet}.

Lemma jobDecision_decode j : jobDecision (decodeJob j) = jobDecision j.
Proof. done. Qed.
Lemma decodeJob_idem j : decodeJob (decodeJob j) = decodeJob j.
Proof. done. Qed.
Lemma decode_refresh j : decodeJob (refreshJob j) = refreshJob j.
Proof. done. Qed.
Lemma decode_deadline j now j' : failDeadline j now = Some j' → decodeJob j' = j'.
Proof.
  unfold failDeadline. destruct (job_deadline j); [|done]. repeat destruct (negb _); try done.
  destruct (ended j); [done|]. by intros [= <-].
Qed.

Lemma decode_expire j now : decodeJob (expire_job (decodeJob j) now).1 = (expire_job (decodeJob j) now).1.
Proof.
  unfold expire_job. destruct (failDeadline _ now) eqn:Hf; [by eapply decode_deadline|].
  by destruct (0 <? _)%Z.
Qed.

Lemma decode_kept j : job_ok j → memory.kept j (decodeJob j).
Proof.
  intros [Hp Hs Hst Hv Hb]. destruct (declared_blocked j (jp_declared j Hp)) as [Hv' Hb'].
  split; [|split; [done|done|apply Forall_Forall2_diag, Forall_forall; done]].
  split; [by destruct Hp|done|done|done|done].
Qed.

Lemma decode_open j : occupies j = true → jobDecision j = blocked_by_status (J_Status j).
Proof.
  unfold occupies, jobDecision. intros Ho.
  replace (J_Canceled j || (J_Status j != StatusComplete)) with true; [done|].
  symmetry. apply orb_true_iff. right. apply negb_true_iff, bool_decide_eq_false_2. intros E.
  by rewrite E in Ho.
Qed.

Lemma decode_heartbeat j i t' :
  occupies j = true → decodeJob (heartbeat_job (decodeJob j) i t') = heartbeat_job (decodeJob j) i t'.
Proof.
  intros Ho. unfold decodeJob at 1.
  rewrite (decode_open (heartbeat_job (decodeJob j) i t')) by exact Ho.
  unfold heartbeat_job, set_tasks, decodeJob, job_upd. cbn. by rewrite (decode_open j).
Qed.

Lemma expired_None now j : expired now j = None → (expire_job j now).1 = j.
Proof.
  unfold expired, expire_job. destruct (failDeadline j now); [done|].
  by destruct (0 <? _)%Z eqn:E; cbn; rewrite ?E.
Qed.
Lemma expired_Some now j j' : expired now j = Some j' → j' = (expire_job j now).1.
Proof. unfold expired. destruct (expire_job j now). destruct (0 <? _)%Z; by intros [= <-]. Qed.
End reading.

(** ** The open jobs of a table, as an in-memory store *)

Section table.
  Context `{GoNet}.

(** The columns of a row agree with its payload, which is a good job. *)
Record row_ok (id : string) (r : Row) : Prop := {
  ro_id : Row_id r = id;
  ro_stored : memory.stored id (Row_payload r);
  ro_status : Row_status r = J_Status (Row_payload r);
  ro_created : Row_created_at r = J_Created (Row_payload r);
}.
Definition rows_ok (p : Postgres) : Prop := map_Forall row_ok (table p).

Definition open_mem (p : Postgres) : memory.Memory :=
  memory.MkMemory (list_to_map (job_rows p)) (J_ID <$> lockJobs p) (pg_quota p).

Lemma open_row_occupies id r : row_ok id r → open_row r = occupies (Row_payload r).
Proof. intros Hr. unfold open_row, occupies. by rewrite (ro_status id r Hr). Qed.

Lemma elem_of_lockJobs p j :
  j ∈ lockJobs p ↔
  ∃ id r, table p !! id = Some r ∧ open_row r = true ∧ j = decodeJob (Row_payload r).
Proof.
  unfold lockJobs, open_rows. rewrite list_elem_of_fmap. setoid_rewrite elem_of_sort_cmp.
  setoid_rewrite list_elem_of_filter. setoid_rewrite list_elem_of_fmap. split.
  - intros (r & -> & Ho & [id r'] & -> & Hin%elem_of_map_to_list). by exists id, r'.
  - intros (id & r & Hr & Ho & ->). exists r. split; [done|]. split; [done|].
    exists (id, r). by rewrite elem_of_map_to_list.
Qed.

Lemma lockJobs_ids p :
  rows_ok p →
  J_ID <$> lockJobs p ≡ₚ (filter (λ kv, open_row kv.2 = true) (map_to_list (table p))).*1.
Proof.
  intros Hok. unfold lockJobs, open_rows. rewrite sort_cmp_perm, <- list_fmap_compose.
  assert (∀ l, l ⊆ map_to_list (table p) →
    J_ID ∘ (decodeJob ∘ Row_payload) <$> filter (λ r, open_row r = true) l.*2 =
    (filter (λ kv, open_row kv.2 = true) l).*1) as Hl; [|by rewrite Hl].
  intros l. induction l as [|[id r] l IH]; intros Hin; [done|].
  rewrite fmap_cons, !filter_cons. cbn [fst snd].
  assert (table p !! id = Some r) as Hr by (apply elem_of_map_to_list, Hin; left).
  pose proof (memory.sj_id _ _ (ro_stored _ _ (Hok id r Hr))) as Hid.
  case_decide; cbn; rewrite IH by set_solver; [|done]. f_equal. exact Hid.
Qed.

Lemma lockJobs_nodup p : rows_ok p → NoDup (J_ID <$> lockJobs p).
Proof.
  intros Hok. rewrite lockJobs_ids by done.
  eapply sublist_NoDup; [apply (NoDup_fst_map_to_list (table p))|].
  apply fmap_sublist, sublist_filter.
Qed.

Lemma open_mem_lookup p id j :
  rows_ok p →
  memory.byID (open_mem p) !! id = Some j ↔
  ∃ r, table p !! id = Some r ∧ open_row r = true ∧ j = decodeJob (Row_payload r).
Proof.
  intros Hok. cbn. unfold job_rows.
  assert (NoDup ((λ j, (J_ID j, j)) <$> lockJobs p).*1) as Hnd.
  { rewrite <- list_fmap_compose. by apply lockJobs_nodup. }
  rewrite <- elem_of_list_to_map by done. rewrite list_elem_of_fmap. split.
  - intros (j' & [= -> ->] & (id' & r & Hr & Ho & ->)%elem_of_lockJobs). exists r.
    pose proof (memory.sj_id _ _ (ro_stored _ _ (Hok id' r Hr))) as Hid. cbn. rewrite Hid. done.
  - intros (r & Hr & Ho & ->). exists (decodeJob (Row_payload r)).
    pose proof (memory.sj_id _ _ (ro_stored _ _ (Hok id r Hr))) as Hid. split; [cbn; by rewrite Hid|].
    apply elem_of_lockJobs. eauto.
Qed.

Lemma open_mem_order p id :
  rows_ok p → id ∈ memory.order (open_mem p) ↔ is_Some (memory.byID (open_mem p) !! id).
Proof.
  intros Hok. unfold is_Some. setoid_rewrite open_mem_lookup; [|done]. cbn. rewrite list_elem_of_fmap.
  setoid_rewrite elem_of_lockJobs. split.
  - intros (j & -> & id' & r & Hr & Ho & ->). exists (decodeJob (Row_payload r)), r.
    pose proof (memory.sj_id _ _ (ro_stored _ _ (Hok id' r Hr))) as Hid. cbn. by rewrite Hid.
  - intros (j & r & Hr & Ho & ->). exists (decodeJob (Row_payload r)).
    pose proof (memory.sj_id _ _ (ro_stored _ _ (Hok id r Hr))) as Hid. split; [cbn; by rewrite Hid|eauto].
Qed.

Lemma jobs_of_open_mem p : rows_ok p → memory.jobs_of (open_mem p) = lockJobs p.
Proof.
  intros Hok. unfold memory.jobs_of. cbn [memory.order open_mem]. rewrite <- list_fmap_compose.
  rewrite <- (list_fmap_id (lockJobs p)) at 2. apply list_fmap_ext. intros i j Hj%list_elem_of_lookup_2.
  apply elem_of_lockJobs in Hj as (id & r & Hr & Ho & ->). cbn [compose].
  pose proof (memory.sj_id _ _ (ro_stored _ _ (Hok id r Hr))) as Hid.
  change (J_ID (decodeJob (Row_payload r))) with (J_ID (Row_payload r)). rewrite Hid.
  by rewrite (proj2 (open_mem_lookup p id _ Hok) (ex_intro _ r (conj Hr (conj Ho eq_refl)))).
Qed.

(** ** The invariant of the table *)

Record pg_ok (p : Postgres) : Prop := {
  pk_rows : rows_ok p;
  pk_prefix id id' : is_Some (table p !! id) → is_Some (table p !! id') →
    str_take 12 id = str_take 12 id' → id = id';
  pk_store : memory.store_ok (open_mem p);
}.

(** What an operation does to the rows that are there: jobs change along the task
    state machine, and a job that has ended does not change at all. *)
Definition frame (p p' : Postgres) : Prop :=
  ∀ id r, table p !! id = Some r → ∃ r', table p' !! id = Some r' ∧
    memory.kept (Row_payload r) (Row_payload r') ∧
    (open_row r = false → decodeJob (Row_payload r') = decodeJob (Row_payload r)).

Lemma row_job id r : row_ok id r → job_ok (Row_payload r).
Proof. intros Hr. apply (memory.sj_ok _ _ (ro_stored _ _ Hr)). Qed.

Lemma kept_trans j1 j2 j3 : memory.kept j1 j2 → memory.kept j2 j3 → memory.kept j1 j3.
Proof. intros [_ ?] [? ?]. split; [done|by etrans]. Qed.

Lemma frame_refl p : rows_ok p → frame p p.
Proof.
  intros Hok id r Hr. exists r. split; [done|]. split; [|done]. split; [|done].
  by eapply row_job, Hok.
Qed.

Lemma decode_eq_closed id id' r r' :
  row_ok id r → row_ok id' r' → decodeJob (Row_payload r') = decodeJob (Row_payload r) →
  open_row r' = open_row r.
Proof.
  intros Hr Hr' E. rewrite (open_row_occupies _ _ Hr), (open_row_occupies _ _ Hr').
  apply (f_equal occupies) in E. exact E.
Qed.

Lemma frame_trans p1 p2 p3 : rows_ok p1 → rows_ok p2 → frame p1 p2 → frame p2 p3 → frame p1 p3.
Proof.
  intros Hok1 Hok2 H12 H23 id r1 Hr1. destruct (H12 id r1 Hr1) as (r2 & Hr2 & Hk & Hc).
  destruct (H23 id r2 Hr2) as (r3 & Hr3 & Hk' & Hc'). exists r3.
  split; [done|]. split; [by eapply kept_trans|]. intros Ho. rewrite <- (Hc Ho). apply Hc'.
  by rewrite (decode_eq_closed id id r1 r2 (Hok1 _ _ Hr1) (Hok2 _ _ Hr2) (Hc Ho)).
Qed.

(** *** One row is written *)

Lemma set_row_ok id r job : row_ok id r → memory.kept (Row_payload r) job → row_ok id (set_row r job).
Proof.
  intros [Hid Hst Hs Hc] Hk. split; cbn; [done|by eapply memory.kept_stored|done|].
  rewrite Hc. destruct Hk as [_ [Hj _ _]]. unfold job_static in Hj. congruence.
Qed.

Lemma kept_id j j' : memory.kept j j' → J_ID j' = J_ID j.
Proof. intros [_ [Hs _ _]]. by apply job_static_inv in Hs as (? & _). Qed.

Section update.
  Context (p : Postgres) (id : string) (r : Row) (job : Job).
  Context (Hok : pg_ok p) (Hr : table p !! id = Some r) (Hk : memory.kept (Row_payload r) job).

Lemma update_id : J_ID job = id.
Proof using Type*.
  rewrite (kept_id _ _ Hk). apply (memory.sj_id _ _ (ro_stored _ _ (pk_rows p Hok _ _ Hr))).
Qed.

Lemma update_lookup id' :
  table (update p job) !! id' = if id' == id then Some (set_row r job) else table p !! id'.
Proof using Type*.
  cbn. rewrite update_id. case_bool_decide as E.
  - subst id'. by rewrite lookup_alter_eq, Hr.
  - by rewrite lookup_alter_ne.
Qed.

Lemma update_rows : rows_ok (update p job).
Proof using Type*.
  intros id' r'. rewrite update_lookup. case_bool_decide as E; [|apply (pk_rows p Hok)].
  intros [= <-]. subst id'. apply set_row_ok; [by apply (pk_rows p Hok)|done].
Qed.

Lemma update_frame :
  (open_row r = false → decodeJob job = decodeJob (Row_payload r)) → frame p (update p job).
Proof using Type*.
  intros Hc id' r' Hr'. rewrite update_lookup. case_bool_decide as E.
  - subst id'. simplify_eq. eexists. done.
  - exists r'. split; [done|]. split; [|done]. split; [|done]. by eapply row_job, (pk_rows p Hok).
Qed.

Lemma update_prefix i i' :
  is_Some (table (update p job) !! i) → is_Some (table (update p job) !! i') →
  str_take 12 i = str_take 12 i' → i = i'.
Proof using Type*.
  assert (∀ i, is_Some (table (update p job) !! i) → is_Some (table p !! i)) as Hd.
  { intros k. rewrite update_lookup. case_bool_decide; [subst; eauto|done]. }
  intros ?%Hd ?%Hd. by apply (pk_prefix p Hok).
Qed.

(** The open jobs afterwards: the written one if it is still open, and the others. *)
Lemma update_open :
  (occupies job = true → decodeJob job = job) →
  memory.byID (open_mem (update p job)) ⊆ <[id := job]> (memory.byID (open_mem p)).
Proof using Type*.
  intros Hd. apply map_subseteq_spec. intros id' j Hj.
  apply open_mem_lookup in Hj as (r' & Hr' & Ho & ->); [|apply update_rows].
  pose proof (update_rows id' r' Hr') as Hro. rewrite (open_row_occupies id' r' Hro) in Ho.
  rewrite update_lookup in Hr'. case_bool_decide as E.
  - subst id'. injection Hr' as <-. rewrite lookup_insert_eq. cbn in Ho |- *. by rewrite Hd.
  - rewrite lookup_insert_ne by done. apply open_mem_lookup; [apply Hok|]. exists r'.
    by rewrite (open_row_occupies id' r' Hro).
Qed.

Lemma update_ok :
  (occupies job = true → decodeJob job = job) →
  memory.store_ok (memory.set_byID (open_mem p) (<[id := job]> (memory.byID (open_mem p)))) →
  pg_ok (update p job).
Proof using Type*.
  intros Hd Hs. split; [apply update_rows|apply update_prefix|].
  apply (store_ok_sub _ (open_mem (update p job)) Hs); [by apply update_open|..].
  - cbn. by apply lockJobs_nodup, update_rows.
  - intros i. by apply open_mem_order, update_rows.
  - done.
Qed.
End update.

(** *** Expiring *)

Lemma foldl_update_other l p id :
  id ∉ J_ID <$> l → table (foldl update p l) !! id = table p !! id.
Proof.
  revert p. induction l as [|j l IH]; intros p Hn; [done|]. cbn in *.
  rewrite not_elem_of_cons in Hn. destruct Hn. rewrite IH by done. cbn. by rewrite lookup_alter_ne.
Qed.

Lemma foldl_update_one l p job :
  NoDup (J_ID <$> l) → job ∈ l →
  table (foldl update p l) !! J_ID job = (λ r, set_row r job) <$> table p !! J_ID job.
Proof.
  revert p. induction l as [|j l IH]; intros p Hnd Hin; [by apply not_elem_of_nil in Hin|].
  cbn in *. apply NoDup_cons in Hnd as [Hn Hnd]. apply elem_of_cons in Hin as [->|Hin].
  - rewrite foldl_update_other by done. cbn. apply lookup_alter_eq.
  - rewrite IH by done. cbn. rewrite lookup_alter_ne; [done|]. intros E. apply Hn.
    rewrite E. by apply list_elem_of_fmap_2.
Qed.

Lemma expired_id now j j' : job_ok j → expired now j = Some j' → J_ID j' = J_ID j.
Proof. intros Hok ->%expired_Some. by apply kept_id, expire_keeps. Qed.

Lemma lockJobs_ok p j : rows_ok p → j ∈ lockJobs p → job_ok j.
Proof.
  intros Hok (id & r & Hr & _ & ->)%elem_of_lockJobs. by eapply decode_kept, row_job, Hok.
Qed.

Lemma expired_ids now l :
  Forall job_ok l → J_ID <$> omap (expired now) l `sublist_of` J_ID <$> l.
Proof.
  induction 1 as [|j l Hj _ IH]; [done|]. cbn. destruct (expired now j) as [j'|] eqn:E; cbn.
  - rewrite (expired_id now j j' Hj E). by apply sublist_skip.
  - by apply sublist_cons.
Qed.

(** The row of a job after [expireTx]. *)
Definition expire_row (now : Z) (r : Row) : Row :=
  if open_row r then
    match expired now (decodeJob (Row_payload r)) with
    | Some j => set_row r j
    | None => r
    end
  else r.

Lemma expireTx_lookup p now id :
  rows_ok p → table (expireTx p now).1 !! id = expire_row now <$> table p !! id.
Proof.
  intros Hok. cbn. set (L := omap (expired now) (lockJobs p)).
  assert (Forall job_ok (lockJobs p)) as Hall
    by (apply Forall_forall; intros j; by apply lockJobs_ok).
  assert (NoDup (J_ID <$> L)) as Hnd
    by (eapply sublist_NoDup; [by apply lockJobs_nodup|by apply expired_ids]).
  destruct (decide (id ∈ J_ID <$> L)) as [Hin|Hn].
  - apply list_elem_of_fmap in Hin as (j' & -> & Hj').
    rewrite (foldl_update_one L p j' Hnd Hj'). apply list_elem_of_omap in Hj' as (j & Hj & He).
    rewrite (expired_id now j j' (lockJobs_ok p j Hok Hj) He).
    apply elem_of_lockJobs in Hj as (id & r & Hr & Ho & ->).
    pose proof (memory.sj_id _ _ (ro_stored _ _ (Hok id r Hr))) as Hid.
    change (J_ID (decodeJob (Row_payload r))) with (J_ID (Row_payload r)). rewrite Hid, Hr.
    cbn. unfold expire_row. by rewrite Ho, He.
  - rewrite foldl_update_other by done. destruct (table p !! id) as [r|] eqn:Hr; [|done].
    cbn. f_equal. unfold expire_row. destruct (open_row r) eqn:Ho; [|done].
    destruct (expired now _) as [j'|] eqn:He; [|done]. exfalso. apply Hn.
    pose proof (memory.sj_id _ _ (ro_stored _ _ (Hok id r Hr))) as <-.
    assert (job_ok (decodeJob (Row_payload r))) as Hd by (by eapply decode_kept, row_job, Hok).
    apply list_elem_of_fmap. exists j'. rewrite (expired_id now _ j' Hd He). split; [done|].
    apply list_elem_of_omap. exists (decodeJob (Row_payload r)). split; [|done].
    apply elem_of_lockJobs. eauto.
Qed.

(** It is the row of the job as the in-memory store leaves it. *)
Lemma expire_row_kept now id r :
  row_ok id r →
  memory.kept (Row_payload r) (Row_payload (expire_row now r)) ∧
  decodeJob (Row_payload (expire_row now r)) =
    if open_row r then (expire_job (decodeJob (Row_payload r)) now).1 else decodeJob (Row_payload r).
Proof.
  intros Hr. pose proof (row_job id r Hr) as Hj. unfold expire_row.
  destruct (open_row r); [|by split; [split|]].
  destruct (expired now _) as [j'|] eqn:He.
  - apply expired_Some in He as ->. cbn. split; [|apply decode_expire].
    eapply kept_trans; [by apply decode_kept|]. by apply expire_keeps, decode_kept.
  - by rewrite (expired_None now _ He).
Qed.

Lemma expireTx_rows p now : rows_ok p → rows_ok (expireTx p now).1.
Proof.
  intros Hok id r'. rewrite expireTx_lookup by done. intros (r & Hr & ->)%fmap_Some.
  pose proof (Hok id r Hr) as Hro. destruct (expire_row_kept now id r Hro) as [Hk _].
  unfold expire_row in *. destruct (open_row r); [|done].
  destruct (expired now _); [by apply set_row_ok|done].
Qed.

Lemma expireTx_frame p now : rows_ok p → frame p (expireTx p now).1.
Proof.
  intros Hok id r Hr. rewrite expireTx_lookup, Hr by done. eexists. split; [done|].
  destruct (expire_row_kept now id r (Hok _ _ Hr)) as [Hk Hd]. split; [done|].
  intros Ho. by rewrite Hd, Ho.
Qed.

Lemma expireTx_open p now id j :
  rows_ok p →
  memory.byID (open_mem (expireTx p now).1) !! id = Some j ↔
  memory.byID (memory.requeueExpiredLocked (open_mem p) now).1 !! id = Some j ∧ occupies j = true.
Proof.
  intros Hok. pose proof (expireTx_rows p now Hok) as Hok'.
  rewrite open_mem_lookup by done. cbn [memory.requeueExpiredLocked memory.byID memory.set_byID fst].
  rewrite lookup_fmap, fmap_Some. setoid_rewrite open_mem_lookup; [|done].
  rewrite expireTx_lookup by done. split.
  - intros (r' & (r & Hr & ->)%fmap_Some & Ho & ->).
    assert (row_ok id (expire_row now r)) as Hro by (apply Hok'; by rewrite expireTx_lookup, Hr).
    rewrite (open_row_occupies _ _ Hro) in Ho.
    destruct (expire_row_kept now id r (Hok _ _ Hr)) as [_ Hd].
    destruct (open_row r) eqn:Hor.
    + split; [|exact Ho]. rewrite Hd. eexists. split; [by exists r|done].
    + apply (f_equal occupies) in Hd. change (occupies (Row_payload (expire_row now r)) =
        occupies (Row_payload r)) in Hd. rewrite Ho, <- (open_row_occupies _ _ (Hok _ _ Hr)) in Hd. congruence.
  - intros [(j0 & (r & Hr & Ho & ->) & ->) Hoc]. exists (expire_row now r).
    assert (row_ok id (expire_row now r)) as Hro by (apply Hok'; by rewrite expireTx_lookup, Hr).
    destruct (expire_row_kept now id r (Hok _ _ Hr)) as [_ Hd]. rewrite Ho in Hd.
    rewrite Hr. split; [done|]. split; [|done]. rewrite (open_row_occupies _ _ Hro).
    by rewrite <- Hd in Hoc.
Qed.

Lemma expireTx_ok p now : pg_ok p → pg_ok (expireTx p now).1.
Proof.
  intros [Hok Hpre Hs]. pose proof (expireTx_rows p now Hok) as Hok'. split; [done|..].
  - intros id id'. rewrite !expireTx_lookup by done. rewrite !fmap_is_Some. apply Hpre.
  - apply (store_ok_sub _ _ (memory.requeue_ok _ now Hs)).
    + apply map_subseteq_spec. intros id j Hj. by apply (expireTx_open p now id j) in Hj as [? _].
    + by apply lockJobs_nodup.
    + intros id. by apply open_mem_order.
    + cbn. generalize (omap (expired now) (lockJobs p)). intros L. clear.
      revert p. induction L as [|j L IH]; intros p; [done|]. cbn. by rewrite IH.
Qed.

(** ** The operations, compared with the in-memory store of the open jobs *)

Lemma expire_idem j now :
  job_ok j → expire_job (expire_job j now).1 now = ((expire_job j now).1, 0%Z).
Proof.
  intros Hok. destruct (expire_keeps j now Hok) as [Hok' [Hs _ _]].
  assert (job_deadline (expire_job j now).1 = job_deadline j) as Hd.
  { unfold job_deadline, job_static in *. injection Hs as _ _ _ -> _ _ _ -> _ _ _ _. done. }
  pose proof (memory.expire_leased j now) as Hle. pose proof (memory.expire_deadline j now) as Hde.
  generalize dependent (expire_job j now).1. intros j' Hok' _ Hd Hle Hde.
  unfold expire_job. assert (failDeadline j' now = None) as ->.
  { unfold failDeadline. rewrite Hd. destruct (job_deadline j) as [d|]; [|done].
    destruct (Z.ltb_spec d now); [|done]. cbn. by rewrite (Hde d). }
  destruct (Z.ltb_spec 0 (count snd ((λ t, requeue t now (J_Canceled j')) <$> J_Tasks j'))) as [Hc|]; [|done].
  exfalso. apply count_pos in Hc as (x & (t & -> & Ht)%list_elem_of_fmap & Hq).
  unfold requeue in Hq. case_bool_decide as Hl; [|done]. cbn in Hq. specialize (Hle t Ht Hl).
  destruct (Z.eqb_spec (T_LeaseUntil t) 0); [done|].
  destruct (Z.ltb_spec (T_LeaseUntil t) now); [lia|done].
Qed.

Lemma requeue_open p now :
  pg_ok p → (memory.requeueExpiredLocked (open_mem (expireTx p now).1) now).1 = open_mem (expireTx p now).1.
Proof.
  intros Hok. unfold memory.requeueExpiredLocked. cbn [fst].
  assert ((λ j, (expire_job j now).1) <$> memory.byID (open_mem (expireTx p now).1) =
    memory.byID (open_mem (expireTx p now).1)) as ->; [|by apply memory.set_byID_same].
  apply map_eq. intros id. rewrite lookup_fmap.
  destruct (memory.byID (open_mem (expireTx p now).1) !! id) as [j|] eqn:Hj; [|done].
  cbn [fmap option_fmap option_map]. f_equal. apply (expireTx_open p now id j (pk_rows p Hok)) in Hj as [Hj _].
  cbn in Hj. rewrite lookup_fmap in Hj. apply fmap_Some in Hj as (j0 & Hj0 & ->).
  rewrite expire_idem; [done|]. apply (memory.sj_ok id), (memory.so_jobs _ (pk_store p Hok) id j0 Hj0).
Qed.

Lemma jobStatus_running ts :
  has_state ts StateFailed = false → has_state ts StateLeased || has_state ts StateReady = true →
  jobStatus ts = StatusRunning.
Proof. unfold jobStatus. by intros -> ->. Qed.

(** Refreshing a job after a lease changes nothing more than its status. *)
Lemma lease_row_eq j i t attempt w now :
  job_ok j → occupies j = true → decodeJob j = j → J_Tasks j !! i = Some t → ready_task t = true →
  TrimSpace w ≠ "" →
  lease_row j i (lease_task t attempt w now) = lease_job j i (lease_task t attempt w now).
Proof.
  intros Hok Ho Hd Ht Hr Hw. pose proof (lease_task_moves t attempt w now Hr Hw) as Hm.
  assert (J_Blockers j = validate.D_Blockers (blocked_by_status (J_Status j)) ∧
    J_Validated j = validate.D_Validated (blocked_by_status (J_Status j))) as [Hb Hv].
  { rewrite <- decode_open by done. split; by rewrite <- Hd at 1. }
  unfold ready_task in Hr. apply andb_true_iff in Hr as [Hr%bool_decide_eq_true _].
  apply (occupies_iff j Hok) in Ho as (Hc & Hf & _).
  assert (settle (<[i := lease_task t attempt w now]> (J_Tasks j)) =
    <[i := lease_task t attempt w now]> (J_Tasks j)) as Hst.
  { apply settle_id, (settled_insert _ i t); [done|apply (jo_settled j Hok)|done|apply Hm]. }
  set (ts := <[i := lease_task t attempt w now]> (J_Tasks j)) in *.
  assert (jobStatus ts = StatusRunning) as Hs1.
  { apply jobStatus_running.
    - apply not_true_is_false. rewrite has_state_True. intros (u & Hu & Huf).
      apply list_elem_of_lookup in Hu as [k Hk]. unfold ts in Hk.
      apply list_lookup_insert_Some in Hk as [(_ & <- & _)|[_ Hk]]; [done|].
      apply not_true_iff_false in Hf. apply Hf, has_state_True.
      exists u. split; [by eapply list_elem_of_lookup_2|done].
    - apply orb_true_iff. left. apply has_state_True. exists (lease_task t attempt w now).
      split; [|done]. apply list_elem_of_lookup. exists i. apply list_lookup_insert_eq.
      by eapply lookup_lt_Some. }
  assert (J_Status j = StatusRunning) as Hs2.
  { rewrite (jo_status j Hok), Hc. apply jobStatus_running; [done|]. apply orb_true_iff. right.
    apply has_state_True. exists t. split; [by eapply list_elem_of_lookup_2|done]. }
  unfold lease_row, lease_job, refreshJob. cbn [set_tasks J_Tasks J_Canceled]. fold ts.
  rewrite Hst, Hc, Hs1. set (j' := set_tasks _ StatusRunning ts).
  rewrite (decode_open j') by done. rewrite Hs2 in Hb, Hv.
  unfold job_upd, j', set_tasks. cbn. by rewrite Hb, Hv, Hc.
Qed.

(** The table afterwards holds the jobs of the in-memory store afterwards that have
    not ended. *)
Definition tracks (p : Postgres) (m : memory.Memory) : Prop :=
  pg_quota p = memory.quota m ∧
  ∀ id j, memory.byID (open_mem p) !! id = Some j ↔ memory.byID m !! id = Some j ∧ occupies j = true.

Lemma open_mem_occupies p id j :
  rows_ok p → memory.byID (open_mem p) !! id = Some j → occupies j = true.
Proof.
  intros Hok (r & Hr & Ho & ->)%open_mem_lookup; [|done].
  by rewrite (open_row_occupies id r (Hok _ _ Hr)) in Ho.
Qed.

Lemma tracks_refl p : rows_ok p → tracks p (open_mem p).
Proof.
  intros Hok. split; [done|]. intros id j. split; [|by intros []]. intros Hj.
  split; [done|]. by eapply open_mem_occupies.
Qed.

Lemma expireTx_quota p now : pg_quota (expireTx p now).1 = pg_quota p.
Proof.
  cbn. generalize (omap (expired now) (lockJobs p)). intros L.
  revert p. induction L as [|j L IH]; intros p; [done|]. cbn. by rewrite IH.
Qed.

Lemma update_tracks p id r job :
  pg_ok p → table p !! id = Some r → memory.kept (Row_payload r) job →
  (occupies job = true → decodeJob job = job) →
  tracks (update p job) (memory.set_byID (open_mem p) (<[id := job]> (memory.byID (open_mem p)))).
Proof.
  intros Hok Hr Hk Hd. split; [done|]. intros id' j. cbn [memory.byID memory.set_byID].
  pose proof (update_rows p id r job Hok Hr Hk) as Hok'. split.
  - intros Hj. split; [|by eapply open_mem_occupies].
    pose proof (update_open p id r job Hok Hr Hk Hd) as Hsub. by eapply lookup_weaken.
  - intros [Hj Ho]. apply open_mem_lookup; [done|]. rewrite (update_lookup p id r job Hok Hr Hk).
    case_bool_decide as E.
    + subst id'. rewrite lookup_insert_eq in Hj. injection Hj as <-. exists (set_row r job).
      split; [done|]. split; [exact Ho|]. cbn. by rewrite Hd.
    + rewrite lookup_insert_ne in Hj by done. by apply open_mem_lookup in Hj; [|apply Hok].
Qed.

(** An operation on a good table: what it gives, and what it leaves. *)
Definition agrees {A} (p p' : Postgres) (r : result JobErr A) (op : result JobErr A * memory.Memory) : Prop :=
  op.1 = r ∧ tracks p' op.2 ∧ pg_ok p' ∧ frame p p'.

Lemma agrees_same {A} p (r : result JobErr A) : pg_ok p → agrees p p r (r, open_mem p).
Proof.
  intros Hok. split_and!; [done|by apply tracks_refl, Hok|done|by apply frame_refl, Hok].
Qed.

Lemma job_rows_perm p : pg_ok p → job_rows p ≡ₚ map_to_list (memory.byID (open_mem p)).
Proof.
  intros Hok. cbn. rewrite map_to_list_to_map; [done|]. unfold job_rows.
  rewrite <- list_fmap_compose. by apply lockJobs_nodup, Hok.
Qed.

(** Where a job of the list of rows comes from. *)
Lemma job_rows_row p id j :
  rows_ok p → (id, j) ∈ job_rows p →
  ∃ r, table p !! id = Some r ∧ open_row r = true ∧ j = decodeJob (Row_payload r) ∧ J_ID j = id.
Proof.
  intros Hok Hin. unfold job_rows in Hin. apply list_elem_of_fmap in Hin as (j' & [= -> ->] & Hj).
  apply elem_of_lockJobs in Hj as (id & r & Hr & Ho & ->). exists r.
  pose proof (memory.sj_id _ _ (ro_stored _ _ (Hok id r Hr))) as Hid. cbn. by rewrite Hid.
Qed.

(** Writing back a changed open job. *)
Lemma write_agrees {A} p id r job (res : result JobErr A) :
  pg_ok p → table p !! id = Some r → open_row r = true →
  memory.kept (decodeJob (Row_payload r)) job → (occupies job = true → decodeJob job = job) →
  memory.store_ok (memory.set_byID (open_mem p) (<[id := job]> (memory.byID (open_mem p)))) →
  agrees p (update p job) res
    (res, memory.set_byID (open_mem p) (<[id := job]> (memory.byID (open_mem p)))).
Proof.
  intros Hok Hr Ho Hk Hd Hs.
  assert (memory.kept (Row_payload r) job) as Hk'.
  { eapply kept_trans; [|done]. by eapply decode_kept, row_job, (pk_rows p Hok). }
  split_and!; cbn [fst snd]; [done|by eapply update_tracks|by eapply update_ok|].
  eapply update_frame; [done..|]. congruence.
Qed.

Lemma open_mem_row p id r :
  pg_ok p → table p !! id = Some r → open_row r = true →
  memory.byID (open_mem p) !! id = Some (decodeJob (Row_payload r)) ∧ job_ok (decodeJob (Row_payload r)).
Proof.
  intros Hok Hr Ho. split; [apply open_mem_lookup; [apply Hok|eauto]|].
  by eapply decode_kept, row_job, (pk_rows p Hok).
Qed.

Lemma Commit_agrees p tid aid res fail :
  pg_ok p →
  agrees p (Commit None tid aid res fail p).2 (Commit None tid aid res fail p).1
    (memory.Commit None tid aid res fail (open_mem p)).
Proof.
  intros Hok. rewrite <- (memory.Commit_in_order (open_mem p) (job_rows p));
    [|apply Hok|by apply job_rows_perm].
  unfold Commit, memory.Commit_in.
  destruct (normalizeID tid) as [t|]; [|by apply agrees_same].
  destruct (normalizeID aid) as [a|]; [|by apply agrees_same].
  destruct (memory.find_task t (job_rows p)) as [[[[id j] i] u]|] eqn:Hf; [|by apply agrees_same].
  destruct (applyCommit u a res fail) as [u'|] eqn:Hc; [|by apply agrees_same].
  apply memory.find_task_Some in Hf as (Hin & Hu & _).
  destruct (job_rows_row p id j (pk_rows p Hok) Hin) as (r & Hr & Ho & -> & Hid).
  destruct (open_mem_row p id r Hok Hr Ho) as [Hj Hjok].
  apply (write_agrees p id r); [done..|by eapply commit_keeps|done|].
  eapply memory.insert_ok; [apply Hok|done|by eapply commit_keeps|by eapply commit_shrinks].
Qed.

Lemma Heartbeat_agrees p tid aid w now :
  pg_ok p →
  agrees p (Heartbeat None tid aid w now p).2 (Heartbeat None tid aid w now p).1
    (memory.Heartbeat None tid aid w now (open_mem p)).
Proof.
  intros Hok. rewrite <- (memory.Heartbeat_in_order (open_mem p) (job_rows p));
    [|apply Hok|by apply job_rows_perm].
  unfold Heartbeat, memory.Heartbeat_in.
  destruct (normalizeID tid) as [t|]; [|by apply agrees_same].
  destruct (normalizeID aid) as [a|]; [|by apply agrees_same].
  destruct (memory.find_task t (job_rows p)) as [[[[id j] i] u]|] eqn:Hf; [|by apply agrees_same].
  destruct (applyHeartbeat u a w now) as [u'|] eqn:Hc; [|by apply agrees_same].
  apply memory.find_task_Some in Hf as (Hin & Hu & _).
  destruct (job_rows_row p id j (pk_rows p Hok) Hin) as (r & Hr & Ho & -> & Hid).
  destruct (open_mem_row p id r Hok Hr Ho) as [Hj Hjok].
  apply (write_agrees p id r); [done..|by eapply heartbeat_keeps| |].
  - intros _. apply decode_heartbeat. by rewrite <- (open_row_occupies id r (pk_rows p Hok _ _ Hr)).
  - eapply memory.insert_ok; [apply Hok|done|by eapply heartbeat_keeps|by eapply heartbeat_shrinks].
Qed.

Lemma Cancel_agrees p id :
  pg_ok p → pg_ok (Cancel None id p).2 ∧ frame p (Cancel None id p).2.
Proof.
  intros Hok. unfold Cancel. destruct (normalizeID id) as [k|]; cycle 1.
  { split; [done|by apply frame_refl, Hok]. }
  destruct (table p !! k) as [r|] eqn:Hr; cycle 1.
  { split; [done|by apply frame_refl, Hok]. }
  cbn [snd]. pose proof (pk_rows p Hok _ _ Hr) as Hro. pose proof (row_job k r Hro) as Hj.
  assert (memory.kept (Row_payload r) (applyCancel (decodeJob (Row_payload r)))) as Hk.
  { eapply kept_trans; [by apply decode_kept|]. by apply cancel_keeps, decode_kept. }
  assert (decodeJob (applyCancel (decodeJob (Row_payload r))) = applyCancel (decodeJob (Row_payload r))) as Hd
    by (unfold applyCancel; by destruct (ended _)).
  destruct (open_row r) eqn:Ho.
  - destruct (open_mem_row p k r Hok Hr Ho) as [Hjm Hjok]. split.
    + eapply update_ok; [done..|]. eapply memory.insert_ok; [apply Hok|done|by apply cancel_keeps|].
      apply cancel_shrinks.
    + eapply update_frame; [done..|]. congruence.
  - assert (applyCancel (decodeJob (Row_payload r)) = decodeJob (Row_payload r)) as E.
    { unfold applyCancel. rewrite memory.ended_occupies by (by apply decode_kept).
      change (occupies (decodeJob (Row_payload r))) with (occupies (Row_payload r)).
      by rewrite <- (open_row_occupies k r Hro), Ho. }
    rewrite E in *. split; [|eapply update_frame; [done..|by intros _]].
    split; [by eapply update_rows|by eapply update_prefix|].
    apply (store_ok_sub _ _ (pk_store p Hok)); [|by eapply lockJobs_nodup, update_rows| |done].
    + apply map_subseteq_spec. intros id' j Hj'.
      pose proof (update_rows p k r _ Hok Hr Hk) as Hok'.
      apply open_mem_lookup in Hj' as (r' & Hr' & Ho' & ->); [|done].
      rewrite (update_lookup p k r _ Hok Hr Hk) in Hr'. case_bool_decide as Ek.
      * injection Hr' as <-. unfold open_row in Ho, Ho'. cbn in Ho'.
        rewrite <- (ro_status k r Hro) in Ho'. congruence.
      * apply open_mem_lookup; [apply Hok|eauto].
    + intros i. by eapply open_mem_order, update_rows.
Qed.

Lemma expireTx_tracks p now :
  pg_ok p → tracks (expireTx p now).1 (memory.requeueExpiredLocked (open_mem p) now).1.
Proof.
  intros Hok. split; [by rewrite expireTx_quota|]. intros id j. apply expireTx_open, Hok.
Qed.

#[local] Instance total_Permutation {A} (f : A → Z) : Proper ((≡ₚ) ==> (=)) (total f).
Proof. induction 1; rewrite ?total_cons; lia. Qed.

Lemma map_fold_total (f : Job → Z) (m : gmap string Job) :
  map_fold (λ _ j n, (n + f j)%Z) 0%Z m = total f (map_to_list m).*2.
Proof.
  rewrite map_fold_foldr. induction (map_to_list m) as [|[k j] l IH]; [done|].
  rewrite fmap_cons, total_cons. cbn. rewrite IH. lia.
Qed.

Lemma RequeueExpired_agrees p now :
  pg_ok p →
  agrees p (RequeueExpired None now p).2 (RequeueExpired None now p).1
    (memory.RequeueExpired None now (open_mem p)).
Proof.
  intros Hok. unfold RequeueExpired, memory.RequeueExpired.
  pose proof (expireTx_tracks p now Hok) as Ht. pose proof (expireTx_ok p now Hok) as Hok'.
  pose proof (expireTx_frame p now (pk_rows p Hok)) as Hfr.
  assert ((memory.requeueExpiredLocked (open_mem p) now).2 = (expireTx p now).2) as Hn.
  { cbn [memory.requeueExpiredLocked expireTx snd]. rewrite map_fold_total, <- (job_rows_perm p Hok).
    unfold job_rows. by rewrite <- list_fmap_compose, list_fmap_id. }
  destruct (expireTx p now) as [p' n]. destruct (memory.requeueExpiredLocked _ now) as [m' n'].
  cbn in *. subst n'. by split_and!.
Qed.

Lemma pickReady_Some all want q ji ti :
  pickReady all want q = Some (ji, ti) →
  ∃ j t, all !! ji = Some j ∧ J_Tasks j !! ti = Some t ∧ ready_task t = true ∧
    eligible all want q j = true.
Proof.
  unfold pickReady. pose proof (pickReady_best all want q) as Hb.
  destruct (pick_loop _ _ _ _ _ _) as [[[ji' ti'] n]|]; [|done]. intros [= -> ->].
  destruct Hb as (_ & (j & Hj & He & _) & (j' & Hj' & Hf) & _). simplify_eq.
  apply first_ready_Some in Hf as (k & t & -> & Ht & Hr & _). by exists j, t.
Qed.

Lemma Lease_agrees p v w now want :
  pg_ok p → TrimSpace (W_ID w) ≠ "" → memory.wanted w = Ok want →
  agrees p (Lease None v w now p).2 (Lease None v w now p).1
    (memory.Lease None v w now (open_mem (expireTx p now).1)).
Proof.
  intros Hok Hw Hwant. set (p1 := (expireTx p now).1).
  pose proof (expireTx_ok p now Hok) as Hok1. fold p1 in Hok1.
  pose proof (expireTx_frame p now (pk_rows p Hok)) as Hfr. fold p1 in Hfr.
  assert (∀ A p' (r : result JobErr A) op, agrees p1 p' r op → agrees p p' r op) as Hfrom.
  { intros A p' r op (H1 & H2 & H3 & H4). split_and!; try done.
    by eapply frame_trans; [apply Hok|apply Hok1|..]. }
  apply Hfrom. destruct (memory.Lease None v w now (open_mem p1)) as [res m'] eqn:HL.
  pose proof (memory.Lease_safe _ _ _ _ _ _ _ (pk_store p1 Hok1) HL) as [Hs _].
  revert HL. unfold Lease, memory.Lease. fold p1.
  assert (worker_id w = Ok (W_ID w)) as ->
    by (unfold worker_id, guard_err; by rewrite bool_decide_eq_false_2).
  pose proof (requeue_open p now Hok) as Hq. pose proof (expireTx_quota p now) as Hquota.
  fold p1 in Hq, Hquota. rewrite Hwant, Hq, (jobs_of_open_mem p1 (pk_rows p1 Hok1)).
  change (memory.quota (open_mem p1)) with (pg_quota p1).
  rewrite Hquota.
  destruct (worker_slots w <=? _)%Z; [intros [= <- <-]; by apply agrees_same|].
  destruct (pickReady (lockJobs p1) want (pg_quota p)) as [[ji ti]|] eqn:Hp;
    [|intros [= <- <-]; by apply agrees_same].
  destruct (pickReady_Some _ _ _ _ _ Hp) as (j & t & Hj & Ht & Hr & He).
  rewrite Hj. cbn [default]. change (id j) with j. rewrite Ht.
  pose proof (list_elem_of_lookup_2 _ _ _ Hj) as (k & r & Hrow & Ho & Ej)%elem_of_lockJobs.
  destruct (open_mem_row p1 k r Hok1 Hrow Ho) as [Hjm Hjok]. rewrite <- Ej in Hjm, Hjok.
  assert (occupies j = true) as Hoc by (eapply open_mem_occupies; [apply Hok1|done]).
  assert (decodeJob j = j) as Hdj by (by rewrite Ej).
  assert (J_ID j = k) as Hid by (apply (memory.sj_id k), (memory.so_jobs _ (pk_store p1 Hok1) _ _ Hjm)).
  pose proof (lease_row_eq j ti t (newID v) (W_ID w) now Hjok Hoc Hdj Ht Hr Hw) as Hrow'.
  rewrite Hrow'. set (t' := lease_task t (newID v) (W_ID w) now) in *.
  assert (J_Tasks (lease_job j ti t') !! ti = Some t') as ->.
  { cbn. apply list_lookup_insert_eq. by eapply lookup_lt_Some. }
  change (J_ID (lease_job j ti t')) with (J_ID j). rewrite Hid. intros [= <- <-].
  apply (write_agrees p1 k r); [done..| | |exact Hs].
  - rewrite <- Ej. apply lease_keeps; [done..| |done].
    by apply (occupies_iff j Hjok) in Hoc as [? _].
  - intros _. rewrite <- Hrow'. apply decode_refresh.
Qed.

(** *** Creating *)

Definition fresh (p : Postgres) (id : string) : Prop :=
  ∀ id', is_Some (table p !! id') → str_take 12 id' ≠ str_take 12 id.

(** The same call with a context that is not canceled. *)
Definition no_ctx (e : CreateEnv) : CreateEnv :=
  MkCreateEnv None (Ce_rand e) (Ce_validate e) (Ce_build e) (Ce_expire e).

Section create.
  Context (p : Postgres) (e : CreateEnv) (opts : CreateOpts).
  Context (Hok : pg_ok p) (Hfresh : fresh p (newID (Ce_rand e))) (Hrand : (Ce_rand e < 2 ^ 64)%N).
  Context (Hsize : (N.of_nat (length (plan.DAG_Steps (Co_Plan opts))) ≤ 65536)%N).
Let p1 := (expireTx p (Ce_expire e)).1.

Lemma create_row_ok j :
  buildJob (Ce_rand e) (Ce_validate e) (Ce_build e) opts = Ok j → row_ok (J_ID j) (row_of j) ∧ decodeJob j = j.
Proof using Hrand Hsize.
  intros Hb. destruct (buildJob_inv _ _ _ _ _ Hb) as (_ & Hid & _ & _ & _ & _ & Hjok).
  split.
  - split; [done| |done|done].
    split; [done|done|rewrite Hid; apply newID_hex|by rewrite Hid, newID_length|].
    cbn [row_of Row_payload]. by rewrite (buildJob_size _ _ _ _ _ Hb).
  - unfold buildJob in Hb. apply rbind_ok in Hb as (_ & _ & [= <-]). apply decode_refresh.
Qed.

Lemma create_fresh : fresh p1 (newID (Ce_rand e)).
Proof using Hok Hfresh.
  intros id'. unfold p1. rewrite expireTx_lookup, fmap_is_Some by apply Hok. apply Hfresh.
Qed.

Lemma Create_agrees j p' :
  Create None e opts p = (Ok j, p') →
  agrees p p' (Ok j) (memory.Create (no_ctx e) opts (open_mem p1)).
Proof using All.
  unfold Create, memory.Create. cbn [no_ctx Ce_ctx Ce_rand Ce_validate Ce_build Ce_expire].
  destruct (buildJob _ _ _ _) as [j'|] eqn:Hb; [|done]. fold p1.
  pose proof (expireTx_ok p (Ce_expire e) Hok) as Hok1.
  pose proof (expireTx_frame p (Ce_expire e) (pk_rows p Hok)) as Hfr.
  pose proof (requeue_open p (Ce_expire e) Hok) as Hq. pose proof (expireTx_quota p (Ce_expire e)) as Hquota.
  fold p1 in Hok1, Hq, Hquota, Hfr. rewrite Hq, (jobs_of_open_mem p1 (pk_rows p1 Hok1)).
  change (memory.quota (open_mem p1)) with (pg_quota p1). rewrite Hquota.
  destruct (gatewayBusy _ _) eqn:Hgb; [done|]. destruct (overActive _ _ _) eqn:Hoa; [done|].
  destruct (table p1 !! J_ID j') eqn:Hn; [done|]. intros [= -> <-].
  destruct (create_row_ok j Hb) as [Hro Hdj].
  assert (newID (Ce_rand e) = J_ID j) as Hid by (symmetry; by eapply buildJob_inv).
  pose proof create_fresh as Hf1.
  assert (rows_ok (MkPostgres (<[J_ID j := row_of j]> (table p1)) (pg_quota p))) as Hrows.
  { apply map_Forall_insert_2; [done|apply Hok1]. }
  set (p2 := MkPostgres _ _) in *.
  assert (tracks p2 (memory.MkMemory (<[J_ID j := j]> (memory.byID (open_mem p1)))
    (memory.order (open_mem p1) ++ [J_ID j]) (pg_quota p))) as Htr.
  { split; [done|]. intros id j'. cbn [memory.byID]. rewrite (open_mem_lookup p2) by done.
    cbn [p2 table]. destruct (decide (J_ID j = id)) as [<-|Hne].
    - rewrite !lookup_insert_eq. split.
      + intros (r & [= <-] & Ho & ->). cbn [row_of Row_payload]. rewrite Hdj. split; [done|exact Ho].
      + intros [[= <-] Ho]. exists (row_of j). split; [done|]. split; [exact Ho|].
        cbn [row_of Row_payload]. by rewrite Hdj.
    - rewrite !lookup_insert_ne by done. rewrite <- (open_mem_lookup p1) by apply Hok1.
      split; [|by intros []]. intros Hj'. split; [done|]. by eapply open_mem_occupies, Hj'; apply Hok1. }
  split_and!; [done|exact Htr| |].
  - split; [done|..].
    + intros i i'. cbn [p2 table]. rewrite !lookup_insert_is_Some'. rewrite Hid in Hf1.
      intros [<-|Hi] [<-|Hi'] E; [done|by apply Hf1 in Hi'; rewrite E in Hi'|by apply Hf1 in Hi|].
      by apply (pk_prefix p1 Hok1).
    + apply (store_ok_sub (memory.MkMemory (<[J_ID j := j]> (memory.byID (open_mem p1)))
        (memory.order (open_mem p1) ++ [J_ID j]) (memory.quota (open_mem p1)))).
      * eapply memory.create_ok; [apply Hok1|done|..|done|done|by rewrite jobs_of_open_mem by apply Hok1|].
        -- intros i' Hi' E. apply open_mem_order in Hi' as [u Hu]; [|apply Hok1].
           apply open_mem_lookup in Hu as (r & Hr & _); [|apply Hok1]. by eapply Hf1, E.
        -- cbn [memory.quota open_mem]. by rewrite jobs_of_open_mem, Hquota by apply Hok1.
      * apply map_subseteq_spec. intros i u Hu. by apply Htr in Hu as [? _].
      * by apply lockJobs_nodup.
      * intros i. by apply open_mem_order.
      * exact (eq_sym Hquota).
  - intros i r Hr. destruct (Hfr i r Hr) as (r' & Hr' & Hk). exists r'. split; [|done].
    cbn [p2 table]. rewrite lookup_insert_ne; [done|]. congruence.
Qed.

(** A refused [Create] answers like the in-memory store and is rolled back. *)
Lemma Create_refused err p' :
  Create None e opts p = (Err err, p') → (memory.Create (no_ctx e) opts (open_mem p1)).1 = Err err ∧ p' = p.
Proof using All.
  unfold Create, memory.Create. cbn [no_ctx Ce_ctx Ce_rand Ce_validate Ce_build Ce_expire].
  destruct (buildJob _ _ _ _) as [j'|] eqn:Hb; [|by intros [= -> ->]]. fold p1.
  pose proof (expireTx_ok p (Ce_expire e) Hok) as Hok1.
  pose proof (requeue_open p (Ce_expire e) Hok) as Hq. pose proof (expireTx_quota p (Ce_expire e)) as Hquota.
  fold p1 in Hok1, Hq, Hquota. rewrite Hq, (jobs_of_open_mem p1 (pk_rows p1 Hok1)).
  change (memory.quota (open_mem p1)) with (pg_quota p1). rewrite Hquota.
  destruct (gatewayBusy _ _); [by intros [= -> ->]|]. destruct (overActive _ _ _); [by intros [= -> ->]|].
  destruct (table p1 !! J_ID j') eqn:Hn; [|done]. exfalso.
  apply (create_fresh (J_ID j')); [by rewrite Hn|]. apply buildJob_inv in Hb as (_ & -> & _). done.
Qed.

Lemma pg_Create_ok db r p' : Create db e opts p = (r, p') → pg_ok p' ∧ frame p p'.
Proof using All.
  destruct r as [j|err].
  - intros Hc. assert (Create None e opts p = (Ok j, p')) as Hc'.
    { revert Hc. unfold Create. destruct (buildJob _ _ _ _); [|done]. by destruct db. }
    by destruct (Create_agrees j p' Hc') as (_ & _ & ? & ?).
  - intros Hc. assert (p' = p) as ->; [|by split; [|apply frame_refl, Hok]].
    revert Hc. unfold Create. destruct (buildJob _ _ _ _); [|by intros [= _ <-]].
    destruct db; [by intros [= _ <-]|]. destruct (gatewayBusy _ _); [by intros [= _ <-]|].
    destruct (overActive _ _ _); [by intros [= _ <-]|].
    destruct (table _ !! _); [by intros [= _ <-]|done].
Qed.
End create.

(** ** Executions *)

(** One operation of some caller. *)
Inductive step (p : Postgres) : Postgres → Prop :=
| step_create db e opts r p' :
    fresh p (newID (Ce_rand e)) → (Ce_rand e < 2 ^ 64)%N →
    (N.of_nat (length (plan.DAG_Steps (Co_Plan opts))) ≤ 65536)%N →
    Create db e opts p = (r, p') → step p p'
| step_lease db v w now r p' : Lease db v w now p = (r, p') → step p p'
| step_heartbeat db tid aid w now r p' : Heartbeat db tid aid w now p = (r, p') → step p p'
| step_commit db tid aid res fail r p' : Commit db tid aid res fail p = (r, p') → step p p'
| step_requeue db now r p' : RequeueExpired db now p = (r, p') → step p p'
| step_cancel db id r p' : Cancel db id p = (r, p') → step p p'.

Definition reachable (q : Quota) (p : Postgres) : Prop := rtc step (WithQuota q (NewPostgres ∅)) p.

Lemma pair_snd {A B} (x : A * B) a b : x = (a, b) → b = x.2.
Proof. by intros ->. Qed.

Lemma pg_step_ok p p' : pg_ok p → step p p' → pg_ok p' ∧ frame p p'.
Proof.
  intros Hok Hs. assert (pg_ok p ∧ frame p p) as Hsame by (by split; [|apply frame_refl, Hok]).
  destruct Hs as [db e opts r p' ??? Hc|db v w now r p' ->%pair_snd|db tid aid w now r p' ->%pair_snd|
                  db tid aid res fail r p' ->%pair_snd|db now r p' ->%pair_snd|db id r p' ->%pair_snd].
  - by eapply pg_Create_ok.
  - destruct db as [err|].
    { unfold Lease. destruct (worker_id w); [|done]. by destruct (memory.wanted w). }
    destruct (decide (TrimSpace (W_ID w) = "")) as [E|Hw].
    { unfold Lease, worker_id, guard_err. by rewrite bool_decide_eq_true_2. }
    destruct (memory.wanted w) as [want|err] eqn:Hwant.
    + by destruct (Lease_agrees p v w now want Hok Hw Hwant) as (_ & _ & ?).
    + unfold Lease. rewrite Hwant. by destruct (worker_id w).
  - destruct db as [err|]; [|by destruct (Heartbeat_agrees p tid aid w now Hok) as (_ & _ & ?)].
    unfold Heartbeat. by destruct (normalizeID tid), (normalizeID aid).
  - destruct db as [err|]; [|by destruct (Commit_agrees p tid aid res fail Hok) as (_ & _ & ?)].
    unfold Commit. by destruct (normalizeID tid), (normalizeID aid).
  - destruct db as [err|]; [done|]. by destruct (RequeueExpired_agrees p now Hok) as (_ & _ & ?).
  - destruct db as [err|]; [|by apply Cancel_agrees].
    unfold Cancel. by destruct (normalizeID id).
Qed.

Lemma NewPostgres_ok q : pg_ok (WithQuota q (NewPostgres ∅)).
Proof.
  split.
  - apply map_Forall_empty.
  - intros id id' [r Hr]. cbn [WithQuota NewPostgres table] in Hr. by rewrite lookup_empty in Hr.
  - apply (store_ok_sub _ _ (memory.NewMemory_ok q)).
    + apply map_subseteq_spec. intros id j Hj. apply open_mem_lookup in Hj as (r & Hr & _).
      * cbn [WithQuota NewPostgres table] in Hr. by rewrite lookup_empty in Hr.
      * apply map_Forall_empty.
    + apply lockJobs_nodup, map_Forall_empty.
    + intros id. apply open_mem_order, map_Forall_empty.
    + done.
Qed.

Lemma steps_ok p p' : pg_ok p → rtc step p p' → pg_ok p' ∧ frame p p'.
Proof.
  intros Hok Hr. revert Hok. induction Hr as [p|p1 p2 p3 Hs _ IH]; intros Hok.
  - by split; [|apply frame_refl, Hok].
  - destruct (pg_step_ok p1 p2 Hok Hs) as [Hok2 H12]. destruct (IH Hok2) as [Hok3 H23].
    split; [done|]. eapply frame_trans; [apply Hok|apply Hok2|done..].
Qed.

Lemma pg_reachable_ok q p : reachable q p → pg_ok p.
Proof. intros Hr. by apply (steps_ok _ _ (NewPostgres_ok q) Hr). Qed.

Lemma pg_step_quota p p' : step p p' → pg_quota p' = pg_quota p.
Proof.
  destruct 1 as [db e opts r p' ??? ->%pair_snd|db v w now r p' ->%pair_snd|db tid aid w now r p' ->%pair_snd|
                 db tid aid res fail r p' ->%pair_snd|db now r p' ->%pair_snd|db id r p' ->%pair_snd].
  - unfold Create. repeat case_match; done.
  - unfold Lease. repeat case_match; cbn [snd update pg_quota]; by rewrite ?expireTx_quota.
  - unfold Heartbeat. repeat case_match; done.
  - unfold Commit. repeat case_match; done.
  - unfold RequeueExpired. destruct db; [done|]. pose proof (expireTx_quota p now) as Hq.
    by destruct (expireTx p now).
  - unfold Cancel. repeat case_match; done.
Qed.

Lemma pg_reachable_quota q p : reachable q p → pg_quota p = q.
Proof.
  unfold reachable. intros Hr. rewrite <- (eq_refl : pg_quota (WithQuota q (NewPostgres ∅)) = q).
  induction Hr as [|p1 p2 p3 Hs _ IH]; [done|]. by rewrite IH, (pg_step_quota p1 p2).
Qed.

(** ** Guarantees *)

(** In every reachable state of the Postgres store, counted over the jobs that
    have not ended: no worker holds more than [MaxSlots] leases, no service has more
    leased tasks or unfinished jobs than its quota allows, and two unfinished jobs
    never share a gateway. *)
Theorem pg_limits q p :
  reachable q p →
  (∀ w, countLeased (lockJobs p) w ≤ MaxSlots)%Z ∧
  (∀ s, leased_in (lockJobs p) s ≤ Q_LeasedTasks (normalized q))%Z ∧
  (∀ s, memory.active_in (lockJobs p) s ≤ Q_ActiveJobs (normalized q))%Z ∧
  memory.exclusive (lockJobs p).
Proof.
  intros Hr. pose proof (pg_reachable_ok q p Hr) as Hok. rewrite <- (jobs_of_open_mem p (pk_rows p Hok)).
  destruct (pk_store p Hok) as [_ _ _ _ Hs Hl Ha Hg].
  change (memory.quota (open_mem p)) with (pg_quota p) in Hl, Ha.
  rewrite (pg_reachable_quota q p Hr) in Hl, Ha. done.
Qed.

(** *** The jobs that have ended

    The in-memory store above does not hold them; the Postgres store still does. *)

Definition ended_at (p : Postgres) (id : string) (r : Row) : Prop :=
  ∃ k, normalizeID id = Some k ∧ table p !! k = Some r ∧ open_row r = false.

Lemma Cancel_refines p id :
  pg_ok p → (∀ r, ¬ ended_at p id r) →
  (memory.Cancel None id (open_mem p)).1 = (Cancel None id p).1 ∧
  tracks (Cancel None id p).2 (memory.Cancel None id (open_mem p)).2.
Proof.
  intros Hok He. unfold Cancel, memory.Cancel. pose proof (tracks_refl p (pk_rows p Hok)) as Ht.
  destruct (normalizeID id) as [k|] eqn:Hk; [|done]. destruct (table p !! k) as [r|] eqn:Hr.
  - assert (open_row r = true) as Ho by (apply not_false_iff_true; intros Ho; by apply (He r); exists k).
    destruct (open_mem_row p k r Hok Hr Ho) as [Hj Hjok]. rewrite Hj. cbn [fst snd]. split; [done|].
    apply (update_tracks p k r); [done..| |].
    + eapply kept_trans; [by eapply decode_kept, row_job, (pk_rows p Hok)|]. by apply cancel_keeps.
    + intros _. unfold applyCancel. by destruct (ended _).
  - assert (memory.byID (open_mem p) !! k = None) as ->; [|done].
    apply eq_None_not_Some. intros [j Hj]. apply open_mem_lookup in Hj as (r & Hr' & _); [|apply Hok]. congruence.
Qed.

Lemma Get_refines p id :
  pg_ok p → (∀ r, ¬ ended_at p id r) → memory.Get None id (open_mem p) = Get None id p.
Proof.
  intros Hok He. unfold Get, memory.Get. destruct (normalizeID id) as [k|] eqn:Hk; [|done].
  destruct (table p !! k) as [r|] eqn:Hr.
  - assert (open_row r = true) as Ho by (apply not_false_iff_true; intros Ho; by apply (He r); exists k).
    by destruct (open_mem_row p k r Hok Hr Ho) as [-> _].
  - assert (memory.byID (open_mem p) !! k = None) as ->; [|done].
    apply eq_None_not_Some. intros [j Hj]. apply open_mem_lookup in Hj as (r & Hr' & _); [|apply Hok]. congruence.
Qed.

Lemma ended_answers p id r :
  pg_ok p → ended_at p id r →
  Get None id p = Ok (decodeJob (Row_payload r)) ∧ (Cancel None id p).1 = Ok (decodeJob (Row_payload r)) ∧
  memory.Get None id (open_mem p) = Err ErrNotFound.
Proof.
  intros Hok (k & Hk & Hr & Ho). unfold Get, Cancel, memory.Get. rewrite Hk, Hr. split; [done|]. split.
  - cbn [fst]. f_equal. unfold applyCancel. pose proof (pk_rows p Hok _ _ Hr) as Hro.
    rewrite memory.ended_occupies by (by eapply decode_kept, row_job).
    change (occupies (decodeJob (Row_payload r))) with (occupies (Row_payload r)).
    by rewrite <- (open_row_occupies k r Hro), Ho.
  - destruct (memory.byID (open_mem p) !! k) as [j|] eqn:E; [|done].
    apply open_mem_lookup in E as (r' & Hr' & Ho' & _); [|apply Hok]. congruence.
Qed.

(** C19: on a working database the Postgres store refines the in-memory store that
    holds the jobs that have not ended. [Commit], [Heartbeat] and [RequeueExpired]
    answer like it and leave in the table the open jobs it holds afterwards; so do
    [Cancel] and [Get] for a job that has not ended or is not there, and [Lease]
    (for a worker with an identifier and a readable wish) and [Create] (with a new
    identifier) of the store in which expired leases have been requeued; a refused
    [Create] leaves the table as it was. Jobs that have ended are still returned,
    unchanged, by [Get] and [Cancel]. *)
Theorem pg_refines_memory q p :
  reachable q p →
  (∀ tid aid res fail,
     let pg := Commit None tid aid res fail p in
     let mem := memory.Commit None tid aid res fail (open_mem p) in
     mem.1 = pg.1 ∧ tracks pg.2 mem.2) ∧
  (∀ tid aid w now,
     let pg := Heartbeat None tid aid w now p in
     let mem := memory.Heartbeat None tid aid w now (open_mem p) in
     mem.1 = pg.1 ∧ tracks pg.2 mem.2) ∧
  (∀ now,
     let pg := RequeueExpired None now p in
     let mem := memory.RequeueExpired None now (open_mem p) in
     mem.1 = pg.1 ∧ tracks pg.2 mem.2) ∧
  (∀ v w now want, TrimSpace (W_ID w) ≠ "" → memory.wanted w = Ok want →
     let pg := Lease None v w now p in
     let mem := memory.Lease None v w now (open_mem (RequeueExpired None now p).2) in
     mem.1 = pg.1 ∧ tracks pg.2 mem.2) ∧
  (∀ e opts, fresh p (newID (Ce_rand e)) → (Ce_rand e < 2 ^ 64)%N →
     (N.of_nat (length (plan.DAG_Steps (Co_Plan opts))) ≤ 65536)%N →
     let pg := Create None e opts p in
     let mem := memory.Create (no_ctx e) opts (open_mem (RequeueExpired None (Ce_expire e) p).2) in
     mem.1 = pg.1 ∧ match pg.1 with Ok _ => tracks pg.2 mem.2 | Err _ => pg.2 = p end) ∧
  (∀ id, (∀ r, ¬ ended_at p id r) →
     let pg := Cancel None id p in
     let mem := memory.Cancel None id (open_mem p) in
     mem.1 = pg.1 ∧ tracks pg.2 mem.2 ∧ memory.Get None id (open_mem p) = Get None id p) ∧
  (∀ id r, ended_at p id r →
     Get None id p = Ok (decodeJob (Row_payload r)) ∧ (Cancel None id p).1 = Ok (decodeJob (Row_payload r)) ∧
     memory.Get None id (open_mem p) = Err ErrNotFound).
Proof.
  intros Hr%pg_reachable_ok. split_and!.
  - intros tid aid res fail. by destruct (Commit_agrees p tid aid res fail Hr) as (? & ? & _).
  - intros tid aid w now. by destruct (Heartbeat_agrees p tid aid w now Hr) as (? & ? & _).
  - intros now. by destruct (RequeueExpired_agrees p now Hr) as (? & ? & _).
  - intros v w now want Hw Hwant. unfold RequeueExpired.
    pose proof (Lease_agrees p v w now want Hr Hw Hwant) as (H1 & H2 & _).
    destruct (expireTx p now). done.
  - intros e opts Hf Hrand Hsize pg mem. assert ((RequeueExpired None (Ce_expire e) p).2 = (expireTx p (Ce_expire e)).1)
      as Hp1 by (unfold RequeueExpired; by destruct (expireTx _ _)).
    unfold mem, pg. rewrite Hp1. destruct (Create None e opts p) as [[j|err] p'] eqn:Hc; cbn [fst snd].
    + by destruct (Create_agrees p e opts Hr Hf Hrand Hsize j p' Hc) as (? & ? & _).
    + by apply Create_refused.
  - intros id He. destruct (Cancel_refines p id Hr He) as [? ?]. split_and!; [done..|by apply Get_refines].
  - intros id r He. by apply ended_answers.
Qed.

(** C20: once a job has ended in the Postgres store, be it by failure or by
    cancellation, no later operation changes its tasks: in particular a task that was
    leased at that moment stays leased for ever, it can be neither committed nor
    reaped. *)
Theorem pg_ended_is_frozen q p p' id r :
  reachable q p → rtc step p p' → table p !! id = Some r → ended (Row_payload r) = true →
  ∃ r', table p' !! id = Some r' ∧ J_Tasks (Row_payload r') = J_Tasks (Row_payload r) ∧
    J_Status (Row_payload r') = J_Status (Row_payload r).
Proof.
  intros Hr Hs Hid He. pose proof (pg_reachable_ok q p Hr) as Hok.
  destruct (steps_ok p p' Hok Hs) as [_ Hf]. destruct (Hf id r Hid) as (r' & Hr' & _ & Hc).
  exists r'. split; [done|]. pose proof (pk_rows p Hok _ _ Hid) as Hro.
  rewrite memory.ended_occupies in He by (by eapply row_job).
  assert (decodeJob (Row_payload r') = decodeJob (Row_payload r)) as E.
  { apply Hc. rewrite (open_row_occupies id r Hro). by apply negb_true_iff. }
  split; [exact (f_equal J_Tasks E)|exact (f_equal J_Status E)].
Qed.

(** A task that has succeeded, failed or been skipped is never changed again, and
    no row is ever lost. *)
Theorem pg_finished_is_final q p p' id r i t :
  reachable q p → rtc step p p' → table p !! id = Some r → J_Tasks (Row_payload r) !! i = Some t →
  terminal t → ∃ r', table p' !! id = Some r' ∧ J_Tasks (Row_payload r') !! i = Some t.
Proof.
  intros Hr Hs Hid Ht Hte. destruct (steps_ok p p' (pg_reachable_ok q p Hr) Hs) as [_ Hf].
  destruct (Hf id r Hid) as (r' & Hr' & [_ [_ _ Hev]] & _). exists r'. split; [done|].
  destruct (Forall2_lookup_l _ _ _ _ _ Hev Ht) as (t' & Ht' & He).
  by rewrite (ev_terminal _ _ He Hte) in Ht'.
Qed.
End table.

End postgres.
