(* ===== verification/Evidence.v ===== *)
(** * Evidence artifacts: [internal/evidence]

    [Module evidence] models artifact.go and coverage.go: how the record of an
    experiment is built, which routes it reports as exercised or missed, and which
    artifacts are accepted when they are written or read back. The JSON texts are
    operations of the class [EvidenceJSON]; SHA-256 is [GoSHA]. Times are
    nanoseconds since Go's zero time. *)

From S2P Require Import Prelude GoStrings Net Ingest Replay Impact Plan Validate.
Import validate.

Module evidence.

(** ** coverage.go *)

Record Coverage := MkCoverage {
  C_TraceCounts : list impact.RouteTraceCount;
  C_Attributions : list impact.RouteAttribution;
  C_Impacted : list string;
  C_Exercised : list string;
  C_Missed : list string;
  C_Rejected : list string;
}.

(** A workload step without its body; [Req_Headers] are names only. *)
Record Request := MkRequest {
  Req_Method : string;
  Req_Path : string;
  Req_Provenance : string;
  Req_Headers : list string;
}.

Definition req_key (r : Request) : string := Req_Method r +:+ " " +:+ Req_Path r.
Definition req_step (r : Request) : replay.Step :=
  replay.MkStep (Req_Method r) (Req_Path r) "" [] "" "".

(** The requests of behavior steps that both sides refused. *)
Definition refused (res : plan.Evidence) : gset string :=
  list_to_set ((λ d, replay.Delta_Method d +:+ " " +:+ replay.Delta_Path d) <$>
    filter (λ d, replay.AuthRejected d = true)
      (filter (λ s, plan.SR_Kind s = plan.KindBehavior) (plan.Ev_Steps res) ≫= plan.SR_Steps)).

Definition attribution (f : impact.Finding) : option impact.RouteAttribution :=
  if impact.F_Route f == "" then None
  else Some (impact.MkRouteAttribution (impact.F_Route f) (impact.F_Provenance f) (impact.F_Via f)).

Definition cmp_attribution : impact.RouteAttribution → impact.RouteAttribution → comparison :=
  cmp_then (cmp_on impact.RA_Route String.compare)
    (cmp_then (cmp_on impact.RA_Provenance String.compare) (cmp_on impact.RA_Via String.compare)).

Definition attributions (rep : impact.Report) : list impact.RouteAttribution :=
  sort_cmp cmp_attribution (remove_dups (omap attribution (impact.Rep_Runtime rep))).

(** The inner loop of [coverageOf]: whether a request reached [route], and otherwise
    whether one was refused. *)
Fixpoint route_reached (res : plan.Evidence) (ref : gset string) (route : string) (work : list Request)
    (rejected : bool) : bool * bool :=
  match work with
  | [] => (false, rejected)
  | r :: work' =>
      if negb (impact.RouteMatches route (Req_Method r) (Req_Path r))
      then route_reached res ref route work' rejected
      else if Covered [route] [req_step r] res then (true, rejected)
      else route_reached res ref route work' (rejected || bool_decide (req_key r ∈ ref))
  end.

Definition add_route (res : plan.Evidence) (ref : gset string) (work : list Request) (c : Coverage)
    (route : string) : Coverage :=
  match route_reached res ref route work false with
  | (true, _) =>
      MkCoverage (C_TraceCounts c) (C_Attributions c) (C_Impacted c)
        (C_Exercised c ++ [route]) (C_Missed c) (C_Rejected c)
  | (false, true) =>
      MkCoverage (C_TraceCounts c) (C_Attributions c) (C_Impacted c)
        (C_Exercised c) (C_Missed c ++ [route]) (C_Rejected c ++ [route])
  | (false, false) =>
      MkCoverage (C_TraceCounts c) (C_Attributions c) (C_Impacted c)
        (C_Exercised c) (C_Missed c ++ [route]) (C_Rejected c)
  end.

(** [None] is the nil pointer: no runtime route is known. *)
Definition coverageOf (rep : impact.Report) (work : list Request) (res : plan.Evidence) : option Coverage :=
  let impacted := impact.RuntimeRoutes rep in
  if bool_decide (impacted = []) then None
  else Some (foldl (add_route res (refused res) work)
    (MkCoverage (impact.Rep_RouteTraceCounts rep) (attributions rep) impacted [] [] []) impacted).

Definition attribution_label (a : impact.RouteAttribution) : string :=
  if (impact.RA_Provenance a == ProvenanceTraceEntry) || (impact.RA_Provenance a == ProvenanceCodeAttrs)
  then CoverageObserved
  else if impact.RA_Provenance a == impact.ProvenanceTraceEntryCaller
  then CoverageInferred +:+ (if impact.RA_Via a != "" then " via " +:+ impact.RA_Via a else "")
  else "unclassified".

(** The labels before sorting: [remove_dups] keeps another occurrence than the code
    does, which the sort makes irrelevant. *)
Definition route_labels (c : Coverage) (route : string) : list string :=
  remove_dups (attribution_label <$> filter (λ a, impact.RA_Route a = route) (C_Attributions c)) ++
  ((λ t, "traces=" +:+ Itoa (impact.RT_Traces t)) <$>
     filter (λ t, impact.RT_Route t = route) (C_TraceCounts c)).

Definition RouteLabel (c : Coverage) (route : string) : string :=
  let labels := route_labels c route in
  if bool_decide (labels = []) then route
  else route +:+ "  " +:+ Join (sort_cmp String.compare labels) "; ".

(** ** artifact.go *)

Definition SchemaV3 : string := "aquila.evidence.v3".
Definition SchemaV2 : string := "aquila.evidence.v2".
Definition SchemaV1 : string := "aquila.evidence.v1".
Definition MaxBytes : Z := 1048576.

Record ImpactSummary := MkImpactSummary {
  Is_RuntimeFindings : list impact.Finding;
  Is_Changes : impact.Changes;
  Is_Files : Z;
  Is_Direct : Z;
  Is_Likely : Z;
  Is_Runtime : Z;
  Is_Unobserved : Z;
  Is_Changed : list string;
  Is_DirectName : list string;
}.

Record Artifact := MkArtifact {
  A_BaselineRev : gitrev.Revision;
  A_PatchRev : gitrev.Revision;
  A_Schema : string;
  A_Recorded : Z;
  A_Baseline : string;
  A_Patch : string;
  A_BaselineSHA : string;
  A_Dirty : bool;
  A_Service : string;
  A_WorkloadDigest : string;
  A_ArtifactDigest : string;
  A_Workload : list Request;
  A_Impact : ImpactSummary;
  A_Coverage : option Coverage;
  A_Plan : plan.DAG;
  A_Result : plan.Evidence;
  A_Validated : bool;
  A_Blockers : list Blocker;
}.

Record Input := MkInput {
  I_BaselineRev : gitrev.Revision;
  I_PatchRev : gitrev.Revision;
  I_Now : Z;
  I_Baseline : string;
  I_Patch : string;
  I_Service : string;
  I_Workload : replay.Workload;
  I_Impact : impact.Report;
  I_Plan : plan.DAG;
  I_Result : plan.Evidence;
}.

Inductive EvidenceErr :=
| ErrSchema (schema : string)
| ErrIllegalOverall (overall : string)
| ErrMissingOverall
| ErrUnknownOverall (overall : string)
| ErrWorkloadDigest
| ErrArtifactDigest
| ErrWriteSchema
| ErrUnearned
| ErrBlockers
| ErrEmpty
| ErrTooLarge
| ErrText (msg : string).

(** [json.Marshal], [json.MarshalIndent] with two blanks, and a decoder that refuses
    unknown fields. *)
Class EvidenceJSON := {
  artifact_json : Artifact → result string string;
  artifact_indent : Artifact → result string string;
  artifact_decode : string → result string Artifact;
}.

Definition set_decision (a : Artifact) (d : Decision) : Artifact :=
  MkArtifact (A_BaselineRev a) (A_PatchRev a) (A_Schema a) (A_Recorded a) (A_Baseline a) (A_Patch a)
    (A_BaselineSHA a) (A_Dirty a) (A_Service a) (A_WorkloadDigest a) (A_ArtifactDigest a) (A_Workload a)
    (A_Impact a) (A_Coverage a) (A_Plan a) (A_Result a) (D_Validated d) (D_Blockers d).
Definition set_digests (a : Artifact) (work art : string) : Artifact :=
  MkArtifact (A_BaselineRev a) (A_PatchRev a) (A_Schema a) (A_Recorded a) (A_Baseline a) (A_Patch a)
    (A_BaselineSHA a) (A_Dirty a) (A_Service a) work art (A_Workload a)
    (A_Impact a) (A_Coverage a) (A_Plan a) (A_Result a) (A_Validated a) (A_Blockers a).

Definition clipService (s : string) : string := str_take 128 (TrimSpace s).

Definition requests (w : replay.Workload) : list Request :=
  (λ s, MkRequest (replay.Step_Method s) (replay.Step_Path s) (replay.Step_Provenance s) (replay.HeaderNames s))
    <$> replay.Workload_Steps w.

Definition summarizeImpact (rep : impact.Report) : ImpactSummary :=
  MkImpactSummary (impact.Rep_Runtime rep) (impact.Classify rep)
    (Z.of_nat (length (impact.Rep_Files rep))) (Z.of_nat (length (impact.Rep_Direct rep)))
    (Z.of_nat (length (impact.Rep_Likely rep))) (Z.of_nat (length (impact.Rep_Runtime rep)))
    (Z.of_nat (length (impact.Rep_Unobserved rep))) (impact.Rep_Files rep)
    (filter (λ n, n ≠ "") (impact.F_Name <$> impact.Rep_Direct rep)).

Definition truncate_s (t : Z) : Z := (t - t `mod` 1000000000)%Z.

Definition request_line (r : Request) : string :=
  if bool_decide (Req_Headers r = [])
  then Req_Method r +:+ " " +:+ Req_Path r +:+ " " +:+ Req_Provenance r +:+ String nl ""
  else Req_Method r +:+ " " +:+ Req_Path r +:+ " " +:+ Req_Provenance r +:+ " h=" +:+
         Join (Req_Headers r) "," +:+ String nl "".
Definition workload_text (rs : list Request) : string := foldr (λ r s, request_line r +:+ s) "" rs.

(** The input of the policy that an artifact of the current schema records. *)
Definition decision_input (a : Artifact) : validate.Input :=
  validate.MkInput
    (default [] (C_Attributions <$> A_Coverage a)) (A_BaselineRev a) (A_PatchRev a)
    (A_Baseline a) (A_Patch a) (A_Plan a) (A_Result a)
    (default [] (C_Impacted <$> A_Coverage a)) (req_step <$> A_Workload a) (Is_Changes (A_Impact a)).

Section ops.
  Context `{GoNet, GoSHA, EvidenceJSON}.

Definition Decision_of (a : Artifact) : Decision :=
  if A_Schema a == SchemaV1 then Legacy
  else if A_Schema a == SchemaV2
  then MkDecision "" false [MkBlocker CodeUnverifiedRevision "baseline"; MkBlocker CodeUnverifiedRevision "patch"]
  else Decide (decision_input a).

Definition digestWorkload (rs : list Request) : string := sha256_hex (workload_text rs).

Definition digestArtifact (a : Artifact) : string :=
  match artifact_json (set_digests a (A_WorkloadDigest a) "") with
  | Err _ => ""
  | Ok raw => sha256_hex raw
  end.

(** [clock] is the time used when the input has none. *)
Definition Build (clock : Z) (inp : Input) : Artifact :=
  let now := truncate_s (I_Now inp) in
  let now := if (now =? 0)%Z then truncate_s clock else now in
  let work := requests (I_Workload inp) in
  let a := MkArtifact (I_BaselineRev inp) (I_PatchRev inp) SchemaV3 now (I_Baseline inp) (I_Patch inp)
    (gitrev.Rev_Commit (I_BaselineRev inp)) (gitrev.Rev_Dirty (I_PatchRev inp)) (clipService (I_Service inp))
    "" "" work (summarizeImpact (I_Impact inp)) (coverageOf (I_Impact inp) work (I_Result inp))
    (I_Plan inp) (I_Result inp) false [] in
  let a := set_decision a (Decision_of a) in
  let a := set_digests a (digestWorkload (A_Workload a)) "" in
  set_digests a (A_WorkloadDigest a) (digestArtifact a).

Definition check_overall (overall : string) : result EvidenceErr () :=
  let v := ToLower (TrimSpace overall) in
  if bool_decide (v ∈ [replay.VerdictMatch; replay.VerdictDiffer; replay.VerdictIncomplete]) then Ok tt
  else if bool_decide (v ∈ ["pass"; "validated"; "ok"; "fail"; "failed"; "success"])
  then Err (ErrIllegalOverall overall)
  else if v == "" then Err ErrMissingOverall
  else Err (ErrUnknownOverall overall).

Definition Verify (a : Artifact) : result EvidenceErr () :=
  if (A_Schema a != SchemaV1) && (A_Schema a != SchemaV2) && (A_Schema a != SchemaV3)
  then Err (ErrSchema (A_Schema a))
  else
    check? check_overall (plan.Ev_Overall (A_Result a)) in
    check? guard_err (((A_Schema a != SchemaV1) || (A_WorkloadDigest a != "")) &&
                      (A_WorkloadDigest a != digestWorkload (A_Workload a))) ErrWorkloadDigest in
    guard_err (((A_Schema a != SchemaV1) || (A_ArtifactDigest a != "")) &&
               (A_ArtifactDigest a != digestArtifact a)) ErrArtifactDigest.

Definition Check (a : Artifact) : result EvidenceErr () :=
  check? Verify a in
  check? guard_err (A_Schema a != SchemaV3) ErrWriteSchema in
  let d := Decision_of a in
  check? guard_err (negb (Bool.eqb (A_Validated a) (D_Validated d))) ErrUnearned in
  guard_err (negb (bool_decide (A_Blockers a = D_Blockers d))) ErrBlockers.

Definition Marshal (a : Artifact) : result EvidenceErr string :=
  check? Check a in
  match artifact_indent a with
  | Err msg => Err (ErrText msg)
  | Ok raw => if (MaxBytes <? len (raw +:+ String nl ""))%Z then Err ErrTooLarge else Ok (raw +:+ String nl "")
  end.

(** A reader: the bytes it gives and the error it ends with, if any. *)
Record Reader := MkReader { R_data : string; R_err : option string }.

(** [io.ReadAll] of a limited reader. *)
Definition read_limited (n : Z) (r : Reader) : result string string :=
  if (n <=? len (R_data r))%Z then Ok (str_take (Z.to_nat n) (R_data r))
  else match R_err r with Some msg => Err msg | None => Ok (R_data r) end.

Definition Decode (r : Reader) : result EvidenceErr Artifact :=
  match read_limited (MaxBytes + 1) r with
  | Err msg => Err (ErrText msg)
  | Ok raw =>
      if raw == "" then Err ErrEmpty
      else if (MaxBytes <? len raw)%Z then Err ErrTooLarge
      else match artifact_decode raw with
           | Err msg => Err (ErrText msg)
           | Ok a => check? (if A_Schema a == SchemaV3 then Check a else Verify a) in Ok a
           end
  end.

(** Whether two artifacts have the same text. *)
Definition EqualJSON (a b : Artifact) : bool :=
  match Marshal a, Marshal b with
  | Ok ra, Ok rb => ra == rb
  | _, _ => false
  end.
End ops.

(** ** Coverage *)

(** What the loops of [coverageOf] decide about one route. *)
Definition reached (res : plan.Evidence) (work : list Request) (route : string) : bool :=
  Covered [route] (req_step <$> work) res.
Definition turned_away (res : plan.Evidence) (work : list Request) (route : string) : bool :=
  existsb (λ r, impact.RouteMatches route (Req_Method r) (Req_Path r) &&
                bool_decide (req_key r ∈ refused res)) work.

Lemma Covered_cons route st work res :
  Covered [route] (st :: work) res = Covered [route] [st] res || Covered [route] work res.
Proof. unfold Covered. cbn [existsb]. by rewrite !orb_false_r. Qed.

Lemma Covered_matches route st res :
  Covered [route] [st] res = true →
  impact.RouteMatches route (replay.Step_Method st) (replay.Step_Path st) = true.
Proof.
  unfold Covered. cbn [existsb]. rewrite !orb_false_r, andb_true_iff. by intros [_ ?].
Qed.

Lemma route_reached_spec res route work rej :
  (route_reached res (refused res) route work rej).1 = reached res work route ∧
  (reached res work route = false →
   (route_reached res (refused res) route work rej).2 = rej || turned_away res work route).
Proof.
  revert rej. induction work as [|r work IH]; intros rej; [by rewrite orb_false_r|].
  cbn [route_reached]. unfold reached. rewrite fmap_cons, (Covered_cons route (req_step r) (req_step <$> work)).
  change (Covered [route] (req_step <$> work) res) with (reached res work route).
  unfold turned_away. cbn [existsb]. fold (turned_away res work route).
  assert (Covered [route] [req_step r] res = true → impact.RouteMatches route (Req_Method r) (Req_Path r) = true)
    as Hm by exact (Covered_matches route (req_step r) res).
  destruct (impact.RouteMatches _ _ _); cbn [negb andb].
  - destruct (Covered [route] [req_step r] res); [by split|]. cbn [orb]. rewrite orb_assoc. apply IH.
  - destruct (Covered [route] [req_step r] res); [by specialize (Hm eq_refl)|]. apply IH.
Qed.

Lemma add_route_spec res work c route :
  add_route res (refused res) work c route =
    MkCoverage (C_TraceCounts c) (C_Attributions c) (C_Impacted c)
      (C_Exercised c ++ (if reached res work route then [route] else []))
      (C_Missed c ++ (if reached res work route then [] else [route]))
      (C_Rejected c ++ (if negb (reached res work route) && turned_away res work route then [route] else [])).
Proof.
  unfold add_route. destruct (route_reached_spec res route work false) as [H1 H2].
  destruct (route_reached _ _ _ _ _) as [b1 b2]. cbn [fst snd] in *. rewrite H1 in *.
  destruct (reached res work route); cbn [negb andb].
  - by rewrite !app_nil_r.
  - rewrite H2 by done. cbn [orb]. destruct (turned_away _ _ _); by rewrite ?app_nil_r.
Qed.

Lemma add_routes_spec res work c routes :
  foldl (add_route res (refused res) work) c routes =
    MkCoverage (C_TraceCounts c) (C_Attributions c) (C_Impacted c)
      (C_Exercised c ++ filter (λ r, reached res work r = true) routes)
      (C_Missed c ++ filter (λ r, reached res work r = false) routes)
      (C_Rejected c ++
        filter (λ r, negb (reached res work r) && turned_away res work r = true) routes).
Proof.
  revert c. induction routes as [|r routes IH]; intros c; cbn [foldl].
  - rewrite !filter_nil, !app_nil_r. by destruct c.
  - rewrite IH, add_route_spec. cbn [C_TraceCounts C_Attributions C_Impacted C_Exercised C_Missed C_Rejected].
    rewrite !filter_cons, <- !app_assoc.
    destruct (reached res work r), (turned_away res work r); done.
Qed.

(** The routes that were and were not reached are, together, those of the report. *)
Lemma reached_split res work routes :
  filter (λ r, reached res work r = true) routes ++ filter (λ r, reached res work r = false) routes
    ≡ₚ routes.
Proof.
  induction routes as [|r routes IH]; [done|]. rewrite !filter_cons.
  destruct (reached res work r); cbn [decide].
  - rewrite decide_True, decide_False by done. cbn [app]. by rewrite IH.
  - rewrite decide_False, decide_True by done. by rewrite <- Permutation_middle, IH.
Qed.

Lemma turned_away_iff res work route :
  turned_away res work route = true ↔
  ∃ r s d, r ∈ work ∧ impact.RouteMatches route (Req_Method r) (Req_Path r) = true ∧
    s ∈ plan.Ev_Steps res ∧ plan.SR_Kind s = plan.KindBehavior ∧ d ∈ plan.SR_Steps s ∧
    replay.AuthRejected d = true ∧
    req_key r = replay.Delta_Method d +:+ " " +:+ replay.Delta_Path d.
Proof.
  unfold turned_away, refused. rewrite existsb_True. setoid_rewrite andb_true_iff.
  setoid_rewrite bool_decide_eq_true. setoid_rewrite elem_of_list_to_set.
  setoid_rewrite list_elem_of_fmap. setoid_rewrite list_elem_of_filter.
  setoid_rewrite list_elem_of_bind. setoid_rewrite list_elem_of_filter. naive_solver.
Qed.

(** ** What is built, and what is accepted *)

Section accepted.
  Context `{GoNet, GoSHA, EvidenceJSON}.

Definition legal_overall (a : Artifact) : Prop :=
  ToLower (TrimSpace (plan.Ev_Overall (A_Result a))) ∈
    [replay.VerdictMatch; replay.VerdictDiffer; replay.VerdictIncomplete].

Lemma check_overall_ok o u :
  check_overall o = Ok u ↔
  ToLower (TrimSpace o) ∈ [replay.VerdictMatch; replay.VerdictDiffer; replay.VerdictIncomplete].
Proof.
  unfold check_overall. destruct u. case_bool_decide; [done|].
  split; [|done]. repeat (case_bool_decide; try done).
Qed.

Lemma Verify_iff a :
  Verify a = Ok tt ↔
  A_Schema a ∈ [SchemaV1; SchemaV2; SchemaV3] ∧ legal_overall a ∧
  (A_Schema a ≠ SchemaV1 ∨ A_WorkloadDigest a ≠ "" → A_WorkloadDigest a = digestWorkload (A_Workload a)) ∧
  (A_Schema a ≠ SchemaV1 ∨ A_ArtifactDigest a ≠ "" → A_ArtifactDigest a = digestArtifact a).
Proof.
  unfold Verify, legal_overall. rewrite <- (check_overall_ok _ tt).
  split.
  - intros Hv. destruct (_ && _) eqn:Hs in Hv; [done|].
    apply rbind_ok in Hv as ([] & Ho & Hv). apply rbind_ok in Hv as ([] & Hw & Ha).
    apply guard_err_ok in Hw, Ha. split_and!; [|done|..].
    + rewrite !andb_false_iff, !negb_false_iff, !bool_decide_eq_true in Hs. set_solver.
    + rewrite andb_false_iff, orb_false_iff, !negb_false_iff, !bool_decide_eq_true in Hw. tauto.
    + rewrite andb_false_iff, orb_false_iff, !negb_false_iff, !bool_decide_eq_true in Ha. tauto.
  - intros (Hs & Ho & Hw & Ha). rewrite Ho. cbn [rbind].
    replace ((A_Schema a != SchemaV1) && (A_Schema a != SchemaV2) && (A_Schema a != SchemaV3)) with false.
    2: { symmetry. rewrite !andb_false_iff, !negb_false_iff, !bool_decide_eq_true. set_solver. }
    rewrite (proj2 (guard_err_ok _ ErrWorkloadDigest tt)); [cbn [rbind]; apply guard_err_ok|];
      rewrite andb_false_iff, orb_false_iff, !negb_false_iff, !bool_decide_eq_true.
    + destruct (decide (A_Schema a = SchemaV1)), (decide (A_ArtifactDigest a = "")); tauto.
    + destruct (decide (A_Schema a = SchemaV1)), (decide (A_WorkloadDigest a = "")); tauto.
Qed.

Lemma Check_Verify a :
  Check a = Ok tt ↔
  Verify a = Ok tt ∧ A_Schema a = SchemaV3 ∧ A_Validated a = D_Validated (Decision_of a) ∧
  A_Blockers a = D_Blockers (Decision_of a).
Proof.
  unfold Check. split.
  - intros ([] & Hv & Hc)%rbind_ok. apply rbind_ok in Hc as ([] & Hs & Hc).
    apply rbind_ok in Hc as ([] & Hd & Hb). apply guard_err_ok in Hs, Hd, Hb.
    apply negb_false_iff in Hs, Hd, Hb. apply bool_decide_eq_true in Hs, Hb. by apply eqb_prop in Hd.
  - intros (Hv & Hs & Hd & Hb). rewrite Hv. cbn [rbind].
    rewrite (proj2 (guard_err_ok _ ErrWriteSchema tt)); [cbn [rbind]|by rewrite Hs].
    rewrite (proj2 (guard_err_ok _ ErrUnearned tt)); [cbn [rbind]|by rewrite Hd, eqb_reflx].
    apply guard_err_ok. by rewrite bool_decide_eq_true_2.
Qed.

Lemma Decision_of_v3 a : A_Schema a = SchemaV3 → Decision_of a = Decide (decision_input a).
Proof. intros Hs. unfold Decision_of. by rewrite Hs. Qed.

(** C17: an artifact is accepted for writing exactly when it has the current schema, a
    legal verdict and the digests of its content, is marked validated exactly when
    what it records satisfies the policy, and lists exactly the blockers that the
    policy gives. *)
Theorem Check_iff a :
  Check a = Ok tt ↔
  A_Schema a = SchemaV3 ∧ legal_overall a ∧
  A_WorkloadDigest a = digestWorkload (A_Workload a) ∧ A_ArtifactDigest a = digestArtifact a ∧
  (A_Validated a = true ↔ policy_ok (decision_input a)) ∧
  A_Blockers a = D_Blockers (Decide (decision_input a)).
Proof.
  rewrite Check_Verify, Verify_iff. split.
  - intros ((_ & Ho & Hw & Ha) & Hs & Hv & Hb). rewrite Decision_of_v3 in Hv, Hb by done.
    split_and!; [done|done|apply Hw; left; by rewrite Hs|apply Ha; left; by rewrite Hs| |done].
    rewrite Hv, Decide_validated_blockers. split; [apply no_blocker_policy|].
    intros ? b. by apply policy_no_blocker.
  - intros (Hs & Ho & Hw & Ha & Hv & Hb). rewrite Decision_of_v3 by done.
    split_and!; try done; [rewrite Hs; set_solver|]. apply eq_true_iff_eq.
    rewrite Hv, Decide_validated_blockers. split; [|apply no_blocker_policy].
    intros ? b. by apply policy_no_blocker.
Qed.

(** ** Building *)

Lemma digestArtifact_clear a d : digestArtifact (set_digests a (A_WorkloadDigest a) d) = digestArtifact a.
Proof. done. Qed.

Section build.
  Context (clock : Z) (inp : Input).
Let a := Build clock inp.

Lemma Build_decision_input :
  decision_input a =
  validate.MkInput (default [] (C_Attributions <$> A_Coverage a)) (I_BaselineRev inp) (I_PatchRev inp)
    (I_Baseline inp) (I_Patch inp) (I_Plan inp) (I_Result inp)
    (default [] (C_Impacted <$> A_Coverage a)) (req_step <$> requests (I_Workload inp))
    (impact.Classify (I_Impact inp)).
Proof. done. Qed.

Lemma Build_coverage_eq :
  A_Coverage a = coverageOf (I_Impact inp) (requests (I_Workload inp)) (I_Result inp).
Proof. done. Qed.

Lemma Build_Blockers : A_Blockers a = D_Blockers (Decide (decision_input a)).
Proof. done. Qed.

Lemma Build_digests :
  A_WorkloadDigest a = digestWorkload (A_Workload a) ∧ A_ArtifactDigest a = digestArtifact a.
Proof.
  unfold a, Build. cbv zeta. rewrite digestArtifact_clear.
  cbn [A_WorkloadDigest A_ArtifactDigest A_Workload set_digests set_decision]. done.
Qed.

Lemma Build_Check : legal_overall a → Check a = Ok tt.
Proof.
  intros Ho. apply Check_Verify. rewrite Verify_iff. split; [|split; [reflexivity|split; reflexivity]].
  pose proof Build_digests as [Hw Hd]. split; [by do 2 right; left|]. auto.
Qed.

Lemma Build_impacted :
  default [] (C_Impacted <$> A_Coverage a) = impact.RuntimeRoutes (I_Impact inp).
Proof.
  rewrite Build_coverage_eq. unfold coverageOf. case_bool_decide as E; [done|].
  by rewrite add_routes_spec.
Qed.

Lemma reached_exercised route :
  reached (I_Result inp) (requests (I_Workload inp)) route = true ↔ exercised (decision_input a) route.
Proof. rewrite <- Covered_iff. done. Qed.

Lemma missed_blocker route :
  MkBlocker CodeRouteMissed route ∈ A_Blockers a ↔
  route ∈ impact.RuntimeRoutes (I_Impact inp) ∧ ¬ exercised (decision_input a) route.
Proof.
  rewrite Build_Blockers, Decide_blockers, <- Build_impacted. split.
  - inversion 1; done.
  - intros [Hr He]. by apply blocks_missed.
Qed.
End build.

(** The coverage of a built artifact splits the impacted routes into those that a
    request exercised and those missed, and the missed ones are exactly the routes
    the decision is blocked on; a route is also reported as rejected exactly when
    it was missed although a matching request of a behavior step was refused. *)
Theorem Build_coverage clock inp c :
  A_Coverage (Build clock inp) = Some c →
  C_Impacted c = impact.RuntimeRoutes (I_Impact inp) ∧
  C_Exercised c ++ C_Missed c ≡ₚ C_Impacted c ∧
  (∀ r, r ∈ C_Exercised c ↔ r ∈ C_Impacted c ∧ exercised (decision_input (Build clock inp)) r) ∧
  (∀ r, r ∈ C_Missed c ↔ MkBlocker CodeRouteMissed r ∈ A_Blockers (Build clock inp)) ∧
  (∀ r, r ∈ C_Rejected c ↔
     r ∈ C_Missed c ∧ turned_away (I_Result inp) (A_Workload (Build clock inp)) r = true).
Proof.
  intros Hc. pose proof (Build_coverage_eq clock inp) as E. rewrite Hc in E.
  unfold coverageOf in E. case_bool_decide; [done|]. injection E as ->. rewrite add_routes_spec.
  cbn [C_Impacted C_Exercised C_Missed C_Rejected app].
  split; [done|]. split; [apply reached_split|]. split; [|split].
  - intros r. rewrite list_elem_of_filter, (reached_exercised clock). tauto.
  - intros r. rewrite missed_blocker, list_elem_of_filter, <- (reached_exercised clock), not_true_iff_false.
    tauto.
  - intros r. rewrite !list_elem_of_filter, andb_true_iff, negb_true_iff. tauto.
Qed.

(** ** Writing and reading back *)

Lemma Marshal_Decode a raw :
  Check a = Ok tt → artifact_indent a = Ok raw → (len raw < MaxBytes)%Z →
  artifact_decode (raw +:+ String nl "") = Ok a →
  Marshal a = Ok (raw +:+ String nl "") ∧ Decode (MkReader (raw +:+ String nl "") None) = Ok a.
Proof.
  intros Hc Hi Hl Hd. assert (len (raw +:+ String nl "") = len raw + 1)%Z as Hlen.
  { unfold len. rewrite length_str_app. simpl. lia. }
  split.
  - unfold Marshal. rewrite Hc, Hi. cbn [rbind]. rewrite (proj2 (Z.ltb_ge _ _)); [done|lia].
  - unfold Decode, read_limited. cbn [R_data R_err]. rewrite (proj2 (Z.leb_gt _ _)) by lia.
    rewrite bool_decide_eq_false_2; [|by destruct raw]. rewrite (proj2 (Z.ltb_ge _ _)) by lia.
    rewrite Hd. apply Check_Verify in Hc as Hc'. destruct Hc' as (_ & Hs & _). rewrite Hs.
    rewrite bool_decide_eq_true_2 by done. by rewrite Hc.
Qed.

(** What is read back was accepted: evidence of the current schema states the
    decision of the policy. *)
Lemma Decode_checked r a :
  Decode r = Ok a → Verify a = Ok tt ∧ (A_Schema a = SchemaV3 → Check a = Ok tt).
Proof.
  unfold Decode. destruct (read_limited _ r) as [raw|]; [|done]. destruct (raw == ""); [done|].
  destruct (_ <? _)%Z; [done|]. destruct (artifact_decode raw) as [a'|]; [|done].
  intros ([] & Hc & [= ->])%rbind_ok. case_bool_decide.
  - split; [|done]. by apply Check_Verify in Hc as [? _].
  - by split.
Qed.

(** Two verified artifacts with the same digest have the same JSON text, unless
    two texts share a SHA-256 sum. *)
Lemma digest_binds a b :
  Verify a = Ok tt → Verify b = Ok tt → A_ArtifactDigest a = A_ArtifactDigest b → A_ArtifactDigest a ≠ "" →
  artifact_json (set_digests a (A_WorkloadDigest a) "") = artifact_json (set_digests b (A_WorkloadDigest b) "") ∨
  ∃ s t, s ≠ t ∧ sha256_hex s = sha256_hex t.
Proof.
  intros (_ & _ & _ & Ha)%Verify_iff (_ & _ & _ & Hb)%Verify_iff E Hne.
  assert (A_ArtifactDigest b ≠ "") as Hneb by congruence.
  rewrite Ha in E by auto. rewrite Hb in E by auto.
  assert (digestArtifact a ≠ "") as Hd by (rewrite <- Ha by auto; done).
  unfold digestArtifact in E, Hd. destruct (artifact_json _) as [s|]; [|done].
  destruct (artifact_json _) as [t|]; [|done]. destruct (decide (s = t)) as [->|]; [by left|].
  right. by exists s, t.
Qed.
End accepted.

End evidence.
