(* ===== verification/Markdown.v ===== *)
(** * The Markdown report: [evidence/markdown.go]

    [Markdown] renders an artifact. The dates of [time.Time.Format] are computed
    with the days of the proleptic Gregorian calendar. *)

From S2P Require Import Prelude GoStrings GoText Net Replay Impact Plan Validate Evidence.
Import validate evidence.

Module markdown.

(** ** [Time.UTC().Format("2006-01-02T15:04:05Z")] *)

(** Year, month and day of the day [days] after January 1 of year 1: eras of 400
    years that start on March 1. *)
Definition civil (days : Z) : Z * Z * Z :=
  let z := (days + 306)%Z in
  let era := (z / 146097)%Z in
  let doe := (z - era * 146097)%Z in
  let yoe := ((doe - doe / 1460 + doe / 36524 - doe / 146096) / 365)%Z in
  let doy := (doe - (365 * yoe + yoe / 4 - yoe / 100))%Z in
  let mp := ((5 * doy + 2) / 153)%Z in
  let d := (doy - (153 * mp + 2) / 5 + 1)%Z in
  let m := if (mp <? 10)%Z then (mp + 3)%Z else (mp - 9)%Z in
  let y := (yoe + era * 400)%Z in
  ((if (m <=? 2)%Z then y + 1 else y)%Z, m, d).

Definition pad_zero (w : nat) (n : Z) : string :=
  let s := Itoa n in zeros (w - String.length s) +:+ s.
Definition Format_UTC (t : Z) : string :=
  let secs := (t / 1000000000)%Z in
  let '(y, m, d) := civil (secs / 86400) in
  let s := (secs mod 86400)%Z in
  pad_zero 4 y +:+ "-" +:+ pad_zero 2 m +:+ "-" +:+ pad_zero 2 d +:+ "T" +:+
  pad_zero 2 (s / 3600) +:+ ":" +:+ pad_zero 2 (s / 60 mod 60) +:+ ":" +:+ pad_zero 2 (s mod 60) +:+ "Z".

Example Format_UTC_zero : Format_UTC 0 = "0001-01-01T00:00:00Z".
Proof. vm_compute. reflexivity. Qed.
Example Format_UTC_leap : Format_UTC (63844847999 * 1000000000) = "2024-02-29T23:59:59Z".
Proof. vm_compute. reflexivity. Qed.

(** ** Lines *)

Definition clipQuery (p : string) : string :=
  match IndexByte p (byte 63) with
  | Some i => str_take i p +:+ "?…"
  | None => p
  end.

Definition formatDur (ns : Z) : string := if (ns <=? 0)%Z then "-" else plan.fmt_ms ns +:+ "ms".
Definition summaryLine (s : replay.Summary) : string :=
  if replay.Sum_N s == 0%Z then "n=0"
  else
    "n=" +:+ Itoa (replay.Sum_N s) +:+ "  median=" +:+ formatDur (replay.Sum_MedNS s) +:+
    (if replay.Sum_HasP95 s then "  p95=" +:+ formatDur (replay.Sum_P95NS s) else "  p95=withheld").
Definition latencyLine (s : replay.StepLatency) : string :=
  "base " +:+ summaryLine (replay.Lat_Baseline s) +:+ "  patch " +:+ summaryLine (replay.Lat_Patch s).

Definition ln (s : string) : string := s +:+ String nl "".
Definition lns (ls : list string) : string := foldr (λ l s, ln l +:+ s) "" ls.
Definition when_ (b : bool) (s : string) : string := if b then s else "".

(** ** The report *)

Definition request_row (r : Request) : string :=
  ln ("- " +:+ Req_Method r +:+ " " +:+ clipQuery (Req_Path r) +:+
      when_ (Req_Provenance r != "") ("  " +:+ Req_Provenance r) +:+
      when_ (bool_decide (Req_Headers r ≠ [])) ("  headers=" +:+ Join (Req_Headers r) ",")).
Definition step_row (s : plan.StepResult) : string :=
  ln ("- " +:+ plan.SR_Kind s +:+ "  " +:+ plan.SR_Verdict s +:+
      when_ (bool_decide (plan.SR_Notes s ≠ []) && (plan.SR_Verdict s != plan.VerdictSkipped))
        ("  " +:+ Join (plan.SR_Notes s) ",")) +:+
  when_ (plan.SR_Kind s == plan.KindLatency)
    (lns ((λ lat, "  - " +:+ replay.Lat_Method lat +:+ " " +:+ clipQuery (replay.Lat_Path lat) +:+ "  " +:+
             latencyLine lat) <$> plan.SR_Latency s)).

Definition coverage_part (c : Coverage) : string :=
  ln "" +:+ ln "## Coverage" +:+ ln "" +:+
  ln ("impacted=" +:+ Itoa (Z.of_nat (length (C_Impacted c))) +:+ "  exercised=" +:+
      Itoa (Z.of_nat (length (C_Exercised c))) +:+ "  missed=" +:+ Itoa (Z.of_nat (length (C_Missed c)))) +:+
  lns ((λ r, "- exercised " +:+ RouteLabel c r) <$> C_Exercised c) +:+
  lns ((λ r, "- missed " +:+ RouteLabel c r) <$> C_Missed c).

Definition bool_text (b : bool) : string := if b then "true" else "false".

(** The report with the decision [d] of the artifact. *)
Definition render (a : Artifact) (d : Decision) : string :=
  ln "# Aquila evidence" +:+ ln "" +:+
  ln ("schema: " +:+ A_Schema a) +:+
  when_ (A_Recorded a != 0%Z) (ln ("recorded: " +:+ Format_UTC (A_Recorded a))) +:+
  ln ("overall: " +:+ plan.Ev_Overall (A_Result a)) +:+
  when_ (gitrev.Rev_Tree (A_BaselineRev a) != "")
    (ln ("baseline tree: " +:+ gitrev.Rev_Tree (A_BaselineRev a) +:+ " source=" +:+
         gitrev.Rev_Source (A_BaselineRev a))) +:+
  when_ (gitrev.Rev_Tree (A_PatchRev a) != "")
    (ln ("patch tree: " +:+ gitrev.Rev_Tree (A_PatchRev a) +:+ " source=" +:+ gitrev.Rev_Source (A_PatchRev a))) +:+
  lns ((λ b, "blocker: " +:+ Blocker_String b) <$> D_Blockers d) +:+
  ln ("validated: " +:+ bool_text (D_Validated d) +:+ CoverageNote d) +:+
  when_ (A_BaselineSHA a != "")
    (ln ("git: " +:+ A_BaselineSHA a +:+ "  " +:+ (if A_Dirty a then "dirty" else "clean"))) +:+
  when_ (A_WorkloadDigest a != "") (ln ("workload: " +:+ A_WorkloadDigest a)) +:+
  when_ (A_ArtifactDigest a != "") (ln ("artifact: " +:+ A_ArtifactDigest a)) +:+
  ln "" +:+ ln "## Gateways" +:+ ln "" +:+
  ln ("- baseline: " +:+ A_Baseline a) +:+ ln ("- patch: " +:+ A_Patch a) +:+ ln "" +:+
  ln "## Impact" +:+ ln "" +:+
  ln ("files=" +:+ Itoa (Is_Files (A_Impact a)) +:+ "  direct=" +:+ Itoa (Is_Direct (A_Impact a)) +:+
      "  likely=" +:+ Itoa (Is_Likely (A_Impact a)) +:+ "  runtime=" +:+ Itoa (Is_Runtime (A_Impact a)) +:+
      "  unobserved=" +:+ Itoa (Is_Unobserved (A_Impact a))) +:+
  when_ (bool_decide (Is_DirectName (A_Impact a) ≠ []))
    (ln ("direct: " +:+ Join (Is_DirectName (A_Impact a)) ", ")) +:+
  from_option coverage_part "" (A_Coverage a) +:+
  ln "" +:+ ln "## Workload" +:+ ln "" +:+
  (if A_Workload a == [] then ln "(none)" else foldr (λ r s, request_row r +:+ s) "" (A_Workload a)) +:+
  ln "" +:+ ln "## Steps" +:+ ln "" +:+
  foldr (λ r s, step_row r +:+ s) "" (plan.Ev_Steps (A_Result a)) +:+
  when_ (bool_decide (plan.Ev_Notes (A_Result a) ≠ []))
    (ln "" +:+ ln "## Notes" +:+ ln "" +:+ lns ((λ n, "- " +:+ n) <$> plan.Ev_Notes (A_Result a))) +:+
  (if D_Validated d then
     ln "" +:+ ln ("validated" +:+ CoverageNote d +:+
       ". required experiments ran on a clean recorded revision. match is not a ship decision.")
   else ln "" +:+ ln "not validated. match is not a pass. this file is evidence, not a policy decision.").

Definition Markdown `{GoNet} (a : Artifact) : string := render a (Decision_of a).

(** ** Query values are not shown *)

(** A path without its query; what remains says that there was one. *)
Definition redact_path (p : string) : string :=
  match IndexByte p (byte 63) with
  | Some i => str_take i p +:+ "?"
  | None => p
  end.

Lemma IndexByte_first s c i :
  IndexByte s c = Some i → c ∉ bytes (str_take i s) ∧ String.length (str_take i s) = i.
Proof.
  revert i. induction s as [|a s IH]; intros i; simpl; [done|]. case_bool_decide as Ha.
  - intros [= <-]. split; [apply not_elem_of_nil|done].
  - intros (j & Hj & ->)%fmap_Some. destruct (IH _ Hj) as [Hn Hl]. split; [|simpl; by rewrite Hl].
    apply not_elem_of_cons. by split.
Qed.

Lemma clipQuery_redact p : clipQuery (redact_path p) = clipQuery p.
Proof.
  unfold clipQuery, redact_path. destruct (IndexByte p (byte 63)) as [i|] eqn:E; [|by rewrite E].
  apply IndexByte_first in E as [Hn Hl]. set (s := str_take i p) in *.
  assert (IndexByte (s +:+ "?") (byte 63) = Some (String.length s)) as ->.
  { clear -Hn. induction s as [|a s IH]; [done|]. rewrite app_cons_str. cbn [IndexByte]. apply not_elem_of_cons in Hn as [Ha Hn].
    rewrite bool_decide_eq_false_2, IH by done. done. }
  by rewrite str_take_app.
Qed.

Definition redact_request (r : Request) : Request :=
  MkRequest (Req_Method r) (redact_path (Req_Path r)) (Req_Provenance r) (Req_Headers r).
Definition redact_latency (l : replay.StepLatency) : replay.StepLatency :=
  replay.MkStepLatency (replay.Lat_Method l) (redact_path (replay.Lat_Path l)) (replay.Lat_Baseline l)
    (replay.Lat_Patch l).
(** The steps without paths of single requests. *)
Definition redact_step (s : plan.StepResult) : plan.StepResult :=
  plan.MkStepResult (plan.SR_ID s) (plan.SR_Kind s) (plan.SR_Verdict s) (plan.SR_Notes s)
    (redact_latency <$> plan.SR_Latency s) [].
(** The artifact without queries, without the plan and without single responses. *)
Definition redact (a : Artifact) : Artifact :=
  MkArtifact (A_BaselineRev a) (A_PatchRev a) (A_Schema a) (A_Recorded a) (A_Baseline a) (A_Patch a)
    (A_BaselineSHA a) (A_Dirty a) (A_Service a) (A_WorkloadDigest a) (A_ArtifactDigest a)
    (redact_request <$> A_Workload a) (A_Impact a) (A_Coverage a) (plan.MkDAG [] [] "" [] "")
    (plan.MkEvidence (plan.Ev_Overall (A_Result a)) (redact_step <$> plan.Ev_Steps (A_Result a))
       (plan.Ev_Notes (A_Result a))) (A_Validated a) (A_Blockers a).

Lemma request_row_redact r : request_row (redact_request r) = request_row r.
Proof. unfold request_row. cbn. by rewrite clipQuery_redact. Qed.
Lemma step_row_redact s : step_row (redact_step s) = step_row s.
Proof.
  unfold step_row. cbn [redact_step plan.SR_Kind plan.SR_Verdict plan.SR_Notes plan.SR_Latency].
  rewrite <- list_fmap_compose. do 3 f_equal. apply list_fmap_ext. intros i l _. simpl.
  by rewrite clipQuery_redact.
Qed.

(** The report is a function of the artifact without the query values of its
    requests and of its decision: two artifacts that differ only in what stands
    behind a question mark (where credentials may be) and have the same decision
    and digests have the same report. *)
Theorem Markdown_redacted `{GoNet} a : Markdown a = render (redact a) (Decision_of a).
Proof.
  unfold Markdown, render. cbn [redact A_BaselineRev A_PatchRev A_Schema A_Recorded A_Baseline A_Patch
    A_BaselineSHA A_Dirty A_WorkloadDigest A_ArtifactDigest A_Workload A_Impact A_Coverage A_Result
    plan.Ev_Overall plan.Ev_Steps plan.Ev_Notes].
  rewrite !foldr_fmap.
  rewrite (foldr_ext (λ r s, request_row (redact_request r) +:+ s) (λ r s, request_row r +:+ s) "" "" (A_Workload a) (A_Workload a))
    by (done || intros; by rewrite request_row_redact).
  rewrite (foldr_ext (λ r s, step_row (redact_step r) +:+ s) (λ r s, step_row r +:+ s) "" "" (plan.Ev_Steps (A_Result a)) (plan.Ev_Steps (A_Result a)))
    by (done || intros; by rewrite step_row_redact).
  by destruct (A_Workload a).
Qed.

End markdown.
