(* ===== verification/Runs.v ===== *)
(** * Run records: [internal/runs]

    [Module runs] models store.go with its interface as the class [RunStore], and the
    two stores that implement it: [Module memory_runs] is memory.go, [Module
    postgres_runs] is postgres.go. The table [aquila.runs] is a map from its primary key to
    rows, with the checks its definition puts on them; its JSON column is the artifact
    it encodes. What clients may rely on is the class [RunLaws]. *)

From S2P Require Import Prelude GoStrings Net Ingest Replay Impact Plan Validate Evidence.
Import validate evidence.

Module runs.

Definition DefaultList : Z := 20.
Definition MaxList : Z := 50.
Definition idLen : nat := 16.
Definition maxServiceName : nat := 128.

Inductive RunErr :=
| ErrNotFound
| ErrInvalidID
| ErrMissingArtifact
| ErrMissingDigest
| ErrInvalidDigest
| ErrIDMismatch
| ErrCollision
| ErrEvidence (e : EvidenceErr)
| ErrCtx (msg : string)
| ErrDB (msg : string).

(** [Rec_Artifact] is [None] for the zero artifact of a summary. *)
Record RunRecord := MkRecord {
  Rec_ID : string;
  Rec_Recorded : Z;
  Rec_Service : string;
  Rec_BaselineSHA : string;
  Rec_Dirty : bool;
  Rec_WorkloadDigest : string;
  Rec_ArtifactDigest : string;
  Rec_Overall : string;
  Rec_Blockers : list Blocker;
  Rec_Validated : bool;
  Rec_Artifact : option Artifact;
}.

Definition clipLimit (n : Z) : Z :=
  if (n <=? 0)%Z then DefaultList else if (MaxList <? n)%Z then MaxList else n.

Definition clipService (s : string) : string := str_take maxServiceName (TrimSpace s).

Definition NormalizeID (raw : string) : option string :=
  let s := ToLower (TrimSpace raw) in
  if (len s <? Z.of_nat idLen)%Z || (64 <? len s)%Z then None
  else if negb (all_hex s) then None
  else Some (str_take idLen s).

Definition err_of {A} (r : result EvidenceErr A) : result RunErr A :=
  match r with Ok x => Ok x | Err e => Err (ErrEvidence e) end.

Section ops.
  Context `{GoNet, GoSHA, EvidenceJSON}.

Definition FromArtifact (a : Artifact) : result RunErr RunRecord :=
  check? err_of (if A_Schema a == SchemaV3 then Check a else Verify a) in
  if A_ArtifactDigest a == "" then Err ErrMissingDigest
  else
    match NormalizeID (str_take idLen (A_ArtifactDigest a)) with
    | None => Err ErrInvalidDigest
    | Some id =>
        let d := Decision_of a in
        Ok (MkRecord id (A_Recorded a) (A_Service a) (A_BaselineSHA a) (A_Dirty a) (A_WorkloadDigest a)
              (A_ArtifactDigest a) (plan.Ev_Overall (A_Result a)) (D_Blockers d) (D_Validated d) (Some a))
    end.

Definition prepareInsert (rec : RunRecord) : result RunErr RunRecord :=
  match Rec_Artifact rec with
  | None => Err ErrMissingArtifact
  | Some a =>
      if A_Schema a == "" then Err ErrMissingArtifact
      else
        match FromArtifact a with
        | Err e => Err e
        | Ok built =>
            if (Rec_ID rec != "") && (Rec_ID rec != Rec_ID built) then Err ErrIDMismatch else Ok built
        end
  end.
End ops.

Definition summary (r : RunRecord) : RunRecord :=
  MkRecord (Rec_ID r) (Rec_Recorded r) (Rec_Service r) (Rec_BaselineSHA r) (Rec_Dirty r)
    (Rec_WorkloadDigest r) (Rec_ArtifactDigest r) (Rec_Overall r) (Rec_Blockers r) (Rec_Validated r) None.
Definition summaries (l : list RunRecord) : list RunRecord := summary <$> l.

(** The interface of the stores. A context that is not done is [None]. *)
Class RunStore (S : Type) := {
  RunStore_Insert : option string → RunRecord → S → result RunErr RunRecord * S;
  RunStore_Get : option string → string → S → result RunErr RunRecord;
  RunStore_List : option string → Z → string → S → result RunErr (list RunRecord);
}.

(** ** memory.go *)

Module memory_runs.

Record Memory := MkMemory {
  byID : gmap string RunRecord;
  order : list string;
}.

Definition NewMemory : Memory := MkMemory ∅ [].

Definition zeroRecord : RunRecord := MkRecord "" 0 "" "" false "" "" "" [] false None.

Definition records (m : Memory) : list RunRecord :=
  (λ id, default zeroRecord (byID m !! id)) <$> order m.

Definition cmp_newest : RunRecord → RunRecord → comparison :=
  cmp_desc (cmp_then (cmp_on Rec_Recorded Z.compare) (cmp_on Rec_ID String.compare)).

Section ops.
  Context `{GoNet, GoSHA, EvidenceJSON}.

Definition Insert (ctx : option string) (rec : RunRecord) (m : Memory) : result RunErr RunRecord * Memory :=
  match ctx with
  | Some err => (Err (ErrCtx err), m)
  | None =>
      match prepareInsert rec with
      | Err e => (Err e, m)
      | Ok prepared =>
          match byID m !! Rec_ID prepared with
          | Some old =>
              if Rec_ArtifactDigest old != Rec_ArtifactDigest prepared then (Err ErrCollision, m)
              else (Ok old, m)
          | None =>
              (Ok prepared, MkMemory (<[Rec_ID prepared := prepared]> (byID m)) (order m ++ [Rec_ID prepared]))
          end
      end
  end.

Definition Get (ctx : option string) (id : string) (m : Memory) : result RunErr RunRecord :=
  match ctx with
  | Some err => Err (ErrCtx err)
  | None =>
      match NormalizeID id with
      | None => Err ErrInvalidID
      | Some id => match byID m !! id with None => Err ErrNotFound | Some rec => Ok rec end
      end
  end.

Definition List (ctx : option string) (limit : Z) (service : string) (m : Memory)
    : result RunErr (list RunRecord) :=
  match ctx with
  | Some err => Err (ErrCtx err)
  | None =>
      let want := clipService service in
      let out := filter (λ r, want = "" ∨ Rec_Service r = want) (records m) in
      Ok (summaries (take (Z.to_nat (clipLimit limit)) (sort_cmp cmp_newest out)))
  end.

#[global] Instance Memory_RunStore : RunStore Memory := {
  RunStore_Insert := Insert;
  RunStore_Get := Get;
  RunStore_List := List;
}.
End ops.
End memory_runs.

(** ** postgres.go *)

Module postgres_runs.

Record Row := MkRow {
  Row_id : string;
  Row_recorded_at : Z;
  Row_baseline_sha : string;
  Row_dirty : bool;
  Row_workload_digest : string;
  Row_artifact_digest : string;
  Row_overall : string;
  Row_validated : bool;
  Row_artifact : Artifact;
}.

Record Postgres := MkPostgres { table : gmap string Row }.
Definition NewPostgres (rows : gmap string Row) : Postgres := MkPostgres rows.

(** A [TIMESTAMPTZ] has microseconds. *)
Definition pg_time (t : Z) : Z := (t - t `mod` 1000)%Z.

(** [insertSQL] *)
Definition row_of (r : RunRecord) (a : Artifact) : Row :=
  MkRow (Rec_ID r) (pg_time (Rec_Recorded r)) (Rec_BaselineSHA r) (Rec_Dirty r) (Rec_WorkloadDigest r)
    (Rec_ArtifactDigest r) (Rec_Overall r) (Rec_Validated r) a.

(** The checks of the table: [runs_overall_legal] and [runs_validated_requires_match]. *)
Definition row_legal (r : Row) : bool :=
  bool_decide (Row_overall r ∈ ["match"; "differ"; "incomplete"]) &&
  (negb (Row_validated r) || (Row_overall r == "match")).

Definition cmp_newest : Row → Row → comparison :=
  cmp_desc (cmp_then (cmp_on Row_recorded_at Z.compare) (cmp_on Row_id String.compare)).

Section ops.
  Context `{GoNet, GoSHA, EvidenceJSON}.

(** The columns read by [getSQL]; the service is not among them. *)
Definition record_of (r : Row) (service : string) (artifact : option Artifact) : RunRecord :=
  let d := Decision_of (Row_artifact r) in
  MkRecord (Row_id r) (Row_recorded_at r) service (Row_baseline_sha r) (Row_dirty r) (Row_workload_digest r)
    (Row_artifact_digest r) (Row_overall r) (D_Blockers d) (D_Validated d) artifact.

Definition Get (db : option string) (id : string) (p : Postgres) : result RunErr RunRecord :=
  match NormalizeID id with
  | None => Err ErrInvalidID
  | Some id =>
      match db with
      | Some msg => Err (ErrDB msg)
      | None =>
          match table p !! id with
          | None => Err ErrNotFound
          | Some r =>
              check? err_of (Verify (Row_artifact r)) in
              Ok (record_of r "" (Some (Row_artifact r)))
          end
      end
  end.

(** [ON CONFLICT DO NOTHING]: a row with the id is left alone and read back. *)
Definition Insert (db : option string) (rec : RunRecord) (p : Postgres) : result RunErr RunRecord * Postgres :=
  match prepareInsert rec with
  | Err e => (Err e, p)
  | Ok prepared =>
      match db with
      | Some msg => (Err (ErrDB msg), p)
      | None =>
          match Rec_Artifact prepared with
          | None => (Err ErrMissingArtifact, p)
          | Some a =>
              let row := row_of prepared a in
              if negb (row_legal row) then (Err (ErrDB "insert run: violates check constraint"), p)
              else
                match table p !! Rec_ID prepared with
                | Some _ =>
                    match Get db (Rec_ID prepared) p with
                    | Err e => (Err e, p)
                    | Ok existing =>
                        if Rec_ArtifactDigest existing != Rec_ArtifactDigest prepared
                        then (Err ErrCollision, p) else (Ok existing, p)
                    end
                | None => (Ok prepared, MkPostgres (<[Rec_ID prepared := row]> (table p)))
                end
          end
      end
  end.

(** A row of the list; a row whose artifact does not verify fails the whole list. *)
Definition list_row (r : Row) : result RunErr RunRecord :=
  check? err_of (Verify (Row_artifact r)) in
  Ok (record_of r (A_Service (Row_artifact r)) None).

Definition List (db : option string) (limit : Z) (service : string) (p : Postgres)
    : result RunErr (list RunRecord) :=
  match db with
  | Some msg => Err (ErrDB msg)
  | None =>
      let want := clipService service in
      let rows := filter (λ r, want = "" ∨ A_Service (Row_artifact r) = want) (map_to_list (table p)).*2 in
      rmap_list list_row (take (Z.to_nat (clipLimit limit)) (sort_cmp cmp_newest rows))
  end.

#[global] Instance Postgres_RunStore : RunStore Postgres := {
  RunStore_Insert := Insert;
  RunStore_Get := Get;
  RunStore_List := List;
}.
End ops.
End postgres_runs.

(** ** Records *)

Section records.
  Context `{GoNet, GoSHA, EvidenceJSON}.

Lemma err_of_ok {A} (r : result EvidenceErr A) x : err_of r = Ok x ↔ r = Ok x.
Proof. destruct r; naive_solver. Qed.

Lemma verified_digest a :
  Verify a = Ok tt → A_ArtifactDigest a ≠ "" →
  String.length (A_ArtifactDigest a) = 64%nat ∧ all_hex (A_ArtifactDigest a) = true.
Proof.
  intros (_ & _ & _ & Hd)%Verify_iff Hne. rewrite Hd in * by auto. unfold digestArtifact in *.
  destruct (artifact_json _); [apply sha256_hex_ok|done].
Qed.

Lemma NormalizeID_id s : all_hex s = true → String.length s = idLen → NormalizeID s = Some s.
Proof.
  intros Hh Hl. unfold NormalizeID. rewrite TrimSpace_hex, ToLower_hex by done. unfold len.
  rewrite Hh, str_take_all by (by rewrite Hl). by rewrite Hl.
Qed.

(** The record of an artifact, and when there is one. *)
Definition record_for (a : Artifact) : RunRecord :=
  let d := Decision_of a in
  MkRecord (str_take idLen (A_ArtifactDigest a)) (A_Recorded a) (A_Service a) (A_BaselineSHA a) (A_Dirty a)
    (A_WorkloadDigest a) (A_ArtifactDigest a) (plan.Ev_Overall (A_Result a)) (D_Blockers d) (D_Validated d)
    (Some a).

Lemma FromArtifact_iff a r :
  FromArtifact a = Ok r ↔
  Verify a = Ok tt ∧ (A_Schema a = SchemaV3 → Check a = Ok tt) ∧ A_ArtifactDigest a ≠ "" ∧ r = record_for a.
Proof.
  assert ((if A_Schema a == SchemaV3 then Check a else Verify a) = Ok tt ↔
    Verify a = Ok tt ∧ (A_Schema a = SchemaV3 → Check a = Ok tt)) as Hc.
  { case_bool_decide; [|tauto]. rewrite Check_Verify. tauto. }
  unfold FromArtifact. split.
  - intros ([] & Hv & Hr)%rbind_ok. apply err_of_ok, Hc in Hv as [Hv H3].
    case_bool_decide as Hd; [done|]. destruct (verified_digest a Hv Hd) as [Hl Hh].
    rewrite NormalizeID_id in Hr by (rewrite ?length_str_take, ?Hl; auto using all_hex_take).
    by injection Hr as <-.
  - intros (Hv & H3 & Hd & ->). rewrite (proj2 (err_of_ok _ tt)) by tauto. cbn [rbind].
    rewrite bool_decide_eq_false_2 by done. destruct (verified_digest a Hv Hd) as [Hl Hh].
    by rewrite NormalizeID_id by (rewrite ?length_str_take, ?Hl; auto using all_hex_take).
Qed.

(** Artifacts that have a record. *)
Definition recordable (a : Artifact) : Prop := FromArtifact a = Ok (record_for a).

Lemma recordable_iff a :
  recordable a ↔ Verify a = Ok tt ∧ (A_Schema a = SchemaV3 → Check a = Ok tt) ∧ A_ArtifactDigest a ≠ "".
Proof. unfold recordable. rewrite FromArtifact_iff. tauto. Qed.

Lemma record_id a : recordable a → NormalizeID (Rec_ID (record_for a)) = Some (Rec_ID (record_for a)).
Proof.
  intros (Hv & _ & Hd)%recordable_iff. destruct (verified_digest a Hv Hd) as [Hl Hh].
  apply NormalizeID_id; cbn [record_for Rec_ID].
  - by apply all_hex_take.
  - rewrite length_str_take, Hl. done.
Qed.

Lemma prepareInsert_ok rec r :
  prepareInsert rec = Ok r ↔
  ∃ a, Rec_Artifact rec = Some a ∧ recordable a ∧ r = record_for a ∧
    (Rec_ID rec = "" ∨ Rec_ID rec = Rec_ID r).
Proof.
  unfold prepareInsert. split.
  - destruct (Rec_Artifact rec) as [a|]; [|done]. case_bool_decide; [done|].
    destruct (FromArtifact a) as [b|] eqn:Hb; [|done]. destruct (_ && _) eqn:E; [done|].
    intros [= ->]. exists a. split; [done|]. unfold recordable.
    pose proof (proj1 (FromArtifact_iff a r) Hb) as (_ & _ & _ & ->). split_and!; [done|done|].
    rewrite andb_false_iff, !negb_false_iff, !bool_decide_eq_true in E. done.
  - intros (a & Ha & Hr & -> & Hid). rewrite Ha, Hr.
    rewrite bool_decide_eq_false_2.
    + replace ((Rec_ID rec != "") && (Rec_ID rec != Rec_ID (record_for a))) with false; [done|].
      symmetry. rewrite andb_false_iff, !negb_false_iff, !bool_decide_eq_true. done.
    + intros E. apply recordable_iff in Hr as ((Hs & _)%Verify_iff & _). rewrite E in Hs. set_solver.
Qed.
End records.

(** ** What clients may rely on *)

Section laws.
  Context `{GoNet, GoSHA, EvidenceJSON}.

(** A record that tells the truth about an accepted artifact. *)
Definition tells (r : RunRecord) (a : Artifact) : Prop :=
  recordable a ∧ Rec_ID r = Rec_ID (record_for a) ∧ Rec_ArtifactDigest r = A_ArtifactDigest a ∧
  Rec_WorkloadDigest r = A_WorkloadDigest a ∧ Rec_BaselineSHA r = A_BaselineSHA a ∧
  Rec_Dirty r = A_Dirty a ∧ Rec_Overall r = plan.Ev_Overall (A_Result a) ∧
  Rec_Validated r = D_Validated (Decision_of a) ∧ Rec_Blockers r = D_Blockers (Decision_of a).

Class RunLaws (S : Type) `{RunStore S} := {
  run_inv : S → Prop;
  run_insert_inv ctx rec s : run_inv s → run_inv (RunStore_Insert ctx rec s).2;
  run_insert ctx rec s r s' :
    run_inv s → RunStore_Insert ctx rec s = (Ok r, s') →
    ∃ a, Rec_Artifact r = Some a ∧ tells r a ∧
      Rec_ArtifactDigest r = default "" (A_ArtifactDigest <$> Rec_Artifact rec);
  run_insert_get ctx rec s r s' :
    run_inv s → RunStore_Insert ctx rec s = (Ok r, s') →
    ∃ r', RunStore_Get None (Rec_ID r) s' = Ok r' ∧ Rec_Artifact r' = Rec_Artifact r;
  run_insert_keeps ctx rec s id r :
    run_inv s → RunStore_Get None id s = Ok r → RunStore_Get None id (RunStore_Insert ctx rec s).2 = Ok r;
  run_get ctx id s r :
    run_inv s → RunStore_Get ctx id s = Ok r →
    ∃ a, Rec_Artifact r = Some a ∧ tells r a ∧ NormalizeID id = Some (Rec_ID r);
  run_list ctx limit service s l :
    run_inv s → RunStore_List ctx limit service s = Ok l →
    Forall (λ r, ∃ a, tells r a) l ∧ (Z.of_nat (length l) ≤ MaxList)%Z;
}.

Lemma tells_record a : recordable a → tells (record_for a) a.
Proof. intros Ha. by split_and!. Qed.

Lemma clipLimit_le n : (Z.to_nat (clipLimit n) ≤ Z.to_nat MaxList)%nat.
Proof. unfold clipLimit, DefaultList, MaxList. repeat case_match; lia. Qed.
End laws.

(** ** The in-memory store keeps its promises *)

Section memory.
  Context `{GoNet, GoSHA, EvidenceJSON}.
Import memory_runs.

(** Every record was made from an artifact. *)
Record memory_ok (m : Memory) : Prop := {
  mo_records id r : byID m !! id = Some r → ∃ a, recordable a ∧ r = record_for a ∧ id = Rec_ID r;
  mo_order id : id ∈ order m → is_Some (byID m !! id);
  mo_complete id : is_Some (byID m !! id) → id ∈ order m;
  mo_nodup : NoDup (order m);
}.

Lemma NewRuns_ok : memory_ok NewMemory.
Proof.
  split; cbn [NewMemory byID order].
  - intros id r. by rewrite lookup_empty.
  - intros id []%elem_of_nil.
  - intros id [r Hr]. by rewrite lookup_empty in Hr.
  - constructor.
Qed.

Lemma Memory_insert_ok m a :
  memory_ok m → recordable a → byID m !! Rec_ID (record_for a) = None →
  memory_ok (MkMemory (<[Rec_ID (record_for a) := record_for a]> (byID m)) (order m ++ [Rec_ID (record_for a)])).
Proof.
  intros [Hr Ho Hc Hn] Ha Hnone. split; cbn [byID order].
  - intros id r [[<- <-]|[_ Hin]]%lookup_insert_Some; [by exists a|by apply Hr].
  - intros id. rewrite elem_of_app, list_elem_of_singleton, lookup_insert_is_Some'. naive_solver.
  - intros id. rewrite elem_of_app, list_elem_of_singleton, lookup_insert_is_Some'. naive_solver.
  - apply NoDup_app. split; [done|]. split; [|apply NoDup_singleton].
    intros id [r Hin]%Ho ->%list_elem_of_singleton. congruence.
Qed.

(** What [Insert] does on its three outcomes. *)
Lemma Memory_Insert_cases ctx rec m :
  (∃ e, Insert ctx rec m = (Err e, m)) ∨
  (∃ a, Rec_Artifact rec = Some a ∧ recordable a ∧ let r := record_for a in
     (byID m !! Rec_ID r = None ∧
      Insert ctx rec m = (Ok r, MkMemory (<[Rec_ID r := r]> (byID m)) (order m ++ [Rec_ID r]))) ∨
     ∃ old, byID m !! Rec_ID r = Some old ∧ Rec_ArtifactDigest old = Rec_ArtifactDigest r ∧
       Insert ctx rec m = (Ok old, m)).
Proof.
  unfold Insert. destruct ctx; [by left; eexists|]. destruct (prepareInsert rec) as [r|] eqn:Hp; [|by left; eexists].
  apply prepareInsert_ok in Hp as (a & Ha & Hra & -> & _).
  destruct (byID m !! _) as [old|] eqn:Hold.
  - case_bool_decide as Hd; cbn [negb]; [|by left; eexists]. right. exists a. split_and!; [done..|]. right. by exists old.
  - right. exists a. split_and!; [done..|]. by left.
Qed.

#[global] Program Instance Memory_RunLaws : RunLaws Memory := {| run_inv := memory_ok |}.
Next Obligation.
  intros ctx rec m Hok. cbn [RunStore_Insert Memory_RunStore].
  destruct (Memory_Insert_cases ctx rec m) as [[e ->]|(a & _ & Ha & [[Hn ->]|(old & _ & _ & ->)])]; try done.
  by apply Memory_insert_ok.
Qed.
Next Obligation.
  intros ctx rec m r m' Hok. cbn [RunStore_Insert Memory_RunStore].
  destruct (Memory_Insert_cases ctx rec m) as [[e ->]|(a & Hrec & Ha & [[Hn ->]|(old & Hold & Hd & ->)])]; [done|..];
    intros [= <- <-]; rewrite Hrec; cbn.
  - exists a. by split; [|split; [apply tells_record|]].
  - destruct (mo_records m Hok _ _ Hold) as (b & Hb & -> & _). exists b. by split; [|split; [apply tells_record|]].
Qed.
Next Obligation.
  intros ctx rec m r m' Hok. cbn [RunStore_Insert RunStore_Get Memory_RunStore].
  destruct (Memory_Insert_cases ctx rec m) as [[e ->]|(a & _ & Ha & [[Hn ->]|(old & Hold & _ & ->)])]; [done|..];
    intros [= <- <-]; unfold Get.
  - exists (record_for a). rewrite record_id by done. cbn [byID]. by rewrite lookup_insert_eq.
  - destruct (mo_records m Hok _ _ Hold) as (b & Hb & -> & E). exists (record_for b).
    rewrite record_id by done. by rewrite <- E, Hold.
Qed.
Next Obligation.
  intros ctx rec m id r Hok. cbn [RunStore_Insert RunStore_Get Memory_RunStore]. intros Hg.
  destruct (Memory_Insert_cases ctx rec m) as [[e ->]|(a & _ & Ha & [[Hn ->]|(old & Hold & _ & ->)])]; try done.
  revert Hg. unfold Get. destruct (NormalizeID id) as [i|]; [|done]. cbn [snd byID].
  destruct (decide (Rec_ID (record_for a) = i)) as [<-|Hne]; [by rewrite Hn|]. by rewrite lookup_insert_ne.
Qed.
Next Obligation.
  intros ctx id m r Hok. cbn [RunStore_Get Memory_RunStore]. unfold Get. destruct ctx; [done|].
  destruct (NormalizeID id) as [i|]; [|done]. destruct (byID m !! i) as [r'|] eqn:Hi; [|done].
  intros [= ->]. destruct (mo_records m Hok _ _ Hi) as (a & Ha & -> & ->). exists a.
  by split; [|split; [apply tells_record|]].
Qed.
Next Obligation.
  intros ctx limit service m l Hok. cbn [RunStore_List Memory_RunStore]. unfold List. destruct ctx; [done|].
  intros [= <-]. unfold summaries. split.
  - apply Forall_fmap, Forall_take, Forall_forall. intros r. rewrite elem_of_sort_cmp, list_elem_of_filter.
    intros [_ Hr]. unfold records in Hr. apply list_elem_of_fmap in Hr as (id & -> & [r Hid]%(mo_order m Hok)).
    rewrite Hid. destruct (mo_records m Hok _ _ Hid) as (a & Ha & -> & _). exists a. exact (tells_record a Ha).
  - rewrite length_fmap, length_take. pose proof (clipLimit_le limit). unfold MaxList in *. lia.
Qed.
End memory.


(** ** The Postgres store keeps its promises *)

Section postgres.
  Context `{GoNet, GoSHA, EvidenceJSON}.
Import postgres_runs.

(** A row holds an accepted artifact, and its columns are those of the artifact. *)
Definition row_ok (id : string) (row : Row) : Prop :=
  recordable (Row_artifact row) ∧ row = row_of (record_for (Row_artifact row)) (Row_artifact row) ∧
  id = Row_id row.
Definition table_ok (p : Postgres) : Prop := map_Forall row_ok (table p).

Lemma row_verified id row : row_ok id row → Verify (Row_artifact row) = Ok tt.
Proof. by intros [(Hv & _)%recordable_iff _]. Qed.

Lemma record_of_tells id row service art :
  row_ok id row → tells (record_of row service art) (Row_artifact row).
Proof. intros (Ha & -> & _). by split_and!. Qed.

Lemma Postgres_Get_ok db id p r :
  table_ok p → Get db id p = Ok r ↔
  db = None ∧ ∃ i row, NormalizeID id = Some i ∧ table p !! i = Some row ∧
    r = record_of row "" (Some (Row_artifact row)).
Proof.
  intros Hok. unfold Get. destruct (NormalizeID id) as [i|]; [|naive_solver].
  destruct db; [naive_solver|]. destruct (table p !! i) as [row|] eqn:Hi; [|naive_solver].
  rewrite (row_verified i row) by (by apply Hok). cbn. naive_solver.
Qed.

Lemma Postgres_Insert_cases db rec p :
  table_ok p →
  (∃ e, Insert db rec p = (Err e, p)) ∨
  (∃ a, Rec_Artifact rec = Some a ∧ recordable a ∧ let r := record_for a in
     row_legal (row_of r a) = true ∧
     ((table p !! Rec_ID r = None ∧
       Insert db rec p = (Ok r, MkPostgres (<[Rec_ID r := row_of r a]> (table p)))) ∨
      ∃ row, table p !! Rec_ID r = Some row ∧ Row_artifact_digest row = Rec_ArtifactDigest r ∧
        Insert db rec p = (Ok (record_of row "" (Some (Row_artifact row))), p))).
Proof.
  intros Hok. unfold Insert. destruct (prepareInsert rec) as [r|] eqn:Hp; [|by left; eexists].
  destruct db; [by left; eexists|]. apply prepareInsert_ok in Hp as (a & Ha & Hra & -> & _).
  replace (Rec_Artifact (record_for a)) with (Some a) by done.
  destruct (row_legal _) eqn:Hl; cbn [negb]; [|by left; eexists].
  destruct (table p !! Rec_ID (record_for a)) as [row|] eqn:Hrow.
  - unfold Get. rewrite record_id, Hrow, (row_verified _ row) by (done || by apply Hok). cbn [rbind err_of].
    case_bool_decide as Hd; cbn [negb]; [|by left; eexists]. right. exists a. split_and!; [done..|].
    right. by exists row.
  - right. exists a. split_and!; [done..|]. by left.
Qed.

Lemma insert_row_ok p a :
  table_ok p → recordable a →
  table_ok (MkPostgres (<[Rec_ID (record_for a) := row_of (record_for a) a]> (table p))).
Proof. intros Hok Ha. apply map_Forall_insert_2; [by split_and!|done]. Qed.

#[global] Program Instance Postgres_RunLaws : RunLaws Postgres := {| run_inv := table_ok |}.
Next Obligation.
  intros db rec p Hok. cbn [RunStore_Insert Postgres_RunStore].
  destruct (Postgres_Insert_cases db rec p Hok) as [[e ->]|(a & _ & Ha & _ & [[_ ->]|(row & _ & _ & ->)])]; try done.
  by apply insert_row_ok.
Qed.
Next Obligation.
  intros db rec p r p' Hok. cbn [RunStore_Insert Postgres_RunStore].
  destruct (Postgres_Insert_cases db rec p Hok)
    as [[e ->]|(a & Hrec & Ha & _ & [[_ ->]|(row & Hrow & Hd & ->)])]; [done|..];
    intros [= <- <-]; rewrite Hrec; cbn.
  - exists a. by split; [|split; [apply tells_record|]].
  - exists (Row_artifact row). split; [done|]. split; [|done]. by eapply record_of_tells, Hok.
Qed.
Next Obligation.
  intros db rec p r p' Hok. cbn [RunStore_Insert RunStore_Get Postgres_RunStore].
  destruct (Postgres_Insert_cases db rec p Hok)
    as [[e ->]|(a & _ & Ha & _ & [[_ ->]|(row & Hrow & Hd & ->)])]; [done|..]; intros [= <- <-].
  - eexists. split.
    + apply Postgres_Get_ok; [by apply insert_row_ok|]. split; [done|]. eexists _, _.
      split; [by apply record_id|]. split; [|done]. apply lookup_insert_eq.
    + done.
  - eexists. split; [|done]. pose proof (Hok _ _ Hrow) as (Hr & E & Hid). apply Postgres_Get_ok; [done|]. split; [done|].
    eexists _, row. split; [|by split; [exact Hrow|]]. cbn [record_of Rec_ID].
    rewrite <- Hid. by apply record_id.
Qed.
Next Obligation.
  intros db rec p id r Hok. cbn [RunStore_Insert RunStore_Get Postgres_RunStore]. intros Hg.
  destruct (Postgres_Insert_cases db rec p Hok)
    as [[e ->]|(a & _ & Ha & _ & [[Hn ->]|(row & Hrow & Hd & ->)])]; try done.
  apply Postgres_Get_ok in Hg as (_ & i & row & Hi & Hrow & ->); [|done].
  apply Postgres_Get_ok; [by apply insert_row_ok|]. split; [done|]. exists i, row. split; [done|]. split; [|done].
  cbn [snd table]. rewrite lookup_insert_ne; [done|]. congruence.
Qed.
Next Obligation.
  intros db id p r Hok. cbn [RunStore_Get Postgres_RunStore].
  intros (_ & i & row & Hi & Hrow & ->)%Postgres_Get_ok; [|done].
  exists (Row_artifact row). split; [done|]. split; [by eapply record_of_tells, Hok|].
  rewrite Hi. by destruct (Hok _ _ Hrow) as (_ & _ & ->).
Qed.
Next Obligation.
  intros db limit service p l Hok. cbn [RunStore_List Postgres_RunStore]. unfold List. destruct db; [done|].
  intros Hl%rmap_list_ok. split.
  - apply Forall_forall. intros r [i Hi]%list_elem_of_lookup. destruct (Forall2_lookup_r _ _ _ _ _ Hl Hi) as (row & Hin & Hr).
    apply list_elem_of_lookup_2, elem_of_take in Hin as (j & Hin%list_elem_of_lookup_2 & _).
    rewrite elem_of_sort_cmp, list_elem_of_filter in Hin. destruct Hin as [_ Hin].
    apply list_elem_of_fmap in Hin as ([id row'] & -> & Hrow%elem_of_map_to_list).
    unfold list_row in Hr. apply rbind_ok in Hr as (_ & _ & [= <-]).
    exists (Row_artifact row'). by eapply record_of_tells, Hok.
  - rewrite <- (Forall2_length _ _ _ Hl), length_take. pose proof (clipLimit_le limit). unfold MaxList in *. lia.
Qed.
End postgres.


(** ** The two stores answer alike *)

Section agree.
  Context `{GoNet, GoSHA, EvidenceJSON}.
Import memory_runs postgres_runs.

(** Artifacts whose columns the table can hold as they are: the verdict is spelled as
    the program spells it and the time has no fraction of a microsecond. *)
Definition storable (a : Artifact) : Prop :=
  plan.Ev_Overall (A_Result a) ∈ ["match"; "differ"; "incomplete"] ∧ (A_Recorded a mod 1000 = 0)%Z.

Definition row_record (row : Row) : RunRecord := record_for (Row_artifact row).

(** Both stores hold the records of the same artifacts. *)
Record same (m : Memory) (p : Postgres) : Prop := {
  sm_memory : memory_ok m;
  sm_table : table_ok p;
  sm_storable : map_Forall (λ _ row, storable (Row_artifact row)) (table p);
  sm_eq : byID m = row_record <$> table p;
}.

(** A record without its service, which [getSQL] does not read. *)
Definition no_service (r : RunRecord) : RunRecord :=
  MkRecord (Rec_ID r) (Rec_Recorded r) "" (Rec_BaselineSHA r) (Rec_Dirty r)
    (Rec_WorkloadDigest r) (Rec_ArtifactDigest r) (Rec_Overall r) (Rec_Blockers r) (Rec_Validated r) (Rec_Artifact r).
Definition alike (r1 r2 : result RunErr RunRecord) : Prop :=
  match r1, r2 with
  | Ok x, Ok y => no_service x = no_service y
  | Err e, Err e' => e = e'
  | _, _ => False
  end.

Lemma pg_time_storable a : storable a → pg_time (A_Recorded a) = A_Recorded a.
Proof. intros [_ Ht]. unfold pg_time. lia. Qed.

(** The verdict is spelled as the program spells it. *)
Definition exact_verdict (a : Artifact) : Prop :=
  plan.Ev_Overall (A_Result a) ∈ ["match"; "differ"; "incomplete"].

#[local] Instance exact_verdict_dec a : base.Decision (exact_verdict a).
Proof. unfold exact_verdict. apply _. Defined.

Lemma exact_legal a : recordable a → exact_verdict a → row_legal (row_of (record_for a) a) = true.
Proof.
  intros (Hv & H3 & _)%recordable_iff Ho. unfold exact_verdict in Ho. unfold row_legal. cbn [row_of record_for Row_overall Row_validated Rec_Overall Rec_Validated].
  rewrite bool_decide_eq_true_2 by done. cbn [andb].
  destruct (D_Validated (Decision_of a)) eqn:Hval; [|done]. cbn [negb orb].
  assert (A_Schema a = SchemaV3) as Hs.
  { apply Verify_iff in Hv as (Hs & _). unfold Decision_of in Hval.
    do 2 (case_bool_decide; [discriminate Hval|]). set_solver. }
  rewrite Decision_of_v3 in Hval by done. rewrite Decide_validated_blockers in Hval.
  pose proof (po_match _ (no_blocker_policy _ Hval)) as Hm. cbn [decision_input In_Result] in Hm.
  revert Hm. repeat (apply elem_of_cons in Ho as [->|Ho]; [done|]). by apply not_elem_of_nil in Ho.
Qed.

Lemma row_alike id row :
  row_ok id row → storable (Row_artifact row) →
  no_service (record_of row "" (Some (Row_artifact row))) = no_service (row_record row) ∧
  record_of row (A_Service (Row_artifact row)) None = summary (row_record row).
Proof.
  intros (_ & E & _) Hs. unfold row_record, no_service, summary, record_of.
  rewrite E. cbn [row_of Row_artifact Row_id Row_recorded_at Row_baseline_sha Row_dirty Row_workload_digest
    Row_artifact_digest Row_overall]. cbn [record_for Rec_Recorded]. by rewrite pg_time_storable.
Qed.

Lemma same_Get m p id :
  same m p → alike (memory_runs.Get None id m) (postgres_runs.Get None id p).
Proof.
  intros [Hm Hp Hs E]. unfold memory_runs.Get, postgres_runs.Get. destruct (NormalizeID id) as [i|]; [|done].
  rewrite E, lookup_fmap. destruct (table p !! i) as [row|] eqn:Hi; [|done]. cbn [fmap option_fmap option_map].
  rewrite (row_verified i row) by (by apply Hp). cbn. symmetry. apply (row_alike i); [by apply Hp|exact (Hs i row Hi)].
Qed.

Lemma same_Insert m p rec :
  same m p → (∀ a, Rec_Artifact rec = Some a → storable a) →
  alike (memory_runs.Insert None rec m).1 (postgres_runs.Insert None rec p).1 ∧
  same (memory_runs.Insert None rec m).2 (postgres_runs.Insert None rec p).2.
Proof.
  intros Hsame Hst. pose proof Hsame as [Hm Hp Hs E]. unfold memory_runs.Insert, postgres_runs.Insert.
  destruct (prepareInsert rec) as [r|] eqn:Hpr; [|done].
  apply prepareInsert_ok in Hpr as (a & Ha & Hra & -> & _). specialize (Hst a Ha).
  replace (Rec_Artifact (record_for a)) with (Some a) by done. rewrite exact_legal by (done || apply Hst). cbn [negb].
  rewrite E, lookup_fmap. destruct (table p !! Rec_ID (record_for a)) as [row|] eqn:Hi.
  - destruct (row_alike _ row (Hp _ _ Hi) (Hs _ _ Hi)) as [Hal _].
    unfold postgres_runs.Get. rewrite record_id, Hi, (row_verified _ row) by (done || by apply Hp).
    cbn [fmap option_fmap option_map rbind err_of].
    destruct (Hp _ _ Hi) as (_ & Hrow & _).
    assert (Rec_ArtifactDigest (record_of row "" (Some (Row_artifact row))) = Rec_ArtifactDigest (row_record row)) as ->
      by (by rewrite Hrow).
    case_bool_decide; cbn [negb fst snd]; [|done]. by split.
  - cbn [fmap option_fmap option_map fst snd]. split; [done|]. split.
    + rewrite <- E. apply Memory_insert_ok; [done..|]. by rewrite E, lookup_fmap, Hi.
    + by apply insert_row_ok.
    + apply map_Forall_insert_2; [exact Hst|exact Hs].
    + cbn [byID table]. by rewrite fmap_insert.
Qed.

Lemma records_perm m : memory_ok m → records m ≡ₚ (map_to_list (byID m)).*2.
Proof.
  intros Hm. unfold records.
  assert (order m ≡ₚ (map_to_list (byID m)).*1) as ->.
  { apply NoDup_Permutation; [apply Hm|apply NoDup_fst_map_to_list|]. intros id. split.
    - intros [r Hr]%(mo_order m Hm). apply list_elem_of_fmap. exists (id, r). by rewrite elem_of_map_to_list.
    - intros ([i r] & -> & Hr%elem_of_map_to_list)%list_elem_of_fmap. apply (mo_complete m Hm). by eexists. }
  rewrite <- list_fmap_compose. rewrite (list_fmap_ext _ snd (map_to_list (byID m))); [done|].
  intros i [id r] Hin%list_elem_of_lookup_2.
  apply elem_of_map_to_list in Hin. cbn. by rewrite Hin.
Qed.

#[local] Instance cmp_newest_ordcmp : OrdCmp memory_runs.cmp_newest.
Proof. apply _. Qed.

Lemma record_unique m r r' :
  memory_ok m → r ∈ records m → r' ∈ records m → Rec_ID r = Rec_ID r' → r = r'.
Proof.
  intros Hm. rewrite records_perm by done. intros ([i x] & -> & Hx%elem_of_map_to_list)%list_elem_of_fmap.
  intros ([j y] & -> & Hy%elem_of_map_to_list)%list_elem_of_fmap. cbn [snd].
  destruct (mo_records m Hm _ _ Hx) as (_ & _ & _ & ->), (mo_records m Hm _ _ Hy) as (_ & _ & _ & ->).
  intros E. rewrite E in Hx. congruence.
Qed.

Lemma list_rows_ok l :
  Forall (λ row, Verify (Row_artifact row) = Ok tt) l →
  rmap_list list_row l = Ok ((λ row, record_of row (A_Service (Row_artifact row)) None) <$> l).
Proof.
  intros Hl. apply rmap_list_ok. induction Hl as [|row l Hv _ IH]; [constructor|]. rewrite fmap_cons.
  constructor; [|done]. unfold list_row. by rewrite Hv.
Qed.

Lemma same_List m p limit service :
  same m p → memory_runs.List None limit service m = postgres_runs.List None limit service p.
Proof.
  intros [Hm Hp Hs E]. unfold memory_runs.List, postgres_runs.List.
  set (want := clipService service). set (n := Z.to_nat (clipLimit limit)).
  set (rows := (map_to_list (table p)).*2).
  assert (∀ row, row ∈ rows → ∃ id, table p !! id = Some row) as Hin.
  { intros row ([id row'] & -> & Hr%elem_of_map_to_list)%list_elem_of_fmap. by exists id. }
  assert (records m ≡ₚ row_record <$> rows) as Hperm.
  { rewrite records_perm, E, map_to_list_fmap by done. unfold rows. by rewrite <- !list_fmap_compose. }
  rewrite (sort_cmp_perm_eq memory_runs.cmp_newest _ (filter (λ r, want = "" ∨ Rec_Service r = want) (row_record <$> rows))).
  2: { intros r r' [_ Hr]%list_elem_of_filter [_ Hr']%list_elem_of_filter Hc. apply (record_unique m); [done..|].
       revert Hc. unfold memory_runs.cmp_newest, cmp_desc, cmp_then, cmp_on.
       destruct (_ ?= _)%Z; [|done..]. intros Hc%String.compare_eq_iff. done. }
  2: { by rewrite Hperm. }
  unfold summaries. rewrite fmap_take, (sort_cmp_fmap summary memory_runs.cmp_newest memory_runs.cmp_newest) by done.
  rewrite list_filter_fmap, <- list_fmap_compose.
  rewrite (list_filter_iff _ (λ row, want = "" ∨ A_Service (Row_artifact row) = want)) by done.
  set (kept := filter _ rows).
  assert (∀ row, row ∈ kept → ∃ id, table p !! id = Some row) as Hkept
    by (intros row [_ ?]%list_elem_of_filter; auto).
  rewrite list_rows_ok.
  - f_equal. rewrite fmap_take, (sort_cmp_fmap _ _ memory_runs.cmp_newest) by done. do 2 f_equal.
    apply list_fmap_ext. intros i row Hi%list_elem_of_lookup_2. destruct (Hkept row Hi) as [id Hid].
    symmetry. apply (row_alike id); [by apply Hp|exact (Hs id row Hid)].
  - apply Forall_take, Forall_forall. intros row. rewrite elem_of_sort_cmp. intros [id Hid]%Hkept.
    eapply row_verified, Hp, Hid.
Qed.

(** Evidence whose verdict is spelled otherwise. *)
Lemma other_verdict m p rec r a :
  same m p → prepareInsert rec = Ok r → Rec_Artifact rec = Some a → ¬ exact_verdict a →
  (∃ e, postgres_runs.Insert None rec p = (Err e, p)) ∧
  (byID m !! Rec_ID r = None → (memory_runs.Insert None rec m).1 = Ok r).
Proof.
  intros Hsame Hpr Ha Hv. unfold memory_runs.Insert, postgres_runs.Insert. rewrite Hpr.
  apply prepareInsert_ok in Hpr as (a' & Ha' & Hra & -> & _). rewrite Ha in Ha'. injection Ha' as <-.
  replace (Rec_Artifact (record_for a)) with (Some a) by done.
  assert (row_legal (row_of (record_for a) a) = false) as ->.
  { unfold row_legal. by rewrite bool_decide_eq_false_2. }
  split; [by eexists|]. by intros ->.
Qed.

(** The time of evidence is kept in microseconds. *)
Lemma stored_time m p rec r a :
  same m p → prepareInsert rec = Ok r → Rec_Artifact rec = Some a → exact_verdict a →
  byID m !! Rec_ID r = None →
  (memory_runs.Insert None rec m).1 = Ok r ∧ (postgres_runs.Insert None rec p).1 = Ok r ∧
  ∃ x, postgres_runs.Get None (Rec_ID r) (postgres_runs.Insert None rec p).2 = Ok x ∧
    Rec_Recorded x = (A_Recorded a - A_Recorded a mod 1000)%Z.
Proof.
  intros [Hm Hp Hs E] Hpr Ha Hv Hn. unfold memory_runs.Insert, postgres_runs.Insert. rewrite Hpr, Hn.
  apply prepareInsert_ok in Hpr as (a' & Ha' & Hra & -> & _). rewrite Ha in Ha'. injection Ha' as <-.
  replace (Rec_Artifact (record_for a)) with (Some a) by done. rewrite exact_legal by done. cbn [negb].
  rewrite E, lookup_fmap in Hn. apply fmap_None in Hn. rewrite Hn. cbn [fst snd].
  split; [done|]. split; [done|]. eexists. split.
  - apply Postgres_Get_ok; [by apply insert_row_ok|]. split; [done|]. eexists _, _.
    split; [by apply record_id|]. split; [apply lookup_insert_eq|done].
  - done.
Qed.

(** C21: the two stores of runs that hold the same storable evidence (its verdict
    spelled exactly, its time in whole microseconds) answer alike to storable
    evidence: [Insert] and [Get] give the same records, or the same error, except
    that Postgres does not read the service of a record back, [List] gives the same
    list, and after an insertion they hold the same evidence again. Evidence whose
    verdict is spelled otherwise is refused by Postgres, while the in-memory store
    takes it; of a time with a smaller fraction Postgres gives back the microseconds. *)
Theorem stores_agree m p :
  same m p →
  (∀ rec, (∀ a, Rec_Artifact rec = Some a → storable a) →
     alike (memory_runs.Insert None rec m).1 (postgres_runs.Insert None rec p).1 ∧
     same (memory_runs.Insert None rec m).2 (postgres_runs.Insert None rec p).2) ∧
  (∀ id, alike (memory_runs.Get None id m) (postgres_runs.Get None id p)) ∧
  (∀ limit service, memory_runs.List None limit service m = postgres_runs.List None limit service p) ∧
  (∀ rec r a, prepareInsert rec = Ok r → Rec_Artifact rec = Some a →
     if decide (exact_verdict a) then
       byID m !! Rec_ID r = None →
       (memory_runs.Insert None rec m).1 = Ok r ∧ (postgres_runs.Insert None rec p).1 = Ok r ∧
       ∃ x, postgres_runs.Get None (Rec_ID r) (postgres_runs.Insert None rec p).2 = Ok x ∧
         Rec_Recorded x = (A_Recorded a - A_Recorded a mod 1000)%Z
     else
       (∃ e, postgres_runs.Insert None rec p = (Err e, p)) ∧
       (byID m !! Rec_ID r = None → (memory_runs.Insert None rec m).1 = Ok r)).
Proof.
  intros Hs. split_and!; [by intros; apply same_Insert|by intros; apply same_Get|by intros; apply same_List|].
  intros rec r a Hpr Ha. case_decide; [by eapply stored_time|by eapply other_verdict].
Qed.
End agree.

End runs.
