(* ===== verification/Api.v ===== *)
(** * The HTTP surface: [internal/api]

    [Module api] models the routes of server.go, the token check of auth.go and the
    handlers of runs.go, jobs.go, ingest.go, impact.go, graph.go, locate.go, source.go
    and health.go. A handler maps a request and the state of the server to a
    response and a new state. The stores are known by their interfaces only, so a
    server is over any [SpanStore], [RunStore] and [Store]. A response is the value
    that is encoded, with its status; the texts of JSON and gzip are operations of
    the class [ApiCodec]. Metrics are in [Server.v]; logging is left out. *)

From S2P Require Import Prelude GoStrings GoText Net Ingest Otlp Spans Source Graph Locate Replay Impact.
From S2P Require Import Diff Analyze Plan Validate Jobs JobStore Evidence Runs.
Import validate evidence runs otlp.

Module api.

(** ** Requests and responses *)

Record Request := MkRequest {
  Rq_Method : string;
  Rq_Path : string;                       (* [URL.Path] *)
  Rq_EscapedPath : string;
  Rq_Query : string → string;
  Rq_Header : string → string;
  Rq_Body : Reader;
  Rq_Ctx : option string;
}.

Record runCreated := MkRunCreated {
  Rc_AttestedBy : string;
  Rc_ID : string;
  Rc_Overall : string;
  Rc_Blockers : list Blocker;
  Rc_Validated : bool;
  Rc_ArtifactDigest : string;
  Rc_BaselineSHA : string;
  Rc_Dirty : bool;
  Rc_Service : string;
}.

Inductive Response :=
| RError (status : Z) (msg : string)
| RInvalidArtifact (e : EvidenceErr)
| RRedirect (path : string)
| RStatus (status : Z) (text : string)
| RMetrics
| RSpans (l : list ingest.Span)
| RAttaches (l : list ingest.Attach)
| RAccepted (rejected : Z)
| RGraph (g : graph.Snapshot)
| RLocate (l : locate.Snapshot)
| RSource (s : source.Snapshot)
| RNeighbors (id : string) (l : list source.Neighbor)
| RImpact (rep : impact.Report)
| RRun (r : runCreated)
| RRuns (l : list runCreated)
| RRunGet (r : runCreated) (a : option Artifact)
| RJob (j : jobs.Job)
| RJobs (l : list jobs.Job).

Definition status_of (r : Response) : Z :=
  match r with
  | RError status _ => status
  | RStatus status _ => status
  | RInvalidArtifact _ => 400
  | RRedirect _ => 301
  | _ => 200
  end.

(** What stops the reading of a body. *)
Inductive BodyErr := BodyTooLarge | BodyFailed (msg : string).

Class ApiCodec := {
  opts_of_json : string → result string jobs.CreateOpts;
  gunzip : string → option BodyErr → result BodyErr (string * option BodyErr);
  url_PathUnescape : string → string;
}.

(** [http.MaxBytesReader] and [io.ReadAll]. *)
Definition read_max (n : Z) (r : Reader) : result BodyErr string :=
  if (n <? len (R_data r))%Z then Err BodyTooLarge
  else match R_err r with Some msg => Err (BodyFailed msg) | None => Ok (R_data r) end.

Definition maxJobBytes : Z := 1048576.
Definition otlpMaxBytes : Z := 4194304.
Definition maxQueryTraceID : Z := 64.
Definition maxQueryService : Z := 128.
Definition maxSourceNodeID : Z := 1024.
Definition apiTokenHeader : string := "X-Aquila-Token".
Definition ingestTokenHeader : string := "X-Aquila-Ingest-Token".

(** [clipQuery] cuts at the last start of a code point at or before [n]. *)
Definition rune_start (a : ascii) : bool := negb (cont a).
Fixpoint clip_back (s : string) (n : nat) : nat :=
  match n with
  | O => O
  | S k => if rune_start (default (byte 0) (bytes s !! n)) then n else clip_back s k
  end.
Definition clipQuery (s : string) (n : Z) : string :=
  if (n <=? 0)%Z || (len s <=? n)%Z then s else str_take (clip_back s (Z.to_nat n)) s.

(** ** The server *)

Record Server (S R J : Type) := MkServer {
  sv_token : string;
  sv_ingest_token : string;
  sv_ready : option (option string);      (* no checker, or its answer *)
  sv_version : string;
  sv_spans : option S;
  sv_src : option source.Graph;
  sv_runs : option R;
  sv_jobs : option J;
}.
Arguments MkServer {S R J}.
Arguments sv_token {S R J}.
Arguments sv_ingest_token {S R J}.
Arguments sv_ready {S R J}.
Arguments sv_version {S R J}.
Arguments sv_spans {S R J}.
Arguments sv_src {S R J}.
Arguments sv_runs {S R J}.
Arguments sv_jobs {S R J}.

Section handlers.
  Context `{GoNet, GoSHA, EvidenceJSON, GoOTLP, ApiCodec}.
  Context {S R J : Type} `{SpanStore S, RunStore R, Store J}.

Definition set_spans (sv : Server S R J) (s : S) : Server S R J :=
  MkServer (sv_token sv) (sv_ingest_token sv) (sv_ready sv) (sv_version sv) (Some s) (sv_src sv) (sv_runs sv) (sv_jobs sv).
Definition set_runs (sv : Server S R J) (r : R) : Server S R J :=
  MkServer (sv_token sv) (sv_ingest_token sv) (sv_ready sv) (sv_version sv) (sv_spans sv) (sv_src sv) (Some r) (sv_jobs sv).
Definition set_jobs (sv : Server S R J) (j : J) : Server S R J :=
  MkServer (sv_token sv) (sv_ingest_token sv) (sv_ready sv) (sv_version sv) (sv_spans sv) (sv_src sv) (sv_runs sv) (Some j).

(** *** auth.go *)

Definition publicPath (path : string) : bool := bool_decide (path ∈ ["/healthz"; "/readyz"; "/version"]).

Definition bearerToken (h : string) : string :=
  if HasPrefix h "Bearer " then TrimSpace (str_drop 7 h)
  else if HasPrefix (ToLower h) "bearer " then TrimSpace (str_drop 7 h)
  else "".

Definition presented (req : Request) : string :=
  let got := Rq_Header req apiTokenHeader in
  if got == "" then bearerToken (Rq_Header req "Authorization") else got.

Definition apiAuthorized (sv : Server S R J) (req : Request) : bool :=
  let want := sv_token sv in
  (want == "") || (sha256_hex (presented req) == sha256_hex want).

Definition ingestAuthorized (sv : Server S R J) (req : Request) : bool :=
  let want := sv_ingest_token sv in
  (want == "") || (sha256_hex (Rq_Header req ingestTokenHeader) == sha256_hex want).

(** *** health.go *)

Definition handleHealthz (sv : Server S R J) : Response := RStatus 200 "ok".
Definition handleReadyz (sv : Server S R J) : Response :=
  match sv_ready sv with
  | None => RStatus 503 "readiness checker is not configured"
  | Some (Some _) => RStatus 503 "postgres unreachable"
  | Some None => RStatus 200 "ready"
  end.
Definition handleVersion (sv : Server S R J) : Response := RStatus 200 (sv_version sv).

(** *** ingest.go *)

Definition parseWindowQuery (req : Request) : option (Z * string) :=
  let service := ingest.ClipService (Rq_Query req "service") in
  let raw := Rq_Query req "traces" in
  if raw == "" then Some (0%Z, service)
  else match Atoi raw with
       | Some n => if (n <? 0)%Z then None else Some (n, service)
       | None => None
       end.

Definition readOTLPBody (req : Request) : result BodyErr string :=
  let limited := read_max otlpMaxBytes (Rq_Body req) in
  let body :=
    if EqualFold (Rq_Header req "Content-Encoding") "gzip" then
      let '(data, err) := match limited with
        | Ok data => (data, None)
        | Err e => (str_take (Z.to_nat otlpMaxBytes) (R_data (Rq_Body req)), Some e)
        end in
      match gunzip data err with
      | Err e => Err e
      | Ok (out, e) =>
          if (otlpMaxBytes + 1 <=? len out)%Z then Ok (str_take (Z.to_nat (otlpMaxBytes + 1)) out)
          else match e with Some e => Err e | None => Ok out end
      end
    else limited in
  match body with
  | Err e => Err e
  | Ok b => if (otlpMaxBytes <? len b)%Z then Err BodyTooLarge else Ok b
  end.

Definition handleOTLPTraces (sv : Server S R J) (req : Request) : Response * Server S R J :=
  if negb (ingestAuthorized sv req) then (RError 401 "unauthorized", sv)
  else
    match sv_spans sv with
    | None => (RError 503 "ingest unavailable", sv)
    | Some st =>
        match readOTLPBody req with
        | Err BodyTooLarge => (RError 413 "otlp payload too large", sv)
        | Err (BodyFailed _) => (RError 400 "invalid otlp payload", sv)
        | Ok body =>
            match DecodeOTLP (Rq_Header req "Content-Type") body with
            | Err (ErrUnsupportedType _) => (RError 415 "invalid otlp payload", sv)
            | Err _ => (RError 400 "invalid otlp payload", sv)
            | Ok exported =>
                let rep := NormalizeReport (Some exported) in
                match SpanStore_UpsertSpans (Rq_Ctx req) (Rp_Spans rep) st with
                | (Err _, st) => (RError 500 "ingest failed", set_spans sv st)
                | (Ok _, st) => (RAccepted (Rejected rep), set_spans sv st)
                end
            end
        end
    end.

Definition handleListSpans (sv : Server S R J) (req : Request) : Response :=
  match sv_spans sv with
  | None => RError 503 "ingest unavailable"
  | Some st =>
      if Rq_Query req "traces" != "" then
        match parseWindowQuery req with
        | None => RError 400 "invalid traces"
        | Some (n, service) =>
            match SpanStore_ListTraceWindow (Rq_Ctx req) n service st with
            | Err _ => RError 500 "list failed"
            | Ok l => RSpans l
            end
        end
      else
        let raw := Rq_Query req "limit" in
        match (if raw == "" then Some 0%Z else
                 match Atoi raw with Some n => if (n <? 0)%Z then None else Some n | None => None end) with
        | None => RError 400 "invalid limit"
        | Some limit =>
            let q := ingest.MkListQuery (clipQuery (Rq_Query req "trace_id") maxQueryTraceID)
                       (clipQuery (Rq_Query req "service") maxQueryService) limit in
            match SpanStore_ListSpans (Rq_Ctx req) q st with
            | Err _ => RError 500 "list failed"
            | Ok l => RSpans l
            end
        end
  end.

Definition handleListAttaches (sv : Server S R J) (req : Request) : Response :=
  match sv_spans sv with
  | None => RError 503 "ingest unavailable"
  | Some st =>
      let raw := Rq_Query req "limit" in
      match (if raw == "" then Some 0%Z else
               match Atoi raw with Some n => if (n <? 0)%Z then None else Some n | None => None end) with
      | None => RError 400 "invalid limit"
      | Some limit =>
          match SpanStore_ListAttaches (Rq_Ctx req) limit st with
          | Err _ => RError 500 "list failed"
          | Ok l => RAttaches l
          end
      end
  end.

(** *** graph.go, locate.go, source.go, impact.go *)

Definition handleGraph (sv : Server S R J) (req : Request) : Response :=
  match sv_spans sv with
  | None => RError 503 "ingest unavailable"
  | Some st =>
      match parseWindowQuery req with
      | None => RError 400 "invalid traces"
      | Some (n, service) =>
          match SpanStore_ListTraceWindow (Rq_Ctx req) n service st with
          | Err _ => RError 500 "graph failed"
          | Ok l => RGraph (graph.Build l)
          end
      end
  end.

Definition handleLocate (sv : Server S R J) (req : Request) : Response :=
  match sv_spans sv with
  | None => RError 503 "ingest unavailable"
  | Some st =>
      match sv_src sv with
      | None => RError 503 "source unavailable"
      | Some g =>
          match parseWindowQuery req with
          | None => RError 400 "invalid traces"
          | Some (n, service) =>
              match SpanStore_ListTraceWindow (Rq_Ctx req) n service st with
              | Err _ => RError 500 "locate failed"
              | Ok l => RLocate (locate.Bind (Some g) l)
              end
          end
      end
  end.

Definition handleSource (sv : Server S R J) : Response :=
  match sv_src sv with
  | None => RError 503 "source unavailable"
  | Some g => RSource (source.Snapshot_ (Some g))
  end.

Definition handleSourceNeighbors (sv : Server S R J) (req : Request) : Response :=
  match sv_src sv with
  | None => RError 503 "source unavailable"
  | Some g =>
      let id := Rq_Query req "id" in
      if id == "" then RError 400 "missing id"
      else if (maxSourceNodeID <? len id)%Z || negb (utf8_Valid id) then RError 400 "invalid id"
      else match source.Neighbors g id with
           | None => RError 404 "not found"
           | Some l => RNeighbors id l
           end
  end.

(** The snapshots without a span store. *)
Definition no_locate : locate.Snapshot := locate.MkSnapshot [] [] 0 0 0.
Definition no_graph : graph.Snapshot := graph.MkSnapshot ∅ [] [] [] [] 0 0.

Definition handleImpact (sv : Server S R J) (req : Request) : Response :=
  match sv_src sv with
  | None => RError 503 "source unavailable"
  | Some g =>
      match read_max (diff.MaxBytes + 1) (Rq_Body req) with
      | Err _ => RError 400 "invalid diff"
      | Ok raw =>
          if (diff.MaxBytes <? len raw)%Z then RError 400 "diff too large"
          else if (raw != "") && negb (utf8_Valid raw) then RError 400 "invalid diff"
          else
            match diff.Parse raw with
            | Err _ => RError 400 "invalid diff"
            | Ok parsed =>
                if (TrimSpace raw != "") && bool_decide (diff.D_Files parsed = [])
                then RError 400 "no file headers in diff"
                else
                  match parseWindowQuery req with
                  | None => RError 400 "invalid traces"
                  | Some (n, service) =>
                      match sv_spans sv with
                      | None => RImpact (analyze.Analyze (Some g) parsed no_locate no_graph)
                      | Some st =>
                          match SpanStore_ListTraceWindow (Rq_Ctx req) n service st with
                          | Err _ => RError 500 "impact failed"
                          | Ok l =>
                              RImpact (analyze.Analyze (Some g) parsed (locate.Bind (Some g) l) (graph.Build l))
                          end
                      end
                  end
            end
      end
  end.

(** *** runs.go *)

Definition summaryFrom (rec : RunRecord) : runCreated :=
  MkRunCreated "client" (Rec_ID rec) (Rec_Overall rec) (Rec_Blockers rec) (Rec_Validated rec)
    (Rec_ArtifactDigest rec) (Rec_BaselineSHA rec) (Rec_Dirty rec) (Rec_Service rec).

(** Whether the text of an error of the store mentions a collision. The text of an
    evidence error quotes a schema or a verdict, which keeps plain letters. *)
Definition mentions_collision (e : RunErr) : bool :=
  match e with
  | ErrCollision => true
  | ErrEvidence (ErrSchema s) | ErrEvidence (ErrIllegalOverall s) | ErrEvidence (ErrUnknownOverall s)
  | ErrEvidence (ErrText s) | ErrCtx s | ErrDB s => Contains s "id collision"
  | _ => false
  end.

(** A record that contradicts itself is not shown. *)
Definition contradictory (rec : RunRecord) : bool := Rec_Validated rec && (Rec_Overall rec != "match").

Definition handleCreateRun (sv : Server S R J) (req : Request) : Response * Server S R J :=
  match sv_runs sv with
  | None => (RError 503 "runs unavailable", sv)
  | Some st =>
      match read_max (MaxBytes + 1) (Rq_Body req) with
      | Err _ => (RError 400 "invalid artifact", sv)
      | Ok raw =>
          if (MaxBytes <? len raw)%Z then (RError 400 "artifact too large", sv)
          else
            match Decode (MkReader raw None) with
            | Err e => (RInvalidArtifact e, sv)
            | Ok a =>
                if A_Schema a != SchemaV3 then (RError 400 "legacy schema", sv)
                else
                  let rec := MkRecord "" 0 "" "" false "" "" "" [] false (Some a) in
                  match RunStore_Insert (Rq_Ctx req) rec st with
                  | (Err e, st) =>
                      (if mentions_collision e then RError 409 "id collision" else RError 500 "store failed",
                       set_runs sv st)
                  | (Ok rec, st) =>
                      (if contradictory rec then RError 500 "store failed" else RRun (summaryFrom rec),
                       set_runs sv st)
                  end
            end
      end
  end.

Definition handleListRuns (sv : Server S R J) (req : Request) : Response :=
  match sv_runs sv with
  | None => RError 503 "runs unavailable"
  | Some st =>
      let raw := Rq_Query req "limit" in
      match (if raw == "" then Some runs.DefaultList else
               match Atoi raw with Some n => if (n <? 0)%Z then None else Some n | None => None end) with
      | None => RError 400 "invalid limit"
      | Some limit =>
          match RunStore_List (Rq_Ctx req) limit (ingest.ClipService (Rq_Query req "service")) st with
          | Err _ => RError 500 "store failed"
          | Ok l => if existsb contradictory l then RError 500 "store failed" else RRuns (summaryFrom <$> l)
          end
      end
  end.

(** The answer of [handleGetRun] has no service. *)
Definition run_shown (rec : RunRecord) : runCreated :=
  MkRunCreated "client" (Rec_ID rec) (Rec_Overall rec) (Rec_Blockers rec) (Rec_Validated rec)
    (Rec_ArtifactDigest rec) (Rec_BaselineSHA rec) (Rec_Dirty rec) "".

Definition handleGetRun (sv : Server S R J) (req : Request) (id : string) : Response :=
  match sv_runs sv with
  | None => RError 503 "runs unavailable"
  | Some st =>
      match NormalizeID id with
      | None => RError 400 "invalid id"
      | Some id =>
          match RunStore_Get (Rq_Ctx req) id st with
          | Err runs.ErrNotFound => RError 404 "not found"
          | Err _ => RError 500 "store failed"
          | Ok rec =>
              if contradictory rec then RError 500 "store failed"
              else RRunGet (run_shown rec) (Rec_Artifact rec)
          end
      end
  end.

(** *** jobs.go *)

(** The clock and the random identifier of a creation. *)
Record JobEnv := MkJobEnv { Je_rand : N; Je_validate : Z; Je_build : Z; Je_expire : Z }.

Definition handleCreateJob (env : JobEnv) (sv : Server S R J) (req : Request) : Response * Server S R J :=
  match sv_jobs sv with
  | None => (RError 503 "jobs unavailable", sv)
  | Some st =>
      match read_max (maxJobBytes + 1) (Rq_Body req) with
      | Err _ => (RError 400 "invalid job", sv)
      | Ok raw =>
          if (maxJobBytes <? len raw)%Z then (RError 400 "job too large", sv)
          else
            match opts_of_json raw with
            | Err _ => (RError 400 "invalid job", sv)
            | Ok opts =>
                let e := MkCreateEnv (Rq_Ctx req) (Je_rand env) (Je_validate env) (Je_build env) (Je_expire env) in
                match Store_Create e opts st with
                | (Err jobs.ErrBusy, st) => (RError 409 "gateway occupied", set_jobs sv st)
                | (Err jobs.ErrQuota, st) => (RError 429 "service quota exceeded", set_jobs sv st)
                | (Err _, st) => (RError 400 "invalid job", set_jobs sv st)
                | (Ok job, st) =>
                    (if jobs.J_Validated job then RError 500 "store failed" else RJob job, set_jobs sv st)
                end
            end
      end
  end.

(** The digits of a limit, as an [int] of 64 bits that wraps around; 0 when another
    byte occurs. *)
Definition wrap64 (n : Z) : Z := ((n + 2 ^ 63) mod 2 ^ 64 - 2 ^ 63)%Z.
Fixpoint limit_digits (l : list ascii) (n : Z) : Z :=
  match l with
  | [] => n
  | c :: l' =>
      if is_digit c then limit_digits l' (wrap64 (n * 10 + (Z.of_N (byte_val c) - 48))) else 0%Z
  end.

Definition handleListJobs (sv : Server S R J) (req : Request) : Response :=
  match sv_jobs sv with
  | None => RError 503 "jobs unavailable"
  | Some st =>
      let n := limit_digits (bytes (Rq_Query req "limit")) 0 in
      let limit := if (0 <? n)%Z then n else jobs.DefaultList in
      match Store_List (Rq_Ctx req) limit (ingest.ClipService (Rq_Query req "service")) st with
      | Err _ => RError 500 "store failed"
      | Ok l => RJobs l
      end
  end.

Definition job_answer (r : result jobs.JobErr jobs.Job) : Response :=
  match r with
  | Err jobs.ErrNotFound => RError 404 "not found"
  | Err _ => RError 400 "invalid id"
  | Ok job => RJob job
  end.

Definition handleGetJob (sv : Server S R J) (req : Request) (id : string) : Response :=
  match sv_jobs sv with
  | None => RError 503 "jobs unavailable"
  | Some st => job_answer (Store_Get (Rq_Ctx req) id st)
  end.

Definition handleCancelJob (sv : Server S R J) (req : Request) (id : string) : Response * Server S R J :=
  match sv_jobs sv with
  | None => (RError 503 "jobs unavailable", sv)
  | Some st => let '(r, st) := Store_Cancel (Rq_Ctx req) id st in (job_answer r, set_jobs sv st)
  end.

(** ** Routes *)

Inductive Route :=
| RtHealthz | RtReadyz | RtVersion | RtMetrics | RtTraces | RtSpans | RtAttaches | RtGraph | RtSource
| RtNeighbors | RtLocate | RtImpact | RtCreateRun | RtListRuns | RtGetRun (id : string)
| RtCreateJob | RtListJobs | RtGetJob (id : string) | RtCancelJob (id : string).

(** The patterns registered for the unescaped segments of a path, with their methods. A wildcard
    does not match an empty segment. *)
Definition patterns (segs : list string) : list (string * Route) :=
  match segs with
  | [a] =>
      if a == "healthz" then [("GET", RtHealthz)]
      else if a == "readyz" then [("GET", RtReadyz)]
      else if a == "version" then [("GET", RtVersion)]
      else if a == "metrics" then [("GET", RtMetrics)]
      else []
  | [v; a] =>
      if v != "v1" then []
      else if a == "traces" then [("POST", RtTraces)]
      else if a == "spans" then [("GET", RtSpans)]
      else if a == "attaches" then [("GET", RtAttaches)]
      else if a == "graph" then [("GET", RtGraph)]
      else if a == "source" then [("GET", RtSource)]
      else if a == "locate" then [("GET", RtLocate)]
      else if a == "impact" then [("POST", RtImpact)]
      else if a == "runs" then [("POST", RtCreateRun); ("GET", RtListRuns)]
      else if a == "jobs" then [("POST", RtCreateJob); ("GET", RtListJobs)]
      else []
  | [v; a; id] =>
      if (v != "v1") || (id == "") then []
      else if (a == "source") && (id == "neighbors") then [("GET", RtNeighbors)]
      else if a == "runs" then [("GET", RtGetRun id)]
      else if a == "jobs" then [("GET", RtGetJob id)]
      else []
  | [v; a; id; c] =>
      if (v == "v1") && (a == "jobs") && (id != "") && (c == "cancel")
      then [("POST", RtCancelJob id)] else []
  | _ => []
  end.

(** [cleanPath] of net/http: like [path.Clean], with a trailing slash kept. *)
Definition cleanPath (p : string) : string :=
  if p == "" then "/"
  else
    let p := if HasPrefix p "/" then p else "/" +:+ p in
    let np := Clean p in
    if HasSuffix p "/" && (np != "/") then np +:+ "/" else np.

(** A pattern for GET also serves HEAD. *)
Definition serves (method : string) (pat : string * Route) : bool :=
  (pat.1 == method) || ((method == "HEAD") && (pat.1 == "GET")).

(** The segments of an escaped path, each without its escapes. *)
Definition path_segments (escaped : string) : list string :=
  url_PathUnescape <$> Split (TrimPrefix escaped "/") (byte 47).

(** [ServeMux.findHandler]: the path of a CONNECT request is not cleaned. *)
Definition find_route (req : Request) : result Response Route :=
  let path := if Rq_Method req == "CONNECT" then Rq_EscapedPath req else cleanPath (Rq_EscapedPath req) in
  if path != Rq_EscapedPath req then Err (RRedirect path)
  else
    let pats := patterns (path_segments path) in
    match list_find (λ pat, serves (Rq_Method req) pat = true) pats with
    | Some (_, pat) => Ok pat.2
    | None => Err (if bool_decide (pats = []) then RStatus 404 "404 page not found"
                   else RStatus 405 "Method Not Allowed")
    end.

Definition dispatch (env : JobEnv) (rt : Route) (sv : Server S R J) (req : Request) : Response * Server S R J :=
  match rt with
  | RtHealthz => (handleHealthz sv, sv)
  | RtReadyz => (handleReadyz sv, sv)
  | RtVersion => (handleVersion sv, sv)
  | RtMetrics => (RMetrics, sv)
  | RtTraces => handleOTLPTraces sv req
  | RtSpans => (handleListSpans sv req, sv)
  | RtAttaches => (handleListAttaches sv req, sv)
  | RtGraph => (handleGraph sv req, sv)
  | RtSource => (handleSource sv, sv)
  | RtNeighbors => (handleSourceNeighbors sv req, sv)
  | RtLocate => (handleLocate sv req, sv)
  | RtImpact => (handleImpact sv req, sv)
  | RtCreateRun => handleCreateRun sv req
  | RtListRuns => (handleListRuns sv req, sv)
  | RtGetRun id => (handleGetRun sv req id, sv)
  | RtCreateJob => handleCreateJob env sv req
  | RtListJobs => (handleListJobs sv req, sv)
  | RtGetJob id => (handleGetJob sv req id, sv)
  | RtCancelJob id => handleCancelJob sv req id
  end.

Definition serve_mux (env : JobEnv) (sv : Server S R J) (req : Request) : Response * Server S R J :=
  match find_route req with
  | Err r => (r, sv)
  | Ok rt => dispatch env rt sv req
  end.

(** [withAuth] around the routes. *)
Definition ServeHTTP (env : JobEnv) (sv : Server S R J) (req : Request) : Response * Server S R J :=
  if publicPath (Rq_Path req) then serve_mux env sv req
  else if Rq_Path req == "/v1/traces" then serve_mux env sv req
  else if negb (apiAuthorized sv req) then (RError 401 "unauthorized", sv)
  else serve_mux env sv req.

(** ** Requests without a token *)

(** [URL.Path] is the path without its escapes. *)
Definition wf_request (req : Request) : Prop :=
  Rq_Path req = "/" +:+ Join (path_segments (Rq_EscapedPath req)) "/".

Definition lacks_token (sv : Server S R J) (req : Request) : Prop :=
  sv_token sv ≠ "" ∧ sha256_hex (presented req) ≠ sha256_hex (sv_token sv).
Definition lacks_ingest_token (sv : Server S R J) (req : Request) : Prop :=
  sv_ingest_token sv ≠ "" ∧ sha256_hex (Rq_Header req ingestTokenHeader) ≠ sha256_hex (sv_ingest_token sv).

(** Answers that show nothing of what the server holds. *)
Definition blank (r : Response) : bool :=
  match r with
  | RError 401 _ | RStatus _ _ | RRedirect _ => true
  | _ => false
  end.

Lemma lacks_token_false sv req : lacks_token sv req → apiAuthorized sv req = false.
Proof. intros [Ht Hs]. unfold apiAuthorized. by rewrite !bool_decide_eq_false_2. Qed.
Lemma lacks_ingest_false sv req : lacks_ingest_token sv req → ingestAuthorized sv req = false.
Proof. intros [Ht Hs]. unfold ingestAuthorized. by rewrite !bool_decide_eq_false_2. Qed.

Lemma patterns_v1 a b rest pat : pat ∈ patterns (a :: b :: rest) → a = "v1".
Proof.
  destruct rest as [|c [|d [|e rest]]]; cbn [patterns]; intros Hp; try by apply not_elem_of_nil in Hp.
  - case_bool_decide; [done|]. by apply not_elem_of_nil in Hp.
  - case_bool_decide; [done|]. by apply not_elem_of_nil in Hp.
  - case_bool_decide; [done|]. by apply not_elem_of_nil in Hp.
Qed.

(** The paths that need no token lead to their own handlers only. *)
Lemma patterns_public segs pat :
  publicPath ("/" +:+ Join segs "/") = true → pat ∈ patterns segs →
  pat.2 = RtHealthz ∨ pat.2 = RtReadyz ∨ pat.2 = RtVersion.
Proof.
  unfold publicPath. rewrite bool_decide_eq_true. intros Hp Hpat.
  destruct segs as [|a [|b segs]]; [by apply not_elem_of_nil in Hpat| |].
  - change ("/" +:+ Join [a] "/") with (String (byte 47) a) in Hp.
    do 3 (apply elem_of_cons in Hp as [Hp|Hp];
      [injection Hp as ->; cbn in Hpat; apply list_elem_of_singleton in Hpat as ->; cbn; tauto|]).
    by apply not_elem_of_nil in Hp.
  - apply patterns_v1 in Hpat as ->.
    assert (∃ t, Join ("v1" :: b :: segs) "/" = "v1/" +:+ t) as [t Ht] by (by eexists). rewrite Ht in Hp.
    repeat (apply elem_of_cons in Hp as [Hp|Hp]; [discriminate Hp|]). by apply not_elem_of_nil in Hp.
Qed.

Lemma patterns_traces segs pat :
  "/" +:+ Join segs "/" = "/v1/traces" → pat ∈ patterns segs → pat.2 = RtTraces.
Proof.
  intros Hp Hpat. destruct segs as [|a [|b rest]]; [by apply not_elem_of_nil in Hpat| |].
  - change ("/" +:+ Join [a] "/") with (String (byte 47) a) in Hp. injection Hp as ->.
    by apply not_elem_of_nil in Hpat.
  - pose proof (patterns_v1 _ _ _ _ Hpat) as ->.
    change ("/" +:+ Join ("v1" :: b :: rest) "/") with ("/v1/" +:+ Join (b :: rest) "/") in Hp.
    apply (str_app_inj_len "/v1/" "/v1/" _ "traces") in Hp as [_ Hb]; [|done].
    destruct rest as [|c rest].
    + cbn in Hb. subst b. cbn in Hpat. by apply list_elem_of_singleton in Hpat as ->.
    + assert (∃ t, Join (b :: c :: rest) "/" = b +:+ "/" +:+ t) as [t Ht] by (by eexists). rewrite Ht in Hb.
      destruct rest as [|d [|e rest]]; cbn [patterns] in Hpat; [..|by apply not_elem_of_nil in Hpat].
      * destruct (_ || _); [by apply not_elem_of_nil in Hpat|].
        rewrite (bool_decide_eq_false_2 (b = "source")), (bool_decide_eq_false_2 (b = "runs")),
          (bool_decide_eq_false_2 (b = "jobs")) in Hpat by (intros ->; discriminate Hb).
        by apply not_elem_of_nil in Hpat.
      * rewrite (bool_decide_eq_false_2 (b = "jobs")) in Hpat by (intros ->; discriminate Hb).
        rewrite andb_false_r in Hpat. by apply not_elem_of_nil in Hpat.
Qed.

Lemma find_route_pattern req rt :
  find_route req = Ok rt → ∃ pat, pat ∈ patterns (path_segments (Rq_EscapedPath req)) ∧ pat.2 = rt.
Proof.
  unfold find_route. generalize (if Rq_Method req == "CONNECT" then Rq_EscapedPath req else cleanPath (Rq_EscapedPath req)).
  intros path. cbv zeta. case_bool_decide as E; cbn [negb]; [|done]. rewrite E.
  destruct (list_find _ _) as [[i pat]|] eqn:Hf; [|done]. intros [= <-]. exists pat. split; [|done].
  apply list_find_Some in Hf as (Hi & _). by eapply list_elem_of_lookup_2.
Qed.

Lemma find_route_blank req r : find_route req = Err r → blank r = true.
Proof.
  unfold find_route. generalize (if Rq_Method req == "CONNECT" then Rq_EscapedPath req else cleanPath (Rq_EscapedPath req)).
  intros path. cbv zeta. destruct (path != _); [by intros [= <-]|]. destruct (list_find _ _) as [[]|]; [done|].
  intros [= <-]. by case_bool_decide.
Qed.

(** C18: with a token configured, a request that does not present it is answered without
    showing or changing anything, and so is an export without the ingest token: the
    handlers of runs, jobs, spans and sources are not reached, whatever way the path
    is written. *)
Theorem no_token_no_effect env sv req r sv' :
  wf_request req → lacks_token sv req → ServeHTTP env sv req = (r, sv') →
  (sv' = sv ∧ blank r = true) ∨
  (find_route req = Ok RtTraces ∧ (r, sv') = handleOTLPTraces sv req ∧
   (lacks_ingest_token sv req → sv' = sv ∧ r = RError 401 "unauthorized")).
Proof.
  intros Hwf Hno. unfold ServeHTTP. rewrite (lacks_token_false sv req Hno). cbn [negb].
  destruct (publicPath (Rq_Path req)) eqn:Hpub.
  - unfold serve_mux. destruct (find_route req) as [rt|e] eqn:Hrt.
    + destruct (find_route_pattern _ _ Hrt) as (pat & Hpat & <-). rewrite Hwf in Hpub.
      destruct (patterns_public _ _ Hpub Hpat) as [->|[->| ->]]; intros [= <- <-]; left; split; try done.
      unfold handleReadyz. by destruct (sv_ready sv) as [[]|].
    + intros [= <- <-]. left. split; [done|]. by eapply find_route_blank.
  - case_bool_decide as Htr; [|intros [= <- <-]; by left].
    unfold serve_mux. destruct (find_route req) as [rt|e] eqn:Hrt.
    + destruct (find_route_pattern _ _ Hrt) as (pat & Hpat & <-). rewrite Hwf in Htr.
      rewrite (patterns_traces _ _ Htr Hpat). cbn [dispatch]. intros Hh. right. split_and!; [done|done|].
      intros Hni. unfold handleOTLPTraces in Hh. rewrite (lacks_ingest_false _ _ Hni) in Hh. by injection Hh as <- <-.
    + intros [= <- <-]. left. split; [done|]. by eapply find_route_blank.
Qed.

(** ** Runs that are shown *)

(** The runs in an answer. *)
Definition shown_runs (r : Response) : list runCreated :=
  match r with
  | RRun x => [x]
  | RRuns l => l
  | RRunGet x _ => [x]
  | _ => []
  end.

(** What a run says when it is shown as validated. *)
Definition earned (x : runCreated) : Prop :=
  ∃ a, Check a = Ok tt ∧ policy_ok (decision_input a) ∧ A_ArtifactDigest a = Rc_ArtifactDigest x ∧
    Rc_Overall x = "match" ∧ Rc_Blockers x = [].

Lemma Decision_validated_inv a :
  recordable a → D_Validated (Decision_of a) = true →
  Check a = Ok tt ∧ policy_ok (decision_input a) ∧ D_Blockers (Decision_of a) = [].
Proof.
  intros (Hv & H3' & _)%recordable_iff Hd.
  assert (A_Schema a = SchemaV3) as Hs.
  { apply Verify_iff in Hv as (Hs & _). unfold Decision_of in Hd.
    do 2 (case_bool_decide; [discriminate Hd|]). set_solver. }
  rewrite Decision_of_v3 in * by done. split; [by apply H3'|]. split.
  - rewrite Decide_validated_blockers in Hd. by apply no_blocker_policy.
  - unfold Decide in Hd |- *. cbn [D_Validated D_Blockers] in Hd |- *. by apply bool_decide_eq_true in Hd.
Qed.

Lemma tells_earned rec a x :
  tells rec a → contradictory rec = false →
  Rc_Validated x = Rec_Validated rec → Rc_ArtifactDigest x = Rec_ArtifactDigest rec →
  Rc_Overall x = Rec_Overall rec → Rc_Blockers x = Rec_Blockers rec →
  Rc_Validated x = true → earned x.
Proof.
  intros (Ha & _ & Hd & _ & _ & _ & _ & Hv & Hb) Hc E1 E2 E3 E4 Hx. rewrite E1 in Hx.
  unfold contradictory in Hc. rewrite Hx in Hc. cbn [andb] in Hc. apply negb_false_iff, bool_decide_eq_true in Hc.
  rewrite Hv in Hx. destruct (Decision_validated_inv a Ha Hx) as (Hck & Hp & Hnil).
  exists a. split_and!; [done|done|congruence|congruence|congruence].
Qed.

Definition runs_good `{!RunLaws R} (sv : Server S R J) : Prop :=
  match sv_runs sv with Some st => run_inv st | None => True end.

Lemma handleCreateRun_earned `{!RunLaws R} sv req x :
  runs_good sv → x ∈ shown_runs (handleCreateRun sv req).1 → Rc_Validated x = true → earned x.
Proof.
  unfold runs_good, handleCreateRun. intros Hg Hx Hv. destruct (sv_runs sv) as [st|]; [|by apply not_elem_of_nil in Hx].
  destruct (read_max _ _) as [raw|]; [|by apply not_elem_of_nil in Hx].
  destruct (_ <? _)%Z; [by apply not_elem_of_nil in Hx|]. destruct (Decode _) as [a|]; [|by apply not_elem_of_nil in Hx].
  destruct (_ != _); [by apply not_elem_of_nil in Hx|].
  destruct (RunStore_Insert _ _ st) as [[rec|e] st'] eqn:Hi; cbn [fst] in Hx.
  - destruct (contradictory rec) eqn:Hc; [by apply not_elem_of_nil in Hx|]. apply list_elem_of_singleton in Hx as ->.
    destruct (run_insert _ _ _ _ _ Hg Hi) as (b & _ & Hb & _). by eapply (tells_earned rec b).
  - destruct (mentions_collision e); by apply not_elem_of_nil in Hx.
Qed.

Lemma handleListRuns_earned `{!RunLaws R} sv req x :
  runs_good sv → x ∈ shown_runs (handleListRuns sv req) → Rc_Validated x = true → earned x.
Proof.
  unfold runs_good, handleListRuns. intros Hg Hx Hv. destruct (sv_runs sv) as [st|]; [|by apply not_elem_of_nil in Hx].
  cbv zeta in Hx. destruct (if _ == _ then _ else _) as [limit|]; [|by apply not_elem_of_nil in Hx].
  destruct (RunStore_List _ _ _ st) as [l|] eqn:Hl; [|by apply not_elem_of_nil in Hx].
  destruct (existsb contradictory l) eqn:Hc; [by apply not_elem_of_nil in Hx|]. cbn [shown_runs] in Hx.
  apply list_elem_of_fmap in Hx as (rec & -> & Hrec). destruct (run_list _ _ _ _ _ Hg Hl) as [Hall _].
  rewrite Forall_forall in Hall. destruct (Hall rec Hrec) as [b Hb]. eapply (tells_earned rec b); try done.
  rewrite existsb_False in Hc. by apply Hc.
Qed.

Lemma handleGetRun_earned `{!RunLaws R} sv req id x :
  runs_good sv → x ∈ shown_runs (handleGetRun sv req id) → Rc_Validated x = true → earned x.
Proof.
  unfold runs_good, handleGetRun. intros Hg Hx Hv. destruct (sv_runs sv) as [st|]; [|by apply not_elem_of_nil in Hx].
  destruct (NormalizeID id) as [i|]; [|by apply not_elem_of_nil in Hx].
  destruct (RunStore_Get _ _ st) as [rec|e] eqn:Hget; [|by destruct e; apply not_elem_of_nil in Hx].
  destruct (contradictory rec) eqn:Hc; [by apply not_elem_of_nil in Hx|]. apply list_elem_of_singleton in Hx as ->.
  destruct (run_get _ _ _ _ Hg Hget) as (b & _ & Hb & _). by eapply (tells_earned rec b).
Qed.

(** Other handlers answer without runs. *)
Lemma dispatch_runs env rt sv req :
  (∃ id, rt = RtGetRun id) ∨ rt = RtListRuns ∨ rt = RtCreateRun ∨ shown_runs (dispatch env rt sv req).1 = [].
Proof.
  destruct rt; eauto; right; right; right; cbn [dispatch fst]; try done.
  - unfold handleReadyz. by destruct (sv_ready sv) as [[]|].
  - unfold handleOTLPTraces. repeat case_match; done.
  - unfold handleListSpans. repeat case_match; done.
  - unfold handleListAttaches. repeat case_match; done.
  - unfold handleGraph. repeat case_match; done.
  - unfold handleSource. repeat case_match; done.
  - unfold handleSourceNeighbors. repeat case_match; done.
  - unfold handleLocate. repeat case_match; done.
  - unfold handleImpact. repeat case_match; done.
  - unfold handleCreateJob. repeat case_match; done.
  - unfold handleListJobs. repeat case_match; done.
  - unfold handleGetJob, job_answer. repeat case_match; done.
  - unfold handleCancelJob, job_answer. repeat case_match; done.
Qed.

(** Only the creation of a run changes the runs. *)
Lemma dispatch_sv_runs env rt sv req :
  rt = RtCreateRun ∨ sv_runs (dispatch env rt sv req).2 = sv_runs sv.
Proof.
  destruct rt; eauto; right; cbn [dispatch snd]; try done.
  - unfold handleOTLPTraces. repeat case_match; done.
  - unfold handleCreateJob. repeat case_match; done.
  - unfold handleCancelJob. repeat case_match; done.
Qed.

Lemma handleCreateRun_good `{!RunLaws R} sv req : runs_good sv → runs_good (handleCreateRun sv req).2.
Proof.
  unfold runs_good at 1, handleCreateRun. intros Hg. destruct (sv_runs sv) as [st|] eqn:Hst; [|by unfold runs_good; cbn; rewrite Hst].
  assert (runs_good sv) as Hsame by (by unfold runs_good; rewrite Hst).
  destruct (read_max _ _) as [raw|]; [|done]. destruct (_ <? _)%Z; [done|]. destruct (Decode _) as [a|]; [|done].
  destruct (_ != _); [done|].
  pose proof (run_insert_inv (Rq_Ctx req) (MkRecord "" 0 "" "" false "" "" "" [] false (Some a)) st Hg) as Hinv.
  destruct (RunStore_Insert _ _ st) as [[rec|e] st']; exact Hinv.
Qed.

(** C16: whatever requests a server gets, over any store of runs that keeps its promises, a
    run that an answer shows as validated stands for an artifact that passed the
    check and satisfies the policy, with the verdict match and no blocker; and the
    store keeps its invariant. *)
Theorem shown_validated_is_earned `{!RunLaws R} env sv req r sv' :
  runs_good sv → ServeHTTP env sv req = (r, sv') →
  runs_good sv' ∧ (∀ x, x ∈ shown_runs r → Rc_Validated x = true → earned x).
Proof.
  intros Hg Hs.
  assert (∀ rt, runs_good (dispatch env rt sv req).2 ∧
    ∀ x, x ∈ shown_runs (dispatch env rt sv req).1 → Rc_Validated x = true → earned x) as Hd.
  { intros rt. split.
    - destruct (dispatch_sv_runs env rt sv req) as [->|E]; [by apply handleCreateRun_good|].
      unfold runs_good. by rewrite E.
    - intros x Hx Hv. destruct (dispatch_runs env rt sv req) as [[id ->]|[->|[->|E]]].
      + exact (handleGetRun_earned sv req id x Hg Hx Hv).
      + exact (handleListRuns_earned sv req x Hg Hx Hv).
      + exact (handleCreateRun_earned sv req x Hg Hx Hv).
      + rewrite E in Hx. by apply not_elem_of_nil in Hx. }
  assert (runs_good (serve_mux env sv req).2 ∧
    ∀ x, x ∈ shown_runs (serve_mux env sv req).1 → Rc_Validated x = true → earned x) as Hm.
  { unfold serve_mux. destruct (find_route req) as [rt|e] eqn:Hrt; [apply Hd|]. split; [done|].
    apply find_route_blank in Hrt. intros x Hx. by destruct e; try discriminate Hrt; apply not_elem_of_nil in Hx. }
  unfold ServeHTTP in Hs. destruct (publicPath _); [by rewrite Hs in Hm|].
  destruct (Rq_Path req == "/v1/traces"); [by rewrite Hs in Hm|].
  destruct (negb _); [|by rewrite Hs in Hm]. injection Hs as <- <-. split; [done|]. intros x []%not_elem_of_nil.
Qed.

End handlers.
End api.
