(* ===== verification/Worker.v ===== *)
(** * Workers: [internal/worker], [internal/action], [internal/cas]

    [Module cas] is the content-addressed object store, [Module action] the cache
    of step results built on it, and [Module worker] runs one leased task and
    commits it. Workers see a job store only through its interface: what they
    rely on is the class [LeaseStore], and [Memory_LeaseStore] shows that the
    in-memory store provides it. SHA-256 is an operation of the class [GoSHA],
    the JSON texts are those of [ActionJSON]. *)

From S2P Require Import Prelude GoStrings Net Ingest Replay Impact Plan Validate Jobs JobStore.

Module cas.

Inductive CasErr :=
| ErrNotFound
| ErrCorrupt
| ErrInvalidDigest
| CasCtx (msg : string).

(** The object files by digest. A file appears under its name complete, by a
    rename, so there are no partial objects; their content may have been changed
    by something else. *)
Record Dir := MkDir { objects : gmap string string }.

Section cas.
  Context `{GoSHA}.

Definition Sum (data : string) : string := sha256_hex data.

Definition valid (d : string) : bool := (len d =? 64)%Z && all_hex d.

Definition Put (ctx : option string) (data : string) (d : Dir) : result CasErr string * Dir :=
  match ctx with
  | Some err => (Err (CasCtx err), d)
  | None =>
      let id := Sum data in
      match objects d !! id with
      | Some got => if Sum got != id then (Err ErrCorrupt, d) else (Ok id, d)
      | None => (Ok id, MkDir (<[id := data]> (objects d)))
      end
  end.

Definition Get (ctx : option string) (id : string) (d : Dir) : result CasErr string :=
  match ctx with
  | Some err => Err (CasCtx err)
  | None =>
      if negb (valid id) then Err ErrInvalidDigest
      else match objects d !! id with
           | None => Err ErrNotFound
           | Some raw => if Sum raw != id then Err ErrCorrupt else Ok raw
           end
  end.

Lemma Sum_valid data : valid (Sum data) = true.
Proof.
  unfold valid, Sum, len. destruct (sha256_hex_ok data) as [-> ->]. done.
Qed.

(** What is read back has the digest asked for, whatever is on disk. *)
Lemma Get_digest ctx id d raw : Get ctx id d = Ok raw → Sum raw = id.
Proof.
  unfold Get. destruct ctx; [done|]. destruct (negb _); [done|].
  destruct (objects d !! id); [|done]. case_bool_decide; naive_solver.
Qed.

(** After a successful put the object can be read; it is the data put unless two
    texts share a digest. *)
Lemma Put_object_Get ctx data d id d' :
  Put ctx data d = (Ok id, d') → ∃ raw, Get None id d' = Ok raw ∧ Sum raw = Sum data ∧
    (raw = data ∨ objects d !! Sum data = Some raw).
Proof.
  unfold Put. destruct ctx; [done|]. destruct (objects d !! Sum data) as [got|] eqn:E.
  - case_bool_decide as Hs; [|done]. intros [= <- <-]. exists got. unfold Get.
    rewrite Sum_valid, E, Hs. cbn [negb]. rewrite bool_decide_eq_true_2; naive_solver.
  - intros [= <- <-]. exists data. unfold Get. rewrite Sum_valid. cbn [negb objects].
    rewrite lookup_insert_eq, bool_decide_eq_true_2 by done. naive_solver.
Qed.
End cas.

End cas.

Module action.

Definition keyVersion : Z := 3.

Record Key := MkKey {
  K_V : Z;
  K_Kind : string;
  K_BaselineTree : string;
  K_PatchTree : string;
  K_Scope : string;
  K_N : Z;
  K_Workload : string;
  K_HealthPath : string;
}.

(** The JSON texts of keys, workloads and step results. *)
Class ActionJSON := {
  key_json : Key → string;
  workload_json : list jobs.Step → string;
  step_json : plan.StepResult → string;
  step_of_json : string → result string plan.StepResult;
}.

Inductive ActionErr :=
| ActionCas (e : cas.CasErr)
| ErrDecode (msg : string)
| ErrCachedPass.

Definition err_text (e : ActionErr) : string :=
  match e with
  | ActionCas cas.ErrNotFound => "cas: not found"
  | ActionCas cas.ErrCorrupt => "cas: corrupt"
  | ActionCas cas.ErrInvalidDigest => "cas: invalid digest"
  | ActionCas (cas.CasCtx msg) => msg
  | ErrDecode msg => "action: " +:+ msg
  | ErrCachedPass => "action: cached pass"
  end.

Section action.
  Context `{GoSHA, ActionJSON}.

Definition Digest (k : Key) : string := sha256_hex (key_json k).

Definition Cacheable (kind : string) : bool :=
  (kind == plan.KindBehavior) || (kind == plan.KindTests).

Definition lease_n (l : jobs.Lease) : Z := if (jobs.L_N l <? 1)%Z then 1 else jobs.L_N l.

Definition FromLease (l : jobs.Lease) : Key :=
  let job := jobs.L_Job l in
  let base := jobs.J_BaselineRev job in
  let patch := jobs.J_PatchRev job in
  let built := (gitrev.Rev_Source base == gitrev.SourceBuilt) &&
               (gitrev.Rev_Source patch == gitrev.SourceBuilt) &&
               (gitrev.Rev_Tree base != "") && (gitrev.Rev_Tree patch != "") in
  MkKey keyVersion (jobs.T_Kind (jobs.L_Task l))
    (if built then gitrev.Rev_Tree base else "") (if built then gitrev.Rev_Tree patch else "")
    (if built then "trees" else "job:" +:+ jobs.J_ID job)
    (lease_n l) (workload_json (jobs.J_Workload job)) (plan.DAG_HealthPath (jobs.J_Plan job)).

(** The objects and the index files, by the digest of the key. *)
Record Cache := MkCache {
  c_dir : cas.Dir;
  c_idx : gmap string string;
}.

Definition passing (verdict : string) : bool := (verdict == "pass") || (verdict == "validated").

(** [None] in a result is a miss. *)
Definition Get (ctx : option string) (key : Key) (c : Cache)
    : result ActionErr (option plan.StepResult) :=
  if negb (Cacheable (K_Kind key)) then Ok None
  else
    match c_idx c !! Digest key with
    | None => Ok None
    | Some raw =>
        match cas.Get ctx (TrimSpace raw) (c_dir c) with
        | Err e => Err (ActionCas e)
        | Ok body =>
            match step_of_json body with
            | Err msg => Err (ErrDecode msg)
            | Ok res => if passing (plan.SR_Verdict res) then Err ErrCachedPass else Ok (Some res)
            end
        end
    end.

Definition Put (ctx : option string) (key : Key) (res : plan.StepResult) (c : Cache)
    : result ActionErr () * Cache :=
  if negb (Cacheable (K_Kind key)) then (Ok tt, c)
  else if bool_decide (plan.SR_Verdict res ∈ [""; "incomplete"; "pass"; "validated"]) then (Ok tt, c)
  else
    match cas.Put ctx (step_json res) (c_dir c) with
    | (Err e, d) => (Err (ActionCas e), MkCache d (c_idx c))
    | (Ok id, d) => (Ok tt, MkCache d (<[Digest key := id]> (c_idx c)))
    end.

(** A hit is never a pass. *)
Lemma Get_verdict ctx key c res :
  Get ctx key c = Ok (Some res) → plan.SR_Verdict res ≠ "pass" ∧ plan.SR_Verdict res ≠ "validated".
Proof.
  unfold Get. intros Hg. repeat case_match; simplify_eq.
  match goal with H : passing _ = false |- _ => unfold passing in H end. go_inv. done.
Qed.

(** A cached result is found again under its key, as it was put, provided its
    JSON text decodes to it and no other object has the digest of that text. The
    verdicts that must not be reused are not stored. *)
Theorem Put_then_Get ctx key res c c' :
  Put ctx key res c = (Ok tt, c') → Cacheable (K_Kind key) = true →
  step_of_json (step_json res) = Ok res →
  (∀ raw, cas.objects (c_dir c) !! cas.Sum (step_json res) = Some raw →
     cas.Sum raw = cas.Sum (step_json res) → raw = step_json res) →
  (c' = c ∧ plan.SR_Verdict res ∈ [""; "incomplete"; "pass"; "validated"]) ∨
  Get None key c' = Ok (Some res).
Proof.
  intros Hp Hk Hj Hcoll. unfold Put in Hp. rewrite Hk in Hp. cbn [negb] in Hp.
  case_bool_decide as Hv; [left; by injection Hp as <-|right].
  destruct (cas.Put ctx (step_json res) (c_dir c)) as [[id|e] d] eqn:E; [|done].
  injection Hp as <-. destruct (cas.Put_object_Get _ _ _ _ _ E) as (raw & Hg & Hs & Hraw).
  assert (raw = step_json res) as -> by (destruct Hraw as [->|Hraw]; [done|by apply Hcoll]).
  assert (id = cas.Sum (step_json res)) as Hid by (symmetry; by eapply cas.Get_digest).
  assert (TrimSpace id = id) as Ht
    by (subst id; apply TrimSpace_hex, (sha256_hex_ok (step_json res))).
  unfold Get. rewrite Hk. cbn [negb c_idx c_dir].
  rewrite lookup_insert_eq, Ht, Hg, Hj. unfold passing.
  rewrite !bool_decide_eq_false_2; [done|set_solver..].
Qed.
End action.

End action.

Module worker.
Import jobs.

(** ** What a worker relies on

    [good] are the states of the store, [holds s l] says that the lease [l] is
    held in [s], [has_task s t] that [t] is a task of the store. A lease survives
    heartbeats, and a commit of a lease that is held goes through. *)

Class LeaseStore (S : Type) `{Store S} := {
  good : S → Prop;
  holds : S → Lease → Prop;
  has_task : S → Task → Prop;
  lease_good ctx v w now s r s' :
    good s → (v < 2 ^ 64)%N → Store_Lease ctx v w now s = (r, s') → good s';
  lease_holds ctx v w now s l s' :
    good s → (v < 2 ^ 64)%N → Store_Lease ctx v w now s = (Ok l, s') →
    holds s' l ∧ T_Operator (L_Task l) = false;
  beat_holds ctx tid aid wid now s r s' l :
    good s → Store_Heartbeat ctx tid aid wid now s = (r, s') →
    good s' ∧ (holds s l → holds s' l);
  commit_held s l res fail :
    good s → holds s l → plan.SR_Verdict res ≠ "pass" → plan.SR_Verdict res ≠ "validated" →
    ∃ t s', Store_Commit None (T_ID (L_Task l)) (L_Attempt l) res fail s = (Ok t, s') ∧
      good s' ∧ has_task s' t ∧ T_ID t = T_ID (L_Task l) ∧ T_Result t = res ∧ T_Err t = fail ∧
      T_State t = (if fail == "" then StateSucceeded else StateFailed);
}.

(** ** execute.go *)

(** The context's error when the call starts, when the cache is read and when it
    is written, and the world of the execution. The deadline of the job ends the
    context; it shows in these. *)
Record ExecEnv := MkExecEnv {
  Ee_ctx : option string;
  Ee_getCtx : option string;
  Ee_putCtx : option string;
  Ee_world : plan.World;
}.

Inductive WorkerErr :=
| WCtx (msg : string)
| WOperator
| WCache (e : action.ActionErr)
| WRun (e : replay.RunErr)
| WEmpty
| WPass.

Definition worker_err_text (e : WorkerErr) : string :=
  match e with
  | WCtx msg => msg
  | WOperator => "worker: operator task"
  | WCache e => action.err_text e
  | WRun e => replay.run_err_text e
  | WEmpty => "worker: empty result"
  | WPass => "worker: result cannot be a pass"
  end.

Section execute.
  Context `{GoNet, GoJSON, GoSHA, action.ActionJSON}.

(** The plan of one task. *)
Definition one_step_dag (l : Lease) : plan.DAG :=
  plan.MkDAG
    [plan.MkStep (T_PlanID (L_Task l)) (T_Kind (L_Task l)) true false (action.lease_n l) 0 [] ""]
    [] "" [] (plan.DAG_HealthPath (J_Plan (L_Job l))).

(** The result of the task when it is not taken from the cache. *)
Definition run_task (wd : plan.World) (l : Lease) : result WorkerErr plan.StepResult :=
  match plan.Execute wd (one_step_dag l) (J_Baseline (L_Job l)) (J_Patch (L_Job l))
          (Workload (L_Job l)) with
  | Err e => Err (WRun e)
  | Ok ev =>
      match plan.Ev_Steps ev with
      | [] => Err WEmpty
      | out :: _ => if action.passing (plan.SR_Verdict out) then Err WPass else Ok out
      end
  end.

(** [cache = None] is the nil cache. *)
Definition cache_get (ctx : option string) (l : Lease) (cache : option action.Cache)
    : result action.ActionErr (option plan.StepResult) :=
  match cache with
  | None => Ok None
  | Some c =>
      if action.Cacheable (T_Kind (L_Task l)) then action.Get ctx (action.FromLease l) c
      else Ok None
  end.

Definition cache_put (ctx : option string) (l : Lease) (out : plan.StepResult)
    (cache : option action.Cache) : result action.ActionErr () * option action.Cache :=
  match cache with
  | None => (Ok tt, None)
  | Some c =>
      if action.Cacheable (T_Kind (L_Task l))
      then let '(r, c) := action.Put ctx (action.FromLease l) out c in (r, Some c)
      else (Ok tt, Some c)
  end.

Definition ExecuteWith (e : ExecEnv) (l : Lease) (cache : option action.Cache)
    : result WorkerErr plan.StepResult * option action.Cache :=
  match Ee_ctx e with
  | Some err => (Err (WCtx err), cache)
  | None =>
      if T_Operator (L_Task l) then (Err WOperator, cache)
      else
        match cache_get (Ee_getCtx e) l cache with
        | Err err => (Err (WCache err), cache)
        | Ok (Some hit) => (Ok hit, cache)
        | Ok None =>
            match run_task (Ee_world e) l with
            | Err err => (Err err, cache)
            | Ok out =>
                match cache_put (Ee_putCtx e) l out cache with
                | (Err err, cache) => (Err (WCache err), cache)
                | (Ok _, cache) => (Ok out, cache)
                end
            end
        end
  end.

(** The calls of one round: the lease, the heartbeats while the task runs and the
    commit. [Oe_execute] is the execution. A heartbeat that arrives after the
    commit finds the task finished. *)
Record OnceEnv := MkOnceEnv {
  Oe_leaseCtx : option string;
  Oe_rand : N;
  Oe_now : Z;
  Oe_beats : list (option string * Z);
  Oe_execute : ExecEnv;
  Oe_commitCtx : option string;
}.

Section once.
  Context {S : Type} `{Store S}.

(** The heartbeats, whose errors are dropped. *)
Definition heartbeat (workerID : string) (l : Lease) (beats : list (option string * Z)) (s : S) : S :=
  foldl (λ s b, (Store_Heartbeat b.1 (T_ID (L_Task l)) (L_Attempt l) workerID b.2 s).2) s beats.

(** What is committed for the outcome of the execution. *)
Definition commit_of (l : Lease) (r : result WorkerErr plan.StepResult)
    : plan.StepResult * string :=
  match r with
  | Ok res => (res, "")
  | Err e =>
      (plan.MkStepResult (T_PlanID (L_Task l)) (T_Kind (L_Task l)) "incomplete" [] [] [],
       worker_err_text e)
  end.

Definition Once (e : OnceEnv) (workerID : string) (cache : option action.Cache) (s : S)
    : result JobErr () * option action.Cache * S :=
  match Store_Lease (Oe_leaseCtx e) (Oe_rand e) (MkWorker workerID 0 "") (Oe_now e) s with
  | (Err err, s) => (Err err, cache, s)
  | (Ok l, s) =>
      let s := heartbeat workerID l (Oe_beats e) s in
      let '(r, cache) := ExecuteWith (Oe_execute e) l cache in
      let '(res, fail) := commit_of l r in
      match Store_Commit (Oe_commitCtx e) (T_ID (L_Task l)) (L_Attempt l) res fail s with
      | (Err err, s) => (Err err, cache, s)
      | (Ok _, s) => (Ok tt, cache, s)
      end
  end.
End once.

(** ** rpc.go: the handlers of the worker service *)

Inductive Code := Unavailable | InvalidArgument | FailedPrecondition | Internal | Unauthenticated.

Record LeaseRequest := MkLeaseRequest { Lr_WorkerID : string; Lr_Slots : Z; Lr_JobID : string }.
Inductive LeaseReply :=
| LeaseEmpty
| LeaseOf (job : Job) (task : Task) (attempt : string) (n : Z).

Section grpc.
  Context {S : Type} `{Store S}.

(** [None] is the nil store. [now] is the time of the call. *)
Definition grpc_Lease (ctx : option string) (v : N) (now : Z) (req : LeaseRequest) (store : option S)
    : result Code LeaseReply * option S :=
  match store with
  | None => (Err Unavailable, None)
  | Some s =>
      match Store_Lease ctx v (MkWorker (Lr_WorkerID req) (Lr_Slots req) (Lr_JobID req)) now s with
      | (Ok l, s) => (Ok (LeaseOf (L_Job l) (L_Task l) (L_Attempt l) (L_N l)), Some s)
      | (Err ErrNoReady, s) | (Err ErrCapacity, s) => (Ok LeaseEmpty, Some s)
      | (Err ErrInvalidID, s) => (Err InvalidArgument, Some s)
      | (Err _, s) => (Err Internal, Some s)
      end
  end.

Definition grpc_Heartbeat (ctx : option string) (now : Z) (tid attempt wid : string)
    (store : option S) : result Code () * option S :=
  match store with
  | None => (Err Unavailable, None)
  | Some s =>
      match Store_Heartbeat ctx tid attempt wid now s with
      | (Ok _, s) => (Ok tt, Some s)
      | (Err ErrStaleAttempt, s) | (Err ErrNotLeased, s) | (Err ErrNotFound, s) =>
          (Err FailedPrecondition, Some s)
      | (Err _, s) => (Err Internal, Some s)
      end
  end.

Definition grpc_Commit (ctx : option string) (tid attempt : string) (res : plan.StepResult)
    (fail : string) (store : option S) : result Code Task * option S :=
  match store with
  | None => (Err Unavailable, None)
  | Some s =>
      match Store_Commit ctx tid attempt res fail s with
      | (Ok t, s) => (Ok t, Some s)
      | (Err ErrStaleAttempt, s) | (Err ErrNotFound, s) | (Err ErrNotLeased, s) =>
          (Err FailedPrecondition, Some s)
      | (Err _, s) => (Err Internal, Some s)
      end
  end.
End grpc.

(** auth.go: the caller is let through when no token is set or its bearer token
    has the digest of the one wanted. [auth] is the first authorization value. *)
Definition authorized (token : string) (auth : option string) : bool :=
  if token == "" then true
  else
    let got := match auth with
               | Some v => TrimSpace (TrimPrefix v "Bearer ")
               | None => ""
               end in
    sha256_hex got == sha256_hex token.

(** ** The outcome of one task *)

Lemma passing_false v : action.passing v = false → v ≠ "pass" ∧ v ≠ "validated".
Proof. unfold action.passing. intros ?. by go_inv. Qed.

Lemma run_task_ok wd l res :
  run_task wd l = Ok res →
  plan.SR_Verdict res ≠ "pass" ∧ plan.SR_Verdict res ≠ "validated" ∧
  plan.SR_ID res = T_PlanID (L_Task l) ∧ plan.SR_Kind res = T_Kind (L_Task l) ∧
  (T_Kind (L_Task l) = plan.KindTests → plan.SR_Verdict res = replay.VerdictIncomplete).
Proof.
  unfold run_task. destruct (plan.Execute _ _ _ _ _) as [ev|] eqn:E; [|done].
  apply plan.Execute_inv in E as (data & -> & Hf & _ & _ & _ & Ht & _). simpl.
  destruct (action.passing _) eqn:Ep; [done|]. intros [= <-].
  apply passing_false in Ep as [Hp1 Hp2]. do 2 (split; [done|]).
  destruct (plan.evalStep_id (plan.MkStep (T_PlanID (L_Task l)) (T_Kind (L_Task l)) true false
    (action.lease_n l) 0 [] "") data Hf) as [-> ->]. do 2 (split; [done|]).
  intros Hk. unfold plan.evalStep. cbn [plan.Step_Kind plan.Step_Operator]. rewrite Hk.
  rewrite Ht; [done|]. unfold plan.hasKind. simpl. by rewrite Hk.
Qed.

(** A result that a worker gets, from the cache or by running the task, never
    claims a pass; one it computed carries the identity of the planned step. *)
Theorem ExecuteWith_result e l cache res cache' :
  ExecuteWith e l cache = (Ok res, cache') →
  plan.SR_Verdict res ≠ "pass" ∧ plan.SR_Verdict res ≠ "validated" ∧
  T_Operator (L_Task l) = false ∧
  ((∃ c, cache = Some c ∧ cache' = cache ∧
      action.Get (Ee_getCtx e) (action.FromLease l) c = Ok (Some res)) ∨
   (plan.SR_ID res = T_PlanID (L_Task l) ∧ plan.SR_Kind res = T_Kind (L_Task l))).
Proof.
  unfold ExecuteWith. destruct (Ee_ctx e); [done|].
  destruct (T_Operator (L_Task l)); [done|].
  destruct (cache_get _ l cache) as [[hit|]|] eqn:Eg; [|..|done].
  - intros [= <- <-]. unfold cache_get in Eg. destruct cache as [c|]; [|done].
    destruct (action.Cacheable _); [|done]. destruct (action.Get_verdict _ _ _ _ Eg). eauto 10.
  - destruct (run_task (Ee_world e) l) as [out|] eqn:Er; [|done].
    destruct (cache_put _ l out cache) as [[|] c']; [|done]. intros [= <- <-].
    apply run_task_ok in Er as (? & ? & ? & ? & _). auto 10.
Qed.

(** A worker's plan of one step names neither a module nor packages, so a task of
    kind tests is always incomplete. *)
Theorem tests_task_incomplete wd l res :
  T_Kind (L_Task l) = plan.KindTests → run_task wd l = Ok res →
  plan.SR_Verdict res = replay.VerdictIncomplete ∧ action.Cacheable (T_Kind (L_Task l)) = true.
Proof.
  intros Hk Hr. apply run_task_ok in Hr as (_ & _ & _ & _ & Hi). split; [auto|]. by rewrite Hk.
Qed.

Lemma ExecuteWith_verdict e l cache r cache' :
  ExecuteWith e l cache = (r, cache') →
  plan.SR_Verdict (commit_of l r).1 ≠ "pass" ∧ plan.SR_Verdict (commit_of l r).1 ≠ "validated".
Proof.
  intros He. destruct r as [res|err]; [|done]. simpl. revert He.
  unfold ExecuteWith. destruct (Ee_ctx e); [done|]. destruct (T_Operator (L_Task l)); [done|].
  destruct (cache_get _ l cache) as [[hit|]|] eqn:Eg; [|..|done].
  - intros [= <- <-]. unfold cache_get in Eg. destruct cache as [c|]; [|done].
    destruct (action.Cacheable _); [|done]. by eapply action.Get_verdict.
  - destruct (run_task (Ee_world e) l) as [out|] eqn:Er; [|done].
    destruct (cache_put _ l out cache) as [[|] c']; [|done]. intros [= <- <-].
    by apply run_task_ok in Er as (? & ? & _).
Qed.

(** ** One round of a worker, over any store *)

Section once_correct.
  Context {S : Type} `{LeaseStore S}.

Lemma heartbeat_holds wid l beats s :
  good s → holds s l → good (heartbeat wid l beats s) ∧ holds (heartbeat wid l beats s) l.
Proof.
  unfold heartbeat. revert s. induction beats as [|[ctx now] beats IH]; intros s Hg Hh; [done|].
  cbn [foldl fst snd]. destruct (Store_Heartbeat ctx _ _ wid now s) as [r s'] eqn:E.
  destruct (beat_holds _ _ _ _ _ _ _ _ l Hg E) as [Hg' Hh']. apply IH; auto.
Qed.

(** A round of a worker that gets a lease ends with the task committed: it
    has succeeded with the result of the execution, or failed with its error.
    Nothing but the store's promises to workers is used. *)
Theorem Once_commits e wid cache s r cache' s' :
  good s → (Oe_rand e < 2 ^ 64)%N → Oe_commitCtx e = None →
  Once e wid cache s = (r, cache', s') →
  good s' ∧
  ((∃ err, r = Err err ∧ cache' = cache ∧
      Store_Lease (Oe_leaseCtx e) (Oe_rand e) (MkWorker wid 0 "") (Oe_now e) s = (Err err, s')) ∨
   (r = Ok tt ∧ ∃ l s1 out t,
      Store_Lease (Oe_leaseCtx e) (Oe_rand e) (MkWorker wid 0 "") (Oe_now e) s = (Ok l, s1) ∧
      ExecuteWith (Oe_execute e) l cache = (out, cache') ∧
      has_task s' t ∧ T_ID t = T_ID (L_Task l) ∧
      T_Result t = (commit_of l out).1 ∧ T_Err t = (commit_of l out).2 ∧
      T_State t = (if T_Err t == "" then StateSucceeded else StateFailed))).
Proof.
  intros Hg Hv Hctx. unfold Once.
  destruct (Store_Lease _ _ _ _ s) as [[l|err] s1] eqn:El.
  - pose proof (lease_good _ _ _ _ _ _ _ Hg Hv El) as Hg1.
    destruct (lease_holds _ _ _ _ _ _ _ Hg Hv El) as [Hh _].
    destruct (heartbeat_holds wid l (Oe_beats e) s1 Hg1 Hh) as [Hg2 Hh2].
    destruct (ExecuteWith (Oe_execute e) l cache) as [out c'] eqn:Ee.
    destruct (ExecuteWith_verdict _ _ _ _ _ Ee) as [Hv1 Hv2].
    destruct (commit_of l out) as [res fail] eqn:Ec. rewrite Hctx.
    destruct (commit_held _ l res fail Hg2 Hh2 Hv1 Hv2)
      as (t & s3 & -> & Hg3 & Hst & Hid & Hres & Hf & Hstate).
    intros [= <- <- <-]. split; [done|]. right. split; [done|]. exists l, s1, out, t.
    rewrite Ec. do 6 (split; [done|]). by rewrite Hf.
  - intros [= <- <- <-]. split; [by eapply lease_good|]. left. eauto.
Qed.
End once_correct.

End execute.

(** ** The in-memory store keeps its promises to workers *)

Section memory.
  Context `{GoNet}.
Import memory.

Definition held (m : Memory) (l : jobs.Lease) : Prop :=
  ∃ id j i t v, byID m !! id = Some j ∧ J_Tasks j !! i = Some t ∧
    T_ID t = T_ID (L_Task l) ∧ T_State t = StateLeased ∧
    T_AttemptID t = L_Attempt l ∧ L_Attempt l = newID v ∧ (v < 2 ^ 64)%N.

Definition in_store (m : Memory) (t : Task) : Prop :=
  ∃ id j, byID m !! id = Some j ∧ t ∈ J_Tasks j.

Definition reached (m : Memory) : Prop := ∃ q, reachable q m.

Lemma reached_step m m' : reached m → step m m' → reached m'.
Proof. intros [q Hq] Hs. exists q. by eapply rtc_r. Qed.

Lemma Lease_held ctx v w now m l m' :
  reached m → (v < 2 ^ 64)%N → Lease ctx v w now m = (Ok l, m') →
  held m' l ∧ T_Operator (L_Task l) = false.
Proof.
  intros [q Hq] Hv Hl. apply Lease_inv in Hl as [(err & [=] & _)|(l' & [= <-] & [_ _ Hch])].
  destruct Hch as (want & ji & ti & n & j & t & _ & _ & Hj & Ht & Hrd & -> & ->).
  split.
  - exists (J_ID j), (lease_job j ti (lease_task t (newID v) (W_ID w) now)), ti,
      (lease_task t (newID v) (W_ID w) now), v.
    cbn [byID set_byID L_Task L_Attempt]. rewrite lookup_insert_eq. split; [done|].
    split; [apply list_lookup_insert_eq; by eapply lookup_lt_Some|done].
  - simpl. unfold ready_task in Hrd. by go_inv.
Qed.

Lemma Heartbeat_held ctx tid aid wid now m r m' l :
  Heartbeat ctx tid aid wid now m = (r, m') → held m l → held m' l.
Proof.
  intros [->|(id & j & i & t & t' & Hj & Ht & (a & _ & Hb) & ->)]%Heartbeat_in_inv; [done| |done].
  intros (id0 & j0 & i0 & t0 & v & Hj0 & Ht0 & Hid & Hst & Hat & Hnew & Hv).
  unfold applyHeartbeat in Hb. go_inv.
  destruct (decide (id0 = id)) as [->|Hne].
  - rewrite Hj in Hj0. injection Hj0 as <-. destruct (decide (i0 = i)) as [->|Hni].
    + rewrite Ht in Ht0. injection Ht0 as <-. eexists id, _, i, _, v. cbn [byID set_byID].
      rewrite lookup_insert_eq. split; [done|]. cbn [heartbeat_job set_tasks J_Tasks].
      rewrite list_lookup_insert_eq by (by eapply lookup_lt_Some). done.
    + eexists id, _, i0, t0, v. cbn [byID set_byID]. rewrite lookup_insert_eq.
      split; [done|]. cbn [heartbeat_job set_tasks J_Tasks]. by rewrite list_lookup_insert_ne.
  - exists id0, j0, i0, t0, v. cbn [byID set_byID]. by rewrite lookup_insert_ne.
Qed.

Lemma Commit_held m l res fail :
  reached m → held m l → plan.SR_Verdict res ≠ "pass" → plan.SR_Verdict res ≠ "validated" →
  ∃ t m', Commit None (T_ID (L_Task l)) (L_Attempt l) res fail m = (Ok t, m') ∧
    reached m' ∧ in_store m' t ∧ T_ID t = T_ID (L_Task l) ∧ T_Result t = res ∧ T_Err t = fail ∧
    T_State t = (if fail == "" then StateSucceeded else StateFailed).
Proof.
  intros Hr (id & j & i & t & v & Hj & Ht & Hid & Hst & Hat & Hnew & Hv) Hp1 Hp2.
  pose proof Hr as [q Hq]. apply reachable_ok in Hq. rewrite <- Hid, <- Hat.
  pose proof (Commit_leased m id j i t v res fail Hq Hj Ht Hst) as Hc.
  rewrite Hc by congruence. do 2 eexists. split; [done|]. split.
  - apply (reached_step m); [done|]. eapply (step_commit _ _ None (T_ID t) (T_AttemptID t) res fail);
      [done|]. apply Hc; congruence.
  - split; [|done]. exists id. eexists. cbn [byID set_byID]. rewrite lookup_insert_eq.
    split; [done|]. eapply list_elem_of_lookup_2, commit_job_task; [simpl; by case_bool_decide|].
    by eapply lookup_lt_Some.
Qed.

#[global] Instance Memory_LeaseStore : LeaseStore Memory.
Proof.
  refine {| good := reached; holds := held; has_task := in_store |}.
  - intros ctx v w now s r s' Hg Hv Hl. eapply reached_step; [done|].
    exact (step_lease _ ctx v w now r s' Hv Hl).
  - intros ctx v w now s l s' Hg Hv Hl. exact (Lease_held ctx v w now s l s' Hg Hv Hl).
  - intros ctx tid aid wid now s r s' l Hg Hb. split.
    + eapply reached_step; [done|].
      exact (step_heartbeat _ _ ctx tid aid wid now r s' (reflexivity _) Hb).
    + exact (Heartbeat_held ctx tid aid wid now s r s' l Hb).
  - apply Commit_held.
Defined.
End memory.

End worker.
