(* ===== verification/Examples.v ===== *)
(** * Concrete runs

    Instances of the interfaces to code outside the repository ([net/url],
    [net/netip], [encoding/json]) and small inputs on which the theorems of the
    development apply: every hypothesis of a theorem holds somewhere. *)

From S2P Require Import Prelude GoStrings Net Ingest Replay Impact Plan Validate Jobs JobStore JobSteps.

(** A URL parser for [scheme://host/path]. *)
Definition sample_Parse (s : string) : result string URL :=
  match Index s "://" with
  | None => Err "missing scheme"
  | Some i =>
      let rest := str_drop (i + 3) s in
      let host := before_byte rest (byte 47) in
      Ok (MkURL (ToLower (str_take i s)) "" None host (str_drop (String.length host) rest) "" "")
  end.

Definition sample_String (u : URL) : string :=
  URL_Scheme u +:+ "://" +:+ URL_Host u +:+ URL_Path u.

#[local] Instance sample_net : GoNet := {
  url_Parse := sample_Parse;
  url_String := sample_String;
  ParseAddr := λ _, None;
}.

(** A decoder that takes every body for opaque bytes. *)
#[local] Instance sample_json : GoJSON.
Proof. by refine {| json_Unmarshal := λ _, None |}. Defined.

(** ** Addresses, latency and workloads *)

Lemma Blocked_ipv4_witness :
  (ipv4 169 254 169 254 < 2 ^ 32)%N ∧ Blocked (V4 (ipv4 169 254 169 254)) = true.
Proof.
  split; [reflexivity|].
  destruct (Blocked_ipv4 (ipv4 169 254 169 254) "") as [H _]; [reflexivity|].
  apply H. right; left. reflexivity.
Defined.

Definition sample_samples : list Z := [5; 1; 4; 2; 3]%Z.

Lemma Summarize_summary_witness :
  replay.Sum_MedNS (replay.Summarize sample_samples) = 3%Z ∧
  replay.summary_of sample_samples (replay.Summarize sample_samples).
Proof.
  split; [reflexivity|]. apply replay.Summarize_summary.
  unfold replay.maxRepeats. simpl. lia.
Defined.

Definition sample_latency : replay.StepLatency :=
  replay.MkStepLatency "GET" "/" (replay.MkSummary 20 1000000 1000000 0 0 false false)
    (replay.MkSummary 20 9000000 9000000 0 0 false false).

Lemma Shifted_spec_witness : replay.Shifted sample_latency = true.
Proof. apply replay.Shifted_spec; simpl; lia. Defined.

Definition sample_workload : replay.Workload :=
  replay.MkWorkload [replay.MkStep "GET" "/items" "" [] "span_route" "shop"].

Definition sample_exchange (url : string) (st : replay.Step) : replay.Reply :=
  replay.Response 1000 200 (Ok "ok").

Lemma Run_ok_witness :
  ∃ r, replay.Run sample_exchange "http://a" sample_workload = Ok r ∧
    (λ o, (replay.Obs_Method o, replay.Obs_Path o)) <$> replay.Result_Steps r
      = [("GET", "/items")].
Proof.
  destruct (replay.Run sample_exchange "http://a" sample_workload) as [r|e] eqn:E;
    [|vm_compute in E; discriminate E].
  exists r. split; [reflexivity|]. rewrite (replay.Run_ok _ _ _ _ E). reflexivity.
Defined.

Lemma runStep_body_witness :
  let o := replay.runStep (replay.MkStep "GET" "/" "" [] "" "") (replay.Response 1 200 (Ok "hi")) in
  replay.Obs_Err o = "" ∧ replay.Obs_Body o = "hi".
Proof.
  split; [reflexivity|]. apply (replay.runStep_body _ 1 200 "hi"). reflexivity.
Defined.

Definition sample_ctx (i : nat) : option string := None.
Definition sample_run : replay.Result :=
  replay.MkResult "http://a"
    [replay.MkObservation "GET" "/items" 200 "ok" 1000 ""].

Lemma Burst_slots_witness :
  replay.Burst [1; 0]%nat sample_ctx (λ _, sample_exchange) "http://a" sample_workload 2
    = Ok [sample_run; sample_run].
Proof.
  rewrite (replay.Burst_slots _ _ _ _ _ _ (λ _, sample_run)).
  - reflexivity.
  - unfold replay.maxBurst. lia.
  - vm_compute. reflexivity.
  - discriminate.
  - apply (Permutation_swap 0%nat 1%nat []).
  - intros i _. vm_compute. reflexivity.
Defined.

(** A decoder of objects with one text field [id] and one text field [name]. *)
Definition sample_order (id name : string) : string :=
  "{" +:+ replay.quote "id" +:+ ":" +:+ replay.quote id +:+ "," +:+
    replay.quote "name" +:+ ":" +:+ replay.quote name +:+ "}".
Definition sample_object (id name : string) : json :=
  JObj [("id", JStr id); ("name", JStr name)].
Definition sample_decode (s : string) : option json :=
  if s == sample_order "1" "cup" then Some (sample_object "1" "cup")
  else if s == sample_order "2" "cup" then Some (sample_object "2" "cup")
  else if s == sample_order "2" "pan" then Some (sample_object "2" "pan")
  else None.

Lemma sample_object_wf id name : json_wf (sample_object id name).
Proof. constructor; [vm_compute; repeat constructor; set_solver|repeat constructor]. Qed.

Definition sample_codec : GoJSON.
Proof.
  refine {| json_Unmarshal := sample_decode |}. unfold sample_decode. intros s v.
  repeat case_bool_decide; intros [= <-]; apply sample_object_wf.
Defined.

Definition sample_answer (body : string) : replay.Result :=
  replay.MkResult "" [replay.MkObservation "GET" "/items" 200 body 1000 ""].

(** An order with another [id] matches; one with another [name] does not. *)
Lemma Compare_verdicts_witness :
  let compare := @replay.Compare sample_codec in
  Forall2 (@replay.obs_match sample_codec) (replay.Result_Steps (sample_answer (sample_order "1" "cup")))
    (replay.Result_Steps (sample_answer (sample_order "2" "cup"))) ∧
  replay.Report_Verdict (compare (sample_answer (sample_order "1" "cup")) (sample_answer (sample_order "2" "pan")))
    = replay.VerdictDiffer.
Proof.
  split; [|vm_compute; reflexivity].
  apply (proj1 (@replay.Compare_verdicts sample_codec _ _)). vm_compute. reflexivity.
Defined.

(** ** Changes *)

Definition sample_finding : impact.Finding :=
  impact.MkFinding "" "" "" "" "Handle" "svc/a.go" "svc.Handle" "" "" "" 10 "changed_lines" "".
Definition sample_report : impact.Report :=
  impact.MkReport [] ["svc/a.go"] [sample_finding] [] [] [].

Lemma Classify_total_witness :
  "svc/a.go" ∈ impact.Rep_Files sample_report ∧
  ("svc/a.go" ∈ impact.Ch_Unanalyzed (impact.Classify sample_report) ∨
   ∃ f, f ∈ impact.Rep_Direct sample_report ∧ impact.F_File f = "svc/a.go").
Proof.
  split; [left|].
  destruct (impact.Classify_total sample_report "svc/a.go") as [H|[H _]];
    [left|reflexivity|by left|by right].
Defined.

(** ** An execution that is validated *)

Definition sample_dag : plan.DAG :=
  plan.MkDAG [plan.step_env; plan.step_behavior; plan.step_latency; plan.step_concurrency]
    [] "" [] "".

Definition sample_phase : plan.Phase := plan.MkPhase sample_ctx (λ _, sample_exchange).

Definition sample_world (status : Z) : plan.World :=
  plan.MkWorld (λ _, Ok status) sample_phase sample_phase (seq 0 8) sample_phase (seq 0 8)
    sample_phase plan.TestsPassed
    (λ _, plan.MkFaultWorld (Err "no listener") sample_exchange sample_exchange).

Definition sample_evidence : plan.Evidence :=
  match plan.Execute (sample_world 200) sample_dag "http://a" "http://b" sample_workload with
  | Ok ev => ev
  | Err _ => plan.MkEvidence "" [] []
  end.

Lemma sample_execute_ok :
  plan.Execute (sample_world 200) sample_dag "http://a" "http://b" sample_workload
    = Ok sample_evidence.
Proof. vm_compute. reflexivity. Qed.

Lemma Execute_evidence_witness :
  plan.Ev_Overall sample_evidence = replay.VerdictMatch ∧
  plan.match_evidence (sample_world 200) sample_dag "http://a" "http://b" sample_workload.
Proof.
  assert (plan.Ev_Overall sample_evidence = replay.VerdictMatch) as Hm
    by (vm_compute; reflexivity).
  split; [exact Hm|].
  apply (plan.Execute_evidence (sample_world 200) sample_dag "http://a" "http://b"
           sample_workload sample_evidence sample_execute_ok). exact Hm.
Defined.

Lemma Execute_env_gate_witness :
  ∃ ev, plan.Execute (sample_world 503) sample_dag "http://a" "http://b" sample_workload
      = Ok ev ∧ plan.Ev_Overall ev = replay.VerdictIncomplete.
Proof.
  destruct (plan.Execute (sample_world 503) sample_dag "http://a" "http://b" sample_workload)
    as [ev|e] eqn:E; [|vm_compute in E; discriminate E].
  exists ev. split; [reflexivity|].
  destruct (replay.HealthzPath (plan.W_probe (sample_world 503)) "http://a" "http://b"
              (plan.DAG_HealthPath sample_dag)) as [u|err] eqn:Eh;
    [vm_compute in Eh; discriminate Eh|].
  apply (plan.Execute_env_gate (sample_world 503) sample_dag "http://a" "http://b"
           sample_workload ev err E); [|exact Eh].
  exists plan.step_env. split; [left|split; reflexivity].
Defined.

Definition sample_built (tree : string) : gitrev.Revision :=
  gitrev.MkRevision "c0ffee" tree "." false gitrev.SourceBuilt.

Definition sample_input : validate.Input :=
  validate.MkInput [] (sample_built "t1") (sample_built "t2") "http://a" "http://b"
    sample_dag sample_evidence ["GET /items"] (replay.Workload_Steps sample_workload)
    (impact.MkChanges ["svc.Handle"] []).

Lemma Decide_Execute_validated_witness :
  validate.D_Validated (validate.Decide sample_input) = true ∧
  validate.exercised sample_input "GET /items".
Proof.
  assert (validate.D_Validated (validate.Decide sample_input) = true) as Hv
    by (vm_compute; reflexivity).
  split; [exact Hv|].
  apply (validate.Decide_Execute_validated (sample_world 200) sample_input "http://a" "http://b"
           sample_workload); [exact sample_execute_ok|exact Hv|left].
Defined.

Lemma duplicateBlockers_order_witness :
  let entries := map_to_list (validate.step_counts sample_input) in
  validate.duplicates_of (reverse entries) = validate.duplicateBlockers sample_input.
Proof.
  intros entries. apply validate.duplicateBlockers_order. apply reverse_Permutation.
Defined.

(** ** A job from creation to commit *)

Import jobs memory.

Definition sample_opts : CreateOpts :=
  MkCreateOpts (sample_built "t1") (sample_built "t2") "http://a" "http://b" "shop" 0
    sample_workload sample_dag ["GET /items"] (impact.MkChanges ["svc.Handle"] []).

Definition sample_quota : Quota := MkQuota 0 0.
Definition sample_env : CreateEnv := MkCreateEnv None 7 1000 2000000 3000.
Definition sample_empty : Memory := WithQuota sample_quota NewMemory.
Definition sample_created : Memory := (Create sample_env sample_opts sample_empty).2.
Definition sample_worker : Worker := MkWorker "w1" 1 "".
Definition sample_lease : result JobErr jobs.Lease * Memory :=
  Lease None 9 sample_worker 5000000 sample_created.

Lemma sample_fresh : fresh sample_empty (newID (Ce_rand sample_env)).
Proof. intros id' []%not_elem_of_nil. Qed.

Lemma sample_create : step sample_empty sample_created.
Proof.
  apply (step_create _ sample_env sample_opts
    (Create sample_env sample_opts sample_empty).1).
  - apply sample_fresh.
  - reflexivity.
  - vm_compute. discriminate.
  - apply surjective_pairing.
Qed.

Lemma sample_reachable : reachable sample_quota sample_created.
Proof. apply rtc_once, sample_create. Qed.

Lemma sample_leased_reachable : reachable sample_quota sample_lease.2.
Proof.
  eapply rtc_r; [apply sample_reachable|].
  eapply (step_lease _ None 9 sample_worker 5000000 sample_lease.1); [reflexivity|].
  apply surjective_pairing.
Qed.

(** The stored job and its first task, in a given state of the store. *)
Definition sample_id : string := newID 7.

Lemma reachable_limits_witness :
  reachable sample_quota sample_lease.2 ∧
  (leased_in (jobs_of sample_lease.2) "shop" ≤ 2)%Z ∧
  leased_in (jobs_of sample_lease.2) "shop" = 1%Z.
Proof.
  split; [exact sample_leased_reachable|]. split.
  - destruct (reachable_limits sample_quota sample_lease.2 sample_leased_reachable)
      as (_ & H & _). exact (H "shop").
  - vm_compute. reflexivity.
Defined.

Lemma sample_stored : ∃ j t, byID sample_created !! sample_id = Some j ∧ J_Tasks j !! 0%nat = Some t ∧
  T_State t = StateReady.
Proof.
  destruct (byID sample_created !! sample_id) as [j|] eqn:E; [|vm_compute in E; discriminate E].
  vm_compute in E. injection E as <-. do 2 eexists. repeat split; reflexivity.
Qed.

Lemma reachable_never_validated_witness :
  ∃ j, byID sample_created !! sample_id = Some j ∧ J_Validated j = false ∧ J_Blockers j ≠ [].
Proof.
  destruct sample_stored as (j & t & Hj & _). exists j. split; [exact Hj|].
  exact (reachable_never_validated sample_quota sample_created sample_id j sample_reachable Hj).
Defined.

Lemma reachable_dependencies_witness :
  ∃ j t, byID sample_created !! sample_id = Some j ∧ t ∈ J_Tasks j ∧
    (active t → ∀ d, d ∈ T_DependsOn t →
       ∃ s, stateByPlan (J_Tasks j) !! d = Some s ∧ finished s).
Proof.
  destruct sample_stored as (j & t & Hj & Ht & _). apply list_elem_of_lookup_2 in Ht.
  exists j, t. split; [exact Hj|]. split; [exact Ht|].
  exact (proj1 (reachable_dependencies sample_quota sample_created sample_id j t
                  sample_reachable Hj Ht)).
Defined.

Lemma reachable_coherent_witness :
  ∃ j, byID sample_created !! sample_id = Some j ∧ J_ID j = sample_id ∧ Forall task_ok (J_Tasks j).
Proof.
  destruct sample_stored as (j & t & Hj & _). exists j. split; [exact Hj|].
  destruct (reachable_coherent sample_quota sample_created sample_id j sample_reachable Hj)
    as (Hid & _ & Ht & _). split; [exact Hid|exact Ht].
Defined.

Lemma sample_step : step sample_created sample_lease.2.
Proof.
  eapply (step_lease _ None 9 sample_worker 5000000 sample_lease.1); [reflexivity|].
  apply surjective_pairing.
Qed.

(** The first task of the sample job is leased: it was ready, and its fence is one. *)
Lemma step_refines_witness :
  ∃ j t j' t', byID sample_created !! sample_id = Some j ∧ J_Tasks j !! 0%nat = Some t ∧
    byID sample_lease.2 !! sample_id = Some j' ∧ J_Tasks j' !! 0%nat = Some t' ∧
    steps.task_step t t' ∧ (T_Fence t = 0 ∧ T_Fence t' = 1)%Z.
Proof.
  destruct sample_stored as (j & t & Hj & Ht & _).
  destruct (steps.step_refines sample_quota 1 sample_created sample_lease.2 sample_id j 0 t
              (nsteps_once _ _ sample_create) eq_refl sample_step Hj Ht)
    as (j' & t' & Hj' & _ & Ht' & Hs & _).
  exists j, t, j', t'. repeat (split; [assumption|]).
  vm_compute in Hj, Hj'. injection Hj as <-. injection Hj' as <-.
  vm_compute in Ht, Ht'. injection Ht as <-. injection Ht' as <-. split; reflexivity.
Defined.

(** The lease granted, and the store after its commit. *)
Definition sample_result : plan.StepResult :=
  plan.MkStepResult "env" plan.KindEnv plan.VerdictPrepared ["healthz"] [] [].
Definition sample_committed : result JobErr Task * Memory :=
  Commit None (taskID sample_id 0) (newID 9) sample_result "" sample_lease.2.

Lemma sample_committed_reachable : reachable sample_quota sample_committed.2.
Proof.
  eapply rtc_r; [apply sample_leased_reachable|].
  eapply (step_commit _ (map_to_list (byID sample_lease.2)) None (taskID sample_id 0) (newID 9)
            sample_result "" sample_committed.1); [reflexivity|apply surjective_pairing].
Qed.

Definition sample_canceled : result JobErr Job * Memory :=
  Cancel None sample_id sample_committed.2.

Lemma sample_cancel_steps : rtc step sample_committed.2 sample_canceled.2.
Proof.
  apply rtc_once, (step_cancel _ None sample_id sample_canceled.1). apply surjective_pairing.
Qed.

Lemma finished_is_final_witness :
  ∃ t j', T_State t = StateSucceeded ∧ byID sample_canceled.2 !! sample_id = Some j' ∧
    J_Tasks j' !! 0%nat = Some t.
Proof.
  destruct (byID sample_committed.2 !! sample_id) as [j|] eqn:Hj;
    [|vm_compute in Hj; discriminate Hj].
  destruct (J_Tasks j !! 0%nat) as [t|] eqn:Ht;
    [|vm_compute in Hj; injection Hj as <-; vm_compute in Ht; discriminate Ht].
  assert (T_State t = StateSucceeded) as Hs.
  { vm_compute in Hj. injection Hj as <-. vm_compute in Ht. injection Ht as <-. reflexivity. }
  destruct (finished_is_final sample_quota sample_committed.2 sample_canceled.2 sample_id j 0 t
              sample_committed_reachable sample_cancel_steps Hj Ht) as (j' & Hj' & Ht').
  { apply terminal_inv. left. exact Hs. }
  exists t, j'. split; [exact Hs|]. split; [exact Hj'|exact Ht'].
Defined.

Lemma Lease_grants_witness :
  ∃ l m', sample_lease = (Ok l, m') ∧ L_Fence l = 1%Z ∧
    (countLeased (jobs_of (requeueExpiredLocked sample_created 5000000).1) "w1"
       < worker_slots sample_worker)%Z.
Proof.
  destruct sample_lease as [[l|e] m'] eqn:E; [|vm_compute in E; discriminate E].
  exists l, m'. split; [reflexivity|]. split.
  - vm_compute in E. injection E as <- _. reflexivity.
  - exact (proj1 (Lease_grants sample_quota sample_created None 9 sample_worker 5000000 l m'
                    sample_reachable E)).
Defined.

(** A second worker finds nothing: the other steps wait for the first. *)
Definition sample_idle : result JobErr jobs.Lease * Memory :=
  Lease None 10 (MkWorker "w2" 1 "") 5000001 sample_lease.2.

Lemma Lease_no_ready_witness :
  ∃ m' want, sample_idle = (Err ErrNoReady, m') ∧ wanted (MkWorker "w2" 1 "") = Ok want.
Proof.
  destruct sample_idle as [[l|e] m'] eqn:E; [vm_compute in E; discriminate E|].
  assert (e = ErrNoReady) as -> by (vm_compute in E; injection E as <- _; reflexivity).
  destruct (Lease_no_ready sample_quota sample_lease.2 None 10 (MkWorker "w2" 1 "") 5000001 m'
              sample_leased_reachable E) as (want & Hw & _).
  exists m', want. split; [reflexivity|exact Hw].
Defined.

Lemma Lease_then_Commit_witness :
  ∃ l m' t' m'', sample_lease = (Ok l, m') ∧
    Commit None (T_ID (L_Task l)) (L_Attempt l) sample_result "" m' = (Ok t', m'') ∧
    T_State t' = StateSucceeded.
Proof.
  destruct sample_lease as [[l|e] m'] eqn:E; [|vm_compute in E; discriminate E].
  destruct (Lease_then_Commit sample_quota sample_created None 9 sample_worker 5000000 l m'
              sample_result "" sample_reachable) as (t' & m'' & Hc & _ & _ & _ & Hs & _).
  - reflexivity.
  - exact E.
  - discriminate.
  - discriminate.
  - exists l, m', t', m''. split; [reflexivity|]. split; [exact Hc|exact Hs].
Defined.

Lemma Commit_needs_lease_witness :
  sample_committed.2 ≠ sample_lease.2 ∧
  ∃ id j i t, byID sample_lease.2 !! id = Some j ∧ J_Tasks j !! i = Some t ∧
    T_State t = StateLeased ∧ normalizeID (newID 9) = Some (T_AttemptID t).
Proof.
  assert (sample_committed.2 ≠ sample_lease.2) as Hne.
  { intros E. apply (f_equal (λ m, leased_in (jobs_of m) "shop")) in E.
    vm_compute in E. discriminate E. }
  split; [exact Hne|].
  destruct (Commit_needs_lease sample_quota sample_lease.2 None (taskID sample_id 0) (newID 9)
              sample_result "" sample_committed.1 sample_committed.2 sample_leased_reachable)
    as [E|(id & j & i & t & Hj & Ht & _ & Ha & Hs & _)].
  - apply surjective_pairing.
  - destruct (Hne E).
  - exists id, j, i, t. split; [exact Hj|]. split; [exact Ht|]. split; [exact Hs|exact Ha].
Defined.

Lemma range_order_irrelevant_witness :
  Commit_in (reverse (map_to_list (byID sample_lease.2))) None (taskID sample_id 0) (newID 9)
    sample_result "" sample_lease.2 = sample_committed.
Proof.
  exact (proj1 (range_order_irrelevant sample_quota sample_lease.2
    (reverse (map_to_list (byID sample_lease.2))) None (taskID sample_id 0) (newID 9)
    sample_result "" "w1" 0 sample_leased_reachable (reverse_Permutation _))).
Defined.

Lemma Cancel_effect_witness :
  ∃ j' m', Cancel None sample_id sample_created = (Ok j', m') ∧
    Cancel None sample_id m' = (Ok j', m').
Proof.
  destruct (Cancel None sample_id sample_created) as [[j'|e] m'] eqn:E;
    [|vm_compute in E; discriminate E].
  exists j', m'. split; [reflexivity|].
  destruct (Cancel_effect sample_quota sample_created sample_id j' m' sample_reachable E)
    as (key & j & _ & _ & _ & _ & _ & H). exact H.
Defined.

(** The lease runs out and the task is ready again. *)
Lemma RequeueExpired_complete_witness :
  ∃ j, byID (RequeueExpired None 20000000000 sample_lease.2).2 !! sample_id = Some j ∧
    (∀ t, t ∈ J_Tasks j → T_State t = StateLeased →
       T_LeaseUntil t = 0 ∨ 20000000000 ≤ T_LeaseUntil t)%Z ∧
    has_state (J_Tasks j) StateReady = true.
Proof.
  destruct (byID (RequeueExpired None 20000000000 sample_lease.2).2 !! sample_id) as [j|] eqn:E;
    [|vm_compute in E; discriminate E].
  exists j. split; [reflexivity|]. split.
  - exact (proj1 (RequeueExpired_complete sample_quota sample_lease.2 20000000000 sample_id j
                    sample_leased_reachable E)).
  - vm_compute in E. injection E as <-. reflexivity.
Defined.

Lemma Create_then_Get_witness :
  ∃ j m', Create sample_env sample_opts sample_empty = (Ok j, m') ∧ Get None (J_ID j) m' = Ok j.
Proof.
  destruct (Create sample_env sample_opts sample_empty) as [[j|e] m'] eqn:E;
    [|vm_compute in E; discriminate E].
  exists j, m'. split; [reflexivity|].
  apply (Create_then_Get sample_quota sample_empty sample_env sample_opts j m').
  - apply rtc_refl.
  - reflexivity.
  - apply sample_fresh.
  - exact E.
Defined.

Lemma List_newest_witness :
  ∃ out, List None 10 "shop" sample_created = Ok out ∧ length out = 1%nat ∧
    (1 ≤ clipLimit 10 ≤ MaxList)%Z.
Proof.
  destruct (List None 10 "shop" sample_created) as [out|e] eqn:E; [|discriminate E].
  exists out. split; [reflexivity|]. split.
  - vm_compute in E. injection E as <-. reflexivity.
  - destruct (List_newest None 10 "shop" sample_created out E) as (full & _ & _ & _ & H). exact H.
Defined.

Lemma taskID_identifies_witness :
  normalizeID (taskID (newID 7) 3) = Some (taskID (newID 7) 3) ∧
  taskID (newID 7) 3 ≠ taskID (newID 7) 4.
Proof.
  destruct (taskID_identifies (newID 7) (newID 7) 3 4) as [Hn Hi]; try reflexivity.
  split; [exact Hn|]. intros E. apply Hi in E as [_ E]. discriminate E.
Defined.

Lemma Loop_reaps_witness :
  ∃ m', Loop (Some sample_lease.2) (None, 0%Z) [(None, 20000000000%Z)] = Some m' ∧
    reachable sample_quota m'.
Proof.
  destruct (Loop_reaps sample_quota sample_lease.2 (None, 0%Z) [] 20000000000
              sample_leased_reachable) as (m' & Hl & Hr & _).
  exists m'. split; [exact Hl|exact Hr].
Defined.
