(* ===== verification/ImpactExamples.v ===== *)
(** * An analysed change

    The diff of [DiffExamples.v] against a small source graph and one trace, the
    findings it leads to, and a change whose functions do not all fit into a
    report. *)

From S2P Require Import Prelude GoStrings GoText GoOS Diff DiffReport DiffExamples.
From S2P Require Import Ingest Source Graph Locate Impact Analyze.
Import ingest impact analyze.

Definition sample_nodes : list source.Node :=
  [source.MkNode "file:svc/a.go" "file" "a.go" "svc" "svc/a.go" 0 0;
   source.MkNode "file:svc/b.go" "file" "b.go" "svc" "svc/b.go" 0 0;
   source.MkNode "svc.f" "function" "f" "svc" "svc/a.go" 1 4;
   source.MkNode "svc.g" "function" "g" "svc" "svc/a.go" 5 9;
   source.MkNode "svc.h" "function" "h" "svc" "svc/b.go" 1 9].
Definition sample_edges : list source.Edge :=
  [source.MkEdge "file:svc/a.go" "svc.f" "contains" "syntax";
   source.MkEdge "svc.h" "svc.f" "calls" "types"].
Definition sample_graph : source.Graph := source.index "shop" sample_nodes sample_edges.

Lemma sample_graph_ok : source.graph_ok sample_graph.
Proof.
  split.
  - reflexivity.
  - vm_compute. discriminate.
  - apply (bool_decide_unpack _). reflexivity.
  - intros n Hn. unfold sample_graph, sample_nodes in Hn. cbn in Hn.
    rewrite !elem_of_cons, elem_of_nil in Hn.
    destruct Hn as [->|[->|[->|[->|[->|[]]]]]]; (split; [done|by apply (bool_decide_unpack _)]).
  - intros e He. unfold sample_graph, sample_edges in He. cbn in He.
    rewrite !elem_of_cons, elem_of_nil in He.
    destruct He as [->|[->|[]]]; split_and!; by apply (bool_decide_unpack _).
  - vm_compute. split; discriminate.
Qed.

Definition sample_spans : list Span :=
  [MkSpan "t1" "s1" "" "gateway" "GET /x" "server" "" "get" "/x" 200 "svc.h" "svc/b.go" 0 0;
   MkSpan "t1" "s2" "s1" "shop" "f" "internal" "" "" "" 0 "svc.f" "/examples/shop/svc/a.go" 0 0;
   MkSpan "t1" "s3" "gone" "shop" "f" "internal" "" "" "" 0 "svc.nope" "svc/a.go" 0 0].

Definition sample_loc : locate.Snapshot := locate.Bind (Some sample_graph) sample_spans.
Definition sample_rt : graph.Snapshot := graph.Build sample_spans.
Definition sample_rep : Report := Analyze (Some sample_graph) sample_result sample_loc sample_rt.

Example sample_findings :
  (F_SourceID <$> Rep_Direct sample_rep) = ["svc.f"; "svc.g"] ∧
  (F_SourceID <$> Rep_Likely sample_rep) = ["svc.h"] ∧
  (((λ f, (F_SourceID f, F_Route f, F_Provenance f, F_Via f)) <$> Rep_Runtime sample_rep) =
   [("", "", "observed_parent", "");
    ("", "", "observed_parent", "");
    ("svc.f", "GET /x", "trace_entry", "");
    ("svc.h", "GET /x", "trace_entry_caller", "svc.h -> svc.f")]).
Proof. vm_compute. repeat split. Qed.

Lemma elements_enumerates : enumerates elements.
Proof. intros X x. apply elem_of_elements. Qed.


Definition sample_changed : gset string := ds_ids (direct_phase (index sample_graph) sample_result).
Lemma sample_changed_f : "svc.f" ∈ sample_changed.
Proof. refine (bool_decide_unpack _ _). vm_compute. exact I. Qed.
Lemma sample_unchanged_h : "svc.h" ∉ sample_changed.
Proof. refine (bool_decide_unpack _ _). vm_compute. exact I. Qed.

Lemma Analyze_callers_witness : "svc.h" ∈ F_SourceID <$> Rep_Likely sample_rep.
Proof.
  apply (Analyze_callers elements sample_graph sample_result sample_loc sample_rt "svc.h").
  - apply sample_graph_ok.
  - apply elements_enumerates.
  - vm_compute. lia.
  - split; [exact sample_unchanged_h|]. exists "svc.f". split; [exact sample_changed_f|].
    exists (source.MkEdge "svc.h" "svc.f" "calls" "types"). split; [right; left|]. split; [|split]; reflexivity.
Defined.

Lemma sample_ran_below : ran_below sample_graph sample_spans "svc.f" "GET /x".
Proof.
  eexists (MkSpan "t1" "s2" "s1" "shop" "f" "internal" "" "" "" 0 "svc.f" "/examples/shop/svc/a.go" 0 0), _, _,
    ["s2"; "s1"], _. split_and!.
  - right; left.
  - split; discriminate.
  - reflexivity.
  - vm_compute. reflexivity.
  - vm_compute. reflexivity.
  - reflexivity.
  - eapply graph.lineage_step; [vm_compute; reflexivity|discriminate|].
    eapply graph.lineage_root; vm_compute; reflexivity.
  - exists ["s2"], "s1", []. eexists. split; [reflexivity|]. split; [vm_compute; reflexivity|].
    split; [reflexivity|]. split; [by intros ? ? ?%not_elem_of_nil|reflexivity].
  - reflexivity.
  - discriminate.
Qed.

Lemma Analyze_routes_witness :
  ∃ x, x ∈ Rep_Runtime sample_rep ∧ F_SourceID x = "svc.f" ∧ F_Route x = "GET /x" ∧
    "GET /x" ≠ "" ∧ F_Provenance x = graph.ProvenanceTraceEntry.
Proof.
  apply (Analyze_routes elements sample_graph sample_result sample_spans
    "svc.f" "GET /x" sample_graph_ok elements_enumerates).
  - assert (forallb (λ n, negb (bool_decide (byte 0 ∈ bytes (source.N_ID n)))) (source.g_nodes sample_graph) = true)
      as H by (vm_compute; reflexivity).
    rewrite forallb_True in H. intros n Hn. specialize (H n Hn). clear Hn. by go_inv.
  - vm_compute. discriminate.
  - vm_compute. lia.
  - split; [exact sample_changed_f|exact sample_ran_below].
Defined.

Lemma Build_edges_witness :
  ∃ n, (0 < n)%Z ∧
    (graph.MkEdge "gateway" "shop" n graph.ProvenanceObservedParent ∈ graph.Gs_Edges sample_rt ∨
     (length (graph.Gs_Edges sample_rt) = 2000%nat ∧
      ∀ e, e ∈ graph.Gs_Edges sample_rt → (n ≤ graph.Ed_Count e)%Z)).
Proof.
  apply (graph.Build_edges sample_spans).
  - intros s Hs. unfold sample_spans in Hs. rewrite !elem_of_cons, elem_of_nil in Hs.
    destruct Hs as [->|[->|[->|[]]]]; apply (bool_decide_eq_false (_ ∈ _)); vm_compute; reflexivity.
  - exists "t1", "s2". eexists _, _. split; [vm_compute; reflexivity|].
    split; [vm_compute; reflexivity|]. by split_and!.
Defined.

(** ** A report that is full

    One file with 501 functions of one line each, all of them changed. *)

Definition many_fn (i : nat) : source.Node :=
  source.MkNode ("fn" +:+ Itoa (Z.of_nat i)) "function" ("fn" +:+ Itoa (Z.of_nat i)) "p" "p/a.go"
    (Z.of_nat i) (Z.of_nat i).
Definition many_graph : source.Graph :=
  source.index "m" (source.MkNode "file" "file" "a.go" "p" "p/a.go" 0 0 :: (many_fn <$> seq 1 501)) [].
Definition many_diff : diff.Diff :=
  diff.MkDiff [diff.MkFile "p/a.go" "modify" false (Z.of_nat <$> seq 1 501)].
Definition many_changes : Changes :=
  Classify (Analyze (Some many_graph) many_diff (locate.Bind (Some many_graph) []) (graph.Build [])).

(** The cap on findings drops a changed function without a trace: line 501 is changed
    and lies in a function, the function is not reported as bound, and the path
    does not count as unanalyzed. *)
Theorem finding_cap_drops_function :
  501%Z ∈ (diff.D_Files many_diff ≫= diff.Fl_Lines) ∧
  "fn501" ∉ Ch_Bound many_changes ∧ Ch_Unanalyzed many_changes = [].
Proof.
  split; [|split].
  - apply (bool_decide_eq_true (_ ∈ _)). vm_compute. reflexivity.
  - apply (bool_decide_eq_false (_ ∈ _)). vm_compute. reflexivity.
  - vm_compute. reflexivity.
Qed.
