(* ===== verification/JobPgExamples.v ===== *)
(** * The Postgres job store at work

    The job of [Examples.v] in the Postgres store: created, a task leased and then
    canceled while it is leased. *)

From S2P Require Import Prelude GoStrings Net Ingest Replay Impact Plan Validate Jobs JobStore JobPg.
From S2P Require Import Examples.
Import jobs.

#[local] Existing Instance sample_net.
#[local] Existing Instance sample_json.

Definition pg_empty : postgres.Postgres := postgres.WithQuota sample_quota (postgres.NewPostgres ∅).
Definition pg_created : postgres.Postgres := (postgres.Create None sample_env sample_opts pg_empty).2.
Definition pg_lease : result JobErr jobs.Lease * postgres.Postgres :=
  postgres.Lease None 9 sample_worker 5000000 pg_created.
Definition pg_canceled : postgres.Postgres := (postgres.Cancel None sample_id pg_lease.2).2.

Lemma pg_created_reachable : postgres.reachable sample_quota pg_created.
Proof.
  apply rtc_once. eapply (postgres.step_create _ None sample_env sample_opts).
  - intros id [r Hr]. cbn [pg_empty postgres.WithQuota postgres.NewPostgres postgres.table] in Hr.
    by rewrite lookup_empty in Hr.
  - reflexivity.
  - vm_compute. discriminate.
  - apply surjective_pairing.
Qed.

Lemma pg_leased_reachable : postgres.reachable sample_quota pg_lease.2.
Proof.
  eapply rtc_r; [apply pg_created_reachable|].
  eapply (postgres.step_lease _ None 9 sample_worker 5000000). apply surjective_pairing.
Qed.

Lemma pg_canceled_reachable : postgres.reachable sample_quota pg_canceled.
Proof.
  eapply rtc_r; [apply pg_leased_reachable|].
  eapply (postgres.step_cancel _ None sample_id). apply surjective_pairing.
Qed.

Lemma pg_limits_witness :
  (leased_in (postgres.lockJobs pg_lease.2) "shop" ≤ 2)%Z ∧
  leased_in (postgres.lockJobs pg_lease.2) "shop" = 1%Z.
Proof.
  split.
  - destruct (postgres.pg_limits sample_quota pg_lease.2 pg_leased_reachable) as (_ & H & _).
    exact (H "shop").
  - vm_compute. reflexivity.
Defined.

Lemma pg_refines_memory_witness :
  (memory.Commit None (taskID sample_id 0) (newID 9) sample_result "" (postgres.open_mem pg_lease.2)).1 =
  (postgres.Commit None (taskID sample_id 0) (newID 9) sample_result "" pg_lease.2).1.
Proof.
  destruct (postgres.pg_refines_memory sample_quota pg_lease.2 pg_leased_reachable) as (H & _).
  apply (H (taskID sample_id 0) (newID 9) sample_result "").
Defined.

Definition pg_row : postgres.Row := default (postgres.row_of memory.zeroJob) (postgres.table pg_canceled !! sample_id).
Definition pg_reaped : postgres.Postgres := (postgres.RequeueExpired None 20000000000 pg_canceled).2.

Lemma pg_reaped_steps : rtc postgres.step pg_canceled pg_reaped.
Proof.
  apply rtc_once, (postgres.step_requeue _ None 20000000000 (postgres.RequeueExpired None 20000000000 pg_canceled).1).
  apply surjective_pairing.
Qed.

(** The lease of the canceled job has run out, and the task is leased still. *)
Lemma pg_ended_is_frozen_witness :
  ∃ r', postgres.table pg_reaped !! sample_id = Some r' ∧
    T_State <$> (J_Tasks (postgres.Row_payload r') !! 0%nat) = Some StateLeased.
Proof.
  assert (postgres.table pg_canceled !! sample_id = Some pg_row) as Hr.
  { unfold pg_row. destruct (postgres.table pg_canceled !! sample_id) as [r|] eqn:E; [reflexivity|].
    vm_compute in E. discriminate E. }
  destruct (postgres.pg_ended_is_frozen sample_quota pg_canceled pg_reaped sample_id pg_row
    pg_canceled_reachable pg_reaped_steps Hr) as (r' & Hr' & Ht & _).
  - vm_compute. reflexivity.
  - exists r'. split; [exact Hr'|]. rewrite Ht. vm_compute. reflexivity.
Defined.

(** The two stores differ on a lease of a canceled job: the in-memory store takes
    the result, the Postgres store does not find the task. *)
Theorem stores_differ_after_cancel :
  (∃ t, (memory.Commit None (taskID sample_id 0) (newID 9) sample_result ""
     (memory.Cancel None sample_id sample_lease.2).2).1 = Ok t ∧ T_State t = StateSucceeded) ∧
  (postgres.Commit None (taskID sample_id 0) (newID 9) sample_result "" pg_canceled).1 = Err ErrNotFound.
Proof.
  split; [|vm_compute; reflexivity]. eexists. split; [vm_compute; reflexivity|reflexivity].
Qed.

(** The stores of the same job agree until then. *)
Lemma pg_finished_is_final_witness :
  ∃ r' t, postgres.table (postgres.Cancel None sample_id
       (postgres.Commit None (taskID sample_id 0) (newID 9) sample_result "" pg_lease.2).2).2 !! sample_id
     = Some r' ∧ T_State t = StateSucceeded ∧ J_Tasks (postgres.Row_payload r') !! 0%nat = Some t.
Proof.
  set (pc := postgres.Commit None (taskID sample_id 0) (newID 9) sample_result "" pg_lease.2).
  destruct (postgres.table pc.2 !! sample_id) as [r|] eqn:Hr; [|vm_compute in Hr; discriminate Hr].
  assert (postgres.reachable sample_quota pc.2) as Hreach.
  { eapply rtc_r; [apply pg_leased_reachable|].
    eapply (postgres.step_commit _ None (taskID sample_id 0) (newID 9) sample_result "" pc.1).
    apply surjective_pairing. }
  destruct (J_Tasks (postgres.Row_payload r) !! 0%nat) as [t|] eqn:Ht;
    [|vm_compute in Hr; injection Hr as <-; vm_compute in Ht; discriminate Ht].
  assert (T_State t = StateSucceeded) as Hs.
  { vm_compute in Hr. injection Hr as <-. vm_compute in Ht. injection Ht as <-. reflexivity. }
  destruct (postgres.pg_finished_is_final sample_quota pc.2 (postgres.Cancel None sample_id pc.2).2
    sample_id r 0 t Hreach) as (r' & Hr' & Ht').
  - apply rtc_once, (postgres.step_cancel _ None sample_id (postgres.Cancel None sample_id pc.2).1).
    apply surjective_pairing.
  - exact Hr.
  - exact Ht.
  - apply terminal_inv. left. exact Hs.
  - exists r', t. split; [exact Hr'|]. split; [exact Hs|exact Ht'].
Defined.
