(* ===== verification/ApiExamples.v ===== *)
(** * Evidence, runs and requests at work

    The validated execution of [Examples.v] as an artifact, inserted in both stores of
    runs and posted to a server, and small exports, windows and requests. *)

From S2P Require Import Prelude GoStrings GoText Net Ingest Otlp Spans Source Graph Locate Replay Impact.
From S2P Require Import Diff Analyze Plan Validate Jobs JobStore Evidence Runs Api Examples.
Import validate evidence runs otlp api.

#[local] Existing Instance sample_net.
#[local] Existing Instance sample_json.

(** ** Instances *)

Fixpoint ones (k : nat) : string := match k with O => "" | S k => String (byte 49) (ones k) end.

(** A digest that tells one text from the others. *)
Definition sample_digest (s : string) : string := if s == "secret" then ones 64 else zeros 64.
#[local] Instance sample_sha : GoSHA.
Proof. refine {| sha256_hex := sample_digest |}. intros s. unfold sample_digest. by case_bool_decide. Defined.

#[local] Instance sample_otlp : GoOTLP := {
  proto_Unmarshal := λ _, Err "bad";
  protojson_Unmarshal := λ _, Ok [];
  url_EscapedPath := URL_Path;
}.

#[local] Instance sample_codec : ApiCodec := {
  opts_of_json := λ _, Err "bad";
  gunzip := λ s e, Ok (s, e);
  url_PathUnescape := λ s, s;
}.

(** ** An artifact *)

Definition sample_runtime : impact.Finding :=
  impact.MkFinding "" "t" "s" "e" "Handle" "svc/a.go" "svc.Handle" "shop" "" "GET /items" 10 "" "trace_entry".
Definition sample_impact : impact.Report :=
  impact.MkReport [] ["svc/a.go"] [sample_finding] [] [sample_runtime] [].
Definition sample_evidence_input : evidence.Input :=
  evidence.MkInput (sample_built "t1") (sample_built "t2") 5000000000 "http://a" "http://b" "shop"
    sample_workload sample_impact sample_dag sample_evidence.

Definition encode_only : EvidenceJSON :=
  {| artifact_json := λ _, Ok "text"; artifact_indent := λ _, Ok "{}"; artifact_decode := λ _, Err "bad" |}.
Definition sample_artifact : Artifact := @Build _ _ encode_only 0 sample_evidence_input.

#[local] Instance sample_evidence_json : EvidenceJSON :=
  {| artifact_json := λ _, Ok "text"; artifact_indent := λ _, Ok "{}"; artifact_decode := λ _, Ok sample_artifact |}.

Lemma sample_artifact_build : Build 0 sample_evidence_input = sample_artifact.
Proof. vm_compute. reflexivity. Qed.

Definition sample_coverage : Coverage :=
  MkCoverage [] [impact.MkRouteAttribution "GET /items" "trace_entry" ""] ["GET /items"] ["GET /items"] [] [].

Lemma Build_coverage_witness :
  A_Coverage (Build 0 sample_evidence_input) = Some sample_coverage ∧
  exercised (decision_input (Build 0 sample_evidence_input)) "GET /items".
Proof.
  assert (A_Coverage (Build 0 sample_evidence_input) = Some sample_coverage) as Hc by (vm_compute; reflexivity).
  split; [exact Hc|]. destruct (Build_coverage 0 sample_evidence_input sample_coverage Hc) as (_ & _ & He & _).
  apply He. left.
Defined.

Lemma sample_check : Check sample_artifact = Ok tt.
Proof. vm_compute. reflexivity. Qed.

Lemma sample_validated : A_Validated sample_artifact = true.
Proof. vm_compute. reflexivity. Qed.

Lemma sample_recordable : recordable sample_artifact.
Proof.
  apply recordable_iff. split; [by apply (proj1 (Check_Verify _) sample_check)|]. split; [intros _; exact sample_check|].
  vm_compute. discriminate.
Qed.

Lemma sample_storable : storable sample_artifact.
Proof.
  split; [|vm_compute; reflexivity].
  assert (plan.Ev_Overall (A_Result sample_artifact) = "match") as -> by (vm_compute; reflexivity). left.
Qed.

(** ** Stores of runs *)

Definition sample_rec : RunRecord := MkRecord "" 0 "" "" false "" "" "" [] false (Some sample_artifact).

Lemma same_empty : same memory_runs.NewMemory (postgres_runs.NewPostgres ∅).
Proof.
  split; [apply NewRuns_ok|apply map_Forall_empty|apply map_Forall_empty|]. symmetry. apply fmap_empty.
Qed.

Lemma stores_agree_witness :
  same (memory_runs.Insert None sample_rec memory_runs.NewMemory).2
    (postgres_runs.Insert None sample_rec (postgres_runs.NewPostgres ∅)).2 ∧
  is_ok (postgres_runs.Insert None sample_rec (postgres_runs.NewPostgres ∅)).1 = true.
Proof.
  split; [|vm_compute; reflexivity].
  apply (stores_agree memory_runs.NewMemory (postgres_runs.NewPostgres ∅) same_empty).
  intros a [= <-]. exact sample_storable.
Defined.

(** Inserting the same evidence again answers with a record that has lost its service
    in the Postgres store. *)
Definition pg_once : postgres_runs.Postgres :=
  (postgres_runs.Insert None sample_rec (postgres_runs.NewPostgres ∅)).2.
Theorem reinsert_drops_service :
  (∃ r, (postgres_runs.Insert None sample_rec (postgres_runs.NewPostgres ∅)).1 = Ok r ∧ Rec_Service r = "shop") ∧
  (∃ r, (postgres_runs.Insert None sample_rec pg_once).1 = Ok r ∧ Rec_Service r = "").
Proof. split; eexists; split; vm_compute; reflexivity. Qed.

(** ** A server *)

Definition sample_server (token : string) : Server ingest.Memory postgres_runs.Postgres memory.Memory :=
  MkServer token "" None "dev" None None (Some (postgres_runs.NewPostgres ∅)) None.
Definition post_run : Request :=
  MkRequest "POST" "/v1/runs" "/v1/runs" (λ _, "") (λ _, "") (MkReader "{}" None) None.
Definition sample_job_env : JobEnv := MkJobEnv 1 0 0 0.

Lemma posted_run :
  ∃ x, shown_runs (ServeHTTP sample_job_env (sample_server "") post_run).1 = [x] ∧ Rc_Validated x = true.
Proof. eexists. split; vm_compute; reflexivity. Qed.

Lemma shown_validated_is_earned_witness :
  ∃ r sv' x, ServeHTTP sample_job_env (sample_server "") post_run = (r, sv') ∧
    x ∈ shown_runs r ∧ Rc_Validated x = true ∧ earned x.
Proof.
  destruct posted_run as (x & Hx & Hv).
  destruct (ServeHTTP sample_job_env (sample_server "") post_run) as [r sv'] eqn:E. exists r, sv', x.
  assert (x ∈ shown_runs r) as Hin by (change r with (r, sv').1; rewrite Hx; left).
  split; [reflexivity|]. split; [exact Hin|]. split; [exact Hv|].
  assert (runs_good (sample_server "")) as Hg by exact (map_Forall_empty row_ok).
  destruct (shown_validated_is_earned sample_job_env (sample_server "") post_run r sv' Hg E) as [_ H].
  exact (H x Hin Hv).
Defined.

Lemma no_token_no_effect_witness :
  ServeHTTP sample_job_env (sample_server "secret") post_run = (RError 401 "unauthorized", sample_server "secret") ∧
  blank (RError 401 "unauthorized") = true.
Proof.
  assert (ServeHTTP sample_job_env (sample_server "secret") post_run =
    (RError 401 "unauthorized", sample_server "secret")) as E by (vm_compute; reflexivity).
  split; [exact E|].
  assert (wf_request post_run) as Hwf by (vm_compute; reflexivity).
  assert (lacks_token (sample_server "secret") post_run) as Hno by (split; vm_compute; discriminate).
  destruct (no_token_no_effect sample_job_env (sample_server "secret") post_run _ _ Hwf Hno E)
    as [[_ Hb]|[Hr _]]; [exact Hb|].
  vm_compute in Hr. discriminate Hr.
Defined.

(** ** Exports and windows *)

Definition sample_id16 : string := of_bytes (replicate 16 (byte 7)).
Definition sample_id8 : string := of_bytes (replicate 8 (byte 9)).
Definition sample_pb : PbSpan :=
  MkPbSpan sample_id16 sample_id8 "" "GET /items" 2 1000 3000 [("http.route", Some (StringValue "/items"))] None.
Definition sample_export : ExportRequest :=
  [MkResourceSpans [("service.name", Some (StringValue "shop"))] [[sample_pb]]].

Lemma Normalize_spans_witness : ∃ s, s ∈ Normalize (Some sample_export) ∧ span_ok s.
Proof.
  destruct (Normalize (Some sample_export)) as [|s l] eqn:E; [vm_compute in E; discriminate E|].
  exists s. assert (s ∈ Normalize (Some sample_export)) as Hs by (rewrite E; left). split; [by rewrite <- E|].
  apply (Normalize_spans sample_export s s); [|exact Hs|exact Hs].
  intros service sp Hin. unfold sample_export, all_spans in Hin. cbn in Hin.
  apply list_elem_of_singleton in Hin. injection Hin as _ ->. cbn. lia.
Defined.

Lemma sanitizeText_clean_witness :
  sanitizeText (String (byte 27) "[31mred") 512 = "red" ∧
  forallb printable (bytes (sanitizeText (String (byte 27) "[31mred") 512)) = true.
Proof.
  split; [vm_compute; reflexivity|]. apply (sanitizeText_clean (String (byte 27) "[31mred") 512). lia.
Defined.

Definition one_span : ingest.Memory := ingest.UpsertSpans ingest.NewMemory [real_span].

Lemma windows_agree_witness :
  postgres_spans.ListTraceWindow None 1 "" (postgres_spans.MkPostgres [real_span]) = Ok [real_span].
Proof.
  rewrite (windows_agree one_span).
  - vm_compute. reflexivity.
  - cbn. split.
    + vm_compute. lia.
    + intros s s' Hs Hs' _ _. apply list_elem_of_singleton in Hs as ->. by apply list_elem_of_singleton in Hs' as ->.
    + intros s ->%list_elem_of_singleton. discriminate.
    + intros id id' Hid Hid' _. cbn in Hid, Hid'. apply list_elem_of_singleton in Hid as ->.
      by apply list_elem_of_singleton in Hid' as ->.
    + intros s ->%list_elem_of_singleton. vm_compute. reflexivity.
  - vm_compute. reflexivity.
Defined.
