(* ===== verification/GitRev.v ===== *)
(** * Revisions of a repository: [internal/gitrev]

    [Module gitrun] models [gitrev.go] and [snapshot.go]: which git commands are
    run, with which environment, arguments and input, and what their outputs
    become. Git itself is the class [GoGit]: a command is a function of the world,
    which holds the repository and the file tree. Functions that run commands are
    computations of the state and error monad [GM]. *)

From S2P Require Import Prelude GoStrings GoText GoOS Net Ingest Replay Impact Plan Validate.
Import gitrev.

(** ** Go's [os] and [path/filepath], continued *)

Module osx.
Import os.

(** Lookup of a path from the working directory [wd]. *)
Definition lookup_from (t : tree) (wd : list string) (follow : bool) (p : string)
    : option (list string) :=
  resolve maxLinks t follow (if HasPrefix p "/" then [] else wd) (elems p).

Definition Stat_from (t : tree) (wd : list string) (p : string) : option node :=
  q ← lookup_from t wd true p; entry t q.

(** [filepath.EvalSymlinks] of an absolute path; it follows up to 255 links. *)
Definition EvalSymlinks (t : tree) (p : string) : option string :=
  q ← resolve 255 t true [] (elems p);
  _ ← entry t q;
  Some (abs_path q).

(** [filepath.Rel]. Two cleaned paths are compared element by element; what is
    left of the base becomes [..] elements. *)
Fixpoint strip_common (bs ts : list string) : list string * list string :=
  match bs, ts with
  | b :: bs', t :: ts' => if b == t then strip_common bs' ts' else (bs, ts)
  | _, _ => (bs, ts)
  end.

Definition rel_elems (p : string) : list string := filter (λ e, e ≠ "") (elems p).

Definition Rel (basepath targpath : string) : option string :=
  let base := Clean basepath in
  let targ := Clean targpath in
  if targ == base then Some "."
  else
    let base := if base == "." then "" else base in
    if negb (Bool.eqb (HasPrefix base "/") (HasPrefix targ "/")) then None
    else match strip_common (rel_elems base) (rel_elems targ) with
         | (b :: bs, ts) =>
             if (b == "..") && negb (ts == []) then None
             else Some (Join (((λ _, "..") <$> (b :: bs)) ++ ts) "/")
         | ([], ts) => Some (Join ts "/")
         end.

(** [os.RemoveAll]: the entry and everything below it. *)
Definition remove_below (t : tree) (q : list string) : tree :=
  filter (λ kv, ¬ (q `prefix_of` kv.1)) t.
Definition RemoveAll (t : tree) (p : string) : tree :=
  match lookup_path t false p with
  | Some q => remove_below t q
  | None => t
  end.

(** Opens a new file for writing ([O_CREATE|O_EXCL]); gives its physical path. *)
Definition OpenExcl (t : tree) (p : string) : option (list string * tree) :=
  q ← lookup_path t false p;
  match entry t q with
  | None => Some (q, <[q := NFile ""]> t)
  | Some _ => None
  end.

(** *** Names in directories that are reached through directories *)

Definition reached (t : tree) (ds : list string) : Prop :=
  ∀ q, q `prefix_of` ds → q ≠ ds → entry t q = Some NDir.

Lemma resolve_reached links t dir todo :
  reached t (dir ++ todo) → Forall plain todo → resolve links t false dir todo = Some (dir ++ todo).
Proof.
  intros Hu Hp. revert dir Hu. induction Hp as [|e todo He Hp IH]; intros dir Hu.
  { by rewrite resolve_nil, app_nil_r. }
  destruct todo as [|e' todo].
  - destruct He as (H1 & H2 & H3). destruct links; simpl; rewrite !bool_decide_eq_false_2 by done;
      simpl; by destruct (t !! _) as [[]|].
  - assert (t !! (dir ++ [e]) = Some NDir) as Hd.
    { rewrite <- entry_ne by (by destruct dir). apply Hu.
      - exists (e' :: todo). by rewrite <- app_assoc.
      - intros Heq%app_inv_head. discriminate. }
    rewrite resolve_plain by (done || by rewrite Hd). rewrite Hd, IH; by rewrite <- app_assoc.
Qed.

Lemma lookup_reached t ds :
  reached t ds → Forall plain ds → Forall slashless ds → ds ≠ [] →
  lookup_path t false (abs_path ds) = Some ds.
Proof.
  intros Hu Hp Hs Hne. unfold lookup_path. rewrite elems_abs, bool_decide_eq_false_2 by done.
  change (resolve maxLinks t false [] ds = Some ds). by apply (resolve_reached _ t [] ds).
Qed.

(** A directory that can be made. *)
Record creatable (t : tree) (ds : list string) : Prop := {
  cr_plain : Forall plain ds;
  cr_slash : Forall slashless ds;
  cr_up : reached t ds;
  cr_new q : ds `prefix_of` q → t !! q = None;
  cr_ne : ds ≠ [];
}.

Lemma Mkdir_creatable t ds :
  creatable t ds → Mkdir t (abs_path ds) = Some (<[ds := NDir]> t).
Proof.
  intros [Hp Hs Hu Hn Hne]. unfold Mkdir. rewrite lookup_reached by done. simpl.
  by rewrite entry_ne, Hn.
Qed.

Lemma real_dir_made t ds : creatable t ds → real_dir (<[ds := NDir]> t) ds.
Proof.
  intros [Hp Hs Hu Hn Hne]. split.
  - intros q Hq. destruct (decide (q = ds)) as [->|Hd].
    + rewrite entry_ne by done. by rewrite lookup_insert_eq.
    + specialize (Hu q Hq Hd). unfold entry in *. case_bool_decide; [done|].
      by rewrite lookup_insert_ne.
  - intros q target Hq. destruct (decide (q = ds)) as [->|Hd].
    + by rewrite lookup_insert_eq.
    + by rewrite lookup_insert_ne, Hn.
Qed.

(** Making a directory, changing it inside and removing it changes nothing. *)
Lemma RemoveAll_made t ds t' :
  creatable t ds → (∀ q, ¬ inside ds q → t' !! q = <[ds := NDir]> t !! q) →
  RemoveAll t' (abs_path ds) = t.
Proof.
  intros [Hp Hs Hu Hn Hne] Hw. unfold RemoveAll. rewrite lookup_reached; [|intros q Hq Hd|done..].
  - apply map_eq. intros q. unfold remove_below. destruct (decide (ds `prefix_of` q)) as [Hq|Hq].
    + rewrite Hn by done. apply map_lookup_filter_None. right. naive_solver.
    + transitivity (t' !! q); [|rewrite Hw, lookup_insert_ne; [done|by intros ->|by intros []]].
      destruct (t' !! q) as [n|] eqn:E; [|by apply map_lookup_filter_None; left].
      by apply map_lookup_filter_Some.
  - specialize (Hu q Hq Hd). unfold entry in *. case_bool_decide; [done|].
    rewrite Hw; [by rewrite lookup_insert_ne|].
    intros [Hi _]. apply Hd. by apply (anti_symm prefix).
Qed.

End osx.

(** ** Running git *)

(** What [exec.Cmd.Output] reports of a command that failed: its text, the exit
    code when the process ran and exited ([*exec.ExitError]) and what it wrote to
    its standard error. *)
Record ExecErr := MkExecErr {
  E_Text : string;
  E_Exit : option Z;
  E_Stderr : string;
}.

Record Cmd := MkCmd {
  C_Env : list string;
  C_Args : list string;
  C_Stdin : option string;
}.

(** Git: what a command prints and how it changes the world. [Repository] is what
    git keeps (objects, references, settings, indexes). *)
Class GoGit := {
  Repository : Type;
  git : Cmd → Repository * os.tree → string * option ExecErr * (Repository * os.tree);
}.

Module gitrun.

Definition maxDiffBytes : Z := Z.shiftl 1 20.
Definition maxChangedPrint : nat := 20.
Definition maxCopyBytes : Z := Z.shiftl 80 20.

(** [ErrText text exit]: a formatted error; [exit] is the code of the
    [*exec.ExitError] it wraps, if any. *)
Inductive Error :=
| ErrNotGit
| ErrText (text : string) (exit : option Z).

Definition error_text (e : Error) : string :=
  match e with
  | ErrNotGit => "gitrev: not a git work tree"
  | ErrText text _ => text
  end.
Definition error_exit (e : Error) : option Z :=
  match e with
  | ErrNotGit => None
  | ErrText _ exit => exit
  end.
(** [fmt.Errorf(prefix + "%w", e)]. *)
Definition wrap (prefix : string) (e : Error) : Error :=
  ErrText (prefix +:+ error_text e) (error_exit e).
Definition errorf (text : string) : Error := ErrText text None.

(** The repository root and the module directory in it. *)
Record Repo := MkRepo { Root : string; Rel : string }.

Section git.
  Context `{GoGit}.

Definition World : Type := Repository * os.tree.

(** Computations that may fail and change the world either way. *)
Definition GM (A : Type) : Type := World → result Error A * World.

Definition gret {A} (a : A) : GM A := λ w, (Ok a, w).
Definition gfail {A} (e : Error) : GM A := λ w, (Err e, w).
Definition gbind {A B} (m : GM A) (k : A → GM B) : GM B :=
  λ w, match m w with
       | (Ok a, w') => k a w'
       | (Err e, w') => (Err e, w')
       end.
(** Handles the error of [m]; the world it has left stays. *)
Definition gtry {A B} (m : GM A) (k : result Error A → GM B) : GM B :=
  λ w, let '(r, w') := m w in k r w'.
Definition glift {A} (r : result Error A) : GM A := λ w, (r, w).
Definition files : GM os.tree := λ w, (Ok w.2, w).

Lemma gbind_Ok {A B} (m : GM A) (k : A → GM B) b w w' :
  gbind m k w = (Ok b, w') ↔ ∃ a w1, m w = (Ok a, w1) ∧ k a w1 = (Ok b, w').
Proof.
  unfold gbind. split; [|by intros (a & w1 & -> & ?)].
  destruct (m w) as [[a|e] w1]; [eauto|done].
Qed.

End git.

Notation "'let!' x ':=' m 'in' k" := (gbind m (λ x, k))
  (at level 10, x binder, m at level 100, k at level 200,
   format "'[v' 'let!'  x  ':='  m  'in' '/' k ']'") : go_scope.
Notation "'do!' m 'in' k" := (gbind m (λ _, k))
  (at level 10, m at level 100, k at level 200) : go_scope.

(** ** gitrev.go: parsing what [git status] prints *)

Definition porcelainPath (line : string) : string :=
  if (len line <? 4)%Z then ""
  else
    let rest := TrimSpace (str_drop 3 line) in
    let rest := match Index rest " -> " with
                | Some i => str_drop (i + 4) rest
                | None => rest
                end in
    let rest := Trim rest (String (byte 34) "") in
    if (rest == "") || Contains rest ".." then "" else rest.

Fixpoint collect_paths (paths : list string) (lines : list string) : list string :=
  match lines with
  | [] => paths
  | line :: lines =>
      let p := porcelainPath line in
      if p == "" then collect_paths paths lines
      else
        let paths := paths ++ [p] in
        if (maxChangedPrint <=? length paths)%nat then paths else collect_paths paths lines
  end.
Definition porcelainPaths (out : string) : list string := collect_paths [] (Split out nl).

(** ** snapshot.go: commands *)

Definition objectID (s : string) : bool :=
  ((len s =? 40)%Z || (len s =? 64)%Z) && all_hex s.

(** The variables of the environment that would redirect git. *)
Definition redirecting : list string :=
  ["GIT_INDEX_FILE"; "GIT_OPTIONAL_LOCKS"; "GIT_LITERAL_PATHSPECS"; "GIT_GLOB_PATHSPECS";
   "GIT_NOGLOB_PATHSPECS"; "GIT_ICASE_PATHSPECS"].

Definition env_key (v : string) : string := before_byte v (byte 61).

Definition command_env (environ : list string) (index : string) : list string :=
  filter (λ v, env_key v ∉ redirecting) environ ++
  ["GIT_OPTIONAL_LOCKS=0"; "GIT_LITERAL_PATHSPECS=1"] ++
  (if index == "" then [] else ["GIT_INDEX_FILE=" +:+ index]).

Definition command (environ : list string) (r : Repo) (index : string) (input : option string)
    (args : list string) : Cmd :=
  MkCmd (command_env environ index) ("-C" :: Root r :: args) input.

(** The command an error names: the first argument after the [-c] settings. *)
Fixpoint command_label (label : string) (args : list string) : string :=
  match args with
  | c :: _ :: ((x :: _) as rest) => if c == "-c" then command_label x rest else label
  | _ => label
  end.

Definition run_error (args : list string) (err : ExecErr) : Error :=
  let label := command_label (default "" (head args)) args in
  let plain := ErrText ("gitrev: " +:+ label +:+ ": " +:+ E_Text err) (E_Exit err) in
  match E_Exit err with
  | Some _ =>
      let detail := str_take 512 (TrimSpace (E_Stderr err)) in
      if detail == "" then plain
      else ErrText ("gitrev: " +:+ label +:+ ": " +:+ E_Text err +:+ ": " +:+ detail) (E_Exit err)
  | None => plain
  end.

Section run.
  Context `{GoGit}.
  (** The process's environment. *)
  Context (environ : list string).

(** [run] keeps the output beside the error, as the Go function does; [run_ok] is
    for the callers that only use the output of a command that succeeds. *)
Definition run (r : Repo) (index : string) (input : option string) (args : list string)
    (w : World) : string * option Error * World :=
  let '(out, err, w) := git (command environ r index input args) w in
  (out, run_error args <$> err, w).

Definition run_ok (r : Repo) (index : string) (input : option string) (args : list string)
    : GM string :=
  λ w, match run r index input args w with
       | (out, None, w) => (Ok out, w)
       | (_, Some e, w) => (Err e, w)
       end.

(** The plain commands of gitrev.go, with the environment as it is. *)
Definition exec_plain (dir : string) (args : list string) (w : World)
    : string * option ExecErr * World :=
  git (MkCmd environ ("-C" :: dir :: args) None) w.

Definition showToplevel (dir : string) : GM string :=
  λ w, match exec_plain dir ["rev-parse"; "--show-toplevel"] w with
       | (out, None, w) => (Ok (TrimSpace out), w)
       | (_, Some _, w) => (Ok "", w)
       end.

Definition unbornHEAD (root : string) : GM bool :=
  λ w, match exec_plain root ["symbolic-ref"; "--quiet"; "HEAD"] w with
       | (_, Some _, w) => (Ok false, w)
       | (ref, None, w) =>
           let '(_, err, w) := exec_plain root ["show-ref"; "--verify"; "--quiet"; TrimSpace ref] w in
           (Ok (match err with
                | Some e => bool_decide (E_Exit e = Some 1%Z)
                | None => false
                end), w)
       end.

Definition locate (ctx : option string) (wd : list string) (path : string) : GM (string * string) :=
  match ctx with
  | Some err => gfail (errorf err)
  | None =>
      let path := if TrimSpace path == "" then "." else path in
      let! t := files in
      match osx.Stat_from t wd path with
      | None => gfail (errorf "gitrev: stat")
      | Some (os.NFile _) | Some (os.NLink _) => gfail (errorf "gitrev: not a directory")
      | Some os.NDir =>
          match os.Abs (Some (os.abs_path wd)) path with
          | None => gfail (errorf "gitrev: abs")
          | Some abs =>
              let abs := default abs (osx.EvalSymlinks t abs) in
              let! root := showToplevel abs in
              if root == "" then gfail ErrNotGit
              else
                let! t := files in
                let root := default root (osx.EvalSymlinks t root) in
                let rel := match osx.Rel root abs with
                           | Some r => if r == "" then "." else r
                           | None => "."
                           end in
                if (rel != ".") && ((rel == "..") || HasPrefix rel "../") then gfail ErrNotGit
                else gret (root, rel)
          end
      end
  end.

Definition Open (ctx : option string) (wd : list string) (dir : string) : GM Repo :=
  let! rr := locate ctx wd dir in gret (MkRepo rr.1 rr.2).

Definition status (root rel : string) : GM string :=
  λ w, match exec_plain root ["status"; "--porcelain"; "--untracked-files=all"; "--"; rel] w with
       | (out, None, w) => (Ok out, w)
       | (_, Some e, w) => (Err (ErrText ("gitrev: status: " +:+ E_Text e) (E_Exit e)), w)
       end.

(** The first component is the commit, also when the status fails. *)
Definition State (ctx : option string) (wd : list string) (path : string) (w : World)
    : string * result Error bool * World :=
  match locate ctx wd path w with
  | (Err ErrNotGit, w) => ("", Ok false, w)
  | (Err e, w) => ("", Err e, w)
  | (Ok (root, rel), w) =>
      let '(shaOut, err, w) := exec_plain root ["rev-parse"; "HEAD"] w in
      let '(sha, w) :=
        match err with
        | None => (Ok (TrimSpace shaOut), w)
        | Some e =>
            match unbornHEAD root w with
            | (Ok true, w) => (Ok "", w)
            | (_, w) => (Err (ErrText ("gitrev: rev-parse: " +:+ E_Text e) (E_Exit e)), w)
            end
        end in
      match sha with
      | Err e => ("", Err e, w)
      | Ok sha =>
          match status root rel w with
          | (Ok stOut, w) => (sha, Ok (0 <? len (TrimSpace stOut))%Z, w)
          | (Err e, w) => (sha, Err e, w)
          end
      end
  end.

Definition ChangedPaths (ctx : option string) (wd : list string) (path : string)
    : GM (list string) :=
  gtry (locate ctx wd path) (λ res,
    match res with
    | Err ErrNotGit => gret []
    | Err e => gfail e
    | Ok (root, rel) => let! stOut := status root rel in gret (porcelainPaths stOut)
    end).

(** ** snapshot.go: trees and snapshots *)

Definition subtree (r : Repo) (index root : string) : GM string :=
  let spec := if Rel r != "." then root +:+ ":" +:+ Rel r else root +:+ "^{tree}" in
  let! out := run_ok r index None ["rev-parse"; "--verify"; spec] in
  gret (TrimSpace out).

Definition Head (r : Repo) : GM Revision :=
  gtry (run_ok r "" None ["rev-parse"; "--verify"; "HEAD^{commit}"]) (λ res,
    match res with
    | Err e => gfail (wrap "gitrev: no commits: " e)
    | Ok commit =>
        let! tree := subtree r "" (TrimSpace commit) in
        gret (MkRevision (TrimSpace commit) tree (Rel r) false SourceDeclared)
    end).

(** An output without bytes is a nil slice, and the next command then gets no input. *)
Definition stdin_of (out : string) : option string := if out == "" then None else Some out.

Definition nul : ascii := byte 0.

(** Attributes that change the bytes of a file between the work tree and a tree.
    The maps [text] and [eol] are filled on the way. *)
Fixpoint scan_attrs (text eol : gmap string string) (fields : list string)
    : result Error (gmap string string * gmap string string) :=
  match fields with
  | name :: attr :: value :: rest =>
      if attr == "text" then scan_attrs (<[name := value]> text) eol rest
      else
        let eol := if attr == "eol" then <[name := value]> eol else eol in
        if (attr == "eol") && (value != "crlf") then scan_attrs text eol rest
        else if (value == "unspecified") || (value == "unset") then scan_attrs text eol rest
        else if attr == "filter" then
          Err (errorf ("gitrev: snapshot: filters unsupported: " +:+ attr +:+ "=" +:+ value +:+
                       " on " +:+ name))
        else
          Err (errorf ("gitrev: snapshot: transforming attribute " +:+ attr +:+ "=" +:+ value +:+
                       " on " +:+ name +:+ " unsupported"))
  | _ => Ok (text, eol)
  end.

(** Whether git would normalize the line ends of the file of one [ls-files --eol]
    record. *)
Definition eol_record (text eol : gmap string string) (record : string) : result Error () :=
  match SplitN2 record tab with
  | None => Ok tt
  | Some (header, name) =>
      match Fields header with
      | _ :: work :: _ =>
          if (work != "w/crlf") && (work != "w/mixed") then Ok tt
          else
            let tv := default "" (text !! name) in
            let ev := default "" (eol !! name) in
            if (tv == "unset") || ((tv == "unspecified") && (ev != "lf")) then Ok tt
            else Err (errorf ("gitrev: snapshot: text=" +:+ tv +:+ " eol=" +:+ ev +:+
                              " would normalize CRLF bytes on " +:+ name))
      | _ => Ok tt
      end
  end.

Fixpoint eol_records (text eol : gmap string string) (records : list string) : result Error () :=
  match records with
  | [] => Ok tt
  | record :: rest => check? eol_record text eol record in eol_records text eol rest
  end.

Definition attr_args : list string :=
  ["check-attr"; "-z"; "--stdin"; "filter"; "text"; "eol"; "ident"; "working-tree-encoding"].

Definition checkAttributes (r : Repo) (index : string) (cached : bool) : GM () :=
  let! paths := run_ok r index None
    ["ls-files"; "-z"; "--cached"; "--others"; "--exclude-standard"; "--"; Rel r] in
  let! attrs := run_ok r index (stdin_of paths)
    (attr_args ++ (if cached then ["--cached"] else [])) in
  let! maps := glift (scan_attrs ∅ ∅ (Split (TrimSuffix attrs (String nul "")) nul)) in
  if cached then gret tt
  else
    let! eols := run_ok r index None
      ["ls-files"; "--eol"; "-z"; "--cached"; "--others"; "--exclude-standard"; "--"; Rel r] in
    glift (eol_records maps.1 maps.2 (Split eols nul)).

(** The size [os.Lstat] reports: of a link, the length of its target; of a
    directory, [dir_size]. *)
Definition lstat_size (dir_size : Z) (n : os.node) : Z :=
  match n with
  | os.NFile content => len content
  | os.NLink target => len target
  | os.NDir => dir_size
  end.

Fixpoint untracked_size (dir_size : Z) (t : os.tree) (root : string) (total : Z)
    (paths : list string) : result Error () :=
  match paths with
  | [] => Ok tt
  | p :: rest =>
      if p == "" then untracked_size dir_size t root total rest
      else match os.Lstat t (os.path_Join root p) with
           | None => Err (errorf "gitrev: snapshot: lstat")
           | Some n =>
               let total := (total + lstat_size dir_size n)%Z in
               if (maxCopyBytes <? total)%Z then
                 Err (errorf ("gitrev: snapshot: untracked files exceed cap " +:+ Itoa maxCopyBytes))
               else untracked_size dir_size t root total rest
           end
  end.

Definition checkWorktree (dir_size : Z) (r : Repo) (index : string) : GM () :=
  let! raw := run_ok r index None ["ls-files"; "-z"; "--others"; "--exclude-standard"; "--"; Rel r] in
  let! t := files in
  do! glift (untracked_size dir_size t (Root r) 0 (Split raw nul)) in
  checkAttributes r index false.

(** One setting that must be false or unset. *)
Definition checkSetting (r : Repo) (key : string) : GM () :=
  let args := if key == "core.sparseCheckout" then ["config"; "--bool"; "--get"; key]
              else ["config"; "--type=bool-or-str"; "--get"; key] in
  gtry (run_ok r "" None args) (λ res,
    match res with
    | Err e => if error_exit e == Some 1%Z then gret tt else gfail e
    | Ok value =>
        let setting := ToLower (TrimSpace value) in
        if setting != "false" then
          gfail (errorf ("gitrev: snapshot: " +:+ key +:+ "=" +:+ setting +:+
                         " unsupported; byte-exact build requires false or unset"))
        else gret tt
    end).
Definition checkSettings (r : Repo) : GM () :=
  do! checkSetting r "core.autocrlf" in checkSetting r "core.sparseCheckout".

(** ** materialize.go: the entries of a tree *)

Record treeEntry := MkEntry { mode : string; blob : string; name : string }.

Definition safeTreePath (name : string) : bool :=
  if (name == "") || (name == ".") || HasPrefix name "/" || bool_decide (nul ∈ bytes name) then false
  else if existsb (λ part, (part == "..") || (part == "") || (part == ".git")) (Split name slash)
  then false
  else Clean name == name.

Definition parse_entry (line : string) : result Error treeEntry :=
  match SplitN2 line tab with
  | None => Err (errorf "gitrev: snapshot: invalid tree entry")
  | Some (header, name) =>
      match Fields header with
      | [f0; f1; f2] =>
          if ((f0 != "100644") && (f0 != "100755")) || (f1 != "blob") || negb (safeTreePath name)
          then Err (errorf ("gitrev: snapshot: unsupported entry " +:+ name))
          else Ok (MkEntry f0 f2 name)
      | _ => Err (errorf "gitrev: snapshot: invalid tree entry")
      end
  end.

Fixpoint parse_entries (entries : list treeEntry) (lines : list string)
    : result Error (list treeEntry) :=
  match lines with
  | [] => Ok entries
  | line :: rest =>
      if line == "" then parse_entries entries rest
      else let? e := parse_entry line in parse_entries (entries ++ [e]) rest
  end.

Definition entries (r : Repo) (index tree : string) : GM (list treeEntry) :=
  if negb (objectID tree) then gfail (errorf "gitrev: materialize: invalid tree")
  else
    let! raw := run_ok r index None ["ls-tree"; "-r"; "-z"; "--full-tree"; tree] in
    glift (parse_entries [] (Split raw nul)).

(** ** snapshot.go: the snapshot *)

Definition apply_args : list string := ["apply"; "--cached"; "--whitespace=nowarn"].

(** Applies the patch to the index, as it is or below the module directory. *)
Definition apply_patch (r : Repo) (index raw : string) : GM () :=
  gtry (run_ok r index (Some raw) (apply_args ++ ["--check"])) (λ res,
    let! args :=
      match res with
      | Ok _ => gret apply_args
      | Err e =>
          if Rel r == "." then gfail e
          else
            let args := apply_args ++ ["--directory=" +:+ Rel r] in
            gtry (run_ok r index (Some raw) (args ++ ["--check"])) (λ retry,
              match retry with
              | Ok _ => gret args
              | Err _ => gfail e
              end)
      end in
    do! run_ok r index (Some raw) args in
    checkAttributes r index true).

(** What is done in the temporary directory [tmp]. *)
Definition snapshot_in (dir_size : Z) (r : Repo) (head : Revision) (raw : string) (worktree : bool)
    (tmp : string) : GM Revision :=
  let index := os.path_Join tmp "index" in
  gtry (run_ok r index None ["read-tree"; Rev_Commit head]) (λ res,
    match res with
    | Err e => gfail (wrap "gitrev: snapshot: no commits: " e)
    | Ok _ =>
        do! (if worktree then
               do! checkWorktree dir_size r index in
               do! run_ok r index None ["add"; "-A"; "--"; Rel r] in
               gret tt
             else apply_patch r index raw) in
        let! root := run_ok r index None ["write-tree"] in
        let rootTree := TrimSpace root in
        let! tree := subtree r index rootTree in
        do! entries r index tree in
        let! commit := run_ok r index None
          ["-c"; "user.name=aquila"; "-c"; "user.email=aquila@localhost"; "commit-tree"; "-p";
           Rev_Commit head; "-m"; "aquila snapshot " +:+ Rel r; rootTree] in
        gret (MkRevision (TrimSpace commit) tree (Rel r) (tree != Rev_Tree head) SourceDeclared)
    end).

(** [os.MkdirTemp]: the directory named [name], which is new. *)
Definition MkdirTemp (name : string) : GM () :=
  λ w, match os.Mkdir w.2 name with
       | Some t => (Ok tt, (w.1, t))
       | None => (Err (errorf "gitrev: snapshot: mkdir"), w)
       end.

(** Runs [m], then removes [tmp] whatever became of it. *)
Definition with_RemoveAll {A} (tmp : string) (m : GM A) : GM A :=
  λ w, let '(res, w) := m w in (res, (w.1, osx.RemoveAll w.2 tmp)).

Definition snapshot (dir_size : Z) (tmp : string) (r : Repo) (head : Revision) (raw : string)
    (worktree : bool) : GM Revision :=
  if negb (objectID (Rev_Commit head)) || negb (objectID (Rev_Tree head)) || (Rev_Path head != Rel r)
  then gfail (errorf "gitrev: snapshot: invalid baseline")
  else
    do! checkSettings r in
    do! MkdirTemp tmp in
    with_RemoveAll tmp (snapshot_in dir_size r head raw worktree tmp).

Definition SnapshotWorktreeAt (dir_size : Z) (tmp : string) (r : Repo) (head : Revision)
    : GM Revision :=
  snapshot dir_size tmp r head "" true.

Definition SnapshotDiffAt (dir_size : Z) (tmp : string) (r : Repo) (head : Revision) (raw : string)
    : GM Revision :=
  if raw == "" then gfail (errorf "gitrev: snapshot: empty diff")
  else snapshot dir_size tmp r head raw false.

Definition SnapshotWorktree (dir_size : Z) (tmp : string) (r : Repo) : GM Revision :=
  let! head := Head r in SnapshotWorktreeAt dir_size tmp r head.

Definition SnapshotDiff (dir_size : Z) (tmp : string) (r : Repo) (raw : string) : GM Revision :=
  if raw == "" then gfail (errorf "gitrev: snapshot: empty diff")
  else let! head := Head r in SnapshotDiffAt dir_size tmp r head raw.

(** ** snapshot.go: keeping, comparing and reading trees *)

Definition Pin (r : Repo) (rev : Revision) : GM () :=
  if negb (objectID (Rev_Tree rev)) || negb (objectID (Rev_Commit rev)) then
    gfail (errorf "gitrev: pin: invalid revision")
  else
    let! head := Head r in
    if Rev_Commit rev == Rev_Commit head then gret tt
    else
      do! run_ok r "" None
        ["update-ref"; "refs/aquila/snapshots/" +:+ Rev_Tree rev; Rev_Commit rev] in
      gret tt.

Definition diff_cap : Error := errorf ("gitrev: diff exceeds " +:+ Itoa maxDiffBytes +:+ " bytes").

Definition DiffTrees (r : Repo) (a b : string) : GM string :=
  if negb (objectID a) || negb (objectID b) then gfail (errorf "gitrev: diff: invalid object")
  else
    let! out := run_ok r "" None ["diff"; "--no-color"; "--no-ext-diff"; a; b; "--"; Rel r] in
    if (maxDiffBytes <? len out)%Z then gfail diff_cap else gret out.

Definition ReadBlob (r : Repo) (tree name : string) : GM string :=
  if negb (objectID tree) || negb (safeTreePath name) then
    gfail (errorf "gitrev: blob: invalid path or tree")
  else run_ok r "" None ["cat-file"; "blob"; tree +:+ ":" +:+ name].

(** The diffs of the untracked files: [git diff --no-index] exits with 1 when the
    files differ, and its output then counts. *)
Fixpoint diff_untracked (r : Repo) (raw : string) (names : list string) : GM string :=
  match names with
  | [] => if (maxDiffBytes <? len raw)%Z then gfail diff_cap else gret raw
  | name :: rest =>
      if name == "" then diff_untracked r raw rest
      else λ w,
        let '(part, err, w) := run r "" None
          ["diff"; "--no-index"; "--no-color"; "--no-ext-diff"; "--no-textconv"; "--";
           "/dev/null"; name] w in
        let next (raw : string) (w : World) :=
          if (maxDiffBytes <? len raw)%Z then (Err diff_cap, w) else diff_untracked r raw rest w in
        match err with
        | Some e => if error_exit e != Some 1%Z then (Err e, w) else next (raw +:+ part) w
        | None => next (raw +:+ part) w
        end
  end.

Definition PlainDiff (r : Repo) : GM string :=
  let! base :=
    gtry (run_ok r "" None ["rev-parse"; "--verify"; "HEAD^{commit}"]) (λ res,
      match res with
      | Ok base => gret base
      | Err e =>
          let! unborn := unbornHEAD (Root r) in
          if negb unborn then gfail e
          else run_ok r "" (Some "") ["hash-object"; "-w"; "-t"; "tree"; "--stdin"]
      end) in
  let! raw := run_ok r "" None
    ["diff"; "--no-color"; "--no-ext-diff"; "--no-textconv"; TrimSpace base; "--"; Rel r] in
  let! paths := run_ok r "" None
    ["ls-files"; "-z"; "--others"; "--exclude-standard"; "--"; Rel r] in
  diff_untracked r raw (Split paths nul).

End run.

(** ** Texts that commands print *)

(** The changed paths are the first twenty that the lines of the status name. *)
Lemma collect_paths_take paths lines :
  (length paths < maxChangedPrint)%nat →
  collect_paths paths lines =
    take maxChangedPrint (paths ++ filter (λ p, p ≠ "") (porcelainPath <$> lines)).
Proof.
  revert paths. induction lines as [|line lines IH]; intros paths Hl; cbn [collect_paths fmap list_fmap].
  { rewrite filter_nil, app_nil_r, take_ge; [done|lia]. }
  case_bool_decide as E.
  - rewrite filter_cons_False by (by intros []). by apply IH.
  - rewrite filter_cons_True by done.
    replace (paths ++ porcelainPath line :: filter (λ p, p ≠ "") (porcelainPath <$> lines)) with
      ((paths ++ [porcelainPath line]) ++ filter (λ p, p ≠ "") (porcelainPath <$> lines))
      by (by rewrite <- app_assoc).
    destruct (Nat.leb_spec maxChangedPrint (length (paths ++ [porcelainPath line]))) as [Hc|Hc].
    + rewrite length_app in Hc. simpl in Hc. rewrite take_app_le by (rewrite length_app; simpl; lia).
      rewrite take_ge; [done|]. rewrite length_app. simpl. lia.
    + by apply IH.
Qed.

Lemma porcelainPaths_spec out :
  porcelainPaths out =
    take maxChangedPrint (filter (λ p, p ≠ "") (porcelainPath <$> Split out nl)).
Proof. unfold porcelainPaths. rewrite collect_paths_take; [done|]. simpl. unfold maxChangedPrint. lia. Qed.

Lemma porcelainPath_safe line : Contains (porcelainPath line) ".." = false.
Proof.
  unfold porcelainPath. destruct (_ <? _)%Z; [done|]. cbv zeta.
  set (rest := Trim _ _). destruct (bool_decide (rest = "")) eqn:E1; [done|]. simpl.
  by destruct (Contains rest "..") eqn:E2.
Qed.

(** ** The environment of a command *)

(** The value a process sees: the last binding counts. *)
Definition env_get (env : list string) (k : string) : option string :=
  foldl (λ acc v, match SplitN2 v (byte 61) with
                  | Some (k', x) => if k' == k then Some x else acc
                  | None => acc
                  end) None env.

Lemma env_get_app env env' k :
  env_get (env ++ env') k = match env_get env' k with Some x => Some x | None => env_get env k end.
Proof.
  unfold env_get. rewrite foldl_app. generalize (foldl
    (λ acc v, match SplitN2 v (byte 61) with
              | Some (k', x) => if k' == k then Some x else acc
              | None => acc
              end) None env) as a. intros a.
  induction env' as [|v env' IH] using rev_ind; [done|]. rewrite !foldl_app. cbn [foldl].
  destruct (SplitN2 v (byte 61)) as [[k' x]|]; [|done]. by case_bool_decide.
Qed.

Lemma env_key_split v k x : SplitN2 v (byte 61) = Some (k, x) → env_key v = k.
Proof.
  unfold env_key, before_byte, SplitN2. destruct (IndexByte v (byte 61)); [|done]. by intros [= <- _].
Qed.

Lemma env_get_filter env k :
  k ∈ redirecting → env_get (filter (λ v, env_key v ∉ redirecting) env) k = None.
Proof.
  intros Hk. induction env as [|v env IH] using rev_ind; [done|].
  rewrite filter_app, env_get_app, IH.
  destruct (decide (env_key v ∉ redirecting)) as [Hv|Hv].
  - rewrite filter_cons_True, filter_nil by done. unfold env_get. cbn [foldl].
    destruct (SplitN2 v (byte 61)) as [[k' x]|] eqn:E; [|done].
    apply env_key_split in E. rewrite bool_decide_eq_false_2; [done|]. by intros ->; subst.
  - by rewrite filter_cons_False, filter_nil.
Qed.

(** A command sees the index it is given and no other. *)
Lemma command_index environ index :
  env_get (command_env environ index) "GIT_INDEX_FILE" = if index == "" then None else Some index.
Proof.
  unfold command_env. rewrite !env_get_app, env_get_filter by (by apply (bool_decide_unpack _)).
  case_bool_decide; [done|].
  change (env_get ["GIT_INDEX_FILE=" +:+ index] "GIT_INDEX_FILE") with
    (match SplitN2 ("GIT_INDEX_FILE" +:+ String (byte 61) index) (byte 61) with
     | Some (k', x) => if k' == "GIT_INDEX_FILE" then Some x else None
     | None => None
     end).
  rewrite SplitN2_app; [done|]. by apply (bool_decide_unpack _).
Qed.

End gitrun.
