(* ===== verification/Load.v ===== *)
(** * Loading a Go module: [internal/source/load.go], the files of [snapshot.go]

    [packages.Load] with the type checker is a parameter: its answer are the
    packages with what the builder reads of them. A [Decl] is a function
    declaration with the object it defines, if that is a function, its last line
    and what [typeutil.Callee] gives for the calls in its body, in the order in which
    [ast.Inspect] finds them: a function or a method, also one of an interface, or
    [None] for anything else (a built-in, a variable, a conversion, no type). *)

From S2P Require Import Prelude GoStrings GoText Flags GoOS Diff Net Ingest Replay Impact Plan Validate Source GitRev.
Import source.

Module load.

(** ** What the loader gives *)

Record Func := MkFunc {
  Fn_FullName : string;
  Fn_Name : string;
  Fn_Pkg : option string;
  Fn_Filename : string;
  Fn_Line : Z;
  (** a method of an interface, whose body is not known *)
  Fn_Abstract : bool;
}.
Record Decl := MkDecl {
  Dc_Func : option Func;
  Dc_End : Z;
  Dc_Calls : list (option Func);
}.
Record Package := MkPackage {
  Pk_Path : string;
  Pk_Name : string;
  Pk_Module : option string;
  Pk_Errors : list string;
  Pk_Typed : bool;
  (** path and name of the imports; [None] is a package that is nil *)
  Pk_Imports : list (string * option string);
  Pk_Syntax : list (list Decl);
  Pk_CompiledGoFiles : list string;
}.

Class GoPackages := {
  packages_Load : os.tree → list string → string → result string (list Package);
}.

(** ** The builder *)

Record builder := MkBuilder {
  b_module : string;
  b_root : string;
  b_nodes : list Node;
  b_edges : list Edge;
  b_seenN : gset string;
  b_seenE : gset string;
  b_ends : gmap string Z;
  b_funcs : Z;
}.

Definition newBuilder (module root : string) : builder := MkBuilder module root [] [] ∅ ∅ ∅ 0.

Definition inModule (pkgPath modulePath : string) : bool :=
  (pkgPath == modulePath) || HasPrefix pkgPath (modulePath +:+ "/").

Definition pkgID (pkgPath : string) : string := "pkg:" +:+ pkgPath.
Definition fileID (rel : string) : string := "file:" +:+ rel.
Definition funcID (fullName : string) : string := "func:" +:+ fullName.

Definition relFile (root abs : string) : option string :=
  if abs == "" then None
  else
    rel ← osx.Rel root abs;
    if (rel == ".") || HasPrefix rel "../" then None else Some rel.

(** [path.Base] *)
Definition Base (p : string) : string :=
  if p == "" then "."
  else
    let q := TrimRight p "/" in
    let b := match LastIndexByte q slash with Some i => str_drop (S i) q | None => q end in
    if b == "" then "/" else b.

Definition node (b : builder) (n : Node) : result string builder :=
  if N_ID n == "" then Err "source: empty node id"
  else if bool_decide (N_ID n ∈ b_seenN b) then Ok b
  else if (maxNodes <? Z.of_nat (length (b_nodes b)) + 1)%Z then
    Err ("source: node cap " +:+ Itoa maxNodes +:+ " exceeded")
  else Ok (MkBuilder (b_module b) (b_root b) (b_nodes b ++ [n]) (b_edges b) ({[N_ID n]} ∪ b_seenN b)
             (b_seenE b) (b_ends b) (b_funcs b)).

Definition edge_key (e : Edge) : string :=
  E_From e +:+ String (byte 0) (E_To e +:+ String (byte 0) (E_Kind e)).

Definition edge (b : builder) (e : Edge) : result string builder :=
  if (E_From e == "") || (E_To e == "") || (E_From e == E_To e) then Ok b
  else if bool_decide (edge_key e ∈ b_seenE b) then Ok b
  else if (maxEdges <? Z.of_nat (length (b_edges b)) + 1)%Z then
    Err ("source: edge cap " +:+ Itoa maxEdges +:+ " exceeded")
  else Ok (MkBuilder (b_module b) (b_root b) (b_nodes b) (b_edges b ++ [e]) (b_seenN b)
             ({[edge_key e]} ∪ b_seenE b) (b_ends b) (b_funcs b)).

Definition set_end (b : builder) (id : string) (line : Z) : builder :=
  MkBuilder (b_module b) (b_root b) (b_nodes b) (b_edges b) (b_seenN b) (b_seenE b) (<[id := line]> (b_ends b))
    (b_funcs b + 1).

Definition funcNode (root : string) (f : Func) (pkg : string) : Node :=
  MkNode (funcID (Fn_FullName f)) KindFunction (Fn_Name f) pkg (default "" (relFile root (Fn_Filename f)))
    (Fn_Line f) 0.

(** Walking a list, stopping at the first error. *)
Fixpoint each {A B} (f : B → A → result string B) (b : B) (l : list A) : result string B :=
  match l with
  | [] => Ok b
  | x :: l => let? b := f b x in each f b l
  end.

Definition pkg_node (path name : string) : Node :=
  MkNode (pkgID path) KindPackage (if name == "" then path else name) path "" 0 0.
Definition file_node (pkg rel : string) : Node := MkNode (fileID rel) KindFile (Base rel) pkg rel 0 0.

Definition add_import (from : string) (b : builder) (i : string * option string) : result string builder :=
  match i with
  | (_, None) => Ok b
  | (path, Some name) =>
      if inModule path (b_module b) then
        let? b := node b (pkg_node path name) in
        edge b (MkEdge (pkgID from) (pkgID path) EdgeImports ProvenanceTypes)
      else Ok b
  end.

(** The callee that counts: a function of a package of the module. *)
Definition module_callee (module : string) (c : option Func) : option (Func * string) :=
  f ← c; pkg ← Fn_Pkg f; if inModule pkg module then Some (f, pkg) else None.

Definition add_call (from : string) (b : builder) (c : option Func) : result string builder :=
  match module_callee (b_module b) c with
  | None => Ok b
  | Some (f, pkg) =>
      let n := funcNode (b_root b) f pkg in
      let? b := node b n in
      edge b (MkEdge from (N_ID n) EdgeCalls ProvenanceTypes)
  end.

Definition add_decl (fid : string) (b : builder) (d : Decl) : result string builder :=
  match Dc_Func d with
  | None => Ok b
  | Some f =>
      match Fn_Pkg f with
      | None => Err ("source: function " +:+ Fn_FullName f +:+ " has no package")
      | Some pkg =>
          let n := funcNode (b_root b) f pkg in
          let? b := node b n in
          let b := set_end b (N_ID n) (Dc_End d) in
          let? b := edge b (MkEdge fid (N_ID n) EdgeContains ProvenanceSyntax) in
          each (add_call (N_ID n)) b (Dc_Calls d)
      end
  end.

Definition walkFile (fid : string) (b : builder) (decls : list Decl) : result string builder :=
  each (add_decl fid) b decls.

(** A file with its path; one outside the module is skipped. *)
Definition file_paths (p : Package) : list (string * list Decl) :=
  imap (λ i ds, (default "" (Pk_CompiledGoFiles p !! i), ds)) (Pk_Syntax p).
Definition add_file (p : Package) (b : builder) (file : string * list Decl) : result string builder :=
  match relFile (b_root b) file.1 with
  | None => Ok b
  | Some rel =>
      let? b := node b (file_node (Pk_Path p) rel) in
      let? b := edge b (MkEdge (pkgID (Pk_Path p)) (fileID rel) EdgeContains ProvenanceSyntax) in
      walkFile (fileID rel) b file.2
  end.

Definition addPackage (b : builder) (p : Package) : result string builder :=
  if negb (Pk_Typed p) then Err ("source: package " +:+ Pk_Path p +:+ " missing types")
  else
    let? b := node b (pkg_node (Pk_Path p) (Pk_Name p)) in
    let? b := each (add_import (Pk_Path p)) b (Pk_Imports p) in
    each (add_file p) b (file_paths p).

Definition with_end (ends : gmap string Z) (n : Node) : Node :=
  match ends !! N_ID n with
  | Some l => MkNode (N_ID n) (N_Kind n) (N_Name n) (N_Pkg n) (N_File n) (N_Line n) l
  | None => n
  end.
Definition cmp_edge : Edge → Edge → comparison :=
  cmp_then (cmp_on E_From String.compare)
    (cmp_then (cmp_on E_To String.compare) (cmp_on E_Kind String.compare)).
Definition graph (b : builder) : Graph :=
  index (b_module b) (sort_cmp (cmp_on N_ID String.compare) (with_end (b_ends b) <$> b_nodes b))
    (sort_cmp cmp_edge (b_edges b)).

(** ** [Load] *)

Definition loadEnv (environ : list string) : list string :=
  filter (λ kv, (HasPrefix kv "GOTOOLCHAIN=" || HasPrefix kv "CGO_ENABLED=") = false) environ ++
  ["CGO_ENABLED=0"; "GOTOOLCHAIN=auto"].

(** The first module path that is not empty. *)
Definition module_path (pkgs : list Package) : string :=
  default "" (head (filter (λ m, m ≠ "") (omap Pk_Module pkgs))).

Definition load_packages (root module : string) (pkgs : list Package) : result string builder :=
  each addPackage (newBuilder module root) (filter (λ p, inModule (Pk_Path p) module = true) pkgs).

Section loading.
  Context `{GoPackages} (environ : list string) (wd : option string).

Definition Load (ctx : option string) (t : os.tree) (dir : string) : result string Graph :=
  match ctx with
  | Some e => Err e
  | None =>
      match os.Abs wd dir with
      | None => Err ("source: abs " +:+ dir)
      | Some root =>
          match os.Stat t root with
          | None => Err "source: stat"
          | Some os.NDir =>
              check? guard_err (bool_decide (os.Stat t (os.path_Join root "go.mod") = None))
                       ("source: " +:+ root +:+ ": go.mod") in
              match packages_Load t (loadEnv environ) root with
              | Err e => Err ("source: load: " +:+ e)
              | Ok pkgs =>
                  check? guard_err (bool_decide (pkgs = [])) ("source: no packages in " +:+ root) in
                  check? guard_err (bool_decide ((pkgs ≫= Pk_Errors) ≠ []))
                           ("source: load: " +:+ Join (pkgs ≫= Pk_Errors) (String nl "")) in
                  let module := module_path pkgs in
                  check? guard_err (module == "") ("source: module path missing in " +:+ root) in
                  let? b := load_packages root module pkgs in
                  check? guard_err (b_funcs b =? 0)%Z ("source: no functions in " +:+ module) in
                  Ok (graph b)
              end
          | Some _ => Err ("source: " +:+ root +:+ " is not a directory")
          end
      end
  end.
End loading.

(** ** The builder keeps its sets and its lists together *)

Definition edge_ok (ids : gset string) (e : Edge) : Prop :=
  E_From e ∈ ids ∧ E_To e ∈ ids ∧ E_Kind e ∈ [EdgeImports; EdgeContains; EdgeCalls] ∧
  E_Provenance e ∈ [ProvenanceTypes; ProvenanceSyntax].
Definition node_ok (n : Node) : Prop := N_ID n ≠ "" ∧ N_Kind n ∈ [KindPackage; KindFile; KindFunction].

Record builder_ok (b : builder) : Prop := {
  bo_ids : b_seenN b = list_to_set (N_ID <$> b_nodes b);
  bo_nodup : NoDup (N_ID <$> b_nodes b);
  bo_keys : b_seenE b = list_to_set (edge_key <$> b_edges b);
  bo_nodes : Forall node_ok (b_nodes b);
  bo_edges : Forall (edge_ok (b_seenN b)) (b_edges b);
  bo_size : (Z.of_nat (length (b_nodes b)) ≤ maxNodes ∧ Z.of_nat (length (b_edges b)) ≤ maxEdges)%Z;
}.

(** The first node of each identifier that was not seen before. *)
Fixpoint first_nodes (seen : gset string) (N : list Node) : list Node :=
  match N with
  | [] => []
  | n :: N => if decide (N_ID n ∈ seen) then first_nodes seen N else n :: first_nodes ({[N_ID n]} ∪ seen) N
  end.

Lemma first_nodes_app seen N N' :
  first_nodes seen (N ++ N') = first_nodes seen N ++ first_nodes (seen ∪ list_to_set (N_ID <$> N)) N'.
Proof.
  revert seen. induction N as [|n N IH]; intros seen; simpl; [by rewrite (right_id_L ∅ (∪))|].
  assert (∀ x y : gset string, x = y → first_nodes x N' = first_nodes y N') as Heq by (by intros ? ? ->).
  case_decide; rewrite IH; simpl; [f_equal|do 2 f_equal]; apply Heq; set_solver.
Qed.

Lemma elem_of_first_nodes seen N m :
  m ∈ first_nodes seen N ↔ N_ID m ∉ seen ∧ head (filter (λ x, N_ID x = N_ID m) N) = Some m.
Proof.
  revert seen. induction N as [|n N IH]; intros seen; simpl; [set_solver|].
  rewrite filter_cons. case_decide as Hn.
  - rewrite IH. case_decide as E; [|done]. rewrite E in Hn. split; [by intros []|by intros []].
  - rewrite elem_of_cons, IH, elem_of_union, elem_of_singleton. case_decide as E; simpl.
    + split; [intros [->|[[] _]]; [done|by left]|]. intros [_ [= ->]]. by left.
    + split; [intros [->|[? ?]]; [done|split; [tauto|done]]|]. intros [? ?]. right. split; [|done].
      intros [?|?]; [by apply E|done].
Qed.

(** [grown N E b b']: [b'] is [b] with the nodes [N] and the edges [E] asked for. *)
Record grown (N : list Node) (E : list Edge) (b b' : builder) : Prop := {
  gr_ok : builder_ok b → builder_ok b';
  gr_same : b_module b' = b_module b ∧ b_root b' = b_root b;
  gr_ids : b_seenN b' = b_seenN b ∪ list_to_set (N_ID <$> N);
  gr_nodes : b_nodes b' = b_nodes b ++ first_nodes (b_seenN b) N;
  gr_edges e : e ∈ b_edges b' → e ∈ b_edges b ∨ (e ∈ E ∧ E_From e ≠ E_To e);
  gr_keys : b_seenE b ⊆ b_seenE b';
  gr_all e : e ∈ E → E_From e ≠ "" → E_To e ≠ "" → E_From e ≠ E_To e → edge_key e ∈ b_seenE b';
}.

Lemma grown_nil b : grown [] [] b b.
Proof. split; [done|done|set_solver|by rewrite app_nil_r|auto|done|]. by intros e []%not_elem_of_nil. Qed.

Lemma grown_app N E N' E' b b1 b2 :
  grown N E b b1 → grown N' E' b1 b2 → grown (N ++ N') (E ++ E') b b2.
Proof.
  intros [O1 [M1 R1] I1 N1 E1 K1 A1] [O2 [M2 R2] I2 N2 E2 K2 A2]. split.
  - auto.
  - by rewrite M2, R2.
  - rewrite I2, I1, fmap_app, list_to_set_app_L. set_solver.
  - by rewrite N2, N1, I1, first_nodes_app, app_assoc.
  - intros e [[?|[? ?]]%E1|[? ?]]%E2; rewrite elem_of_app; auto.
  - set_solver.
  - intros e [He|He]%elem_of_app ???; [apply K2, A1|apply A2]; done.
Qed.

Lemma node_grown b n b' : node b n = Ok b' → node_ok n → grown [n] [] b b'.
Proof.
  unfold node. intros Hb [Hid Hk]. rewrite bool_decide_eq_false_2 in Hb by done. case_bool_decide as Hin.
  { injection Hb as <-. split; [done|done|simpl; set_solver|simpl; by rewrite decide_True, app_nil_r|auto|done|].
    by intros e []%not_elem_of_nil. }
  destruct (Z.ltb_spec maxNodes (Z.of_nat (length (b_nodes b)) + 1)); [done|]. injection Hb as <-. split; simpl.
  - intros [Hi Hnd Hkeys Hns Hes [Hs1 Hs2]]. split; simpl.
    + rewrite Hi, fmap_app, list_to_set_app_L. simpl. set_solver.
    + rewrite fmap_app, NoDup_app. split; [done|]. rewrite Hi, elem_of_list_to_set in Hin.
      split; [set_solver|simpl; apply NoDup_singleton].
    + done.
    + apply Forall_app. split; [done|]. by apply Forall_singleton.
    + eapply Forall_impl; [exact Hes|]. intros e (? & ? & ?). split_and!; set_solver.
    + rewrite length_app. simpl. lia.
  - done.
  - set_solver.
  - by rewrite decide_False.
  - auto.
  - done.
  - by intros e []%not_elem_of_nil.
Qed.

Lemma edge_grown b e b' :
  edge b e = Ok b' → (builder_ok b → edge_ok (b_seenN b) e) → grown [] [e] b b'.
Proof.
  unfold edge. intros Hb He. destruct (_ || _) eqn:Hskip.
  { injection Hb as <-. split; [done|done|simpl; set_solver|by rewrite app_nil_r|auto|done|].
    intros e' ->%list_elem_of_singleton ???. rewrite !orb_true_iff, !bool_decide_eq_true in Hskip. naive_solver. }
  apply orb_false_iff in Hskip as [_ Hne%bool_decide_eq_false]. case_bool_decide as Hin.
  { injection Hb as <-. split; [done|done|simpl; set_solver|by rewrite app_nil_r|auto|done|].
    by intros e' ->%list_elem_of_singleton. }
  destruct (Z.ltb_spec maxEdges (Z.of_nat (length (b_edges b)) + 1)); [done|]. injection Hb as <-. split; simpl.
  - intros Hok. pose proof (He Hok) as He'. destruct Hok as [Hi Hnd Hkeys Hns Hes [Hs1 Hs2]]. split; simpl; try done.
    + rewrite Hkeys, fmap_app, list_to_set_app_L. simpl. set_solver.
    + apply Forall_app. split; [done|]. by apply Forall_singleton.
    + rewrite length_app. simpl. lia.
  - done.
  - set_solver.
  - by rewrite app_nil_r.
  - intros e'. rewrite elem_of_app, list_elem_of_singleton. intros [?| ->]; [auto|right; split; [set_solver|done]].
  - set_solver.
  - intros e' ->%list_elem_of_singleton ???. set_solver.
Qed.

(** ** What a module has: its nodes and edges, one by one *)

Section want.
  Context (module root : string).

Definition call_nodes (c : option Func) : list Node :=
  match module_callee module c with Some (f, pkg) => [funcNode root f pkg] | None => [] end.
Definition call_edges (from : string) (c : option Func) : list Edge :=
  match module_callee module c with
  | Some (f, _) => [MkEdge from (funcID (Fn_FullName f)) EdgeCalls ProvenanceTypes]
  | None => []
  end.

(** A declared function with its package. *)
Definition declared (d : Decl) : option (Func * string) := f ← Dc_Func d; pkg ← Fn_Pkg f; Some (f, pkg).
Definition decl_nodes (d : Decl) : list Node :=
  match declared d with Some (f, pkg) => funcNode root f pkg :: (Dc_Calls d ≫= call_nodes) | None => [] end.
Definition decl_edges (fid : string) (d : Decl) : list Edge :=
  match declared d with
  | Some (f, _) =>
      MkEdge fid (funcID (Fn_FullName f)) EdgeContains ProvenanceSyntax ::
      (Dc_Calls d ≫= call_edges (funcID (Fn_FullName f)))
  | None => []
  end.

Definition file_nodes (p : Package) (file : string * list Decl) : list Node :=
  match relFile root file.1 with
  | Some rel => file_node (Pk_Path p) rel :: (file.2 ≫= decl_nodes)
  | None => []
  end.
Definition file_edges (p : Package) (file : string * list Decl) : list Edge :=
  match relFile root file.1 with
  | Some rel =>
      MkEdge (pkgID (Pk_Path p)) (fileID rel) EdgeContains ProvenanceSyntax :: (file.2 ≫= decl_edges (fileID rel))
  | None => []
  end.

Definition import_nodes (i : string * option string) : list Node :=
  match i with
  | (path, Some name) => if inModule path module then [pkg_node path name] else []
  | (_, None) => []
  end.
Definition import_edges (from : string) (i : string * option string) : list Edge :=
  match i with
  | (path, Some _) =>
      if inModule path module then [MkEdge (pkgID from) (pkgID path) EdgeImports ProvenanceTypes] else []
  | (_, None) => []
  end.

Definition package_nodes (p : Package) : list Node :=
  pkg_node (Pk_Path p) (Pk_Name p) :: (Pk_Imports p ≫= import_nodes) ++ (file_paths p ≫= file_nodes p).
Definition package_edges (p : Package) : list Edge :=
  (Pk_Imports p ≫= import_edges (Pk_Path p)) ++ (file_paths p ≫= file_edges p).

Definition module_packages (pkgs : list Package) : list Package :=
  filter (λ p, inModule (Pk_Path p) module = true) pkgs.
Definition module_nodes (pkgs : list Package) : list Node := module_packages pkgs ≫= package_nodes.
Definition module_edges (pkgs : list Package) : list Edge := module_packages pkgs ≫= package_edges.

(** The last lines of the declared functions, in order. *)
Definition decl_ends (d : Decl) : list (string * Z) :=
  match declared d with Some (f, _) => [(funcID (Fn_FullName f), Dc_End d)] | None => [] end.
Definition file_ends (file : string * list Decl) : list (string * Z) :=
  match relFile root file.1 with Some _ => file.2 ≫= decl_ends | None => [] end.
Definition package_ends (p : Package) : list (string * Z) := file_paths p ≫= file_ends.
Definition module_ends (pkgs : list Package) : list (string * Z) := module_packages pkgs ≫= package_ends.

(** The builder of this module, with some nodes known. *)
Record here (known : gset string) (b : builder) : Prop := {
  he_module : b_module b = module;
  he_root : b_root b = root;
  he_known : known ⊆ b_seenN b;
}.
Lemma here_grown known N E b b' :
  here known b → grown N E b b' → here (known ∪ list_to_set (N_ID <$> N)) b'.
Proof. intros [Hm Hr Hk] [_ [Hm' Hr'] Hi _ _ _ _]. split; [congruence|congruence|set_solver]. Qed.
Lemma here_weaken known known' b : known' ⊆ known → here known b → here known' b.
Proof. intros Hs [? ? ?]. split; [done|done|set_solver]. Qed.

Lemma each_grown {A} (f : builder → A → result string builder) (fN : A → list Node) (fE : A → list Edge) known :
  (∀ b x b', here known b → f b x = Ok b' → grown (fN x) (fE x) b b') →
  ∀ l b b', here known b → each f b l = Ok b' → grown (l ≫= fN) (l ≫= fE) b b'.
Proof.
  intros Hf l. induction l as [|x l IH]; intros b b' Hb; simpl; [intros [= <-]; apply grown_nil|].
  destruct (f b x) as [b1|] eqn:E; [|done]. simpl. intros He. specialize (Hf _ _ _ Hb E).
  eapply grown_app; [exact Hf|]. apply IH; [|done]. eapply here_weaken, here_grown; [|done..]. set_solver.
Qed.

Lemma funcNode_ok f pkg : node_ok (funcNode root f pkg).
Proof. split; [done|simpl; set_solver]. Qed.
Lemma pkg_node_ok path name : node_ok (pkg_node path name).
Proof. split; [done|simpl; set_solver]. Qed.
Lemma file_node_ok pkg rel : node_ok (file_node pkg rel).
Proof. split; [done|simpl; set_solver]. Qed.

(** A node, and then an edge from a known node to it. *)
Lemma node_edge_grown known b n kind prov from b1 b2 :
  here known b → from ∈ known → node_ok n → kind ∈ [EdgeImports; EdgeContains; EdgeCalls] →
  prov ∈ [ProvenanceTypes; ProvenanceSyntax] →
  node b n = Ok b1 → edge b1 (MkEdge from (N_ID n) kind prov) = Ok b2 →
  grown [n] [MkEdge from (N_ID n) kind prov] b b2.
Proof.
  intros Hb Hf Hn Hk Hp E1 E2. pose proof (node_grown _ _ _ E1 Hn) as G1.
  change (grown ([n] ++ []) ([] ++ [MkEdge from (N_ID n) kind prov]) b b2). eapply grown_app; [done|].
  apply (edge_grown _ _ _ E2). intros _. pose proof (here_grown _ _ _ _ _ Hb G1) as [_ _ Hk1].
  split_and!; simpl in *; [|set_solver|done|done]. set_solver.
Qed.

Lemma add_call_grown known from b c b' :
  from ∈ known → here known b → add_call from b c = Ok b' → grown (call_nodes c) (call_edges from c) b b'.
Proof.
  intros Hf Hb. unfold add_call, call_nodes, call_edges. rewrite (he_module _ _ Hb), (he_root _ _ Hb).
  destruct (module_callee module c) as [[f pkg]|]; [|intros [= <-]; apply grown_nil].
  destruct (node b _) as [b1|] eqn:E1; [|done]. simpl. intros E2.
  eapply (node_edge_grown known); eauto using funcNode_ok; set_solver.
Qed.

Lemma set_end_grown b id line : grown [] [] b (set_end b id line).
Proof. split; [by intros [? ? ? ? ? ?]|done|simpl; set_solver|by rewrite app_nil_r|auto|done|]. by intros e []%not_elem_of_nil. Qed.

Lemma add_decl_grown known fid b d b' :
  fid ∈ known → here known b → add_decl fid b d = Ok b' → grown (decl_nodes d) (decl_edges fid d) b b'.
Proof.
  intros Hf Hb. unfold add_decl, decl_nodes, decl_edges, declared. rewrite (he_root _ _ Hb).
  destruct (Dc_Func d) as [f|]; [|intros [= <-]; apply grown_nil]. simpl.
  destruct (Fn_Pkg f) as [pkg|]; [|done]. simpl. destruct (node b _) as [b1|] eqn:E1; [|done]. simpl.
  destruct (edge (set_end _ _ _) _) as [b2|] eqn:E2; [|done]. simpl. intros E3.
  pose proof (node_grown _ _ _ E1 (funcNode_ok f pkg)) as G1.
  pose proof (grown_app _ _ _ _ _ _ _ G1 (set_end_grown b1 (funcID (Fn_FullName f)) (Dc_End d))) as G2.
  pose proof (here_grown _ _ _ _ _ Hb G2) as H2.
  assert (grown [] [MkEdge fid (funcID (Fn_FullName f)) EdgeContains ProvenanceSyntax]
    (set_end b1 (funcID (Fn_FullName f)) (Dc_End d)) b2) as G3.
  { apply (edge_grown _ _ _ E2). intros _. destruct H2 as [_ _ Hk]. split_and!; simpl in *; set_solver. }
  pose proof (grown_app _ _ _ _ _ _ _ G2 G3) as G4. pose proof (here_grown _ _ _ _ _ Hb G4) as H4.
  assert (grown (Dc_Calls d ≫= call_nodes) (Dc_Calls d ≫= call_edges (funcID (Fn_FullName f))) b2 b') as G5.
  { eapply each_grown; [|exact H4|exact E3]. intros b3 c b4 H3 Hc. eapply add_call_grown; [|done|done].
    simpl. set_solver. }
  exact (grown_app _ _ _ _ _ _ _ G4 G5).
Qed.

Lemma add_file_grown known p b file b' :
  pkgID (Pk_Path p) ∈ known → here known b → add_file p b file = Ok b' →
  grown (file_nodes p file) (file_edges p file) b b'.
Proof.
  intros Hp Hb. unfold add_file, file_nodes, file_edges. rewrite (he_root _ _ Hb).
  destruct (relFile root file.1) as [rel|]; [|intros [= <-]; apply grown_nil].
  destruct (node b _) as [b1|] eqn:E1; [|done]. simpl. destruct (edge b1 _) as [b2|] eqn:E2; [|done]. simpl.
  intros E3. assert (grown [file_node (Pk_Path p) rel]
    [MkEdge (pkgID (Pk_Path p)) (fileID rel) EdgeContains ProvenanceSyntax] b b2) as G1.
  { eapply (node_edge_grown known); eauto using file_node_ok; set_solver. }
  pose proof (here_grown _ _ _ _ _ Hb G1) as H1.
  assert (grown (file.2 ≫= decl_nodes) (file.2 ≫= decl_edges (fileID rel)) b2 b') as G2.
  { eapply each_grown; [|exact H1|exact E3]. intros b3 d b4 H3 Hd. eapply add_decl_grown; [|done|done].
    simpl. set_solver. }
  exact (grown_app _ _ _ _ _ _ _ G1 G2).
Qed.

Lemma add_import_grown known from b i b' :
  pkgID from ∈ known → here known b → add_import from b i = Ok b' →
  grown (import_nodes i) (import_edges from i) b b'.
Proof.
  intros Hp Hb. unfold add_import, import_nodes, import_edges. rewrite (he_module _ _ Hb).
  destruct i as [path [name|]]; [|intros [= <-]; apply grown_nil].
  destruct (inModule path module); [|intros [= <-]; apply grown_nil].
  destruct (node b _) as [b1|] eqn:E1; [|done]. simpl. intros E2.
  eapply (node_edge_grown known); eauto using pkg_node_ok; set_solver.
Qed.

Lemma addPackage_grown known b p b' :
  here known b → addPackage b p = Ok b' → grown (package_nodes p) (package_edges p) b b'.
Proof.
  intros Hb. unfold addPackage. destruct (Pk_Typed p); [|done]. simpl.
  destruct (node b _) as [b1|] eqn:E1; [|done]. simpl.
  destruct (each (add_import _) _ _) as [b2|] eqn:E2; [|done]. simpl. intros E3.
  pose proof (node_grown _ _ _ E1 (pkg_node_ok (Pk_Path p) (Pk_Name p))) as G1.
  pose proof (here_grown _ _ _ _ _ Hb G1) as H1.
  assert (grown (Pk_Imports p ≫= import_nodes) (Pk_Imports p ≫= import_edges (Pk_Path p)) b1 b2) as G2.
  { eapply each_grown; [|exact H1|exact E2]. intros b3 d b4 H3 Hd. eapply add_import_grown; [|done|done].
    simpl. set_solver. }
  pose proof (here_grown _ _ _ _ _ H1 G2) as H2.
  assert (grown (file_paths p ≫= file_nodes p) (file_paths p ≫= file_edges p) b2 b') as G3.
  { eapply each_grown; [|exact H2|exact E3]. intros b3 d b4 H3 Hd. eapply add_file_grown; [|done|done].
    simpl. set_solver. }
  exact (grown_app _ _ _ _ _ _ _ G1 (grown_app _ _ _ _ _ _ _ G2 G3)).
Qed.
End want.

(** ** The last lines that are noted *)

Definition put_end (m : gmap string Z) (kv : string * Z) : gmap string Z := <[kv.1 := kv.2]> m.
Definition noted (D : list (string * Z)) (b b' : builder) : Prop :=
  b_root b' = b_root b ∧ b_ends b' = foldl put_end (b_ends b) D.

Lemma noted_app D D' b b1 b2 : noted D b b1 → noted D' b1 b2 → noted (D ++ D') b b2.
Proof. intros [R1 E1] [R2 E2]. split; [congruence|]. by rewrite foldl_app, <- E1. Qed.
Lemma noted_node b n b' : node b n = Ok b' → noted [] b b'.
Proof. unfold node. repeat case_match; intros [= <-]; done. Qed.
Lemma noted_edge b e b' : edge b e = Ok b' → noted [] b b'.
Proof. unfold edge. repeat case_match; intros [= <-]; done. Qed.
Lemma noted_each {A} (f : builder → A → result string builder) (fD : A → list (string * Z)) root l b b' :
  (∀ b x b', b_root b = root → f b x = Ok b' → noted (fD x) b b') →
  b_root b = root → each f b l = Ok b' → noted (l ≫= fD) b b'.
Proof.
  intros Hf. revert b. induction l as [|x l IH]; intros b Hr; simpl; [by intros [= <-]|].
  intros (b1 & Hx & Hl)%rbind_ok. pose proof (Hf _ _ _ Hr Hx) as H1. eapply noted_app; [exact H1|].
  apply IH; [|done]. by rewrite (proj1 H1).
Qed.

Lemma noted_call from b c b' : add_call from b c = Ok b' → noted [] b b'.
Proof.
  unfold add_call. destruct (module_callee _ _) as [[f pkg]|]; [|by intros [= <-]].
  intros (b1 & ?%noted_node & ?%noted_edge)%rbind_ok. by apply (noted_app [] [] b b1).
Qed.
Lemma noted_import from b i b' : add_import from b i = Ok b' → noted [] b b'.
Proof.
  unfold add_import. destruct i as [path [name|]]; [|by intros [= <-]]. case_match; [|by intros [= <-]].
  intros (b1 & ?%noted_node & ?%noted_edge)%rbind_ok. by apply (noted_app [] [] b b1).
Qed.
Lemma noted_none {A} (f : builder → A → result string builder) l b b' :
  (∀ b x b', f b x = Ok b' → noted [] b b') → each f b l = Ok b' → noted [] b b'.
Proof.
  intros Hf Hl. apply (noted_each f (λ _, []) (b_root b)) in Hl; [|by eauto..].
  assert ((l ≫= λ _, []) = ([] : list (string * Z))) as E; [|by rewrite E in Hl].
  clear. by induction l.
Qed.

Lemma noted_decl fid b d b' : add_decl fid b d = Ok b' → noted (decl_ends d) b b'.
Proof.
  unfold add_decl, decl_ends, declared. destruct (Dc_Func d) as [f|]; simpl; [|by intros [= <-]].
  destruct (Fn_Pkg f) as [pkg|]; simpl; [|done].
  intros (b1 & ?%noted_node & (b2 & ?%noted_edge & ?%noted_none)%rbind_ok)%rbind_ok; [|apply noted_call].
  apply (noted_app [] [(_, _)] b b1); [done|]. apply (noted_app [(_, _)] [] b1 (set_end b1 (funcID (Fn_FullName f)) (Dc_End d)));
    [done|]. by apply (noted_app [] [] _ b2).
Qed.

Lemma noted_file root p b file b' : b_root b = root → add_file p b file = Ok b' → noted (file_ends root file) b b'.
Proof.
  intros Hr. unfold add_file, file_ends. rewrite Hr. destruct (relFile root file.1) as [rel|]; [|by intros [= <-]].
  intros (b1 & H1%noted_node & (b2 & H2%noted_edge & Hw)%rbind_ok)%rbind_ok.
  apply (noted_app [] _ b b1); [done|]. apply (noted_app [] _ b1 b2); [done|].
  eapply (noted_each _ _ (b_root b2)); [|done|exact Hw]. intros b3 d b4 _. apply noted_decl.
Qed.

Lemma noted_package root b p b' : b_root b = root → addPackage b p = Ok b' → noted (package_ends root p) b b'.
Proof.
  intros Hr. unfold addPackage. destruct (negb _); [done|].
  intros (b1 & H1%noted_node & (b2 & H2%noted_none & Hw)%rbind_ok)%rbind_ok; [|apply noted_import].
  apply (noted_app [] _ b b1); [done|]. apply (noted_app [] _ b1 b2); [done|].
  eapply (noted_each _ _ root); [|by rewrite (proj1 H2), (proj1 H1)|exact Hw]. intros b3 f b4. apply noted_file.
Qed.

Lemma load_packages_noted root module pkgs b :
  load_packages root module pkgs = Ok b → b_ends b = foldl put_end ∅ (module_ends module root pkgs).
Proof.
  intros Hl. apply (noted_each _ (package_ends root) root) in Hl as [_ ->]; [done| |done].
  intros b1 p b2. apply noted_package.
Qed.

(** The last line noted for an identifier is that of its last declaration. *)
Definition last_end (D : list (string * Z)) (id : string) : option Z := last (snd <$> filter (λ kv, kv.1 = id) D).

Lemma put_ends_lookup D id : foldl put_end ∅ D !! id = last_end D id.
Proof.
  unfold last_end. induction D as [|[k v] D IH] using rev_ind; [done|].
  rewrite foldl_app, filter_app, fmap_app. simpl. unfold put_end at 1. simpl.
  destruct (decide (k = id)) as [->|Hne].
  - rewrite lookup_insert_eq, filter_cons_True by done. simpl. by rewrite last_snoc.
  - rewrite lookup_insert_ne, filter_cons_False by done. by rewrite app_nil_r.
Qed.

Lemma load_packages_grown root module pkgs b :
  load_packages root module pkgs = Ok b →
  grown (module_nodes module root pkgs) (module_edges module root pkgs) (newBuilder module root) b.
Proof.
  unfold load_packages. intros Hl. eapply (each_grown module root _ _ _ ∅); [|by split|exact Hl].
  intros b1 p b2 H1 Hp. by eapply addPackage_grown.
Qed.
Lemma newBuilder_ok module root : builder_ok (newBuilder module root).
Proof. split; simpl; [set_solver|constructor|set_solver|constructor|constructor|unfold maxNodes, maxEdges; lia]. Qed.

(** ** The graph of the builder *)

Lemma with_end_id ends n : N_ID (with_end ends n) = N_ID n.
Proof. unfold with_end. by destruct (ends !! N_ID n). Qed.
Lemma with_end_ids ends (ns : list Node) : N_ID <$> (with_end ends <$> ns) = N_ID <$> ns.
Proof. rewrite <- list_fmap_compose. apply list_fmap_ext. intros i n _. apply with_end_id. Qed.

Lemma elem_of_graph_ids b id : id ∈ (N_ID <$> g_nodes (graph b)) ↔ id ∈ (N_ID <$> b_nodes b).
Proof.
  simpl. rewrite <- (with_end_ids (b_ends b) (b_nodes b)). rewrite !list_elem_of_fmap.
  by setoid_rewrite elem_of_sort_cmp.
Qed.

Lemma graph_graph_ok b : builder_ok b → TrimSpace (b_module b) ≠ "" → graph_ok (graph b).
Proof.
  intros [Hi Hnd Hk Hns Hes [Hs1 Hs2]] Hm. split; simpl; try done.
  - rewrite (sort_cmp_perm _ _), with_end_ids. done.
  - intros n (m & -> & Hin)%elem_of_sort_cmp%list_elem_of_fmap. rewrite Forall_forall in Hns.
    destruct (Hns m) as [Hid Hkind]; [done|]. unfold with_end. by destruct (b_ends b !! N_ID m).
  - intros e Hin%elem_of_sort_cmp. rewrite Forall_forall in Hes.
    destruct (Hes e Hin) as (Hf & Ht & ?).
    rewrite Hi, !elem_of_list_to_set in Hf, Ht.
    pose proof (elem_of_graph_ids b) as Hg. simpl in Hg. by rewrite !Hg.
  - rewrite !length_sort_cmp, length_fmap. done.
Qed.

(** ** Keys of edges *)

Definition no_nul (s : string) : Prop := byte 0 ∉ bytes s.

Lemma nul_inj s s' t t' :
  no_nul s → no_nul s' → s +:+ String (byte 0) t = s' +:+ String (byte 0) t' → s = s' ∧ t = t'.
Proof.
  unfold no_nul. revert s'. induction s as [|a s IH]; intros [|a' s'] Hs Hs'; simpl in *.
  - by intros [= ->].
  - intros [= <- _]. set_solver.
  - intros [= -> _]. set_solver.
  - intros [= -> Heq]. destruct (IH s') as [-> ->]; [set_solver..|done|done].
Qed.

Definition prov_of (kind : string) : string := if kind == EdgeContains then ProvenanceSyntax else ProvenanceTypes.

(** What every edge asked for looks like. *)
Definition proper (e : Edge) : Prop :=
  E_From e ≠ "" ∧ E_To e ≠ "" ∧ E_Provenance e = prov_of (E_Kind e).

Lemma module_edges_proper module root pkgs e : e ∈ module_edges module root pkgs → proper e.
Proof.
  unfold module_edges, package_edges, file_edges, decl_edges, call_edges, import_edges.
  intros (p & He & _)%list_elem_of_bind. apply elem_of_app in He as [He|He].
  - apply list_elem_of_bind in He as ([path [name|]] & He & _); [|by apply elem_of_nil in He].
    case_match; [|by apply elem_of_nil in He]. by apply list_elem_of_singleton in He as ->.
  - apply list_elem_of_bind in He as (file & He & _). case_match; [|by apply elem_of_nil in He].
    apply elem_of_cons in He as [->|He]; [done|]. apply list_elem_of_bind in He as (d & He & _).
    destruct (declared d) as [[f pkg]|]; [|by apply elem_of_nil in He].
    apply elem_of_cons in He as [->|He]; [done|]. apply list_elem_of_bind in He as (c & He & _).
    destruct (module_callee module c) as [[g pkg']|]; [|by apply elem_of_nil in He].
    by apply list_elem_of_singleton in He as ->.
Qed.

Lemma edge_key_inj e e' :
  no_nul (E_From e) → no_nul (E_To e) → no_nul (E_From e') → no_nul (E_To e') → proper e → proper e' →
  edge_key e = edge_key e' → e = e'.
Proof.
  intros Hf Ht Hf' Ht' (_ & _ & Hp) (_ & _ & Hp') Hk. unfold edge_key in Hk.
  apply nul_inj in Hk as [Hfrom Hk]; [|done..]. apply nul_inj in Hk as [Hto Hk]; [|done..].
  destruct e, e'. simpl in *. congruence.
Qed.

Lemma loaded_edges root module pkgs b :
  load_packages root module pkgs = Ok b →
  (∀ e, e ∈ module_edges module root pkgs → no_nul (E_From e) ∧ no_nul (E_To e)) →
  ∀ e, e ∈ b_edges b ↔ e ∈ module_edges module root pkgs ∧ E_From e ≠ E_To e.
Proof.
  intros Hl Hnul. apply load_packages_grown in Hl as [Hok _ _ _ Hs _ Hall].
  destruct (Hok (newBuilder_ok _ _)) as [_ _ Hkeys _ _ _]. intros e. split.
  - intros [[]%not_elem_of_nil|?]%Hs. done.
  - intros [Hin Hne]. pose proof (module_edges_proper _ _ _ _ Hin) as Hp.
    assert (edge_key e ∈ b_seenE b) as Hk by (apply Hall; by destruct Hp as (? & ? & ?)).
    rewrite Hkeys, elem_of_list_to_set in Hk. apply list_elem_of_fmap in Hk as (e' & Hk & Hin').
    pose proof Hin' as [[]%not_elem_of_nil|[Hw _]]%Hs.
    assert (e = e') as ->; [|done]. destruct (Hnul e Hin), (Hnul e' Hw).
    apply edge_key_inj; eauto using module_edges_proper.
Qed.

Lemma module_nodes_end module root pkgs n : n ∈ module_nodes module root pkgs → N_EndLine n = 0%Z.
Proof.
  unfold module_nodes, package_nodes, file_nodes, decl_nodes, call_nodes, import_nodes.
  intros (p & Hn & _)%list_elem_of_bind. apply elem_of_cons in Hn as [->|Hn]; [done|].
  apply elem_of_app in Hn as [Hn|Hn].
  - apply list_elem_of_bind in Hn as ([path [name|]] & Hn & _); [|by apply elem_of_nil in Hn].
    case_match; [|by apply elem_of_nil in Hn]. by apply list_elem_of_singleton in Hn as ->.
  - apply list_elem_of_bind in Hn as (file & Hn & _). case_match; [|by apply elem_of_nil in Hn].
    apply elem_of_cons in Hn as [->|Hn]; [done|]. apply list_elem_of_bind in Hn as (d & Hn & _).
    destruct (declared d) as [[f pkg]|]; [|by apply elem_of_nil in Hn].
    apply elem_of_cons in Hn as [->|Hn]; [done|]. apply list_elem_of_bind in Hn as (c & Hn & _).
    destruct (module_callee module c) as [[g pkg']|]; [|by apply elem_of_nil in Hn].
    by apply list_elem_of_singleton in Hn as ->.
Qed.

Section correct.
  Context `{GoPackages} (environ : list string) (wd : option string).

Lemma Load_inv ctx t dir g :
  Load environ wd ctx t dir = Ok g →
  ∃ root pkgs b, os.Abs wd dir = Some root ∧ packages_Load t (loadEnv environ) root = Ok pkgs ∧
    load_packages root (module_path pkgs) pkgs = Ok b ∧ b_funcs b ≠ 0%Z ∧ g = graph b.
Proof.
  unfold Load. destruct ctx; [done|]. destruct (os.Abs wd dir) as [root|]; [|done].
  destruct (os.Stat t root) as [[| |]|]; [done| |done|done].
  intros (_ & _ & Hl)%rbind_ok. destruct (packages_Load t _ root) as [pkgs|] eqn:Ep; [|done].
  apply rbind_ok in Hl as (_ & _ & Hl). apply rbind_ok in Hl as (_ & _ & Hl).
  apply rbind_ok in Hl as (_ & _ & Hl). apply rbind_ok in Hl as (b & Hb & Hl).
  apply rbind_ok in Hl as (_ & Hf%guard_err_ok & [= <-]). exists root, pkgs, b.
  split_and!; try done. by apply Z.eqb_neq.
Qed.

(** The node [m] with the last line of the last declaration of its function. *)
Definition extended (ends : list (string * Z)) (m : Node) : Node :=
  MkNode (N_ID m) (N_Kind m) (N_Name m) (N_Pkg m) (N_File m) (N_Line m) (default 0%Z (last_end ends (N_ID m))).

Lemma with_end_extended root module pkgs b m :
  load_packages root module pkgs = Ok b → m ∈ module_nodes module root pkgs →
  with_end (b_ends b) m = extended (module_ends module root pkgs) m.
Proof.
  intros Hb Hm. unfold with_end, extended. rewrite (load_packages_noted _ _ _ _ Hb), put_ends_lookup.
  destruct (last_end _ _); [done|]. pose proof (module_nodes_end _ _ _ _ Hm) as He. destruct m. simpl in *. by subst.
Qed.

(** C39: loading a Go module gives the graph of what the type checker knows of it.
    The nodes asked for are the packages of the module, the packages of it that they
    import, their files and functions, and the functions and methods that are called;
    a node of the graph is the first one asked for with its identifier, ending at the
    last line of the last declaration with that identifier (functions with the same
    full name share a node). The edges are exactly the imports, the contents of
    packages and files and the calls of functions and methods of the module,
    interface methods among them, without those from a node to itself, where no
    identifier holds a NUL byte. With a module path that is not blank the graph is
    well-formed, so that its snapshot is accepted and gives it back. *)
Theorem Load_graph ctx t dir g :
  Load environ wd ctx t dir = Ok g →
  ∃ root pkgs, os.Abs wd dir = Some root ∧ packages_Load t (loadEnv environ) root = Ok pkgs ∧
    let module := module_path pkgs in
    let asked := module_nodes module root pkgs in
    g_module g = module ∧ NoDup (N_ID <$> g_nodes g) ∧
    (∀ n, n ∈ g_nodes g ↔
       ∃ m, head (filter (λ x, N_ID x = N_ID n) asked) = Some m ∧ n = extended (module_ends module root pkgs) m) ∧
    ((∀ e, e ∈ module_edges module root pkgs → no_nul (E_From e) ∧ no_nul (E_To e)) →
     ∀ e, e ∈ g_edges g ↔ e ∈ module_edges module root pkgs ∧ E_From e ≠ E_To e) ∧
    (TrimSpace module ≠ "" → graph_ok g ∧ FromSnapshot (Snapshot_ (Some g)) = Ok g).
Proof using All.
  intros (root & pkgs & b & Habs & Hp & Hb & _ & ->)%Load_inv. exists root, pkgs. split; [done|]. split; [done|].
  pose proof (load_packages_grown _ _ _ _ Hb) as [Hok [Hm _] _ Hn _ _ _].
  specialize (Hok (newBuilder_ok _ _)). simpl in Hn, Hm. split; [done|]. split_and!.
  - simpl. rewrite (sort_cmp_perm _ _), with_end_ids. apply Hok.
  - intros n. cbn [graph index g_nodes]. rewrite elem_of_sort_cmp, list_elem_of_fmap, Hn.
    setoid_rewrite elem_of_first_nodes. split.
    + intros (m & -> & _ & Hf). exists m. rewrite with_end_id. split; [done|]. apply head_Some_elem_of, list_elem_of_filter in Hf as [_ Hf].
      by apply with_end_extended.
    + intros (m & Hf & ->). pose proof Hf as [Hid Hin]%head_Some_elem_of%list_elem_of_filter.
      exists m. split; [symmetry; by apply with_end_extended|]. split; [set_solver|done].
  - intros Hnul e. simpl. rewrite elem_of_sort_cmp. by apply loaded_edges.
  - intros Ht. assert (graph_ok (graph b)) as Hg by (apply graph_graph_ok; [done|by rewrite Hm]).
    split; [done|]. by apply FromSnapshot_iff.
Qed.
End correct.

(** ** Snapshot files *)

Class SnapshotJSON := {
  snapshot_to_json : Snapshot → result string string;
  snapshot_of_json : string → result string Snapshot;
}.
(** What is encoded is read back. *)
Class SnapshotCodec `{SnapshotJSON} : Prop := {
  snapshot_decodes snap raw : snapshot_to_json snap = Ok raw → snapshot_of_json raw = Ok snap;
}.

Definition maxSnapshotBytes : Z := Z.shiftl 20 20.

Definition source_error (e : SourceErr) : string :=
  "source: " +:+
  match e with
  | ErrMissingModule => "snapshot missing module"
  | ErrNodeCap => "snapshot node cap " +:+ Itoa maxNodes +:+ " exceeded"
  | ErrEdgeCap => "snapshot edge cap " +:+ Itoa maxEdges +:+ " exceeded"
  | ErrMissingID => "node missing id"
  | ErrNodeKind k => "unknown node kind " +:+ Quote k
  | ErrDuplicate id => "duplicate node " +:+ id
  | ErrDanglingFrom id => "dangling edge from " +:+ id
  | ErrDanglingTo id => "dangling edge to " +:+ id
  | ErrEdgeKind k => "unknown edge kind " +:+ Quote k
  | ErrProvenance p => "unknown provenance " +:+ Quote p
  end.

Section files.
  Context `{SnapshotJSON} (cwd : string).

Definition ReadFile (t : os.tree) (path : string) : result string Graph :=
  match os.ReadFile t (os.from_dir cwd path) with
  | None => Err ("source: read snapshot " +:+ path)
  | Some raw =>
      if (maxSnapshotBytes <? len raw)%Z then
        Err ("source: snapshot " +:+ path +:+ " exceeds " +:+ Itoa maxSnapshotBytes +:+ " bytes")
      else match snapshot_of_json raw with
           | Err e => Err ("source: parse snapshot " +:+ path +:+ ": " +:+ e)
           | Ok snap => match FromSnapshot snap with Ok g => Ok g | Err e => Err (source_error e) end
           end
  end.

(** [None] is the nil graph. *)
Definition WriteFile (g : option Graph) (path : string) (t : os.tree) : result string os.tree :=
  match g with
  | None => Err "source: write snapshot: nil graph"
  | Some _ =>
      match snapshot_to_json (Snapshot_ g) with
      | Err e => Err ("source: encode snapshot: " +:+ e)
      | Ok raw =>
          match os.WriteFile t (os.from_dir cwd path) raw with
          | None => Err ("source: write snapshot " +:+ path)
          | Some t => Ok t
          end
      end
  end.

(** The directory comes first; with neither there is no graph. *)
Definition Open `{GoPackages} (environ : list string) (ctx : option string) (t : os.tree) (dir snap : string)
    : result string (option Graph) :=
  let dir := TrimSpace dir in
  let snap := TrimSpace snap in
  if dir != "" then let? g := Load environ (Some cwd) ctx t dir in Ok (Some g)
  else if snap != "" then let? g := ReadFile t snap in Ok (Some g)
  else Ok None.
End files.

(** Path lookup does not tell a file from nothing. *)
Definition same_shape (t t' : os.tree) : Prop :=
  ∀ q, t' !! q = t !! q ∨
       ((∃ s, t' !! q = Some (os.NFile s)) ∧ (t !! q = None ∨ ∃ s, t !! q = Some (os.NFile s))).

Lemma resolve_shape t t' : same_shape t t' →
  ∀ links follow dir todo, os.resolve links t' follow dir todo = os.resolve links t follow dir todo.
Proof.
  intros Hs links. induction links as [|links IH]; intros follow dir todo; revert dir;
    induction todo as [|e todo IHt]; intros dir; try done; cbn.
  all: destruct ((e == "") || (e == ".")); [apply IHt|]; destruct (e == ".."); [apply IHt|].
  all: destruct (Hs (dir ++ [e])) as [->|[[s ->] [->|[s' ->]]]]; [|done..].
  all: destruct (t !! (dir ++ [e])) as [[s| |target]|]; [done|apply IHt| |done].
  all: destruct (_ && _); [done|]; first [done|apply IH].
Qed.

Lemma WriteFile_ReadFile t p content t' :
  os.WriteFile t p content = Some t' → os.ReadFile t' p = Some content.
Proof.
  unfold os.WriteFile, os.ReadFile, os.Stat, os.lookup_path. intros (q & Hq & Hw)%bind_Some.
  assert (q ≠ [] ∧ t' = <[q := os.NFile content]> t ∧
    (t !! q = None ∨ ∃ s, t !! q = Some (os.NFile s))) as (Hne & -> & Hold).
  { unfold os.entry in Hw. case_bool_decide; [done|]. destruct (t !! q) as [[s| |l]|]; simplify_eq; eauto. }
  assert (same_shape t (<[q := os.NFile content]> t)) as Hs.
  { intros q'. destruct (decide (q' = q)) as [->|Hd]; [right; rewrite lookup_insert_eq; eauto|left].
    by rewrite lookup_insert_ne. }
  rewrite (resolve_shape _ _ Hs), Hq. simpl. unfold os.entry.
  rewrite bool_decide_eq_false_2, lookup_insert_eq by done. done.
Qed.

(** A graph that was loaded and written to a snapshot file, as [cmd/sourceindex]
    does, is the graph that the server reads. *)
Theorem snapshot_file_roundtrip `{GoPackages} `{SnapshotCodec} environ cwd ctx t dir g path t' :
  Load environ (Some cwd) ctx t dir = Ok g → TrimSpace (g_module g) ≠ "" →
  WriteFile cwd (Some g) path t = Ok t' →
  (∀ raw, snapshot_to_json (Snapshot_ (Some g)) = Ok raw → len raw ≤ maxSnapshotBytes)%Z →
  ReadFile cwd t' path = Ok g.
Proof.
  intros (root & pkgs & b & _ & _ & Hb & _ & ->)%Load_inv Hm Hw Hsize. unfold WriteFile in Hw.
  destruct (snapshot_to_json _) as [raw|] eqn:Ej; [|done]. specialize (Hsize raw eq_refl).
  destruct (os.WriteFile _ _ _) as [t1|] eqn:Ew; [|done]. injection Hw as <-. unfold ReadFile.
  rewrite (WriteFile_ReadFile _ _ _ _ Ew). destruct (Z.ltb_spec maxSnapshotBytes (len raw)); [lia|].
  rewrite (snapshot_decodes _ _ Ej). pose proof (load_packages_grown _ _ _ _ Hb) as [Hok _ _ _ _ _ _].
  assert (FromSnapshot (Snapshot_ (Some (graph b))) = Ok (graph b)) as ->; [|done].
  apply FromSnapshot_iff. split; [done|]. apply graph_graph_ok; [|done]. apply Hok, newBuilder_ok.
Qed.

End load.

(** ** A small module *)

Definition toy_func (name file : string) (line : Z) : load.Func :=
  load.MkFunc ("m/a." +:+ name) name (Some "m/a") file line false.
Definition toy_package : load.Package :=
  load.MkPackage "m/a" "a" (Some "m") [] true [("fmt", Some "fmt"); ("m/b", Some "b")]
    [[load.MkDecl (Some (toy_func "Serve" "/w/a/a.go" 3)) 9
        [Some (load.MkFunc "fmt.Println" "Println" (Some "fmt") "/go/fmt.go" 1 false); None;
         Some (load.MkFunc "m/b.Do" "Do" (Some "m/b") "/w/b/b.go" 5 false);
         Some (load.MkFunc "(m/b.Store).Get" "Get" (Some "m/b") "/w/b/b.go" 9 true)];
      load.MkDecl (Some (toy_func "init" "/w/a/a.go" 20)) 24 []];
     [load.MkDecl (Some (toy_func "init" "/w/a/z.go" 3)) 5 []]]
    ["/w/a/a.go"; "/w/a/z.go"].
#[local] Instance toy_loader : load.GoPackages := { load.packages_Load := λ _ _ _, Ok [toy_package] }.
Definition toy_module : os.tree := {[ ["w"] := os.NDir; ["w"; "go.mod"] := os.NFile "module m" ]}.

Lemma Load_graph_witness :
  ∃ g, load.Load [] None None toy_module "/w" = Ok g ∧
    MkEdge "func:m/a.Serve" "func:m/b.Do" EdgeCalls ProvenanceTypes ∈ g_edges g ∧
    FromSnapshot (Snapshot_ (Some g)) = Ok g.
Proof.
  destruct (load.Load [] None None toy_module "/w") as [g|e] eqn:E; [|vm_compute in E; discriminate E].
  destruct (load.Load_graph [] None None toy_module "/w" g E) as (root & pkgs & Hr & Hp & _ & _ & _ & He & Hg).
  injection Hr as <-. injection Hp as <-. exists g. split; [reflexivity|]. split.
  - apply He.
    + intros e Hin. assert (Forall (λ e, load.no_nul (E_From e) ∧ load.no_nul (E_To e))
        (load.module_edges "m" "/w" [toy_package])) as Hall.
      { apply (bool_decide_unpack _). vm_compute. reflexivity. }
      rewrite Forall_forall in Hall. by apply Hall.
    + split; [|done]. apply (bool_decide_unpack _). vm_compute. reflexivity.
  - by apply Hg.
Defined.

(** Functions with the same full name, like the [init] functions of a package, share
    a node: it starts where the first one starts and ends where the last one ends,
    also when that is in another file. *)
Definition toy_nodes : list Node :=
  match load.Load [] None None toy_module "/w" with Ok g => g_nodes g | Err _ => [] end.
Lemma init_functions_share_a_node :
  (λ n, (N_File n, N_Line n, N_EndLine n)) <$> filter (λ n, N_ID n = "func:m/a.init") toy_nodes =
  [("a/a.go", 20%Z, 5%Z)].
Proof. vm_compute. reflexivity. Qed.

(** A call through an interface is not omitted: the method of the interface becomes a
    function of the graph, at the line of the interface, and an edge leads to it. *)
Definition toy_edges : list Edge :=
  match load.Load [] None None toy_module "/w" with Ok g => g_edges g | Err _ => [] end.
Lemma interface_calls_kept :
  MkEdge "func:m/a.Serve" "func:(m/b.Store).Get" EdgeCalls ProvenanceTypes ∈ toy_edges ∧
  (λ n, (N_File n, N_Line n, N_EndLine n)) <$> filter (λ n, N_ID n = "func:(m/b.Store).Get") toy_nodes =
  [("b/b.go", 9%Z, 0%Z)].
Proof. split; [apply (bool_decide_unpack _)|]; vm_compute; reflexivity. Qed.
