(* ===== verification/Snapshot.v ===== *)
(** * Snapshots of a module: what [gitrev] leaves behind

    [GitLaws] states what git documents of the commands a snapshot runs: some only
    read, some write objects and the index named by [GIT_INDEX_FILE]. From these
    laws: a snapshot changes neither the references, the user's index nor any file;
    the tree it reports is the module tree of its commit; the attributes it
    accepts are those that keep every byte of a file. *)

From S2P Require Import Prelude GoStrings GoText GoOS Net Ingest Replay Impact Plan Validate GitRev.
Import gitrev gitrun.

Module snapshots.

(** ** What git documents *)

(** The arguments after the [-c] settings. *)
Fixpoint plain_args (args : list string) : list string :=
  match args with
  | c :: _ :: rest => if c == "-c" then plain_args rest else args
  | _ => args
  end.

(** Commands that change nothing (with [GIT_OPTIONAL_LOCKS=0]). *)
Definition reading (args : list string) : bool :=
  match plain_args args with
  | c :: rest =>
      bool_decide (c ∈ ["rev-parse"; "ls-files"; "check-attr"; "ls-tree"; "cat-file"]) ||
      ((c == "config") && bool_decide ("--get" ∈ rest))
  | [] => false
  end.

(** Commands that write objects and the index, but no reference and no file of
    the work tree. *)
Definition indexing (args : list string) : bool :=
  match plain_args args with
  | c :: rest =>
      ((c == "read-tree") && bool_decide ("-u" ∉ rest)) || (c == "add") ||
      ((c == "apply") && bool_decide ("--cached" ∈ rest)) ||
      (c == "write-tree") || (c == "commit-tree")
  | [] => false
  end.

(** [names rev suffix]: how the module tree is named within a commit or tree. *)
Definition module_suffix (r : Repo) : string := if Rel r != "." then ":" +:+ Rel r else "^{tree}".

Class GitLaws `{GoGit} := {
  (** What the user's part of the repository is: references, settings and the
      index of the work tree. *)
  Kept : Type;
  kept : Repository → Kept;
  (** The object a name stands for. *)
  object : Repository → string → option string;

  git_reading env root args input w out err w' :
    reading args = true → env_get env "GIT_OPTIONAL_LOCKS" = Some "0" →
    git (MkCmd env ("-C" :: root :: args) input) w = (out, err, w') → w' = w;

  git_indexing env root args input w out err w' ds f :
    indexing args = true → env_get env "GIT_INDEX_FILE" = Some (os.abs_path (ds ++ [f])) →
    git (MkCmd env ("-C" :: root :: args) input) w = (out, err, w') →
    kept w'.1 = kept w.1 ∧ ∀ q, ¬ os.inside ds q → w'.2 !! q = w.2 !! q;

  git_rev_parse env root name input w out w' :
    git (MkCmd env ["-C"; root; "rev-parse"; "--verify"; name] input) w = (out, None, w') →
    object w.1 name = Some (TrimSpace out);

  (** Objects stay what they are while others are added. *)
  git_objects env root args input w out err w' id suffix x :
    indexing args = true → git (MkCmd env ("-C" :: root :: args) input) w = (out, err, w') →
    objectID id = true → object w.1 (id +:+ suffix) = Some x → object w'.1 (id +:+ suffix) = Some x;

  git_write_tree env root input w out w' :
    git (MkCmd env ["-C"; root; "write-tree"] input) w = (out, None, w') →
    objectID (TrimSpace out) = true;

  (** A commit made for a tree names what the tree names. *)
  git_commit_tree env root name email parent msg tree input w out w' suffix x :
    git (MkCmd env ["-C"; root; "-c"; name; "-c"; email; "commit-tree"; "-p"; parent; "-m"; msg; tree]
           input) w = (out, None, w') →
    object w'.1 (tree +:+ suffix) = Some x → object w'.1 (TrimSpace out +:+ suffix) = Some x;
}.

(** ** Relations that computations keep *)

Section keeps.
  Context `{GoGit} (P : relation World) `{!PreOrder P}.

Definition keeps {A} (m : GM A) : Prop := ∀ w res w', m w = (res, w') → P w w'.

Lemma keeps_ret {A} (a : A) : keeps (gret a).
Proof using All. by intros w ?? [= <- <-]. Qed.
Lemma keeps_fail {A} e : keeps (gfail (A := A) e).
Proof using All. by intros w ?? [= <- <-]. Qed.
Lemma keeps_lift {A} (r : result Error A) : keeps (glift r).
Proof using All. by intros w ?? [= <- <-]. Qed.
Lemma keeps_files : keeps files.
Proof using All. by intros w ?? [= <- <-]. Qed.
Lemma keeps_bind {A B} (m : GM A) (k : A → GM B) : keeps m → (∀ a, keeps (k a)) → keeps (gbind m k).
Proof using All.
  intros Hm Hk w res w'. unfold gbind. destruct (m w) as [[a|e] w1] eqn:E; apply Hm in E.
  - intros H2%Hk. by etrans.
  - by intros [= _ <-].
Qed.
(** The same, with what [m] returns. *)
Lemma keeps_bind_val {A B} (Q : A → Prop) (m : GM A) (k : A → GM B) :
  keeps m → (∀ w a w', m w = (Ok a, w') → Q a) → (∀ a, Q a → keeps (k a)) → keeps (gbind m k).
Proof using All.
  intros Hm HQ Hk w res w'. unfold gbind. destruct (m w) as [[a|e] w1] eqn:E.
  - intros H2. pose proof E as E'. apply HQ in E. apply Hm in E'. eapply Hk in H2; [by etrans|done].
  - apply Hm in E. by intros [= _ <-].
Qed.
Lemma keeps_try {A B} (m : GM A) (k : result Error A → GM B) :
  keeps m → (∀ r, keeps (k r)) → keeps (gtry m k).
Proof using All.
  intros Hm Hk w res w'. unfold gtry. destruct (m w) as [r w1] eqn:E. apply Hm in E.
  intros H2%Hk. by etrans.
Qed.
Lemma keeps_if {A} (b : bool) (m1 m2 : GM A) :
  keeps m1 → keeps m2 → keeps (if b then m1 else m2).
Proof using All. by destruct b. Qed.
Lemma keeps_result {A B} (r : result Error A) (k1 : A → GM B) (k2 : Error → GM B) :
  (∀ a, keeps (k1 a)) → (∀ e, keeps (k2 e)) →
  keeps (match r with Ok a => k1 a | Err e => k2 e end).
Proof using All. by destruct r. Qed.
End keeps.

Create HintDb gm.
#[export] Hint Resolve keeps_ret keeps_fail keeps_lift keeps_files : gm.

(** Follows the structure of a computation down to the commands it runs. *)
Ltac keeps :=
  repeat first
    [ match goal with |- ∀ _, _ => intro end
    | solve [auto with gm typeclass_instances]
    | apply keeps_bind; [typeclasses eauto| |]
    | apply keeps_try; [typeclasses eauto| |]
    | apply keeps_result; [typeclasses eauto| |]
    | apply keeps_if; [typeclasses eauto| |] ].

Section snapshot.
  Context `{GitLaws} (environ : list string).

Lemma reading_run (P : relation World) `{!PreOrder P} r index input args :
  reading args = true → keeps P (run_ok environ r index input args).
Proof using All.
  intros Hr w res w'. unfold run_ok, run, command.
  destruct (git _ w) as [[out err] w1] eqn:E. apply git_reading in E as ->; [|done|].
  - by destruct err; intros [= _ <-].
  - unfold command_env. rewrite !env_get_app. case_bool_decide; [done|].
    change (env_get ["GIT_INDEX_FILE=" +:+ index] "GIT_OPTIONAL_LOCKS") with
      (match SplitN2 ("GIT_INDEX_FILE" +:+ String (byte 61) index) (byte 61) with
       | Some (k', x) => if k' == "GIT_OPTIONAL_LOCKS" then Some x else None
       | None => None
       end).
    rewrite SplitN2_app by (by apply (bool_decide_unpack _)). done.
Qed.

(** Nothing but the directory [ds] and the objects changed. *)
Record private (ds : list string) (w w' : World) : Prop := {
  pr_kept : kept w'.1 = kept w.1;
  pr_files q : ¬ os.inside ds q → w'.2 !! q = w.2 !! q;
}.
#[local] Instance private_preorder ds : PreOrder (private ds).
Proof.
  split; [by intros w|]. intros w1 w2 w3 [K1 F1] [K2 F2]. split; [congruence|].
  intros q Hq. by rewrite F2, F1.
Qed.

Lemma indexing_run ds f r input args :
  indexing args = true → keeps (private ds) (run_ok environ r (os.abs_path (ds ++ [f])) input args).
Proof using All.
  intros Hi w res w'. unfold run_ok, run, command.
  destruct (git _ w) as [[out err] w1] eqn:E. eapply git_indexing in E as [Hk Hf]; [|done|].
  - by destruct err; intros [= _ <-].
  - by rewrite command_index.
Qed.

Lemma reading_keeps_world r index input args w res w' :
  reading args = true → run_ok environ r index input args w = (res, w') → w' = w.
Proof using All. intros Hr Hrun. symmetry. by apply (reading_run eq r index input args Hr w res w'). Qed.

#[local] Hint Extern 1 (keeps _ (run_ok _ _ _ _ _)) =>
  first [ apply reading_run; [typeclasses eauto|vm_compute; reflexivity]
        | apply indexing_run; vm_compute; reflexivity ] : gm.

Section frame.
  Context (P : relation World) `{!PreOrder P}.

Lemma subtree_keeps r index root : keeps P (subtree environ r index root).
Proof using All. unfold subtree. keeps. Qed.
Lemma Head_keeps r : keeps P (Head environ r).
Proof using All. unfold Head. keeps. Qed.
Lemma checkAttributes_keeps r index cached : keeps P (checkAttributes environ r index cached).
Proof using All. unfold checkAttributes. destruct cached; keeps. Qed.
Lemma checkSettings_keeps r : keeps P (checkSettings environ r).
Proof using All. unfold checkSettings, checkSetting. keeps. Qed.
Lemma entries_keeps r index tree : keeps P (entries environ r index tree).
Proof using All. unfold entries. keeps. Qed.
End frame.

Section private.
  Context (dir_size : Z) (ds : list string).
  Notation index := (os.abs_path (ds ++ ["index"])).

Lemma checkWorktree_private r : keeps (private ds) (checkWorktree environ dir_size r index).
Proof using All. unfold checkWorktree. keeps. Qed.
Lemma apply_patch_private r raw : keeps (private ds) (apply_patch environ r index raw).
Proof using All.
  unfold apply_patch. apply keeps_try; [typeclasses eauto|keeps|]. intros res.
  apply (keeps_bind_val (private ds) (λ args, indexing args = true)); [keeps|..].
  - intros w args w'. destruct res as [out|e]; [by intros [= <- _]|].
    case_bool_decide; [done|]. unfold gtry. destruct (run_ok _ _ _ _ _ w) as [[|] w1]; [|done].
    by intros [= <- _].
  - intros args Hargs. apply keeps_bind; [typeclasses eauto|by apply indexing_run|].
    intros _. by apply checkAttributes_keeps; typeclasses eauto.
Qed.
Lemma index_path :
  Forall plain ds → Forall os.slashless ds → os.path_Join (os.abs_path ds) "index" = index.
Proof.
  intros Hp Hs. change "index" with (Join ["index"] "/"). apply os.path_Join_abs; [done|..].
  - by apply Forall_app; split; [|repeat constructor].
  - apply Forall_app; split; [done|]. repeat constructor. by apply (bool_decide_unpack _).
Qed.
#[local] Hint Resolve apply_patch_private checkWorktree_private : gm.

Lemma snapshot_in_private r head raw worktree :
  objectID (Rev_Commit head) = true → Forall plain ds → Forall os.slashless ds →
  keeps (private ds) (snapshot_in environ dir_size r head raw worktree (os.abs_path ds)).
Proof using All.
  intros Hh Hp Hs. unfold snapshot_in. rewrite index_path by done. keeps.
  apply indexing_run. unfold indexing. simpl. rewrite bool_decide_eq_true_2; [done|].
  intros Hu%list_elem_of_singleton. by rewrite <- Hu in Hh.
Qed.
End private.

(** ** Snapshots leave no trace *)

Section trace.
  Context (dir_size : Z).

(** C15: taking a snapshot leaves no trace but objects: whatever the outcome (also
    when a command fails half way), the references, settings and index of the
    user's repository are what they were, and every file and directory of the
    machine is what it was; the temporary directory is gone. *)
Theorem snapshot_leaves_no_trace r head raw worktree ds w res w' :
  osx.creatable w.2 ds →
  snapshot environ dir_size (os.abs_path ds) r head raw worktree w = (res, w') →
  kept w'.1 = kept w.1 ∧ w'.2 = w.2.
Proof using All.
  intros Hc. unfold snapshot. destruct (objectID (Rev_Commit head)) eqn:Hh; [|by intros [= _ <-]].
  simpl. case_match; [by intros [= _ <-]|]. unfold gbind.
  destruct (checkSettings _ r w) as [[[]|e] w1] eqn:E1;
    apply (checkSettings_keeps eq) in E1; subst w1; [|by intros [= _ <-]].
  unfold MkdirTemp. rewrite osx.Mkdir_creatable by done. unfold with_RemoveAll.
  destruct (snapshot_in _ _ _ _ _ _ _ _) as [res2 w2] eqn:E2. intros [= _ <-].
  apply (snapshot_in_private dir_size ds) in E2 as [Hk Hf]; [|done|apply Hc..]. split; [done|].
  by apply osx.RemoveAll_made.
Qed.

End trace.

(** ** The tree of a snapshot *)

Lemma run_ok_inv r index input args w out w' :
  run_ok environ r index input args w = (Ok out, w') →
  git (command environ r index input args) w = (out, None, w').
Proof.
  unfold run_ok, run. destruct (git _ w) as [[out' [err|]] w1]; [done|]. by intros [= <- <-].
Qed.

Lemma subtree_object r index root w tree w' :
  subtree environ r index root w = (Ok tree, w') →
  w' = w ∧ object w.1 (root +:+ module_suffix r) = Some tree.
Proof using All.
  unfold subtree, module_suffix. intros (out & w1 & Hrun & [= <- <-])%gbind_Ok.
  pose proof Hrun as Hw%reading_keeps_world; [|done]. split; [done|].
  apply run_ok_inv, git_rev_parse in Hrun. rewrite <- Hrun. by case_bool_decide.
Qed.

Lemma entries_objectID r index tree w es w' :
  entries environ r index tree w = (Ok es, w') → objectID tree = true ∧ w' = w.
Proof using All.
  intros He. split; [|symmetry; by apply (entries_keeps eq) in He].
  revert He. unfold entries. by destruct (objectID tree).
Qed.

(** The revision of a snapshot is what was tested: its tree is the tree of the
    module directory in its commit, a valid object id; it is dirty exactly when the
    tree is not the baseline's; and its source is only declared, since nothing has
    been built from it. *)
Theorem snapshot_revision dir_size ds r head raw worktree w rev w' :
  snapshot environ dir_size (os.abs_path ds) r head raw worktree w = (Ok rev, w') →
  object w'.1 (Rev_Commit rev +:+ module_suffix r) = Some (Rev_Tree rev) ∧
  objectID (Rev_Tree rev) = true ∧ Rev_Path rev = Rel r ∧
  (Rev_Dirty rev = true ↔ Rev_Tree rev ≠ Rev_Tree head) ∧ Rev_Source rev = SourceDeclared.
Proof using All.
  unfold snapshot. case_match; [done|]. intros ([] & w0 & _ & Hs)%gbind_Ok.
  apply gbind_Ok in Hs as ([] & w1 & _ & Hs). unfold with_RemoveAll, snapshot_in in Hs.
  destruct (gtry _ _ w1) as [res w2] eqn:Hin. injection Hs as -> <-. cbn [fst]. revert Hin.
  unfold gtry. destruct (run_ok _ _ _ _ _ w1) as [[out|e] w3]; [|done].
  intros ([] & w4 & _ & Hin)%gbind_Ok. apply gbind_Ok in Hin as (root & w5 & Hroot & Hin).
  apply gbind_Ok in Hin as (tree & w6 & [-> Htree]%subtree_object & Hin).
  apply gbind_Ok in Hin as (es & w7 & [Hid ->]%entries_objectID & Hin).
  apply gbind_Ok in Hin as (commit & w8 & Hcommit%run_ok_inv & [= <- <-]).
  apply run_ok_inv, git_write_tree in Hroot. split_and!; [|done..| |done]; simpl.
  - eapply git_commit_tree; [exact Hcommit|]. eapply git_objects; [|exact Hcommit|done..]. done.
  - rewrite negb_true_iff, bool_decide_eq_false. done.
Qed.

End snapshot.
End snapshots.
