(* ===== verification/Materialize.v ===== *)
(** * Writing a tree to disk: [gitrev/materialize.go]

    [Materialize] lists the entries of a tree, asks [git cat-file --batch] for
    each blob and writes its bytes below a new directory. The answers of the batch
    process are a class, [GitBatch]; its output is a stream of bytes that is read
    entry by entry. For every output of git whatsoever nothing outside the directory
    is touched and a failure leaves nothing behind; for a git that answers as it
    documents, the directory holds exactly the files of the tree. *)

From S2P Require Import Prelude GoStrings GoText GoOS Net Ingest Replay Impact Plan Validate GitRev Snapshot.
Import gitrev gitrun snapshots.

(** A running [git cat-file --batch]: what it prints when a line is written to it
    (nothing when the pipe is broken) and the error of waiting for its end. *)
Record Batch := MkBatch {
  B_answer : string → option string;
  B_wait : option string;
}.

Class GitBatch `{GoGit} := {
  (** Starts the process; the error is that of its pipes or of starting it. *)
  batch : Cmd → World → result string Batch;
}.

Module materialize.

(** Permissions of the files that are written, by physical path. *)
Notation modes := (gmap (list string) Z).

(** The variables of the loop: the file tree and permissions, the bytes of the
    process that have not been read, and the sum of the sizes. *)
Record mstate := MkM {
  m_tree : os.tree;
  m_modes : modes;
  m_pending : string;
  m_total : Z;
}.

Definition mErr (text : string) : Error := errorf text.

Definition file_mode (e : treeEntry) : Z := if mode e == "100755" then 493%Z else 420%Z.

(** Copies [n] bytes to the new file [target]; reads the separator. *)
Definition write_file (e : treeEntry) (target : string) (n : Z) (st : mstate)
    : result Error () * mstate :=
  match os.MkdirAll (m_tree st) (os.Dir target) with
  | (false, t) => (Err (mErr "mkdir"), MkM t (m_modes st) (m_pending st) (m_total st))
  | (true, t) =>
      match osx.OpenExcl t target with
      | None => (Err (mErr "open"), MkM t (m_modes st) (m_pending st) (m_total st))
      | Some (q, t) =>
          let ms := <[q := file_mode e]> (m_modes st) in
          let content := str_take (Z.to_nat n) (m_pending st) in
          let rest := str_drop (Z.to_nat n) (m_pending st) in
          let st := MkM (<[q := os.NFile content]> t) ms rest (m_total st) in
          if (len content <? n)%Z then (Err (mErr "EOF"), st)
          else match rest with
               | "" => (Err (mErr "EOF"), st)
               | String separator rest =>
                   let st := MkM (m_tree st) (m_modes st) rest (m_total st) in
                   if separator != nl then
                     (Err (mErr "gitrev: materialize: invalid blob separator"), st)
                   else (Ok tt, st)
               end
      end
  end.

(** One round of the loop. [ctx] is the context's error. *)
Definition write_entry (ctx : option string) (b : Batch) (dst : string) (e : treeEntry) (st : mstate)
    : result Error () * mstate :=
  match ctx with
  | Some err => (Err (mErr err), st)
  | None =>
      match B_answer b (blob e +:+ String nl "") with
      | None => (Err (mErr "write |1: broken pipe"), st)
      | Some out =>
          let pending := m_pending st +:+ out in
          match SplitN2 pending nl with
          | None => (Err (mErr "EOF"), MkM (m_tree st) (m_modes st) "" (m_total st))
          | Some (header, pending) =>
              let st := MkM (m_tree st) (m_modes st) pending (m_total st) in
              match Fields header with
              | [f0; f1; f2] =>
                  if (f0 != blob e) || (f1 != "blob") then
                    (Err (mErr "gitrev: materialize: invalid blob response"), st)
                  else
                    let cap := mErr ("gitrev: materialize: tree exceeds cap " +:+ Itoa maxCopyBytes) in
                    match Atoi f2 with
                    | None => (Err cap, st)
                    | Some n =>
                        if ((n <? 0) || (maxCopyBytes - m_total st <? n))%Z then (Err cap, st)
                        else
                          let st := MkM (m_tree st) (m_modes st) pending (m_total st + n)%Z in
                          let target := os.path_Join dst (name e) in
                          match osx.Rel dst target with
                          | None => (Err (mErr "gitrev: materialize: path outside destination"), st)
                          | Some rel =>
                              if (rel == "..") || HasPrefix rel "../" then
                                (Err (mErr "gitrev: materialize: path outside destination"), st)
                              else write_file e target n st
                          end
                    end
              | _ => (Err (mErr "gitrev: materialize: invalid blob response"), st)
              end
          end
      end
  end.

(** [ctxs i]: the context's error before the [i]-th entry. *)
Fixpoint write_entries (ctxs : nat → option string) (i : nat) (b : Batch) (dst : string)
    (es : list treeEntry) (st : mstate) : result Error () * mstate :=
  match es with
  | [] => (Ok tt, st)
  | e :: es =>
      match write_entry (ctxs i) b dst e st with
      | (Ok _, st) => write_entries ctxs (S i) b dst es st
      | (Err err, st) => (Err err, st)
      end
  end.

(** Errors get the prefix of the package once. *)
Definition prefixed (e : Error) : Error :=
  if HasPrefix (error_text e) "gitrev: materialize:" then e else wrap "gitrev: materialize: " e.

Definition remove_modes (ms : modes) (t : os.tree) (dst : string) : modes :=
  match os.lookup_path t false dst with
  | Some q => filter (λ kv, ¬ (q `prefix_of` kv.1)) ms
  | None => ms
  end.

Section materialize.
  Context `{GitBatch} (environ : list string).

(** After the directory has been made. *)
Definition fill (ctxs : nat → option string) (r : Repo) (es : list treeEntry) (dst : string)
    (w : World) (ms : modes) : result Error () * os.tree * modes :=
  match batch (command environ r "" None ["cat-file"; "--batch"]) w with
  | Err err => (Err (mErr err), w.2, ms)
  | Ok b =>
      let '(res, st) := write_entries ctxs 0 b dst es (MkM w.2 ms "" 0) in
      (match res, B_wait b with
       | Ok _, Some err => Err (mErr ("gitrev: materialize: " +:+ err))
       | _, _ => res
       end, m_tree st, m_modes st)
  end.

Definition Materialize (ctxs : nat → option string) (r : Repo) (tree dst : string) (w : World)
    (ms : modes) : result Error () * World * modes :=
  match entries environ r "" tree w with
  | (Err e, w) => (Err (prefixed e), w, ms)
  | (Ok es, w) =>
      match os.Mkdir w.2 dst with
      | None => (Err (mErr "gitrev: materialize: mkdir"), w, ms)
      | Some t =>
          match fill ctxs r es dst (w.1, t) ms with
          | (Ok _, t, ms) => (Ok tt, (w.1, t), ms)
          | (Err e, t, ms) =>
              (Err (prefixed e), (w.1, osx.RemoveAll t dst), remove_modes ms t dst)
          end
      end
  end.

End materialize.

(** ** Safe names *)

(** A safe name, by its elements: none is empty, a dot, two dots or [.git]. *)
Record safe_elems (es : list string) : Prop := {
  se_ne : es ≠ [];
  se_plain : Forall plain es;
  se_slash : Forall os.slashless es;
  se_git : ".git" ∉ es;
}.

Lemma Split_dot_clean name :
  HasPrefix name "/" = false → name ≠ "." → Clean name = name → "." ∉ Split name slash.
Proof.
  intros Hp Hd Hc. destruct (Clean_relative name Hp) as [He|(es & He & Hne & Hes & Hs)];
    rewrite Hc in He; [done|].
  rewrite He, Split_Join_slash by done. intros Hin.
  apply (proj1 (Forall_forall _ _) Hes) in Hin as [_ []]. done.
Qed.

Lemma safeTreePath_iff name :
  safeTreePath name = true ↔ safe_elems (Split name slash) ∧ nul ∉ bytes name.
Proof.
  unfold safeTreePath. split.
  - intros Hs. destruct (bool_decide (name = "")) eqn:E1; [done|].
    destruct (bool_decide (name = ".")) eqn:E2; [done|].
    destruct (HasPrefix name "/") eqn:E3; [done|].
    destruct (bool_decide (nul ∈ bytes name)) eqn:E4; [done|]. cbn [orb] in Hs.
    destruct (existsb _ _) eqn:E5; [done|]. go_inv.
    rewrite existsb_False in E5.
    assert (∀ x, x ∈ Split name slash → x ≠ "" ∧ x ≠ ".." ∧ x ≠ ".git") as Hx.
    { intros x Hx. apply E5 in Hx. go_inv. done. }
    split; [|done]. split.
    + destruct (Split_cons name slash) as (h & t & ->). done.
    + apply Forall_forall. intros x Hin. destruct (Hx x Hin) as (? & ? & ?). split_and!; [done| |done].
      intros ->. by apply Split_dot_clean in Hin.
    + apply Split_parts.
    + intros Hin. by apply Hx in Hin as (_ & _ & []).
  - intros [[Hne Hp Hs Hg] Hn].
    pose proof (Join_Split name slash) as Hj. change (String slash "") with "/" in Hj.
    assert (name ≠ "") as H1. { intros ->. inversion Hp as [|?? [? _]]. done. }
    assert (name ≠ ".") as H2. { intros ->. inversion Hp as [|?? (_ & ? & _)]. done. }
    assert (HasPrefix name "/" = false) as H3.
    { destruct (HasPrefix name "/") eqn:E; [|done]. apply HasPrefix_spec in E as [r ->].
      inversion Hp as [|?? [? _]]. done. }
    rewrite !bool_decide_eq_false_2, H3 by done. cbn [orb].
    replace (existsb _ _) with false; [|symmetry; apply existsb_False].
    + apply bool_decide_eq_true_2. unfold Clean. rewrite H3, clean_elems_plain.
      * rewrite filter_plain by done. rewrite Hj. by rewrite bool_decide_eq_false_2.
      * eapply Forall_impl; [exact Hp|]. by right.
    + intros x Hx. pose proof (proj1 (Forall_forall _ _) Hp x Hx) as (? & ? & ?).
      rewrite !bool_decide_eq_false_2; [done| |done..]. by intros ->.
Qed.

Lemma safe_name name :
  safeTreePath name = true → ∃ es, name = Join es "/" ∧ safe_elems es.
Proof.
  intros [Hs _]%safeTreePath_iff. exists (Split name slash). split; [|done].
  symmetry. apply (Join_Split name slash).
Qed.

(** ** Paths below the destination *)

Lemma rel_elems_abs es : Forall plain es → Forall os.slashless es → osx.rel_elems (os.abs_path es) = es.
Proof.
  intros Hp Hs. unfold osx.rel_elems. rewrite os.elems_abs by done.
  rewrite filter_cons_False by (by intros []). case_bool_decide; [by subst|by apply filter_plain].
Qed.

Lemma strip_common_app ds es : osx.strip_common ds (ds ++ es) = ([], es).
Proof. induction ds as [|d ds IH]; simpl; [by destruct es|]. by rewrite bool_decide_eq_true_2. Qed.

Lemma Rel_below ds es :
  es ≠ [] → Forall plain (ds ++ es) → Forall os.slashless (ds ++ es) →
  osx.Rel (os.abs_path ds) (os.abs_path (ds ++ es)) = Some (Join es "/").
Proof.
  intros Hne Hp Hs. pose proof Hp as [Hp1 _]%Forall_app. pose proof Hs as [Hs1 _]%Forall_app.
  unfold osx.Rel. rewrite !os.Clean_abs_path by done.
  rewrite (bool_decide_eq_false_2 (os.abs_path (ds ++ es) = _)).
  2: { intros Heq%(f_equal osx.rel_elems). rewrite !rel_elems_abs in Heq by done.
       rewrite <- (app_nil_r ds) in Heq at 2. by apply app_inv_head in Heq. }
  rewrite (bool_decide_eq_false_2 (os.abs_path ds = ".")) by done.
  rewrite !os.abs_path_nonempty. cbn [Bool.eqb negb].
  by rewrite !rel_elems_abs, strip_common_app by done.
Qed.

Lemma Rel_inside es :
  es ≠ [] → Forall plain es → Forall os.slashless es →
  (Join es "/" == "..") || HasPrefix (Join es "/") "../" = false.
Proof.
  intros Hne Hp Hs. pose proof (Split_Join_slash es Hne Hs) as Hj.
  apply orb_false_iff. split.
  - apply bool_decide_eq_false_2. intros Heq. rewrite Heq in Hj. subst es.
    inversion Hp as [|?? (_ & _ & ?)]. done.
  - destruct (HasPrefix _ _) eqn:E; [|done]. apply HasPrefix_spec in E as [r Heq].
    rewrite Heq in Hj. change ("../" +:+ r) with (".." +:+ String slash r) in Hj.
    rewrite Split_app in Hj. change (Split ".." slash) with [".."] in Hj. subst es.
    inversion Hp as [|?? (_ & _ & ?)]. done.
Qed.

(** ** Confinement

    [confined ds st st']: the tree and the permissions changed inside [ds] only,
    and there is still no link there. *)
Record confined (ds : list string) (st st' : mstate) : Prop := {
  cf_tree : os.within ds (m_tree st) (m_tree st');
  cf_modes q : ¬ os.inside ds q → m_modes st' !! q = m_modes st !! q;
}.

Section confined.
  Context (ds : list string) (Hne : ds ≠ []) (Hp : Forall plain ds) (Hs : Forall os.slashless ds).

Lemma confined_same st st' :
  os.real_dir (m_tree st) ds → m_tree st' = m_tree st → m_modes st' = m_modes st → confined ds st st'.
Proof. intros Hr Ht Hm. split; [rewrite Ht; by apply os.within_refl|by rewrite Hm]. Qed.

Lemma confined_trans st1 st2 st3 : confined ds st1 st2 → confined ds st2 st3 → confined ds st1 st3.
Proof.
  intros [T1 M1] [T2 M2]. split; [by eapply os.within_trans|]. intros q Hq. by rewrite M2, M1.
Qed.

Lemma inside_app es : es ≠ [] → os.inside ds (ds ++ es).
Proof.
  intros He. split; [by apply prefix_app_r|]. intros Heq. rewrite <- (app_nil_r ds) in Heq at 2.
  by apply app_inv_head in Heq.
Qed.

Lemma safe_below es :
  safe_elems es → Forall plain (ds ++ es) ∧ Forall os.slashless (ds ++ es) ∧ ds ++ es ≠ [].
Proof using Hne Hp Hs. intros [H1 H2 H3 _]. split_and!; [by apply Forall_app..|]. by destruct ds. Qed.

Lemma OpenExcl_below t es q t' :
  os.real_dir t ds → safe_elems es → osx.OpenExcl t (os.abs_path (ds ++ es)) = Some (q, t') →
  q = ds ++ es ∧ t' = <[q := os.NFile ""]> t.
Proof using Hne Hp Hs.
  intros Hr He. destruct (safe_below es He) as (H1 & H2 & H3). unfold osx.OpenExcl.
  intros (q' & Hq & Hw)%bind_Some.
  apply (os.lookup_below t false ds) in Hq as ->; [|done|by apply prefix_app_r|done..].
  by destruct (os.entry t _); simplify_eq.
Qed.

Lemma Dir_below es :
  safe_elems es → ∃ up, os.Dir (os.abs_path (ds ++ es)) = os.abs_path (ds ++ up) ∧
    Forall plain (ds ++ up) ∧ Forall os.slashless (ds ++ up) ∧ ∃ x, es = up ++ [x].
Proof using Hne Hp Hs.
  intros He. destruct (safe_below es He) as (H1 & H2 & H3).
  destruct (exists_last (se_ne es He)) as (up & x & ->). exists up.
  rewrite app_assoc in *. split_and!; [by apply os.Dir_abs|..|by exists x].
  - by apply Forall_app in H1 as [? _].
  - by apply Forall_app in H2 as [? _].
Qed.

Lemma write_file_confined e es n st res st' :
  os.real_dir (m_tree st) ds → safe_elems es →
  write_file e (os.abs_path (ds ++ es)) n st = (res, st') → confined ds st st'.
Proof using Hne Hp Hs.
  intros Hr He. unfold write_file. destruct (Dir_below es He) as (up & -> & Hup & Hus & _).
  destruct (os.MkdirAll _ _) as [ok t] eqn:Em.
  apply (os.MkdirAll_below ds) in Em; [|done..|by apply prefix_app_r|by destruct ds].
  destruct ok; [|intros [= _ <-]; by split].
  destruct (osx.OpenExcl t _) as [[q t1]|] eqn:Eo; [|intros [= _ <-]; by split].
  apply OpenExcl_below in Eo as [-> ->]; [|apply Em|done].
  set (stw := MkM _ _ _ (m_total st)). assert (confined ds st stw) as Hc.
  { split.
    - apply (os.within_trans _ _ t); [done|]. simpl. rewrite insert_insert_eq.
      apply (os.within_alter _ _ _ (Some _)); [apply Em| |done]. apply inside_app, He.
    - intros q Hq. simpl. apply lookup_insert_ne. intros <-. apply Hq, inside_app, He. }
  destruct (_ <? _)%Z; [by intros [= _ <-]|].
  destruct (str_drop _ _) as [|sep rest]; [by intros [= _ <-]|].
  assert (confined ds st (MkM (m_tree stw) (m_modes stw) rest (m_total stw))) by (destruct Hc; by split).
  by case_bool_decide; intros [= _ <-].
Qed.

Lemma write_entry_confined ctx b e st res st' :
  os.real_dir (m_tree st) ds → safeTreePath (name e) = true →
  write_entry ctx b (os.abs_path ds) e st = (res, st') → confined ds st st'.
Proof using Hne Hp Hs.
  intros Hr (es & Hn & He)%safe_name. destruct (safe_below es He) as (H1 & H2 & H3).
  assert (∀ st', m_tree st' = m_tree st → m_modes st' = m_modes st → confined ds st st') as Hsame
    by (intros; by apply confined_same).
  unfold write_entry. destruct ctx; [intros [= _ <-]; by apply Hsame|].
  destruct (B_answer b _) as [out|]; [|intros [= _ <-]; by apply Hsame].
  destruct (SplitN2 _ nl) as [[header rest]|]; [|intros [= _ <-]; by apply Hsame].
  destruct (Fields header) as [|f0 [|f1 [|f2 [|]]]]; try (intros [= _ <-]; by apply Hsame).
  destruct (_ || _) eqn:E1; [intros [= _ <-]; by apply Hsame|].
  destruct (Atoi f2) as [n|]; [|intros [= _ <-]; by apply Hsame].
  destruct ((_ <? _)%Z || _) eqn:E2; [intros [= _ <-]; by apply Hsame|].
  rewrite Hn, os.path_Join_abs, Rel_below, Rel_inside by (apply He || done).
  intros Hw%write_file_confined; [|done..]. eapply confined_trans; [|exact Hw]. by apply Hsame.
Qed.

Lemma write_entries_confined ctxs i b es st res st' :
  os.real_dir (m_tree st) ds → Forall (λ e, safeTreePath (name e) = true) es →
  write_entries ctxs i b (os.abs_path ds) es st = (res, st') → confined ds st st'.
Proof using Hne Hp Hs.
  intros Hr Hes. revert i st Hr. induction Hes as [|e es He _ IH]; intros i st Hr; simpl.
  { intros [= _ <-]. by apply confined_same. }
  destruct (write_entry _ _ _ e st) as [[[]|err] st1] eqn:E; apply write_entry_confined in E; try done.
  - intros Hw%IH; [|apply E]. by eapply confined_trans.
  - by intros [= _ <-].
Qed.
End confined.

Lemma parse_entry_safe line e : parse_entry line = Ok e → safeTreePath (name e) = true.
Proof.
  unfold parse_entry. destruct (SplitN2 line tab) as [[header nm]|]; [|done].
  destruct (Fields header) as [|f0 [|f1 [|f2 [|]]]]; try done.
  destruct (_ || _) eqn:E; [done|]. intros [= <-]. go_inv. done.
Qed.

Lemma parse_entries_safe acc lines es :
  parse_entries acc lines = Ok es → Forall (λ e, safeTreePath (name e) = true) acc →
  Forall (λ e, safeTreePath (name e) = true) es.
Proof.
  revert acc. induction lines as [|line lines IH]; intros acc; simpl; [by intros [= <-]|].
  case_bool_decide; [by apply IH|]. destruct (parse_entry line) as [e|] eqn:E; [|done]. simpl.
  intros Hp Ha. eapply IH; [exact Hp|]. apply Forall_app. split; [done|].
  repeat constructor. by eapply parse_entry_safe.
Qed.

(** Removing a directory forgets the permissions of its files only. *)
Lemma remove_modes_made t0 t ds ms0 ms :
  osx.creatable t0 ds → (∀ q, ds `prefix_of` q → ms0 !! q = None) → os.real_dir t ds →
  (∀ q, ¬ ds `prefix_of` q → ms !! q = ms0 !! q) → remove_modes ms t (os.abs_path ds) = ms0.
Proof.
  intros Hc Hms Hd Hm. unfold remove_modes. rewrite osx.lookup_reached; [| |apply Hc..].
  - apply map_eq. intros q. destruct (decide (ds `prefix_of` q)) as [Hq|Hq].
    + rewrite Hms by done. apply map_lookup_filter_None. right. naive_solver.
    + rewrite <- Hm by done. destruct (ms !! q) eqn:E.
      * by apply map_lookup_filter_Some.
      * apply map_lookup_filter_None. by left.
  - intros q Hq Hne. by apply (os.rd_up _ _ Hd).
Qed.

Section confinement.
  Context `{GitLaws} {GB : GitBatch} (environ : list string).

Lemma entries_safe r index tree w es w' :
  entries environ r index tree w = (Ok es, w') → Forall (λ e, safeTreePath (name e) = true) es.
Proof.
  unfold entries. destruct (objectID tree); [|done]. cbn [negb].
  intros (raw & w1 & _ & [= Hp _])%gbind_Ok. by eapply parse_entries_safe.
Qed.

(** What [Materialize] may have done to the disk. *)
Definition untouched_outside (ds : list string) (t t' : os.tree) (ms ms' : modes) : Prop :=
  (∀ q, ¬ ds `prefix_of` q → t' !! q = t !! q) ∧ (∀ q, ¬ ds `prefix_of` q → ms' !! q = ms !! q) ∧
  t' !! ds = Some os.NDir ∧ (∀ q target, ds `prefix_of` q → t' !! q ≠ Some (os.NLink target)).

Lemma Materialize_inside ctxs r tree ds w ms res w' ms' :
  osx.creatable w.2 ds → (∀ q, ds `prefix_of` q → ms !! q = None) →
  Materialize environ ctxs r tree (os.abs_path ds) w ms = (res, w', ms') →
  w'.1 = w.1 ∧
  match res with
  | Ok _ => untouched_outside ds w.2 w'.2 ms ms'
  | Err _ => w'.2 = w.2 ∧ ms' = ms
  end.
Proof using All.
  intros Hc Hms. unfold Materialize. destruct (entries _ r "" tree w) as [[es|e] w1] eqn:Ee;
    pose proof Ee as Hw1%(entries_keeps environ eq); subst w1; [|by intros [= <- <- <-]].
  apply entries_safe in Ee. rewrite osx.Mkdir_creatable by done.
  destruct (fill _ _ _ _ _ _ _) as [[res1 t1] ms1] eqn:Ef.
  assert (confined ds (MkM (<[ds := os.NDir]> w.2) ms "" 0) (MkM t1 ms1 "" 0)) as [Ht Hm].
  { revert Ef. unfold fill. destruct (batch _ _) as [b|err].
    - destruct (write_entries _ _ _ _ _ _) as [res2 st] eqn:E. intros [= _ <- <-].
      apply write_entries_confined in E as [? ?]; [by split|apply Hc..|by apply osx.real_dir_made|done].
    - intros [= _ <- <-]. apply confined_same; [by apply osx.real_dir_made|done..]. }
  destruct res1 as [[]|err]; intros [= <- <- <-]; (split; [done|]); simpl in *.
  - split_and!.
    + intros q Hq. rewrite (os.wi_same _ _ _ Ht) by (by intros []). rewrite lookup_insert_ne; [done|].
      by intros ->.
    + intros q Hq. apply Hm. by intros [].
    + rewrite (os.wi_same _ _ _ Ht) by (by intros []). apply lookup_insert_eq.
    + apply Ht.
  - split; [apply osx.RemoveAll_made; [done|apply Ht]|].
    apply (remove_modes_made w.2); [done..|apply Ht|]. intros q Hq. apply Hm. by intros [].
Qed.

(** C14: whatever git answers (hostile names, wrong sizes, a process that dies),
    materializing a tree in a new directory never touches anything outside of it,
    never makes a link, and never changes the repository; and a failure at any
    point leaves the disk exactly as it was. *)
Theorem Materialize_confined ctxs r tree ds w ms res w' ms' :
  osx.creatable w.2 ds → (∀ q, ds `prefix_of` q → ms !! q = None) →
  Materialize environ ctxs r tree (os.abs_path ds) w ms = (res, w', ms') →
  w'.1 = w.1 ∧
  match res with
  | Ok _ => untouched_outside ds w.2 w'.2 ms ms'
  | Err _ => w'.2 = w.2 ∧ ms' = ms
  end.
Proof using All. apply Materialize_inside. Qed.
End confinement.

(** ** Making directories on the way to a file *)

Lemma lookup_reached_true t x :
  osx.reached t x → Forall plain x → Forall os.slashless x → x ≠ [] →
  (∀ target, t !! x ≠ Some (os.NLink target)) → os.lookup_path t true (os.abs_path x) = Some x.
Proof.
  intros Hu Hp Hs Hne Hl. unfold os.lookup_path. rewrite os.elems_abs, bool_decide_eq_false_2 by done.
  change (os.resolve os.maxLinks t true [] x = Some x).
  destruct (exists_last Hne) as (up & e & ->). clear Hne.
  cut (∀ dir todo, dir ++ todo = up → os.resolve os.maxLinks t true dir (todo ++ [e]) = Some (up ++ [e])).
  { intros Hc. by apply (Hc []). }
  intros dir todo. revert dir. apply Forall_app in Hp as [Hpu Hpe]. inversion Hpe as [|?? He _]; subst.
  assert (∀ q x, q ++ [x] `prefix_of` up → t !! (q ++ [x]) = Some os.NDir) as Hd.
  { intros q x Hq. rewrite <- os.entry_ne by (by destruct q). apply Hu.
    - by apply prefix_app_r.
    - intros Heq. apply prefix_length in Hq. rewrite Heq, length_app in Hq. simpl in Hq. lia. }
  induction todo as [|d todo IH]; intros dir Hdir; simpl app.
  - rewrite app_nil_r in Hdir. subst dir. rewrite os.resolve_plain by done.
    destruct (t !! (up ++ [e])) as [[]|]; [done|by rewrite os.resolve_nil|done..].
  - assert (t !! (dir ++ [d]) = Some os.NDir) as Hdd.
    { apply Hd. exists todo. by rewrite <- Hdir, <- app_assoc. }
    assert (plain d).
    { apply (proj1 (Forall_forall _ _) Hpu). rewrite <- Hdir. apply elem_of_app. right. left. }
    rewrite os.resolve_plain by (done || by rewrite Hdd). rewrite Hdd. apply IH.
    by rewrite <- Hdir, <- app_assoc.
Qed.

Definition free_or_dir (t : os.tree) (q : list string) : Prop :=
  t !! q = None ∨ t !! q = Some os.NDir.

Lemma mkdir_one_reached t x :
  osx.reached t x → Forall plain x → Forall os.slashless x → x ≠ [] → free_or_dir t x →
  os.mkdir_one t (os.abs_path x) = Some (<[x := os.NDir]> t).
Proof.
  intros Hu Hp Hs Hne Hx. unfold os.mkdir_one, os.Stat.
  rewrite lookup_reached_true by (done || by destruct Hx; congruence). simpl.
  rewrite os.entry_ne by done. destruct Hx as [Hx|Hx]; rewrite Hx.
  - unfold os.Mkdir. rewrite osx.lookup_reached by done. simpl. by rewrite os.entry_ne, Hx.
  - by rewrite insert_id.
Qed.

Lemma snoc_prefix {A} (q l : list A) x : q `prefix_of` l ++ [x] → q = l ++ [x] ∨ q `prefix_of` l.
Proof.
  intros [k Hk]. destruct (decide (k = [])) as [->|Hne]; [left; by rewrite app_nil_r in Hk|].
  destruct (exists_last Hne) as (k' & y & ->). rewrite app_assoc in Hk.
  apply app_inj_tail in Hk as [-> _]. right. by exists k'.
Qed.

Lemma prefix_app_cases {A} (q l k : list A) :
  q `prefix_of` l ++ k → q `prefix_of` l ∨ ∃ q', q = l ++ q' ∧ q' `prefix_of` k.
Proof.
  intros Hq. destruct (os.prefix_compare q l (l ++ k)) as [?|[q' ->]]; [done|by apply prefix_app_r|by left|].
  right. exists q'. split; [done|]. by eapply prefix_app_inv.
Qed.

Lemma mkdir_prefixes_reached t ds todo :
  (∀ q, q `prefix_of` ds → os.entry t q = Some os.NDir) →
  (∀ q, q `prefix_of` ds ++ todo → q ≠ [] → free_or_dir t q) →
  Forall plain (ds ++ todo) → Forall os.slashless (ds ++ todo) →
  ∃ t', os.mkdir_prefixes t ("" :: ds) todo = (true, t') ∧
    ∀ q, t' !! q = if decide (q ≠ [] ∧ q `prefix_of` ds ++ todo) then Some os.NDir else t !! q.
Proof.
  revert ds t. induction todo as [|e todo IH]; intros ds t Hd Hf Hp Hs; simpl.
  { exists t. split; [done|]. intros q. rewrite app_nil_r. case_decide as Hq; [|done].
    destruct Hq as [Hq1 Hq2]. apply Hd in Hq2. by rewrite os.entry_ne in Hq2. }
  change (∃ t', match os.mkdir_one t (Join ("" :: ds ++ [e]) "/") with
     | Some t => os.mkdir_prefixes t ("" :: ds ++ [e]) todo | None => (false, t) end = (true, t') ∧
    ∀ q, t' !! q = if decide (q ≠ [] ∧ q `prefix_of` ds ++ e :: todo) then Some os.NDir else t !! q).
  replace (ds ++ e :: todo) with ((ds ++ [e]) ++ todo) in * by (by rewrite <- app_assoc).
  rewrite Join_cons by (by destruct ds). rewrite app_nil_str.
  change ("/" +:+ Join (ds ++ [e]) "/") with (os.abs_path (ds ++ [e])).
  pose proof Hp as [Hp1 _]%Forall_app. pose proof Hs as [Hs1 _]%Forall_app.
  assert (ds ++ [e] ≠ []) as Hne by (by destruct ds).
  assert (ds ++ [e] `prefix_of` (ds ++ [e]) ++ todo) as Hpre by (by apply prefix_app_r).
  rewrite mkdir_one_reached; [|by intros q [->|Hq]%snoc_prefix Hn; auto|done..|by apply Hf].
  destruct (IH (ds ++ [e]) (<[ds ++ [e] := os.NDir]> t)) as (t' & Ht & Hl); [| |done..|].
  - intros q [->|Hq]%snoc_prefix; [rewrite os.entry_ne by done; apply lookup_insert_eq|].
    specialize (Hd q Hq). unfold os.entry in *. case_bool_decide; [done|].
    destruct (decide (q = ds ++ [e])) as [->|]; [apply lookup_insert_eq|by rewrite lookup_insert_ne].
  - intros q Hq Hn. destruct (decide (q = ds ++ [e])) as [->|Hqe].
    + right. apply lookup_insert_eq.
    + unfold free_or_dir. rewrite lookup_insert_ne by done. by apply Hf.
  - exists t'. split; [done|]. intros q. rewrite Hl. case_decide as Hq; [done|].
    rewrite lookup_insert_ne; [done|]. intros <-. by apply Hq.
Qed.

Lemma MkdirAll_reached t es :
  (∀ q, q `prefix_of` es → q ≠ [] → free_or_dir t q) → es ≠ [] →
  Forall plain es → Forall os.slashless es →
  ∃ t', os.MkdirAll t (os.abs_path es) = (true, t') ∧
    ∀ q, t' !! q = if decide (q ≠ [] ∧ q `prefix_of` es) then Some os.NDir else t !! q.
Proof.
  intros Hf Hne Hp Hs. unfold os.MkdirAll. rewrite os.elems_abs, bool_decide_eq_false_2 by done.
  cbn [os.mkdir_prefixes app Join]. change (os.mkdir_one t "") with (Some t).
  apply (mkdir_prefixes_reached t [] es); [|done..]. intros q ->%prefix_nil_inv. done.
Qed.

(** ** An honest git *)

(** What [git ls-tree -r -z] prints. *)
Definition entry_line (e : treeEntry) : string :=
  mode e +:+ " blob " +:+ blob e +:+ String tab (name e).
Fixpoint tree_text (es : list treeEntry) : string :=
  match es with
  | [] => ""
  | e :: es => entry_line e +:+ String nul (tree_text es)
  end.

(** What [git cat-file --batch] prints for a blob. *)
Definition blob_text (id content : string) : string :=
  id +:+ " blob " +:+ Itoa (len content) +:+ String nl (content +:+ String nl "").

Definition path_elems (e : treeEntry) : list string := Split (name e) slash.

(** A tree of regular files: no name is a directory of another. *)
Record regular_tree (es : list treeEntry) : Prop := {
  rt_mode e : e ∈ es → mode e = "100644" ∨ mode e = "100755";
  rt_blob e : e ∈ es → objectID (blob e) = true;
  rt_name e : e ∈ es → safeTreePath (name e) = true;
  rt_apart i j e e' : es !! i = Some e → es !! j = Some e' → i ≠ j →
    ¬ path_elems e `prefix_of` path_elems e';
}.

Definition total_size (blobs : string → string) (es : list treeEntry) : Z :=
  foldr (λ e n, len (blobs (blob e)) + n)%Z 0%Z es.

Lemma objectID_visible id : objectID id = true → id ≠ "" ∧ forallb visible (bytes id) = true.
Proof.
  unfold objectID. intros [Hl Hh]%andb_true_iff. split; [by intros ->|].
  unfold all_hex in Hh. rewrite forallb_forall in *. intros x Hx. by apply is_hex_visible, Hh.
Qed.

(** A byte is not in a string whose bytes have a property it has not. *)
Lemma not_in_all (f : ascii → bool) s c : forallb f (bytes s) = true → f c = false → c ∉ bytes s.
Proof.
  intros Hs Hc Ha. rewrite forallb_forall in Hs. rewrite (Hs c) in Hc; [done|]. by apply list_elem_of_In.
Qed.

Lemma objectID_hex id : objectID id = true → forallb is_hex (bytes id) = true.
Proof. unfold objectID. by intros [_ ?]%andb_true_iff. Qed.

(** Lines of three words, the second of which is [blob]. *)
Lemma words_not_in (f : ascii → bool) a b c :
  forallb f (bytes a) = true → forallb f (bytes b) = true → f c = false → c ∉ bytes " blob " →
  c ∉ bytes (a +:+ " blob " +:+ b).
Proof.
  intros Ha Hb Hc Hw. rewrite !bytes_app, !elem_of_app.
  intros [Ht|[Ht|Ht]]; [|done|]; by eapply not_in_all in Ht.
Qed.

Lemma words_fields a b :
  a ≠ "" → forallb visible (bytes a) = true → b ≠ "" → forallb visible (bytes b) = true →
  Fields (a +:+ " blob " +:+ b) = [a; "blob"; b].
Proof.
  intros Ha Hav Hb Hbv.
  change (" blob " +:+ b) with (String (byte 32) ("blob" +:+ String (byte 32) b)).
  rewrite !Fields_cons, Fields_last by done. done.
Qed.

Lemma mode_hex m : m = "100644" ∨ m = "100755" → m ≠ "" ∧ forallb is_hex (bytes m) = true ∧
  forallb visible (bytes m) = true.
Proof. by intros [-> | ->]. Qed.

Lemma parse_entry_line e :
  mode e = "100644" ∨ mode e = "100755" → objectID (blob e) = true → safeTreePath (name e) = true →
  parse_entry (entry_line e) = Ok e.
Proof.
  intros Hm Hb Hn. unfold parse_entry, entry_line.
  destruct (mode_hex _ Hm) as (Hm1 & Hm2 & Hm3).
  pose proof (objectID_visible _ Hb) as [Hb1 Hb2].
  replace (mode e +:+ " blob " +:+ blob e +:+ String tab (name e)) with
    ((mode e +:+ " blob " +:+ blob e) +:+ String tab (name e)) by (by rewrite !str_app_assoc).
  rewrite SplitN2_app.
  - rewrite words_fields by done. rewrite Hn.
    destruct e as [m b n]. simpl in *. by destruct Hm as [-> | ->].
  - apply (words_not_in is_hex); [done|by apply objectID_hex|done|]. by apply (bool_decide_unpack _).
Qed.

Lemma entry_line_nul e :
  mode e = "100644" ∨ mode e = "100755" → objectID (blob e) = true → safeTreePath (name e) = true →
  nul ∉ bytes (entry_line e).
Proof.
  intros Hm Hb [_ Hn]%safeTreePath_iff. unfold entry_line.
  replace (mode e +:+ " blob " +:+ blob e +:+ String tab (name e)) with
    ((mode e +:+ " blob " +:+ blob e) +:+ String tab "" +:+ name e) by (by rewrite !str_app_assoc).
  rewrite bytes_app, (bytes_app (String tab "")), !elem_of_app. intros [Ht|[Ht|Ht]]; [|..|done]; revert Ht.
  - apply (words_not_in is_hex); [by apply mode_hex|by apply objectID_hex|done|].
    by apply (bool_decide_unpack _).
  - by apply (bool_decide_unpack (nul ∉ bytes (String tab ""))).
Qed.

Lemma parse_tree_text acc es :
  (∀ e, e ∈ es → mode e = "100644" ∨ mode e = "100755") → (∀ e, e ∈ es → objectID (blob e) = true) →
  (∀ e, e ∈ es → safeTreePath (name e) = true) →
  parse_entries acc (Split (tree_text es) nul) = Ok (acc ++ es).
Proof.
  intros Hm Hb Hn. revert acc. induction es as [|e es IH]; intros acc; simpl tree_text.
  { by rewrite app_nil_r. }
  assert (nul ∉ bytes (entry_line e)) by (apply entry_line_nul; set_solver).
  rewrite Split_app, (Split_no_sep (entry_line e)) by done. simpl app. simpl parse_entries.
  rewrite bool_decide_eq_false_2.
  - rewrite parse_entry_line by set_solver. cbn [rbind]. rewrite IH by set_solver.
    by rewrite <- app_assoc.
  - unfold entry_line. destruct (mode e) eqn:E; [|done]. destruct (Hm e) as [Hc|Hc]; set_solver.
Qed.

(** ** Files of an honest git *)

Section exact.
  Context (ds : list string) (Hne : ds ≠ []) (Hp : Forall plain ds) (Hs : Forall os.slashless ds).
  Context (blobs : string → string).

(** The tree holds, below [ds], exactly the files of [done]. *)
Record filled (done : list treeEntry) (t : os.tree) (ms : modes) : Prop := {
  fi_dir : os.real_dir t ds;
  fi_file e : e ∈ done →
    t !! (ds ++ path_elems e) = Some (os.NFile (blobs (blob e))) ∧
    ms !! (ds ++ path_elems e) = Some (file_mode e);
  fi_only q n : q ≠ [] → t !! (ds ++ q) = Some n → ∃ e, e ∈ done ∧ q `prefix_of` path_elems e ∧
    (q ≠ path_elems e → n = os.NDir);
}.

(** Adding one file to a tree, with the directories above it. *)
Lemma filled_snoc done e t ms t1 up x :
  filled done t ms → path_elems e = up ++ [x] → os.real_dir t1 ds →
  (∀ e', e' ∈ done → ¬ path_elems e' `prefix_of` path_elems e) →
  (∀ q, t1 !! q = if decide (q ≠ [] ∧ q `prefix_of` ds ++ up) then Some os.NDir else t !! q) →
  filled (done ++ [e]) (<[ds ++ path_elems e := os.NFile (blobs (blob e))]> t1)
    (<[ds ++ path_elems e := file_mode e]> ms).
Proof using All.
  intros [Hd Hf Ho] Hx Hd1 H1 Hl. assert (path_elems e ≠ []) as Hen by (rewrite Hx; by destruct up).
  assert (∀ q, q `prefix_of` up → q `prefix_of` path_elems e) as Hup
    by (intros q Hq; rewrite Hx; by apply prefix_app_r).
  split.
  - apply (os.within_alter ds t1 _ (Some _)); [done|by apply inside_app|done].
  - intros e' [He'| ->%list_elem_of_singleton]%elem_of_app; [|by rewrite !lookup_insert_eq].
    assert (ds ++ path_elems e ≠ ds ++ path_elems e') as Hdiff.
    { intros Heq%app_inv_head. apply (H1 e' He'). by rewrite Heq. }
    rewrite !lookup_insert_ne by done. rewrite Hl, decide_False; [by apply Hf|].
    intros [_ Hq%prefix_app_inv]. apply (H1 e' He'). by apply Hup.
  - intros q n Hq. destruct (decide (q = path_elems e)) as [->|Hqe].
    { intros _. exists e. split; [set_solver|]. done. }
    rewrite lookup_insert_ne by (by intros Heq%app_inv_head). rewrite Hl. case_decide as Hu.
    + intros [= <-]. destruct Hu as [_ Hu%prefix_app_inv]. exists e. split; [set_solver|]. auto.
    + intros (e' & He' & Hrest)%Ho; [|done]. exists e'. split; [set_solver|done].
Qed.

Lemma write_file_honest e es done st :
  filled done (m_tree st) (m_modes st) → safeTreePath (name e) = true →
  (∀ e', e' ∈ done → ¬ path_elems e' `prefix_of` path_elems e) →
  (∀ e', e' ∈ done → ¬ path_elems e `prefix_of` path_elems e') →
  m_pending st = blobs (blob e) +:+ String nl "" → es = path_elems e →
  ∃ st', write_file e (os.abs_path (ds ++ es)) (len (blobs (blob e))) st = (Ok tt, st') ∧
    m_pending st' = "" ∧ m_total st' = m_total st ∧ filled (done ++ [e]) (m_tree st') (m_modes st').
Proof using All.
  intros [Hd Hf Ho] Hn H1 H2 Hpend ->. pose proof Hn as [He _]%safeTreePath_iff.
  fold (path_elems e) in He.
  destruct (Dir_below ds Hne Hp Hs _ He) as (up & HD & Hup & Hus & x & Hx).
  assert (∀ q, q `prefix_of` up → q ≠ path_elems e ∧ q `prefix_of` path_elems e) as Hstrict.
  { intros q Hq. rewrite Hx. split; [|by apply prefix_app_r].
    intros ->. apply prefix_length in Hq. rewrite length_app in Hq. simpl in Hq. lia. }
  assert (∀ q, q `prefix_of` ds ++ up → q ≠ [] → free_or_dir (m_tree st) q) as Hfree.
  { intros q Hq Hqn. apply prefix_app_cases in Hq as [Hq|(q' & -> & Hq)].
    - right. by rewrite <- os.entry_ne, (os.rd_up _ _ Hd).
    - destruct (decide (q' = [])) as [->|Hq'].
      { right. rewrite app_nil_r. by rewrite <- os.entry_ne, (os.rd_up _ _ Hd). }
      destruct (m_tree st !! (ds ++ q')) as [n|] eqn:E; [|by left]. right.
      destruct (Ho q' n Hq' E) as (e' & He' & Hpre & Hdir). rewrite E, Hdir; [done|].
      intros ->. apply (H1 e' He'). by apply Hstrict. }
  assert (m_tree st !! (ds ++ path_elems e) = None) as Hnone.
  { destruct (m_tree st !! _) as [n|] eqn:E; [|done].
    destruct (Ho _ n (se_ne _ He) E) as (e' & He' & Hpre & _). by apply H2 in He'. }
  destruct (MkdirAll_reached (m_tree st) (ds ++ up)) as (t1 & Ht1 & Hl1); [done|by destruct ds|done..|].
  destruct (safe_below ds Hne Hp Hs _ He) as (Hpe & Hse & Hnee).
  assert (osx.reached t1 (ds ++ path_elems e)) as Hreach.
  { intros q. rewrite Hx, app_assoc. intros [->|Hq]%snoc_prefix Hqn; [done|].
    unfold os.entry. case_bool_decide; [done|]. by rewrite Hl1, decide_True. }
  assert (∀ q, ¬ q `prefix_of` ds ++ up → t1 !! q = m_tree st !! q) as Hsame.
  { intros q Hq. rewrite Hl1, decide_False; [done|]. by intros []. }
  assert (¬ ds ++ path_elems e `prefix_of` ds ++ up) as Hlong.
  { intros Hq%prefix_app_inv. by apply Hstrict in Hq as [[] _]. }
  unfold write_file. rewrite HD, Ht1. unfold osx.OpenExcl. rewrite osx.lookup_reached by done. simpl.
  rewrite os.entry_ne, Hsame, Hnone by done. rewrite Hpend. unfold len. rewrite Nat2Z.id.
  rewrite str_take_app, str_drop_app, Z.ltb_irrefl. rewrite bool_decide_eq_true_2 by done. cbn [negb].
  eexists. split; [done|]. split; [done|]. split; [done|]. simpl. rewrite insert_insert_eq.
  apply (filled_snoc done e (m_tree st) _ t1 up x); [by split|done| |done..].
  by apply (os.MkdirAll_below ds _ _ _ _ Hd Hup Hus (prefix_app_r _ _ _ (reflexivity _))) in Ht1 as [? _];
    [|by destruct ds].
Qed.

Section batch.
  Context (b : Batch).
  Context (Hans : ∀ id, objectID id = true →
    B_answer b (id +:+ String nl "") = Some (blob_text id (blobs id))).

Lemma write_entry_honest e done st :
  filled done (m_tree st) (m_modes st) → safeTreePath (name e) = true → objectID (blob e) = true →
  (∀ e', e' ∈ done → ¬ path_elems e' `prefix_of` path_elems e) →
  (∀ e', e' ∈ done → ¬ path_elems e `prefix_of` path_elems e') →
  m_pending st = "" → (0 ≤ m_total st)%Z → (m_total st + len (blobs (blob e)) ≤ maxCopyBytes)%Z →
  ∃ st', write_entry None b (os.abs_path ds) e st = (Ok tt, st') ∧
    m_pending st' = "" ∧ m_total st' = (m_total st + len (blobs (blob e)))%Z ∧
    filled (done ++ [e]) (m_tree st') (m_modes st').
Proof using All.
  intros Hf Hn Hb H1 H2 Hpend H0 Hcap. set (c := blobs (blob e)) in *.
  pose proof Hn as [He _]%safeTreePath_iff. fold (path_elems e) in He.
  destruct (safe_below ds Hne Hp Hs _ He) as (Hpe & Hse & Hnee).
  unfold write_entry. rewrite Hans, Hpend, app_nil_str by done. fold c. unfold blob_text.
  replace (blob e +:+ " blob " +:+ Itoa (len c) +:+ String nl (c +:+ String nl "")) with
    ((blob e +:+ " blob " +:+ Itoa (len c)) +:+ String nl (c +:+ String nl ""))
    by (by rewrite !str_app_assoc).
  assert (0 ≤ len c)%Z as Hlen by (unfold len; lia).
  destruct (Itoa_digits (len c) Hlen) as (Hi1 & _ & _). pose proof (Itoa_visible _ Hlen) as Hi2.
  destruct (objectID_visible _ Hb) as [Hb1 Hb2].
  rewrite SplitN2_app by (apply (words_not_in visible); done || by apply (bool_decide_unpack _)).
  rewrite words_fields by done. rewrite !bool_decide_eq_true_2 by done. cbn [negb orb].
  assert (maxCopyBytes < 2 ^ 63)%Z by done. rewrite Atoi_Itoa by lia.
  rewrite (proj2 (Z.ltb_ge (len c) 0)) by lia. cbn [m_total orb].
  rewrite (proj2 (Z.ltb_ge (maxCopyBytes - m_total st) (len c))) by lia.
  assert (name e = Join (path_elems e) "/") as Hj by (symmetry; apply (Join_Split (name e) slash)).
  rewrite Hj, os.path_Join_abs, Rel_below, Rel_inside by (apply He || done).
  by apply (write_file_honest e (path_elems e) done (MkM _ _ _ (m_total st + len c))).
Qed.

Lemma write_entries_honest ctxs i done es st :
  (∀ n, ctxs n = None) → regular_tree (done ++ es) → filled done (m_tree st) (m_modes st) →
  m_pending st = "" → (0 ≤ m_total st)%Z → (m_total st + total_size blobs es ≤ maxCopyBytes)%Z →
  ∃ st', write_entries ctxs i b (os.abs_path ds) es st = (Ok tt, st') ∧
    filled (done ++ es) (m_tree st') (m_modes st').
Proof using All.
  intros Hctx. revert i done st. induction es as [|e es IH]; intros i done st Hr Hf Hpe H0 Hcap; simpl.
  { exists st. by rewrite app_nil_r. }
  rewrite Hctx. destruct Hr as [Rm Rb Rn Ra]. simpl in Hcap.
  assert (0 ≤ total_size blobs es)%Z as Hts.
  { clear. induction es as [|e es IH]; simpl; [lia|]. unfold len. lia. }
  assert (∀ e', e' ∈ done → ∃ j, done !! j = Some e' ∧ j ≠ length done ∧ (done ++ e :: es) !! j = Some e')
    as Hidx.
  { intros e' (j & Hj)%list_elem_of_lookup. exists j. pose proof (lookup_lt_Some _ _ _ Hj).
    split_and!; [done|lia|]. by apply lookup_app_l_Some. }
  assert ((done ++ e :: es) !! length done = Some e) as He by (by apply list_lookup_middle).
  destruct (write_entry_honest e done st) as (st1 & -> & Hp1 & Ht1 & Hf1); [done|set_solver|set_solver|..].
  - intros e' (j & _ & Hj & Hl)%Hidx. by eapply Ra.
  - intros e' (j & _ & Hj & Hl)%Hidx. by eapply Ra.
  - done.
  - done.
  - lia.
  - replace (done ++ e :: es) with ((done ++ [e]) ++ es) in * by (by rewrite <- app_assoc).
    apply IH; [by split|done|done|rewrite Ht1; unfold len in *; lia|rewrite Ht1; lia].
Qed.
End batch.
End exact.

Section honest.
  Context `{GoGit} {GB : GitBatch} (environ : list string).

Lemma Materialize_files ctxs r tree ds es blobs b w ms :
  objectID tree = true → osx.creatable w.2 ds → regular_tree es →
  (total_size blobs es ≤ maxCopyBytes)%Z → (∀ n, ctxs n = None) →
  git (command environ r "" None ["ls-tree"; "-r"; "-z"; "--full-tree"; tree]) w =
    (tree_text es, None, w) →
  batch (command environ r "" None ["cat-file"; "--batch"]) (w.1, <[ds := os.NDir]> w.2) = Ok b →
  (∀ id, objectID id = true →
    B_answer b (id +:+ String nl "") = Some (blob_text id (blobs id))) →
  B_wait b = None →
  ∃ t ms', Materialize environ ctxs r tree (os.abs_path ds) w ms = (Ok tt, (w.1, t), ms') ∧
    filled ds blobs es t ms'.
Proof.
  intros Htree Hc Hr Hcap Hctx Hls Hb Hans Hwait.
  assert (entries environ r "" tree w = (Ok es, w)) as He.
  { unfold entries. rewrite Htree. cbn [negb]. unfold gbind, run_ok, run. rewrite Hls.
    cbn [fmap option_fmap option_map].
    unfold glift. by rewrite (parse_tree_text [] es) by apply Hr. }
  unfold Materialize. rewrite He, osx.Mkdir_creatable by done. unfold fill. rewrite Hb.
  destruct (write_entries_honest ds (osx.cr_ne _ _ Hc) (osx.cr_plain _ _ Hc) (osx.cr_slash _ _ Hc) blobs
    b Hans ctxs 0 [] es (MkM (<[ds := os.NDir]> w.2) ms "" 0)) as (st & Hw & Hf); [done|done| |done..|].
  - split; [by apply osx.real_dir_made|by intros e ?%not_elem_of_nil|].
    intros q n Hq. cbn [m_tree].
    rewrite lookup_insert_ne; [by rewrite (osx.cr_new _ _ Hc) by (by apply prefix_app_r)|].
    intros Heq. symmetry in Heq. revert Heq. by apply inside_app.
  - cbn [fst snd]. rewrite Hw, Hwait. by exists (m_tree st), (m_modes st).
Qed.

(** C13: when git prints the tree and its blobs as it documents, materializing
    succeeds and the new directory holds exactly the files of the tree, each with
    exactly the bytes of its blob and its executable bit; the only other entries
    are the directories that lead to a file. *)
Theorem Materialize_exact ctxs r tree ds es blobs b w ms :
  objectID tree = true → osx.creatable w.2 ds → regular_tree es →
  (total_size blobs es ≤ maxCopyBytes)%Z → (∀ n, ctxs n = None) →
  git (command environ r "" None ["ls-tree"; "-r"; "-z"; "--full-tree"; tree]) w =
    (tree_text es, None, w) →
  batch (command environ r "" None ["cat-file"; "--batch"]) (w.1, <[ds := os.NDir]> w.2) = Ok b →
  (∀ id, objectID id = true →
    B_answer b (id +:+ String nl "") = Some (blob_text id (blobs id))) →
  B_wait b = None →
  ∃ t ms', Materialize environ ctxs r tree (os.abs_path ds) w ms = (Ok tt, (w.1, t), ms') ∧
    filled ds blobs es t ms'.
Proof. apply Materialize_files. Qed.
End honest.

End materialize.
