(* ===== verification/Pair.v ===== *)
(** * Environment pairs: [internal/pair]

    [Prepare] writes the baseline and the patch tree of a revision pair below one
    new directory, with the compose files to run them; [Up] and [Down] start and
    stop the two compose projects. The docker command line is the class
    [GoDocker], the JSON of the manifest the class [PairJSON]; the files bundled
    with the program are an argument. *)

From S2P Require Import Prelude GoStrings GoText GoOS Net Ingest Replay Impact Plan Validate GitRev Snapshot Materialize.
Import gitrev gitrun snapshots materialize.

Module pair.

Definition defaultBase : Z := 18180.
Definition defaultPatch : Z := 18280.

(** One side: its tree and the compose identity it runs under. *)
Record Side := MkSide {
  S_Role : string;
  S_Dir : string;
  S_Gateway : string;
  S_Project : string;
  S_EnvFile : string;
  S_ComposeFile : string;
  S_Context : string;
  S_GatewayPort : Z;
}.

Record Env := MkEnv {
  Env_ID : string;
  Env_Root : string;
  Env_Status : string;
  Env_BaselineRev : Revision;
  Env_PatchRev : Revision;
  Env_BaselineDigest : string;
  Env_PatchDigest : string;
  Env_ComposeFile : string;
  Env_Baseline : Side;
  Env_Patch : Side;
}.

Record PrepareOpts := MkPrepareOpts {
  O_Repo : Repo;
  O_Baseline : Revision;
  O_Patch : Revision;
  O_Parent : string;
  O_BasePort : Z;
  O_PatchPort : Z;
  O_Replace : bool;
}.

End pair.

(** The text of a manifest. *)
Class PairJSON := {
  env_Marshal : pair.Env → result string string;
  env_Unmarshal : string → option pair.Env;
}.

(** The docker command line: whether it is installed, and what a command in a
    directory does. *)
Class GoDocker := {
  Docker : Type;
  docker_found : bool;
  docker : string → list string → Docker → option ExecErr * Docker;
}.

Module pairs.
Import pair.

Definition projectPrefix : string := "aquila-env-".
Definition maxComposeErr : nat := 512.

(** ** compose.go: checks *)

Definition isHexID (id : string) : bool := (len id =? 12)%Z && all_hex id.

(** [wd] is the working directory that relative paths start at, if it is known. *)
Definition underRoot (wd : option string) (root path : string) : bool :=
  match os.Abs wd root, os.Abs wd path with
  | Some absRoot, Some absPath =>
      match osx.Rel absRoot absPath with
      | Some rel => (rel != "..") && negb (HasPrefix rel "../")
      | None => false
      end
  | _, _ => false
  end.

(** [net.SplitHostPort] *)
Definition SplitHostPort (hostport : string) : option (string * string) :=
  match LastIndexByte hostport (byte 58) with
  | None => None
  | Some i =>
      let port := str_drop (S i) hostport in
      if HasPrefix hostport "[" then
        match IndexByte hostport (byte 93) with
        | None => None
        | Some j =>
            if negb (S j =? i)%nat then None
            else
              let host := str_take (j - 1) (str_drop 1 hostport) in
              if ContainsAny (str_drop 1 hostport) "[" || ContainsAny (str_drop (S j) hostport) "]" then None
              else Some (host, port)
        end
      else
        let host := str_take i hostport in
        if ContainsAny host ":" then None
        else if ContainsAny hostport "[" || ContainsAny hostport "]" then None
        else Some (host, port)
  end.

Definition checkSide (wd : option string) (env : Env) (side : Side) : result string () :=
  let want := projectPrefix +:+ Env_ID env +:+ "-" +:+ S_Role side in
  if S_Project side != want then Err "pair: unexpected compose project"
  else if negb (underRoot wd (Env_Root env) (Env_ComposeFile env)) ||
          negb (underRoot wd (Env_Root env) (S_EnvFile side)) then
    Err "pair: compose paths must stay under the pair root"
  else match SplitHostPort (S_Gateway side) with
       | None => Err "pair: gateway"
       | Some (host, port) =>
           if (host != "127.0.0.1") && (host != "localhost") then Err "pair: gateway must be loopback"
           else if port == "" then Err "pair: gateway missing port"
           else Ok tt
       end.

Definition checkEnv (wd : option string) (env : Env) : result string () :=
  if Env_ID env == "" then Err "pair: missing id"
  else if negb (isHexID (Env_ID env)) then Err "pair: invalid id"
  else if Env_Root env == "" then Err "pair: missing root"
  else check? checkSide wd env (Env_Baseline env) in checkSide wd env (Env_Patch env).

Definition composeArgs (wd : option string) (env : Env) (side : Side) (extra : list string)
    : result string (list string) :=
  check? checkSide wd env side in
  Ok (["compose"; "--env-file"; S_EnvFile side; "-p"; S_Project side; "-f"; Env_ComposeFile env] ++ extra).

(** ** compose.go: running *)

(** One round of polling a gateway: the context's error before it, the status of
    the answer if there was one, and the context's error if it ends while waiting
    for the next round. *)
Record Round := MkRound {
  r_before : option string;
  r_status : option Z;
  r_after : option string;
}.

(** [None]: no round has ended it yet. *)
Fixpoint waitHealthy (gateway : string) (rounds : list Round) : option (result string ()) :=
  match rounds with
  | [] => None
  | r :: rounds =>
      let failed err := Some (Err ("pair: gateway " +:+ gateway +:+ " not healthy: " +:+ err)) in
      match r_before r with
      | Some err => failed err
      | None =>
          if r_status r == Some 200%Z then Some (Ok tt)
          else match r_after r with
               | Some err => failed err
               | None => waitHealthy gateway rounds
               end
      end
  end.

Section compose.
  Context `{GoDocker} (wd : option string) (files : os.tree).

Definition dockerCompose (dir : string) (args : list string) (d : Docker) : result string () * Docker :=
  if negb docker_found then (Err "pair: docker is required to start environments", d)
  else match os.Stat files dir with
       | Some os.NDir =>
           match docker dir args d with
           | (None, d) => (Ok tt, d)
           | (Some e, d) =>
               let msg := TrimSpace (E_Stderr e) in
               (Err (if msg == "" then "pair: docker compose: " +:+ E_Text e
                     else "pair: docker compose: " +:+ str_take maxComposeErr msg), d)
           end
       | _ => (Err "pair: compose directory", d)
       end.

(** The sides are given in the order they are stopped. *)
Fixpoint down_sides (env : Env) (first : option string) (sides : list Side) (d : Docker)
    : option string * Docker :=
  match sides with
  | [] => (first, d)
  | side :: sides =>
      match composeArgs wd env side ["down"; "--volumes"; "--remove-orphans"] with
      | Err e => down_sides env (Some (default e first)) sides d
      | Ok args =>
          match dockerCompose (Env_Root env) args d with
          | (Ok _, d) => down_sides env first sides d
          | (Err e, d) => down_sides env (Some (default e first)) sides d
          end
      end
  end.
Definition downSides (env : Env) (sides : list Side) (d : Docker) : result string () * Docker :=
  match down_sides env None (reverse sides) d with
  | (None, d) => (Ok tt, d)
  | (Some e, d) => (Err e, d)
  end.

Definition Down (env : Env) (d : Docker) : result string () * Docker :=
  match checkEnv wd env with
  | Err e => (Err e, d)
  | Ok _ => downSides env [Env_Baseline env; Env_Patch env] d
  end.

Definition upSide (rounds : string → list Round) (env : Env) (side : Side) (d : Docker)
    : option (result string () * Docker) :=
  match composeArgs wd env side ["up"; "-d"; "--build"] with
  | Err e => Some (Err e, d)
  | Ok args =>
      match dockerCompose (Env_Root env) args d with
      | (Err e, d) => Some (Err e, d)
      | (Ok _, d) => res ← waitHealthy (S_Gateway side) (rounds (S_Gateway side)); Some (res, d)
      end
  end.

(** Starts the sides that are left; [started] are stopped again on a failure. *)
Fixpoint up_sides (rounds : string → list Round) (env : Env) (started sides : list Side) (d : Docker)
    : option (result string () * Docker) :=
  match sides with
  | [] => Some (Ok tt, d)
  | side :: sides =>
      r ← upSide rounds env side d;
      match r with
      | (Err e, d) => Some (Err e, (downSides env started d).2)
      | (Ok _, d) => up_sides rounds env (started ++ [side]) sides d
      end
  end.

(** [free gateway]: nothing listens there. *)
Definition portsFree (free : string → bool) (env : Env) : result string () :=
  let in_use side := Err ("pair: port in use (" +:+ S_Gateway side +:+ ")") in
  if negb (free (S_Gateway (Env_Baseline env))) then in_use (Env_Baseline env)
  else if negb (free (S_Gateway (Env_Patch env))) then in_use (Env_Patch env)
  else Ok tt.

Definition Up (ctx : option string) (free : string → bool) (rounds : string → list Round) (env : Env)
    (d : Docker) : option (result string () * Docker) :=
  match ctx with
  | Some err => Some (Err err, d)
  | None =>
      match checkEnv wd env with
      | Err e => Some (Err e, d)
      | Ok _ =>
          match portsFree free env with
          | Err e => Some (Err e, d)
          | Ok _ => up_sides rounds env [] [Env_Baseline env; Env_Patch env] d
          end
      end
  end.
End compose.

(** ** prepare.go *)

Definition checkPorts (base patch : Z) : result string () :=
  if ((base <? 1024) || (patch <? 1024) || (65535 <? base) || (65535 <? patch))%Z then
    Err "pair: ports must be 1024-65535"
  else if base == patch then Err "pair: baseline and patch ports must differ"
  else Ok tt.

Definition env_body (context : string) (port : Z) : string :=
  "SHOP_CONTEXT=" +:+ context +:+ String nl ("GATEWAY_PORT=" +:+ Itoa port +:+ String nl "").

Definition requireShop (t : os.tree) (dir : string) : result string () :=
  match os.Stat t dir with
  | None => Err "pair: shop"
  | Some os.NDir =>
      if negb (bool_decide (is_Some (os.Stat t (os.path_Join dir "go.mod")))) then
        Err "pair: shop missing go.mod"
      else if negb (bool_decide (is_Some (os.Stat t (os.path_Join dir "Dockerfile")))) then
        Err "pair: shop missing Dockerfile"
      else Ok tt
  | Some _ => Err ("pair: shop " +:+ dir +:+ " is not a directory")
  end.

Definition writeFile (t : os.tree) (path body : string) : result string os.tree :=
  match os.WriteFile t path body with
  | Some t => Ok t
  | None => Err "pair: write"
  end.
Definition writeEmbedded (bundled : string → option string) (t : os.tree) (dest name : string)
    : result string os.tree :=
  match bundled name with
  | None => Err "pair: embed"
  | Some raw => writeFile t dest raw
  end.
Definition writeEnvFile (t : os.tree) (path context : string) (port : Z) : result string os.tree :=
  writeFile t path (env_body context port).

Section manifest.
  Context `{PairJSON}.

Definition loadManifest (t : os.tree) (root : string) : option Env :=
  raw ← os.ReadFile t (os.path_Join root "manifest.json");
  env ← env_Unmarshal raw;
  if (Env_ID env == "") || (Env_Root env == "") then None else Some env.
End manifest.

Definition side_of (role id root : string) (port : Z) (composePath : string) : Side :=
  MkSide role (os.path_Join root role) ("127.0.0.1:" +:+ Itoa port)
    (projectPrefix +:+ id +:+ "-" +:+ role) (os.path_Join root (role +:+ ".env")) composePath
    ("./" +:+ role) port.

Definition env_of (id root : string) (opts : PrepareOpts) (basePort patchPort : Z) : Env :=
  let composePath := os.path_Join root "docker-compose.yaml" in
  MkEnv id root "prepared" (O_Baseline opts) (O_Patch opts) (Rev_Tree (O_Baseline opts))
    (Rev_Tree (O_Patch opts)) composePath
    (side_of "baseline" id root basePort composePath) (side_of "patch" id root patchPort composePath).

(** The files beside the two trees. *)
Definition write_files `{PairJSON} (bundled : string → option string) (root : string) (env : Env)
    (t : os.tree) : result string () * os.tree :=
  let step (r : result string os.tree) (t : os.tree) (k : os.tree → result string () * os.tree) :=
    match r with Ok t' => k t' | Err e => (Err e, t) end in
  step (writeEmbedded bundled t (Env_ComposeFile env) "compose.yaml") t (λ t,
  step (writeEmbedded bundled t (os.path_Join root "otel.yaml") "otel.yaml") t (λ t,
  step (writeEnvFile t (S_EnvFile (Env_Baseline env)) "./baseline" (S_GatewayPort (Env_Baseline env))) t (λ t,
  step (writeEnvFile t (S_EnvFile (Env_Patch env)) "./patch" (S_GatewayPort (Env_Patch env))) t (λ t,
  match env_Marshal env with
  | Err e => (Err ("pair: manifest: " +:+ e), t)
  | Ok raw =>
      step (writeFile t (os.path_Join root "manifest.json") (raw +:+ String nl "")) t (λ t, (Ok tt, t))
  end)))).

Section prepare.
  Context `{GitBatch} `{GoSHA} `{PairJSON} `{GoDocker} (environ : list string).

(** Everything that happens in the new directory [root]. *)
Definition build (ctxs : nat → option string) (bundled : string → option string) (opts : PrepareOpts)
    (env : Env) (w : World) (ms : modes) : result string Env * World * modes :=
  match Materialize environ ctxs (O_Repo opts) (Rev_Tree (O_Baseline opts)) (S_Dir (Env_Baseline env)) w ms with
  | (Err e, w, ms) => (Err (error_text e), w, ms)
  | (Ok _, w, ms) =>
      match Materialize environ ctxs (O_Repo opts) (Rev_Tree (O_Patch opts)) (S_Dir (Env_Patch env)) w ms with
      | (Err e, w, ms) => (Err (error_text e), w, ms)
      | (Ok _, w, ms) =>
          match rbind (requireShop w.2 (S_Dir (Env_Baseline env)))
                  (λ _, requireShop w.2 (S_Dir (Env_Patch env))) with
          | Err e => (Err e, w, ms)
          | Ok _ =>
              match write_files bundled (Env_Root env) env w.2 with
              | (Err e, t) => (Err e, (w.1, t), ms)
              | (Ok _, t) => (Ok env, (w.1, t), ms)
              end
          end
      end
  end.

(** [replaceRoot]: the old environment is stopped if its manifest can be read. *)
Definition replaceRoot (wd : option string) (root : string) (t : os.tree) (d : Docker) : os.tree * Docker :=
  let d := match loadManifest t root with
           | Some env => (Down wd t env d).2
           | None => d
           end in
  (osx.RemoveAll t root, d).

Definition pair_id (opts : PrepareOpts) : string :=
  str_take 12 (sha256_hex (Rev_Tree (O_Baseline opts) +:+ ":" +:+ Rev_Tree (O_Patch opts))).

(** [wd] is the working directory, if it is known. *)
Definition Prepare (ctx : option string) (ctxs : nat → option string) (wd : option string)
    (bundled : string → option string) (opts : PrepareOpts) (w : World) (ms : modes) (d : Docker)
    : result string Env * World * modes * Docker :=
  match ctx with
  | Some err => (Err err, w, ms, d)
  | None =>
      if (Rev_Tree (O_Baseline opts) == "") || (Rev_Tree (O_Patch opts) == "") then
        (Err "pair: missing revision tree", w, ms, d)
      else match os.Abs wd (O_Parent opts) with
      | None => (Err "pair: out", w, ms, d)
      | Some parent =>
          let basePort := if O_BasePort opts == 0%Z then defaultBase else O_BasePort opts in
          let patchPort := if O_PatchPort opts == 0%Z then defaultPatch else O_PatchPort opts in
          match checkPorts basePort patchPort with
          | Err e => (Err e, w, ms, d)
          | Ok _ =>
              let id := pair_id opts in
              let root := os.path_Join parent id in
              let exists_ := bool_decide (is_Some (os.Stat w.2 root)) in
              if exists_ && negb (O_Replace opts) then (Err ("pair: " +:+ id +:+ " exists"), w, ms, d)
              else
                let '(t, d) := if exists_ then replaceRoot wd root w.2 d else (w.2, d) in
                let ms := if exists_ then remove_modes ms w.2 root else ms in
                match os.MkdirAll t root with
                | (false, t) => (Err "pair: mkdir", (w.1, t), ms, d)
                | (true, t) =>
                    match build ctxs bundled opts (env_of id root opts basePort patchPort) (w.1, t) ms with
                    | (Ok env, w, ms) => (Ok env, w, ms, d)
                    | (Err e, w, ms) =>
                        (Err e, (w.1, osx.RemoveAll w.2 root), remove_modes ms w.2 root, d)
                    end
                end
          end
      end
  end.

End prepare.
(** ** The directory of a pair *)

Lemma child_path R x :
  Forall plain R → Forall os.slashless R → plain x → os.slashless x →
  os.path_Join (os.abs_path R) x = os.abs_path (R ++ [x]).
Proof.
  intros Hp Hs Hx Hxs. change x with (Join [x] "/") at 1.
  apply os.path_Join_abs; [done|..]; apply Forall_app; split; done || by apply Forall_singleton.
Qed.

(** Names below different children of [R] differ. *)
Lemma apart (R : list string) x y q : x ≠ y → R ++ [x] `prefix_of` q → ¬ R ++ [y] `prefix_of` q.
Proof. intros Hne [k ->] [k' Hk]. rewrite <- !app_assoc in Hk. apply app_inv_head in Hk. by injection Hk. Qed.

(** Nothing is below a directory just made. *)
Lemma child_none t R x q :
  osx.creatable t R → R ++ [x] `prefix_of` q → <[R := os.NDir]> t !! q = None.
Proof.
  intros HR Hq. rewrite lookup_insert_ne; [apply HR; by eapply prefix_app_l|].
  intros <-. apply prefix_length in Hq. rewrite length_app in Hq. simpl in Hq. lia.
Qed.

(** A directory [R] below which only new entries have been made. *)
Record growing (R : list string) (t0 : os.tree) (ms0 : modes) (t : os.tree) (ms : modes) : Prop := {
  gr_tree : os.within R (<[R := os.NDir]> t0) t;
  gr_modes q : ¬ R `prefix_of` q → ms !! q = ms0 !! q;
}.

Section root.
  Context (R : list string) (t0 : os.tree) (ms0 : modes).
  Context (HR : osx.creatable t0 R) (Hms : ∀ q, R `prefix_of` q → ms0 !! q = None).

Lemma growing_start : growing R t0 ms0 (<[R := os.NDir]> t0) ms0.
Proof using All. split; [|done]. by apply os.within_refl, osx.real_dir_made. Qed.

(** A name below the directory that is not taken can be made a directory. *)
Lemma growing_creatable t ms x :
  growing R t0 ms0 t ms → plain x → os.slashless x → (∀ q, R ++ [x] `prefix_of` q → t !! q = None) →
  osx.creatable t (R ++ [x]).
Proof using All.
  intros [[Hd _] _] Hp Hs Hn. split.
  - apply Forall_app; split; [apply HR|by apply Forall_singleton].
  - apply Forall_app; split; [apply HR|by apply Forall_singleton].
  - intros q [->|Hq]%snoc_prefix Hne; [done|]. by apply Hd.
  - done.
  - by destruct R.
Qed.

(** Materializing into a new name. *)
Lemma growing_untouched t ms t' ms' x :
  growing R t0 ms0 t ms → untouched_outside (R ++ [x]) t t' ms ms' → growing R t0 ms0 t' ms'.
Proof using All.
  intros [[Hd Hsame] Hm] (Ht & Hm' & _ & Hl).
  assert (∀ q, ¬ os.inside R q → ¬ R ++ [x] `prefix_of` q) as Hout.
  { intros q Hq Hx. apply Hq. split; [by eapply prefix_app_l|].
    intros ->. apply prefix_length in Hx. rewrite length_app in Hx. simpl in Hx. lia. }
  split; [split; [split|]|].
  - intros q Hq. pose proof (os.rd_up _ _ Hd q Hq) as He. unfold os.entry in *.
    case_bool_decide; [done|]. rewrite Ht; [done|]. apply Hout. intros [Hi Hne]. apply Hne.
    by apply (anti_symm prefix).
  - intros q target Hq. destruct (decide (R ++ [x] `prefix_of` q)) as [Hx|Hx]; [by apply Hl|].
    rewrite Ht by done. by apply Hd.
  - intros q Hq. rewrite Ht by (by apply Hout). by apply Hsame.
  - intros q Hq. rewrite Hm'; [by apply Hm|]. intros Hx. apply Hq. by eapply prefix_app_l.
Qed.

(** Writing a file into the directory. *)
Lemma growing_write t ms x body t' :
  growing R t0 ms0 t ms → plain x → os.slashless x →
  writeFile t (os.path_Join (os.abs_path R) x) body = Ok t' →
  t' = <[R ++ [x] := os.NFile body]> t ∧ growing R t0 ms0 t' ms.
Proof using All.
  intros [Hw Hm] Hp Hs. rewrite child_path by (apply HR || done). unfold writeFile.
  destruct (os.WriteFile _ _ _) as [t1|] eqn:E; [|done]. intros [= <-].
  apply (os.WriteFile_below R) in E as ->.
  - split; [done|]. split; [|done]. apply (os.within_trans _ _ t); [done|].
    apply (os.within_alter _ _ _ (Some _)); [apply Hw|by apply inside_app|done].
  - apply Hw.
  - by apply prefix_app_r.
  - apply Forall_app; split; [apply HR|by apply Forall_singleton].
  - apply Forall_app; split; [apply HR|by apply Forall_singleton].
  - by destruct R.
Qed.

Lemma growing_removed t ms :
  growing R t0 ms0 t ms → osx.RemoveAll t (os.abs_path R) = t0 ∧ remove_modes ms t (os.abs_path R) = ms0.
Proof using All.
  intros [[Hd Hsame] Hm]. split; [by apply osx.RemoveAll_made|]. by apply (remove_modes_made t0).
Qed.
End root.

Lemma names_plain :
  Forall (λ x, plain x ∧ os.slashless x)
    ["baseline"; "patch"; "docker-compose.yaml"; "otel.yaml"; "baseline.env"; "patch.env"; "manifest.json"].
Proof.
  assert (∀ x, bool_decide (plain x ∧ slash ∉ bytes x) = true → plain x ∧ os.slashless x) as H
    by (intros x Hx; by apply bool_decide_eq_true in Hx).
  repeat constructor; by apply H.
Qed.

Section build.
  Context `{GL : GitLaws} {GB : GitBatch} `{GoSHA} `{PairJSON} `{GoDocker} (environ : list string).
  Context (R : list string) (t0 : os.tree) (ms0 : modes).
  Context (HR : osx.creatable t0 R) (Hms : ∀ q, R `prefix_of` q → ms0 !! q = None).
  Context (ctxs : nat → option string) (bundled : string → option string).

Lemma write_files_growing id opts bp pp t ms res t' :
  growing R t0 ms0 t ms →
  write_files bundled (os.abs_path R) (env_of id (os.abs_path R) opts bp pp) t = (res, t') →
  growing R t0 ms0 t' ms.
Proof using All.
  intros Hg. unfold write_files, env_of, side_of. simpl. unfold writeEmbedded, writeEnvFile.
  assert (∀ x t body t1, x ∈ ["docker-compose.yaml"; "otel.yaml"; "baseline.env"; "patch.env"; "manifest.json"] →
    growing R t0 ms0 t ms → writeFile t (os.path_Join (os.abs_path R) x) body = Ok t1 →
    growing R t0 ms0 t1 ms) as Hstep.
  { intros x t1 body t2 Hx Hg1 Hw. pose proof names_plain as Hn. rewrite Forall_forall in Hn.
    destruct (Hn x) as [Hp Hs]; [by do 2 right|].
    by apply (growing_write R t0 ms0 HR Hms t1 ms x body) in Hw as [_ ?]. }
  destruct (bundled "compose.yaml") as [c1|]; [|by intros [= _ <-]].
  destruct (writeFile t _ c1) as [t1|] eqn:E1; [|by intros [= _ <-]].
  apply Hstep in E1; [|set_solver|done].
  destruct (bundled "otel.yaml") as [c2|]; [|by intros [= _ <-]].
  destruct (writeFile t1 _ c2) as [t2|] eqn:E2; [|by intros [= _ <-]].
  apply Hstep in E2; [|set_solver|done].
  destruct (writeFile t2 _ _) as [t3|] eqn:E3; [|by intros [= _ <-]].
  apply Hstep in E3; [|set_solver|done].
  destruct (writeFile t3 _ _) as [t4|] eqn:E4; [|by intros [= _ <-]].
  apply Hstep in E4; [|set_solver|done].
  destruct (env_Marshal _) as [raw|]; [|by intros [= _ <-]].
  destruct (writeFile t4 _ _) as [t5|] eqn:E5; [|by intros [= _ <-]].
  apply Hstep in E5; [|set_solver|done]. by intros [= _ <-].
Qed.

Lemma build_growing id opts bp pp w1 res w' ms' :
  build environ ctxs bundled opts (env_of id (os.abs_path R) opts bp pp) (w1, <[R := os.NDir]> t0) ms0 =
    (res, w', ms') →
  w'.1 = w1 ∧ growing R t0 ms0 w'.2 ms'.
Proof using All.
  pose proof names_plain as Hn. rewrite Forall_forall in Hn.
  destruct (Hn "baseline") as [Hbp Hbs]; [set_solver|]. destruct (Hn "patch") as [Hpp Hps]; [set_solver|].
  pose proof (growing_start R t0 ms0 HR Hms) as Hg0.
  unfold build. simpl. rewrite !child_path by (apply HR || done).
  destruct (Materialize _ _ _ _ _ _ _) as [[res1 wa] msa] eqn:E1.
  apply Materialize_inside in E1 as [Hw1 Hr1]; [|by apply (growing_creatable R t0 ms0 HR Hms _ ms0); eauto using child_none|].
  2: { intros q Hq. apply Hms. by eapply prefix_app_l. }
  destruct res1 as [[]|e]; [|destruct Hr1 as [Ha Hb]; intros [= _ <- <-]; by rewrite Hw1, Ha, Hb].
  simpl in Hw1, Hr1. pose proof (growing_untouched R t0 ms0 HR Hms _ _ _ _ _ Hg0 Hr1) as Hga.
  destruct (Materialize _ _ _ _ _ wa _) as [[res2 wb] msb] eqn:E2.
  apply Materialize_inside in E2 as [Hw2 Hr2].
  2: { apply (growing_creatable R t0 ms0 HR Hms _ msa); [done..|]. intros q Hq.
       rewrite (proj1 Hr1) by (by apply (apart R "patch")). by eapply child_none. }
  2: { intros q Hq. rewrite (proj1 (proj2 Hr1)) by (by apply (apart R "patch")). apply Hms. by eapply prefix_app_l. }
  destruct res2 as [[]|e]; [|destruct Hr2 as [Ha Hb]; intros [= _ <- <-]; by rewrite Hw2, Ha, Hb].
  pose proof (growing_untouched R t0 ms0 HR Hms _ _ _ _ _ Hga Hr2) as Hgb.
  destruct (rbind _ _) as [u|e] eqn:Es; [|intros [= _ <- <-]; by rewrite Hw2].
  destruct (write_files _ _ _ _) as [[u'|e] t] eqn:Ef; eapply (write_files_growing _ _ _ _ _ msb) in Ef; try done;
    intros [= _ <- <-]; by rewrite <- Hw1, <- Hw2.
Qed.
End build.

(** ** Preparing a pair *)

Lemma new_root t R :
  osx.creatable t R →
  os.Stat t (os.abs_path R) = None ∧ os.MkdirAll t (os.abs_path R) = (true, <[R := os.NDir]> t).
Proof.
  intros [Hp Hs Hu Hn Hne]. split.
  - unfold os.Stat. rewrite lookup_reached_true; [|done..|by intros; rewrite Hn]. simpl.
    by rewrite os.entry_ne, Hn.
  - destruct (MkdirAll_reached t R) as (t' & -> & Hl); [|done..|].
    + intros q Hq Hqn. destruct (decide (q = R)) as [->|Hd]; [left; by apply Hn|right].
      by rewrite <- os.entry_ne, Hu.
    + f_equal. apply map_eq. intros q. rewrite Hl. destruct (decide (q = R)) as [->|Hd].
      * by rewrite decide_True, lookup_insert_eq.
      * rewrite lookup_insert_ne by done. case_decide as Hq; [|done].
        destruct Hq as [Hqn Hq]. by rewrite <- os.entry_ne, Hu.
Qed.

Lemma pair_id_hex `{GoSHA} opts : isHexID (pair_id opts) = true.
Proof.
  unfold isHexID, pair_id. destruct (sha256_hex_ok (Rev_Tree (O_Baseline opts) +:+ ":" +:+ Rev_Tree (O_Patch opts)))
    as [Hl Hh]. rewrite all_hex_take by done. unfold len. rewrite length_str_take, Hl. done.
Qed.

Lemma hex_id_plain id : isHexID id = true → plain id ∧ os.slashless id.
Proof.
  unfold isHexID. intros [Hl Hh]%andb_true_iff. split.
  - split_and!; by intros ->.
  - unfold os.slashless. by apply (not_in_all is_hex).
Qed.

(** The place of a pair: whatever is there is no link, what is above is a directory
    or missing, nothing is below what is missing. *)
Record site (t : os.tree) (ms : modes) (R : list string) : Prop := {
  si_up q : q `prefix_of` R → q ≠ R → q ≠ [] → free_or_dir t q;
  si_link target : t !! R ≠ Some (os.NLink target);
  si_below q q' : q `prefix_of` R → q ≠ [] → t !! q = None → q `prefix_of` q' → t !! q' = None;
  si_modes q : R `prefix_of` q → t !! R = None → ms !! q = None;
}.

Section site.
  Context (t : os.tree) (ms : modes) (R : list string).
  Context (HS : site t ms R) (Hp : Forall plain R) (Hs : Forall os.slashless R) (Hne : R ≠ []).

Lemma site_reached n : t !! R = Some n → osx.reached t R.
Proof using HS Hne.
  intros E q Hq Hd. unfold os.entry. case_bool_decide as Hn; [done|].
  destruct (si_up _ _ _ HS q Hq Hd Hn) as [Hq0|]; [|done]. by rewrite (si_below _ _ _ HS q R) in E.
Qed.

Lemma site_Stat : os.Stat t (os.abs_path R) = t !! R.
Proof using All.
  destruct (t !! R) as [n|] eqn:E.
  - unfold os.Stat. rewrite lookup_reached_true; [simpl; by rewrite os.entry_ne|by eapply site_reached|done..|].
    intros target Hl. simplify_eq. by apply (si_link _ _ _ HS target).
  - unfold os.Stat. destruct (os.lookup_path _ _ _) as [q|] eqn:Hq; [|done]. simpl.
    assert (q = R) as ->; [|by rewrite os.entry_ne]. revert Hq. unfold os.lookup_path.
    rewrite os.elems_abs, bool_decide_eq_false_2 by done.
    change (os.resolve os.maxLinks t true [] R = Some q → q = R).
    cut (∀ todo dir, dir ++ todo = R → os.resolve os.maxLinks t true dir todo = Some q → q = R).
    { intros Hc. by apply (Hc R []). }
    induction todo as [|e todo IH]; intros dir Hd.
    { rewrite os.resolve_nil. rewrite app_nil_r in Hd. by intros [= <-]. }
    assert ((dir ++ [e]) ++ todo = R) as Hd' by (by rewrite <- app_assoc).
    rewrite os.resolve_plain.
    + assert ((if todo == [] then Some (dir ++ [e]) else None) = Some q → q = R) as Hlast.
      { case_bool_decide; [|done]. subst todo. rewrite app_nil_r in Hd'. by intros [= <-]. }
      destruct (t !! (dir ++ [e])) as [[]|]; [auto| |auto..]. by apply IH.
    + rewrite Forall_forall in Hp. apply Hp. rewrite <- Hd. set_solver.
    + intros target. destruct (decide (dir ++ [e] = R)) as [->|Hn]; [apply HS|].
      destruct (si_up _ _ _ HS (dir ++ [e])) as [-> | ->]; [by exists todo|done|by destruct dir|done..].
Qed.

(** The place once what was there has been removed. *)
Definition cleared : os.tree := if decide (is_Some (t !! R)) then osx.remove_below t R else t.
Definition cleared_modes : modes := if decide (is_Some (t !! R)) then filter (λ kv, ¬ (R `prefix_of` kv.1)) ms else ms.

Lemma site_removed :
  (if decide (is_Some (t !! R)) then osx.RemoveAll t (os.abs_path R) else t) = cleared ∧
  (if decide (is_Some (t !! R)) then remove_modes ms t (os.abs_path R) else ms) = cleared_modes.
Proof using All.
  unfold cleared, cleared_modes. case_decide as E; [|done]. destruct E as [n E].
  unfold osx.RemoveAll, remove_modes. by rewrite osx.lookup_reached by eauto using site_reached.
Qed.

Lemma cleared_lookup q : cleared !! q = if decide (R `prefix_of` q) then None else t !! q.
Proof using HS Hne.
  unfold cleared. case_decide as E.
  - unfold osx.remove_below. case_decide as Hq; [apply map_lookup_filter_None; right; naive_solver|].
    destruct (t !! q) eqn:Et; [by apply map_lookup_filter_Some|apply map_lookup_filter_None; by left].
  - case_decide as Hq; [|done]. apply eq_None_not_Some in E. by apply (si_below _ _ _ HS R).
Qed.

Lemma cleared_modes_lookup q : cleared_modes !! q = if decide (R `prefix_of` q) then None else ms !! q.
Proof using HS.
  unfold cleared_modes. case_decide as E.
  - case_decide as Hq; [apply map_lookup_filter_None; right; naive_solver|].
    destruct (ms !! q) eqn:Et; [by apply map_lookup_filter_Some|apply map_lookup_filter_None; by left].
  - case_decide as Hq; [|done]. apply eq_None_not_Some in E. by apply (si_modes _ _ _ HS).
Qed.

(** Making the directory: the missing ones above it are made too. *)
Lemma site_made :
  ∃ t0, os.MkdirAll cleared (os.abs_path R) = (true, <[R := os.NDir]> t0) ∧ osx.creatable t0 R ∧
    ∀ q, t0 !! q = if decide (R `prefix_of` q) then None
                   else if decide (q ≠ [] ∧ q `prefix_of` R) then Some os.NDir else t !! q.
Proof using All.
  destruct (MkdirAll_reached cleared R) as (t1 & Hm & Hl); [|done..|].
  { intros q Hq Hn. unfold free_or_dir. rewrite cleared_lookup. case_decide as HR; [by left|].
    apply (si_up _ _ _ HS q Hq); [|done]. by intros ->. }
  assert (∀ q, delete R t1 !! q = if decide (R `prefix_of` q) then None
                   else if decide (q ≠ [] ∧ q `prefix_of` R) then Some os.NDir else t !! q) as Hd.
  { intros q. destruct (decide (q = R)) as [->|Hq]; [by rewrite lookup_delete_eq, decide_True|].
    rewrite lookup_delete_ne by done. rewrite Hl, cleared_lookup. case_decide as H1; [|done]. destruct H1 as [Hq0 H1].
    rewrite decide_False; [done|]. intros HR. apply Hq. by apply (anti_symm prefix). }
  exists (delete R t1). split; [|split; [|done]].
  - rewrite Hm, insert_delete_id; [done|]. by rewrite Hl, decide_True.
  - split; [done|done| | |done].
    + intros q Hq Hn. unfold os.entry. case_bool_decide; [done|]. rewrite Hd, decide_False; [by rewrite decide_True|].
      intros HR. apply Hn. by apply (anti_symm prefix).
    + intros q Hq. by rewrite Hd, decide_True.
Qed.
End site.

(** Nothing has happened yet. *)
Ltac unchanged := by intros [= <- <- <- <-]; split; [|split; [by auto|left]].

Section prepared.
  Context `{GL : GitLaws} {GB : GitBatch} `{GoSHA} `{PairJSON} `{GoDocker} (environ : list string).

End prepared.

(** ** A prepared pair *)

Lemma filled_ext ds blobs es t t' ms ms' :
  (∀ q, ds `prefix_of` q ∨ q `prefix_of` ds → t' !! q = t !! q) →
  (∀ q, ds `prefix_of` q → ms' !! q = ms !! q) → filled ds blobs es t ms → filled ds blobs es t' ms'.
Proof.
  intros Ht Hm [[Hu Hd] Hf Ho]. split; [split|..].
  - intros q Hq. specialize (Hu q Hq). unfold os.entry in *. case_bool_decide; [done|]. rewrite Ht; auto.
  - intros q target Hq. rewrite Ht; auto.
  - intros e He. rewrite Ht by (left; by apply prefix_app_r). rewrite Hm by (by apply prefix_app_r). by apply Hf.
  - intros q n Hq. rewrite Ht by (left; by apply prefix_app_r). by apply Ho.
Qed.

(** A tree with the two files every shop has. *)
Definition is_shop (es : list treeEntry) : Prop :=
  (∃ e, e ∈ es ∧ name e = "go.mod") ∧ (∃ e, e ∈ es ∧ name e = "Dockerfile").

Lemma filled_Stat ds blobs es t ms x :
  filled ds blobs es t ms → ds ≠ [] → Forall plain ds → Forall os.slashless ds →
  (∃ e, e ∈ es ∧ name e = x) → Split x slash = [x] → plain x → os.slashless x →
  is_Some (os.Stat t (os.path_Join (os.abs_path ds) x)).
Proof.
  intros [Hd Hf _] Hne Hp Hs (e & He & Hx) Hsp Hxp Hxs. rewrite child_path by done.
  destruct (Hf e He) as [Hl _]. unfold path_elems in Hl. rewrite Hx, Hsp in Hl.
  unfold os.Stat. rewrite lookup_reached_true.
  - simpl. rewrite os.entry_ne by (by destruct ds). eauto.
  - intros q [->|Hq]%snoc_prefix Hqn; [done|]. by apply Hd.
  - apply Forall_app; split; [done|by apply Forall_singleton].
  - apply Forall_app; split; [done|by apply Forall_singleton].
  - by destruct ds.
  - by rewrite Hl.
Qed.

Lemma requireShop_filled ds blobs es t ms :
  filled ds blobs es t ms → ds ≠ [] → Forall plain ds → Forall os.slashless ds → is_shop es →
  requireShop t (os.abs_path ds) = Ok tt.
Proof.
  intros Hf Hne Hp Hs [Hgo Hdo]. unfold requireShop. pose proof (fi_dir _ _ _ _ _ Hf) as Hd.
  unfold os.Stat at 1. rewrite lookup_reached_true; [|by intros q Hq Hqn; apply Hd|done..|].
  - simpl. rewrite (os.rd_up _ _ Hd) by done.
    assert (∀ x, (∃ e, e ∈ es ∧ name e = x) →
      bool_decide (Split x slash = [x] ∧ plain x ∧ slash ∉ bytes x) = true →
      is_Some (os.Stat t (os.path_Join (os.abs_path ds) x))) as Hst.
    { intros x Hx (H1 & H2 & H3)%bool_decide_eq_true. by eapply filled_Stat. }
    by rewrite !bool_decide_eq_true_2 by (by apply Hst).
  - intros target Ht. by apply (os.rd_down _ _ Hd ds target).
Qed.

Lemma writeFile_new t R x body :
  os.real_dir t R → Forall plain R → Forall os.slashless R → plain x → os.slashless x →
  t !! (R ++ [x]) = None →
  writeFile t (os.path_Join (os.abs_path R) x) body = Ok (<[R ++ [x] := os.NFile body]> t).
Proof.
  intros Hd Hp Hs Hxp Hxs Hn. rewrite child_path by done. unfold writeFile, os.WriteFile.
  rewrite lookup_reached_true.
  - simpl. by rewrite os.entry_ne, Hn by (by destruct R).
  - intros q [->|Hq]%snoc_prefix Hqn; [done|]. by apply Hd.
  - apply Forall_app; split; [done|by apply Forall_singleton].
  - apply Forall_app; split; [done|by apply Forall_singleton].
  - by destruct R.
  - by rewrite Hn.
Qed.

(** *** Checks of what has been prepared *)

Lemma underRoot_child wd R x :
  R ≠ [] → Forall plain R → Forall os.slashless R → plain x → os.slashless x →
  underRoot wd (os.abs_path R) (os.path_Join (os.abs_path R) x) = true.
Proof.
  intros Hne Hp Hs Hxp Hxs.
  assert (Forall plain (R ++ [x])) by (apply Forall_app; split; [done|by apply Forall_singleton]).
  assert (Forall os.slashless (R ++ [x])) by (apply Forall_app; split; [done|by apply Forall_singleton]).
  rewrite child_path by done. unfold underRoot, os.Abs. rewrite !os.abs_path_nonempty, !os.Clean_abs_path by done.
  rewrite Rel_below by done.
  pose proof (Rel_inside [x] ltac:(done) (proj2 (Forall_singleton _ _) Hxp) (proj2 (Forall_singleton _ _) Hxs)) as Hi.
  apply orb_false_iff in Hi as [-> ->]. done.
Qed.

Lemma digits_not_any s chars :
  forallb is_digit (bytes s) = true → forallb (λ c, negb (is_digit c)) (bytes chars) = true →
  ContainsAny s chars = false.
Proof.
  intros Hs Hc. unfold ContainsAny. apply existsb_False. intros a Ha. apply bool_decide_eq_false_2. intros Hin.
  rewrite forallb_forall in Hs, Hc. specialize (Hs a). specialize (Hc a).
  rewrite Hs in Hc by (by apply list_elem_of_In). by specialize (Hc (proj1 (list_elem_of_In _ _) Hin)).
Qed.

Lemma ContainsAny_app s t chars : ContainsAny (s +:+ t) chars = ContainsAny s chars || ContainsAny t chars.
Proof. unfold ContainsAny. by rewrite bytes_app, existsb_app. Qed.

Lemma SplitHostPort_loopback port :
  (0 ≤ port)%Z → SplitHostPort ("127.0.0.1:" +:+ Itoa port) = Some ("127.0.0.1", Itoa port).
Proof.
  intros Hz. destruct (Itoa_digits port Hz) as (_ & Hd & _).
  change ("127.0.0.1:" +:+ Itoa port) with ("127.0.0.1" +:+ String (byte 58) (Itoa port)).
  unfold SplitHostPort. rewrite LastIndexByte_app by (by apply (not_in_all is_digit)).
  replace (HasPrefix _ "[") with false by done.
  rewrite str_take_app.
  assert (str_drop (S (String.length "127.0.0.1")) ("127.0.0.1" +:+ String (byte 58) (Itoa port)) = Itoa port) as ->
    by done.
  change (String (byte 58) (Itoa port)) with (":" +:+ Itoa port).
  rewrite !ContainsAny_app, !(digits_not_any (Itoa port)) by done. done.
Qed.

Lemma checkSide_prepared wd id R opts bp pp role port :
  R ≠ [] → Forall plain R → Forall os.slashless R → role = "baseline" ∨ role = "patch" → (0 ≤ port)%Z →
  checkSide wd (env_of id (os.abs_path R) opts bp pp)
    (side_of role id (os.abs_path R) port (os.path_Join (os.abs_path R) "docker-compose.yaml")) = Ok tt.
Proof.
  intros Hne Hp Hs Hrole Hport. unfold checkSide. cbn [S_Project side_of S_Role S_EnvFile S_Gateway env_of Env_ID
    Env_Root Env_ComposeFile]. rewrite bool_decide_eq_true_2 by done. cbn [negb].
  pose proof names_plain as Hn. rewrite Forall_forall in Hn.
  destruct (Hn "docker-compose.yaml") as [H1 H2]; [by apply (bool_decide_unpack _)|].
  destruct (Hn (role +:+ ".env")) as [H3 H4]; [destruct Hrole as [-> | ->]; by apply (bool_decide_unpack _)|].
  rewrite !underRoot_child by done. cbn [negb orb]. rewrite SplitHostPort_loopback by done.
  rewrite bool_decide_eq_true_2 by done. cbn [negb andb].
  destruct (Itoa_digits port Hport) as (Hi & _ & _). by rewrite bool_decide_eq_false_2.
Qed.

Section pair.
  Context `{GL : GitLaws} {GB : GitBatch} `{GoSHA} `{PairJSON} `{GoDocker} (environ : list string).

(** Git prints the tree and its blobs as documented, whatever files there are. *)
Record serves (r : Repo) (repo : Repository) (tree : string) (es : list treeEntry)
    (blobs : string → string) : Prop := {
  sv_tree : objectID tree = true;
  sv_entries : regular_tree es;
  sv_size : (total_size blobs es ≤ maxCopyBytes)%Z;
  sv_list t : git (command environ r "" None ["ls-tree"; "-r"; "-z"; "--full-tree"; tree]) (repo, t) =
    (tree_text es, None, (repo, t));
  sv_batch t : ∃ b, batch (command environ r "" None ["cat-file"; "--batch"]) (repo, t) = Ok b ∧
    B_wait b = None ∧
    ∀ id, objectID id = true → B_answer b (id +:+ String nl "") = Some (blob_text id (blobs id));
}.

Lemma Materialize_serves ctxs r repo t tree es blobs ds ms :
  serves r repo tree es blobs → osx.creatable t ds → (∀ q, ds `prefix_of` q → ms !! q = None) →
  (∀ n, ctxs n = None) →
  ∃ t' ms', Materialize environ ctxs r tree (os.abs_path ds) (repo, t) ms = (Ok tt, (repo, t'), ms') ∧
    filled ds blobs es t' ms' ∧ untouched_outside ds t t' ms ms'.
Proof using All.
  intros [Hid Hes Hsz Hls Hb] Hc Hms Hctx. destruct (Hb (<[ds := os.NDir]> t)) as (b & Hbatch & Hwait & Hans).
  destruct (Materialize_files environ ctxs r tree ds es blobs b (repo, t) ms) as (t' & ms' & Hm & Hf); try done.
  exists t', ms'. split; [done|]. split; [done|].
  by apply Materialize_inside in Hm as [_ ?].
Qed.

(** Membership in a list of names; a name of a new file that is not among those
    just written. *)
#[local] Ltac in_list := by apply (bool_decide_unpack _).
#[local] Ltac fresh_name :=
  rewrite !lookup_insert_ne by
    (let Heq := fresh in intros Heq%app_inv_head; discriminate Heq);
  match goal with Hnew : ∀ x, x ∈ _ → _ !! _ = None |- _ => apply Hnew; in_list end.

#[local] Ltac shop_dir :=
  match goal with
  | HR : osx.creatable _ ?R |- _ ++ _ ≠ [] => by destruct R
  | HR : osx.creatable _ ?R |- Forall _ (_ ++ _) =>
      apply Forall_app; split; [apply HR|by apply Forall_singleton]
  | _ => done
  end.

Lemma write_files_prepared bundled R id opts bp pp t raw :
  os.real_dir t R → R ≠ [] → Forall plain R → Forall os.slashless R →
  (∀ x, x ∈ ["docker-compose.yaml"; "otel.yaml"; "baseline.env"; "patch.env"; "manifest.json"] →
    t !! (R ++ [x]) = None) →
  is_Some (bundled "compose.yaml") → is_Some (bundled "otel.yaml") →
  env_Marshal (env_of id (os.abs_path R) opts bp pp) = Ok raw →
  ∃ t', write_files bundled (os.abs_path R) (env_of id (os.abs_path R) opts bp pp) t = (Ok tt, t') ∧
    ∀ q, (∀ x, q ≠ R ++ [x]) ∨ (∃ x, q = R ++ [x] ∧ (x = "baseline" ∨ x = "patch")) → t' !! q = t !! q.
Proof using All.
  intros Hd Hne Hp Hs Hnew [c1 Hc1] [c2 Hc2] Hraw. unfold write_files, writeEmbedded, writeEnvFile.
  rewrite Hc1, Hc2, Hraw. cbn [env_of side_of Env_ComposeFile S_EnvFile Env_Baseline Env_Patch S_GatewayPort].
  pose proof names_plain as Hn. rewrite Forall_forall in Hn.
  assert (∀ x u body, x ∈ ["docker-compose.yaml"; "otel.yaml"; "baseline.env"; "patch.env"; "manifest.json"] →
    os.real_dir u R → u !! (R ++ [x]) = None →
    writeFile u (os.path_Join (os.abs_path R) x) body = Ok (<[R ++ [x] := os.NFile body]> u) ∧
    os.real_dir (<[R ++ [x] := os.NFile body]> u) R) as Hw.
  { intros x u body Hx Hu Hun. destruct (Hn x) as [Hxp Hxs]; [by do 2 right|]. split; [by apply writeFile_new|].
    apply (os.within_alter R u _ (Some _)); [done|by apply inside_app|done]. }
  assert (∀ x y, x ≠ y → R ++ [x] ≠ R ++ [y]) as Hdiff by (intros x y Hxy [= ?]%app_inv_head; done).
  change ("baseline" +:+ ".env") with "baseline.env". change ("patch" +:+ ".env") with "patch.env".
  destruct (Hw "docker-compose.yaml" t c1) as [-> D1]; [in_list|done|apply Hnew; in_list|].
  destruct (Hw "otel.yaml" _ c2 ltac:(in_list) D1) as [-> D2]; [fresh_name|].
  destruct (Hw "baseline.env" _ (env_body "./baseline" bp) ltac:(in_list) D2) as [-> D3]; [fresh_name|].
  destruct (Hw "patch.env" _ (env_body "./patch" pp) ltac:(in_list) D3) as [-> D4]; [fresh_name|].
  destruct (Hw "manifest.json" _ (raw +:+ String nl "") ltac:(in_list) D4) as [-> _]; [fresh_name|].
  eexists. split; [done|]. intros q Hq.
  assert (∀ x, x ≠ "baseline" → x ≠ "patch" → R ++ [x] ≠ q) as Hother.
  { intros x Hb Hpa <-. destruct Hq as [Hq|(y & [= ->]%app_inv_head & [-> | ->])]; [by eapply Hq|done..]. }
  by rewrite !lookup_insert_ne by (by apply Hother).
Qed.

(** The files beside a tree do not change it. *)
Lemma filled_beside R x blobs es t t' ms :
  x = "baseline" ∨ x = "patch" →
  (∀ q, (∀ x, q ≠ R ++ [x]) ∨ (∃ x, q = R ++ [x] ∧ (x = "baseline" ∨ x = "patch")) → t' !! q = t !! q) →
  filled (R ++ [x]) blobs es t ms → filled (R ++ [x]) blobs es t' ms.
Proof.
  intros Hx Ht. apply filled_ext; [|done]. intros q Hq. apply Ht.
  destruct (decide (q = R ++ [x])) as [->|Hne]; [right; eauto|left]. intros y ->.
  destruct Hq as [[k Hk]|[Hq|Hq]%snoc_prefix]; [|done|].
  - rewrite <- app_assoc in Hk. apply app_inv_head in Hk. injection Hk as -> _. done.
  - apply prefix_length in Hq. rewrite length_app in Hq. simpl in Hq. lia.
Qed.

Lemma build_pair R t0 ms ctxs bundled opts id bp pp repo bes pes blobs raw :
  let env := env_of id (os.abs_path R) opts bp pp in
  osx.creatable t0 R → (∀ q, R `prefix_of` q → ms !! q = None) → (∀ n, ctxs n = None) →
  serves (O_Repo opts) repo (Rev_Tree (O_Baseline opts)) bes blobs → is_shop bes →
  serves (O_Repo opts) repo (Rev_Tree (O_Patch opts)) pes blobs → is_shop pes →
  is_Some (bundled "compose.yaml") → is_Some (bundled "otel.yaml") → env_Marshal env = Ok raw →
  ∃ t ms', build environ ctxs bundled opts env (repo, <[R := os.NDir]> t0) ms = (Ok env, (repo, t), ms') ∧
    filled (R ++ ["baseline"]) blobs bes t ms' ∧ filled (R ++ ["patch"]) blobs pes t ms'.
Proof using All.
  intros env HR Hms Hctx Hsb Hshb Hsp Hshp Hc1 Hc2 Hraw.
  pose proof names_plain as Hn. rewrite Forall_forall in Hn.
  destruct (Hn "baseline") as [Hbp Hbs]; [in_list|]. destruct (Hn "patch") as [Hpp Hps]; [in_list|].
  pose proof (growing_start R t0 ms HR Hms) as Hg0.
  assert (∀ x, ms !! (R ++ x) = None) as Hmx by (intros; apply Hms; by apply prefix_app_r).
  destruct (Materialize_serves ctxs _ repo (<[R := os.NDir]> t0) _ bes blobs (R ++ ["baseline"]) ms Hsb)
    as (t1 & ms1 & E1 & F1 & U1); [|by intros q Hq; apply Hms; eapply prefix_app_l|done|].
  { apply (growing_creatable R t0 ms HR Hms _ ms); eauto using child_none. }
  pose proof (growing_untouched R t0 ms HR Hms _ _ _ _ _ Hg0 U1) as Hg1.
  assert (osx.creatable t1 (R ++ ["patch"])) as Hc.
  { apply (growing_creatable R t0 ms HR Hms _ ms1); [done..|]. intros q Hq.
    rewrite (proj1 U1) by (by apply (apart R "patch")). by eapply child_none. }
  destruct (Materialize_serves ctxs _ repo t1 _ pes blobs (R ++ ["patch"]) ms1 Hsp)
    as (t2 & ms2 & E2 & F2 & U2); [done| |done|].
  { intros q Hq. rewrite (proj1 (proj2 U1)) by (by apply (apart R "patch")). apply Hms. by eapply prefix_app_l. }
  pose proof (growing_untouched R t0 ms HR Hms _ _ _ _ _ Hg1 U2) as Hg2.
  assert (filled (R ++ ["baseline"]) blobs bes t2 ms2) as F1'.
  { revert F1. apply filled_ext.
    - intros q Hq. apply U2. destruct Hq as [Hq|[->|Hq]%snoc_prefix]; [by apply (apart R "baseline")|..].
      + by apply (apart R "baseline").
      + intros Hl. apply prefix_length in Hq, Hl. rewrite length_app in Hl. simpl in Hl. lia.
    - intros q Hq. apply (proj1 (proj2 U2)). by apply (apart R "baseline"). }
  destruct (write_files_prepared bundled R id opts bp pp t2 raw) as (t3 & E3 & Hsame);
    [apply Hg2|apply HR|apply HR|apply HR| |done..|].
  { intros x Hx. assert (x ≠ "baseline" ∧ x ≠ "patch") as [Hxb Hxp].
    { split; intros ->; by repeat (apply elem_of_cons in Hx as [?|Hx]; [done|]); apply not_elem_of_nil in Hx. }
    rewrite (proj1 U2), (proj1 U1) by (by apply (apart R x)). by apply (child_none _ R x). }
  exists t3, ms2. split; [|split; eapply filled_beside; eauto]. unfold build.
  change (S_Dir (Env_Baseline env)) with (os.path_Join (os.abs_path R) "baseline").
  change (S_Dir (Env_Patch env)) with (os.path_Join (os.abs_path R) "patch").
  change (Env_Root env) with (os.abs_path R). rewrite !child_path by (apply HR || done). rewrite E1, E2. cbn [snd fst].
  rewrite (requireShop_filled _ _ _ _ _ F1'), (requireShop_filled _ _ _ _ _ F2) by shop_dir.
  cbn [rbind]. unfold env. by rewrite E3.
Qed.

(** C11: for a git that prints trees as documented, preparing a pair of shop
    revisions succeeds and gives a usable environment: the baseline directory holds
    exactly the files of the baseline tree and the patch directory exactly those of
    the patch tree, byte for byte; both sides use different loopback ports; and the
    environment passes the checks that starting and stopping it make. *)
Theorem Prepare_pair ctxs wd bundled opts ps w ms d bes pes blobs raw :
  let bp := if O_BasePort opts == 0%Z then defaultBase else O_BasePort opts in
  let pp := if O_PatchPort opts == 0%Z then defaultPatch else O_PatchPort opts in
  let R := ps ++ [pair_id opts] in
  let env := env_of (pair_id opts) (os.abs_path R) opts bp pp in
  O_Parent opts = os.abs_path ps → osx.creatable w.2 R → (∀ q, R `prefix_of` q → ms !! q = None) →
  checkPorts bp pp = Ok tt → (∀ n, ctxs n = None) →
  serves (O_Repo opts) w.1 (Rev_Tree (O_Baseline opts)) bes blobs → is_shop bes →
  serves (O_Repo opts) w.1 (Rev_Tree (O_Patch opts)) pes blobs → is_shop pes →
  is_Some (bundled "compose.yaml") → is_Some (bundled "otel.yaml") → env_Marshal env = Ok raw →
  ∃ t ms', Prepare environ None ctxs wd bundled opts w ms d = (Ok env, (w.1, t), ms', d) ∧
    filled (R ++ ["baseline"]) blobs bes t ms' ∧ filled (R ++ ["patch"]) blobs pes t ms' ∧
    checkEnv wd env = Ok tt ∧ S_GatewayPort (Env_Baseline env) ≠ S_GatewayPort (Env_Patch env).
Proof using All.
  intros bp pp R env Hparent HR Hms Hports Hctx Hsb Hshb Hsp Hshp Hc1 Hc2 Hraw.
  pose proof (osx.cr_plain _ _ HR) as [Hp _]%Forall_app. pose proof (osx.cr_slash _ _ HR) as [Hs _]%Forall_app.
  destruct (hex_id_plain _ (pair_id_hex opts)) as [Hip His].
  destruct (build_pair R w.2 ms ctxs bundled opts (pair_id opts) bp pp w.1 bes pes blobs raw)
    as (t & ms' & Hb & Hf1 & Hf2); [done..|].
  exists t, ms'. split; [|split; [done|split; [done|]]].
  - unfold Prepare. assert (∀ tree es, serves (O_Repo opts) w.1 tree es blobs → tree ≠ "") as Ht
      by (intros tree es Hsv ->; pose proof (sv_tree _ _ _ _ _ Hsv); done).
    rewrite !bool_decide_eq_false_2 by (by eapply Ht). cbn [orb].
    unfold os.Abs. rewrite Hparent, os.abs_path_nonempty, os.Clean_abs_path by done. cbv zeta.
    fold bp pp. rewrite Hports, child_path by done. fold R. destruct (new_root _ _ HR) as [Hstat Hmk].
    rewrite Hstat, bool_decide_eq_false_2 by (by intros []). cbn [andb]. by rewrite Hmk, Hb.
  - assert (1024 ≤ bp ∧ 1024 ≤ pp ∧ bp ≠ pp)%Z as (Hbp & Hpp & Hne).
    { revert Hports. unfold checkPorts. destruct (_ || _)%Z eqn:E; [done|]. case_bool_decide; [done|].
      intros _. go_inv. lia. }
    split; [|done]. unfold checkEnv.
    change (Env_ID env) with (pair_id opts). change (Env_Root env) with (os.abs_path R).
    rewrite pair_id_hex, bool_decide_eq_false_2 by (apply Hip). cbn [negb].
    rewrite bool_decide_eq_false_2 by done.
    unfold env. cbn [Env_Baseline Env_Patch env_of].
    fold (env_of (pair_id opts) (os.abs_path R) opts bp pp).
    rewrite !checkSide_prepared by (apply HR || (by left) || (by right) || lia). done.
Qed.
End pair.

(** ** Running pairs *)

(** What docker documents of [compose up] and [compose down]: they start and stop
    the project they name and no other. *)
Class DockerLaws `{GoDocker} := {
  running : Docker → gset string;
  docker_up dir file project compose d e d' :
    docker dir ["compose"; "--env-file"; file; "-p"; project; "-f"; compose; "up"; "-d"; "--build"] d = (e, d') →
    running d ⊆ running d' ∧ running d' ⊆ {[project]} ∪ running d ∧
    (e = None → project ∈ running d');
  docker_down dir file project compose d e d' :
    docker dir ["compose"; "--env-file"; file; "-p"; project; "-f"; compose;
                "down"; "--volumes"; "--remove-orphans"] d = (e, d') →
    running d' ⊆ running d ∧ running d ⊆ {[project]} ∪ running d' ∧
    (e = None → project ∉ running d');
}.

Definition projects (env : Env) : gset string :=
  {[S_Project (Env_Baseline env); S_Project (Env_Patch env)]}.

Section running.
  Context `{DockerLaws} (wd : option string) (files : os.tree).

Lemma dockerCompose_run dir args d res d' :
  dockerCompose files dir args d = (res, d') → (∃ e, res = Err e ∧ d' = d) ∨
    ∃ e, docker dir args d = (e, d') ∧ (res = Ok tt ↔ e = None).
Proof using All.
  unfold dockerCompose. destruct (negb docker_found); [intros [= <- <-]; eauto|].
  destruct (os.Stat files dir) as [[]|]; try (intros [= <- <-]; by eauto).
  destruct (docker dir args d) as [[e|] d1]; intros [= <- <-]; right; eexists; by split.
Qed.

Lemma composeArgs_ok env side extra args :
  composeArgs wd env side extra = Ok args →
  args = ["compose"; "--env-file"; S_EnvFile side; "-p"; S_Project side; "-f"; Env_ComposeFile env] ++ extra.
Proof using All. unfold composeArgs. by destruct (checkSide wd env side) as [[]|]; intros [= <-]. Qed.

Lemma down_sides_running env first sides d r d' :
  down_sides wd files env first sides d = (r, d') →
  running d' ⊆ running d ∧ running d ⊆ running d' ∪ list_to_set (S_Project <$> sides) ∧
  (r = None → first = None ∧ ∀ s, s ∈ sides → S_Project s ∉ running d').
Proof using All.
  revert first d. induction sides as [|side sides IH]; intros first d; simpl.
  { intros [= <- <-]. split; [done|]. split; [set_solver|]. intros ->. split; [done|].
    by intros s ?%not_elem_of_nil. }
  destruct (composeArgs _ _ _ _) as [args|e] eqn:Ea.
  - apply composeArgs_ok in Ea as ->. destruct (dockerCompose _ _ _ d) as [r1 d1] eqn:Ed.
    apply dockerCompose_run in Ed as Hd.
    assert (running d1 ⊆ running d ∧ running d ⊆ {[S_Project side]} ∪ running d1 ∧
      (r1 = Ok tt → S_Project side ∉ running d1)) as (D1 & D2 & D3).
    { destruct Hd as [(e & -> & ->)|(e & Hrun & Hiff)]; [by split_and!; set_solver|].
      apply docker_down in Hrun as (? & ? & Hn). split_and!; [done..|]. intros ->. by apply Hn, Hiff. }
    destruct r1 as [[]|e]; intros (I1 & I2 & I3)%IH; (split; [by etrans|]);
      (split; [clear - D2 I2; set_solver|]).
    + intros [-> Hs]%I3. split; [done|]. intros s [->|Hin]%elem_of_cons; [|by apply Hs].
      intros Hin. by apply D3, I1.
    + by intros [? _]%I3.
  - intros (I1 & I2 & I3)%IH. split; [done|]. split; [set_solver|]. by intros [? _]%I3.
Qed.

(** Stopping a pair touches its own two projects only, and when it reports no
    error neither of them runs. *)
Lemma Down_stops env d res d' :
  Down wd files env d = (res, d') →
  running d' ⊆ running d ∧ running d ⊆ running d' ∪ projects env ∧
  (res = Ok tt → running d' ## projects env).
Proof using All.
  unfold Down. destruct (checkEnv wd env) as [[]|e]; [|intros [= <- <-]; split_and!; [done|set_solver|done]].
  unfold downSides. destruct (down_sides _ _ _ _ _ d) as [r d1] eqn:E.
  apply down_sides_running in E as (D1 & D2 & D3). simpl in D2, D3.
  destruct r as [e|]; intros [= <- <-]; (split; [done|]); (split; [unfold projects; set_solver|]); [done|].
  intros _. destruct D3 as [_ D3]; [done|]. unfold projects. intros p Hp.
  intros [->%elem_of_singleton | ->%elem_of_singleton]%elem_of_union; revert Hp; apply D3; [right; left|left].
Qed.

Lemma waitHealthy_ok gateway rounds :
  waitHealthy gateway rounds = Some (Ok tt) → ∃ r, r ∈ rounds ∧ r_status r = Some 200%Z.
Proof.
  induction rounds as [|r rounds IH]; simpl; [done|].
  destruct (r_before r); [done|]. case_bool_decide as Hs.
  - intros _. exists r. split; [left|done].
  - destruct (r_after r); [done|]. intros (r' & Hr & Hst)%IH. exists r'. split; [by right|done].
Qed.

Lemma upSide_running rounds env side d res d' :
  upSide wd files rounds env side d = Some (res, d') →
  running d ⊆ running d' ∧ running d' ⊆ {[S_Project side]} ∪ running d ∧
  (res = Ok tt → S_Project side ∈ running d' ∧ ∃ r, r ∈ rounds (S_Gateway side) ∧ r_status r = Some 200%Z).
Proof using All.
  unfold upSide. destruct (composeArgs _ _ _ _) as [args|e] eqn:Ea; [|intros [= <- <-]; split_and!; [done|set_solver|done]].
  apply composeArgs_ok in Ea as ->. destruct (dockerCompose _ _ _ d) as [r1 d1] eqn:Ed.
  apply dockerCompose_run in Ed as Hd.
  assert (running d ⊆ running d1 ∧ running d1 ⊆ {[S_Project side]} ∪ running d ∧
    (r1 = Ok tt → S_Project side ∈ running d1)) as (D1 & D2 & D3).
  { destruct Hd as [(e & -> & ->)|(e & Hrun & Hiff)]; [by split_and!; set_solver|].
    apply docker_up in Hrun as (? & ? & Hn). split_and!; [done..|]. intros ->. by apply Hn, Hiff. }
  destruct r1 as [[]|e]; [|intros [= <- <-]; by split_and!].
  intros (r & Hw & [= <- <-])%bind_Some. split_and!; [done..|]. intros ->. split; [by apply D3|].
  by eapply waitHealthy_ok.
Qed.

(** A pair that is up runs both projects, and both gateways have answered; a pair
    that did not come up leaves nothing but possibly the side that failed. *)
Lemma Up_running ctx free rounds env d res d' :
  Up wd files ctx free rounds env d = Some (res, d') →
  running d' ⊆ running d ∪ projects env ∧
  (res = Ok tt → projects env ⊆ running d' ∧
    (∃ r, r ∈ rounds (S_Gateway (Env_Baseline env)) ∧ r_status r = Some 200%Z) ∧
    (∃ r, r ∈ rounds (S_Gateway (Env_Patch env)) ∧ r_status r = Some 200%Z)).
Proof using All.
  unfold Up. assert (∀ e, Some (Err e, d) = Some (res, d') → running d' ⊆ running d ∪ projects env ∧
    (res = Ok tt → False)) as Hfail by (intros e [= <- <-]; split; [set_solver|done]).
  destruct ctx; [intros ?%Hfail; naive_solver|]. destruct (checkEnv wd env); [|intros ?%Hfail; naive_solver].
  destruct (portsFree free env); [|intros ?%Hfail; naive_solver]. clear Hfail. unfold projects. simpl.
  destruct (upSide _ _ _ _ (Env_Baseline env) d) as [[r1 d1]|] eqn:E1; [|done]. simpl.
  apply upSide_running in E1 as (A1 & A2 & A3).
  destruct r1 as [[]|e]; [|intros [= <- <-]; split; [unfold downSides; simpl; set_solver|done]].
  destruct (A3 eq_refl) as [A4 A5]. clear A3.
  destruct (upSide _ _ _ _ (Env_Patch env) d1) as [[r2 d2]|] eqn:E2; [|done]. simpl.
  apply upSide_running in E2 as (B1 & B2 & B3).
  destruct r2 as [[]|e]; intros [= <- <-].
  - destruct (B3 eq_refl) as [B4 B5]. split; [clear - A2 B2; set_solver|]. intros _.
    split; [clear - A4 B1 B4; set_solver|done].
  - split; [|done]. unfold downSides. destruct (down_sides _ _ _ _ _ d2) as [r d3] eqn:E3.
    apply down_sides_running in E3 as (C1 & _ & _).
    assert (running d3 ⊆ running d ∪ {[S_Project (Env_Baseline env); S_Project (Env_Patch env)]}).
    { clear - C1 B2 A2. set_solver. }
    by destruct r.
Qed.
End running.

(** Preparing a pair stops at most projects: those of a pair it replaces. *)
Lemma Prepare_running `{DockerLaws} `{GitBatch} `{GoSHA} `{PairJSON} environ ctx ctxs wd bundled opts w ms d res w' ms' d' :
  Prepare environ ctx ctxs wd bundled opts w ms d = (res, w', ms', d') → running d' ⊆ running d.
Proof.
  unfold Prepare. destruct ctx; [by intros [= _ _ _ <-]|]. case_match; [by intros [= _ _ _ <-]|].
  destruct (os.Abs wd _); [|by intros [= _ _ _ <-]]. destruct (checkPorts _ _); [|by intros [= _ _ _ <-]].
  case_match; [by intros [= _ _ _ <-]|].
  match goal with |- context [let '(_, _) := ?x in _] => destruct x as [t d1] eqn:E end.
  assert (running d1 ⊆ running d) as Hd.
  { revert E. case_match; [|by intros [= _ <-]]. unfold replaceRoot. intros [= _ <-].
    destruct (loadManifest _ _) as [env|]; [|done]. destruct (Down wd _ env d) as [r d2] eqn:Ed.
    by apply Down_stops in Ed as [? _]. }
  destruct (os.MkdirAll t _) as [[] t2]; [|by intros [= _ _ _ <-]].
  destruct (build _ _ _ _ _ _ _) as [[[env|e] w2] ms2]; by intros [= _ _ _ <-].
Qed.

End pairs.
