(* ===== verification/Workload.v ===== *)
(** * Operator workloads: [replay/file.go] and [replay/headers.go]

    A workload file lists requests with bodies and headers. Header values may name
    environment variables. Decoding JSON is the class [WorkloadJSON]; the regular
    expression for references is the matcher [env_ref]. The entries of a JSON object
    are ranged over in an arbitrary order, so headers are a list here. *)

From S2P Require Import Prelude GoStrings GoText GoOS Net Ingest Replay.
Import replay.

Module workload.

Definition maxFileBytes : Z := Z.shiftl 64 10.
Definition maxBodyBytes : Z := Z.shiftl 8 10.
Definition ProvenanceFile : string := "workload_file".
Definition maxHeaders : nat := 16.
Definition maxHeaderValue : Z := 4096.

(** One step of the file: the raw JSON of its body and its headers. *)
Record fileStep := MkFileStep {
  Fs_Method : string;
  Fs_Path : string;
  Fs_Body : string;
  Fs_Headers : list (string * string);
}.

End workload.

Class WorkloadJSON := {
  doc_Unmarshal : string → result string (list workload.fileStep);
  string_Unmarshal : string → result string string;
  json_Compact : string → result string string;
  (** Compacting elides white space. *)
  json_Compact_len s t : json_Compact s = Ok t → (len t ≤ len s)%Z;
}.

Module workloads.
Import workload.

(** ** The standard library: canonical header names *)

Definition is_lower (a : ascii) : bool := in_range 97 122 a.
Definition is_upper (a : ascii) : bool := in_range 65 90 a.

(** A byte of an HTTP token. *)
Definition token_byte (a : ascii) : bool :=
  is_digit a || is_lower a || is_upper a || bool_decide (a ∈ bytes "!#$%&'*+-.^_`|~").

Fixpoint canon_bytes (upper : bool) (s : string) : string :=
  match s with
  | "" => ""
  | String c s =>
      let c := if upper && is_lower c then upper_byte c
               else if negb upper && is_upper c then lower_byte c else c in
      String c (canon_bytes (c == byte 45) s)
  end.

Definition CanonicalHeaderKey (s : string) : string :=
  if forallb token_byte (bytes s) then canon_bytes true s else s.

(** ** headers.go *)

Definition forbiddenHeaders : list string :=
  ["Host"; "Content-Length"; "Transfer-Encoding"; "Connection"; "Upgrade"; "Te"; "Trailer"; "Keep-Alive"].

Definition name_start (a : ascii) : bool := is_lower a || is_upper a || (a == byte 95).
Definition name_byte (a : ascii) : bool := name_start a || is_digit a.

(** The longest prefix of bytes with a property. *)
Fixpoint span_while (f : ascii → bool) (s : string) : string * string :=
  match s with
  | "" => ("", "")
  | String a s' => if f a then let '(l, r) := span_while f s' in (String a l, r) else ("", s)
  end.

(** A reference [${NAME}] at the start of the string: the name and what follows. *)
Definition env_ref (s : string) : option (string * string) :=
  match s with
  | String d (String b rest) =>
      if (d == byte 36) && (b == byte 123) then
        let '(nm, rest) := span_while name_byte rest in
        match nm, rest with
        | String a _, String c rest => if name_start a && (c == byte 125) then Some (nm, rest) else None
        | _, _ => None
        end
      else None
  | _ => None
  end.

(** Replaces the references from left to right. The second component is the first
    name that is not set, or empty. *)
Fixpoint expand (fuel : nat) (env : string → option string) (unset s : string) : string * string :=
  match fuel, s with
  | O, _ => ("", unset)
  | S _, "" => ("", unset)
  | S fuel, String a s' =>
      match env_ref s with
      | Some (nm, rest) =>
          let unset := if negb (bool_decide (is_Some (env nm))) && (unset == "") then nm else unset in
          let '(out, unset) := expand fuel env unset rest in
          (default "" (env nm) +:+ out, unset)
      | None => let '(out, unset) := expand fuel env unset s' in (String a out, unset)
      end
  end.
Definition expand_value (env : string → option string) (s : string) : string * string :=
  expand (S (String.length s)) env "" s.

Definition header_entry (env : string → option string) (name value : string)
    : result string (string * string) :=
  let key := CanonicalHeaderKey (TrimSpace name) in
  if (key == "") || ContainsAny key (" " +:+ of_bytes [tab; byte 13; nl] +:+ ":") then
    Err ("invalid header name " +:+ quote name)
  else if bool_decide (key ∈ forbiddenHeaders) || HasPrefix key "Proxy-" then
    Err ("header " +:+ key +:+ " is not allowed")
  else
    let '(value, unset) := expand_value env (TrimSpace value) in
    if unset != "" then Err ("header " +:+ key +:+ " references unset $" +:+ unset)
    else if (maxHeaderValue <? len value)%Z then
      Err ("header " +:+ key +:+ " exceeds " +:+ Itoa maxHeaderValue +:+ " bytes")
    else if ContainsAny value (of_bytes [byte 13; nl; byte 0]) then
      Err ("header " +:+ key +:+ " contains a control character")
    else Ok (key, value).

(** [raw] lists the entries in the order they are ranged over. *)
Fixpoint header_entries (env : string → option string) (raw : list (string * string))
    (out : gmap string (list string)) : result string (gmap string (list string)) :=
  match raw with
  | [] => Ok out
  | (name, value) :: raw =>
      let? kv := header_entry env name value in header_entries env raw (<[kv.1 := [kv.2]]> out)
  end.

Definition fileHeaders (env : string → option string) (raw : list (string * string))
    : result string (gmap string (list string)) :=
  if (length raw =? 0)%nat then Ok ∅
  else if (maxHeaders <? length raw)%nat then
    Err ("more than " +:+ Itoa (Z.of_nat maxHeaders) +:+ " headers")
  else header_entries env raw ∅.

(** ** file.go *)

Section file.
  Context `{WorkloadJSON}.

Definition decodeBody (raw : string) : result string string :=
  let trim := TrimSpace raw in
  let cap := Err ("body exceeds " +:+ Itoa maxBodyBytes +:+ " bytes") in
  if (trim == "") || (trim == "null") then Ok ""
  else if HasPrefix trim (String (byte 34) "") then
    let? s := string_Unmarshal trim in
    if (maxBodyBytes <? len s)%Z then cap else Ok s
  else if (maxBodyBytes <? len trim)%Z then cap
  else json_Compact trim.

Definition file_step (env : string → option string) (i : nat) (st : fileStep) : result string Step :=
  let method := ToUpper (TrimSpace (Fs_Method st)) in
  let p := TrimSpace (Fs_Path st) in
  let at_step e := "replay: workload step " +:+ Itoa (Z.of_nat i) +:+ ": " +:+ e in
  if negb (safeFileStep method p) then
    Err ("replay: workload step " +:+ Itoa (Z.of_nat i) +:+ " is not replayable")
  else
    match decodeBody (Fs_Body st) with
    | Err e => Err (at_step e)
    | Ok body =>
        match fileHeaders env (Fs_Headers st) with
        | Err e => Err (at_step e)
        | Ok hdr => Ok (MkStep method p body (map_to_list hdr) ProvenanceFile "")
        end
    end.

Fixpoint file_steps (env : string → option string) (i : nat) (sts : list fileStep) : result string (list Step) :=
  match sts with
  | [] => Ok []
  | st :: sts =>
      let? s := file_step env i st in
      let? rest := file_steps env (S i) sts in
      Ok (s :: rest)
  end.

(** [cwd] is the working directory. *)
Definition ReadFile (env : string → option string) (cwd : string) (t : os.tree) (path : string)
    : result string Workload :=
  if TrimSpace path == "" then Err "replay: workload file path is empty"
  else if Contains path "://" then Err "replay: workload file must be a local path"
  else match os.ReadFile t (os.from_dir cwd path) with
  | None => Err "replay: read workload"
  | Some raw =>
      if (maxFileBytes <? len raw)%Z then
        Err ("replay: workload file exceeds " +:+ Itoa maxFileBytes +:+ " bytes")
      else match doc_Unmarshal raw with
      | Err e => Err ("replay: parse workload: " +:+ e)
      | Ok sts =>
          if (length sts =? 0)%nat then Err "replay: workload file has no steps"
          else if (maxSteps <? length sts)%nat then
            Err ("replay: workload file exceeds " +:+ Itoa (Z.of_nat maxSteps) +:+ " steps")
          else let? steps := file_steps env 0 sts in Ok (MkWorkload steps)
      end
  end.
End file.

(** workload.go *)
Definition checkoutBody : string :=
  String (byte 123) (quote "user_id" +:+ ":" +:+ quote "user-1" +:+ "," +:+ quote "items" +:+ ":[{" +:+
    quote "sku" +:+ ":" +:+ quote "sku-widget" +:+ "," +:+ quote "qty" +:+ ":1}]}").
Definition ShopFixture : Workload :=
  MkWorkload
    [MkStep "GET" "/healthz" "" [] ProvenanceShopFixture "";
     MkStep "GET" "/users/user-1" "" [] ProvenanceShopFixture "";
     MkStep "POST" "/checkout" checkoutBody [] ProvenanceShopFixture ""].

(** ** Expansion *)

Lemma span_while_app f s : (span_while f s).1 +:+ (span_while f s).2 = s.
Proof.
  induction s as [|a s IH]; [done|]. simpl. destruct (f a); [|done].
  destruct (span_while f s) as [l r]. simpl in *. by rewrite app_cons_str, IH.
Qed.

Lemma env_ref_shorter s nm rest : env_ref s = Some (nm, rest) → (String.length rest < String.length s)%nat.
Proof.
  unfold env_ref. destruct s as [|d [|b s]]; try done. case_match; [|done].
  pose proof (span_while_app name_byte s) as Hs. destruct (span_while name_byte s) as [n r]. simpl in Hs.
  destruct n as [|a n]; [done|]. destruct r as [|c r]; [done|]. case_match; [|done]. intros [= <- <-].
  rewrite <- Hs. simpl. rewrite length_str_app. simpl. lia.
Qed.

(** The fuel does not matter once it exceeds the length. *)
Lemma expand_fuel fuel1 fuel2 env unset s :
  (String.length s < fuel1)%nat → (String.length s < fuel2)%nat →
  expand fuel1 env unset s = expand fuel2 env unset s.
Proof.
  revert fuel2 unset s. induction fuel1 as [|f1 IH]; intros [|f2] unset s H1 H2; try lia.
  destruct s as [|a s]; [done|]. cbn [expand]. destruct (env_ref (String a s)) as [[nm rest]|] eqn:E.
  - apply env_ref_shorter in E. rewrite (IH f2); [done|lia..].
  - simpl in H1, H2. rewrite (IH f2); [done|lia..].
Qed.

(** ** Header names in any letter case *)

Lemma bytes_str_map f s : bytes (str_map f s) = f <$> bytes s.
Proof. induction s as [|a s IH]; [done|]. simpl. by f_equal. Qed.

Lemma canon_byte c u :
  let c' := if u && is_lower c then upper_byte c else if negb u && is_upper c then lower_byte c else c in
  let l := lower_byte c in
  (if u && is_lower l then upper_byte l else if negb u && is_upper l then lower_byte l else l) = c' ∧
  lower_byte c' = lower_byte c ∧ token_byte (lower_byte c) = token_byte c.
Proof. destruct c as [[] [] [] [] [] [] [] []], u; vm_compute; done. Qed.

Lemma canon_lower u s : canon_bytes u (ToLower s) = canon_bytes u s.
Proof.
  unfold ToLower. revert u. induction s as [|c s IH]; intros u; [done|]. simpl.
  destruct (canon_byte c u) as (-> & _ & _). by f_equal.
Qed.
Lemma lower_canon u s : ToLower (canon_bytes u s) = ToLower s.
Proof.
  unfold ToLower. revert u. induction s as [|c s IH]; intros u; [done|]. simpl.
  destruct (canon_byte c u) as (_ & -> & _). by f_equal.
Qed.
Lemma token_lower s : forallb token_byte (bytes (ToLower s)) = forallb token_byte (bytes s).
Proof.
  unfold ToLower. induction s as [|c s IH]; [done|]. simpl.
  destruct (canon_byte c true) as (_ & _ & ->). by f_equal.
Qed.

(** Names that mean the same header have the same canonical name. *)
Lemma CanonicalHeaderKey_fold s f :
  forallb token_byte (bytes f) = true → ToLower (CanonicalHeaderKey s) = ToLower f →
  CanonicalHeaderKey s = CanonicalHeaderKey f.
Proof.
  intros Hf Hl. unfold CanonicalHeaderKey in *. rewrite Hf.
  destruct (forallb token_byte (bytes s)) eqn:Hs.
  - rewrite lower_canon in Hl. by rewrite <- canon_lower, Hl, canon_lower.
  - rewrite <- token_lower, Hl, token_lower, Hf in Hs. done.
Qed.

(** ** What headers a workload can send *)

(** A header that cannot change the framing or the target of a request: its name is
    none of the reserved ones in any letter case, its single value has no line break. *)
Record safe_header (h : string * list string) : Prop := {
  sh_name : h.1 ≠ "" ∧ ContainsAny h.1 (" " +:+ of_bytes [tab; byte 13; nl] +:+ ":") = false;
  sh_reserved f : f ∈ forbiddenHeaders → ToLower h.1 ≠ ToLower f;
  sh_value : ∃ v, h.2 = [v] ∧ (len v ≤ maxHeaderValue)%Z ∧
    ContainsAny v (of_bytes [byte 13; nl; byte 0]) = false;
}.

Lemma header_entry_safe env name value k v :
  header_entry env name value = Ok (k, v) → safe_header (k, [v]).
Proof.
  unfold header_entry. set (key := CanonicalHeaderKey (TrimSpace name)).
  case_match eqn:E1; [done|]. case_match eqn:E2; [done|]. destruct (expand_value _ _) as [v' unset].
  destruct (unset != ""); [done|]. case_match eqn:E3; [done|]. case_match eqn:E4; [done|].
  intros [= <- <-]. go_inv. split; cbn [fst snd]; [done| |eauto with lia]. intros f Hf Hl.
  assert (forallb token_byte (bytes f) = true ∧ CanonicalHeaderKey f = f) as [Ht Hc].
  { unfold forbiddenHeaders in Hf. repeat (apply elem_of_cons in Hf as [->|Hf]; [done|]).
    by apply not_elem_of_nil in Hf. }
  apply CanonicalHeaderKey_fold in Hl; [|done]. rewrite Hc in Hl. subst f. done.
Qed.

Lemma header_entries_safe env raw out h :
  header_entries env raw out = Ok h → (∀ k vs, out !! k = Some vs → safe_header (k, vs)) →
  (size h ≤ size out + length raw)%nat ∧ ∀ k vs, h !! k = Some vs → safe_header (k, vs).
Proof.
  revert out. induction raw as [|[name value] raw IH]; intros out; simpl.
  { intros [= <-] Hout. split; [lia|done]. }
  destruct (header_entry env name value) as [[k v]|] eqn:E; [|done]. simpl. intros Hr Hout.
  apply header_entry_safe in E. apply IH in Hr as [Hs Hh].
  - split; [|done]. assert (size (<[k := [v]]> out) ≤ S (size out))%nat; [|lia].
    destruct (out !! k) eqn:Ek; [rewrite map_size_insert_Some by eauto|rewrite map_size_insert_None by done]; lia.
  - intros k' vs. rewrite lookup_insert_Some. naive_solver.
Qed.

Lemma fileHeaders_safe env raw h :
  fileHeaders env raw = Ok h → (size h ≤ maxHeaders)%nat ∧ ∀ k vs, h !! k = Some vs → safe_header (k, vs).
Proof.
  unfold fileHeaders. destruct (Nat.eqb_spec (length raw) 0); [intros [= <-]|].
  { rewrite map_size_empty. split; [lia|]. intros k vs. by rewrite lookup_empty. }
  destruct (Nat.ltb_spec maxHeaders (length raw)); [done|].
  intros [Hs Hh]%header_entries_safe; [|intros k vs; by rewrite lookup_empty].
  rewrite map_size_empty in Hs. split; [lia|done].
Qed.

(** ** What a workload file can send *)

Record safe_step (s : Step) : Prop := {
  ss_method : isHTTPMethod (Step_Method s) = true;
  ss_path : safePath (Step_Path s) = true;
  ss_body : (len (Step_Body s) ≤ maxBodyBytes)%Z;
  ss_headers : (length (Step_Headers s) ≤ maxHeaders)%nat ∧ Forall safe_header (Step_Headers s);
  ss_provenance : Step_Provenance s = ProvenanceFile;
}.

Section file_props.
  Context `{WorkloadJSON}.

Lemma decodeBody_len raw body : decodeBody raw = Ok body → (len body ≤ maxBodyBytes)%Z.
Proof.
  unfold decodeBody. cbv zeta. destruct (_ || _); [by intros [= <-]|]. case_match.
  - destruct (string_Unmarshal _) as [s|]; [|done]. simpl.
    destruct (Z.ltb_spec maxBodyBytes (len s)); [done|]. by intros [= <-].
  - destruct (Z.ltb_spec maxBodyBytes (len (TrimSpace raw))); [done|].
    intros Hl%json_Compact_len. lia.
Qed.

Lemma file_step_safe env i st s : file_step env i st = Ok s → safe_step s.
Proof.
  unfold file_step. destruct (negb _) eqn:Es; [done|].
  destruct (decodeBody _) as [body|] eqn:Eb; [|done]. destruct (fileHeaders _ _) as [hdr|] eqn:Eh; [|done].
  intros [= <-]. unfold safeFileStep in Es. go_inv. apply decodeBody_len in Eb. apply fileHeaders_safe in Eh as [Hs Hh].
  split; try done. cbn [Step_Headers]. split; [by rewrite length_map_to_list|].
  apply Forall_forall. intros [k vs] Hin%elem_of_map_to_list. by apply Hh.
Qed.

(** C33: a workload file can only make requests that are safe to replay: at most
    twenty, each with an HTTP method, a concrete path on the target, a bounded body,
    and at most sixteen headers; no header is, in any letter case, one that frames
    or routes a request, and no value (also one taken from the environment) holds a
    line break. *)
Theorem ReadFile_safe env cwd t path w :
  ReadFile env cwd t path = Ok w →
  (0 < length (Workload_Steps w) ≤ maxSteps)%nat ∧ Forall safe_step (Workload_Steps w).
Proof.
  unfold ReadFile. case_bool_decide; [done|]. destruct (Contains path _); [done|].
  destruct (os.ReadFile t _) as [raw|]; [|done]. destruct (_ <? _)%Z; [done|].
  destruct (doc_Unmarshal raw) as [sts|]; [|done]. destruct (Nat.eqb_spec (length sts) 0); [done|].
  destruct (Nat.ltb_spec maxSteps (length sts)); [done|].
  destruct (file_steps env 0 sts) as [steps|] eqn:E; [|done]. intros [= <-]. cbn [Workload_Steps].
  assert (length steps = length sts ∧ Forall safe_step steps) as [Hl Hf]; [|split; [lia|done]].
  revert E. generalize 0%nat as i. clear. revert steps.
  induction sts as [|st sts IH]; intros steps i; simpl; [by intros [= <-]|].
  destruct (file_step env i st) as [s|] eqn:Es; [|done]. simpl.
  destruct (file_steps env (S i) sts) as [rest|] eqn:Er; [|done]. intros [= <-].
  apply IH in Er as [Hl Hf]. apply file_step_safe in Es. split; [simpl; lia|by constructor].
Qed.
End file_props.

(** ** The order of the headers *)

Definition canonical_name (e : string * string) : string := CanonicalHeaderKey (TrimSpace e.1).

Lemma header_entry_key env name value k v :
  header_entry env name value = Ok (k, v) → k = canonical_name (name, value).
Proof.
  unfold header_entry. destruct (_ || _); [done|]. destruct (_ || _); [done|].
  destruct (expand_value _ _) as [v' unset]. repeat (case_match; [done|]). by intros [= <- _].
Qed.

Lemma header_entries_fold env raw out h :
  header_entries env raw out = Ok h ↔
  ∃ kvs, Forall2 (λ e kv, header_entry env e.1 e.2 = Ok kv) raw kvs ∧
    h = foldl (λ m kv, <[kv.1 := [kv.2]]> m) out kvs.
Proof.
  revert out. induction raw as [|[name value] raw IH]; intros out; simpl.
  { split; [intros [= <-]; by exists []|]. intros (kvs & Hk & ->). by inversion Hk. }
  destruct (header_entry env name value) as [kv|e] eqn:E; simpl.
  - rewrite IH. split.
    + intros (kvs & Hk & ->). exists (kv :: kvs). split; [by constructor|done].
    + intros (kvs & Hk & ->). inversion Hk as [|? kv' ? kvs' Hkv Hrest]; subst. simpl in Hkv.
      exists kvs'. rewrite E in Hkv. injection Hkv as <-. done.
  - split; [done|]. intros (kvs & Hk & _). inversion Hk as [|? kv' ? kvs' Hkv]; subst. simpl in Hkv.
    by rewrite E in Hkv.
Qed.

(** Ranging over the headers in another order gives the same headers when no two
    of them have the same canonical name. *)
Lemma fileHeaders_order env raw raw' h :
  Permutation raw raw' → NoDup (canonical_name <$> raw) →
  fileHeaders env raw = Ok h → fileHeaders env raw' = Ok h.
Proof.
  intros Hp Hnd. unfold fileHeaders. rewrite <- (Permutation_length Hp).
  case_match; [done|]. case_match; [done|]. rewrite !header_entries_fold. intros (kvs & Hk & ->).
  destruct (Permutation_Forall2 Hp Hk) as (kvs' & Hp' & Hk').
  exists kvs'. split; [done|].
  assert (NoDup kvs.*1) as Hnd'.
  { replace kvs.*1 with (canonical_name <$> raw); [done|]. clear -Hk.
    induction Hk as [|[n v] [k x] raw kvs Hkv _ IH]; [done|]. simpl. f_equal; [|done].
    by apply header_entry_key in Hkv. }
  clear -Hp' Hnd'. revert Hnd'. generalize (∅ : gmap string (list string)) as m.
  induction Hp' as [|kv l l' _ IH|kv kv' l|l1 l2 l3 H1 IH1 H2 IH2]; intros m Hnd; simpl.
  - done.
  - apply NoDup_cons in Hnd as [_ Hnd]. by apply IH.
  - inversion Hnd as [|?? Hn1 Hn2]; subst. f_equal. rewrite insert_insert_ne; [done|].
    intros Heq. apply Hn1. simpl. rewrite Heq. left.
  - rewrite IH1 by done. apply IH2. by rewrite <- H1.
Qed.

End workloads.
