(* ===== verification/WorkloadExamples.v ===== *)
(** * A workload file

    A decoder that knows one document, on which the theorem on workload files applies,
    and the header whose value depends on the order of a map. *)

From S2P Require Import Prelude GoStrings GoText GoOS Net Ingest Replay Workload.
Import replay workload workloads.

Definition toy_step : fileStep :=
  MkFileStep " get " "/users/user-1" "" [("authorization", "Bearer ${TOKEN}")].

#[local] Instance toy_workload_json : WorkloadJSON.
Proof.
  refine {| doc_Unmarshal := λ _, Ok [toy_step]; string_Unmarshal := Ok; json_Compact := Ok |}.
  by intros s t [= ->].
Defined.

Definition toy_env (name : string) : option string := if name == "TOKEN" then Some "s3cret" else None.
Definition toy_files : os.tree := {[ ["w.json"] := os.NFile "{}" ]}.

Lemma ReadFile_safe_witness :
  ∃ w, ReadFile toy_env "/" toy_files "w.json" = Ok w ∧
    Workload_Steps w =
      [MkStep "GET" "/users/user-1" "" [("Authorization", ["Bearer s3cret"])] ProvenanceFile ""] ∧
    Forall safe_step (Workload_Steps w).
Proof.
  eexists. split; [vm_compute; reflexivity|]. split; [reflexivity|].
  eapply (ReadFile_safe toy_env "/" toy_files "w.json"). vm_compute. reflexivity.
Defined.

(** Two spellings of one header name: the entry that is ranged over last wins. *)
Lemma header_spellings_race :
  ∃ raw raw' h h', Permutation raw raw' ∧ NoDup raw.*1 ∧
    fileHeaders toy_env raw = Ok h ∧ fileHeaders toy_env raw' = Ok h' ∧ h ≠ h'.
Proof.
  exists [("X-Key", "a"); ("x-key", "b")], [("x-key", "b"); ("X-Key", "a")].
  eexists _, _. split; [apply Permutation_swap|]. split; [by apply (bool_decide_unpack _)|].
  split; [vm_compute; reflexivity|]. split; [vm_compute; reflexivity|]. done.
Qed.

(** Reserved names are refused in every letter case, also when a variable is unset. *)
Example host_refused : fileHeaders toy_env [("hOST", "evil")] = Err "header Host is not allowed".
Proof. vm_compute. reflexivity. Qed.
Example unset_refused :
  fileHeaders toy_env [("X-A", "a ${NOPE} ${TOKEN}")] = Err "header X-A references unset $NOPE".
Proof. vm_compute. reflexivity. Qed.
