(* ===== verification/Cli.v ===== *)
(** * The command line: its world, and what its commands share

    [internal/cli]: client.go, diffread.go, revision.go, local.go, and the workload
    of replay.go. A command changes a [Sys]: the repository and the files, the
    modes of materialized files, docker, the control plane it talks to, and what it
    has written. The process's surroundings that only answer are a [Host]: answers
    may depend on the state they are asked in, so that a context can be canceled or
    a clock go on at any point. Computations may fail, and have no result when a
    gateway is polled forever. *)

From S2P Require Import Prelude GoStrings GoText Flags GoOS Diff Net Ingest Otlp Spans Source Graph Locate Replay Impact Analyze Plan Validate Evidence GitRev Snapshot Materialize Pair Workload.
Import ingest materialize gitrun.

(** ** The HTTP client *)

Record HReq := MkHReq {
  Q_Method : string;
  Q_URL : string;
  Q_Header : list (string * string);
  Q_Body : string;
}.

(** The request cannot be built, the exchange fails, or there is an answer. *)
Inductive HAns :=
| HInvalid (err : string)
| HFailed (err : string)
| HAnswer (status : Z) (body : string).

(** The servers that the client talks to. *)
Class GoHTTP := {
  Servers : Type;
  http_Do : HReq → Servers → HAns * Servers;
}.

Record storedRun := MkStoredRun {
  Sr_AttestedBy : string;
  Sr_ID : string;
  Sr_Overall : string;
  Sr_Blockers : list validate.Blocker;
  Sr_Validated : bool;
  Sr_ArtifactDigest : string;
  Sr_BaselineSHA : string;
  Sr_Dirty : bool;
  Sr_Service : string;
  Sr_Artifact : evidence.Artifact;
}.

(** Decoding the JSON of the answers. *)
Class CliJSON := {
  spans_of_json : string → result string (list Span);
  report_of_json : string → result string impact.Report;
  run_of_json : string → result string storedRun;
  runs_of_json : string → result string (list storedRun);
  version_of_json : string → result string string;
}.

Module cli.
Import gitrev.

(** An error: its text, and the status if it comes from a response. *)
Record Error := MkError { err_text : string; err_status : option Z }.
Definition Errorf (text : string) : Error := MkError text None.
Definition wrap (prefix : string) (e : Error) : Error := MkError (prefix +:+ err_text e) (err_status e).

Definition unavailable (e : Error) : bool := err_status e == Some 503%Z.

Section sys.
  Context `{GoGit} `{GoDocker} `{GoHTTP}.

Record Sys := MkSys {
  s_world : World;
  s_modes : modes;
  s_docker : Docker;
  s_servers : Servers;
  s_out : string;
  s_err : string;
}.

Definition set_world (w : World) (s : Sys) : Sys :=
  MkSys w (s_modes s) (s_docker s) (s_servers s) (s_out s) (s_err s).
Definition set_servers (v : Servers) (s : Sys) : Sys :=
  MkSys (s_world s) (s_modes s) (s_docker s) v (s_out s) (s_err s).
Definition set_docker (d : Docker) (s : Sys) : Sys :=
  MkSys (s_world s) (s_modes s) d (s_servers s) (s_out s) (s_err s).
Definition set_pair (w : World) (ms : modes) (d : Docker) (s : Sys) : Sys :=
  MkSys w ms d (s_servers s) (s_out s) (s_err s).
Definition add_out (text : string) (s : Sys) : Sys :=
  MkSys (s_world s) (s_modes s) (s_docker s) (s_servers s) (s_out s +:+ text) (s_err s).
Definition add_err (text : string) (s : Sys) : Sys :=
  MkSys (s_world s) (s_modes s) (s_docker s) (s_servers s) (s_out s) (s_err s +:+ text).

Definition s_files (s : Sys) : os.tree := (s_world s).2.

(** ** Computations *)

Definition CM (A : Type) : Type := Sys → option (result Error A * Sys).

Definition cret {A} (a : A) : CM A := λ s, Some (Ok a, s).
Definition cfail {A} (e : Error) : CM A := λ s, Some (Err e, s).
Definition cbind {A B} (m : CM A) (k : A → CM B) : CM B := λ s,
  r ← m s;
  match r with
  | (Ok a, s) => k a s
  | (Err e, s) => Some (Err e, s)
  end.
(** The continuation also gets an error. *)
Definition ctry {A B} (m : CM A) (k : result Error A → CM B) : CM B := λ s,
  r ← m s; let '(res, s) := r in k res s.
(** Adds a prefix to the error. *)
Definition cwrap {A} (prefix : string) (m : CM A) : CM A := λ s,
  r ← m s;
  match r with
  | (Ok a, s) => Some (Ok a, s)
  | (Err e, s) => Some (Err (wrap prefix e), s)
  end.
Definition clift {A} (r : result string A) : CM A := λ s,
  Some (match r with Ok a => Ok a | Err e => Err (Errorf e) end, s).
Definition cget {A} (f : Sys → A) : CM A := λ s, Some (Ok (f s), s).

Definition writef (text : string) : CM () := λ s, Some (Ok tt, add_out text s).
Definition writeErr (text : string) : CM () := λ s, Some (Ok tt, add_err text s).

(** Git commands; the error keeps its kind. *)
Definition cgit {A} (m : GM A) : CM (result gitrun.Error A) := λ s,
  let '(res, w) := m (s_world s) in Some (Ok res, set_world w s).
Definition crun {A} (m : GM A) : CM A := λ s,
  let '(res, w) := m (s_world s) in
  Some (match res with Ok a => Ok a | Err e => Err (Errorf (error_text e)) end, set_world w s).

Definition cdo (req : HReq) : CM HAns := λ s,
  let '(a, v) := http_Do req (s_servers s) in Some (Ok a, set_servers v s).

(** ** The surroundings *)

(** Standard input. *)
Record Stdin := MkStdin { in_terminal : bool; in_reader : evidence.Reader }.
Definition emptyStdin : Stdin := MkStdin false (evidence.MkReader "" None).

Record Host := MkHost {
  (** the working directory and the environment *)
  h_cwd : list string;
  h_environ : list string;
  h_stdin : Stdin;
  (** [source.Load], and the directory listings of [plan.WithTests] *)
  h_Load : os.tree → string → option source.Graph;
  h_ReadDir : os.tree → string → string → option (list (string * bool));
  h_bundled : string → option string;
  h_dir_size : Z;
  h_version : string;
  (** the context's error, and its error before each entry of [Materialize] *)
  h_ctx : Sys → option string;
  h_ctxs : Sys → nat → option string;
  (** the name of the next temporary directory *)
  h_tmp : Sys → string;
  h_now : Sys → Z;
  (** the text of the time since a state *)
  h_since : Sys → Sys → string;
  (** whether a port is free, and how a gateway answers while it is polled *)
  h_free : Sys → string → bool;
  h_rounds : Sys → string → list pairs.Round;
  (** gateways, tests and faults during an experiment *)
  h_plan : Sys → plan.World;
}.

End sys.

Notation "'let#' x ':=' m 'in' k" := (cbind m (λ x, k))
  (at level 10, x binder, m at level 100, k at level 200,
   format "'[v' 'let#'  x  ':='  m  'in' '/' k ']'") : go_scope.
Notation "'do#' m 'in' k" := (cbind m (λ _, k))
  (at level 10, m at level 100, k at level 200, format "'[v' 'do#'  m  'in' '/' k ']'") : go_scope.

(** [os.LookupEnv]: of several entries with one name the first counts. *)
Fixpoint LookupEnv (environ : list string) (name : string) : option string :=
  match environ with
  | [] => None
  | v :: environ =>
      match SplitN2 v (byte 61) with
      | Some (k, x) => if k == name then Some x else LookupEnv environ name
      | None => LookupEnv environ name
      end
  end.
Definition Getenv (environ : list string) (name : string) : string := default "" (LookupEnv environ name).

(** ** client.go *)

Definition defaultAPI : string := "http://127.0.0.1:8080".
Definition maxErrorBody : nat := 512.
Definition maxTraces : Z := 200.
Definition defaultTraces : Z := 20.

Definition envAPI (environ : list string) : string :=
  let v := TrimSpace (Getenv environ "AQUILA_API_URL") in if v != "" then v else defaultAPI.
Definition envToken (environ : list string) : string := TrimSpace (Getenv environ "AQUILA_API_TOKEN").

Definition clipTraces (n : Z) : Z :=
  if (n <=? 0)%Z then defaultTraces else if (maxTraces <? n)%Z then maxTraces else n.

(** The client is the base of its URLs. *)
Definition newClient `{GoNet} (raw : string) : result string string :=
  let raw := TrimSpace raw in
  let raw := if raw == "" then defaultAPI else raw in
  match url_Parse raw with
  | Err e => Err ("cli: api url: " +:+ e)
  | Ok u =>
      if (URL_Scheme u != "http") && (URL_Scheme u != "https") then Err "cli: api url must be http or https"
      else if URL_Host u == "" then Err "cli: api url missing host"
      else Ok (TrimRight raw "/")
  end.

Definition status_error (method path : string) (status : Z) (body : string) : Error :=
  MkError ("cli: " +:+ method +:+ " " +:+ path +:+ ": status " +:+ Itoa status +:+
           (if body != "" then ": " +:+ body else "")) (Some status).

(** [url.QueryEscape] *)
Definition query_byte (a : ascii) : string :=
  if is_digit a || in_range 97 122 (lower_byte a) || bool_decide (a ∈ bytes "-_.~") then of_bytes [a]
  else if a == byte 32 then "+" else "%" +:+ ToUpper (hex_pad 2 (byte_val a)).
Fixpoint QueryEscape (s : string) : string :=
  match s with
  | "" => ""
  | String a s => query_byte a +:+ QueryEscape s
  end.

(** [url.Values.Encode] of entries with distinct keys in the order of the keys. *)
Definition Encode (kvs : list (string * string)) : string :=
  Join ((λ kv, QueryEscape kv.1 +:+ "=" +:+ QueryEscape kv.2) <$> kvs) "&".

Section client.
  Context `{GoGit} `{GoDocker} `{GoHTTP} (environ : list string).

Definition setAuth : list (string * string) :=
  let t := envToken environ in if t != "" then [("Authorization", "Bearer " +:+ t)] else [].

(** What [getJSON] and [postJSON] make of the answer. *)
Definition decode_answer {A} (method path : string) (dec : string → result string A) (a : HAns)
    : result Error A :=
  match a with
  | HInvalid e => Err (Errorf ("cli: " +:+ e))
  | HFailed e => Err (Errorf ("cli: " +:+ method +:+ " " +:+ path +:+ ": " +:+ e))
  | HAnswer status body =>
      if (300 <=? status)%Z then
        Err (status_error method path status (TrimSpace (str_take maxErrorBody body)))
      else match dec body with
           | Err e => Err (Errorf ("cli: decode " +:+ path +:+ ": " +:+ e))
           | Ok v => Ok v
           end
  end.

Definition getJSON {A} (dec : string → result string A) (c path : string) : CM A :=
  let# a := cdo (MkHReq "GET" (c +:+ path) setAuth "") in
  λ s, Some (decode_answer "GET" path dec a, s).

Definition postJSON {A} (dec : string → result string A) (c path contentType body : string) : CM A :=
  let contentType := if contentType == "" then "text/plain" else contentType in
  let# a := cdo (MkHReq "POST" (c +:+ path) (("Content-Type", contentType) :: setAuth) body) in
  λ s, Some (decode_answer "POST" path dec a, s).
End client.

(** ** local.go: queries *)

Definition windowQuery (traces : Z) (service : string) : string :=
  let s := ingest.ClipService service in
  "?" +:+ Encode ((if s != "" then [("service", s)] else []) ++ [("traces", Itoa (clipTraces traces))]).

Definition encodeListQuery (limit : Z) (service : string) : string :=
  let s := ingest.ClipService service in
  let enc := Encode ((if (0 <? limit)%Z then [("limit", Itoa limit)] else []) ++
                     (if s != "" then [("service", s)] else [])) in
  if enc == "" then "" else "?" +:+ enc.

(** ** local.go: what kind of directory it is *)

Definition controlPlaneModule : string := "github.com/sumedhaerram/aquila".
Definition originCwd : string := "cwd".
Definition originAPI : string := "api".
Definition originFiles : string := "files".
Definition originNone : string := "none".

Section dirs.
  Context (cwd : list string) (t : os.tree).

Definition is_file (p : string) : bool :=
  match os.Stat t (os.from_dir (os.abs_path cwd) p) with
  | Some os.NDir | None => false
  | Some _ => true
  end.
Definition exists_path (p : string) : bool :=
  bool_decide (is_Some (os.Stat t (os.from_dir (os.abs_path cwd) p))).

Definition shopTree (dir : string) : bool :=
  if TrimSpace dir == "" then false
  else match os.Abs (Some (os.abs_path cwd)) dir with
       | None => false
       | Some abs =>
           is_file (os.path_Join abs "internal/payment/handler.go") ||
           is_file (os.path_Join abs "examples/shop/internal/payment/handler.go")
       end.

(** The loop of [findGoMod]: the parent of a directory other than the root is
    shorter, so the length of the path is enough fuel. *)
Fixpoint find_up (fuel : nat) (abs : string) : string :=
  match fuel with
  | O => ""
  | S fuel =>
      if exists_path (os.path_Join abs "go.mod") then abs
      else let parent := os.Dir abs in if parent == abs then "" else find_up fuel parent
  end.
Lemma find_up_fuel fuel fuel' ds :
  Forall plain ds → Forall os.slashless ds → (length ds < fuel)%nat → (length ds < fuel')%nat →
  find_up fuel (os.abs_path ds) = find_up fuel' (os.abs_path ds).
Proof using Type.
  revert fuel fuel'. induction ds as [|e ds IH] using rev_ind; intros [|fuel] [|fuel'] Hp Hs H1 H2; try lia; [done|].
  cbn [find_up]. case_match; [done|]. rewrite os.Dir_abs by done. cbv zeta. case_bool_decide; [done|].
  rewrite length_app in *. simpl in *. apply Forall_app in Hp as [? _], Hs as [? _]. apply IH; done || lia.
Qed.
Definition findGoMod (dir : string) : string :=
  let dir := if TrimSpace dir == "" then "." else dir in
  match os.Abs (Some (os.abs_path cwd)) dir with
  | None => ""
  | Some abs => find_up (S (String.length abs)) abs
  end.

(** The scanner gives up at a line of 64 KiB. *)
Fixpoint module_line (lines : list string) : string :=
  match lines with
  | [] => ""
  | l :: lines =>
      if (65536 <=? len l)%Z then ""
      else
        let line := TrimSpace (drop_cr l) in
        if HasPrefix line "module " then TrimSpace (TrimPrefix line "module ") else module_line lines
  end.
Definition readModulePath (dir : string) : string :=
  match os.ReadFile t (os.from_dir (os.abs_path cwd) (os.path_Join dir "go.mod")) with
  | None => ""
  | Some text => module_line (drop_last_empty (Split text nl))
  end.

Definition controlPlaneDir (dir : string) : bool :=
  let root := findGoMod dir in
  if root == "" then false else readModulePath root == controlPlaneModule.

Definition allowsShopPair (dir : string) : bool := shopTree dir || controlPlaneDir dir.
End dirs.

(** ** diffread.go *)

Definition diffPath (file : string) (rest : list string) : result string string :=
  match rest with
  | [] => Ok file
  | [p] => if file != "" then Err ("unexpected argument " +:+ Quote p) else Ok p
  | p :: q :: _ => Err ("unexpected argument " +:+ Quote (if file != "" then p else q))
  end.

Definition checkDiffBytes (raw : string) : result string () :=
  if raw == "" then Err "empty diff"
  else if (diff.MaxBytes <? len raw)%Z then Err "diff too large"
  else Ok tt.

(** [os.ReadFile] of a path in the working directory. *)
Definition read_file (cwd : list string) (t : os.tree) (path : string) : result string string :=
  match os.ReadFile t (os.from_dir (os.abs_path cwd) path) with
  | Some raw => Ok raw
  | None => Err ("open " +:+ path)
  end.

(** The diff and where it comes from. *)
Definition readDiff (cwd : list string) (t : os.tree) (stdin : Stdin) (path : string)
    : result string (string * string) :=
  if path != "" then
    let? raw := read_file cwd t path in
    check? checkDiffBytes raw in
    Ok (raw, "file")
  else if in_terminal stdin then Ok ("", "worktree")
  else
    let? raw := evidence.read_limited (diff.MaxBytes + 1) (in_reader stdin) in
    if raw != "" then check? checkDiffBytes raw in Ok (raw, "stdin") else Ok ("", "worktree").

(** Where [resolveDiff] reports that it falls back to a plain diff. *)
Inductive Notices := NoNotices | NoticesOut | NoticesErr.

Section diffs.
  Context `{GoGit} `{GoDocker} `{GoHTTP} (host : Host).

Definition cwd_path : string := os.abs_path (h_cwd host).

Definition open_repo (dir : string) : CM (result gitrun.Error Repo) := λ s,
  cgit (Open (h_environ host) (h_ctx host s) (h_cwd host) dir) s.

Definition snapshot_worktree (r : Repo) (base : Revision) : CM (result gitrun.Error Revision) := λ s,
  cgit (SnapshotWorktreeAt (h_environ host) (h_dir_size host) (h_tmp host s) r base) s.
Definition snapshot_diff (r : Repo) (base : Revision) (raw : string) : CM (result gitrun.Error Revision) := λ s,
  cgit (SnapshotDiffAt (h_environ host) (h_dir_size host) (h_tmp host s) r base raw) s.

Definition notify (n : Notices) (text : string) : CM () :=
  match n with
  | NoNotices => cret tt
  | NoticesOut => writef text
  | NoticesErr => writeErr text
  end.

(** The diff between HEAD and a snapshot of the work tree. *)
Definition snapshot_changes (r : Repo) : CM (result gitrun.Error string) :=
  let# base := cgit (Head (h_environ host) r) in
  match base with
  | Err e => cret (Err e)
  | Ok base =>
      let# patch := snapshot_worktree r base in
      match patch with
      | Err e => cret (Err e)
      | Ok patch => cgit (DiffTrees (h_environ host) r (Rev_Commit base) (Rev_Commit patch))
      end
  end.

Definition worktree_diff (dir : string) (notices : Notices) : CM (result gitrun.Error string) :=
  let# repo := open_repo dir in
  match repo with
  | Err e => cret (Err e)
  | Ok r =>
      let# raw := snapshot_changes r in
      match raw with
      | Ok raw => cret (Ok raw)
      | Err e =>
          do# notify notices ("diff       plain fallback: " +:+ error_text e +:+ String nl "") in
          cgit (PlainDiff (h_environ host) r)
      end
  end.

Definition resolveDiff (stdin : Stdin) (path dir : string) (notices : Notices) : CM (string * string) :=
  let# t := cget s_files in
  let# ro := clift (readDiff (h_cwd host) t stdin path) in
  if ro.2 != "worktree" then cret ro
  else if dir == "" then cfail (Errorf "empty diff")
  else
    let# raw := worktree_diff dir notices in
    match raw with
    | Err ErrNotGit =>
        cfail (Errorf "no local changes (not a git work tree); pass -f or a unified diff on stdin")
    | Err e => cfail (Errorf (error_text e))
    | Ok raw =>
        if raw == "" then cfail (Errorf "no local changes")
        else do# clift (checkDiffBytes raw) in cret (raw, "worktree")
    end.

Definition slurpDiff (stdin : Stdin) (path : string) : CM string :=
  let# ro := resolveDiff stdin path "" NoNotices in cret ro.1.

(** ** revision.go *)

(** The revisions found before an error are kept. *)
Definition declaredRevisions (dir : string) : CM (Revision * Revision * option string) :=
  let none := MkRevision "" "" "" false "" in
  let# repo := open_repo dir in
  match repo with
  | Err e => cret (none, none, Some (error_text e))
  | Ok r =>
      let# base := cgit (Head (h_environ host) r) in
      match base with
      | Err e => cret (none, none, Some (error_text e))
      | Ok base =>
          let# patch := snapshot_worktree r base in
          match patch with
          | Err e => cret (base, none, Some (error_text e))
          | Ok patch => cret (base, patch, None)
          end
      end
  end.

Record buildSnapshot := MkBuildSnapshot {
  Sn_Repo : Repo;
  Sn_Baseline : Revision;
  Sn_Patch : Revision;
  Sn_Diff : string;
}.

Definition git_ok {A} (m : CM (result gitrun.Error A)) : CM A :=
  let# r := m in match r with Ok a => cret a | Err e => cfail (Errorf (error_text e)) end.

Definition captureBuild (stdin : Stdin) (path dir : string) : CM buildSnapshot :=
  let# t := cget s_files in
  let# ro := clift (readDiff (h_cwd host) t stdin path) in
  let# r := git_ok (open_repo dir) in
  let# base := git_ok (cgit (Head (h_environ host) r)) in
  let# patch := git_ok (if ro.2 == "worktree" then snapshot_worktree r base else snapshot_diff r base ro.1) in
  let# diff := git_ok (cgit (DiffTrees (h_environ host) r (Rev_Commit base) (Rev_Commit patch))) in
  do# clift (checkDiffBytes diff) in
  do# git_ok (cgit (Pin (h_environ host) r base)) in
  do# git_ok (cgit (Pin (h_environ host) r patch)) in
  cret (MkBuildSnapshot r base patch diff).

(** ** local.go: analyzing a diff *)

Definition loadTargetSource (t : os.tree) (dir : string) : option source.Graph :=
  let dir := if dir == "" then "." else dir in
  match h_Load host t dir with
  | None => None
  | Some g => if TrimSuffix (source.Module_ (Some g)) "/" == controlPlaneModule then None else Some g
  end.

Definition patchModule (t : os.tree) (dir : string) : string :=
  match loadTargetSource t dir with
  | Some _ => dir
  | None =>
      let shop := os.path_Join dir "examples/shop" in
      if exists_path (h_cwd host) t (os.path_Join shop "internal/payment/handler.go") then shop else dir
  end.

Section api.
  Context `{GoNet} `{CliJSON}.

Definition fetchSpans (api : string) (traces : Z) (service : string) : CM (list Span) :=
  let# c := clift (newClient api) in
  let# spans := getJSON (h_environ host) spans_of_json c ("/v1/spans" +:+ windowQuery traces service) in
  let s := ingest.ClipService service in
  cret (if s != "" then ingest.SelectWindow spans traces s else spans).

Definition fetchImpact (api : string) (traces : Z) (service raw : string) : CM impact.Report :=
  let# c := clift (newClient api) in
  postJSON (h_environ host) report_of_json c ("/v1/impact" +:+ windowQuery traces service) "text/plain" raw.

Definition impactFromWindow (api : string) (traces : Z) (service : string) (g : source.Graph)
    (parsed : diff.Diff) : CM impact.Report :=
  let# spans := fetchSpans api traces service in
  cret (analyze.Analyze (Some g) parsed (locate.Bind (Some g) spans) (graph.Build spans)).

Definition diff_error (e : diff.DiffErr) : string :=
  match e with
  | diff.ErrTooLarge => "diff: exceeds " +:+ Itoa diff.MaxBytes +:+ " bytes"
  | diff.ErrNotUTF8 => "diff: not utf-8"
  | diff.ErrMissingPath => "diff: file missing path"
  | diff.ErrInvalidPath p => "diff: invalid path " +:+ Quote p
  | diff.ErrFileCap => "diff: file cap " +:+ Itoa (Z.of_nat diff.maxFiles) +:+ " exceeded"
  | diff.ErrNoFileHeader => "diff: hunk without file header"
  | diff.ErrBadHunkHeader => "diff: bad hunk header"
  | diff.ErrHunkCap => "diff: hunk cap " +:+ Itoa diff.maxHunks +:+ " exceeded"
  | diff.ErrScan => "diff: scan: bufio.Scanner: token too long"
  | diff.ErrRename => "diff: apply: rename not supported"
  | diff.ErrNoFiles => "diff: apply: no files"
  | diff.ErrApply _ why => "diff: apply: " +:+ why
  end.

Definition reportFromLocal (g : source.Graph) (spans : list Span) (raw : string) : result string impact.Report :=
  match diff.Parse raw with
  | Err e => Err ("cli: impact: " +:+ diff_error e)
  | Ok parsed => Ok (analyze.Analyze (Some g) parsed (locate.Bind (Some g) spans) (graph.Build spans))
  end.

Definition analyzeDiff (api dir : string) (traces : Z) (service raw : string) : CM (impact.Report * string) :=
  match diff.Parse raw with
  | Err e => cfail (Errorf ("cli: impact: " +:+ diff_error e))
  | Ok parsed =>
      let# t := cget s_files in
      match loadTargetSource t dir with
      | Some g => let# rep := impactFromWindow api traces service g parsed in cret (rep, originCwd)
      | None =>
          if controlPlaneDir (h_cwd host) t dir then
            let# rep := fetchImpact api traces service raw in cret (rep, originAPI)
          else
            let# spans := fetchSpans api traces service in
            cret (analyze.FromDiff parsed spans, originFiles)
      end
  end.

(** ** replay.go: the workload *)

Definition rejectMixedWindow (spans : list Span) (service : string) : result string () :=
  if ingest.ClipService service != "" then Ok tt
  else
    let names := UniqueServices spans in
    if (length names <=? 1)%nat then Ok tt
    else Err ("cli: mixed services " +:+ Join names ", " +:+ "; pass -service or -workload").

Definition loadWorkload (api : string) (traces : Z) (service dir : string) : CM replay.Workload :=
  let# spans := fetchSpans api traces service in
  do# clift (rejectMixedWindow spans service) in
  let w := replay.FromSpans spans in
  ctry (resolveDiff emptyStdin "" dir NoNotices) (λ ro,
    match ro with
    | Err _ => cret w
    | Ok ro =>
        if ro.1 == "" then cret w
        else ctry (analyzeDiff api dir traces service ro.1) (λ rep,
          match rep with
          | Err _ => cret w
          | Ok rep =>
              cret (replay.RestrictToRoutes w (impact.ReplayableRoutes rep.1) replay.ProvenanceChangedLines)
          end)
    end).

Definition resolveWorkload `{WorkloadJSON} (api : string) (traces : Z) (service : string) (shopFixture : bool)
    (workloadPath dir : string) : CM replay.Workload :=
  if shopFixture && (TrimSpace workloadPath != "") then
    cfail (Errorf "cli: -fixture and -workload are mutually exclusive")
  else if shopFixture then cret workloads.ShopFixture
  else if TrimSpace workloadPath != "" then
    let# t := cget s_files in
    clift (workloads.ReadFile (LookupEnv (h_environ host)) cwd_path t workloadPath)
  else loadWorkload api traces service dir.
End api.
End diffs.

(** ** Reasoning about computations *)

Section laws.
  Context `{GoGit} `{GoDocker} `{GoHTTP}.

Lemma cbind_Ok {A B} (m : CM A) (k : A → CM B) b s s' :
  cbind m k s = Some (Ok b, s') → ∃ a s1, m s = Some (Ok a, s1) ∧ k a s1 = Some (Ok b, s').
Proof. unfold cbind. intros ([[a|e] s1] & Hm & Hk)%bind_Some; [eauto|done]. Qed.
Lemma cwrap_Ok {A} prefix (m : CM A) a s s' :
  cwrap prefix m s = Some (Ok a, s') → m s = Some (Ok a, s').
Proof. unfold cwrap. intros ([[b|e] s1] & Hm & Hk)%bind_Some; [|done]. by injection Hk as <- <-. Qed.
Lemma clift_Ok {A} (r : result string A) a s s' : clift r s = Some (Ok a, s') → r = Ok a ∧ s' = s.
Proof. unfold clift. destruct r as [b|e]; [|done]. by intros [= <- <-]. Qed.
Lemma cget_Ok {A} (f : Sys → A) a s s' : cget f s = Some (Ok a, s') → a = f s ∧ s' = s.
Proof. by intros [= <- <-]. Qed.

(** [ckeeps P m]: [m] leads from a state to one in relation [P] to it. *)
Definition ckeeps {A} (P : relation Sys) (m : CM A) : Prop :=
  ∀ s res s', m s = Some (res, s') → P s s'.

(** A relation that what is printed, asked of servers, and done to files and the
    repository does not matter for. *)
Class DockerOnly (P : relation Sys) : Prop := {
  do_preorder :: PreOrder P;
  do_same s s' : s_docker s' = s_docker s → P s s';
}.

Section keeps.
  Context (P : relation Sys) `{!DockerOnly P}.

Lemma ckeeps_same {A} (m : CM A) :
  (∀ s res s', m s = Some (res, s') → s_docker s' = s_docker s) → ckeeps P m.
Proof using All. intros Hm s res s' E%Hm. by apply do_same. Qed.
Lemma ckeeps_ret {A} (a : A) : ckeeps P (cret a).
Proof using All. apply ckeeps_same. by intros s ?? [= <- <-]. Qed.
Lemma ckeeps_fail {A} e : ckeeps P (cfail (A := A) e).
Proof using All. apply ckeeps_same. by intros s ?? [= <- <-]. Qed.
Lemma ckeeps_lift {A} (r : result string A) : ckeeps P (clift r).
Proof using All. apply ckeeps_same. by intros s ?? [= <- <-]. Qed.
Lemma ckeeps_get {A} (f : Sys → A) : ckeeps P (cget f).
Proof using All. apply ckeeps_same. by intros s ?? [= <- <-]. Qed.
Lemma ckeeps_result {A} (f : Sys → result Error A) : ckeeps P (λ s, Some (f s, s)).
Proof using All. apply ckeeps_same. by intros s ?? [= <- <-]. Qed.
Lemma ckeeps_writef text : ckeeps P (writef text).
Proof using All. apply ckeeps_same. by intros s ?? [= <- <-]. Qed.
Lemma ckeeps_writeErr text : ckeeps P (writeErr text).
Proof using All. apply ckeeps_same. by intros s ?? [= <- <-]. Qed.
Lemma ckeeps_git {A} (m : GM A) : ckeeps P (cgit m).
Proof using All. apply ckeeps_same. intros s res s'. unfold cgit. case_match. by intros [= <- <-]. Qed.
Lemma ckeeps_do req : ckeeps P (cdo req).
Proof using All. apply ckeeps_same. intros s res s'. unfold cdo. case_match. by intros [= <- <-]. Qed.
Lemma ckeeps_bind {A B} (m : CM A) (k : A → CM B) :
  ckeeps P m → (∀ a, ckeeps P (k a)) → ckeeps P (cbind m k).
Proof using All.
  intros Hm Hk s res s'. unfold cbind. intros ([[a|e] s1] & E%Hm & Hr)%bind_Some.
  - apply Hk in Hr. by etrans.
  - by injection Hr as _ <-.
Qed.
Lemma ckeeps_try {A B} (m : CM A) (k : result Error A → CM B) :
  ckeeps P m → (∀ r, ckeeps P (k r)) → ckeeps P (ctry m k).
Proof using All.
  intros Hm Hk s res s'. unfold ctry. intros ([r s1] & E%Hm & Hr%Hk)%bind_Some. by etrans.
Qed.
Lemma ckeeps_wrap {A} prefix (m : CM A) : ckeeps P m → ckeeps P (cwrap prefix m).
Proof using All.
  intros Hm s res s'. unfold cwrap. intros ([[a|e] s1] & E%Hm & Hr)%bind_Some; by injection Hr as _ <-.
Qed.
End keeps.
End laws.

Create HintDb cm.
#[export] Hint Resolve ckeeps_ret ckeeps_fail ckeeps_lift ckeeps_get ckeeps_result ckeeps_writef ckeeps_writeErr
  ckeeps_git ckeeps_do : cm.

(** Follows the structure of a computation. *)
Ltac cm_step :=
  first
    [ solve [eauto 2 with cm typeclass_instances]
    | match goal with
      | |- ckeeps _ (cbind _ _) => apply ckeeps_bind; [typeclasses eauto| |intros ?]
      | |- ckeeps _ (ctry _ _) => apply ckeeps_try; [typeclasses eauto| |intros ?]
      | |- ckeeps _ (cwrap _ _) => apply ckeeps_wrap
      | |- ckeeps _ (if ?b then _ else _) => destruct b
      | |- ckeeps _ (match ?x with _ => _ end) => destruct x
      end
    | progress cbv zeta ].
Ltac cm_keeps := repeat (intros; cm_step).

Section keep_docker.
  Context `{GoGit} `{GoDocker} `{GoHTTP} (host : Host) (P : relation Sys) `{!DockerOnly P}.

Lemma open_repo_keeps dir : ckeeps P (open_repo host dir).
Proof using All. intros s res s'. by apply ckeeps_git. Qed.
Lemma snapshot_worktree_keeps r base : ckeeps P (snapshot_worktree host r base).
Proof using All. intros s res s'. by apply ckeeps_git. Qed.
Lemma snapshot_diff_keeps r base raw : ckeeps P (snapshot_diff host r base raw).
Proof using All. intros s res s'. by apply ckeeps_git. Qed.
#[local] Hint Resolve open_repo_keeps snapshot_worktree_keeps snapshot_diff_keeps : cm.

Lemma getJSON_keeps {A} environ (dec : string → result string A) c path : ckeeps P (getJSON environ dec c path).
Proof using All. unfold getJSON. cm_keeps. Qed.
Lemma postJSON_keeps {A} environ (dec : string → result string A) c path ct body :
  ckeeps P (postJSON environ dec c path ct body).
Proof using All. unfold postJSON. cm_keeps. Qed.
#[local] Hint Resolve getJSON_keeps postJSON_keeps : cm.

Lemma resolveDiff_keeps stdin path dir notices : ckeeps P (resolveDiff host stdin path dir notices).
Proof using All. unfold resolveDiff, worktree_diff, snapshot_changes, notify. cm_keeps. Qed.
Lemma captureBuild_keeps stdin path dir : ckeeps P (captureBuild host stdin path dir).
Proof using All. unfold captureBuild, git_ok. cm_keeps. Qed.
Lemma declaredRevisions_keeps dir : ckeeps P (declaredRevisions host dir).
Proof using All. unfold declaredRevisions. cm_keeps. Qed.
#[local] Hint Resolve resolveDiff_keeps : cm.

Lemma fetchSpans_keeps `{GoNet} `{CliJSON} api traces service : ckeeps P (fetchSpans host api traces service).
Proof using All. unfold fetchSpans. cm_keeps. Qed.
#[local] Hint Resolve fetchSpans_keeps : cm.
Lemma analyzeDiff_keeps `{GoNet} `{CliJSON} api dir traces service raw :
  ckeeps P (analyzeDiff host api dir traces service raw).
Proof using All. unfold analyzeDiff, impactFromWindow, fetchImpact. cm_keeps. Qed.
#[local] Hint Resolve analyzeDiff_keeps : cm.
Lemma resolveWorkload_keeps `{GoNet} `{CliJSON} `{WorkloadJSON} api traces service fixture workload dir :
  ckeeps P (resolveWorkload host api traces service fixture workload dir).
Proof using All. unfold resolveWorkload, loadWorkload. cm_keeps. Qed.
End keep_docker.
#[export] Hint Resolve open_repo_keeps snapshot_worktree_keeps snapshot_diff_keeps getJSON_keeps postJSON_keeps
  resolveDiff_keeps captureBuild_keeps declaredRevisions_keeps fetchSpans_keeps analyzeDiff_keeps
  resolveWorkload_keeps : cm.

End cli.
