(* ===== verification/CliPrint.v ===== *)
(** * What the commands print

    The [write...] and [format...] functions of [internal/cli] as functions to the
    text they write. Text is UTF-8. *)

From S2P Require Import Prelude GoStrings GoText Flags Ingest Spans Source Graph Locate Replay Impact Plan Validate Evidence Jobs GitRev Pair Cli.
Import gitrev ingest.

Module print.

(** ** [fmt] *)

Definition line (s : string) : string := s +:+ String nl "".

(** The number of characters. *)
Definition rune_count (s : string) : nat := length (filter (λ a, cont a = false) (bytes s)).

Fixpoint blanks (n : nat) : string := match n with O => "" | S n => String (byte 32) (blanks n) end.
(** The verb %-[n]s. *)
Definition pad (n : nat) (s : string) : string := s +:+ blanks (n - rune_count s).
(** The verb %t. *)
Definition fmt_bool (b : bool) : string := if b then "true" else "false".
Definition fmt_int (n : Z) : string := Itoa n.
Definition fmt_len {A} (l : list A) : string := Itoa (Z.of_nat (length l)).

Definition lines (ls : list string) : string := foldr (λ l s, line l +:+ s) "" ls.

(** ** replay.go *)

Definition joinNotes (notes : list string) : string := Join notes ",".

Definition formatDur (ns : Z) : string := if (ns <=? 0)%Z then "-" else plan.fmt_ms ns +:+ "ms".

Definition formatSummary (s : replay.Summary) : string :=
  if replay.Sum_N s == 0%Z then "n=0"
  else
    "n=" +:+ Itoa (replay.Sum_N s) +:+ "  median=" +:+ formatDur (replay.Sum_MedNS s) +:+
    (if replay.Sum_HasP95 s then "  p95=" +:+ formatDur (replay.Sum_P95NS s) else "  p95=withheld").
Definition formatLatency (s : replay.StepLatency) : string :=
  "base " +:+ formatSummary (replay.Lat_Baseline s) +:+ "  patch " +:+ formatSummary (replay.Lat_Patch s).

Definition clipRoute (p : string) : string :=
  match IndexByte p (byte 63) with
  | Some i => str_take i p +:+ "?…"
  | None => p
  end.

Definition stepStatus (res : replay.Result) (i : nat) : string * Z :=
  match replay.Result_Steps res !! i with
  | None => ("-", 0%Z)
  | Some s =>
      if replay.Obs_Err s != "" then ("err", replay.Obs_DurationNS s)
      else (Itoa (replay.Obs_Status s), replay.Obs_DurationNS s)
  end.

Definition replay_step (base patch : replay.Result) (rep : replay.Report) (lat : list replay.StepLatency)
    (i : nat) (st : replay.Step) : string :=
  let delta := replay.Report_Steps rep !! i in
  let note := match delta with
              | Some d => if replay.Delta_Notes d == [] then "" else "  " +:+ joinNotes (replay.Delta_Notes d)
              | None => ""
              end in
  let ver := from_option replay.Delta_Status "" delta in
  let '(bs, bd) := stepStatus base i in
  let '(ps, pd) := stepStatus patch i in
  line ("  " +:+ replay.Step_Method st +:+ " " +:+ clipRoute (replay.Step_Path st) +:+ "  " +:+ ver +:+ "  " +:+
        bs +:+ "/" +:+ ps +:+ "  " +:+ formatDur bd +:+ "/" +:+ formatDur pd +:+ note) +:+
  line ("    provenance " +:+ replay.Step_Provenance st) +:+
  match lat !! i with
  | Some l => line ("    latency    " +:+ formatLatency l)
  | None => ""
  end.
Definition writeReplay (load : replay.Workload) (base patch : replay.Result) (rep : replay.Report)
    (lat : list replay.StepLatency) (n : nat) : string :=
  line ("replay   steps=" +:+ fmt_len (replay.Workload_Steps load) +:+ "  verdict=" +:+
        replay.Report_Verdict rep +:+ "  n=" +:+ Itoa (Z.of_nat n)) +:+
  line ("baseline " +:+ replay.Result_Target base) +:+
  line ("patch    " +:+ replay.Result_Target patch) +:+
  foldr String.append "" (imap (replay_step base patch rep lat) (replay.Workload_Steps load)) +:+
  line "not validated. match is not a pass. p95 is withheld unless n>=20. no regression threshold.".

(** ** impact.go *)

Definition writeFinding (f : impact.Finding) : string :=
  let loc := if (0 <? impact.F_Line f)%Z && (impact.F_File f != "")
             then impact.F_File f +:+ ":" +:+ Itoa (impact.F_Line f) else impact.F_File f in
  let cols l := line ("  " +:+ Join l "  ") in
  if (impact.F_Route f != "") && (impact.F_Name f != "") then
    let rest := [impact.F_Route f; impact.F_Name f; loc; impact.F_Reason f; impact.F_Provenance f] in
    if impact.F_Service f == "" then cols rest else cols (impact.F_Service f :: rest)
  else if (impact.F_Reason f == "observed_path") && (impact.F_Path f != "") then
    cols ["path"; impact.F_Path f; impact.F_Provenance f]
  else if impact.F_Service f != "" then
    cols [impact.F_Service f; impact.F_Name f; impact.F_Reason f; impact.F_Provenance f]
  else if impact.F_Path f != "" then cols [impact.F_Path f; impact.F_Reason f; impact.F_Provenance f]
  else if loc != "" then cols [impact.F_Name f; loc; impact.F_Reason f; impact.F_Provenance f]
  else cols [impact.F_Name f; impact.F_File f; impact.F_Reason f; impact.F_Provenance f].
Definition findings (fs : list impact.Finding) : string := foldr String.append "" (writeFinding <$> fs).

Definition writeSection (title : string) (fs : list impact.Finding) : string :=
  line title +:+ (if fs == [] then line "  (none)" else findings fs).

Definition writeImpact (origin src : string) (rep : impact.Report) : string :=
  line ("impact  origin=" +:+ origin +:+ "  diff=" +:+ src +:+ "  files=" +:+ fmt_len (impact.Rep_Files rep) +:+
        "  direct=" +:+ fmt_len (impact.Rep_Direct rep) +:+ "  likely=" +:+ fmt_len (impact.Rep_Likely rep) +:+
        "  runtime=" +:+ fmt_len (impact.Rep_Runtime rep) +:+ "  unobserved=" +:+
        fmt_len (impact.Rep_Unobserved rep)) +:+
  writeSection "direct" (impact.Rep_Direct rep) +:+ writeSection "likely" (impact.Rep_Likely rep) +:+
  writeSection "runtime" (impact.Rep_Runtime rep) +:+ writeSection "unobserved" (impact.Rep_Unobserved rep) +:+
  (if origin == cli.originFiles then
     line "note     typed callers need a Go module in -dir" +:+
     line "note     runtime joins only when spans set code.file.path"
   else "").

(** ** plan.go *)

Definition writeEditPlan (rep : impact.Report) : string :=
  if bool_decide (impact.Rep_Direct rep = []) && bool_decide (impact.Rep_Runtime rep = []) then ""
  else
    line "edit" +:+ findings (take 10 (impact.Rep_Direct rep)) +:+
    lines ((λ label, "  replay  " +:+ label +:+ "  changed_lines") <$> impact.ReplayableRoutes rep).

Definition plan_step (s : plan.Step) : string :=
  let role := if plan.Step_Operator s then "operator" else "execute" in
  let extra :=
    if (plan.Step_Kind s == plan.KindLatency) || (plan.Step_Kind s == plan.KindConcurrency) then
      if (0 <? plan.Step_N s)%Z then "  n=" +:+ Itoa (plan.Step_N s) else ""
    else if (plan.Step_Kind s == plan.KindFaultStatus) && (0 <? plan.Step_Status s)%Z then
      "  status=" +:+ Itoa (plan.Step_Status s)
    else "" in
  "  " +:+ pad 14 (plan.Step_Kind s) +:+ " " +:+ role +:+ extra +:+ "  " +:+ plan.Step_Reason s.
Definition writePlan (dag : plan.DAG) : string :=
  let opN := count plan.Step_Operator (plan.DAG_Steps dag) in
  let execN := count (λ s, negb (plan.Step_Operator s)) (plan.DAG_Steps dag) in
  line ("plan     steps=" +:+ fmt_len (plan.DAG_Steps dag) +:+ "  execute=" +:+ Itoa execN +:+ "  operator=" +:+
        Itoa opN) +:+
  lines (plan_step <$> plan.DAG_Steps dag) +:+
  lines ((λ n, "note     " +:+ n) <$> plan.DAG_Notes dag) +:+
  line "not validated. this is a plan, not evidence.".

(** The requests that both sides turned away. *)
Definition authRefused (results : list plan.StepResult) : gset string :=
  list_to_set ((λ d, replay.Delta_Method d +:+ " " +:+ replay.Delta_Path d) <$>
    filter (λ d, replay.AuthRejected d = true) (results ≫= plan.SR_Steps)).
Definition refused_mark (refused : gset string) (lat : replay.StepLatency) : string :=
  if bool_decide (replay.Lat_Method lat +:+ " " +:+ replay.Lat_Path lat ∈ refused) then "  auth_rejected" else "".

Definition deltaNotes (d : replay.Delta) : string :=
  if replay.Delta_Notes d == [] then ""
  else if replay.AuthRejected d then "  auth_rejected: handler did not run; check workload headers"
  else "  " +:+ Join (replay.Delta_Notes d) ",".

Definition latency_line (refused : gset string) (lat : replay.StepLatency) : string :=
  "    " +:+ pad 6 (replay.Lat_Method lat) +:+ " " +:+ pad 22 (clipRoute (replay.Lat_Path lat)) +:+ " " +:+
  formatLatency lat +:+ refused_mark refused lat.
Definition delta_line (d : replay.Delta) : string :=
  "    " +:+ pad 6 (replay.Delta_Method d) +:+ " " +:+ pad 22 (clipRoute (replay.Delta_Path d)) +:+ " " +:+
  Itoa (replay.Delta_BaselineStatus d) +:+ "/" +:+ Itoa (replay.Delta_PatchStatus d) +:+ "  " +:+
  replay.Delta_Status d +:+ deltaNotes d.

Definition evidence_step (refused : gset string) (s : plan.StepResult) : string :=
  line ("  " +:+ pad 14 (plan.SR_Kind s) +:+ " " +:+ plan.SR_Verdict s) +:+
  (if plan.SR_Kind s == plan.KindLatency then lines (latency_line refused <$> plan.SR_Latency s) else "") +:+
  (if (plan.SR_Kind s == plan.KindBehavior) && bool_decide (plan.SR_Steps s ≠ []) then
     lines (delta_line <$> plan.SR_Steps s)
   else if bool_decide (plan.SR_Notes s ≠ []) && (plan.SR_Verdict s != plan.VerdictSkipped) then
     line ("    notes      " +:+ joinNotes (plan.SR_Notes s))
   else "").
Definition writeEvidence (ev : plan.Evidence) : string :=
  let skipped := count (λ s, plan.SR_Verdict s == plan.VerdictSkipped) (plan.Ev_Steps ev) in
  line ("experiment  overall=" +:+ plan.Ev_Overall ev +:+ "  steps=" +:+ fmt_len (plan.Ev_Steps ev) +:+
        "  skipped=" +:+ Itoa skipped) +:+
  foldr String.append "" (evidence_step (authRefused (plan.Ev_Steps ev)) <$> plan.Ev_Steps ev) +:+
  lines ((λ n, "note         " +:+ n) <$> plan.Ev_Notes ev).

Definition writeCoverage (c : evidence.Coverage) : string :=
  line ("coverage   impacted=" +:+ fmt_len (evidence.C_Impacted c) +:+ "  exercised=" +:+
        fmt_len (evidence.C_Exercised c) +:+ "  missed=" +:+ fmt_len (evidence.C_Missed c)) +:+
  lines ((λ r, "  hit      " +:+ evidence.RouteLabel c r) <$> evidence.C_Exercised c) +:+
  lines ((λ r, if bool_decide (r ∈ evidence.C_Rejected c) then
                 "  missed   " +:+ evidence.RouteLabel c r +:+
                 "  auth_rejected (401/403 on both sides; handler did not run)"
               else "  missed   " +:+ evidence.RouteLabel c r) <$> evidence.C_Missed c) +:+
  (if evidence.C_Exercised c == [] then line "  no impacted route got a request; validated cannot be earned"
   else "").

Definition writeDecision (c : option evidence.Coverage) (d : validate.Decision) : string :=
  from_option writeCoverage "" c +:+
  line ("validated  " +:+ fmt_bool (validate.D_Validated d) +:+ validate.CoverageNote d) +:+
  lines ((λ b, if validate.B_Subject b == "" then "blocker  " +:+ validate.B_Code b
               else "blocker  " +:+ validate.B_Code b +:+ "  " +:+ validate.B_Subject b) <$> validate.D_Blockers d) +:+
  (if validate.D_Validated d then
     line "required experiments ran on a clean recorded revision. match is not a ship decision."
   else line "not validated. match is not a pass. skipped required steps are not a pass.").

(** ** revision.go, env.go *)

Definition shortDigest (h : string) : string := if (12 <? len h)%Z then str_take 12 h else h.

Definition writeRevisions (base patch : Revision) : string :=
  line ("baseline  tree=" +:+ shortDigest (Rev_Tree base) +:+ " commit=" +:+ shortDigest (Rev_Commit base) +:+
        " source=" +:+ Rev_Source base) +:+
  line ("patch     tree=" +:+ shortDigest (Rev_Tree patch) +:+ " commit=" +:+ shortDigest (Rev_Commit patch) +:+
        " source=" +:+ Rev_Source patch +:+ " dirty=" +:+ fmt_bool (Rev_Dirty patch)).

Definition env_up (env : pair.Env) (side : pair.Side) : string :=
  line ("up        docker compose --env-file " +:+ pair.S_EnvFile side +:+ " -p " +:+ pair.S_Project side +:+
        " -f " +:+ pair.Env_ComposeFile env +:+ " up -d --build").
Definition writeEnv (env : pair.Env) : string :=
  line ("env       id=" +:+ pair.Env_ID env +:+ "  status=" +:+ pair.Env_Status env) +:+
  writeRevisions (pair.Env_BaselineRev env) (pair.Env_PatchRev env) +:+
  line ("baseline  " +:+ pair.S_Gateway (pair.Env_Baseline env) +:+ "  " +:+ pair.S_Dir (pair.Env_Baseline env) +:+
        "  digest=" +:+ shortDigest (pair.Env_BaselineDigest env)) +:+
  line ("patch     " +:+ pair.S_Gateway (pair.Env_Patch env) +:+ "  " +:+ pair.S_Dir (pair.Env_Patch env) +:+
        "  digest=" +:+ shortDigest (pair.Env_PatchDigest env)) +:+
  line ("compose   " +:+ pair.Env_ComposeFile env) +:+
  env_up env (pair.Env_Baseline env) +:+ env_up env (pair.Env_Patch env) +:+
  line "not started. traces stay out of the live Aquila store.".

(** ** runs.go, status.go *)

Definition formatStored (r : storedRun) : string :=
  "id=" +:+ Sr_ID r +:+ "  overall=" +:+ Sr_Overall r +:+
  (if Sr_BaselineSHA r != "" then "  sha=" +:+ Sr_BaselineSHA r else "") +:+
  (if Sr_Dirty r then "  dirty" else "") +:+
  (if Sr_Service r != "" then "  service=" +:+ Sr_Service r else "") +:+
  (if Sr_Validated r then "  validated" else "") +:+
  (if Sr_ArtifactDigest r != "" then "  digest=" +:+ shortDigest (Sr_ArtifactDigest r) else "").

Definition versionSkew (own api : string) : string :=
  if (api == own) || (api == "") || (own == "") || (own == "dev") then ""
  else "api=" +:+ api +:+ " cli=" +:+ own +:+ "; rebuild the control plane with make dev".
Definition emptyDash (s : string) : string := if s == "" then "-" else s.

End print.
