(* ===== verification/Experiment.v ===== *)
(** * [aquila experiment]

    [RunExperiment] of plan.go from the arguments on: the diff, its analysis, the
    plan, the workload, the pair of environments (or the given gateways), the
    execution, the evidence and its upload. [experiment] returns the artifact that
    was written and uploaded, which [RunExperiment] only looks at for its exit
    status. *)

From S2P Require Import Prelude GoStrings GoText Flags GoOS Diff Net Ingest Replay Impact Plan Validate Evidence GitRev Snapshot Materialize Pair Workload Cli CliPrint.
Import gitrev cli.

Module experiments.

(** ** Flags *)

Definition defaultShop : string := "examples/shop".

Definition experiment_flags (environ : list string) : gmap string flag.Value :=
  list_to_map
    [("api", flag.VString (envAPI environ)); ("traces", flag.VInt defaultTraces); ("f", flag.VString "");
     ("base", flag.VString ""); ("patch", flag.VString ""); ("fixture", flag.VBool false);
     ("workload", flag.VString ""); ("n", flag.VInt 0); ("smoke", flag.VBool false); ("out", flag.VString "");
     ("dir", flag.VString "."); ("service", flag.VString ""); ("shop", flag.VString defaultShop);
     ("pair", flag.VString "out/env"); ("base-port", flag.VInt 0); ("patch-port", flag.VInt 0);
     ("health", flag.VString replay.DefaultHealthPath)].

Definition evidence_error (e : evidence.EvidenceErr) : string :=
  "evidence: " +:+
  match e with
  | evidence.ErrSchema s => "unsupported schema " +:+ Quote s
  | evidence.ErrIllegalOverall o => "overall " +:+ Quote o +:+ " is not a legal verdict"
  | evidence.ErrMissingOverall => "missing overall"
  | evidence.ErrUnknownOverall o => "unknown overall " +:+ Quote o
  | evidence.ErrWorkloadDigest => "workload digest mismatch"
  | evidence.ErrArtifactDigest => "artifact digest mismatch"
  | evidence.ErrWriteSchema => "writes require schema " +:+ evidence.SchemaV3
  | evidence.ErrUnearned => "validated is unearned"
  | evidence.ErrBlockers => "blockers do not match decision"
  | evidence.ErrEmpty => "empty artifact"
  | evidence.ErrTooLarge => "artifact too large"
  | evidence.ErrText msg => msg
  end.

Definition gatewayURL (gateway : string) : string :=
  if HasPrefix gateway "http://" || HasPrefix gateway "https://" then gateway else "http://" +:+ gateway.

Section experiment.
  Context `{GitBatch} `{GoDocker} `{GoHTTP} `{GoNet} `{GoJSON} `{GoSHA} `{PairJSON} `{evidence.EvidenceJSON}
    `{CliJSON} `{WorkloadJSON} (host : Host).

Definition cguard (bad : bool) (text : string) : CM () := clift (guard_err bad text).

(** ** The pair *)

Definition wd : option string := Some (cwd_path host).

Definition preparePair (opts : pair.PrepareOpts) : CM pair.Env := λ s,
  let '(res, w, ms, d) :=
    pairs.Prepare (h_environ host) (h_ctx host s) (h_ctxs host s) wd (h_bundled host) opts
      (s_world s) (s_modes s) (s_docker s) in
  Some (match res with Ok env => Ok env | Err e => Err (Errorf e) end, set_pair w ms d s).

Definition startPair (env : pair.Env) : CM () := λ s,
  r ← pairs.Up wd (s_files s) (h_ctx host s) (h_free host s) (h_rounds host s) env (s_docker s);
  let '(res, d) := r in
  Some (match res with Ok _ => Ok tt | Err e => Err (Errorf e) end, set_docker d s).

(** The deferred call that stops the pair, on every path. *)
Definition with_pair {A} (env : pair.Env) (m : CM A) : CM A := λ s,
  r ← m s;
  let '(res, s) := r in
  let '(down, d) := pairs.Down wd (s_files s) env (s_docker s) in
  Some (res, add_out (print.line (match down with
                                  | Err e => "env       down failed: " +:+ e
                                  | Ok _ => "env       stopped"
                                  end)) (set_docker d s)).

(** ** Evidence files and uploads *)

Definition writeEvidenceFile (path : string) (a : evidence.Artifact) : CM () :=
  do# cguard (Contains path "://") "cli: experiment: -out must be a local file" in
  match evidence.Marshal a with
  | Err e => cfail (Errorf (evidence_error e))
  | Ok raw => λ s,
      let dir := os.Dir path in
      let '(made, t) :=
        if (dir != ".") && (dir != "") then os.MkdirAll (s_files s) (os.from_dir (cwd_path host) dir)
        else (true, s_files s) in
      let s := set_world ((s_world s).1, t) s in
      if negb made then Some (Err (Errorf "cli: experiment: mkdir"), s)
      else match os.WriteFile t (os.from_dir (cwd_path host) path) raw with
           | None => Some (Err (Errorf "cli: experiment: open"), s)
           | Some t => Some (Ok tt, set_world ((s_world s).1, t) s)
           end
  end.

Definition unrecorded (text : string) : CM () := writef (print.line ("unrecorded " +:+ text)).

Definition recordRun (api : string) (a : evidence.Artifact) : CM () :=
  match newClient api with
  | Err e => unrecorded e
  | Ok c =>
      match evidence.Marshal a with
      | Err e => unrecorded (evidence_error e)
      | Ok raw =>
          ctry (postJSON (h_environ host) run_of_json c "/v1/runs" "application/json" raw) (λ res,
            match res with
            | Err e =>
                do# unrecorded (err_text e) in
                ctry (getJSON (h_environ host) version_of_json c "/version") (λ ver,
                  match ver with
                  | Err _ => cret tt
                  | Ok ver =>
                      let skew := print.versionSkew (h_version host) ver in
                      if skew != "" then writef (print.line ("skew       " +:+ skew)) else cret tt
                  end)
            | Ok out =>
                let local := validate.D_Validated (evidence.Decision_of a) in
                do# writef (print.line ("run       id=" +:+ Sr_ID out +:+ "  stored")) in
                do# (if Sr_AttestedBy out != "" then
                       writef (print.line ("attested  " +:+ Sr_AttestedBy out +:+ " (uploaded evidence)"))
                     else cret tt) in
                if negb (Bool.eqb (Sr_Validated out) local) then
                  writef (print.line ("validated  " +:+ print.fmt_bool (Sr_Validated out) +:+
                                      "  (server re-derived; local said " +:+ print.fmt_bool local +:+ ")"))
                else cret tt
            end)
      end
  end.

(** ** Planning and running *)

Definition latency_flags (fs : gmap string flag.Value) (dag : plan.DAG) : plan.DAG :=
  let n := flag.get_int fs "n" in
  if (0 <? n)%Z then plan.WithLatencyN dag n
  else if flag.get_bool fs "smoke" then plan.WithLatencyN dag 1
  else dag.

Definition with_tests (t : os.tree) (dir : string) (files : list string) (dag : plan.DAG) : plan.DAG :=
  let abs := os.Abs wd dir in
  plan.WithTests (h_ReadDir host t) abs
    (match abs with Some root => exists_path (h_cwd host) t (os.path_Join root "go.mod") | None => false end)
    dag files.

Definition experiment_inputs (fs : gmap string flag.Value) (analysisDir raw : string)
    : CM (impact.Report * plan.DAG * replay.Workload) :=
  let api := flag.get_string fs "api" in
  let traces := flag.get_int fs "traces" in
  let service := flag.get_string fs "service" in
  let# ro := analyzeDiff host api analysisDir traces service raw in
  let rep := ro.1 in
  let# dag := clift (plan.FromImpact rep) in
  let# t := cget s_files in
  let dag := with_tests t (patchModule host t analysisDir) (impact.Rep_Files rep) (latency_flags fs dag) in
  let dag := plan.WithHealthPath dag (flag.get_string fs "health") in
  let# w := resolveWorkload host api traces service (flag.get_bool fs "fixture")
              (flag.get_string fs "workload") analysisDir in
  do# cguard (bool_decide (replay.Workload_Steps w = []))
    "empty workload (no GET/HEAD/OPTIONS server routes in the trace window; pass -workload for mutating requests)" in
  cret (rep, dag, w).

Definition experiment_run (fs : gmap string flag.Value) (rep : impact.Report) (dag : plan.DAG)
    (w : replay.Workload) (baseURL patchURL : string) (brev prev : Revision) : CM evidence.Artifact :=
  do# writef (print.writeRevisions brev prev) in
  let# world := cget (h_plan host) in
  match plan.Execute world dag baseURL patchURL w with
  | Err e => cfail (Errorf (replay.run_err_text e))
  | Ok ev =>
      let# now := cget (h_now host) in
      let art := evidence.Build now
        (evidence.MkInput brev prev now baseURL patchURL (ingest.ClipService (flag.get_string fs "service"))
           w rep dag ev) in
      let out := flag.get_string fs "out" in
      do# writef (print.writeEvidence ev +:+
                  print.writeDecision (evidence.A_Coverage art) (evidence.Decision_of art)) in
      do# (if out != "" then
             do# writeEvidenceFile out art in writef (print.line ("wrote     " +:+ out))
           else cret tt) in
      do# recordRun (flag.get_string fs "api") art in
      cret art
  end.

Definition prepare_opts (fs : gmap string flag.Value) (snap : buildSnapshot) : pair.PrepareOpts :=
  pair.MkPrepareOpts (Sn_Repo snap) (Sn_Baseline snap) (Sn_Patch snap) (flag.get_string fs "pair")
    (flag.get_int fs "base-port") (flag.get_int fs "patch-port") true.

Definition built (r : Revision) : Revision :=
  MkRevision (Rev_Commit r) (Rev_Tree r) (Rev_Path r) (Rev_Dirty r) SourceBuilt.

(** The pair is up: both sides are built from the snapshot. *)
Definition run_pair (fs : gmap string flag.Value) (elapsed : string) (snap : buildSnapshot) (env : pair.Env)
    (rep : impact.Report) (dag : plan.DAG) (w : replay.Workload) : CM evidence.Artifact :=
  do# startPair env in
  let baseURL := gatewayURL (pair.S_Gateway (pair.Env_Baseline env)) in
  let patchURL := gatewayURL (pair.S_Gateway (pair.Env_Patch env)) in
  do# writef (print.line ("env       id=" +:+ pair.Env_ID env +:+ "  status=up snapshot=" +:+ elapsed) +:+
              print.line ("baseline  " +:+ baseURL) +:+ print.line ("patch     " +:+ patchURL)) in
  experiment_run fs rep (plan.WithLocalEnv dag) w baseURL patchURL (built (Sn_Baseline snap))
    (built (Sn_Patch snap)).

Definition experiment_built (fs : gmap string flag.Value) (elapsed : string) (snap : buildSnapshot)
    : CM evidence.Artifact :=
  let# i := experiment_inputs fs (flag.get_string fs "shop") (Sn_Diff snap) in
  let '(rep, dag, w) := i in
  let# env := preparePair (prepare_opts fs snap) in
  with_pair env (run_pair fs elapsed snap env rep dag w).

Definition experiment_declared (fs : gmap string flag.Value) (raw : string) : CM evidence.Artifact :=
  let dir := flag.get_string fs "dir" in
  let# i := experiment_inputs fs dir raw in
  let '(rep, dag, w) := i in
  let# revs := declaredRevisions host dir in
  let '(brev, prev, err) := revs in
  do# (match err with
       | Some e => writef (print.line ("revision   unverified: " +:+ e))
       | None => cret tt
       end) in
  experiment_run fs rep dag w (flag.get_string fs "base") (flag.get_string fs "patch") brev prev.

Definition experiment_body (stdin : Stdin) (fs : gmap string flag.Value) (rest : list string)
    : CM evidence.Artifact :=
  let hasBase := flag.get_string fs "base" != "" in
  let hasPatch := flag.get_string fs "patch" != "" in
  let dir := flag.get_string fs "dir" in
  do# cguard (negb (Bool.eqb hasBase hasPatch))
    "-base and -patch are required together; omit both to start a shop pair" in
  let# t := cget s_files in
  let shop := allowsShopPair (h_cwd host) t dir in
  do# cguard (flag.get_bool fs "fixture" && negb shop)
    "-fixture is shop checkout smoke; pass -workload for another app" in
  do# cguard (negb hasBase && negb shop)
    "-base and -patch are required; omitting them only starts the shop pair" in
  let# path := clift (diffPath (flag.get_string fs "f") rest) in
  if hasBase then
    let# ro := resolveDiff host stdin path dir NoticesOut in
    experiment_declared fs ro.1
  else
    let# start := cget id in
    let# snap := captureBuild host stdin path (flag.get_string fs "shop") in
    let# elapsed := cget (h_since host start) in
    experiment_built fs elapsed snap.

Definition experiment (stdin : Stdin) (args : list string) : CM evidence.Artifact :=
  cwrap "cli: experiment: "
    (let# fr := clift (flag.Parse (experiment_flags (h_environ host)) args) in
     experiment_body stdin fr.1 fr.2).

Definition RunExperiment (stdin : Stdin) (args : list string) : CM () :=
  let# art := experiment stdin args in
  cguard (plan.Ev_Overall (evidence.A_Result art) == replay.VerdictIncomplete) "cli: experiment: incomplete".

(** ** Docker is left to the pair *)

Lemma experiment_inputs_keeps (P : relation Sys) `{!DockerOnly P} fs dir raw :
  ckeeps P (experiment_inputs fs dir raw).
Proof. unfold experiment_inputs, cguard. cm_keeps. Qed.

Lemma writeEvidenceFile_keeps (P : relation Sys) `{!DockerOnly P} path a : ckeeps P (writeEvidenceFile path a).
Proof.
  unfold writeEvidenceFile, cguard. cm_keeps. apply ckeeps_same; [done|]. intros s res s'. cbv zeta.
  match goal with |- context [let '(_, _) := ?x in _] => destruct x as [made t] end.
  destruct made; [|by intros [= _ <-]]. simpl.
  destruct (os.WriteFile _ _ _); by intros [= _ <-].
Qed.
#[local] Hint Resolve experiment_inputs_keeps writeEvidenceFile_keeps : cm.

Lemma recordRun_keeps (P : relation Sys) `{!DockerOnly P} api a : ckeeps P (recordRun api a).
Proof. unfold recordRun, unrecorded. cm_keeps. Qed.
#[local] Hint Resolve recordRun_keeps : cm.

Lemma experiment_run_keeps (P : relation Sys) `{!DockerOnly P} fs rep dag w base patch brev prev :
  ckeeps P (experiment_run fs rep dag w base patch brev prev).
Proof. unfold experiment_run. cm_keeps. Qed.
#[local] Hint Resolve experiment_run_keeps : cm.

(** ** What an experiment leaves running *)

Section stops.
  Context `{!pairs.DockerLaws}.

Definition shrinks (s s' : Sys) : Prop := pairs.running (s_docker s') ⊆ pairs.running (s_docker s).
Definition grows (env : pair.Env) (s s' : Sys) : Prop :=
  pairs.running (s_docker s') ⊆ pairs.running (s_docker s) ∪ pairs.projects env.
(** Nothing more runs, or the last line says that stopping failed. *)
Definition stops (s s' : Sys) : Prop :=
  shrinks s s' ∨ ∃ pre e, s_out s' = pre +:+ print.line ("env       down failed: " +:+ e).

#[global] Instance shrinks_docker : DockerOnly shrinks.
Proof.
  split; [split; [intros s; unfold shrinks; set_solver|intros s1 s2 s3; unfold shrinks; set_solver]|].
  intros s s' Hs. unfold shrinks. by rewrite Hs.
Qed.
#[global] Instance grows_docker env : DockerOnly (grows env).
Proof.
  split; [split; [intros s; unfold grows; set_solver|intros s1 s2 s3; unfold grows; set_solver]|].
  intros s s' Hs. unfold grows. rewrite Hs. set_solver.
Qed.

Lemma preparePair_shrinks opts : ckeeps shrinks (preparePair opts).
Proof using All.
  intros s res s'. unfold preparePair. destruct (pairs.Prepare _ _ _ _ _ _ _ _ _) as [[[r w] ms] d] eqn:E.
  intros [= _ <-]. unfold shrinks. simpl. by eapply pairs.Prepare_running.
Qed.

Lemma startPair_grows env : ckeeps (grows env) (startPair env).
Proof using All.
  intros s res s'. unfold startPair. intros ([r d] & E & Hs)%bind_Some. injection Hs as _ <-.
  by apply pairs.Up_running in E as [? _].
Qed.

Lemma with_pair_stops {A} env (m : CM A) : ckeeps (grows env) m → ckeeps stops (with_pair env m).
Proof using All.
  intros Hm s res s'. unfold with_pair. intros ([r s1] & E%Hm & Hs)%bind_Some.
  destruct (pairs.Down _ _ _ _) as [down d] eqn:Ed. injection Hs as _ <-.
  apply pairs.Down_stops in Ed as (D1 & _ & D2). destruct down as [[]|e]; [left|right; by eexists _, _].
  unfold shrinks. unfold grows in E. simpl. specialize (D2 eq_refl). clear - D1 D2 E. set_solver.
Qed.

Lemma bind_stops {A B} (m : CM A) (k : A → CM B) :
  ckeeps shrinks m → (∀ a, ckeeps stops (k a)) → ckeeps stops (cbind m k).
Proof using Type.
  intros Hm Hk s res s'. unfold cbind. intros ([[a|e] s1] & E%Hm & Hr)%bind_Some.
  - destruct (Hk _ _ _ _ Hr) as [Hs|?]; [left; by etrans|by right].
  - injection Hr as _ <-. by left.
Qed.
Lemma shrinks_stops {A} (m : CM A) : ckeeps shrinks m → ckeeps stops m.
Proof using Type. intros Hm s res s' E. left. by apply Hm in E. Qed.

Lemma experiment_built_stops fs elapsed snap : ckeeps stops (experiment_built fs elapsed snap).
Proof using All.
  apply bind_stops; [by apply experiment_inputs_keeps, _|]. intros [[rep dag] w].
  apply bind_stops; [apply preparePair_shrinks|]. intros env. apply with_pair_stops.
  unfold run_pair. apply ckeeps_bind; [apply _|apply startPair_grows|]. intros _.
  apply ckeeps_bind; [apply _|apply ckeeps_writef, _|]. intros _. by apply experiment_run_keeps, _.
Qed.

Lemma experiment_keeps stdin args : ckeeps stops (experiment stdin args).
Proof using All.
  unfold experiment.
  assert (ckeeps stops (let# fr := clift (flag.Parse (experiment_flags (h_environ host)) args) in
     experiment_body stdin fr.1 fr.2)) as Hb.
  { apply bind_stops; [apply ckeeps_lift, _|]. intros [fs rest]. unfold experiment_body, cguard.
    cbn [fst snd]. repeat (apply bind_stops; [first [apply ckeeps_lift, _ | apply ckeeps_get, _]|intros ?]).
    destruct (flag.get_string fs "base" != "").
    - apply shrinks_stops. unfold experiment_declared. cm_keeps.
    - apply bind_stops; [apply ckeeps_get, _|intros start].
      apply bind_stops; [apply captureBuild_keeps, _|intros snap].
      apply bind_stops; [apply ckeeps_get, _|intros elapsed]. apply experiment_built_stops. }
  intros s res s'. unfold cwrap. intros ([[a|e] s1] & E%Hb & Hr)%bind_Some; by injection Hr as _ <-.
Qed.

Lemma RunExperiment_keeps stdin args : ckeeps stops (RunExperiment stdin args).
Proof using All.
  intros s res s'. unfold RunExperiment, cbind. intros ([[a|e] s1] & E%experiment_keeps & Hr)%bind_Some.
  - unfold cguard, clift in Hr. by injection Hr as _ <-.
  - by injection Hr as _ <-.
Qed.
End stops.

(** ** What a validated experiment ran *)

Lemma cguard_Ok bad text u s s' : cguard bad text s = Some (Ok u, s') → bad = false ∧ s' = s.
Proof. unfold cguard. intros [Hg ->]%clift_Ok. by apply guard_err_ok in Hg. Qed.

Lemma git_ok_Ok {A} (m : CM (result gitrun.Error A)) a s s' :
  git_ok m s = Some (Ok a, s') → m s = Some (Ok (Ok a), s').
Proof. unfold git_ok. intros ([b|e] & s1 & Hm & Hr)%cbind_Ok; [|done]. by injection Hr as <- <-. Qed.

Lemma cgit_Ok {A} (m : gitrun.GM A) r s s' :
  cgit m s = Some (Ok r, s') → ∃ w, m (s_world s) = (r, w) ∧ s' = set_world w s.
Proof. unfold cgit. destruct (m _) as [r' w]. intros [= <- <-]. by eexists. Qed.

(** The diff of a captured build is the one git gives between its two commits. *)
Lemma captureBuild_diff stdin path dir s snap s' :
  captureBuild host stdin path dir s = Some (Ok snap, s') →
  checkDiffBytes (Sn_Diff snap) = Ok tt ∧
  ∃ w w', gitrun.DiffTrees (h_environ host) (Sn_Repo snap) (Rev_Commit (Sn_Baseline snap))
            (Rev_Commit (Sn_Patch snap)) w = (Ok (Sn_Diff snap), w').
Proof.
  unfold captureBuild. intros (t & s1 & _ & Hc)%cbind_Ok. apply cbind_Ok in Hc as (ro & s2 & _ & Hc).
  apply cbind_Ok in Hc as (r & s3 & _ & Hc). apply cbind_Ok in Hc as (base & s4 & _ & Hc).
  apply cbind_Ok in Hc as (patch & s5 & _ & Hc).
  apply cbind_Ok in Hc as (d & s6 & (w & Hd & ->)%git_ok_Ok%cgit_Ok & Hc).
  apply cbind_Ok in Hc as ([] & s7 & [Hb _]%clift_Ok & Hc). apply cbind_Ok in Hc as ([] & s8 & _ & Hc).
  apply cbind_Ok in Hc as ([] & s9 & _ & [= <- <-]). split; [done|]. by eexists _, _.
Qed.

Lemma declaredRevisions_source dir s brev prev err s' :
  declaredRevisions host dir s = Some (Ok (brev, prev, err), s') → Rev_Source brev ≠ SourceBuilt.
Proof.
  unfold declaredRevisions. intros ([r|e] & s1 & _ & Hr)%cbind_Ok; [|by injection Hr as <- _ _ _].
  apply cbind_Ok in Hr as ([base|e] & s2 & (w & Hh & ->)%cgit_Ok & Hr); [|by injection Hr as <- _ _ _].
  assert (Rev_Source base = SourceDeclared) as Hs.
  { revert Hh. unfold gitrun.Head, gitrun.gtry. destruct (gitrun.run_ok _ _ _ _ _ _) as [[c|e] w1]; [|done].
    by intros (tree & w2 & _ & [= <- _])%gitrun.gbind_Ok. }
  apply cbind_Ok in Hr as ([patch|e] & s3 & _ & Hr); injection Hr as <- _ _ _; by rewrite Hs.
Qed.

Lemma experiment_run_Ok fs rep dag w base patch brev prev s art s' :
  experiment_run fs rep dag w base patch brev prev s = Some (Ok art, s') →
  ∃ world ev clock now service, plan.Execute world dag base patch w = Ok ev ∧
    art = evidence.Build clock (evidence.MkInput brev prev now base patch service w rep dag ev).
Proof.
  unfold experiment_run. intros ([] & s1 & _ & Hr)%cbind_Ok. apply cbind_Ok in Hr as (world & s2 & _ & Hr).
  destruct (plan.Execute world dag base patch w) as [ev|e] eqn:E; [|done].
  apply cbind_Ok in Hr as (now & s3 & _ & Hr). cbv zeta in Hr.
  apply cbind_Ok in Hr as ([] & s4 & _ & Hr). apply cbind_Ok in Hr as ([] & s5 & _ & Hr).
  apply cbind_Ok in Hr as ([] & s6 & _ & [= <- <-]). by eexists _, _, _, _, _.
Qed.

(** Validated evidence needs revisions that were built. *)
Lemma Build_validated_policy clock inp :
  evidence.A_Validated (evidence.Build clock inp) = true →
  validate.policy_ok (evidence.decision_input (evidence.Build clock inp)).
Proof. intros Hv. by apply validate.no_blocker_policy, validate.Decide_validated_blockers. Qed.

(** What stands behind validated evidence: the pair [env], prepared from the
    captured [snap] and started, was exercised with [load] in [world]. *)
Record earned (stdin : Stdin) (fs : gmap string flag.Value) (path : string) (snap : buildSnapshot)
    (env : pair.Env) (world : plan.World) (load : replay.Workload) (s : Sys) (art : evidence.Artifact)
    (s' : Sys) : Prop := {
  er_gateways : flag.get_string fs "base" = "" ∧ flag.get_string fs "patch" = "";
  er_pair : ∃ s1 s2 s3 s4 rep dag,
    captureBuild host stdin path (flag.get_string fs "shop") s = Some (Ok snap, s1) ∧
    experiment_inputs fs (flag.get_string fs "shop") (Sn_Diff snap) s1 = Some (Ok (rep, dag, load), s2) ∧
    preparePair (prepare_opts fs snap) s2 = Some (Ok env, s3) ∧ startPair env s3 = Some (Ok tt, s4) ∧
    evidence.A_Plan art = plan.WithLocalEnv dag ∧ evidence.A_Impact art = evidence.summarizeImpact rep;
  er_diff : ∃ w w', gitrun.DiffTrees (h_environ host) (Sn_Repo snap) (Rev_Commit (evidence.A_BaselineRev art))
              (Rev_Commit (evidence.A_PatchRev art)) w = (Ok (Sn_Diff snap), w');
  er_revisions : evidence.A_BaselineRev art = built (Sn_Baseline snap) ∧
    evidence.A_PatchRev art = built (Sn_Patch snap) ∧ Rev_Tree (Sn_Baseline snap) ≠ Rev_Tree (Sn_Patch snap) ∧
    Rev_Dirty (Sn_Baseline snap) = false;
  er_targets : evidence.A_Baseline art = gatewayURL (pair.S_Gateway (pair.Env_Baseline env)) ∧
    evidence.A_Patch art = gatewayURL (pair.S_Gateway (pair.Env_Patch env));
  er_healthy : replay.HealthzPath (plan.W_probe world) (evidence.A_Baseline art) (evidence.A_Patch art)
    (plan.DAG_HealthPath (evidence.A_Plan art)) = Ok tt;
  er_agree : let n := (plan.replayRepeats (evidence.A_Plan art)).1 in
    let run ph target := replay.Repeat (plan.Ph_ctx ph) (plan.Ph_exchange ph) target load n in
    ∃ b bs p ps, run (plan.W_base world) (evidence.A_Baseline art) = Ok (b :: bs) ∧
      run (plan.W_patch world) (evidence.A_Patch art) = Ok (p :: ps) ∧
      Forall2 replay.obs_match (replay.Result_Steps b) (replay.Result_Steps p);
  er_exercised route : route ∈ validate.In_Impacted (evidence.decision_input art) →
    validate.exercised (evidence.decision_input art) route;
  er_stopped : ∃ t d down, pairs.Down wd t env d = (down, s_docker s');
}.

Lemma experiment_built_earned stdin fs path elapsed snap s s1 art s' :
  flag.get_string fs "base" = "" → flag.get_string fs "patch" = "" →
  captureBuild host stdin path (flag.get_string fs "shop") s = Some (Ok snap, s1) →
  experiment_built fs elapsed snap s1 = Some (Ok art, s') → evidence.A_Validated art = true →
  ∃ env world load, earned stdin fs path snap env world load s art s'.
Proof.
  intros Hb Hpa Hsnap He Hv. apply cbind_Ok in He as ([[rep dag] load] & s2 & Hin & He).
  apply cbind_Ok in He as (env & s3 & Hprep & He). unfold with_pair in He.
  apply bind_Some in He as ([res s4] & Hrun & He). destruct (pairs.Down _ _ _ _) as [down d] eqn:Hdown.
  injection He as -> <-. apply cbind_Ok in Hrun as ([] & s5 & Hstart & Hrun). cbv zeta in Hrun.
  apply cbind_Ok in Hrun as ([] & s6 & _ & Hrun).
  apply experiment_run_Ok in Hrun as (world & ev & clock & now & svc & Hex & ->).
  pose proof (Build_validated_policy _ _ Hv) as P.
  destruct (captureBuild_diff _ _ _ _ _ _ Hsnap) as (_ & g & g' & Hdiff).
  destruct (validate.validated_execution world (evidence.decision_input (evidence.Build clock
    (evidence.MkInput (built (Sn_Baseline snap)) (built (Sn_Patch snap)) now
      (gatewayURL (pair.S_Gateway (pair.Env_Baseline env))) (gatewayURL (pair.S_Gateway (pair.Env_Patch env)))
      svc load rep (plan.WithLocalEnv dag) ev))) _ _ load Hex) as (Ht & Hh & Ha & Hx); [done|].
  exists env, world, load. split; [done|eexists _, _, _, _, rep, dag; by split_and!|by eexists _, _| |done..|by eexists _, _, _].
  split_and!; [done..|exact (validate.po_clean _ P)].
Qed.

(** C34: an experiment whose evidence is validated was earned by builds that Aquila
    made itself: no gateway was given; the baseline and the patch are the two
    revisions of the captured snapshot, with different trees; the diff that was
    analyzed is git's between exactly their commits; the gateways are those of the
    pair prepared from these revisions, which came up; both answered the health
    probe, the replays agree request by request, every impacted route was
    exercised; and the pair was stopped at the end. *)
Theorem experiment_validated stdin args s art s' :
  experiment stdin args s = Some (Ok art, s') → evidence.A_Validated art = true →
  ∃ fs rest path snap env world load,
    flag.Parse (experiment_flags (h_environ host)) args = Ok (fs, rest) ∧
    diffPath (flag.get_string fs "f") rest = Ok path ∧ earned stdin fs path snap env world load s art s'.
Proof.
  intros He%cwrap_Ok Hv. apply cbind_Ok in He as ([fs rest] & s0 & [Hp ->]%clift_Ok & He). cbn [fst snd] in He.
  unfold experiment_body in He. apply cbind_Ok in He as ([] & s1 & [Hsame ->]%cguard_Ok & He).
  apply cbind_Ok in He as (t & s1 & [-> ->]%cget_Ok & He). apply cbind_Ok in He as ([] & s1 & [_ ->]%cguard_Ok & He).
  apply cbind_Ok in He as ([] & s1 & [_ ->]%cguard_Ok & He).
  apply cbind_Ok in He as (path & s1 & [Hpath ->]%clift_Ok & He). destruct (flag.get_string fs "base" != "") eqn:Hb.
  - apply cbind_Ok in He as (ro & s1 & _ & He). unfold experiment_declared in He.
    apply cbind_Ok in He as ([[rep dag] w] & s2 & _ & He).
    apply cbind_Ok in He as ([[brev prev] err] & s3 & Hrev%declaredRevisions_source & He).
    apply cbind_Ok in He as ([] & s4 & _ & He).
    apply experiment_run_Ok in He as (world & ev & clock & now & svc & _ & ->).
    by destruct (validate.po_base_built _ (Build_validated_policy _ _ Hv)).
  - apply cbind_Ok in He as (start & s1 & [-> ->]%cget_Ok & He).
    apply cbind_Ok in He as (snap & s1 & Hsnap & He). apply cbind_Ok in He as (el & s2 & [-> ->]%cget_Ok & He).
    apply negb_false_iff, eqb_prop, eq_sym in Hsame. go_inv.
    eapply experiment_built_earned in He as (env & world & load & He); [|done..].
    by exists fs, rest, path, snap, env, world, load.
Qed.

End experiment.
End experiments.
