(* ===== verification/Remote.v ===== *)
(** * The remote worker: [worker/server.go], [worker/auth.go], [cli/worker.go]

    The client's side of the worker service, and the command that runs it. A call carries the client's token; it
    is delivered, or dropped on the way, or its answer is lost. Messages are values:
    the JSON codec carries every field of them. *)

From S2P Require Import Prelude GoStrings GoText Flags Net Ingest Replay Impact Plan Validate Jobs JobStore Evidence GitRev Cli CliPrint Worker.
Import jobs worker.

Module remote.

#[global] Instance JobErr_eq_dec : EqDecision JobErr.
Proof. solve_decision. Defined.

(** ** Calls *)

Inductive Delivery :=
| Delivered
| Dropped (err : string)
| Lost (err : string).

Inductive RpcErr :=
| RCode (c : Code)
| RConn (err : string).

Definition code_result {A} (r : result Code A) : result RpcErr A :=
  match r with Ok a => Ok a | Err c => Err (RCode c) end.

Definition invoke {S A} (d : Delivery) (handler : S → result Code A * S) (s : S) : result RpcErr A * S :=
  match d with
  | Delivered => let '(r, s) := handler s in (code_result r, s)
  | Dropped err => (Err (RConn err), s)
  | Lost err => let '(_, s) := handler s in (Err (RConn err), s)
  end.

(** One call: its delivery, and the context, the clock and the random source of the
    server while it handles it. *)
Record CallEnv := MkCallEnv {
  Ce_net : Delivery;
  Ce_ctx : option string;
  Ce_now : Z;
  Ce_rand : N;
}.

(** [Dial]: the authorization that goes with every call. *)
Definition Dial (addr token : string) : result string (option string) :=
  if addr == "" then Err "worker: grpc addr required"
  else Ok (if token != "" then Some ("Bearer " +:+ token) else None).

(** The calls of a round; [Rm_execute] is the execution. *)
Record RemoteEnv := MkRemoteEnv {
  Rm_lease : CallEnv;
  Rm_beats : list CallEnv;
  Rm_execute : ExecEnv;
  Rm_commit : CallEnv;
}.

Inductive RemoteErr :=
| RNoReady
| RRpc (e : RpcErr).

Section calls.
  Context `{GoNet, GoJSON, GoSHA, action.ActionJSON} {S : Type} `{Store S}.
  Context (token : string) (auth : option string).

(** [tokenInterceptor] *)
Definition intercepted {T A} (handler : T → result Code A * T) (s : T) : result Code A * T :=
  if authorized token auth then handler s else (Err Unauthenticated, s).

Definition ClientLeaseSlots (c : CallEnv) (workerID : string) (slots : Z) (jobID : string) (store : option S)
    : result RpcErr LeaseReply * option S :=
  invoke (Ce_net c)
    (intercepted (grpc_Lease (Ce_ctx c) (Ce_rand c) (Ce_now c) (MkLeaseRequest workerID slots jobID))) store.

Definition ClientLease (c : CallEnv) (workerID : string) (store : option S)
    : result RpcErr LeaseReply * option S :=
  ClientLeaseSlots c workerID DefaultSlots "" store.

Definition ClientHeartbeat (c : CallEnv) (workerID taskID attempt : string) (store : option S)
    : result RpcErr () * option S :=
  invoke (Ce_net c) (intercepted (grpc_Heartbeat (Ce_ctx c) (Ce_now c) taskID attempt workerID)) store.

Definition ClientCommit (c : CallEnv) (taskID attempt : string) (res : plan.StepResult) (fail : string)
    (store : option S) : result RpcErr Task * option S :=
  invoke (Ce_net c) (intercepted (grpc_Commit (Ce_ctx c) taskID attempt res fail)) store.

Definition beats (workerID : string) (l : Lease) (cs : list CallEnv) (store : option S) : option S :=
  foldl (λ s c, (ClientHeartbeat c workerID (T_ID (L_Task l)) (L_Attempt l) s).2) store cs.

(** What is committed: after an error, what the task had before, as incomplete. *)
Definition remote_commit_of (l : Lease) (r : result WorkerErr plan.StepResult) : plan.StepResult * string :=
  match r with
  | Ok res => (res, "")
  | Err e =>
      let old := T_Result (L_Task l) in
      (plan.MkStepResult (T_PlanID (L_Task l)) (T_Kind (L_Task l)) "incomplete" (plan.SR_Notes old)
         (plan.SR_Latency old) (plan.SR_Steps old), worker_err_text e)
  end.

Definition RemoteOnceSlots (e : RemoteEnv) (workerID : string) (slots : Z) (jobID : string)
    (cache : option action.Cache) (store : option S) : result RemoteErr () * option action.Cache * option S :=
  match ClientLeaseSlots (Rm_lease e) workerID slots jobID store with
  | (Err err, store) => (Err (RRpc err), cache, store)
  | (Ok LeaseEmpty, store) => (Err RNoReady, cache, store)
  | (Ok (LeaseOf job task attempt n), store) =>
      let l := MkLease job task n 0 attempt in
      let store := beats workerID l (Rm_beats e) store in
      let '(r, cache) := ExecuteWith (Rm_execute e) l cache in
      let '(res, fail) := remote_commit_of l r in
      match ClientCommit (Rm_commit e) (T_ID task) attempt res fail store with
      | (Err err, store) => (Err (RRpc err), cache, store)
      | (Ok _, store) => (Ok tt, cache, store)
      end
  end.
Definition RemoteOnce (e : RemoteEnv) (workerID : string) (cache : option action.Cache) (store : option S)
    : result RemoteErr () * option action.Cache * option S :=
  RemoteOnceSlots e workerID DefaultSlots "" cache store.

(** ** A round over any store *)

Section correct.
  Context `{!LeaseStore S}.

(** The lease as the client sees it: without the fence. *)
Definition seen (l : Lease) : Lease := MkLease (L_Job l) (L_Task l) (L_N l) 0 (L_Attempt l).

Lemma grpc_Lease_inv ctx v now req (s : S) r st :
  grpc_Lease ctx v now req (Some s) = (r, st) →
  ∃ res s', Store_Lease ctx v (MkWorker (Lr_WorkerID req) (Lr_Slots req) (Lr_JobID req)) now s = (res, s') ∧
    st = Some s' ∧
    match res with
    | Ok l => r = Ok (LeaseOf (L_Job l) (L_Task l) (L_Attempt l) (L_N l))
    | Err err =>
        r = if bool_decide (err = ErrNoReady) || bool_decide (err = ErrCapacity) then Ok LeaseEmpty
            else Err (if bool_decide (err = ErrInvalidID) then InvalidArgument else Internal)
    end.
Proof.
  unfold grpc_Lease. destruct (Store_Lease _ _ _ _ s) as [[l|err] s'] eqn:E.
  - intros [= <- <-]. eauto.
  - destruct err; intros [= <- <-]; eexists _, s'; split_and!; done.
Qed.

Lemma grpc_Heartbeat_inv ctx now tid attempt wid (s : S) r st :
  grpc_Heartbeat ctx now tid attempt wid (Some s) = (r, st) →
  ∃ res s', Store_Heartbeat ctx tid attempt wid now s = (res, s') ∧ st = Some s'.
Proof.
  unfold grpc_Heartbeat. destruct (Store_Heartbeat _ _ _ _ _ s) as [[u|err] s'] eqn:E; [|destruct err];
    intros [= _ <-]; eauto.
Qed.

Lemma beats_holds wid l cs (s : S) :
  good s → holds s l → ∃ s', beats wid l cs (Some s) = Some s' ∧ good s' ∧ holds s' l.
Proof using All.
  unfold beats. revert s. induction cs as [|c cs IH]; intros s Hg Hh; [by exists s|]. cbn [foldl].
  assert (∃ s1, (ClientHeartbeat c wid (T_ID (L_Task l)) (L_Attempt l) (Some s)).2 = Some s1 ∧ good s1 ∧ holds s1 l)
    as (s1 & -> & Hg1 & Hh1); [|by apply IH].
  assert (∃ r s1, intercepted (grpc_Heartbeat (Ce_ctx c) (Ce_now c) (T_ID (L_Task l)) (L_Attempt l) wid) (Some s)
            = (r, Some s1) ∧ good s1 ∧ holds s1 l) as (r & s1 & Hs1 & ? & ?).
  { unfold intercepted. destruct (authorized token auth); [|by eexists _, s].
    destruct (grpc_Heartbeat _ _ _ _ _ _) as [r st] eqn:E.
    apply grpc_Heartbeat_inv in E as (res & s1 & E & ->).
    destruct (beat_holds _ _ _ _ _ _ _ _ l Hg E) as [??]. eauto 10. }
  unfold ClientHeartbeat, invoke. rewrite Hs1. destruct (Ce_net c); simpl; eauto.
Qed.

Lemma remote_verdict e l cache r cache' :
  ExecuteWith e l cache = (r, cache') →
  plan.SR_Verdict (remote_commit_of l r).1 ≠ "pass" ∧ plan.SR_Verdict (remote_commit_of l r).1 ≠ "validated".
Proof. intros He. destruct r; [by apply ExecuteWith_verdict in He|done]. Qed.

(** The task stored by a commit of the outcome [out] of an execution of [l]. *)
Record committed (s : S) (l : Lease) (out : result WorkerErr plan.StepResult) (t : Task) : Prop := {
  co_stored : has_task s t;
  co_id : T_ID t = T_ID (L_Task l);
  co_result : T_Result t = (remote_commit_of (seen l) out).1;
  co_err : T_Err t = (remote_commit_of (seen l) out).2;
  co_state : T_State t = (if T_Err t == "" then StateSucceeded else StateFailed);
}.

(** How a round ends, with its answer, and what it leaves in the store. *)
Inductive round_end (e : RemoteEnv) (w : Worker) (cache cache' : option action.Cache) (s : S)
  : result RemoteErr () → S → Prop :=
(** the server does not accept the token: nothing happens *)
| re_token err : authorized token auth = false → round_end e w cache cache' s (Err err) s
(** the call for a lease does not arrive: nothing happens *)
| re_dropped err :
    Ce_net (Rm_lease e) = Dropped err → round_end e w cache cache' s (Err (RRpc (RConn err))) s
(** its answer is lost: the lease may have been given, and nothing is committed *)
| re_lost err res s1 :
    Ce_net (Rm_lease e) = Lost err →
    Store_Lease (Ce_ctx (Rm_lease e)) (Ce_rand (Rm_lease e)) w (Ce_now (Rm_lease e)) s = (res, s1) →
    round_end e w cache cache' s (Err (RRpc (RConn err))) s1
(** there is no lease: nothing is committed *)
| re_none err err' s1 :
    Ce_net (Rm_lease e) = Delivered →
    Store_Lease (Ce_ctx (Rm_lease e)) (Ce_rand (Rm_lease e)) w (Ce_now (Rm_lease e)) s = (Err err', s1) →
    round_end e w cache cache' s (Err err) s1
(** the outcome of the execution is committed, unless the call for it does not arrive;
    the round succeeds when the answer arrives *)
| re_commit l s1 s2 out t s3 :
    Ce_net (Rm_lease e) = Delivered →
    Store_Lease (Ce_ctx (Rm_lease e)) (Ce_rand (Rm_lease e)) w (Ce_now (Rm_lease e)) s = (Ok l, s1) →
    beats (W_ID w) l (Rm_beats e) (Some s1) = Some s2 → holds s2 l →
    ExecuteWith (Rm_execute e) (seen l) cache = (out, cache') →
    Store_Commit None (T_ID (L_Task l)) (L_Attempt l) (remote_commit_of (seen l) out).1
      (remote_commit_of (seen l) out).2 s2 = (Ok t, s3) →
    committed s3 l out t →
    round_end e w cache cache' s
      (match Ce_net (Rm_commit e) with
       | Delivered => Ok tt | Dropped err | Lost err => Err (RRpc (RConn err)) end)
      (match Ce_net (Rm_commit e) with Dropped _ => s2 | Delivered | Lost _ => s3 end).

Lemma ClientCommit_held c l out (s : S) :
  authorized token auth = true → Ce_ctx c = None → good s → holds s l →
  (∃ e cache cache', ExecuteWith e (seen l) cache = (out, cache')) →
  ∃ t s3, Store_Commit None (T_ID (L_Task l)) (L_Attempt l) (remote_commit_of (seen l) out).1
            (remote_commit_of (seen l) out).2 s = (Ok t, s3) ∧ good s3 ∧ committed s3 l out t ∧
    ClientCommit c (T_ID (L_Task l)) (L_Attempt l) (remote_commit_of (seen l) out).1
      (remote_commit_of (seen l) out).2 (Some s) =
      (match Ce_net c with Delivered => Ok t | Dropped err | Lost err => Err (RConn err) end,
       Some (match Ce_net c with Dropped _ => s | Delivered | Lost _ => s3 end)).
Proof using All.
  intros Ha Hc Hg Hh (e & cache & cache' & He). destruct (remote_verdict _ _ _ _ _ He) as [Hv1 Hv2].
  destruct (commit_held s l _ (remote_commit_of (seen l) out).2 Hg Hh Hv1 Hv2)
    as (t & s3 & Hs & Hg3 & Ht & Hid & Hres & Hf & Hst).
  exists t, s3. split; [done|]. split; [done|]. split; [by split; rewrite ?Hf|].
  unfold ClientCommit, invoke, intercepted. rewrite Ha. unfold grpc_Commit. rewrite Hc, Hs.
  by destruct (Ce_net c).
Qed.

End correct.
End calls.

(** A token without space at its ends opens the service that wants it. *)
Lemma token_opens `{GoSHA} addr token auth :
  TrimSpace token = token → Dial addr token = Ok auth → authorized token auth = true.
Proof.
  unfold Dial, authorized. intros Ht. case_bool_decide; [done|]. intros [= <-].
  case_bool_decide as Hn; cbn [negb]; [done|]. rewrite TrimPrefix_app, Ht. by apply bool_decide_eq_true_2.
Qed.

(** ** [RunWorker] *)

(** One turn of the loop: the context's error when it starts, the round, and the
    context's error while it waits for the next one. *)
Record Turn := MkTurn { Tu_ctx : option string; Tu_round : RemoteEnv; Tu_wait : option string }.

Inductive WorkerStop :=
| StopCtx (err : string)
| StopUsage (err : string)
| StopRemote (err : RemoteErr)
| StopDone.

(** No [WorkerStop]: the worker still runs when the turns are over. *)
Record Ran (S : Type) := MkRan {
  Rn_stop : option WorkerStop;
  Rn_out : string;
  Rn_cache : option action.Cache;
  Rn_store : option S;
}.
Arguments MkRan {_}.
Arguments Rn_stop {_}.
Arguments Rn_out {_}.
Arguments Rn_cache {_}.
Arguments Rn_store {_}.

Definition envWorker (environ : list string) : string :=
  let v := TrimSpace (cli.Getenv environ "AQUILA_WORKER_URL") in if v != "" then v else "127.0.0.1:8091".

Definition worker_flags (environ : list string) : gmap string flag.Value :=
  list_to_map
    [("grpc", flag.VString (envWorker environ)); ("id", flag.VString "aquila-worker");
     ("slots", flag.VInt DefaultSlots); ("once", flag.VBool false); ("job", flag.VString "")].

Section worker.
  Context `{GoNet, GoJSON, GoSHA, action.ActionJSON} {S : Type} `{Store S} (token : string).

Fixpoint worker_loop (auth : option string) (id : string) (slots : Z) (jobID : string) (once : bool)
    (turns : list Turn) (out : string) (cache : option action.Cache) (store : option S) : Ran S :=
  match turns with
  | [] => MkRan None out cache store
  | t :: turns =>
      match Tu_ctx t with
      | Some e => MkRan (Some (StopCtx e)) out cache store
      | None =>
          match RemoteOnceSlots token auth (Tu_round t) id slots jobID cache store with
          | (Err RNoReady, cache, store) =>
              if once then MkRan (Some StopDone) (out +:+ print.line "worker   idle") cache store
              else match Tu_wait t with
                   | Some e => MkRan (Some (StopCtx e)) out cache store
                   | None => worker_loop auth id slots jobID once turns out cache store
                   end
          | (Err err, cache, store) => MkRan (Some (StopRemote err)) out cache store
          | (Ok _, cache, store) =>
              let out := out +:+ print.line ("worker   committed  id=" +:+ id) in
              if once then MkRan (Some StopDone) out cache store
              else worker_loop auth id slots jobID once turns out cache store
          end
      end
  end.

Definition RunWorker (environ : list string) (turns : list Turn) (args : list string)
    (cache : option action.Cache) (store : option S) : Ran S :=
  let refuse e := MkRan (Some (StopUsage ("cli: worker: " +:+ e))) "" cache store in
  match flag.Parse (worker_flags environ) args with
  | Err e => refuse e
  | Ok (fs, a :: _) => refuse ("unexpected argument " +:+ Quote a)
  | Ok (fs, []) =>
      let raw := flag.get_string fs "job" in
      match (if TrimSpace raw != "" then ParseID raw else Ok raw) with
      | Err _ => refuse "jobs: invalid job id"
      | Ok jobID =>
          match Dial (flag.get_string fs "grpc") (cli.envToken environ) with
          | Err e => refuse e
          | Ok auth =>
              worker_loop auth (flag.get_string fs "id") (flag.get_int fs "slots") jobID
                (flag.get_bool fs "once") turns "" cache store
          end
      end
  end.

(** With -once the first turn is the last. *)
Lemma worker_once auth id slots jobID t turns cache store :
  let r := worker_loop auth id slots jobID true (t :: turns) "" cache store in
  is_Some (Rn_stop r) ∧
  (Rn_stop r = Some StopDone →
   Rn_store r = (RemoteOnceSlots token auth (Tu_round t) id slots jobID cache store).2).
Proof.
  cbn [worker_loop]. destruct (Tu_ctx t); [done|].
  destruct (RemoteOnceSlots _ _ _ _ _ _ _ _) as [[[u|[|err]] c] st]; done.
Qed.
End worker.
End remote.
