(* ===== verification/Server.v ===== *)
(** * The server process: [cmd/server], [api/server.go], [worker/server.go], [worker/rpc.go], [observability], [storage], [cmd/sourceindex]

    [Module metrics]: the counters around the HTTP handlers. [Module grpc]: how the
    methods of the worker service are called. [Module control]: the listeners and the start of the process.
    [Module sourceindex]: the program that writes snapshots. *)

From S2P Require Import Prelude GoStrings GoText Duration Flags GoOS Diff Net Ingest Otlp Spans Source Graph Locate Replay Impact Plan Validate Jobs JobStore Evidence Runs Api Worker GitRev Load Cli CliPrint Config Remote.

(** ** [observability/metrics.go] *)

Module metrics.
Import api.

Record Metrics := MkMetrics {
  m_ingestSpans : Z;
  m_ingestRejected : Z;
  m_http2xx : Z;
  m_httpOther : Z;
}.
Definition NewMetrics : Metrics := MkMetrics 0 0 0 0.

(** [atomic.Int64.Add] wraps around. *)
Definition add64 (a b : Z) : Z := ((a + b + 2 ^ 63) `mod` 2 ^ 64 - 2 ^ 63)%Z.

Definition AddIngest (accepted rejected : Z) (m : Metrics) : Metrics :=
  MkMetrics (if (0 <? accepted)%Z then add64 (m_ingestSpans m) accepted else m_ingestSpans m)
    (if (0 <? rejected)%Z then add64 (m_ingestRejected m) rejected else m_ingestRejected m)
    (m_http2xx m) (m_httpOther m).

(** What [Wrap] counts after a request. *)
Definition count_status (code : Z) (m : Metrics) : Metrics :=
  if (200 <=? code)%Z && (code <=? 299)%Z
  then MkMetrics (m_ingestSpans m) (m_ingestRejected m) (add64 (m_http2xx m) 1) (m_httpOther m)
  else MkMetrics (m_ingestSpans m) (m_ingestRejected m) (m_http2xx m) (add64 (m_httpOther m) 1).

Definition writeMetric (name help kind : string) (v : Z) : string :=
  "# HELP " +:+ name +:+ " " +:+ help +:+ String nl "" +:+
  "# TYPE " +:+ name +:+ " " +:+ kind +:+ String nl "" +:+
  name +:+ " " +:+ Itoa v +:+ String nl "".
Definition writeCounter (name help : string) (v : Z) : string := writeMetric name help "counter" v.
Definition writeGauge (name help : string) (v : Z) : string := writeMetric name help "gauge" v.

(** The text of [GET /metrics]. *)
Definition exposition (m : Metrics) : string :=
  writeGauge "aquila_up" "Aquila process is serving" 1 +:+
  writeCounter "aquila_ingest_spans_total" "Normalized spans stored" (m_ingestSpans m) +:+
  writeCounter "aquila_ingest_rejected_spans_total" "Spans dropped during normalize" (m_ingestRejected m) +:+
  writeCounter "aquila_http_requests_2xx_total" "HTTP responses 2xx" (m_http2xx m) +:+
  writeCounter "aquila_http_requests_other_total" "HTTP responses not 2xx" (m_httpOther m).

Section metered.
  Context `{GoNet, GoSHA, evidence.EvidenceJSON, otlp.GoOTLP, ApiCodec}.
  Context {S R J : Type} `{SpanStore S, runs.RunStore R, Store J}.

(** The spans of an export that is accepted. *)
Definition exported (req : Request) : list ingest.Span :=
  match readOTLPBody req with
  | Err _ => []
  | Ok body =>
      match otlp.DecodeOTLP (Rq_Header req "Content-Type") body with
      | Err _ => []
      | Ok e => otlp.Rp_Spans (otlp.NormalizeReport (Some e))
      end
  end.

(** One request: what is stored is counted by the handler, the status by [Wrap]. *)
Definition metered (m : Metrics) (env : JobEnv) (sv : Server S R J) (req : Request)
    : Response * Metrics * Server S R J :=
  let '(r, sv) := ServeHTTP env sv req in
  let m := match r with RAccepted rejected => AddIngest (Z.of_nat (length (exported req))) rejected m | _ => m end in
  (r, count_status (status_of r) m, sv).

Fixpoint metered_all (m : Metrics) (reqs : list (JobEnv * Request)) (sv : Server S R J)
    : list Response * Metrics * Server S R J :=
  match reqs with
  | [] => ([], m, sv)
  | (env, req) :: reqs =>
      let '(r, m, sv) := metered m env sv req in
      let '(rs, m, sv) := metered_all m reqs sv in (r :: rs, m, sv)
  end.

Definition is_2xx (r : Response) : bool := (200 <=? status_of r)%Z && (status_of r <=? 299)%Z.
Definition count (P : Response → bool) (rs : list Response) : Z := Z.of_nat (length (filter (λ r, P r = true) rs)).

Lemma add64_small a b : (0 ≤ a + b < 2 ^ 63)%Z → add64 a b = (a + b)%Z.
Proof using Type. intros Hb. unfold add64. rewrite Z.mod_small; lia. Qed.

Lemma AddIngest_http a r m : m_http2xx (AddIngest a r m) = m_http2xx m ∧ m_httpOther (AddIngest a r m) = m_httpOther m.
Proof using Type. done. Qed.

(** The counters of requests tell how many answers had a status from 200 to 299 and
    how many another one, while they fit into 63 bits. *)
Theorem metered_counts reqs m (sv : Server S R J) rs m' sv' :
  metered_all m reqs sv = (rs, m', sv') → (0 ≤ m_http2xx m)%Z → (0 ≤ m_httpOther m)%Z →
  (m_http2xx m + m_httpOther m + Z.of_nat (length reqs) < 2 ^ 63)%Z →
  m_http2xx m' = (m_http2xx m + count is_2xx rs)%Z ∧
  m_httpOther m' = (m_httpOther m + count (λ r, negb (is_2xx r)) rs)%Z ∧ length rs = length reqs.
Proof using Type.
  revert m sv rs. induction reqs as [|[env req] reqs IH]; intros m sv rs Hr Hs2 Hso Hsum.
  { injection Hr as <- <- <-. unfold count. simpl. lia. }
  cbn [metered_all] in Hr. destruct (metered m env sv req) as [[r m1] sv1] eqn:E1.
  destruct (metered_all m1 reqs sv1) as [[rs' m2] sv2] eqn:E2. injection Hr as <- <- <-.
  assert (m_http2xx m1 = m_http2xx m + (if is_2xx r then 1 else 0) ∧
          m_httpOther m1 = m_httpOther m + (if is_2xx r then 0 else 1))%Z as [Hm2 Hmo].
  { unfold metered in E1. destruct (ServeHTTP env sv req) as [r0 sv0]. injection E1 as -> <- _.
    cbn [length] in Hsum. rewrite Nat2Z.inj_succ in Hsum. unfold count_status. fold (is_2xx r).
    destruct r; destruct (is_2xx _); cbn -[add64]; rewrite ?add64_small; lia. }
  cbn [length] in Hsum. rewrite Nat2Z.inj_succ in Hsum.
  destruct (IH m1 sv1 rs' E2) as (I2 & Io & Il); [destruct (is_2xx r); lia..|].
  unfold count in *. rewrite !filter_cons. rewrite I2, Io, Hm2, Hmo. cbn [length].
  destruct (is_2xx r); simpl; rewrite ?decide_True, ?decide_False by done; cbn [length]; lia.
Qed.

Definition is_accepted (r : Response) : bool := match r with RAccepted _ => true | _ => false end.

Lemma dispatch_accepted env rt (sv : Server S R J) req :
  is_accepted (dispatch env rt sv req).1 = true → rt = RtTraces.
Proof using Type.
  destruct rt; cbn [dispatch fst]; try done.
  all: intros Hacc; exfalso; revert Hacc.
  all: unfold handleReadyz, handleVersion, handleListSpans, handleListAttaches, handleGraph, handleSource,
    handleSourceNeighbors, handleLocate, handleImpact, handleCreateRun, handleListRuns, handleGetRun, handleCreateJob,
    handleListJobs, handleGetJob, handleCancelJob, job_answer; cbv zeta.
  all: repeat first [done | case_match].
Qed.

(** What is counted as stored was stored: the counter of spans only moves with an
    export whose spans the store took, by their number. *)
Theorem metered_ingest m env (sv : Server S R J) req r m' sv' :
  metered m env sv req = (r, m', sv') →
  (m_ingestSpans m' = m_ingestSpans m ∧ m_ingestRejected m' = m_ingestRejected m) ∨
  ∃ st st', sv_spans sv = Some st ∧ SpanStore_UpsertSpans (Rq_Ctx req) (exported req) st = (Ok tt, st') ∧
    sv' = set_spans sv st' ∧
    (Z.of_nat (length (exported req)) + m_ingestSpans m < 2 ^ 63 → 0 ≤ m_ingestSpans m →
     m_ingestSpans m' = m_ingestSpans m + Z.of_nat (length (exported req)))%Z.
Proof using Type.
  unfold metered. destruct (ServeHTTP env sv req) as [r0 sv0] eqn:E. intros [= -> <- <-].
  destruct (is_accepted r) eqn:Ea; [|left; destruct r; try done; unfold count_status; by case_match].
  right. destruct r as [| | | | | | |rejected| | | | | | | | | |]; try done.
  assert (handleOTLPTraces sv req = (RAccepted rejected, sv0)) as Ht.
  { assert (serve_mux env sv req = (RAccepted rejected, sv0)) as Hm
      by (revert E; unfold ServeHTTP; repeat case_match; congruence).
    unfold serve_mux in Hm. destruct (find_route req) as [rt|e] eqn:Ef.
    - pose proof (dispatch_accepted env rt sv req) as Hd. rewrite Hm in Hd. by rewrite (Hd eq_refl) in Hm.
    - injection Hm as -> _. unfold find_route in Ef. by repeat case_match. }
  clear E Ea. unfold handleOTLPTraces in Ht. destruct (ingestAuthorized sv req); [|done]. cbn [negb] in Ht.
  destruct (sv_spans sv) as [st|] eqn:Es; [|done]. exists st. unfold exported.
  destruct (readOTLPBody req) as [body|[|]]; [|done..].
  destruct (otlp.DecodeOTLP _ _) as [ex|[]] eqn:Ed; [|done..]. cbv zeta in Ht.
  destruct (SpanStore_UpsertSpans _ _ st) as [[[]|err] st'] eqn:Eu; [|done]. injection Ht as _ <-.
  exists st'. split_and!; [done..|]. clear Eu.
  generalize (otlp.Rp_Spans (otlp.NormalizeReport (Some ex))). intros l Hsum Hpos. unfold count_status. cbn -[add64].
  destruct (Z.ltb_spec 0 (Z.of_nat (length l))); [|lia].
  rewrite add64_small; lia.
Qed.
End metered.

End metrics.

(** ** [worker/rpc.go]: calling the methods of the worker service *)

Module grpc.
Import worker.

(** The decoder of a method's request, then the interceptor, if there is one, around
    the method. *)
Definition unary {Req A T} (decoded : result Code Req)
    (interceptor : option ((T → result Code A * T) → T → result Code A * T))
    (method : Req → T → result Code A * T) (s : T) : result Code A * T :=
  match decoded with
  | Err e => (Err e, s)
  | Ok req =>
      match interceptor with
      | None => method req s
      | Some around => around (method req) s
      end
  end.

Record HeartbeatRequest := MkHeartbeatRequest { Hr_WorkerID : string; Hr_TaskID : string; Hr_Attempt : string }.
Record CommitRequest := MkCommitRequest {
  Cr_TaskID : string;
  Cr_Attempt : string;
  Cr_Result : plan.StepResult;
  Cr_Error : string;
}.

Section handlers.
  Context {S : Type} `{Store S}.

Definition leaseHandler (ctx : option string) (v : N) (now : Z) (dec : result Code LeaseRequest) interceptor
    : option S → result Code LeaseReply * option S :=
  unary dec interceptor (grpc_Lease ctx v now).
Definition heartbeatHandler (ctx : option string) (now : Z) (dec : result Code HeartbeatRequest) interceptor
    : option S → result Code () * option S :=
  unary dec interceptor (λ r, grpc_Heartbeat ctx now (Hr_TaskID r) (Hr_Attempt r) (Hr_WorkerID r)).
Definition commitHandler (ctx : option string) (dec : result Code CommitRequest) interceptor
    : option S → result Code jobs.Task * option S :=
  unary dec interceptor (λ r, grpc_Commit ctx (Cr_TaskID r) (Cr_Attempt r) (Cr_Result r) (Cr_Error r)).

(** The server always has an interceptor, the one for its token: a call without the
    token changes nothing, whatever its payload. *)
Theorem unary_unauthorized `{GoSHA} {Req A} token auth (dec : result Code Req)
    (method : Req → option S → result Code A * option S) s r s' :
  authorized token auth = false →
  unary dec (Some (remote.intercepted token auth)) method s = (r, s') → s' = s ∧ ∃ e, r = Err e.
Proof using Type.
  intros Ha. unfold unary, remote.intercepted. rewrite Ha. destruct dec; intros [= <- <-]; eauto.
Qed.
End handlers.

End grpc.

(** ** The process *)

Module control.
Import config api.

(** *** [storage/postgres.go] *)

(** What connecting to the database gives: reading the URL, opening the pool with its
    size, pinging it. *)
Record Connect := MkConnect {
  cn_parse : string → result string ();
  cn_pool : Z → result string ();
  cn_ping : option string;
}.
Definition Open (cn : Connect) (cfg : PostgresConfig) : result string () :=
  match cn_parse cn (Pc_URL cfg) with
  | Err e => Err ("parse postgres url: " +:+ e)
  | Ok _ =>
      match cn_pool cn (Pc_MaxConns cfg) with
      | Err e => Err ("connect postgres: " +:+ e)
      | Ok _ => match cn_ping cn with Some e => Err ("ping postgres: " +:+ e) | None => Ok tt end
      end
  end.

(** *** [observability/log.go]: the level and the format of the logger *)

Inductive Level := LevelDebug | LevelInfo | LevelWarn | LevelError.
Definition NewLoggerTo (cfg : LogConfig) : Level * bool :=
  let l := ToLower (Lc_Level cfg) in
  (if l == "debug" then LevelDebug else if l == "warn" then LevelWarn else if l == "error" then LevelError
   else LevelInfo, ToLower (Lc_Format cfg) == "text").

(** *** [api/server.go] *)

Record HttpServer := MkHttpServer {
  Hs_Addr : string;
  Hs_ReadHeaderTimeout : Z;
  Hs_ReadTimeout : Z;
  Hs_WriteTimeout : Z;
  Hs_IdleTimeout : Z;
  Hs_MaxHeaderBytes : Z;
}.
Definition positive_or (v def : Z) : Z := if (v <=? 0)%Z then def else v.
Definition http_server (cfg : Config) : HttpServer :=
  let s := C_Server cfg in
  MkHttpServer (Sc_Addr s) (5 * second) (positive_or (Sc_ReadTimeout s) DefaultReadTimeout)
    (positive_or (Sc_WriteTimeout s) DefaultWriteTimeout) (positive_or (Sc_IdleTimeout s) DefaultIdleTimeout)
    (Z.shiftl 8 10).

Definition NewServer {S R J} (cfg : Config) (ready : option (option string)) (version : string) (spans : option S)
    (src : option source.Graph) (rs : option R) (js : option J) : Server S R J :=
  MkServer (Sc_Token (C_Server cfg)) (Ic_Token (C_Ingest cfg)) ready version spans src rs js.

Inductive ServeErr := ErrServerClosed | ErrServe (msg : string).
Definition serve_err (e : ServeErr) : option string := match e with ErrServerClosed => None | ErrServe m => Some m end.

(** How serving ends: the listener fails, or the context is canceled and the server is
    shut down. *)
Inductive Ended :=
| Failed (e : ServeErr)
| Canceled (shutdown : option string) (e : ServeErr).

(** *** [worker/server.go] *)

Definition worker_Listen (listen : string → result string ()) (addr : string) : result string () :=
  if addr == "" then Err "worker: listen addr required"
  else match listen addr with Err e => Err ("worker: " +:+ e) | Ok _ => Ok tt end.
(** [Serve] until the context is canceled or the server fails; [None] is a nil listener. *)
Definition worker_Serve (ln : option ()) (ended : option string) : option string :=
  match ln with
  | None => Some "worker: listener required"
  | Some _ => ended
  end.
Definition worker_ListenAndServe (listen : string → result string ()) (addr : string) (ended : option string)
    : option string :=
  match worker_Listen listen addr with Err e => Some e | Ok _ => worker_Serve (Some tt) ended end.

(** The error of [ListenAndServe]. *)
Definition ListenAndServe (cfg : Config) (jobs : bool) (listen : string → result string ()) (ended : Ended)
    : option string :=
  let serve :=
    match ended with
    | Failed e => serve_err e
    | Canceled (Some e) _ => Some e
    | Canceled None e => serve_err e
    end in
  let addr := Wc_Addr (C_Worker cfg) in
  if jobs && (addr != "") then
    match worker_Listen listen addr with Err e => Some e | Ok _ => serve end
  else serve.

(** *** [cmd/server/main.go] *)

Section main.
  Context `{GoYAML} `{load.GoPackages} `{load.SnapshotJSON} (environ : list string) (cwd : string) (t : os.tree)
    (cn : Connect) (listen : string → result string ()) (ended : Ended).

(** The exit status, and the configuration with the source graph when the server was
    started. *)
Definition main : Z * option (Config * option source.Graph) :=
  match config.Load environ cwd t with
  | Err _ => (1%Z, None)
  | Ok cfg =>
      match Open cn (C_Postgres cfg) with
      | Err _ => (1%Z, None)
      | Ok _ =>
          match load.Open cwd environ None t (So_Dir (C_Source cfg)) (So_Snapshot (C_Source cfg)) with
          | Err _ => (1%Z, None)
          | Ok src =>
              (match ListenAndServe cfg true listen ended with Some _ => 1%Z | None => 0%Z end, Some (cfg, src))
          end
      end
  end.

(** A server is only started with a configuration that passed the checks; a token in
    the environment is the one it asks for; its timeouts are those of the configuration. *)
Theorem main_checked status cfg src :
  main = (status, Some (cfg, src)) →
  config_ok cfg ∧ cn_ping cn = None ∧
  (∀ token, token = cli.Getenv environ "AQUILA_API_TOKEN" → token ≠ "" →
   ∀ S R J ready version (spans : option S) (rs : option R) (js : option J),
     sv_token (NewServer cfg ready version spans src rs js) = token) ∧
  http_server cfg =
    MkHttpServer (Sc_Addr (C_Server cfg)) (5 * second) (Sc_ReadTimeout (C_Server cfg)) (Sc_WriteTimeout (C_Server cfg))
      (Sc_IdleTimeout (C_Server cfg)) (Z.shiftl 8 10).
Proof using Type.
  unfold main. destruct (config.Load environ cwd t) as [c|] eqn:Ec; [|done].
  destruct (Open cn (C_Postgres c)) as [[]|] eqn:Eo; [|done].
  destruct (load.Open _ _ _ _ _ _) as [g|]; [|done]. intros [= _ -> ->].
  apply LoadFrom_ok in Ec as (Hok & Ht & _). split; [done|]. split.
  { unfold Open in Eo. repeat case_match; done. }
  split; [intros token Htok Hne *; by apply Ht|]. destruct Hok as [_ (_ & Hr & Hw & Hi & _) _ _ _].
  unfold http_server, positive_or. by rewrite !(proj2 (Z.leb_gt _ _)) by done.
Qed.

(** The process ends with status 0 only when the server was shut down; a worker port that
    cannot be bound ends it at once, whatever the HTTP server would do. *)
Theorem main_exits status started :
  main = (status, started) →
  (status = 0%Z →
     (∃ addr, listen addr = Ok tt) ∧ (ended = Failed ErrServerClosed ∨ ended = Canceled None ErrServerClosed)) ∧
  ((∀ addr, ∃ e, listen addr = Err e) → status = 1%Z).
Proof using Type.
  unfold main. destruct (config.Load environ cwd t) as [c|] eqn:Ec; [|by intros [= <- <-]].
  destruct (Open cn (C_Postgres c)) as [[]|]; [|by intros [= <- <-]].
  destruct (load.Open _ _ _ _ _ _) as [g|]; [|by intros [= <- <-]].
  apply LoadFrom_ok in Ec as ([(_ & Hw & _) _ _ _ _] & _).
  assert (Wc_Addr (C_Worker c) ≠ "") as Hne by (intros Heq; by rewrite Heq in Hw).
  unfold ListenAndServe, worker_Listen. rewrite bool_decide_eq_false_2 by done. cbn [negb andb].
  destruct (listen (Wc_Addr (C_Worker c))) as [[]|e] eqn:El.
  - intros [= <- <-]. split.
    + intros Hs. split; [by eexists|]. destruct ended as [[]|[] []]; simpl in Hs; try done; auto.
    + intros Hl. destruct (Hl (Wc_Addr (C_Worker c))) as [e He]. congruence.
  - intros [= <- <-]. by split.
Qed.
End main.
End control.

(** ** [cmd/sourceindex/main.go] *)

Module sourceindex.

Definition index_flags : gmap string flag.Value :=
  list_to_map [("dir", flag.VString ""); ("out", flag.VString ""); ("timeout", flag.VDuration 120000000000)].

Section main.
  Context `{load.GoPackages} `{load.SnapshotJSON} (environ : list string) (cwd : string).
  (** the context's error when its time is set to the given one *)
  Context (ctx : Z → option string).

(** The exit status and the files afterwards. *)
Definition main (args : list string) (t : os.tree) : Z * os.tree :=
  match flag.Parse index_flags args with
  | Err e => (if e == "flag: help requested" then 0%Z else 2%Z, t)
  | Ok (fs, _) =>
      let dir := flag.get_string fs "dir" in
      let out := flag.get_string fs "out" in
      if (dir == "") || (out == "") then (2%Z, t)
      else
        match load.Load environ (Some cwd) (ctx (flag.get_duration fs "timeout")) t dir with
        | Err _ => (1%Z, t)
        | Ok g =>
            match load.WriteFile cwd (Some g) out t with
            | Err _ => (1%Z, t)
            | Ok t => (0%Z, t)
            end
        end
  end.

(** A snapshot that was written gives the server the graph that was loaded. *)
Theorem index_then_open `{!load.SnapshotCodec} fs rest args t t' g raw environ' ctx' :
  flag.Parse index_flags args = Ok (fs, rest) →
  let out := flag.get_string fs "out" in
  main args t = (0%Z, t') →
  load.Load environ (Some cwd) (ctx (flag.get_duration fs "timeout")) t (flag.get_string fs "dir") = Ok g →
  TrimSpace (source.g_module g) ≠ "" → TrimSpace out = out →
  load.snapshot_to_json (source.Snapshot_ (Some g)) = Ok raw → (len raw ≤ load.maxSnapshotBytes)%Z →
  load.Open cwd environ' ctx' t' "" out = Ok (Some g).
Proof using Type.
  intros Hp out Hm Hl Hmod Hout Hj Hlen. unfold main in Hm. rewrite Hp in Hm. cbv zeta in Hm. fold out in Hm.
  destruct ((_ == "") || (out == "")) eqn:Ee; [done|]. rewrite Hl in Hm.
  destruct (load.WriteFile cwd (Some g) out t) as [t1|] eqn:Ew; [|done]. injection Hm as <-.
  apply orb_false_iff in Ee as [_ Hne]. unfold load.Open. cbn [TrimSpace]. rewrite Hout, Hne. cbn [negb].
  rewrite (load.snapshot_file_roundtrip _ _ _ _ _ _ _ _ Hl Hmod Ew); [done|]. intros raw' Hj'. congruence.
Qed.

(** Without both paths nothing is loaded or written. *)
Lemma index_needs_paths fs rest args t :
  flag.Parse index_flags args = Ok (fs, rest) → flag.get_string fs "dir" = "" ∨ flag.get_string fs "out" = "" →
  main args t = (2%Z, t).
Proof using Type.
  intros Hp Hd. unfold main. rewrite Hp. cbv zeta.
  assert ((flag.get_string fs "dir" == "") || (flag.get_string fs "out" == "") = true) as ->; [|done].
  apply orb_true_iff. rewrite !bool_decide_eq_true. done.
Qed.
End main.
End sourceindex.
