(* ===== verification/Shop.v ===== *)
(** * The demonstration shop: [examples/shop]

    The services whose behaviour an experiment compares: users, inventory, payment with
    its processor, notification, and the checkout that calls them. A table is a map, a
    statement an operation on it that may fail before or after it took effect
    ([Fault]); a call may be dropped or its answer lost ([Delivery]). Requests are what
    the JSON decoder gives, or [None]. *)

From S2P Require Import Prelude GoStrings GoText Net Ingest Replay Impact Plan Validate Jobs JobStore Evidence GitRev Flags Cli CliPrint Worker Remote.

Module shop.
Notation Delivery := remote.Delivery.
Notation Delivered := remote.Delivered.

Inductive Fault := Fine | Fails | Unsure.

(** The effect of a statement on a table, and whether it is reported to have worked. *)
Definition exec {T} (f : Fault) (effect : T → T) (t : T) : bool * T :=
  match f with Fine => (true, effect t) | Fails => (false, t) | Unsure => (false, effect t) end.

(** ** ids.go *)

Definition id_byte (a : ascii) : bool :=
  in_range 97 122 a || in_range 65 90 a || in_range 48 57 a || (a == byte 95) || (a == byte 45).
Definition Valid (s : string) : bool :=
  negb (s == "") && (len s <=? 64)%Z && forallb id_byte (bytes s).

(** ** svcclient/client.go: a call and whether it is an error *)

Definition post {T} (d : Delivery) (handler : T → Z * T) (t : T) : bool * T :=
  match d with
  | remote.Delivered => let '(status, t) := handler t in ((status <? 300)%Z, t)
  | remote.Dropped _ => (false, t)
  | remote.Lost _ => (false, (handler t).2)
  end.
Definition get {T A} (d : Delivery) (handler : T → result Z A) (t : T) : option A :=
  match d with
  | remote.Delivered => match handler t with Ok a => Some a | Err _ => None end
  | _ => None
  end.

(** ** inventory/handler.go *)

Record Item := MkItem { It_Name : string; It_PriceCents : Z; It_Stock : Z }.
Record Event := MkEvent { Ev_SKU : string; Ev_CheckoutID : string; Ev_Kind : string; Ev_Qty : Z }.
Record reserveReq := MkReserveReq { Rv_SKU : string; Rv_Qty : Z; Rv_CheckoutID : string }.

(** [lock] is the key [inventory:global]. *)
Record Inventory := MkInventory {
  i_items : gmap string Item;
  i_events : list Event;
  i_lock : option string;
}.
Definition set_items (s : Inventory) (m : gmap string Item) : Inventory := MkInventory m (i_events s) (i_lock s).
Definition set_events (s : Inventory) (l : list Event) : Inventory := MkInventory (i_items s) l (i_lock s).
Definition set_lock (s : Inventory) (l : option string) : Inventory := MkInventory (i_items s) (i_events s) l.

Definition max_int4 : Z := 2147483647.

Definition with_stock (it : Item) (n : Z) : Item := MkItem (It_Name it) (It_PriceCents it) n.

(** [UPDATE items SET stock = stock - $1 WHERE sku = $2 AND stock - $1 >= 0]: the row
    that is written. A number that does not fit the column is an error. *)
Inductive Updated := NoRow | OutOfRange | Row (it : Item).
Definition update_stock (delta : Z) (it : option Item) : Updated :=
  match it with
  | None => NoRow
  | Some it =>
      let n := (It_Stock it - delta)%Z in
      if (max_int4 <? n)%Z then OutOfRange else if (n <? 0)%Z then NoRow else Row (with_stock it n)
  end.

(** The commands and statements of one request; [None] is an error of the lock. *)
Record MutateEnv := MkMutateEnv {
  Mu_lock : bool;
  Mu_update : Fault;
  Mu_insert : Fault;
  Mu_unlock : bool;
}.

(** After the lock was taken. *)
Definition mutate_locked (e : MutateEnv) (kind : string) (req : reserveReq) (s : Inventory) : Z * Inventory :=
  let delta := if kind == "release" then (- Rv_Qty req)%Z else Rv_Qty req in
  match update_stock delta (i_items s !! Rv_SKU req) with
  | OutOfRange => (500%Z, s)
  | NoRow => match Mu_update e with Fine => (409%Z, s) | _ => (500%Z, s) end
  | Row it =>
      let '(ok, s) := exec (Mu_update e) (λ s, set_items s (<[Rv_SKU req := it]> (i_items s))) s in
      if negb ok then (500%Z, s)
      else
        let '(ok, s) := exec (Mu_insert e)
          (λ s, set_events s (i_events s ++ [MkEvent (Rv_SKU req) (Rv_CheckoutID req) kind (Rv_Qty req)])) s in
        (if ok then 200%Z else 500%Z, s)
  end.

Definition mutate (e : MutateEnv) (kind : string) (req : option reserveReq) (s : Inventory) : Z * Inventory :=
  match req with
  | None => (400%Z, s)
  | Some r =>
      if negb (Valid (Rv_SKU r)) || negb (Valid (Rv_CheckoutID r)) || (Rv_Qty r <? 1)%Z || (20 <? Rv_Qty r)%Z
      then (400%Z, s)
      else if negb (Mu_lock e) then (503%Z, s)
      else match i_lock s with
           | Some _ => (409%Z, s)
           | None =>
               let '(status, s) := mutate_locked e kind r (set_lock s (Some (Rv_CheckoutID r))) in
               (status, if Mu_unlock e then set_lock s None else s)
           end
  end.
Definition reserve (e : MutateEnv) : option reserveReq → Inventory → Z * Inventory := mutate e "reserve".
Definition release (e : MutateEnv) : option reserveReq → Inventory → Z * Inventory := mutate e "release".

Definition loadItem (readable : bool) (sku : string) (s : Inventory) : result bool Item :=
  if negb readable then Err false else match i_items s !! sku with Some it => Ok it | None => Err true end.
Definition getItem (readable : bool) (sku : string) (s : Inventory) : result Z Item :=
  if negb (Valid sku) then Err 400%Z
  else match loadItem readable sku s with
       | Ok it => Ok it
       | Err true => Err 404%Z
       | Err false => Err 500%Z
       end.

(** ** processor/handler.go *)

Record chargeReq := MkChargeReq { Ch_CheckoutID : string; Ch_AmountCents : Z }.

(** What the processor approved. *)
Definition charge (canceled : bool) (req : option chargeReq) (approved : list chargeReq) : Z * list chargeReq :=
  match req with
  | None => (400%Z, approved)
  | Some r =>
      if negb (Valid (Ch_CheckoutID r)) || (Ch_AmountCents r <=? 0)%Z || (10000000 <? Ch_AmountCents r)%Z
      then (400%Z, approved)
      else if canceled then (504%Z, approved)
      else (200%Z, approved ++ [r])
  end.

(** ** payment/handler.go *)

Record paymentRow := MkPaymentRow { Py_ID : string; Py_User : string; Py_Status : string; Py_Amount : Z }.
Record authorizeReq := MkAuthorizeReq { Au_UserID : string; Au_CheckoutID : string; Au_AmountCents : Z }.

(** The table by checkout, which is unique, and the processor. *)
Record Payments := MkPayments { p_rows : gmap string paymentRow; p_approved : list chargeReq }.
Definition set_rows (s : Payments) (m : gmap string paymentRow) : Payments := MkPayments m (p_approved s).

(** [Az_rival] is a row that another request inserts after the first look. *)
Record AuthorizeEnv := MkAuthorizeEnv {
  Az_read : bool;
  Az_rival : option paymentRow;
  Az_id : string;
  Az_insert : Fault;
  Az_read_again : bool;
  Az_charge : Delivery;
  Az_charge_canceled : bool;
  Az_delete : Fault;
  Az_update : Fault;
}.

Definition replayOrConflict (existing : paymentRow) (amount : Z) : Z :=
  if Py_Status existing == "authorized" then if (Py_Amount existing =? amount)%Z then 200 else 409 else 409.

Definition chargeProcessor (e : AuthorizeEnv) (r : authorizeReq) (s : Payments) : bool * Payments :=
  let '(ok, approved) := post (Az_charge e)
    (charge (Az_charge_canceled e) (Some (MkChargeReq (Au_CheckoutID r) (Au_AmountCents r)))) (p_approved s) in
  (ok, MkPayments (p_rows s) approved).

Definition delete_pending (id : string) (s : Payments) : Payments :=
  match p_rows s !! id with
  | Some row => if Py_Status row == "pending" then set_rows s (delete id (p_rows s)) else s
  | None => s
  end.
Definition authorize_pending (id : string) (s : Payments) : Payments :=
  match p_rows s !! id with
  | Some row =>
      if Py_Status row == "pending"
      then set_rows s (<[id := MkPaymentRow (Py_ID row) (Py_User row) "authorized" (Py_Amount row)]> (p_rows s)) else s
  | None => s
  end.

Definition authorize (e : AuthorizeEnv) (req : option authorizeReq) (s : Payments) : Z * Payments :=
  match req with
  | None => (400%Z, s)
  | Some r =>
      let id := Au_CheckoutID r in
      if negb (Valid (Au_UserID r)) || negb (Valid id) || (Au_AmountCents r <=? 0)%Z || (10000000 <? Au_AmountCents r)%Z
      then (400%Z, s)
      else if negb (Az_read e) then (500%Z, s)
      else
        match p_rows s !! id with
        | Some row => (replayOrConflict row (Au_AmountCents r), s)
        | None =>
            let s := match Az_rival e with Some row => set_rows s (<[id := row]> (p_rows s)) | None => s end in
            match p_rows s !! id, Az_insert e with
            | Some row, Fine =>
                (if Az_read_again e then replayOrConflict row (Au_AmountCents r) else 409%Z, s)
            | Some _, _ => (500%Z, s)
            | None, f =>
                let '(ok, s) := exec f
                  (λ s, set_rows s (<[id := MkPaymentRow (Az_id e) (Au_UserID r) "pending" (Au_AmountCents r)]>
                                      (p_rows s))) s in
                if negb ok then (500%Z, s)
                else
                  let '(ok, s) := chargeProcessor e r s in
                  if negb ok then (502%Z, (exec (Az_delete e) (delete_pending id) s).2)
                  else
                    let '(ok, s) := exec (Az_update e) (authorize_pending id) s in
                    (if ok then 200%Z else 500%Z, s)
            end
        end
  end.

(** ** users and notification *)

Record Address := MkAddress { Ad_ID : string; Ad_UserID : string; Ad_Line1 : string; Ad_City : string }.
Record User := MkUser { Us_ID : string; Us_Email : string; Us_Name : string; Us_Addresses : list Address }.

(** The tables of users (with email and name) and of addresses, in scan order. *)
Record Users := MkUsers { u_users : gmap string (string * string); u_addresses : list Address }.

(** [GetUser]: one query for the user, one for the ids of the addresses, one for each. *)
Definition GetUser (u : Users) (id : string) : option User :=
  match u_users u !! id with
  | None => None
  | Some (email, name) =>
      let ids := Ad_ID <$> filter (λ a, Ad_UserID a = id) (u_addresses u) in
      rows ← mapM (λ aid, head (filter (λ a, Ad_ID a = aid) (u_addresses u))) ids;
      Some (MkUser id email name rows)
  end.
(** [readable]: the database answers. *)
Definition getUser (readable : bool) (id : string) (u : Users) : result Z User :=
  if negb (Valid id) then Err 400%Z
  else if negb readable then Err 500%Z
  else match u_users u !! id with
       | None => Err 404%Z
       | Some _ => match GetUser u id with Some x => Ok x | None => Err 500%Z end
       end.

Record notifyReq := MkNotifyReq { Nt_UserID : string; Nt_CheckoutID : string; Nt_Kind : string }.
Definition notify (canceled : bool) (req : option notifyReq) (sent : list notifyReq) : Z * list notifyReq :=
  match req with
  | None => (400%Z, sent)
  | Some r =>
      if negb (Valid (Nt_UserID r)) || negb (Valid (Nt_CheckoutID r)) || (Nt_Kind r != "order_confirmed")
      then (400%Z, sent)
      else if canceled then (504%Z, sent) else (200%Z, sent ++ [r])
  end.

(** ** checkout/handler.go *)

Record itemReq := MkItemReq { Iq_SKU : string; Iq_Qty : Z }.
Record checkoutReq := MkCheckoutReq { Cq_UserID : string; Cq_Items : list itemReq }.
Record reserved := MkReserved { rv_sku : string; rv_qty : Z; rv_price : Z }.
Record order := MkOrder { Or_User : string; Or_Status : string; Or_Total : Z; Or_Items : list reserved }.

Record Shop := MkShop {
  s_users : Users;
  s_inventory : Inventory;
  s_payments : Payments;
  s_orders : gmap string order;
  s_sent : list notifyReq;
}.
Definition set_inventory (s : Shop) (i : Inventory) : Shop :=
  MkShop (s_users s) i (s_payments s) (s_orders s) (s_sent s).
Definition set_payments (s : Shop) (p : Payments) : Shop :=
  MkShop (s_users s) (s_inventory s) p (s_orders s) (s_sent s).

(** One request for each item: the look at it and the reservation. *)
Record ItemEnv := MkItemEnv { Ie_get : Delivery; Ie_readable : bool; Ie_reserve : Delivery; Ie_mutate : MutateEnv }.
(** The environment of a checkout: its calls by position. *)
Record CheckoutEnv := MkCheckoutEnv {
  Ce_user : Delivery;
  Ce_user_readable : bool;
  Ce_id : string;
  Ce_item : nat → ItemEnv;
  Ce_release : nat → Delivery * MutateEnv;
  Ce_pay : nat → Delivery * AuthorizeEnv;
  Ce_insert : Fault;
  Ce_insert_items : nat → Fault;
  Ce_notify : Delivery;
  Ce_notify_canceled : bool;
}.

Definition valid_item (it : itemReq) : bool := Valid (Iq_SKU it) && (1 <=? Iq_Qty it)%Z && (Iq_Qty it <=? 10)%Z.

(** The errors of the releases are ignored. *)
Fixpoint releaseAll (envs : nat → Delivery * MutateEnv) (n : nat) (id : string) (items : list reserved)
    (i : Inventory) : Inventory :=
  match items with
  | [] => i
  | it :: items =>
      let '(d, e) := envs n in
      releaseAll envs (S n) id items (post d (release e (Some (MkReserveReq (rv_sku it) (rv_qty it) id))) i).2
  end.

(** The loop over the items: what was reserved with the total, or the status of the
    error; then everything that was reserved is released. *)
Fixpoint reserve_items (e : CheckoutEnv) (n : nat) (items : list itemReq) (done : list reserved) (total : Z)
    (i : Inventory) : result Z (list reserved * Z) * Inventory :=
  match items with
  | [] => (Ok (done, total), i)
  | it :: items =>
      let ie := Ce_item e n in
      match get (Ie_get ie) (getItem (Ie_readable ie) (Iq_SKU it)) i with
      | None => (Err 502%Z, releaseAll (Ce_release e) 0 (Ce_id e) done i)
      | Some item =>
          let '(ok, i) := post (Ie_reserve ie)
            (reserve (Ie_mutate ie) (Some (MkReserveReq (Iq_SKU it) (Iq_Qty it) (Ce_id e)))) i in
          if negb ok then (Err 409%Z, releaseAll (Ce_release e) 0 (Ce_id e) done i)
          else reserve_items e (S n) items (done ++ [MkReserved (Iq_SKU it) (Iq_Qty it) (It_PriceCents item)])
                 (total + It_PriceCents item * Iq_Qty it) i
      end
  end.

(** Up to [n] attempts to pay, until one succeeds. *)
Fixpoint pay (envs : nat → Delivery * AuthorizeEnv) (k n : nat) (req : authorizeReq) (p : Payments)
    : bool * Payments :=
  match n with
  | O => (false, p)
  | S n =>
      let '(d, e) := envs k in
      let '(ok, p) := post d (authorize e (Some req)) p in
      if ok then (true, p) else pay envs (S k) n req p
  end.

(** The rows of [checkout_items] that could be written. *)
Definition written_items (envs : nat → Fault) (items : list reserved) : list reserved :=
  omap (λ '(n, it), match envs n with Fails => None | _ => Some it end) (zip (seq 0 (length items)) items).

Definition create (e : CheckoutEnv) (req : option checkoutReq) (s : Shop) : Z * Shop :=
  match req with
  | None => (400%Z, s)
  | Some r =>
      let id := Ce_id e in
      let n := Z.of_nat (length (Cq_Items r)) in
      if negb (Valid (Cq_UserID r)) || (n =? 0)%Z || (8 <? n)%Z then (400%Z, s)
      else if negb (forallb valid_item (Cq_Items r)) then (400%Z, s)
      else
        match get (Ce_user e) (getUser (Ce_user_readable e) (Cq_UserID r)) (s_users s) with
        | None => (502%Z, s)
        | Some _ =>
            match reserve_items e 0 (Cq_Items r) [] 0 (s_inventory s) with
            | (Err status, i) => (status, set_inventory s i)
            | (Ok (done, total), i) =>
                let '(paid, p) := pay (Ce_pay e) 0 5 (MkAuthorizeReq (Cq_UserID r) id total) (s_payments s) in
                let s := set_payments (set_inventory s i) p in
                if negb paid then (502%Z, set_inventory s (releaseAll (Ce_release e) 0 id done i))
                else
                  let o := MkOrder (Cq_UserID r) "confirmed" total (written_items (Ce_insert_items e) done) in
                  let f := if bool_decide (is_Some (s_orders s !! id)) then Fails else Ce_insert e in
                  let '(ok, orders) := exec f
                    (<[id := MkOrder (Cq_UserID r) "confirmed" total []]>) (s_orders s) in
                  if negb ok then
                    (500%Z, MkShop (s_users s) (s_inventory s) (s_payments s) orders (s_sent s))
                  else
                    let '(_, sent) := post (Ce_notify e)
                      (notify (Ce_notify_canceled e) (Some (MkNotifyReq (Cq_UserID r) id "order_confirmed"))) (s_sent s) in
                    (200%Z, MkShop (s_users s) (s_inventory s) (s_payments s) (<[id := o]> orders) sent)
            end
        end
  end.

(** [get] of a checkout, without its items. *)
Definition get_order (readable : bool) (id : string) (s : Shop) : result Z (string * string * Z) :=
  if negb (Valid id) then Err 400%Z
  else if negb readable then Err 404%Z
  else match s_orders s !! id with Some o => Ok (Or_User o, Or_Status o, Or_Total o) | None => Err 404%Z end.

(** ** Stock *)

(** The items with [d] taken from their stock. *)
Definition shift (d : string → Z) (m : gmap string Item) : gmap string Item :=
  map_imap (λ k it, Some (with_stock it (It_Stock it - d k))) m.
Definition qty_of (l : list reserved) (k : string) : Z :=
  foldr (λ it n, (if rv_sku it == k then rv_qty it else 0) + n)%Z 0%Z l.

Lemma lookup_shift d m k : shift d m !! k = (λ it, with_stock it (It_Stock it - d k)) <$> m !! k.
Proof. unfold shift. rewrite map_lookup_imap. by destruct (m !! k). Qed.
Lemma shift_ext d d' m : (∀ k, d k = d' k) → shift d m = shift d' m.
Proof. intros Hd. apply map_eq. intros k. by rewrite !lookup_shift, Hd. Qed.
Lemma shift_0 m : shift (λ _, 0%Z) m = m.
Proof.
  apply map_eq. intros k. rewrite lookup_shift. destruct (m !! k) as [[n p q]|]; [|done].
  simpl. unfold with_stock. simpl. by rewrite Z.sub_0_r.
Qed.
(** Writing one row of the shifted items. *)
Lemma shift_insert d q m k it :
  m !! k = Some it →
  <[k := with_stock it (It_Stock it - d k - q)]> (shift d m) = shift (λ j, if decide (j = k) then d j + q else d j)%Z m.
Proof.
  intros Hk. apply map_eq. intros j. rewrite lookup_shift. destruct (decide (j = k)) as [->|Hj].
  - rewrite lookup_insert_eq, Hk. simpl. do 2 f_equal. lia.
  - by rewrite lookup_insert_ne, lookup_shift by done.
Qed.

Definition fine (e : MutateEnv) : Prop := e = MkMutateEnv true Fine Fine true.
Definition stocked (m : gmap string Item) : Prop := ∀ k it, m !! k = Some it → (0 ≤ It_Stock it ≤ max_int4)%Z.

(** A request that is well formed. *)
Definition good_req (r : reserveReq) : Prop :=
  Valid (Rv_SKU r) = true ∧ Valid (Rv_CheckoutID r) = true ∧ (1 ≤ Rv_Qty r ≤ 20)%Z.

Lemma mutate_fine e kind r i :
  fine e → good_req r → i_lock i = None →
  mutate e kind (Some r) i =
  match update_stock (if kind == "release" then (- Rv_Qty r)%Z else Rv_Qty r) (i_items i !! Rv_SKU r) with
  | OutOfRange => (500%Z, i)
  | NoRow => (409%Z, i)
  | Row it =>
      (200%Z, MkInventory (<[Rv_SKU r := it]> (i_items i))
                (i_events i ++ [MkEvent (Rv_SKU r) (Rv_CheckoutID r) kind (Rv_Qty r)]) None)
  end.
Proof.
  intros -> (H1 & H2 & H3) Hl. unfold mutate. rewrite H1, H2, Hl.
  assert ((Rv_Qty r <? 1)%Z = false ∧ (20 <? Rv_Qty r)%Z = false) as [-> ->] by lia.
  cbn -[update_stock]. unfold mutate_locked. cbn -[update_stock]. destruct i as [m ev l]. simpl in Hl. subst l.
  cbn -[update_stock]. by destruct (update_stock _ _).
Qed.

(** *** Stock never becomes negative, whatever fails *)

Theorem mutate_stocked e kind req i status i' :
  mutate e kind req i = (status, i') → stocked (i_items i) → stocked (i_items i').
Proof.
  intros Hm Hs. unfold mutate in Hm. destruct req as [r|]; [|by injection Hm as _ <-].
  destruct (_ || _); [by injection Hm as _ <-|]. destruct (Mu_lock e); [|by injection Hm as _ <-].
  cbn [negb] in Hm. destruct (i_lock i); [by injection Hm as _ <-|].
  destruct (mutate_locked _ _ _ _) as [st i1] eqn:E. injection Hm as _ <-.
  enough (stocked (i_items i1)) by by destruct (Mu_unlock e). clear -E Hs. unfold mutate_locked in E. simpl in E.
  destruct (update_stock _ _) as [| |it] eqn:Eu; [destruct (Mu_update e); by injection E as _ <-|by injection E as _ <-|].
  assert (stocked (<[Rv_SKU r := it]> (i_items i))) as Hnew.
  { intros k it' Hk. destruct (decide (k = Rv_SKU r)) as [->|Hd].
    - rewrite lookup_insert_eq in Hk. injection Hk as <-. unfold update_stock in Eu.
      destruct (i_items i !! Rv_SKU r) as [old|]; [|done]. cbv zeta in Eu.
      destruct (Z.ltb_spec max_int4 (It_Stock old - (if kind == "release" then - Rv_Qty r else Rv_Qty r))); [done|].
      destruct (Z.ltb_spec (It_Stock old - (if kind == "release" then - Rv_Qty r else Rv_Qty r)) 0); [done|].
      injection Eu as <-. simpl. lia.
    - rewrite lookup_insert_ne in Hk by done. by eapply Hs. }
  destruct (Mu_update e); cbn in E; [|by injection E as _ <-|by injection E as _ <-].
  destruct (Mu_insert e); by injection E as _ <-.
Qed.

(** ** Without faults *)

#[global] Arguments qty_of : simpl never.
Lemma qty_of_cons it l k : qty_of (it :: l) k = ((if decide (k = rv_sku it) then rv_qty it else 0) + qty_of l k)%Z.
Proof. unfold qty_of. simpl. destruct (decide _) as [->|]; [by rewrite bool_decide_eq_true_2|]. by rewrite bool_decide_eq_false_2. Qed.
Lemma qty_of_app l l' k : qty_of (l ++ l') k = (qty_of l k + qty_of l' k)%Z.
Proof. induction l as [|it l IH]; [done|]. simpl. rewrite !qty_of_cons, IH. lia. Qed.
Lemma qty_of_nonneg l k : Forall (λ it, 1 ≤ rv_qty it)%Z l → (0 ≤ qty_of l k)%Z.
Proof. induction 1 as [|it l Hit _ IH]; [done|]. rewrite qty_of_cons. destruct (decide _); lia. Qed.

(** What a checkout holds: the items it reserved, all of which exist and have stock. *)
Record holds (id : string) (m : gmap string Item) (l : list reserved) (i : Inventory) : Prop := {
  ho_lock : i_lock i = None;
  ho_items : i_items i = shift (qty_of l) m;
  ho_reqs : Forall (λ it, good_req (MkReserveReq (rv_sku it) (rv_qty it) id) ∧ is_Some (m !! rv_sku it)) l;
  ho_enough k it : m !! k = Some it → (qty_of l k ≤ It_Stock it)%Z;
  ho_stocked : stocked m;
}.

Lemma holds_nonneg id m l i k : holds id m l i → (0 ≤ qty_of l k)%Z.
Proof.
  intros Hh. apply qty_of_nonneg. eapply Forall_impl; [apply Hh|]. intros it ((_ & _ & ?) & _). simpl in *. lia.
Qed.

(** Releasing the first of them. *)
Lemma release_fine id m it l i e :
  fine e → holds id m (it :: l) i →
  ∃ i', release e (Some (MkReserveReq (rv_sku it) (rv_qty it) id)) i = (200%Z, i') ∧ holds id m l i'.
Proof.
  intros He Hh. pose proof Hh as [Hl Hi Hr Hen Hs]. apply Forall_cons in Hr as [[Hg [old Hold]] Hr].
  assert (∀ k, 0 ≤ qty_of l k)%Z as Hpos.
  { intros k. apply qty_of_nonneg. eapply Forall_impl; [exact Hr|]. intros x ((_ & _ & ?) & _). simpl in *. lia. }
  pose proof (Hen _ _ Hold) as Hone. pose proof (Hs _ _ Hold) as Hst. pose proof (Hpos (rv_sku it)) as Hp.
  assert (qty_of (it :: l) (rv_sku it) = rv_qty it + qty_of l (rv_sku it))%Z as Hsum
    by (rewrite qty_of_cons; by rewrite decide_True).
  pose proof (mutate_fine e "release" _ i He Hg Hl) as Hm. destruct Hg as (Hv1 & Hv2 & Hq). simpl in *.
  unfold release. rewrite Hm. simpl. rewrite Hi, lookup_shift, Hold. simpl.
  rewrite Hsum. unfold max_int4 in *.
  destruct (Z.ltb_spec 2147483647 (It_Stock old - (rv_qty it + qty_of l (rv_sku it)) - - rv_qty it)); [lia|].
  destruct (Z.ltb_spec (It_Stock old - (rv_qty it + qty_of l (rv_sku it)) - - rv_qty it) 0); [lia|].
  eexists. split; [reflexivity|]. split; simpl; [done| |done| |done].
  - rewrite <- Hsum. pose proof (shift_insert (qty_of (it :: l)) (- rv_qty it) m _ _ Hold) as Hins.
    unfold with_stock in Hins at 1. unfold with_stock at 1. simpl in *. rewrite Hins. apply shift_ext. intros k.
    rewrite qty_of_cons. destruct (decide (k = rv_sku it)); lia.
  - intros k x Hk. specialize (Hen k x Hk). rewrite qty_of_cons in Hen. destruct (decide _); lia.
Qed.

Definition fine_calls (envs : nat → Delivery * MutateEnv) : Prop := ∀ n, (envs n).1 = Delivered ∧ fine (envs n).2.

(** Releasing all of them gives the stock back. *)
Lemma releaseAll_fine envs n id m l i :
  fine_calls envs → holds id m l i →
  i_items (releaseAll envs n id l i) = m ∧ i_lock (releaseAll envs n id l i) = None.
Proof.
  intros He. revert n i. induction l as [|it l IH]; intros n i Hh; cbn [releaseAll].
  { destruct Hh as [Hl Hi _ _ _]. by rewrite Hi, shift_0. }
  destruct (He n) as [Hd Hf]. destruct (envs n) as [d e]. simpl in Hd, Hf. subst d.
  destruct (release_fine id m it l i e Hf Hh) as (i' & Hr & Hh'). unfold post. rewrite Hr. by apply IH.
Qed.

(** Reserving one more. *)
Lemma reserve_fine id m l i sku q e it :
  fine e → holds id m l i → Valid sku = true → Valid id = true → (1 ≤ q ≤ 10)%Z → m !! sku = Some it →
  reserve e (Some (MkReserveReq sku q id)) i = (409%Z, i) ∨
  ∃ i', reserve e (Some (MkReserveReq sku q id)) i = (200%Z, i') ∧
    holds id m (l ++ [MkReserved sku q (It_PriceCents it)]) i'.
Proof.
  intros He Hh Hv Hid Hq Hm. pose proof (holds_nonneg _ _ _ _ sku Hh) as Hpos. destruct Hh as [Hl Hi Hr Hen Hs].
  pose proof (Hs _ _ Hm) as Hst. assert (good_req (MkReserveReq sku q id)) as Hg by (split_and!; simpl; done || lia).
  unfold reserve. rewrite (mutate_fine e "reserve" _ i He Hg Hl). simpl. rewrite Hi, lookup_shift, Hm. simpl. unfold max_int4 in *.
  destruct (Z.ltb_spec 2147483647 (It_Stock it - qty_of l sku - q)); [lia|].
  destruct (Z.ltb_spec (It_Stock it - qty_of l sku - q) 0); [by left|]. right.
  eexists. split; [reflexivity|].
  assert (∀ k, qty_of (l ++ [MkReserved sku q (It_PriceCents it)]) k =
    if decide (k = sku) then qty_of l k + q else qty_of l k)%Z as Hsum.
  { intros k. rewrite qty_of_app, qty_of_cons. change (qty_of [] k) with 0%Z. simpl. destruct (decide _); lia. }
  split; simpl; [done| | | |done].
  - unfold with_stock at 1. simpl. pose proof (shift_insert (qty_of l) q m _ _ Hm) as Hins. unfold with_stock in Hins at 1.
    rewrite Hins. apply shift_ext. intros k. by rewrite Hsum.
  - apply Forall_app. split; [done|]. apply Forall_singleton. simpl. split; [done|eauto].
  - intros k x Hk. rewrite Hsum. destruct (decide (k = sku)) as [->|]; [|eauto]. simplify_eq. lia.
Qed.

Definition requested (l : list reserved) : list itemReq := (λ it, MkItemReq (rv_sku it) (rv_qty it)) <$> l.
Definition total_of (l : list reserved) : Z := foldr (λ it n, rv_price it * rv_qty it + n)%Z 0%Z l.
Lemma total_of_snoc l it : total_of (l ++ [it]) = (total_of l + rv_price it * rv_qty it)%Z.
Proof. unfold total_of. induction l as [|x l IH]; simpl in *; lia. Qed.

Record fine_env (e : CheckoutEnv) : Prop := {
  fe_user : Ce_user e = Delivered ∧ Ce_user_readable e = true;
  fe_item n : Ie_get (Ce_item e n) = Delivered ∧ Ie_readable (Ce_item e n) = true ∧
    Ie_reserve (Ce_item e n) = Delivered ∧ fine (Ie_mutate (Ce_item e n));
  fe_release : fine_calls (Ce_release e);
  fe_pay n : (Ce_pay e n).1 = Delivered;
  fe_authorize n : let a := (Ce_pay e n).2 in
    Az_read a = true ∧ Az_rival a = None ∧ Az_insert a = Fine ∧ Az_charge a = Delivered ∧
    Az_charge_canceled a = false ∧ Az_update a = Fine;
  fe_insert : Ce_insert e = Fine ∧ ∀ n, Ce_insert_items e n = Fine;
}.

(** The loop reserves everything, or leaves the stock as it was. *)
Lemma reserve_items_fine e n items l m i res i' :
  fine_env e → Valid (Ce_id e) = true → forallb valid_item items = true → holds (Ce_id e) m l i →
  Forall (λ it, ∃ x, m !! rv_sku it = Some x ∧ rv_price it = It_PriceCents x) l →
  reserve_items e n items l (total_of l) i = (res, i') →
  (∃ l', res = Ok (l', total_of l') ∧ requested l' = requested l ++ items ∧ holds (Ce_id e) m l' i' ∧
     Forall (λ it, ∃ x, m !! rv_sku it = Some x ∧ rv_price it = It_PriceCents x) l') ∨
  (∃ st, res = Err st ∧ i_items i' = m ∧ st ≠ 200%Z).
Proof.
  intros He Hid. revert n l i. induction items as [|it items IH]; intros n l i Hv Hh Hpr Hr; cbn [reserve_items] in Hr.
  { injection Hr as <- <-. left. exists l. by rewrite app_nil_r. }
  cbn in Hv. apply andb_true_iff in Hv as [Hit Hv]. unfold valid_item in Hit. rewrite !andb_true_iff in Hit.
  destruct Hit as [[Hsku Hq1] Hq2]. destruct (fe_item _ He n) as (Hg & Hrd & Hres & Hf).
  rewrite Hg in Hr. unfold get, getItem, loadItem in Hr. rewrite Hsku, Hrd in Hr. cbn [negb] in Hr.
  rewrite (ho_items _ _ _ _ Hh), lookup_shift in Hr. destruct (m !! Iq_SKU it) as [x|] eqn:Em; simpl in Hr.
  2:{ injection Hr as <- <-. right. eexists. split; [done|]. split; [|done]. eapply releaseAll_fine; [apply He|done]. }
  rewrite Hres in Hr. unfold post in Hr.
  destruct (reserve_fine (Ce_id e) m l i (Iq_SKU it) (Iq_Qty it) _ x Hf Hh Hsku Hid ltac:(lia) Em)
    as [Hno|(i1 & Hyes & Hh1)].
  - rewrite Hno in Hr. injection Hr as <- <-. right. eexists. split; [done|]. split; [|done].
    eapply releaseAll_fine; [apply He|done].
  - rewrite Hyes in Hr. simpl in Hr.
    replace (total_of l + It_PriceCents x * Iq_Qty it)%Z
      with (total_of (l ++ [MkReserved (Iq_SKU it) (Iq_Qty it) (It_PriceCents x)])) in Hr by (rewrite total_of_snoc; done).
    apply IH in Hr; [|done|done|].
    + destruct Hr as [(l' & -> & Hreq & Hh' & Hpr')|Hr]; [left|by right]. exists l'. split_and!; try done.
      rewrite Hreq. unfold requested. rewrite fmap_app, <- app_assoc. simpl. by destruct it.
    + apply Forall_app. split; [done|]. apply Forall_singleton. simpl. eauto.
Qed.

(** ** Payments *)

Definition payable (r : authorizeReq) : bool :=
  Valid (Au_UserID r) && Valid (Au_CheckoutID r) && (0 <? Au_AmountCents r)%Z && (Au_AmountCents r <=? 10000000)%Z.

Lemma authorize_unpayable e r p : payable r = false → authorize e (Some r) p = (400%Z, p).
Proof.
  intros Hr. unfold authorize. cbv zeta.
  assert (negb (Valid (Au_UserID r)) || negb (Valid (Au_CheckoutID r)) || (Au_AmountCents r <=? 0)%Z ||
          (10000000 <? Au_AmountCents r)%Z = true) as ->; [|done].
  unfold payable in Hr. destruct (Valid (Au_UserID r)), (Valid (Au_CheckoutID r)); try done. cbn in *. lia.
Qed.
Lemma payable_checks r :
  payable r = true →
  negb (Valid (Au_UserID r)) || negb (Valid (Au_CheckoutID r)) || (Au_AmountCents r <=? 0)%Z ||
  (10000000 <? Au_AmountCents r)%Z = false ∧
  negb (Valid (Au_CheckoutID r)) || (Au_AmountCents r <=? 0)%Z || (10000000 <? Au_AmountCents r)%Z = false.
Proof.
  unfold payable. intros Hr. destruct (Valid (Au_UserID r)), (Valid (Au_CheckoutID r)); try done. cbn in *. lia.
Qed.

Lemma pay_unpayable envs k n r p : payable r = false → pay envs k n r p = (false, p).
Proof.
  intros Hr. revert k. induction n as [|n IH]; intros k; [done|]. cbn [pay]. destruct (envs k) as [d e].
  unfold post. rewrite authorize_unpayable by done. destruct d; simpl; apply IH.
Qed.

(** The first attempt succeeds. *)
Lemma pay_fine e r p :
  fine_env e → payable r = true → p_rows p !! Au_CheckoutID r = None →
  pay (Ce_pay e) 0 5 r p =
  (true, MkPayments (<[Au_CheckoutID r := MkPaymentRow (Az_id (Ce_pay e 0).2) (Au_UserID r) "authorized"
                                             (Au_AmountCents r)]> (p_rows p))
           (p_approved p ++ [MkChargeReq (Au_CheckoutID r) (Au_AmountCents r)])).
Proof.
  intros He [Hc1 Hc2]%payable_checks Hn. pose proof (fe_pay _ He 0) as Hd.
  destruct (fe_authorize _ He 0) as (H1 & H2 & H3 & H4 & H5 & H6).
  cbn [pay]. destruct (Ce_pay e 0) as [d a]. simpl in *. subst d. unfold post, authorize. cbv zeta.
  rewrite Hc1, H1, Hn, H2, Hn, H3. cbn [exec negb]. unfold chargeProcessor. rewrite H4. unfold post, charge. cbn -[Valid].
  rewrite Hc2, H5. cbn -[Valid]. rewrite H6. cbn. unfold authorize_pending. cbn. rewrite lookup_insert_eq. cbn.
  rewrite bool_decide_eq_true_2 by done. unfold set_rows. cbn. by rewrite insert_insert_eq.
Qed.

(** *** At most one charge *)

Definition charges (id : string) (p : Payments) : nat :=
  length (filter (λ c, Ch_CheckoutID c = id) (p_approved p)).
(** Nothing is charged for a checkout without a row, and nothing twice. *)
Definition charged_once (id : string) (p : Payments) : Prop :=
  (charges id p ≤ 1)%nat ∧ (p_rows p !! id = None → charges id p = 0%nat) ∧
  (∀ row, p_rows p !! id = Some row → Py_Status row = "authorized" → charges id p = 1%nat).

(** Statements may fail or be done without an answer, and the call of the processor
    may not arrive; only the answer of the processor must not be lost, and no other
    request works on the same checkout. *)
Definition answered (e : AuthorizeEnv) : Prop := (∀ err, Az_charge e ≠ remote.Lost err) ∧ Az_rival e = None.

Lemma charges_snoc id l c rows :
  Ch_CheckoutID c = id → charges id (MkPayments rows (l ++ [c])) = S (charges id (MkPayments rows l)).
Proof.
  intros Hc. unfold charges. simpl. rewrite filter_app, length_app, filter_cons_True by done. simpl. lia.
Qed.

Lemma authorize_charged_once e r p status p' :
  answered e → authorize e (Some r) p = (status, p') → charged_once (Au_CheckoutID r) p →
  charged_once (Au_CheckoutID r) p' ∧
  ((status < 300)%Z → ∃ row, p_rows p' !! Au_CheckoutID r = Some row ∧ Py_Status row = "authorized").
Proof.
  intros [Hlost Hrival] Ha Hone. set (id := Au_CheckoutID r) in *. unfold authorize in Ha. cbv zeta in Ha. fold id in Ha.
  destruct (_ || _); [by injection Ha as <- <-|]. destruct (Az_read e); [|by injection Ha as <- <-]. cbn [negb] in Ha.
  destruct (p_rows p !! id) as [row|] eqn:Ep.
  { injection Ha as <- <-. split; [done|]. intros Hst. exists row. split; [done|]. unfold replayOrConflict in Hst.
    case_bool_decide; [done|]. discriminate Hst. }
  rewrite Hrival, Ep in Ha. destruct Hone as (_ & Hzero & _). specialize (Hzero Ep).
  set (pend := MkPaymentRow (Az_id e) (Au_UserID r) "pending" (Au_AmountCents r)) in *.
  set (rows := <[id := pend]> (p_rows p)) in *.
  assert (rows !! id = Some pend) as Hrow by apply lookup_insert_eq.
  assert (charged_once id (MkPayments rows (p_approved p))) as Hpend.
  { split_and!; [unfold charges in *; simpl; lia|simpl; congruence|]. intros x Hx Hst. simpl in Hx. simplify_eq. }
  destruct (Az_insert e); cbn [exec negb] in Ha; cycle 1.
  { injection Ha as <- <-. split; [|done]. split_and!; [lia|done|congruence]. }
  { by injection Ha as <- <-. }
  unfold chargeProcessor, set_rows in Ha. cbn [p_approved p_rows] in Ha. fold rows in Ha.
  destruct (post (Az_charge e)
    (charge (Az_charge_canceled e) (Some (MkChargeReq (Au_CheckoutID r) (Au_AmountCents r)))) (p_approved p))
    as [ok appr] eqn:Epost.
  assert ((ok = false ∧ appr = p_approved p) ∨
          (ok = true ∧ appr = p_approved p ++ [MkChargeReq id (Au_AmountCents r)])) as Hch.
  { unfold post, charge in Epost. destruct (Az_charge e) as [| |err]; [|by injection Epost as <- <-; left|by destruct (Hlost err)].
    destruct (_ || _); [by injection Epost as <- <-; left|].
    destruct (Az_charge_canceled e); injection Epost as <- <-; auto. }
  destruct Hch as [[-> ->]|[-> ->]]; cbn [negb] in Ha.
  - injection Ha as <- <-. split; [|done].
    assert (delete_pending id (MkPayments rows (p_approved p)) = MkPayments (delete id rows) (p_approved p)) as Hdel.
    { unfold delete_pending. cbn [p_rows]. by rewrite Hrow. }
    destruct (Az_delete e); cbn [exec snd]; rewrite ?Hdel; [|done|]; unfold charged_once; cbn [p_rows];
      rewrite lookup_delete_eq; split_and!; try done; unfold charges in *; simpl; lia.
  - assert (charges id (MkPayments rows (p_approved p ++ [MkChargeReq id (Au_AmountCents r)])) = 1%nat) as Hc.
    { rewrite charges_snoc by done. unfold charges in *. simpl. lia. }
    set (auth := MkPaymentRow (Py_ID pend) (Py_User pend) "authorized" (Py_Amount pend)).
    set (appr := p_approved p ++ _) in *.
    assert (authorize_pending id (MkPayments rows appr) = MkPayments (<[id := auth]> rows) appr) as Hauth.
    { unfold authorize_pending. cbn [p_rows]. by rewrite Hrow. }
    destruct (Az_update e); cbn [exec] in Ha; rewrite ?Hauth in Ha; injection Ha as <- <-.
    1,3: split; [|intros _; exists auth; cbn [p_rows]; by rewrite lookup_insert_eq].
    3: split; [|done].
    all: unfold charged_once, charges in *; cbn [p_rows p_approved] in *; rewrite ?lookup_insert_eq, ?Hrow.
    all: split_and!; try done; lia.
Qed.

(** However the calls and the statements fail, the attempts of a checkout charge at
    most once; a payment that is reported as made is authorized and charged. *)
Theorem pay_charged_once envs k n r p ok p' :
  (∀ j, answered (envs j).2) → pay envs k n r p = (ok, p') → charged_once (Au_CheckoutID r) p →
  charged_once (Au_CheckoutID r) p' ∧ (ok = true → charges (Au_CheckoutID r) p' = 1%nat).
Proof.
  intros He. revert k p. induction n as [|n IH]; intros k p Hp Hone; cbn [pay] in Hp.
  { by injection Hp as <- <-. }
  pose proof (He k) as Hk. destruct (envs k) as [d e]. simpl in Hk.
  destruct (authorize e (Some r) p) as [status p1] eqn:Ea.
  destruct (authorize_charged_once e r p status p1 Hk Ea Hone) as [Hone1 Hst].
  unfold post in Hp. rewrite Ea in Hp. destruct d; [|by eapply IH|by eapply IH].
  destruct (Z.ltb_spec status 300); [|by eapply IH]. injection Hp as <- <-. split; [done|]. intros _.
  destruct (Hst ltac:(done)) as (row & Hrow & Hau). by eapply Hone1.
Qed.

(** ** A checkout without faults is all or nothing *)

Lemma written_fine envs l : (∀ n, envs n = Fine) → written_items envs l = l.
Proof.
  intros He. unfold written_items. generalize 0%nat as k. induction l as [|it l IH]; intros k; [done|].
  cbn. rewrite He. f_equal. apply IH.
Qed.

Lemma payable_iff user id n r :
  payable (MkAuthorizeReq user id n) = r → Valid user = true → Valid id = true →
  r = ((0 <? n) && (n <=? 10000000))%Z.
Proof. unfold payable. cbn. by intros <- -> ->. Qed.

(** C40: a checkout of the shop, whose services all answer, is all or nothing. Either it is
    confirmed: the stock of every item is lowered by exactly what was ordered, the
    order and its payment have the total of the prices, the payment is authorized and
    the processor charged it once. Or it is refused (an unknown user or item, too
    little stock also for a later item, a total that cannot be paid): then stock,
    payments, charges and orders are what they were. *)
Theorem checkout_all_or_nothing e r s status s' :
  fine_env e → Valid (Ce_id e) = true → i_lock (s_inventory s) = None → stocked (i_items (s_inventory s)) →
  p_rows (s_payments s) !! Ce_id e = None → s_orders s !! Ce_id e = None →
  create e (Some r) s = (status, s') →
  (status = 200%Z ∧ ∃ done,
     requested done = Cq_Items r ∧
     Forall (λ it, ∃ x, i_items (s_inventory s) !! rv_sku it = Some x ∧ rv_price it = It_PriceCents x) done ∧
     i_items (s_inventory s') = shift (qty_of done) (i_items (s_inventory s)) ∧
     stocked (i_items (s_inventory s')) ∧
     s_orders s' = <[Ce_id e := MkOrder (Cq_UserID r) "confirmed" (total_of done) done]> (s_orders s) ∧
     s_payments s' =
       MkPayments (<[Ce_id e := MkPaymentRow (Az_id (Ce_pay e 0).2) (Cq_UserID r) "authorized" (total_of done)]>
                     (p_rows (s_payments s)))
         (p_approved (s_payments s) ++ [MkChargeReq (Ce_id e) (total_of done)])) ∨
  (status ≠ 200%Z ∧ i_items (s_inventory s') = i_items (s_inventory s) ∧ s_payments s' = s_payments s ∧
   s_orders s' = s_orders s).
Proof.
  intros He Hid Hlock Hst Hnew Hord Hc. unfold create in Hc. cbv zeta in Hc.
  destruct (negb (Valid (Cq_UserID r)) || _ || _); [injection Hc as <- <-; by right|].
  destruct (forallb valid_item (Cq_Items r)) eqn:Hv; [|injection Hc as <- <-; by right]. cbn [negb] in Hc.
  destruct (get _ _ _) as [u|]; [|injection Hc as <- <-; by right].
  destruct (reserve_items _ _ _ _ _ _) as [res i] eqn:Er.
  assert (holds (Ce_id e) (i_items (s_inventory s)) [] (s_inventory s)) as Hh.
  { split; [done|symmetry; apply shift_0|constructor| |done]. intros k it Hk. apply (Hst k it Hk). }
  eapply (reserve_items_fine e 0 _ []) in Er; [|done..].
  destruct Er as [(l & -> & Hreq & Hl & Hpr)|(st & -> & Hi & Hne)]; [|injection Hc as <- <-; by right].
  destruct (payable (MkAuthorizeReq (Cq_UserID r) (Ce_id e) (total_of l))) eqn:Epay.
  - rewrite pay_fine in Hc by done. cbn in Hc. destruct (fe_insert _ He) as [Hins Hinsi].
    rewrite Hord, bool_decide_eq_false_2 in Hc by by intros []. rewrite Hins in Hc. cbn in Hc.
    destruct (post _ _ _) as [b sent]. injection Hc as <- <-. left. split; [done|]. exists l.
    cbn. rewrite (ho_items _ _ _ _ Hl), written_fine, insert_insert_eq by done. split_and!; try done.
    intros k it Hk. rewrite lookup_shift in Hk. apply fmap_Some in Hk as (x & Hx & ->). simpl.
    pose proof (ho_enough _ _ _ _ Hl _ _ Hx). pose proof (holds_nonneg _ _ _ _ k Hl). specialize (Hst _ _ Hx). lia.
  - rewrite pay_unpayable in Hc by done. cbn in Hc. injection Hc as <- <-. right. split; [done|]. cbn.
    split; [|done]. eapply releaseAll_fine; [apply He|done].
Qed.

(** ** What faults do *)

(** An answer of the processor that is lost: the payment is taken back and the retry
    charges a second time. *)
Definition fine_auth (d : Delivery) : AuthorizeEnv := MkAuthorizeEnv true None "pay-1" Fine true d false Fine Fine.
Definition one_lost (k : nat) : Delivery * AuthorizeEnv :=
  (Delivered, fine_auth (if (k =? 0)%nat then remote.Lost "timeout" else Delivered)).
Lemma lost_answer_charges_twice :
  let '(ok, p) := pay one_lost 0 5 (MkAuthorizeReq "user-1" "chk-1" 2500) (MkPayments ∅ []) in
  ok = true ∧ charges "chk-1" p = 2%nat.
Proof. vm_compute. split; reflexivity. Qed.

(** A reservation whose event could not be written takes stock, is reported as failed
    and is never given back. *)
Lemma failed_event_loses_stock e r i it :
  e = MkMutateEnv true Fine Fails true → good_req r → i_lock i = None →
  i_items i !! Rv_SKU r = Some it → (Rv_Qty r ≤ It_Stock it ≤ max_int4)%Z →
  reserve e (Some r) i =
  (500%Z, set_items i (<[Rv_SKU r := with_stock it (It_Stock it - Rv_Qty r)]> (i_items i))).
Proof.
  intros -> (H1 & H2 & H3) Hl Hit Hq. unfold reserve, mutate. rewrite H1, H2, Hl.
  assert ((Rv_Qty r <? 1)%Z = false ∧ (20 <? Rv_Qty r)%Z = false) as [-> ->] by lia.
  cbn -[update_stock]. unfold mutate_locked. rewrite (bool_decide_eq_false_2 ("reserve" = "release")) by done.
  cbn -[update_stock]. rewrite Hit. unfold update_stock. cbv zeta.
  destruct (Z.ltb_spec max_int4 (It_Stock it - Rv_Qty r)); [lia|].
  destruct (Z.ltb_spec (It_Stock it - Rv_Qty r) 0); [lia|]. destruct i as [m ev l]. simpl in Hl. by subst l.
Qed.

(** Nothing has to be reserved to be released. *)
Lemma release_without_reserve e r i it :
  fine e → good_req r → i_lock i = None → i_items i !! Rv_SKU r = Some it →
  (0 ≤ It_Stock it)%Z → (It_Stock it + Rv_Qty r ≤ max_int4)%Z →
  ∃ i', release e (Some r) i = (200%Z, i') ∧ i_items i' = <[Rv_SKU r := with_stock it (It_Stock it + Rv_Qty r)]> (i_items i).
Proof.
  intros He Hg Hl Hit H0 Hq. pose proof (mutate_fine e "release" r i He Hg Hl) as Hm. destruct Hg as (_ & _ & Hqty).
  unfold release. rewrite Hm, bool_decide_eq_true_2, Hit by done. unfold update_stock. cbv zeta.
  destruct (Z.ltb_spec max_int4 (It_Stock it - - Rv_Qty r)); [lia|].
  destruct (Z.ltb_spec (It_Stock it - - Rv_Qty r) 0); [lia|]. eexists. split; [done|]. cbn. do 2 f_equal. lia.
Qed.

(** The address queries, one for each address, give the addresses of the user. *)
Theorem GetUser_addresses u id x :
  NoDup (Ad_ID <$> u_addresses u) → GetUser u id = Some x →
  Us_Addresses x = filter (λ a, Ad_UserID a = id) (u_addresses u).
Proof.
  intros Hnd. unfold GetUser. destruct (u_users u !! id) as [[email name]|]; [|done].
  intros (rows & Hm & [= <-])%bind_Some. cbn. apply mapM_Some in Hm.
  assert (∀ l, (∀ a, a ∈ l → a ∈ u_addresses u) →
    ∀ rows, Forall2 (λ aid a, head (filter (λ a, Ad_ID a = aid) (u_addresses u)) = Some a) (Ad_ID <$> l) rows → rows = l)
    as Hgen; [|eapply Hgen; [|exact Hm]; by intros a [_ ?]%list_elem_of_filter].
  clear Hm rows. induction l as [|a l IH]; intros Hin rows Hf; simpl in Hf.
  { by apply Forall2_nil_inv_l in Hf. }
  apply Forall2_cons_inv_l in Hf as (b & rows' & Hb & Hf & ->). f_equal; [|apply IH; [set_solver|done]].
  assert (b ∈ filter (λ a0, Ad_ID a0 = Ad_ID a) (u_addresses u)) as [Hid Hbin]%list_elem_of_filter
    by (destruct (filter (λ a0, Ad_ID a0 = Ad_ID a) (u_addresses u)) as [|c fl]; [done|]; injection Hb as ->; clear; set_solver).
  apply list_elem_of_lookup in Hbin as [n Hn]. assert (a ∈ u_addresses u) as [k Hk]%list_elem_of_lookup by set_solver.
  assert (n = k) as ->; [|congruence].
  eapply (NoDup_lookup _ n k (Ad_ID a)); [exact Hnd|..]; rewrite list_lookup_fmap, ?Hn, ?Hk; simpl; congruence.
Qed.

End shop.

(** ** The demonstration data *)

Definition demo_shop : shop.Shop :=
  shop.MkShop
    (shop.MkUsers {[ "user-1" := ("ada@shop.test", "Ada Lovelace") ]}
       [shop.MkAddress "addr-1" "user-1" "1 Analytical Engine Way" "London"])
    (shop.MkInventory {[ "sku-widget" := shop.MkItem "Widget" 2500 100; "sku-gadget" := shop.MkItem "Gadget" 4900 50 ]}
       [] None)
    (shop.MkPayments ∅ []) ∅ [].
Definition demo_mutate : shop.MutateEnv := shop.MkMutateEnv true shop.Fine shop.Fine true.
Definition demo_checkout : shop.CheckoutEnv :=
  shop.MkCheckoutEnv remote.Delivered true "chk-1"
    (λ _, shop.MkItemEnv remote.Delivered true remote.Delivered demo_mutate)
    (λ _, (remote.Delivered, demo_mutate)) (λ _, (remote.Delivered, shop.fine_auth remote.Delivered)) shop.Fine
    (λ _, shop.Fine) remote.Delivered false.
Definition demo_cart : shop.checkoutReq :=
  shop.MkCheckoutReq "user-1" [shop.MkItemReq "sku-widget" 2; shop.MkItemReq "sku-gadget" 1].

Lemma demo_confirmed : (shop.create demo_checkout (Some demo_cart) demo_shop).1 = 200%Z.
Proof. vm_compute. reflexivity. Qed.

Lemma checkout_all_or_nothing_witness :
  ∃ s', shop.create demo_checkout (Some demo_cart) demo_shop = (200%Z, s') ∧
    ∃ done, shop.requested done = shop.Cq_Items demo_cart ∧
      shop.i_items (shop.s_inventory s') = shop.shift (shop.qty_of done) (shop.i_items (shop.s_inventory demo_shop)).
Proof.
  pose proof demo_confirmed as Hs.
  destruct (shop.create demo_checkout (Some demo_cart) demo_shop) as [status s'] eqn:E. simpl in Hs. subst status.
  exists s'. split; [reflexivity|].
  destruct (shop.checkout_all_or_nothing demo_checkout demo_cart demo_shop 200 s') as [[_ (d & Hd & _ & Hi & _)]|[Hne _]].
  - split; done.
  - vm_compute. reflexivity.
  - reflexivity.
  - intros k it. unfold demo_shop. cbn [shop.s_inventory shop.i_items].
    rewrite lookup_insert_Some, lookup_singleton_Some. unfold shop.max_int4.
    intros [[_ <-]|[_ [_ <-]]]; cbn [shop.It_Stock]; lia.
  - apply lookup_empty.
  - apply lookup_empty.
  - exact E.
  - exists d. split; [exact Hd|exact Hi].
  - destruct (Hne eq_refl).
Defined.
