(* ===== verification/WorkerExamples.v ===== *)
(** * A worker's round

    The job of [Examples.v], a worker that leases its first task, runs it and
    commits the result, and a cache that is read back. *)

From S2P Require Import Prelude GoStrings Net Ingest Replay Impact Plan Validate Jobs JobStore.
From S2P Require Import Worker Remote Examples.
Import jobs memory worker remote.

#[local] Existing Instance sample_net.
#[local] Existing Instance sample_json.

(** A digest of the right form. *)
#[local] Instance sample_sha : GoSHA.
Proof. refine {| sha256_hex := λ s, zeros 64 |}. done. Defined.

#[local] Instance sample_action : action.ActionJSON := {
  action.key_json := λ _, "key";
  action.workload_json := λ _, "[]";
  action.step_json := λ r, plan.SR_Verdict r;
  action.step_of_json := λ s,
    if s == "match" then Ok (plan.MkStepResult "behavior" "behavior" "match" [] [] []) else Err "bad";
}.

Definition sample_cached : plan.StepResult := plan.MkStepResult "behavior" "behavior" "match" [] [] [].
Definition sample_key : action.Key := action.MkKey 3 "behavior" "" "" "job:1" 1 "[]" "".
Definition sample_cache : action.Cache := action.MkCache (cas.MkDir ∅) ∅.

Lemma Put_then_Get_witness :
  action.Get None sample_key (action.Put None sample_key sample_cached sample_cache).2
    = Ok (Some sample_cached).
Proof.
  destruct (action.Put_then_Get None sample_key sample_cached sample_cache
    (action.Put None sample_key sample_cached sample_cache).2) as [[H _]|H].
  - reflexivity.
  - reflexivity.
  - reflexivity.
  - intros raw Hraw. vm_compute in Hraw. discriminate.
  - vm_compute in H. discriminate.
  - exact H.
Defined.

Definition sample_once : OnceEnv :=
  MkOnceEnv None 9 5000000 [(None, 6000000%Z)] (MkExecEnv None None None (sample_world 200)) None.

Definition sample_round : result JobErr () * option action.Cache * Memory :=
  Once sample_once "w1" None sample_created.

Lemma sample_created_reached : reached sample_created.
Proof. exists sample_quota. exact sample_reachable. Qed.

Lemma Once_commits_witness :
  ∃ t, in_store sample_round.2 t ∧ T_State t = StateSucceeded.
Proof.
  destruct (Once_commits (S:=Memory) sample_once "w1" None sample_created sample_round.1.1
    sample_round.1.2 sample_round.2) as [_ [(err & He & _)|(_ & l & s1 & out & t & Hl & Hx & Ht & _ & _ & Herr & Hst)]].
  - exact sample_created_reached.
  - reflexivity.
  - reflexivity.
  - unfold sample_round. destruct (Once _ _ _ _) as [[? ?] ?]. reflexivity.
  - exfalso. vm_compute in He. discriminate.
  - exists t. split; [exact Ht|]. rewrite Hst, Herr.
    assert (out = (ExecuteWith (Oe_execute sample_once) l None).1) as -> by (rewrite Hx; reflexivity).
    assert (l = match (Lease None 9 (MkWorker "w1" 0 "") 5000000 sample_created).1 with
                | Ok l => l | Err _ => l end) as ->.
    { change (Lease None 9 (MkWorker "w1" 0 "") 5000000 sample_created = (Ok l, s1)) in Hl.
      rewrite Hl. reflexivity. }
    vm_compute. reflexivity.
Defined.

Lemma ExecuteWith_result_witness :
  ∃ l res, (Lease None 9 (MkWorker "w1" 0 "") 5000000 sample_created).1 = Ok l ∧
    (ExecuteWith (Oe_execute sample_once) l None).1 = Ok res ∧
    plan.SR_Verdict res ≠ "pass" ∧ plan.SR_Verdict res ≠ "validated".
Proof.
  destruct (Lease None 9 (MkWorker "w1" 0 "") 5000000 sample_created) as [[l|e] m] eqn:E.
  - destruct (ExecuteWith (Oe_execute sample_once) l None) as [[res|err] c] eqn:Ex.
    + destruct (ExecuteWith_result _ _ _ _ _ Ex) as (H1 & H2 & _). exists l, res.
      rewrite Ex. auto.
    + exfalso. assert (is_ok (ExecuteWith (Oe_execute sample_once)
        (match (Lease None 9 (MkWorker "w1" 0 "") 5000000 sample_created).1 with
         | Ok l => l | Err _ => l end) None).1 = true) as H by (vm_compute; reflexivity).
      rewrite E in H. cbn [fst] in H. rewrite Ex in H. discriminate.
  - exfalso. assert (is_ok (Lease None 9 (MkWorker "w1" 0 "") 5000000 sample_created).1 = true) as H
      by (vm_compute; reflexivity). rewrite E in H. discriminate.
Defined.

(** The same round over the network, with a heartbeat that gets lost. *)
Definition sample_call (d : Delivery) : CallEnv := MkCallEnv d None 5000000 9.
Definition sample_remote : RemoteEnv :=
  MkRemoteEnv (sample_call Delivered) [sample_call (Lost "reset")] (MkExecEnv None None None (sample_world 200))
    (sample_call Delivered).
Definition sample_auth : option string := Some "Bearer secret".
Definition sample_remote_round : result RemoteErr () * option action.Cache * option Memory :=
  RemoteOnceSlots "secret" sample_auth sample_remote "w1" 1 "" None (Some sample_created).

