(* ===== verification/Commands.v ===== *)
(** * The other commands of [internal/cli] and [cmd/aquila]

    Every [Run...] function but [RunExperiment] (Experiment.v), [RunFault] (Fault.v) and
    [RunWorker] (Remote.v). Commands are
    computations over the state of [Cli.v], and print with [CliPrint.v]. *)

From S2P Require Import Prelude GoStrings GoText Flags GoOS Diff DiffReport Rewrite Net Ingest Otlp Spans Source Graph Locate Replay Impact Analyze Investigate Plan Validate Jobs Evidence Markdown Runs GitRev Snapshot Materialize Pair Workload Cli CliPrint Experiment.
Import gitrev ingest cli experiments print.

(** Decoding the other answers, and encoding a job. *)
Class CommandJSON := {
  graph_of_json : string → result string graph.Snapshot;
  source_of_json : string → result string source.Snapshot;
  locate_of_json : string → result string locate.Snapshot;
  attaches_of_json : string → result string (list Attach);
  job_of_json : string → result string jobs.Job;
  jobs_of_json : string → result string (list jobs.Job);
  status_of_json : string → result string (string * string);
  opts_to_json : jobs.CreateOpts → result string string;
  job_indent : jobs.Job → result string string;
}.

Module commands.

(** ** Printing *)

Definition maxPrintEdges : nat := 20.
Definition maxPrintPaths : nat := 10.
Definition maxPrintBindings : nat := 15.
Definition maxPrintServices : nat := 20.

Definition writeRuntime (rt : graph.Snapshot) : string :=
  line "runtime  provenance=observed_parent" +:+
  line ("  traces " +:+ Itoa (graph.Gs_TraceCount rt) +:+ "  spans " +:+ Itoa (graph.Gs_SpanCount rt) +:+
        "  services " +:+ fmt_len (graph.Gs_Services rt) +:+ "  edges " +:+ fmt_len (graph.Gs_Edges rt) +:+
        "  paths " +:+ fmt_len (graph.Gs_Paths rt)) +:+
  (if graph.Gs_Services rt == [] then line "  (no spans in window)"
   else
     let names := graph.Sv_Name <$> graph.Gs_Services rt in
     line ("  services  " +:+ Join (take maxPrintServices names ++
             (if (maxPrintServices <? length names)%nat then ["..."] else [])) ", ") +:+
     lines ((λ e, "  hop  " +:+ graph.Ed_From e +:+ " -> " +:+ graph.Ed_To e +:+ "  n=" +:+
                  Itoa (graph.Ed_Count e) +:+ "  " +:+ graph.Ed_Provenance e) <$>
            take maxPrintEdges (graph.Gs_Edges rt)) +:+
     (if (maxPrintEdges <? length (graph.Gs_Edges rt))%nat then
        line ("  hops truncated (" +:+ Itoa (Z.of_nat (length (graph.Gs_Edges rt) - maxPrintEdges)) +:+ " more)")
      else "") +:+
     lines ((λ p, "  path  " +:+ Join (graph.Pa_Services p) " -> " +:+ "  traces=" +:+ Itoa (graph.Pa_Traces p) +:+
                  "  " +:+ graph.Pa_Provenance p) <$> take maxPrintPaths (graph.Gs_Paths rt))).

Definition writeSource (src : source.Snapshot) (origin : string) : string :=
  let of_kind k := Itoa (count (λ n, source.N_Kind n == k) (source.Sn_Nodes src)) in
  line ("source  module=" +:+ emptyDash (source.Sn_Module src) +:+ "  origin=" +:+ origin) +:+
  line ("  packages " +:+ of_kind source.KindPackage +:+ "  files " +:+ of_kind source.KindFile +:+
        "  functions " +:+ of_kind source.KindFunction +:+ "  edges " +:+ fmt_len (source.Sn_Edges src)).

Definition writeLocate (loc : locate.Snapshot) : string :=
  let reasons := sort_cmp String.compare (impact.first_seen [] (locate.U_Reason <$> locate.Lo_Unmapped loc)) in
  line "locate  provenance=code_attrs" +:+
  line ("  spans " +:+ Itoa (locate.Lo_SpanCount loc) +:+ "  bound " +:+ Itoa (locate.Lo_Bound loc) +:+
        "  unmapped " +:+ Itoa (locate.Lo_UnmappedCount loc)) +:+
  lines ((λ b, "  bind  " +:+ locate.B_ServiceName b +:+ "  " +:+ locate.B_SourceName b +:+ "  " +:+
               locate.B_File b +:+ ":" +:+ Itoa (locate.B_Line b)) <$>
         take maxPrintBindings (locate.Lo_Bindings loc)) +:+
  (if (maxPrintBindings <? length (locate.Lo_Bindings loc))%nat then
     line ("  binds truncated (" +:+ Itoa (Z.of_nat (length (locate.Lo_Bindings loc) - maxPrintBindings)) +:+
           " more)")
   else "") +:+
  (if locate.Lo_UnmappedCount loc == 0%Z then ""
   else
     line ("  unmapped reasons" +:+
           (if (Z.of_nat (length (locate.Lo_Unmapped loc)) <? locate.Lo_UnmappedCount loc)%Z then
              " (sample of " +:+ fmt_len (locate.Lo_Unmapped loc) +:+ ")"
            else "")) +:+
     lines ((λ k, "    " +:+ k +:+ "  " +:+ Itoa (count (λ u, locate.U_Reason u == k) (locate.Lo_Unmapped loc))) <$>
            reasons)).

Definition writeAttach (service : string) (spans : list Span) : string :=
  let svc := ClipService service in
  let names := UniqueServices spans in
  if svc != "" then line ("attach  service=" +:+ svc)
  else match names with
       | [] => ""
       | [name] => line ("attach  service=" +:+ name)
       | _ => line ("attach  mixed  services=" +:+ Join names ", ") +:+
              line "  pass -service to keep one OTEL resource"
       end.

(** [uniqueServerRoutes]: key and line of a span that counts. *)
Definition server_route (s : Span) : option (string * string) :=
  let kind := TrimSpace (Span_Kind s) in
  if EqualFold kind "internal" || EqualFold kind "client" || EqualFold kind "producer" || EqualFold kind "consumer"
  then None
  else
    let method := ToUpper (TrimSpace (Span_HTTPMethod s)) in
    let route := TrimSpace (Span_HTTPRoute s) in
    if (method == "") || (route == "") then None
    else
      let svc := TrimSpace (Span_ServiceName s) in
      Some (svc +:+ " " +:+ method +:+ " " +:+ route,
            if svc != "" then svc +:+ "  " +:+ method +:+ " " +:+ route else method +:+ " " +:+ route).
Fixpoint server_routes (seen : list string) (out : list string) (rs : list (string * string)) : list string :=
  match rs with
  | [] => out
  | (key, l) :: rs =>
      if bool_decide (key ∈ seen) then server_routes seen out rs
      else
        let out := out ++ [l] in
        if (maxPrintBindings <=? length out)%nat then out else server_routes (key :: seen) out rs
  end.
Definition uniqueServerRoutes (spans : list Span) : list string := server_routes [] [] (omap server_route spans).

Definition writeRoutes (spans : list Span) : string :=
  let routes := uniqueServerRoutes spans in
  if routes == [] then "" else line "  routes" +:+ lines ((λ r, "    " +:+ r) <$> routes).

Definition writeAsk (rep : investigate.Report) : string :=
  line ("ask      " +:+ investigate.R_Question rep) +:+
  (if investigate.R_Origin rep != "" then line ("origin   " +:+ investigate.R_Origin rep) else "") +:+
  line ("hits     " +:+ fmt_len (investigate.R_Hits rep)) +:+
  lines ((λ h, "  " +:+ h) <$> investigate.R_Hits rep) +:+
  lines ((λ n, "note     " +:+ n) <$> investigate.R_Notes rep).

Definition task_lines (refused : gset string) (t : jobs.Task) : string :=
  let r := jobs.T_Result t in
  let verdict := if plan.SR_Verdict r != "" then plan.SR_Verdict r else "-" in
  line ("  " +:+ pad 14 (jobs.T_Kind t) +:+ " " +:+ pad 10 (jobs.T_State t) +:+ " verdict=" +:+ pad 10 verdict +:+
        " fence=" +:+ Itoa (jobs.T_Fence t) +:+ "  attempt=" +:+ jobs.T_AttemptID t) +:+
  lines ((λ n, "    notes      " +:+ n) <$> plan.SR_Notes r) +:+
  lines (latency_line refused <$> plan.SR_Latency r).
Definition writeJob (j : jobs.Job) : string :=
  line ("job      id=" +:+ jobs.J_ID j +:+ "  status=" +:+ jobs.J_Status j +:+ "  tasks=" +:+ fmt_len (jobs.J_Tasks j)) +:+
  (if jobs.J_Service j != "" then line ("service  " +:+ jobs.J_Service j) else "") +:+
  line ("baseline " +:+ jobs.J_Baseline j) +:+ line ("patch    " +:+ jobs.J_Patch j) +:+
  (if jobs.J_BaselineSHA j != "" then
     line ("git      " +:+ jobs.J_BaselineSHA j +:+ "  " +:+ (if jobs.J_Dirty j then "dirty" else "clean"))
   else "") +:+
  foldr (λ t s, task_lines (authRefused (jobs.T_Result <$> jobs.J_Tasks j)) t +:+ s) "" (jobs.J_Tasks j) +:+
  writeDecision None (validate.MkDecision "" (jobs.J_Validated j) (jobs.J_Blockers j)).

(** ** Facts for a search *)

Definition hopsFrom (rt : graph.Snapshot) : list investigate.Hop :=
  (λ e, investigate.MkHop (graph.Ed_From e) (graph.Ed_To e) (graph.Ed_Provenance e)) <$> graph.Gs_Edges rt.
Definition pathsFrom (rt : graph.Snapshot) : list investigate.Path :=
  (λ p, investigate.MkPath (graph.Pa_Services p) (graph.Pa_Provenance p)) <$> graph.Gs_Paths rt.
Definition serviceNames (rt : graph.Snapshot) : list string := graph.Sv_Name <$> graph.Gs_Services rt.
Definition bind_fact (b : locate.Binding) : investigate.Bind :=
  let r := TrimSpace (locate.B_HTTPMethod b +:+ " " +:+ locate.B_HTTPRoute b) in
  let route := if Contains r "/" then
    ToUpper (TrimSpace (locate.B_HTTPMethod b)) +:+ " " +:+ TrimSpace (locate.B_HTTPRoute b) else "" in
  investigate.MkBind (locate.B_ServiceName b) (locate.B_SourceName b) (locate.B_File b) route
    (locate.B_Provenance b) (locate.B_Line b).
Definition bindsFrom (loc : locate.Snapshot) : list investigate.Bind := bind_fact <$> locate.Lo_Bindings loc.
Definition routeFacts (spans : list Span) : list string := (λ r, "route " +:+ r) <$> uniqueServerRoutes spans.

(** ** Flags *)

Definition window_flags (environ : list string) : list (string * flag.Value) :=
  [("api", flag.VString (envAPI environ)); ("traces", flag.VInt defaultTraces); ("dir", flag.VString ".");
   ("service", flag.VString "")].
Definition diff_flags (environ : list string) : list (string * flag.Value) :=
  ("f", flag.VString "") :: window_flags environ.
Definition gateway_flags : list (string * flag.Value) :=
  [("base", flag.VString ""); ("patch", flag.VString ""); ("fixture", flag.VBool false); ("workload", flag.VString "")].

Definition replay_flags (environ : list string) : list (string * flag.Value) :=
  gateway_flags ++ window_flags environ ++ [("n", flag.VInt 1)].
Definition job_flags (environ : list string) : list (string * flag.Value) :=
  gateway_flags ++ diff_flags environ ++
  [("n", flag.VInt 0); ("smoke", flag.VBool false); ("health", flag.VString replay.DefaultHealthPath)].
Definition env_flags : list (string * flag.Value) :=
  [("shop", flag.VString defaultShop); ("out", flag.VString "out/env"); ("f", flag.VString "");
   ("base-port", flag.VInt 0); ("patch-port", flag.VInt 0)].
Definition workflow_flags (environ : list string) : list (string * flag.Value) :=
  gateway_flags ++ diff_flags environ ++
  [("n", flag.VInt 0); ("smoke", flag.VBool false); ("out", flag.VString ""); ("shop", flag.VString defaultShop);
   ("pair", flag.VString "out/env"); ("apply", flag.VBool false); ("plan-only", flag.VBool false)].

(** The arguments that [run] passes on to [experiment]. *)
Definition expArgs (fs : gmap string flag.Value) (tn : Z) : list string :=
  let str := flag.get_string fs in
  ["-api"; str "api"; "-dir"; str "dir"; "-traces"; Itoa tn; "-shop"; str "shop"; "-pair"; str "pair"] ++
  flag.opt_arg (str "service" != "") ["-service"; str "service"] ++
  flag.opt_arg (flag.get_bool fs "fixture") ["-fixture"] ++
  flag.opt_arg (str "workload" != "") ["-workload"; str "workload"] ++
  flag.opt_arg (0 <? flag.get_int fs "n")%Z ["-n"; Itoa (flag.get_int fs "n")] ++
  flag.opt_arg (flag.get_bool fs "smoke") ["-smoke"] ++
  flag.opt_arg (str "out" != "") ["-out"; str "out"] ++
  flag.opt_arg ((str "base" != "") || (str "patch" != "")) ["-base"; str "base"; "-patch"; str "patch"].

Definition clipRunLimit (n : Z) : Z :=
  if (n <=? 0)%Z then runs.DefaultList else if (runs.MaxList <? n)%Z then runs.MaxList else n.

Section run.
  Context `{GitBatch} `{GoDocker} `{GoHTTP} `{GoNet} `{GoJSON} `{GoSHA} `{PairJSON} `{evidence.EvidenceJSON}
    `{CliJSON} `{WorkloadJSON} `{CommandJSON} (word : N → bool) (host : Host).

Notation environ := (h_environ host).

Definition parse_flags (prefix : string) (flags : list (string * flag.Value)) (args : list string)
    : CM (gmap string flag.Value * list string) :=
  cwrap prefix (clift (flag.Parse (list_to_map flags) args)).
(** Commands without arguments other than flags. *)
Definition no_args (rest : list string) : CM () :=
  match rest with
  | [] => cret tt
  | a :: _ => cfail (Errorf ("unexpected argument " +:+ Quote a))
  end.

(** The diff of a command, with its source. *)
Definition command_diff (prefix : string) (stdin : Stdin) (fs : gmap string flag.Value) (rest : list string)
    : CM (string * string) :=
  cwrap prefix
    (let# path := clift (diffPath (flag.get_string fs "f") rest) in
     resolveDiff host stdin path (flag.get_string fs "dir") NoticesOut).

Definition flag_analysis (fs : gmap string flag.Value) (traces : Z) (raw : string)
    : CM (impact.Report * string) :=
  analyzeDiff host (flag.get_string fs "api") (flag.get_string fs "dir") traces
    (flag.get_string fs "service") raw.

(** ** plan, impact, replay, env *)

Definition RunPlan (stdin : Stdin) (args : list string) : CM () :=
  let# fr := parse_flags "cli: plan: " (diff_flags environ) args in
  let fs := fr.1 in
  let# rs := command_diff "cli: plan: " stdin fs fr.2 in
  let# ro := flag_analysis fs (flag.get_int fs "traces") rs.1 in
  let rep := ro.1 in
  let# dag := clift (plan.FromImpact rep) in
  let# t := cget s_files in
  let dag := with_tests host t (patchModule host t (flag.get_string fs "dir")) (impact.Rep_Files rep) dag in
  do# writef (line ("origin   " +:+ ro.2 +:+ "  diff=" +:+ rs.2)) in
  writef (writeEditPlan rep +:+ writePlan dag).

Definition RunImpact (stdin : Stdin) (args : list string) : CM () :=
  let# fr := parse_flags "cli: impact: " (diff_flags environ) args in
  let fs := fr.1 in
  let# rs := command_diff "cli: impact: " stdin fs fr.2 in
  let# ro := flag_analysis fs (flag.get_int fs "traces") rs.1 in
  writef (writeImpact ro.2 rs.2 ro.1).

(** The workload that the flags name. *)
Definition flag_workload (fs : gmap string flag.Value) : CM replay.Workload :=
  resolveWorkload host (flag.get_string fs "api") (flag.get_int fs "traces") (flag.get_string fs "service")
    (flag.get_bool fs "fixture") (flag.get_string fs "workload") (flag.get_string fs "dir").

Definition repeat_runs (ph : plan.Phase) (target : string) (w : replay.Workload) (n : Z) : CM (list replay.Result) :=
  match replay.Repeat (plan.Ph_ctx ph) (plan.Ph_exchange ph) target w n with
  | Ok rs => cret rs
  | Err e => cfail (Errorf (replay.run_err_text e))
  end.

Definition RunReplay (args : list string) : CM () :=
  let# fr := parse_flags "cli: replay: " (replay_flags environ) args in
  let fs := fr.1 in
  let base := flag.get_string fs "base" in
  let patch := flag.get_string fs "patch" in
  let n := flag.get_int fs "n" in
  do# cwrap "cli: replay: " (no_args fr.2) in
  do# cguard ((base == "") || (patch == "")) "cli: replay: -base and -patch are required" in
  let# w := flag_workload fs in
  do# cguard (bool_decide (replay.Workload_Steps w = []))
    "cli: replay: empty workload (no GET/HEAD/OPTIONS server routes in the trace window; pass -workload for mutating requests)" in
  let# world := cget (h_plan host) in
  let# baseRuns := repeat_runs (plan.W_base world) base w n in
  let# patchRuns := repeat_runs (plan.W_patch world) patch w n in
  match baseRuns, patchRuns with
  | b :: _, p :: _ =>
      let rep := replay.Compare b p in
      do# writef (writeReplay w b p rep (replay.Latency baseRuns patchRuns) (length baseRuns)) in
      cguard (replay.Report_Verdict rep == replay.VerdictIncomplete) "cli: replay: incomplete"
  | _, _ => cfail (Errorf "index out of range")
  end.

Definition RunEnv (stdin : Stdin) (args : list string) : CM () :=
  let# fr := parse_flags "cli: env: " env_flags args in
  let fs := fr.1 in
  let# snap := cwrap "cli: env: "
    (let# path := clift (diffPath (flag.get_string fs "f") fr.2) in
     captureBuild host stdin path (flag.get_string fs "shop")) in
  let# env := preparePair host
    (pair.MkPrepareOpts (Sn_Repo snap) (Sn_Baseline snap) (Sn_Patch snap) (flag.get_string fs "out")
       (flag.get_int fs "base-port") (flag.get_int fs "patch-port") false) in
  writef (writeEnv env).

(** ** runs, report *)

(** What the server stored, next to the coverage of the artifact. *)
Definition stored_decision (r : storedRun) (a : evidence.Artifact) : string :=
  let d := evidence.Decision_of a in
  writeDecision (evidence.A_Coverage a)
    (validate.MkDecision (validate.D_CoverageBasis d) (Sr_Validated r) (Sr_Blockers r)).
Definition attested_line (r : storedRun) : string :=
  if Sr_AttestedBy r != "" then line ("attested  " +:+ Sr_AttestedBy r +:+ " (uploaded evidence)") else "".

Definition marshal (a : evidence.Artifact) : CM string :=
  match evidence.Marshal a with
  | Ok raw => cret raw
  | Err e => cfail (Errorf (evidence_error e))
  end.
Definition decode_evidence (raw : string) : CM evidence.Artifact :=
  match evidence.Decode (evidence.MkReader raw None) with
  | Ok a => cret a
  | Err e => cfail (Errorf (evidence_error e))
  end.

Definition postRun (c : string) (a : evidence.Artifact) : CM () :=
  let# raw := marshal a in
  let# out := postJSON environ run_of_json c "/v1/runs" "application/json" raw in
  writef (line ("run       id=" +:+ Sr_ID out +:+ "  stored") +:+ attested_line out +:+ stored_decision out a).

Definition importRun (c path : string) : CM () :=
  do# cguard (Contains path "://") "cli: runs: -f must be a local file" in
  let# t := cget s_files in
  let# raw := cwrap "cli: runs: " (clift (read_file (h_cwd host) t path)) in
  let# a := decode_evidence raw in
  postRun c a.

Definition listRuns (c : string) (limit : Z) (service : string) : CM () :=
  let# rs := getJSON environ runs_of_json c ("/v1/runs" +:+ encodeListQuery (clipRunLimit limit) service) in
  writef (line ("runs      n=" +:+ fmt_len rs) +:+ lines ((λ r, "  " +:+ formatStored r) <$> rs) +:+
          line "validated is earned; match is not a pass.").

Definition getRun (c id : string) : CM () :=
  match runs.NormalizeID id with
  | None => cfail (Errorf "cli: runs: invalid id")
  | Some norm =>
      let# r := getJSON environ run_of_json c ("/v1/runs/" +:+ norm) in
      let a := Sr_Artifact r in
      writef (line ("run       " +:+ formatStored r) +:+ attested_line r +:+
              (if evidence.A_Schema a != "" then writeEvidence (evidence.A_Result a) else "") +:+
              stored_decision r a)
  end.

Definition RunRuns (args : list string) : CM () :=
  let# fr := parse_flags "cli: runs: "
    [("api", flag.VString (envAPI environ)); ("f", flag.VString ""); ("limit", flag.VInt runs.DefaultList);
     ("service", flag.VString "")] args in
  let '(fs, rest) := fr in
  let file := flag.get_string fs "f" in
  do# cguard ((file != "") && bool_decide (rest ≠ [])) "cli: runs: -f cannot be combined with an id" in
  let# c := clift (newClient (flag.get_string fs "api")) in
  if file != "" then importRun c file
  else match rest with
       | [] => listRuns c (flag.get_int fs "limit") (flag.get_string fs "service")
       | [id] => getRun c id
       | _ => cfail (Errorf "cli: runs: unexpected arguments")
       end.

Definition RunReport (args : list string) : CM () :=
  let# fr := parse_flags "cli: report: " [("out", flag.VString "")] args in
  let out := flag.get_string fr.1 "out" in
  match fr.2 with
  | [path] =>
      do# cguard (Contains path "://") "cli: report: path must be a local file" in
      let# t := cget s_files in
      let# raw := cwrap "cli: report: " (clift (read_file (h_cwd host) t path)) in
      let# a := decode_evidence raw in
      let md := markdown.Markdown a in
      do# writef md in
      if out == "" then cret tt
      else
        do# cguard (Contains out "://") "cli: report: -out must be a local file" in
        λ s, match os.WriteFile (s_files s) (os.from_dir (cwd_path host) out) md with
             | None => Some (Err (Errorf "cli: report: open"), s)
             | Some t => Some (Ok tt, set_world ((s_world s).1, t) s)
             end
  | _ => cfail (Errorf "cli: report: evidence json path is required")
  end.

(** ** status, attaches *)

Definition RunStatus (args : list string) : CM () :=
  let# fr := parse_flags "cli: status: " [("api", flag.VString (envAPI environ))] args in
  do# cwrap "cli: status: " (no_args fr.2) in
  let# c := clift (newClient (flag.get_string fr.1 "api")) in
  let# health := getJSON environ status_of_json c "/healthz" in
  ctry (getJSON environ status_of_json c "/readyz") (λ ready,
    let# ver := getJSON environ version_of_json c "/version" in
    let skew := versionSkew (h_version host) ver in
    do# writef (line ("api      " +:+ c) +:+ line ("version  " +:+ ver) +:+
                (if skew != "" then line ("skew     " +:+ skew) else "") +:+
                line ("health   " +:+ emptyDash health.1)) in
    match ready with
    | Err e => do# writef (line "ready    unavailable") in cfail e
    | Ok (status, err) =>
        do# writef (line ("ready    " +:+ emptyDash status)) in
        if EqualFold status "ready" then cret tt
        else cfail (Errorf (if err != "" then "cli: api not ready: " +:+ err else "cli: api not ready"))
    end).

Definition attach_line (a : Attach) : string :=
  "  " +:+ pad 16 (Attach_Service a) +:+ " spans=" +:+ Itoa (Attach_Spans a) +:+
  (if Attach_LastSeen a == 0%Z then "" else "  last=" +:+ markdown.Format_UTC (Attach_LastSeen a)).
Definition RunAttaches (args : list string) : CM () :=
  let# fr := parse_flags "cli: attaches: "
    [("api", flag.VString (envAPI environ)); ("limit", flag.VInt DefaultAttachList)] args in
  do# cguard (bool_decide (fr.2 ≠ [])) "cli: attaches: unexpected arguments" in
  let# c := clift (newClient (flag.get_string fr.1 "api")) in
  let# l := getJSON environ attaches_of_json c
    ("/v1/attaches" +:+ encodeListQuery (flag.get_int fr.1 "limit") "") in
  writef (line ("attaches n=" +:+ fmt_len l) +:+ lines (attach_line <$> l) +:+
          line "not tenants. aquila observe -service scopes one window.").

(** ** job, jobs *)

Definition unverified (err : option string) : CM () :=
  match err with
  | Some e => writef (line ("revision   unverified: " +:+ e))
  | None => cret tt
  end.

Definition RunJob (stdin : Stdin) (args : list string) : CM () :=
  let# fr := parse_flags "cli: job: " (job_flags environ) args in
  let fs := fr.1 in
  let base := flag.get_string fs "base" in
  let patch := flag.get_string fs "patch" in
  do# cguard ((base == "") || (patch == "")) "cli: job: -base and -patch are required" in
  let# rs := command_diff "cli: job: " stdin fs fr.2 in
  let# ro := flag_analysis fs (flag.get_int fs "traces") rs.1 in
  let rep := ro.1 in
  let# dag := clift (plan.FromImpact rep) in
  let dag := latency_flags fs dag in
  let# w := flag_workload fs in
  do# cguard (bool_decide (replay.Workload_Steps w = [])) "cli: job: empty workload" in
  do# cguard (existsb (λ st, negb (bool_decide (replay.Step_Headers st = []))) (replay.Workload_Steps w))
    "cli: job: workload headers are not stored in jobs (they may hold credentials); run aquila experiment locally" in
  let dag := plan.WithHealthPath dag (flag.get_string fs "health") in
  let# revs := declaredRevisions host (flag.get_string fs "dir") in
  let '(brev, prev, err) := revs in
  do# unverified err in
  let# c := clift (newClient (flag.get_string fs "api")) in
  let# body := cwrap "cli: job: " (clift (opts_to_json
    (jobs.MkCreateOpts brev prev base patch (ClipService (flag.get_string fs "service")) 0 w dag
       (impact.RuntimeRoutes rep) (impact.Classify rep)))) in
  let# job := postJSON environ job_of_json c "/v1/jobs" "application/json" body in
  do# cguard (jobs.J_Validated job) "cli: job: store claimed validated" in
  writef (line ("job      id=" +:+ jobs.J_ID job +:+ "  status=" +:+ jobs.J_Status job +:+ "  tasks=" +:+
                fmt_len (jobs.J_Tasks job)) +:+
          (if jobs.J_Service job != "" then line ("service  " +:+ jobs.J_Service job) else "") +:+
          lines ((λ t, "  " +:+ pad 14 (jobs.T_Kind t) +:+ " " +:+ jobs.T_State t) <$> jobs.J_Tasks job) +:+
          line ("impacted " +:+ fmt_len (jobs.J_Impacted job) +:+
                " routes; validated needs the workload to reach one") +:+
          line "not started by this command. aquila worker leases READY tasks." +:+ line "not validated.").

Definition job_lines (j : jobs.Job) : string :=
  line ("  " +:+ jobs.J_ID j +:+ "  " +:+ jobs.J_Status j +:+ "  tasks=" +:+ fmt_len (jobs.J_Tasks j) +:+
        (if jobs.J_Service j != "" then "  " +:+ jobs.J_Service j else "") +:+
        (if jobs.J_Validated j then "  validated" else "")) +:+
  lines ((λ b, "    blocker  " +:+ validate.Blocker_String b) <$> jobs.J_Blockers j).

Definition RunJobs (args : list string) : CM () :=
  let# fr := parse_flags "cli: jobs: "
    [("api", flag.VString (envAPI environ)); ("limit", flag.VInt jobs.DefaultList); ("service", flag.VString "");
     ("json", flag.VBool false)] args in
  let '(fs, rest) := fr in
  let# c := clift (newClient (flag.get_string fs "api")) in
  match rest with
  | [] =>
      let# js := getJSON environ jobs_of_json c
        ("/v1/jobs" +:+ encodeListQuery (flag.get_int fs "limit") (flag.get_string fs "service")) in
      writef (line ("jobs     n=" +:+ fmt_len js) +:+ foldr String.append "" (job_lines <$> js))
  | [id] =>
      let# j := getJSON environ job_of_json c ("/v1/jobs/" +:+ id) in
      if flag.get_bool fs "json" then
        let# text := cwrap "cli: jobs: " (clift (job_indent j)) in writef text
      else writef (writeJob j)
  | [cmd; id] =>
      if cmd == "cancel" then
        let# j := postJSON environ job_of_json c ("/v1/jobs/" +:+ id +:+ "/cancel") "application/json" "{}" in
        writef (line ("job      id=" +:+ jobs.J_ID j +:+ "  status=" +:+ jobs.J_Status j) +:+
                line "canceled. remaining READY tasks will not lease.")
      else cfail (Errorf "cli: jobs: unexpected arguments")
  | _ => cfail (Errorf "cli: jobs: unexpected arguments")
  end.

(** ** observe *)

Record Joined := MkJoined {
  Jn_src : source.Snapshot;
  Jn_loc : locate.Snapshot;
  Jn_origin : string;
  Jn_spans : list Span;
  Jn_srcErr : option Error;
  Jn_locErr : option Error;
}.

Definition no_source : source.Snapshot := source.MkSnapshot "" [] [].
Definition no_locate : locate.Snapshot := locate.MkSnapshot [] [] 0 0 0.
Definition hard (e : Error) : bool := negb (unavailable e).

(** Joining the spans with a graph, or with none. *)
Definition join_spans (api service : string) (traces : Z) (src : source.Snapshot) (origin : string)
    (g : option source.Graph) : CM Joined :=
  ctry (fetchSpans host api traces service) (λ spans,
    cret match spans with
         | Err e => MkJoined src no_locate origin [] None (Some e)
         | Ok spans => MkJoined src (locate.Bind g spans) origin spans None None
         end).

Definition join_api (c api service : string) (traces : Z) (q : string) : CM Joined :=
  ctry (getJSON environ source_of_json c "/v1/source") (λ src,
    let srcErr := match src with Err e => Some e | Ok _ => None end in
    let src := match src with Ok v => v | Err _ => no_source end in
    if from_option hard false srcErr then cret (MkJoined src no_locate originAPI [] srcErr None)
    else ctry (getJSON environ locate_of_json c ("/v1/locate" +:+ q)) (λ loc,
      let locErr := match loc with Err e => Some e | Ok _ => None end in
      let loc := match loc with Ok v => v | Err _ => no_locate end in
      if from_option hard false locErr then cret (MkJoined src loc originAPI [] srcErr locErr)
      else ctry (fetchSpans host api traces service) (λ spans,
        cret (MkJoined src loc originAPI (match spans with Ok l => l | Err _ => [] end) srcErr locErr)))).

Definition observeJoin (c api dir : string) (traces : Z) (service q : string) : CM Joined :=
  let# t := cget s_files in
  match loadTargetSource host t dir with
  | Some g => join_spans api service traces (source.Snapshot_ (Some g)) originCwd (Some g)
  | None =>
      if controlPlaneDir (h_cwd host) t dir then join_api c api service traces q
      else join_spans api service traces no_source originNone None
  end.

Definition worktree_state (dir : string) : CM (string * result gitrun.Error bool) := λ s,
  let '(sha, dirty, w) := gitrun.State environ (h_ctx host s) (h_cwd host) dir (s_world s) in
  Some (Ok (sha, dirty), set_world w s).

Definition writeWorktree (dir : string) : CM () :=
  let# st := worktree_state dir in
  match st with
  | (sha, Ok dirty) =>
      if sha == "" then cret tt
      else
        do# writef (line ("worktree  sha=" +:+ sha +:+ "  " +:+ (if dirty then "dirty" else "clean"))) in
        if negb dirty then writef (line "")
        else
          let# paths := (λ s, cgit (gitrun.ChangedPaths environ (h_ctx host s) (h_cwd host) dir) s) in
          match paths with
          | Err _ => writef (line "")
          | Ok paths =>
              writef (lines ((λ p, "  " +:+ p) <$> take 10 paths) +:+
                      (if (10 <? length paths)%nat then
                         line ("  (" +:+ Itoa (Z.of_nat (length paths - 10)) +:+ " more)")
                       else "") +:+ line "")
          end
  | (_, Err _) => cret tt
  end.

Definition edit_lines (origin : string) (rep : impact.Report) : string :=
  let direct := take maxPrintBindings (impact.Rep_Direct rep) in
  if bool_decide (impact.Rep_Direct rep = []) && bool_decide (impact.Rep_Runtime rep = []) &&
     bool_decide (impact.Rep_Unobserved rep = []) then ""
  else
    line ("edit     origin=" +:+ origin +:+ "  files=" +:+ fmt_len (impact.Rep_Files rep) +:+ "  direct=" +:+
          fmt_len (impact.Rep_Direct rep) +:+ "  runtime=" +:+ fmt_len (impact.Rep_Runtime rep)) +:+
    findings (direct ++ take (maxPrintBindings - length direct) (impact.Rep_Runtime rep)) +:+ line "".
Definition writeLocalEdit (dir origin : string) (loc : locate.Snapshot) (spans : list Span) : CM () :=
  if origin == originAPI then cret tt
  else ctry (resolveDiff host emptyStdin "" dir NoticesOut) (λ ro,
    match ro with
    | Err _ => cret tt
    | Ok (raw, _) =>
        if raw == "" then cret tt
        else match diff.Parse raw with
             | Err _ => cret tt
             | Ok parsed =>
                 let# t := cget s_files in
                 writef (edit_lines origin
                   match loadTargetSource host t dir with
                   | Some g => analyze.Analyze (Some g) parsed loc (graph.Build spans)
                   | None => analyze.FromDiff parsed spans
                   end)
             end
    end).

Definition fail_hard (e : option Error) : CM () :=
  match e with
  | Some e => if unavailable e then cret tt else cfail e
  | None => cret tt
  end.

(** The runtime graph of the window: the server's, or of the spans of one service. *)
Definition window_graph (service : string) (rt : graph.Snapshot) (spans : list Span) : graph.Snapshot :=
  if ClipService service != "" then graph.Build spans else rt.

Definition observe_source (j : Joined) : CM () :=
  if Jn_origin j == originNone then
    writef (line ("source  not a Go module  origin=" +:+ Jn_origin j) +:+
            line "  typed locate and callers need go.mod in -dir")
  else match Jn_srcErr j with
       | Some e => do# writef (line "source  unavailable") in
                   writeErr (line ("observe: source: " +:+ err_text e))
       | None => writef (writeSource (Jn_src j) (Jn_origin j))
       end.
Definition observe_locate (j : Joined) : CM () :=
  match Jn_locErr j with
  | Some e => do# writef (line "locate  unavailable") in writeErr (line ("observe: locate: " +:+ err_text e))
  | None => writef (writeLocate (Jn_loc j))
  end.

Definition RunObserve (args : list string) : CM () :=
  let# fr := parse_flags "cli: observe: " (window_flags environ) args in
  let fs := fr.1 in
  let api := flag.get_string fs "api" in
  let dir := flag.get_string fs "dir" in
  let service := flag.get_string fs "service" in
  do# cwrap "cli: observe: " (no_args fr.2) in
  let# c := clift (newClient api) in
  let n := clipTraces (flag.get_int fs "traces") in
  let q := windowQuery n service in
  let# rt := getJSON environ graph_of_json c ("/v1/graph" +:+ q) in
  let# j := observeJoin c api dir n service q in
  do# fail_hard (Jn_srcErr j) in
  do# fail_hard (Jn_locErr j) in
  do# writef (line ("api  " +:+ c +:+ "  traces=" +:+ Itoa n) +:+ line "" +:+ writeAttach service (Jn_spans j)) in
  do# writeWorktree dir in
  do# writeLocalEdit dir (Jn_origin j) (Jn_loc j) (Jn_spans j) in
  do# writef (writeRuntime (window_graph service rt (Jn_spans j)) +:+ writeRoutes (Jn_spans j) +:+ line "") in
  do# observe_source j in
  do# writef (line "") in
  observe_locate j.

(** ** ask, patch *)

(** The facts of the window, for a question. *)
Definition question_input (q : string) (j : Joined) (rt : graph.Snapshot) (rep : option impact.Report)
    : investigate.Input :=
  investigate.MkInput q (Jn_origin j) (serviceNames rt) (hopsFrom rt) (pathsFrom rt) (routeFacts (Jn_spans j))
    (bindsFrom (Jn_loc j)) rep.

(** The part that [RunAsk] and [RunWorkflow] share: facts, search and printing. *)
Definition investigate_window (fs : gmap string flag.Value) (q raw missing : string) : CM () :=
  let api := flag.get_string fs "api" in
  let service := flag.get_string fs "service" in
  let# c := clift (newClient api) in
  let n := clipTraces (flag.get_int fs "traces") in
  let query := windowQuery n service in
  let# rt := getJSON environ graph_of_json c ("/v1/graph" +:+ query) in
  let# j := observeJoin c api (flag.get_string fs "dir") n service query in
  do# fail_hard (Jn_locErr j) in
  let rt := window_graph service rt (Jn_spans j) in
  let# rep :=
    (if raw == "" then cret None
     else ctry (flag_analysis fs n raw) (λ res,
       match res with
       | Ok ro => cret (Some ro.1)
       | Err e => if q == "" then cfail e else cret None
       end)) in
  do# cguard ((q == "") && bool_decide (rep = None)) missing in
  let# ans := clift (investigate.Search word (question_input q j rt rep)) in
  writef (writeAsk ans).

Definition question (rest : list string) : string := TrimSpace (Join rest " ").

Definition RunAsk (stdin : Stdin) (args : list string) : CM () :=
  let# fr := parse_flags "cli: ask: " (diff_flags environ) args in
  let fs := fr.1 in
  let q := question fr.2 in
  let# raw :=
    (if flag.get_string fs "f" != "" then cwrap "cli: ask: " (slurpDiff host stdin (flag.get_string fs "f"))
     else ctry (resolveDiff host emptyStdin "" (flag.get_string fs "dir") NoticesErr) (λ ro,
       cret match ro with Ok ro => ro.1 | Err _ => "" end)) in
  do# cguard ((q == "") && (raw == "")) "cli: ask: question required" in
  investigate_window fs q raw "cli: ask: question required".

(** [diff.Apply] on the module. *)
Definition apply_candidate (prefix dir cand : string) : CM () := λ s,
  let '(res, t) := diff.Apply (wd host) dir cand (s_files s) in
  let s := set_world ((s_world s).1, t) s in
  Some (match res with Ok _ => Ok tt | Err e => Err (Errorf (prefix +:+ diff_error e)) end, s).

Definition RunPatch (stdin : Stdin) (args : list string) : CM () :=
  let# fr := parse_flags "cli: patch: " (diff_flags environ ++ [("apply", flag.VBool false)]) args in
  let fs := fr.1 in
  let# rs := command_diff "cli: patch: " stdin fs fr.2 in
  let# ro := flag_analysis fs (flag.get_int fs "traces") rs.1 in
  let# t := cget s_files in
  let root := patchModule host t (flag.get_string fs "dir") in
  let# cand := cwrap "cli: patch: " (clift (rewrite.Candidates (wd host) t root (impact.Rep_Files ro.1))) in
  do# writef cand in
  if flag.get_bool fs "apply" then
    do# apply_candidate "cli: patch: " root cand in
    writef (line "applied. not validated. run aquila experiment.")
  else writef (line "not applied. not validated. candidate only.").

(** ** run *)

Definition workflow_candidate (fs : gmap string flag.Value) (root : string) (files : list string) : CM () :=
  let# t := cget s_files in
  match rewrite.Candidates (wd host) t root files with
  | Err _ => writef (line "patch    no candidate")
  | Ok cand =>
      do# writef cand in
      if flag.get_bool fs "apply" then
        do# apply_candidate "cli: run: " root cand in writef (line "applied. not validated.")
      else writef (line "not applied. not validated. candidate only.")
  end.

Definition RunWorkflow (stdin : Stdin) (args : list string) : CM () :=
  let# fr := parse_flags "cli: run: " (workflow_flags environ) args in
  let fs := fr.1 in
  let q := question fr.2 in
  let dir := flag.get_string fs "dir" in
  ctry (resolveDiff host stdin (flag.get_string fs "f") dir NoticesOut) (λ ro,
    let raw := match ro with Ok ro => ro.1 | Err _ => "" end in
    do# cguard ((q == "") && (raw == "")) "cli: run: question or diff required" in
    do# investigate_window fs q raw "cli: run: question or diff required" in
    if raw == "" then cret tt
    else
      let tn := clipTraces (flag.get_int fs "traces") in
      let# ro := flag_analysis fs tn raw in
      let rep := ro.1 in
      let# dag := clift (plan.FromImpact rep) in
      let# t := cget s_files in
      let root := patchModule host t dir in
      do# writef (writePlan (with_tests host t root (impact.Rep_Files rep) (latency_flags fs dag))) in
      do# workflow_candidate fs root (impact.Rep_Files rep) in
      if flag.get_bool fs "plan-only" then cret tt
      else RunExperiment host (MkStdin false (evidence.MkReader raw None)) (expArgs fs tn)).

(** ** A source that cannot be had

    After an error other than 503 from the source endpoint the spans and the
    bindings stay empty, and the locate error is none. [RunObserve] fails with the
    source error; [RunAsk] and [RunWorkflow] only look at the locate error, and
    search in what is left. *)
Lemma join_api_source_error c api service traces q s e s1 :
  getJSON environ source_of_json c "/v1/source" s = Some (Err e, s1) → unavailable e = false →
  join_api c api service traces q s =
    Some (Ok (MkJoined no_source no_locate originAPI [] (Some e) None), s1).
Proof. intros Hs He. unfold join_api, ctry. rewrite Hs. simpl. unfold hard. by rewrite He. Qed.

(** Runs are never missing, so the first ones can be compared. *)
Lemma repeat_runs_nonempty ph target w n rs s s' :
  repeat_runs ph target w n s = Some (Ok rs, s') → rs ≠ [].
Proof.
  unfold repeat_runs, replay.Repeat. destruct (replay.clipRepeats n) as [k|] eqn:Hk; [|done]. simpl.
  assert (1 ≤ k)%Z as Hpos.
  { clear - Hk. unfold replay.clipRepeats, guard_err in Hk. destruct (Z.ltb_spec n 1); [done|]. simpl in Hk. destruct (_ <? _)%Z; simpl in Hk; by simplify_eq. }
  destruct (Z.to_nat k) as [|m] eqn:Hm; [lia|]. simpl. destruct (plan.Ph_ctx ph 0); [done|].
  destruct (replay.Run _ _ _) as [r|]; [|done]. simpl. destruct (replay.repeat_loop _ _ _ _ _ _); [|done].
  by intros [= <- _].
Qed.

(** ** Only [env], [experiment] and [run] touch docker *)

Section keeps.
  Context (P : relation Sys) {DockerOnly0 : DockerOnly P}.

Lemma parse_flags_keeps prefix flags args : ckeeps P (parse_flags prefix flags args).
Proof using Type DockerOnly0. unfold parse_flags. cm_keeps. Qed.
Lemma no_args_keeps rest : ckeeps P (no_args rest).
Proof using Type DockerOnly0. unfold no_args. cm_keeps. Qed.
Lemma command_diff_keeps prefix stdin fs rest : ckeeps P (command_diff prefix stdin fs rest).
Proof using Type DockerOnly0. unfold command_diff. cm_keeps. Qed.
Lemma flag_analysis_keeps fs traces raw : ckeeps P (flag_analysis fs traces raw).
Proof using Type DockerOnly0. apply analyzeDiff_keeps, _. Qed.
Lemma flag_workload_keeps fs : ckeeps P (flag_workload fs).
Proof using Type DockerOnly0. apply resolveWorkload_keeps, _. Qed.
Lemma cguard_keeps bad text : ckeeps P (cguard bad text).
Proof using Type DockerOnly0. apply ckeeps_lift, _. Qed.
#[local] Hint Resolve parse_flags_keeps no_args_keeps command_diff_keeps flag_analysis_keeps flag_workload_keeps
  cguard_keeps : cm.

Lemma RunPlan_keeps stdin args : ckeeps P (RunPlan stdin args).
Proof using Type DockerOnly0. unfold RunPlan. cm_keeps. Qed.
Lemma RunImpact_keeps stdin args : ckeeps P (RunImpact stdin args).
Proof using Type DockerOnly0. unfold RunImpact. cm_keeps. Qed.
Lemma RunReplay_keeps args : ckeeps P (RunReplay args).
Proof using Type DockerOnly0. unfold RunReplay, repeat_runs. cm_keeps. Qed.
Lemma RunRuns_keeps args : ckeeps P (RunRuns args).
Proof using Type DockerOnly0.
  unfold RunRuns, importRun, listRuns, getRun, postRun, marshal, decode_evidence. cm_keeps.
Qed.
Lemma RunReport_keeps args : ckeeps P (RunReport args).
Proof using Type DockerOnly0.
  unfold RunReport, decode_evidence. cm_keeps. apply ckeeps_same; [done|]. intros st res st'.
  destruct (os.WriteFile _ _ _); by intros [= _ <-].
Qed.
Lemma RunStatus_keeps args : ckeeps P (RunStatus args).
Proof using Type DockerOnly0. unfold RunStatus. cm_keeps. Qed.
Lemma RunAttaches_keeps args : ckeeps P (RunAttaches args).
Proof using Type DockerOnly0. unfold RunAttaches. cm_keeps. Qed.
Lemma RunJob_keeps stdin args : ckeeps P (RunJob stdin args).
Proof using Type DockerOnly0. unfold RunJob, unverified. cm_keeps. Qed.
Lemma RunJobs_keeps args : ckeeps P (RunJobs args).
Proof using Type DockerOnly0. unfold RunJobs. cm_keeps. Qed.

Lemma observeJoin_keeps c api dir traces service q : ckeeps P (observeJoin c api dir traces service q).
Proof using Type DockerOnly0. unfold observeJoin, join_api, join_spans. cm_keeps. Qed.
Lemma writeWorktree_keeps dir : ckeeps P (writeWorktree dir).
Proof using Type DockerOnly0.
  unfold writeWorktree. cm_keeps.
  - apply ckeeps_same; [done|]. intros s res s'. unfold worktree_state.
    destruct (gitrun.State _ _ _ _ _) as [[sha dirty] w]. by intros [= _ <-].
  - intros st res st'. by apply ckeeps_git.
Qed.
#[local] Hint Resolve observeJoin_keeps writeWorktree_keeps : cm.
Lemma RunObserve_keeps args : ckeeps P (RunObserve args).
Proof using Type DockerOnly0. unfold RunObserve, fail_hard, writeLocalEdit, observe_source, observe_locate. cm_keeps. Qed.

Lemma investigate_window_keeps fs q raw missing : ckeeps P (investigate_window fs q raw missing).
Proof using Type DockerOnly0. unfold investigate_window, fail_hard. cm_keeps. Qed.
#[local] Hint Resolve investigate_window_keeps : cm.
Lemma RunAsk_keeps stdin args : ckeeps P (RunAsk stdin args).
Proof using Type DockerOnly0. unfold RunAsk, slurpDiff. cm_keeps. Qed.
Lemma apply_candidate_keeps prefix dir cand : ckeeps P (apply_candidate prefix dir cand).
Proof using Type DockerOnly0.
  apply ckeeps_same; [done|]. intros s res s'. unfold apply_candidate. destruct (diff.Apply _ _ _ _).
  by intros [= _ <-].
Qed.
#[local] Hint Resolve apply_candidate_keeps : cm.
Lemma RunPatch_keeps stdin args : ckeeps P (RunPatch stdin args).
Proof using Type DockerOnly0. unfold RunPatch. cm_keeps. Qed.
Lemma workflow_candidate_keeps fs root files : ckeeps P (workflow_candidate fs root files).
Proof using Type DockerOnly0. unfold workflow_candidate. cm_keeps. Qed.
End keeps.

Section stopping.
  Context `{!pairs.DockerLaws}.

Lemma RunEnv_shrinks stdin args : ckeeps shrinks (RunEnv stdin args).
Proof using All.
  unfold RunEnv. apply ckeeps_bind; [apply _|apply parse_flags_keeps, _|intros fr].
  apply ckeeps_bind; [apply _| |intros snap].
  { cm_keeps. }
  apply ckeeps_bind; [apply _|apply preparePair_shrinks|intros env]. apply ckeeps_writef, _.
Qed.

Lemma try_stops {A B} (m : CM A) (k : result Error A → CM B) :
  ckeeps shrinks m → (∀ r, ckeeps stops (k r)) → ckeeps stops (ctry m k).
Proof using Type.
  intros Hm Hk s res s'. unfold ctry. intros ([r s1] & E%Hm & Hr%Hk)%bind_Some.
  destruct Hr as [Hr|?]; [left; by etrans|by right].
Qed.

Lemma RunWorkflow_stops stdin args : ckeeps stops (RunWorkflow stdin args).
Proof using All.
  unfold RunWorkflow. apply bind_stops; [apply parse_flags_keeps, _|intros fr]. cbv zeta.
  apply try_stops; [apply resolveDiff_keeps, _|intros ro].
  apply bind_stops; [apply cguard_keeps, _|intros []].
  apply bind_stops; [apply investigate_window_keeps, _|intros []].
  case_bool_decide; [apply shrinks_stops, ckeeps_ret, _|].
  apply bind_stops; [apply flag_analysis_keeps, _|intros rep].
  apply bind_stops; [apply ckeeps_lift, _|intros dag].
  apply bind_stops; [apply ckeeps_get, _|intros t]. apply bind_stops; [apply ckeeps_writef, _|intros []].
  apply bind_stops; [apply workflow_candidate_keeps, _|intros []].
  destruct (flag.get_bool _ _); [apply shrinks_stops, ckeeps_ret, _|]. apply RunExperiment_keeps.
Qed.
End stopping.

End run.

(** ** [run] passes its flags on *)

Ltac next_flag lem :=
  erewrite lem; [|reflexivity|rewrite ?flag.over_ne by discriminate; reflexivity|..].

Definition forwarded_strings : list string :=
  ["api"; "dir"; "shop"; "pair"; "service"; "workload"; "out"; "base"; "patch"].

Section forward.
  Context (environ : list string) (fs : gmap string flag.Value) (tn : Z).

Let str := flag.get_string fs.
Let both := (str "base" != "") || (str "patch" != "").

Definition forwarded : gmap string flag.Value :=
  flag.over both "patch" (flag.VString (str "patch")) (flag.over both "base" (flag.VString (str "base"))
  (flag.over (str "out" != "") "out" (flag.VString (str "out"))
  (flag.over (flag.get_bool fs "smoke") "smoke" (flag.VBool true)
  (flag.over (0 <? flag.get_int fs "n")%Z "n" (flag.VInt (flag.get_int fs "n"))
  (flag.over (str "workload" != "") "workload" (flag.VString (str "workload"))
  (flag.over (flag.get_bool fs "fixture") "fixture" (flag.VBool true)
  (flag.over (str "service" != "") "service" (flag.VString (str "service"))
  (flag.over true "pair" (flag.VString (str "pair")) (flag.over true "shop" (flag.VString (str "shop"))
  (flag.over true "traces" (flag.VInt tn) (flag.over true "dir" (flag.VString (str "dir"))
  (flag.over true "api" (flag.VString (str "api")) (experiment_flags environ))))))))))))).

Lemma expArgs_segments :
  expArgs fs tn =
  flag.opt_arg true ["-" +:+ "api"; str "api"] ++ flag.opt_arg true ["-" +:+ "dir"; str "dir"] ++
  flag.opt_arg true ["-" +:+ "traces"; Itoa tn] ++ flag.opt_arg true ["-" +:+ "shop"; str "shop"] ++
  flag.opt_arg true ["-" +:+ "pair"; str "pair"] ++
  flag.opt_arg (str "service" != "") ["-" +:+ "service"; str "service"] ++
  flag.opt_arg (flag.get_bool fs "fixture") ["-" +:+ "fixture"] ++
  flag.opt_arg (str "workload" != "") ["-" +:+ "workload"; str "workload"] ++
  flag.opt_arg (0 <? flag.get_int fs "n")%Z ["-" +:+ "n"; Itoa (flag.get_int fs "n")] ++
  flag.opt_arg (flag.get_bool fs "smoke") ["-" +:+ "smoke"] ++
  flag.opt_arg (str "out" != "") ["-" +:+ "out"; str "out"] ++
  flag.opt_arg both ["-" +:+ "base"; str "base"] ++ flag.opt_arg both ["-" +:+ "patch"; str "patch"] ++ [].
Proof. unfold expArgs. fold str both. by destruct both. Qed.

Lemma expArgs_parse :
  (0 ≤ tn < 2 ^ 63)%Z → (flag.get_int fs "n" < 2 ^ 63)%Z →
  flag.Parse (experiment_flags environ) (expArgs fs tn) = Ok (forwarded, []).
Proof.
  intros Ht Hn. rewrite expArgs_segments.
  next_flag flag.Parse_opt_string. next_flag flag.Parse_opt_string. next_flag flag.Parse_opt_int; [|done].
  do 3 next_flag flag.Parse_opt_string. next_flag flag.Parse_opt_bool. next_flag flag.Parse_opt_string.
  next_flag flag.Parse_opt_int; [|intros Hb%Z.ltb_lt; lia]. next_flag flag.Parse_opt_bool.
  do 3 next_flag flag.Parse_opt_string. reflexivity.
Qed.

Ltac read_flag := unfold forwarded; rewrite ?flag.over_ne by discriminate; rewrite ?flag.over_eq.

Lemma forwarded_string name :
  name ∈ forwarded_strings → flag.get_string forwarded name = str name.
Proof.
  unfold forwarded_strings. intros Hin. unfold flag.get_string. repeat (apply elem_of_cons in Hin as [->|Hin]).
  10: by apply elem_of_nil in Hin.
  1-4: by read_flag.
  1-3: read_flag; case_bool_decide as Hn; cbn [negb]; rewrite ?flag.over_ne by discriminate; [symmetry; exact Hn|done].
  all: read_flag; unfold both; do 2 case_bool_decide; cbn [negb orb]; rewrite ?flag.over_ne by discriminate;
    first [done|by symmetry].
Qed.
Lemma forwarded_bool name :
  name ∈ ["fixture"; "smoke"] → flag.get_bool forwarded name = flag.get_bool fs name.
Proof.
  intros Hin. rewrite !elem_of_cons, elem_of_nil in Hin. destruct Hin as [->|[->|[]]];
    unfold flag.get_bool at 1; read_flag; destruct (flag.get_bool fs _); rewrite ?flag.over_ne by discriminate; done.
Qed.
Lemma forwarded_rest :
  flag.get_int forwarded "traces" = tn ∧ flag.get_int forwarded "n" = Z.max 0 (flag.get_int fs "n") ∧
  flag.get_string forwarded "f" = "".
Proof.
  unfold flag.get_int at 1 2, flag.get_string at 1. split_and!; read_flag; [done| |done].
  destruct (Z.ltb_spec 0 (flag.get_int fs "n")); [lia|]. rewrite ?flag.over_ne by discriminate.
  change (0 = Z.max 0 (flag.get_int fs "n"))%Z. lia.
Qed.
End forward.

Lemma workflow_flags_range environ : flag.int_range (list_to_map (workflow_flags environ)).
Proof.
  intros name n Hl%elem_of_list_to_map_2. unfold workflow_flags, gateway_flags, diff_flags, window_flags in Hl.
  unfold defaultTraces in Hl. simpl in Hl.
  repeat (apply elem_of_cons in Hl as [Heq|Hl]; [first [discriminate Heq|injection Heq as _ ->; lia]|]).
  by apply elem_of_nil in Hl.
Qed.

Lemma clipTraces_range n : (1 ≤ clipTraces n ≤ maxTraces)%Z.
Proof. unfold clipTraces, defaultTraces, maxTraces. repeat case_match; lia. Qed.

(** C36: [aquila run] hands its flags to [aquila experiment] through a list of
    arguments. Whatever arguments [run] accepted, [experiment] accepts that list
    with nothing left over and reads the same values from it: every string, also
    one that is empty or looks like a flag, the booleans, the clipped trace window,
    and the repeats (a negative number as 0); the diff comes from standard input. *)
Theorem run_forwards_flags environ args fs rest :
  flag.Parse (list_to_map (workflow_flags environ)) args = Ok (fs, rest) →
  let tn := clipTraces (flag.get_int fs "traces") in
  ∃ fs', flag.Parse (experiment_flags environ) (expArgs fs tn) = Ok (fs', []) ∧
    (∀ name, name ∈ forwarded_strings → flag.get_string fs' name = flag.get_string fs name) ∧
    (∀ name, name ∈ ["fixture"; "smoke"] → flag.get_bool fs' name = flag.get_bool fs name) ∧
    flag.get_int fs' "traces" = tn ∧ flag.get_int fs' "n" = Z.max 0 (flag.get_int fs "n") ∧
    flag.get_string fs' "f" = "".
Proof.
  intros Hp tn. exists (forwarded environ fs tn).
  assert (flag.get_int fs "n" < 2 ^ 63)%Z as Hn.
  { unfold flag.get_int. destruct (fs !! "n") as [[| |n|]|] eqn:E; try lia.
    eapply flag.Parse_range in E; [lia|apply workflow_flags_range|done]. }
  split; [|split; [apply forwarded_string|split; [apply forwarded_bool|apply forwarded_rest]]].
  apply expArgs_parse; [|done]. pose proof (clipTraces_range (flag.get_int fs "traces")). unfold maxTraces in *. lia.
Qed.

Definition sample_args : list string := ["-n"; "5"; "-service"; "-x"; "-smoke"; "why"].
Definition sample_reading (p : result string (gmap string flag.Value * list string)) :=
  match p with
  | Ok (fs, rest) =>
      Some (flag.get_string fs "service", flag.get_bool fs "smoke", flag.get_int fs "n", rest)
  | Err _ => None
  end.
Lemma sample_parses :
  sample_reading (flag.Parse (list_to_map (workflow_flags [])) sample_args) = Some ("-x", true, 5%Z, ["why"]).
Proof. vm_compute. reflexivity. Qed.

Lemma run_forwards_flags_witness :
  ∃ fs fs', flag.Parse (list_to_map (workflow_flags [])) sample_args = Ok (fs, ["why"]) ∧
    flag.Parse (experiment_flags []) (expArgs fs (clipTraces (flag.get_int fs "traces"))) = Ok (fs', []) ∧
    flag.get_string fs' "service" = "-x" ∧ flag.get_bool fs' "smoke" = true ∧ flag.get_int fs' "n" = 5%Z.
Proof.
  pose proof sample_parses as Hr.
  destruct (flag.Parse (list_to_map (workflow_flags [])) sample_args) as [[fs rest]|e] eqn:E; [|discriminate Hr].
  pose proof (run_forwards_flags [] sample_args fs rest E) as (fs' & Hp & Hs & Hb & _ & Hn & _).
  injection Hr as Hr1 Hr2 Hr3 ->. exists fs, fs'. split; [reflexivity|]. split; [exact Hp|].
  split; [etrans; [apply Hs; clear; unfold forwarded_strings; set_solver|exact Hr1]|].
  split; [etrans; [apply Hb; clear; set_solver|exact Hr2]|]. etrans; [exact Hn|]. by rewrite Hr3.
Defined.
End commands.
