(* ===== verification/Exec.v ===== *)
(** * Running one command: [sandbox/oci.go], [nexec/nexec.go], the executor's [main.cpp]

    [Module sandbox]: a container. [Module executor]: the arguments, the time limit and
    the exit status of [aquila-exec]; what the command does is a parameter. [Module
    nexec]: the Go side of it. *)

From S2P Require Import Prelude GoStrings GoText GoOS Net Ingest Replay Impact Plan Validate Source GitRev Flags Load Snapshot Materialize Pair Workload Evidence Cli.

(** A string that contains another is one with that in the middle. *)
Lemma Contains_trans s t u : Contains s t = true → Contains t u = true → Contains s u = true.
Proof.
  rewrite !Contains_iff. intros (a & b & ->) (c & d & ->). exists (a +:+ c), (d +:+ b). by rewrite !str_app_assoc.
Qed.

Definition docker_sock : string := "docker.sock".

(** ** [sandbox/oci.go] *)

Module sandbox.

Definition defaultImage : string := "alpine:3.21".
Definition maxRuntime : Z := 30000000000.

Record Spec := MkSpec {
  S_Image : string;
  S_Args : list string;
  S_Memory : string;
  S_CPUs : string;
  S_PIDs : Z;
  S_Network : string;
}.

Definition image (s : Spec) : string := if TrimSpace (S_Image s) == "" then defaultImage else S_Image s.
Definition memory (s : Spec) : string := if TrimSpace (S_Memory s) == "" then "64m" else S_Memory s.
Definition cpus (s : Spec) : string := if TrimSpace (S_CPUs s) == "" then "0.25" else S_CPUs s.
Definition pids (s : Spec) : string := Itoa (if (S_PIDs s <? 1)%Z then 32 else S_PIDs s).
Definition network (s : Spec) : string := if S_Network s == "host" then "host" else "none".

Definition Args (s : Spec) : list string :=
  ["run"; "--rm"; "--user"; "65532:65532"; "--cap-drop"; "ALL"; "--security-opt"; "no-new-privileges"; "--read-only";
   "--network"; network s; "--memory"; memory s; "--cpus"; cpus s; "--pids-limit"; pids s; image s] ++ S_Args s.

Definition hasDockerSock (args : list string) : bool := Contains (Join args " ") docker_sock.

(** [docker] is the output and the error of the command, which has 30 seconds. *)
Definition Run (ctx : option string) (installed : bool) (docker : list string → string * option string) (s : Spec)
    : string * option string :=
  match ctx with
  | Some e => ("", Some e)
  | None =>
      if bool_decide (S_Args s = []) then ("", Some "sandbox: command required")
      else
        let args := Args s in
        if hasDockerSock args then ("", Some "sandbox: docker.sock is forbidden")
        else if negb installed then ("", Some "sandbox: docker unavailable")
        else
          let '(out, err) := docker args in
          match err with
          | Some e => (out, Some ("sandbox: " +:+ e))
          | None => (out, None)
          end
  end.

(** What docker is asked for: an unprivileged user without capabilities on a read-only
    file system with limits, and no argument that names the socket. *)
Definition hardened (args : list string) : Prop :=
  (∃ net mem cpu pid rest,
     args = ["run"; "--rm"; "--user"; "65532:65532"; "--cap-drop"; "ALL"; "--security-opt"; "no-new-privileges";
             "--read-only"; "--network"; net; "--memory"; mem; "--cpus"; cpu; "--pids-limit"; Itoa pid] ++ rest ∧
     (net = "none" ∨ net = "host") ∧ TrimSpace mem ≠ "" ∧ TrimSpace cpu ≠ "" ∧ (1 ≤ pid)%Z) ∧
  Forall (λ a, Contains a docker_sock = false) args.

Lemma Args_hardened s : hasDockerSock (Args s) = false → hardened (Args s).
Proof.
  intros Hs. split.
  - exists (network s), (memory s), (cpus s), (if (S_PIDs s <? 1)%Z then 32%Z else S_PIDs s), (image s :: S_Args s).
    split; [done|]. unfold network, memory, cpus. split_and!.
    + case_bool_decide; auto.
    + by case_bool_decide.
    + by case_bool_decide.
    + destruct (Z.ltb_spec (S_PIDs s) 1); lia.
  - apply Forall_forall. intros a Ha. destruct (Contains a docker_sock) eqn:E; [|done].
    rewrite <- Hs. symmetry. apply (Contains_trans _ a); [by apply Contains_elem|done].
Qed.

(** Docker is never run with other arguments: what it would do with them does not
    matter. *)
Theorem Run_hardened ctx installed docker docker' s :
  (∀ args, hardened args → docker args = docker' args) →
  Run ctx installed docker s = Run ctx installed docker' s.
Proof.
  intros Hd. unfold Run. destruct ctx; [done|]. case_bool_decide; [done|]. cbv zeta.
  destruct (hasDockerSock _) eqn:E; [done|]. destruct installed; [|done]. by rewrite Hd by by apply Args_hardened.
Qed.

(** The image is not checked: one that starts with a dash stands where docker still
    reads options. *)
Definition mount_spec : Spec := MkSpec "--volume=/var/run:/r" ["alpine"; "ls"; "/r"] "" "" 0 "".
Lemma image_as_option :
  (Run None true (λ args, (Join (drop 17 args) " ", None)) mount_spec) =
  ("--volume=/var/run:/r alpine ls /r", None).
Proof. vm_compute. reflexivity. Qed.

End sandbox.

(** ** [executor/src/main.cpp] *)

Module executor.

Record Limits := MkLimits {
  Lm_timeout_ms : Z;
  Lm_as_bytes : Z;
  Lm_cpu_seconds : Z;
  Lm_nproc : Z;
  Lm_nofile : Z;
  Lm_net_none : bool;
}.
Definition default_limits : Limits := MkLimits 5000 (64 * 1024 * 1024) 2 64 64 false.

Record Result := MkResult {
  Rs_exit_code : Z;
  Rs_signal : Z;
  Rs_timed_out : bool;
  Rs_duration_ms : Z;
  Rs_error : string;
}.

(** [strtol] and [strtoull] in base 10 on a whole string: white space, a sign, digits.
    [None] when nothing could be read or something follows. *)
Fixpoint skip_space (s : string) : string :=
  match s with
  | String a s' => if (a == byte 32) || in_range 9 13 a then skip_space s' else s
  | "" => ""
  end.
Definition sign_digits (s : string) : option (bool * Z) :=
  let s := skip_space s in
  let '(neg, digits) :=
    match s with
    | String a s' => if a == byte 45 then (true, s') else if a == byte 43 then (false, s') else (false, s)
    | "" => (false, "")
    end in
  if (digits == "") || negb (forallb GoText.is_digit (bytes digits)) then None else Some (neg, dec_val digits).
(** Out of range, the nearest bound. *)
Definition strtol (s : string) : option Z :=
  match sign_digits s with
  | Some (neg, v) => Some (Z.max (- 2 ^ 63) (Z.min (2 ^ 63 - 1) (if neg then - v else v)))
  | None => None
  end.
Definition strtoull (s : string) : option Z :=
  match sign_digits s with
  | Some (neg, v) => Some (if 2 ^ 64 <=? v then 2 ^ 64 - 1 else if neg then Z.modulo (- v) (2 ^ 64) else v)%Z
  | None => None
  end.

Definition parse_i (s : string) : option Z :=
  v ← strtol s; if (v <? 0)%Z || (1000000000 <? v)%Z then None else Some v.
Definition parse_u64 (s : string) : option Z := strtoull s.

Inductive Parsed :=
| Usage
| Help
| Command (lim : Limits) (result_path : string) (cmd : list string).

(** The option with its value, if it is a limit with a number. *)
Definition set_limit (lim : Limits) (a v : string) : option Limits :=
  let '(MkLimits ms mem cpu np nf net) := lim in
  if a == "--timeout-ms" then n ← parse_i v; Some (MkLimits n mem cpu np nf net)
  else if a == "--as-bytes" then u ← parse_u64 v; Some (MkLimits ms u cpu np nf net)
  else if a == "--cpu-seconds" then n ← parse_i v; Some (MkLimits ms mem n np nf net)
  else if a == "--nproc" then n ← parse_i v; Some (MkLimits ms mem cpu n nf net)
  else if a == "--nofile" then n ← parse_i v; Some (MkLimits ms mem cpu np n net)
  else None.
Definition set_net (lim : Limits) : Limits :=
  let '(MkLimits ms mem cpu np nf _) := lim in MkLimits ms mem cpu np nf true.

Fixpoint parse_args (lim : Limits) (path : string) (args : list string) : Parsed :=
  match args with
  | [] => Command lim path []
  | a :: rest =>
      if a == "--" then Command lim path rest
      else if (a == "--help") || (a == "-h") then Help
      else
        match rest with
        | [] => Usage
        | v :: rest =>
            if a == "--net" then if v == "none" then parse_args (set_net lim) path rest else Usage
            else if a == "--result" then parse_args lim v rest
            else match set_limit lim a v with
                 | Some lim => parse_args lim path rest
                 | None => Usage
                 end
        end
  end.

Definition json_escape_byte (a : ascii) : string :=
  if a == byte 92 then String (byte 92) (String (byte 92) "")
  else if a == byte 34 then String (byte 92) (String (byte 34) "")
  else if a == nl then String (byte 92) "n" else String a "".
Definition json_escape (s : string) : string := String.concat "" (json_escape_byte <$> bytes s).
Definition to_json (r : Result) : string :=
  let key k := String (byte 34) k +:+ String (byte 34) ":" in
  "{" +:+ key "exit_code" +:+ Itoa (Rs_exit_code r) +:+ "," +:+ key "signal" +:+ Itoa (Rs_signal r) +:+ "," +:+
  key "timed_out" +:+ (if Rs_timed_out r then "true" else "false") +:+ "," +:+
  key "duration_ms" +:+ Itoa (Rs_duration_ms r) +:+ "," +:+
  key "error" +:+ String (byte 34) (json_escape (Rs_error r)) +:+ String (byte 34) ("}" +:+ String nl "").

(** The time the command gets, of [aquila::run]. *)
Definition time_limit (lim : Limits) : Z := if (0 <? Lm_timeout_ms lim)%Z then Lm_timeout_ms lim else 5000.

Definition exit_status (r : Result) : Z :=
  if (Rs_error r != "") && negb (Rs_timed_out r) then 2
  else if Rs_timed_out r then 124
  else if (0 <=? Rs_exit_code r)%Z && (Rs_exit_code r <? 128)%Z then Rs_exit_code r else 1.

(** The process: its exit status and the files after it. [run] is [aquila::run]. *)
Definition main (run : list string → Limits → Result) (args : list string) (t : os.tree) : Z * os.tree :=
  match parse_args default_limits "" args with
  | Usage => (2%Z, t)
  | Help => (0%Z, t)
  | Command lim path cmd =>
      let r := run cmd lim in
      if path != "" then
        match os.WriteFile t path (to_json r) with
        | None => (2%Z, t)
        | Some t => (exit_status r, t)
        end
      else (exit_status r, t)
  end.

Lemma sign_digits_Itoa n : (0 ≤ n)%Z → sign_digits (Itoa n) = Some (false, n).
Proof.
  intros Hn. destruct (Itoa_digits n Hn) as (Hne & Hd & Hv). unfold sign_digits.
  destruct (Itoa n) as [|a s]; [done|].
  assert (GoText.is_digit a = true) as Ha by (cbn in Hd; by apply andb_true_iff in Hd as [? _]).
  assert (skip_space (String a s) = String a s) as ->.
  { destruct a as [[] [] [] [] [] [] [] []]; first [reflexivity|vm_compute in Ha; discriminate Ha]. }
  assert (a ≠ byte 45 ∧ a ≠ byte 43) as [??] by (split; intros ->; vm_compute in Ha; discriminate Ha).
  rewrite (bool_decide_eq_false_2 (a = byte 45)), (bool_decide_eq_false_2 (a = byte 43)) by done.
  rewrite bool_decide_eq_false_2, Hd by done. cbn [negb orb]. by change (dec_val _) with (dec_from 0 (String a s)); rewrite Hv.
Qed.
Lemma parse_i_Itoa n : (0 ≤ n ≤ 1000000000)%Z → parse_i (Itoa n) = Some n.
Proof.
  intros Hn. unfold parse_i, strtol. rewrite sign_digits_Itoa by lia. cbn [mbind option_bind].
  assert (Z.max (- 2 ^ 63) (Z.min (2 ^ 63 - 1) n) = n) as -> by lia.
  destruct (Z.ltb_spec n 0), (Z.ltb_spec 1000000000 n); try lia. done.
Qed.
Lemma parse_u64_Itoa n : (0 ≤ n < 2 ^ 64)%Z → parse_u64 (Itoa n) = Some n.
Proof.
  intros Hn. unfold parse_u64, strtoull. rewrite sign_digits_Itoa by lia. cbn [mbind option_bind].
  by destruct (Z.leb_spec (2 ^ 64) n); [lia|].
Qed.

Ltac parse_step :=
  cbn [parse_args];
  repeat first
    [ rewrite bool_decide_eq_false_2 by discriminate
    | rewrite bool_decide_eq_true_2 by reflexivity
    | progress cbn [orb negb] ].

Lemma parse_timeout lim path v rest n :
  parse_i v = Some n →
  parse_args lim path ("--timeout-ms" :: v :: rest) =
  parse_args (MkLimits n (Lm_as_bytes lim) (Lm_cpu_seconds lim) (Lm_nproc lim) (Lm_nofile lim) (Lm_net_none lim))
    path rest.
Proof. intros Hv. destruct lim. parse_step. unfold set_limit. parse_step. by rewrite Hv. Qed.
Lemma parse_memory lim path v rest u :
  parse_u64 v = Some u →
  parse_args lim path ("--as-bytes" :: v :: rest) =
  parse_args (MkLimits (Lm_timeout_ms lim) u (Lm_cpu_seconds lim) (Lm_nproc lim) (Lm_nofile lim) (Lm_net_none lim))
    path rest.
Proof. intros Hv. destruct lim. parse_step. unfold set_limit. parse_step. by rewrite Hv. Qed.
Lemma parse_result lim path v rest : parse_args lim path ("--result" :: v :: rest) = parse_args lim v rest.
Proof. by parse_step. Qed.
Lemma parse_net lim path rest : parse_args lim path ("--net" :: "none" :: rest) = parse_args (set_net lim) path rest.
Proof. by parse_step. Qed.
Lemma parse_command lim path cmd : parse_args lim path ("--" :: cmd) = Command lim path cmd.
Proof. by parse_step. Qed.

End executor.

(** ** [nexec/nexec.go] *)

Module nexec.

Definition defaultTimeout : Z := 5000000000.

Record Spec := MkSpec {
  S_Args : list string;
  S_Timeout : Z;
  S_Memory : Z;
  S_NetNone : bool;
}.
Notation Result := executor.Result.
Definition zeroResult : Result := executor.MkResult 0 0 false 0 "".

(** [json.Unmarshal] into a [Result]. *)
Class ResultJSON := { result_of_json : string → result string Result }.

Section look.
  Context (environ : list string) (exe wd : option string) (t : os.tree).

Definition is_file (p : string) : bool :=
  match os.Stat t (os.from_dir (default "/" wd) p) with Some (os.NFile _) => true | _ => false end.

(** The loop of [lookUp]: the parent of a directory other than the root is shorter, so
    the length of the path is enough fuel. *)
Fixpoint look_up (fuel : nat) (dir rel : string) : string :=
  match fuel with
  | O => ""
  | S fuel =>
      let cand := os.path_Join dir rel in
      if is_file cand then cand
      else let parent := os.Dir dir in if parent == dir then "" else look_up fuel parent rel
  end.
Definition lookUp (rel : string) : string :=
  match wd with
  | None => ""
  | Some dir => look_up (S (String.length dir)) dir rel
  end.

Definition Look : string :=
  let p := TrimSpace (cli.Getenv environ "AQUILA_EXECUTOR") in
  let sibling := match exe with Some e => os.path_Join (os.Dir e) "aquila-exec" | None => "" end in
  if (p != "") && is_file p then p
  else if bool_decide (is_Some exe) && is_file sibling then sibling
  else
    let p := lookUp "bin/aquila-exec" in
    if p != "" then p else lookUp "executor/aquila-exec".
End look.

Definition timeout_of (spec : Spec) : Z := if (S_Timeout spec <=? 0)%Z then defaultTimeout else S_Timeout spec.

Definition exec_args (spec : Spec) (resultPath : string) : list string :=
  ["--timeout-ms"; Itoa (timeout_of spec `quot` 1000000); "--result"; resultPath] ++
  (if (0 <? S_Memory spec)%Z then ["--as-bytes"; Itoa (S_Memory spec)] else []) ++
  (if S_NetNone spec then ["--net"; "none"] else []) ++ "--" :: S_Args spec.

Section run.
  Context `{ResultJSON} (environ : list string) (exe wd : option string).
  (** [os.CreateTemp]'s name, and the process with its output and error *)
  Context (tmp : string) (process : string → list string → os.tree → string * option string * os.tree).

(** What the result file and the process's error say. *)
Definition read_result (raw : option string) (out : string) (err : option string) : Result * option string :=
  match raw with
  | None =>
      (zeroResult, Some (match err with
                         | Some e => "nexec: " +:+ e +:+ ": " +:+ TrimSpace out
                         | None => "nexec: result"
                         end))
  | Some raw =>
      match result_of_json raw with
      | Err e => (zeroResult, Some ("nexec: result json: " +:+ e))
      | Ok res =>
          (res, if (executor.Rs_error res != "") && negb (executor.Rs_timed_out res)
                then Some ("nexec: " +:+ executor.Rs_error res) else None)
      end
  end.

Definition Run (ctx : option string) (spec : Spec) (t : os.tree) : Result * option string * os.tree :=
  match ctx with
  | Some e => (zeroResult, Some e, t)
  | None =>
      if bool_decide (S_Args spec = []) then (zeroResult, Some "nexec: command required", t)
      else if Contains (Join (S_Args spec) " ") docker_sock then (zeroResult, Some "nexec: docker.sock is forbidden", t)
      else
        let bin := Look environ exe wd t in
        if bin == "" then (zeroResult, Some "nexec: aquila-exec not found; build with make executor", t)
        else
          match osx.OpenExcl t tmp with
          | None => (zeroResult, Some "nexec: result file", t)
          | Some (_, t) =>
              let '(out, err, t) := process bin (exec_args spec tmp) t in
              (read_result (os.ReadFile t tmp) out err, default t (os.Remove t tmp))
          end
  end.
End run.

(** *** What the executor makes of the arguments *)

Definition limits_of (spec : Spec) : executor.Limits :=
  executor.MkLimits (timeout_of spec `quot` 1000000)
    (if (0 <? S_Memory spec)%Z then S_Memory spec else 64 * 1024 * 1024) 2 64 64 (S_NetNone spec).

(** The executor reads back the limits and the command, whatever the command looks
    like. Its limit for a time is 10^9 milliseconds. *)
Theorem exec_args_parse spec path :
  (timeout_of spec `quot` 1000000 ≤ 1000000000)%Z → (S_Memory spec < 2 ^ 63)%Z →
  executor.parse_args executor.default_limits "" (exec_args spec path) =
  executor.Command (limits_of spec) path (S_Args spec).
Proof.
  intros Hms Hmem. assert (0 ≤ timeout_of spec `quot` 1000000)%Z as Hpos.
  { unfold timeout_of, defaultTimeout in *. apply Z.quot_pos; [|lia]. destruct (Z.leb_spec (S_Timeout spec) 0); lia. }
  unfold exec_args, limits_of. cbn [app].
  rewrite (executor.parse_timeout _ _ _ _ (timeout_of spec `quot` 1000000)), executor.parse_result
    by by apply executor.parse_i_Itoa.
  destruct (Z.ltb_spec 0 (S_Memory spec)); cbn [app].
  - rewrite (executor.parse_memory _ _ _ _ (S_Memory spec)) by (apply executor.parse_u64_Itoa; lia).
    destruct (S_NetNone spec); cbn [app]; rewrite ?executor.parse_net; apply executor.parse_command.
  - destruct (S_NetNone spec); cbn [app]; rewrite ?executor.parse_net; apply executor.parse_command.
Qed.

(** A time of a millisecond or more is kept, up to the millisecond. *)
Lemma time_limit_kept spec :
  (1000000 ≤ timeout_of spec)%Z →
  (executor.time_limit (limits_of spec) * 1000000 ≤ timeout_of spec <
   (executor.time_limit (limits_of spec) + 1) * 1000000)%Z.
Proof.
  intros Ht. unfold executor.time_limit, limits_of. cbn. rewrite Z.quot_div_nonneg by lia.
  pose proof (Z.div_mod (timeout_of spec) 1000000 ltac:(lia)).
  pose proof (Z.mod_pos_bound (timeout_of spec) 1000000 ltac:(lia)).
  destruct (Z.ltb_spec 0 (timeout_of spec / 1000000)); nia.
Qed.
(** A shorter one is lost: the executor falls back to five seconds. *)
Lemma time_limit_lost spec :
  (0 < S_Timeout spec < 1000000)%Z → executor.time_limit (limits_of spec) = 5000%Z.
Proof.
  intros Ht. unfold executor.time_limit, limits_of, timeout_of. cbn.
  destruct (Z.leb_spec (S_Timeout spec) 0); [lia|]. by rewrite Z.quot_small by lia.
Qed.

(** *** One run *)

(** The executor as a process. *)
Definition executor_process (run : list string → executor.Limits → Result) (bin : string) (args : list string)
    (t : os.tree) : string * option string * os.tree :=
  let '(status, t) := executor.main run args t in
  ("", if (status =? 0)%Z then None else Some ("exit status " +:+ Itoa status), t).

(** [Run] with the executor gives what the executor measured for exactly this command
    under exactly these limits, and leaves the files as they were. *)
Theorem Run_executes `{ResultJSON} environ exe wd run spec t ds :
  let r := run (S_Args spec) (limits_of spec) in
  osx.creatable t ds → S_Args spec ≠ [] → Contains (Join (S_Args spec) " ") docker_sock = false →
  Look environ exe wd t ≠ "" →
  (timeout_of spec `quot` 1000000 ≤ 1000000000)%Z → (S_Memory spec < 2 ^ 63)%Z →
  result_of_json (executor.to_json r) = Ok r →
  Run environ exe wd (os.abs_path ds) (executor_process run) None spec t =
  (r, if (executor.Rs_error r != "") && negb (executor.Rs_timed_out r)
      then Some ("nexec: " +:+ executor.Rs_error r) else None, t).
Proof.
  intros r Hc Ha Hs Hl Hms Hmem Hj. destruct Hc as [Hp Hsl Hu Hn Hne]. unfold Run.
  rewrite bool_decide_eq_false_2, Hs by done. cbv zeta. rewrite bool_decide_eq_false_2 by done.
  unfold osx.OpenExcl. rewrite osx.lookup_reached by done. simpl. rewrite os.entry_ne, Hn by done.
  unfold executor_process, executor.main. rewrite exec_args_parse by done. fold r.
  assert (os.abs_path ds ≠ "") as Hpath by done. rewrite (bool_decide_eq_false_2 _ Hpath). cbn [negb].
  assert (∀ c, osx.reached (<[ds := os.NFile c]> t) ds) as Hu'.
  { intros c q Hq Hd. specialize (Hu q Hq Hd). unfold os.entry in *. case_bool_decide; [done|].
    by rewrite lookup_insert_ne. }
  assert (∀ c, os.lookup_path (<[ds := os.NFile c]> t) true (os.abs_path ds) = Some ds) as Hlk.
  { intros c. apply materialize.lookup_reached_true; [apply Hu'|done..|]. intros target. by rewrite lookup_insert_eq. }
  unfold os.WriteFile. rewrite Hlk. simpl. rewrite os.entry_ne, lookup_insert_eq, insert_insert_eq by done.
  unfold os.ReadFile, os.Stat. rewrite Hlk. simpl. rewrite os.entry_ne, lookup_insert_eq by done. simpl.
  rewrite Hj. unfold os.Remove. rewrite osx.lookup_reached by (done || apply Hu'). simpl.
  rewrite os.entry_ne, lookup_insert_eq by done. simpl. by rewrite delete_insert_id by by apply Hn.
Qed.

(** Nothing that names the docker socket is run. *)
Theorem Run_no_socket `{ResultJSON} environ exe wd tmp process process' ctx spec t :
  (∀ bin args t, Forall (λ a, Contains a docker_sock = false) (S_Args spec) → process bin args t = process' bin args t) →
  Run environ exe wd tmp process ctx spec t = Run environ exe wd tmp process' ctx spec t.
Proof.
  intros Hp. unfold Run. destruct ctx; [done|]. case_bool_decide; [done|].
  destruct (Contains (Join _ _) _) eqn:E; [done|]. cbv zeta. case_bool_decide; [done|].
  destruct (osx.OpenExcl t tmp) as [[q t']|]; [|done]. rewrite Hp; [done|]. apply Forall_forall. intros a Ha.
  destruct (Contains a docker_sock) eqn:Ea; [|done]. rewrite <- E. symmetry.
  apply (Contains_trans _ a); [by apply Contains_elem|done].
Qed.

(** *** The search for the executor ends *)

Lemma look_up_found wd t fuel dir rel :
  look_up wd t fuel dir rel = "" ∨ is_file wd t (look_up wd t fuel dir rel) = true.
Proof.
  revert dir. induction fuel as [|fuel IH]; intros dir; [by left|]. cbn [look_up]. destruct (is_file _ _ _) eqn:E; [by right|].
  case_bool_decide; [by left|apply IH].
Qed.
Theorem Look_file environ exe wd t : Look environ exe wd t = "" ∨ is_file wd t (Look environ exe wd t) = true.
Proof.
  unfold Look. cbv zeta. destruct (_ && is_file wd t _) eqn:E1.
  { right. by apply andb_true_iff in E1 as [_ ?]. }
  destruct (_ && is_file wd t (match exe with Some _ => _ | None => _ end)) eqn:E2.
  { right. by apply andb_true_iff in E2 as [_ ?]. }
  assert (∀ rel, lookUp wd t rel = "" ∨ is_file wd t (lookUp wd t rel) = true) as Hl.
  { intros rel. unfold lookUp. destruct wd as [d|]; [apply look_up_found|by left]. }
  destruct (Hl "bin/aquila-exec") as [Hb|Hb]; [rewrite Hb; apply Hl|]. destruct (lookUp wd t "bin/aquila-exec" == ""); [apply Hl|by right].
Qed.

(** The candidate below the first [n] elements of the working directory. *)
Definition cand (ds : list string) (rel : string) (n : nat) : string := os.path_Join (os.abs_path (take n ds)) rel.

Lemma look_up_nearest wd t fuel ds rel :
  Forall plain ds → Forall os.slashless ds → (length ds < fuel)%nat →
  (∃ n, (n ≤ length ds)%nat ∧ look_up wd t fuel (os.abs_path ds) rel = cand ds rel n ∧
     is_file wd t (cand ds rel n) = true ∧ ∀ m, (n < m ≤ length ds)%nat → is_file wd t (cand ds rel m) = false) ∨
  (look_up wd t fuel (os.abs_path ds) rel = "" ∧ ∀ m, (m ≤ length ds)%nat → is_file wd t (cand ds rel m) = false).
Proof.
  revert fuel. induction ds as [|e ds IH] using rev_ind; intros [|fuel] Hp Hs Hf; try lia; cbn [look_up].
  - destruct (is_file _ _ _) eqn:E; [left; exists 0%nat; split_and!; [done..|simpl; lia]|].
    right. split; [by vm_compute bool_decide|]. by intros [|m] ?; [|simpl in *; lia].
  - rewrite os.Dir_abs by done. rewrite length_app in *. cbn [length] in *.
    assert (cand (ds ++ [e]) rel (length ds + 1) = os.path_Join (os.abs_path (ds ++ [e])) rel) as Hlast
      by (unfold cand; by rewrite take_ge by (rewrite length_app; simpl; lia)).
    assert (∀ m, (m ≤ length ds)%nat → cand (ds ++ [e]) rel m = cand ds rel m) as Hup
      by (intros m Hm; unfold cand; by rewrite take_app_le).
    destruct (is_file _ _ _) eqn:E.
    { left. exists (length ds + 1)%nat. rewrite Hlast. split_and!; [done..|lia]. }
    apply Forall_app in Hp as [Hp He], Hs as [Hs Hse]. rewrite bool_decide_eq_false_2.
    2:{ intros Heq%(f_equal osx.rel_elems). rewrite !materialize.rel_elems_abs in Heq by (done || by apply Forall_app).
        apply (f_equal length) in Heq. rewrite length_app in Heq. simpl in Heq. lia. }
    destruct (IH fuel Hp Hs ltac:(lia)) as [(n & Hn & -> & Hi & Hm)|[-> Hm]]; [left; exists n|right].
    + rewrite Hup by done. split_and!; [lia|done..|]. intros m Hnm. destruct (decide (m = length ds + 1)%nat) as [->|].
      * by rewrite Hlast.
      * rewrite Hup by lia. apply Hm. lia.
    + split; [done|]. intros m Hnm. destruct (decide (m = length ds + 1)%nat) as [->|]; [by rewrite Hlast|].
      rewrite Hup by lia. apply Hm. lia.
Qed.

Lemma abs_path_length ds : Forall plain ds → (length ds ≤ String.length (os.abs_path ds))%nat.
Proof.
  intros Hp. unfold os.abs_path. rewrite length_str_app. simpl.
  enough (length ds ≤ S (String.length (Join ds "/")))%nat by lia.
  induction Hp as [|e ds (He & _) Hp IH]; [simpl; lia|]. destruct ds as [|e' ds]; [simpl; lia|].
  rewrite Join_cons by done. rewrite !length_str_app. simpl in *. lia.
Qed.

(** The executor that is found in a tree is the nearest one above the working directory. *)
Theorem lookUp_nearest t ds rel :
  Forall plain ds → Forall os.slashless ds →
  (∃ n, (n ≤ length ds)%nat ∧ lookUp (Some (os.abs_path ds)) t rel = cand ds rel n ∧
     is_file (Some (os.abs_path ds)) t (cand ds rel n) = true ∧
     ∀ m, (n < m ≤ length ds)%nat → is_file (Some (os.abs_path ds)) t (cand ds rel m) = false) ∨
  (lookUp (Some (os.abs_path ds)) t rel = "" ∧
   ∀ m, (m ≤ length ds)%nat → is_file (Some (os.abs_path ds)) t (cand ds rel m) = false).
Proof.
  intros Hp Hs. apply look_up_nearest; [done..|]. pose proof (abs_path_length ds Hp). lia.
Qed.

End nexec.
