(* ===== verification/Fault.v ===== *)
(** * The fault proxy: [fault/proxy.go] and [cli/fault.go]

    [fault.Handler] (in Plan.v) are the checks; here are the handler that it returns
    and the command that serves it. The transport of the HTTP client and the way it
    makes the request for a redirect are parameters; the response writer of the
    server is written out as far as the handler depends on it. *)

From S2P Require Import Prelude GoStrings GoText Duration Flags GoOS Net Ingest Replay Impact Plan Validate Evidence Runs GitRev Snapshot Materialize Pair Workload Cli CliPrint Experiment Commands.
Import fault cli.

Module proxy.

Notation Header := (gmap string (list string)).

Record Req := MkReq {
  Q_Method : string;
  Q_URL : URL;
  Q_Host : string;
  Q_Header : Header;
  Q_Body : string;
}.
Record Resp := MkResp {
  P_Status : Z;
  P_Header : Header;
  P_Body : string;
}.

(** ** Headers *)

Definition Add (k v : string) (h : Header) : Header :=
  let c := workloads.CanonicalHeaderKey k in <[c := default [] (h !! c) ++ [v]]> h.

Definition hop_headers : list string :=
  ["Connection"; "Keep-Alive"; "Proxy-Authenticate"; "Proxy-Authorization"; "Te"; "Trailer"; "Transfer-Encoding";
   "Upgrade"].
Definition skipHop (k : string) : bool := bool_decide (workloads.CanonicalHeaderKey k ∈ hop_headers).

Definition copy_values (dst : Header) (kv : string * list string) : Header :=
  if skipHop kv.1 then dst else foldl (λ d v, Add kv.1 v d) dst kv.2.
Definition copyHeader (dst src : Header) : Header := foldl copy_values dst (map_to_list src).

(** ** The response writer *)

(** A handler that panics has its connection closed. [info] are the informational
    answers before the final one. *)
Inductive Answer :=
| Panics
| Answers (info : list Z) (status : Z) (h : Header) (body : string).

Definition bodyAllowed (status : Z) : bool :=
  negb (((100 <=? status) && (status <=? 199)) || (status =? 204) || (status =? 304))%Z.

(** [WriteHeader] and then the body. A status below 200 other than 101 does not end
    the answer: the body does, with status 200. *)
Definition answer (method : string) (status : Z) (h : Header) (body : string) : Answer :=
  if ((status <? 100) || (999 <? status))%Z then Panics
  else
    let info := ((status <=? 199) && negb (status =? 101))%Z in
    let final := if info then 200%Z else status in
    Answers (if info then [status] else []) final h
      (if bodyAllowed final && (method != "HEAD") then body else "").

(** [http.Error] *)
Definition Error (method msg : string) (code : Z) : Answer :=
  answer method code
    {[ "Content-Type" := ["text/plain; charset=utf-8"]; "X-Content-Type-Options" := ["nosniff"] ]}
    (msg +:+ String nl "").

(** ** The handler *)

Definition maxCopy : nat := Z.to_nat (Z.shiftl 64 10).

Section handler.
  Context `{GoNet} (round : Req → result string Resp) (redirect : Req → Resp → option Req).
  Context (u : URL) (spec : Spec).

(** [client.Do]: a redirect to another host is not followed. There is no limit on
    the redirects but the time; [hops] are those that fit into it. The requests that
    were sent come along. *)
Fixpoint Do (hops : nat) (req : Req) : list Req * result string Resp :=
  if URL_Host (Q_URL req) == "" then ([], Err "http: no Host in request URL")
  else
    match round req with
    | Err e => ([req], Err e)
    | Ok resp =>
        match redirect req resp with
        | None => ([req], Ok resp)
        | Some next =>
            if URL_Host (Q_URL next) != URL_Host u then ([req], Ok resp)
            else
              match hops with
              | O => ([req], Err "Client.Timeout exceeded")
              | S hops => let '(sent, r) := Do hops next in (req :: sent, r)
              end
        end
    end.

(** The request that is forwarded. *)
Definition forward_url (r : Req) : URL :=
  MkURL (URL_Scheme u) (URL_Opaque (Q_URL r)) None (URL_Host u) (URL_Path (Q_URL r)) (URL_RawQuery (Q_URL r)) "".
Definition forward (r : Req) : result string Req :=
  match url_Parse (url_String (forward_url r)) with
  | Err e => Err e
  | Ok v => Ok (MkReq (Q_Method r) v (URL_Host u) (delete "Host" (copyHeader ∅ (Q_Header r))) (Q_Body r))
  end.

(** [canceled]: the client went away during the delay. *)
Definition serve (hops : nat) (canceled : bool) (r : Req) : list Req * Answer :=
  let m := Q_Method r in
  if ((0 <? Spec_Delay spec)%Z && canceled) then ([], Error m "injected delay canceled" 504)
  else if (0 <? Spec_Status spec)%Z then
    ([], answer m (Spec_Status spec) {[ "Content-Type" := ["application/json"] ]} 
        ("{" +:+ Quote "error" +:+ ":" +:+ Quote "injected" +:+ "}"))
  else
    match forward r with
    | Err _ => ([], Error m "fault proxy" 502)
    | Ok req =>
        let '(sent, res) := Do hops req in
        (sent, match res with
               | Err _ => Error m "upstream unavailable" 502
               | Ok resp => answer m (P_Status resp) (copyHeader ∅ (P_Header resp)) (str_take maxCopy (P_Body resp))
               end)
    end.

End handler.

(** ** Headers are copied but for the hop-by-hop ones *)

Lemma Add_ne k v h c : workloads.CanonicalHeaderKey k ≠ c → Add k v h !! c = h !! c.
Proof. apply lookup_insert_ne. Qed.

Lemma copy_values_ne dst kv c :
  workloads.CanonicalHeaderKey kv.1 ≠ c ∨ skipHop kv.1 = true → copy_values dst kv !! c = dst !! c.
Proof.
  unfold copy_values. destruct (skipHop kv.1); [done|]. intros [Hc|]; [|done]. destruct kv as [k vs]. simpl in *.
  revert dst. induction vs as [|v vs IH]; intros dst; simpl; [done|]. by rewrite IH, Add_ne.
Qed.

Lemma copy_all_ne (l : list (string * list string)) dst c :
  (∀ kv, kv ∈ l → workloads.CanonicalHeaderKey kv.1 ≠ c ∨ skipHop kv.1 = true) →
  foldl copy_values dst l !! c = dst !! c.
Proof.
  revert dst. induction l as [|kv l IH]; intros dst Hl; simpl; [done|].
  rewrite IH by (intros; apply Hl; by right). apply copy_values_ne, Hl. by left.
Qed.

(** No hop-by-hop header crosses the proxy, in either direction. *)
Lemma copyHeader_hop dst src c : c ∈ hop_headers → copyHeader dst src !! c = dst !! c.
Proof.
  intros Hc. apply copy_all_ne. intros kv _. unfold skipHop.
  destruct (decide (workloads.CanonicalHeaderKey kv.1 = c)) as [->|]; [right; by apply bool_decide_eq_true|by left].
Qed.

Definition canonical_keys (h : Header) : Prop :=
  ∀ k vs, h !! k = Some vs → workloads.CanonicalHeaderKey k = k ∧ vs ≠ [].

Lemma copy_values_fresh dst k vs :
  workloads.CanonicalHeaderKey k = k → k ∉ hop_headers → dst !! k = None → vs ≠ [] →
  copy_values dst (k, vs) !! k = Some vs.
Proof.
  intros Hk Hh Hd Hvs. unfold copy_values, skipHop. simpl. rewrite Hk, bool_decide_eq_false_2 by done.
  assert (∀ ws d old, d !! k = Some old → foldl (λ d v, Add k v d) d ws !! k = Some (old ++ ws)) as Hfold.
  { induction ws as [|w ws IH]; intros d old Hold; simpl; [by rewrite app_nil_r|].
    rewrite (IH _ (old ++ [w])); [by rewrite <- app_assoc|]. unfold Add. rewrite Hk, Hold. apply lookup_insert_eq. }
  destruct vs as [|v vs]; [done|]. simpl. rewrite (Hfold vs _ [v]); [done|].
  unfold Add. rewrite Hk, Hd. apply lookup_insert_eq.
Qed.

(** Every other header keeps its name and its values, in order. *)
Lemma copyHeader_keeps src k :
  canonical_keys src → k ∉ hop_headers → copyHeader ∅ src !! k = src !! k.
Proof.
  intros Hc Hk. destruct (src !! k) as [vs|] eqn:E.
  - pose proof (NoDup_fst_map_to_list src) as Hnd. pose proof E as Hin%elem_of_map_to_list.
    unfold copyHeader. apply list_elem_of_split in Hin as (l1 & l2 & Hl). rewrite Hl in Hnd |- *.
    rewrite fmap_app, fmap_cons in Hnd. apply NoDup_app in Hnd as (_ & Hl1 & [Hl2 _]%NoDup_cons). simpl in *.
    assert (∀ kv, kv ∈ l1 ++ l2 → workloads.CanonicalHeaderKey kv.1 ≠ k) as Hne.
    { intros [k' vs'] Hin. assert (src !! k' = Some vs') as [Hk' _]%Hc.
      { apply elem_of_map_to_list. rewrite Hl. set_solver. }
      simpl. rewrite Hk'. intros ->. apply elem_of_app in Hin as [Hin|Hin].
      - apply (Hl1 k); [apply list_elem_of_fmap; by exists (k, vs')|by left].
      - apply Hl2. apply list_elem_of_fmap. by exists (k, vs'). }
    rewrite foldl_app. simpl. rewrite copy_all_ne by (intros; left; apply Hne; set_solver).
    destruct (Hc k vs E). apply copy_values_fresh; [done..| |done].
    rewrite copy_all_ne; [done|]. intros; left; apply Hne; set_solver.
  - unfold copyHeader. rewrite copy_all_ne; [done|]. intros [k' vs'] Hin%elem_of_map_to_list.
    destruct (Hc _ _ Hin) as [Hk' _]. left. simpl. rewrite Hk'. intros ->. naive_solver.
Qed.

(** ** Where the proxy's requests go *)

Section contacts.
  Context `{GoNet} (round : Req → result string Resp) (redirect : Req → Resp → option Req).

(** Printing a URL and reading it again keeps its host, when that host comes from a
    URL that was read; a URL with an opaque part has none. *)
Class UrlLaws : Prop := {
  url_host_again raw u v w :
    url_Parse raw = Ok u → URL_Scheme v = URL_Scheme u → URL_Host v = URL_Host u → URL_User v = None →
    url_Parse (url_String v) = Ok w → URL_Host w = URL_Host u ∨ URL_Host w = "";
}.

Lemma Do_hosts u hops req :
  URL_Host (Q_URL req) = URL_Host u ∨ URL_Host (Q_URL req) = "" →
  Forall (λ q, URL_Host (Q_URL q) = URL_Host u) (Do round redirect u hops req).1.
Proof using Type.
  revert req. induction hops as [|hops IH]; intros req Hreq; cbn; case_bool_decide as Hempty; [constructor| |constructor|].
  all: destruct Hreq as [Hreq|?]; [|done]; destruct (round req) as [resp|e]; [|by repeat constructor].
  all: destruct (redirect req resp) as [next|]; [|by repeat constructor].
  all: destruct (URL_Host (Q_URL next) == URL_Host u) eqn:E; cbn; [|by repeat constructor].
  - by repeat constructor.
  - apply bool_decide_eq_true in E. specialize (IH next (or_introl E)). destruct (Do _ _ _ _ _). by constructor.
Qed.

Lemma Handler_inv target spec u :
  Handler target spec = Ok u →
  (∃ raw, url_Parse raw = Ok u) ∧ CheckURL (url_String u) = Ok tt ∧
  (0 ≤ Spec_Delay spec ≤ maxDelay)%Z ∧ (0 ≤ Spec_Status spec ≤ 599)%Z.
Proof using Type.
  unfold Handler. cbv zeta. intros (_ & _ & Hh)%rbind_ok. destruct (url_Parse _) as [v|] eqn:Ep; [|done].
  do 6 (apply rbind_ok in Hh as (_ & ?%guard_err_ok & Hh)).
  destruct (CheckURL (url_String v)) as [[]|] eqn:Ec; [|done]. injection Hh as <-. go_inv.
  split; [eauto|]. split; [done|]. lia.
Qed.

(** The proxy talks to the host it was given and to no other, also when it follows
    redirects; and that host passed the check for experiment targets. A proxy that
    injects a status talks to nobody. *)
Theorem serve_contacts `{!UrlLaws} target spec u hops canceled r :
  Handler target spec = Ok u →
  CheckURL (url_String u) = Ok tt ∧
  Forall (λ q, URL_Host (Q_URL q) = URL_Host u) (serve round redirect u spec hops canceled r).1 ∧
  ((0 < Spec_Status spec)%Z → (serve round redirect u spec hops canceled r).1 = []).
Proof using Type.
  intros ([raw Hraw] & Hc & _)%Handler_inv. split; [done|]. unfold serve, forward. split.
  - destruct (_ && canceled); [constructor|]. destruct (0 <? Spec_Status spec)%Z; [constructor|].
    destruct (url_Parse (url_String (forward_url u r))) as [v|] eqn:Ev; [|constructor].
    pose proof (Do_hosts u hops (MkReq (Q_Method r) v (URL_Host u) (delete "Host" (copyHeader ∅ (Q_Header r)))
      (Q_Body r))) as Hd. destruct (Do _ _ _ _ _) as [sent res]. apply Hd. by apply (url_host_again raw u (forward_url u r) v).
  - intros Hs%Z.ltb_lt. rewrite Hs. by destruct (_ && canceled).
Qed.

(** An injected status from 200 on is the status of every answer, and nothing else
    decides it. *)
Theorem serve_injects target spec u hops canceled r :
  Handler target spec = Ok u → (200 ≤ Spec_Status spec)%Z → (Spec_Delay spec = 0%Z ∨ canceled = false) →
  ∃ body, (serve round redirect u spec hops canceled r).2 =
    Answers [] (Spec_Status spec) {[ "Content-Type" := ["application/json"] ]} body.
Proof using Type.
  intros (_ & _ & _ & [_ Hmax])%Handler_inv Hs Hd. unfold serve.
  assert ((0 <? Spec_Delay spec)%Z && canceled = false) as -> by (destruct Hd as [->| ->]; [done|apply andb_false_r]).
  destruct (Z.ltb_spec 0 (Spec_Status spec)); [|lia]. cbn [snd]. unfold answer.
  destruct (Z.ltb_spec (Spec_Status spec) 100); [lia|]. destruct (Z.ltb_spec 999 (Spec_Status spec)); [lia|].
  destruct (Z.leb_spec (Spec_Status spec) 199); [lia|]. simpl. eauto.
Qed.

(** The checks admit statuses that cannot be injected: one below 100 makes the
    handler panic, and an informational one is answered with 200. *)
Lemma low_status_panics u spec hops r :
  Spec_Delay spec = 0%Z → (0 < Spec_Status spec < 100)%Z → (serve round redirect u spec hops false r).2 = Panics.
Proof using Type.
  intros Hd Hs. unfold serve. rewrite andb_false_r. destruct (Z.ltb_spec 0 (Spec_Status spec)); [|lia].
  cbn [snd]. unfold answer. by destruct (Z.ltb_spec (Spec_Status spec) 100); [|lia].
Qed.
Lemma informational_status u spec hops r :
  Spec_Delay spec = 0%Z → Spec_Status spec = 103%Z →
  ∃ h body, (serve round redirect u spec hops false r).2 = Answers [103%Z] 200 h body.
Proof using Type. intros Hd Hs. unfold serve. rewrite andb_false_r, Hs. cbn. eauto. Qed.

(** At most 64 KiB of a body are forwarded; its length is forwarded as it was. *)
Lemma answer_body_len method status h body info st h' b :
  answer method status h body = Answers info st h' b → (String.length b ≤ String.length body)%nat.
Proof using Type. unfold answer. repeat case_match; intros [= <- <- <- <-]; simpl; lia. Qed.

Lemma content_length_kept u spec hops r req resp sent :
  Spec_Delay spec = 0%Z → Spec_Status spec = 0%Z → forward u r = Ok req →
  Do round redirect u hops req = (sent, Ok resp) → P_Status resp = 200%Z → Q_Method r = "GET" →
  canonical_keys (P_Header resp) →
  ∃ h, (serve round redirect u spec hops false r).2 = Answers [] 200 h (str_take maxCopy (P_Body resp)) ∧
       h !! "Content-Length" = P_Header resp !! "Content-Length".
Proof using Type.
  intros Hd Hs Hf Hdo Hst Hm Hc. unfold serve. rewrite Hd, Hs, Hf, Hdo, Hst, Hm. cbn [andb Z.ltb Z.compare snd].
  eexists. split; [reflexivity|]. apply copyHeader_keeps; [done|]. unfold hop_headers. set_solver.
Qed.
End contacts.

End proxy.

(** ** [cli/fault.go] *)

Module faults.
Import cli experiments commands print.

Definition maxFaultDelay : Z := 30000000000.

(** [net.ParseIP]: an address without a zone. *)
Definition ParseIP `{GoNet} (s : string) : option Addr :=
  match ParseAddr s with
  | Some (V6 a zone) => if zone == "" then Some (V6 a zone) else None
  | r => r
  end.
Definition IsLoopback (a : Addr) : bool :=
  match Unmap a with
  | V4 x => (N.shiftr x 24 =? 127)%N
  | V6 x _ => (x =? 1)%N
  end.

Definition requireLoopbackListen `{GoNet} (addr : string) : result string () :=
  match pairs.SplitHostPort addr with
  | None => Err "cli: fault: listen"
  | Some (host, port) =>
      if port == "" then Err "cli: fault: listen missing port"
      else if EqualFold host "localhost" then Ok tt
      else match ParseIP host with
           | Some ip => if IsLoopback ip then Ok tt else Err "cli: fault: listen must be loopback"
           | None => Err "cli: fault: listen must be loopback"
           end
  end.

Definition fault_flags : list (string * flag.Value) :=
  [("listen", flag.VString "127.0.0.1:19080"); ("target", flag.VString ""); ("delay", flag.VDuration 0);
   ("status", flag.VInt 0)].

Section command.
  Context `{GitBatch} `{GoDocker} `{GoHTTP} `{GoNet}.
  (** [net.Listen], and how serving ends: [None] when it is interrupted or closed *)
  Context (Listen : Sys → string → result string string) (Serve : Sys → option string).

Definition RunFault (args : list string) : CM () :=
  let# fr := parse_flags "cli: fault: " fault_flags args in
  let fs := fr.1 in
  let target := flag.get_string fs "target" in
  let delay := flag.get_duration fs "delay" in
  let status := flag.get_int fs "status" in
  do# cwrap "cli: fault: " (no_args fr.2) in
  do# cguard (target == "") "cli: fault: -target is required" in
  do# cguard (maxFaultDelay <? delay)%Z "cli: fault: delay exceeds 30s" in
  do# clift (requireLoopbackListen (flag.get_string fs "listen")) in
  let# h := clift (fault.Handler target (fault.MkSpec delay status)) in
  let# ln := cwrap "cli: fault: " (let# r := cget (λ s, Listen s (flag.get_string fs "listen")) in clift r) in
  do# writef (line ("fault    listen=" +:+ ln +:+ "  target=" +:+ target +:+ "  delay=" +:+ duration.String_ delay +:+
    "  status=" +:+ Itoa status)) in
  do# writef (line "injected faults are not a pass. point aquila replay -base/-patch at this listen address.") in
  let# ended := cget Serve in
  match ended with None => cret tt | Some e => cfail (Errorf e) end.

Lemma RunFault_keeps P args : DockerOnly P → ckeeps P (RunFault args).
Proof. intros HP. unfold RunFault, parse_flags, no_args. cm_keeps. Qed.

End command.

(** An address is accepted when its host is the name [localhost] or a loopback address. *)
Lemma requireLoopbackListen_iff `{GoNet} addr :
  requireLoopbackListen addr = Ok tt ↔
  ∃ host port, pairs.SplitHostPort addr = Some (host, port) ∧ port ≠ "" ∧
    (EqualFold host "localhost" = true ∨ ∃ a, ParseIP host = Some a ∧ IsLoopback a = true).
Proof.
  unfold requireLoopbackListen. split.
  - destruct (pairs.SplitHostPort addr) as [[host port]|]; [|done]. intros Hr. exists host, port. split; [done|].
    case_bool_decide; [done|]. split; [done|]. destruct (EqualFold host "localhost"); [by left|]. right.
    destruct (ParseIP host) as [a|]; [|done]. exists a. by destruct (IsLoopback a).
  - intros (host & port & -> & Hp & Hl). rewrite bool_decide_eq_false_2 by done.
    destruct Hl as [->|(a & -> & ->)]; [done|]. by destruct (EqualFold host "localhost").
Qed.

Lemma cbind_ext `{GitBatch} `{GoDocker} `{GoHTTP} {A B} (m m' : CM A) (k k' : A → CM B) s :
  m s = m' s → (∀ a s', k a s' = k' a s') → cbind m k s = cbind m' k' s.
Proof. intros Hm Hk. unfold cbind. rewrite Hm. by destruct (m' s) as [[[a|e] s']|]; simpl; rewrite ?Hk. Qed.

(** The command listens on no other address: what [Listen] does on one does not matter. *)
Theorem RunFault_loopback `{GitBatch} `{GoDocker} `{GoHTTP} `{GoNet} Listen Listen' Serve args s :
  (∀ s addr, requireLoopbackListen addr = Ok tt → Listen s addr = Listen' s addr) →
  RunFault Listen Serve args s = RunFault Listen' Serve args s.
Proof.
  intros HL. unfold RunFault. apply cbind_ext; [done|]. intros fr s1. cbv zeta.
  do 3 (apply cbind_ext; [done|]; intros [] ?).
  destruct (requireLoopbackListen _) as [[]|] eqn:E; [|done]. apply cbind_ext; [done|]. intros [] s5.
  apply cbind_ext; [done|]. intros u s6. unfold cwrap, cbind, cget. simpl. by rewrite (HL s6).
Qed.

End faults.
