(* ===== verification/Main.v ===== *)
(** * [cmd/aquila/main.go]: the command line program

    [run] picks the command and the time it may take. [deadline d] are the
    surroundings of a command whose context ends after [d] nanoseconds, or never
    for 0. Listening and serving of [fault] are parameters; [RunWorker] (Remote.v), whose
    state is the store of jobs, is an argument. *)

From S2P Require Import Prelude GoStrings GoText Flags GoOS Diff Net Ingest Replay Impact Plan Validate Evidence Runs GitRev Snapshot Materialize Pair Workload Cli CliPrint Experiment Commands Fault.
Import gitrev cli experiments commands faults.

Module aquila.

Definition usage : string := "Aquila — control plane for changing distributed backends safely

Usage:
  aquila <command> [flags]

Commands:
  status      Control-plane health, ready, version
  observe     Runtime hops, source summary, span-to-source binds
  impact      Blast radius of local git changes (or a piped unified diff)
  env         Isolated baseline and patch shop trees from a diff (does not start)
  replay      Same workload against two gateways; match/differ/incomplete
  fault       Loopback reverse proxy that delays or injects a status
  plan        Minimum useful experiment DAG from impact (does not run it)
  experiment  Plan plus executed replay/latency; shop pair only on shop/control-plane -dir
  report      Markdown from a saved evidence JSON file (does not re-run)
  runs        List, show, or import persisted experiment evidence
  ask         Observed facts matching a question (not a patch, not validated)
  run         Investigate, plan, candidate, and experiment (no LLM)
  patch       Candidate shop rewrite from impact (optional -apply; not a pass)
  job         Enqueue a plan as a durable DAG for a worker (does not start compose)
  jobs        List, show, or cancel persisted jobs
  attaches    OTEL service.name values in the span store (not tenants)
  worker      gRPC worker: lease READY tasks and commit (loops; -once for one)
  version     Print the Aquila version
  help        Show this help

Flags:
  -api string     control-plane URL (default http://127.0.0.1:8080, or AQUILA_API_URL)
  -traces int     observe/impact/plan/experiment/replay trace window (default 20, max 200)
  -f path         impact/env/plan/experiment: diff file (default: git diff HEAD in -dir, else stdin)
  -shop path      env/experiment: shop module (default examples/shop)
  -out path       env: pair parent (default out/env); experiment: evidence JSON; report: optional markdown
  -pair path      experiment: pair parent when omitting -base/-patch (default out/env)
  -dir path       observe/impact/plan/experiment/replay: module (and git tree) under change (default .)
  -service name   observe/impact/ask/replay/experiment/job/jobs/runs: OTEL service.name
  -job id         worker: lease only READY tasks for this job
  -base url       replay/experiment: baseline gateway
  -patch url      replay/experiment: patch gateway
  -fixture        replay/experiment: shop smoke requests (not span-derived)
  -workload path  replay/experiment: operator JSON steps (bodies never from traces)
  -health path    experiment/job: GET route the env step probes (default /healthz)
  -smoke          experiment/job: latency n=1; cannot validate
  -apply          patch/run: write the candidate onto the module tree (not a pass)
  -plan-only      run: investigate, plan, and candidate only
  -n int          replay: repeats (default 1). experiment/run: latency repeats (0 = plan default 20)
  -target url     fault: upstream gateway
  -listen addr    fault: loopback listen (default 127.0.0.1:19080)
  -delay dur      fault: injected delay before proxy or status
  -status int     fault: if set, return this status and do not proxy

impact reads git diff HEAD in -dir when stdin is empty (local IDE changes).
Pipe a unified diff or pass -f to override. It does not apply the patch.
Standing in this repo falls back to POST /v1/impact so a shop snapshot still
maps shop diffs. A directory without go.mod is file-level impact (origin=files),
not the shop graph. Other Go modules are loaded from -dir. observe prints an
edit section for those dirty lines when they join a function or bound route.
ask with no question cites that same worktree. env copies the shop
and applies the diff only to patch. replay hits -base and -patch using
GET/HEAD/OPTIONS from server spans (no bodies). When -dir has a local edit
that joins a replayable route, those steps are preferred (provenance
changed_lines); otherwise the window is used. A window with more than one
service refuses span-derived replay unless -service is set. -workload is an operator JSON
file for POST and friends. -fixture is shop smoke including POST /checkout.
match is not a pass. p95 is withheld unless n>=20. No regression threshold.
fault listens on loopback only; an injected 502 is a probe, not a pass. plan
names env, behavior, latency, and (when runtime paths exist) concurrency plus
a one-sided 502 probe. experiment executes those steps and go test of impact
packages when -dir is a Go module. omitting -base and -patch prepares the shop
pair only when -dir is the shop or this control-plane repo. a foreign or python
checkout must pass both gateway URLs; it will not start shop compose. -fixture
is shop smoke and is rejected off the shop. -smoke sets latency n=1 and cannot
validate. experiment -out writes evidence JSON. validated is earned only when
required executable steps succeed on a clean recorded revision (env, behavior,
latency n>=20, concurrency when planned, tests when planned). match is not a
pass. experiment also POSTs that artifact to /v1/runs when the API is up; a
missing store is unrecorded, not a pass. report renders a file as Markdown
without hitting gateways. runs lists stored evidence, shows one id, or imports
-f. attaches lists service.name values in the store. ask joins question tokens
onto hops, binds, and impact and labels provenance. run is ask plus plan,
candidate, and experiment. patch emits the first matching shop rewrite (D1-D6)
and does not write the tree unless -apply. job records env READY first;
overlapping jobs on the same gateway host are refused. jobs cancel <id> stops
remaining READY tasks. a 10m deadline fails unfinished tasks. worker leases one
READY tasks over gRPC, runs them, and commits with an attempt id until
interrupted (-once leases one and exits). worker -job pins
the lease to that DAG. a stale attempt cannot commit. AQUILA_API_TOKEN, when
set, is sent as Authorization: Bearer. There is no LLM.
".

(** ** Deadlines *)

Definition second : Z := 1000000000.
Definition defaultCommandTimeout : Z := 15 * second.
Definition replayStepBudget : Z := 45 * second.
Definition maxReplayTimeout : Z := 480 * second.
Definition localEnvBudget : Z := 900 * second.
Definition maxLocalTimeout : Z := 1500 * second.

Definition hasFlag (args : list string) (name : string) : bool :=
  existsb (λ a, (a == name) || HasPrefix a (name +:+ "=")) args.

Definition wantsHelp (args : list string) : bool :=
  hasFlag args "-h" || hasFlag args "-help" || hasFlag args "--help".

(** The loop of [flagN]: a value that is not a number from 1 on is skipped. *)
Definition take_n (raw : string) (n : Z) : Z :=
  match Atoi raw with
  | Some v => if (v <? 1)%Z then n else v
  | None => n
  end.
Fixpoint scan_n (args : list string) (n : Z) : Z :=
  match args with
  | [] => n
  | a :: args =>
      match args with
      | raw :: args' =>
          if a == "-n" then scan_n args' (take_n raw n)
          else if HasPrefix a "-n=" then scan_n args (take_n (TrimPrefix a "-n=") n)
          else scan_n args n
      | [] => if HasPrefix a "-n=" then take_n (TrimPrefix a "-n=") n else n
      end
  end.
Definition flagN (args : list string) (def : Z) : Z :=
  let n := scan_n args def in if (100 <? n)%Z then 100 else n.

Definition capReplayTimeout (n : Z) : Z :=
  let d := (n * replayStepBudget)%Z in if (maxReplayTimeout <? d)%Z then maxReplayTimeout else d.

(** Commands that may start a pair get time for it. *)
Definition with_env_budget (args : list string) (d : Z) : Z :=
  if negb (hasFlag args "-base") && negb (hasFlag args "-patch") then
    let d := (d + localEnvBudget)%Z in if (maxLocalTimeout <? d)%Z then maxLocalTimeout else d
  else d.

Definition commandTimeout (args : list string) : Z :=
  match args with
  | [] => defaultCommandTimeout
  | c :: args =>
      if (c == "fault") || (c == "worker") then 0
      else if c == "job" then 60 * second
      else if c == "replay" then capReplayTimeout (flagN args 1)
      else if c == "experiment" then with_env_budget args (capReplayTimeout (flagN args 20))
      else if c == "run" then
        if hasFlag args "-plan-only" then defaultCommandTimeout
        else with_env_budget args (capReplayTimeout (flagN args 20))
      else defaultCommandTimeout
  end.

(** ** Dispatch *)

Section main.
  Context `{GitBatch} `{GoDocker} `{GoHTTP} `{GoNet} `{GoJSON} `{GoSHA} `{PairJSON} `{evidence.EvidenceJSON}
    `{CliJSON} `{WorkloadJSON} `{CommandJSON} (word : N → bool) (deadline : Z → Host)
    (Listen : Sys → string → result string string) (Serve : Sys → option string)
    (RunWorker : Host → list string → CM ()).

Definition printUsage : CM () := writef usage.

Definition dispatch (host : Host) (c : string) (args : list string) : CM () :=
  let stdin := h_stdin host in
  if bool_decide (c ∈ ["version"; "--version"; "-v"]) then writef (print.line ("aquila " +:+ h_version host))
  else if bool_decide (c ∈ ["help"; "--help"; "-h"]) then printUsage
  else if c == "status" then RunStatus host args
  else if c == "observe" then RunObserve host args
  else if c == "impact" then RunImpact host stdin args
  else if c == "env" then RunEnv host stdin args
  else if c == "replay" then RunReplay host args
  else if c == "fault" then RunFault Listen Serve args
  else if c == "plan" then RunPlan host stdin args
  else if c == "experiment" then RunExperiment host stdin args
  else if c == "report" then RunReport host args
  else if c == "runs" then RunRuns host args
  else if c == "ask" then RunAsk word host stdin args
  else if c == "run" then RunWorkflow word host stdin args
  else if c == "patch" then RunPatch host stdin args
  else if c == "job" then RunJob host stdin args
  else if c == "jobs" then RunJobs host args
  else if c == "attaches" then RunAttaches host args
  else if c == "worker" then RunWorker host args
  else cfail (Errorf ("unknown command " +:+ Quote c +:+ String nl (String nl usage))).

Definition run (args : list string) : CM () :=
  match args with
  | [] => printUsage
  | c :: rest => if wantsHelp rest then printUsage else dispatch (deadline (commandTimeout args)) c rest
  end.

(** Whether the process exits with status 0; an error goes to standard error. *)
Definition main (args : list string) : Sys → option (bool * Sys) := λ s,
  r ← run args s;
  match r with
  | (Ok _, s) => Some (true, s)
  | (Err e, s) => Some (false, add_err (print.line (err_text e)) s)
  end.

(** ** Nothing is left running *)

Section stops.
  Context `{!pairs.DockerLaws}.

(** Commands that only talk to servers, git and files. *)
Lemma quiet_stops {A} (m : CM A) : (∀ P, DockerOnly P → ckeeps P m) → ckeeps stops m.
Proof using Type. intros Hm. apply shrinks_stops, Hm, _. Qed.

Lemma dispatch_stops host c args :
  c ≠ "worker" → ckeeps stops (dispatch host c args).
Proof using Type.
  intros Hw. unfold dispatch. cbv zeta.
  repeat match goal with
         | |- ckeeps _ (if bool_decide ?p then _ else _) => case_bool_decide
         end; try done;
    first
      [ apply quiet_stops; intros P HP;
        solve [eauto using RunStatus_keeps, RunObserve_keeps, RunImpact_keeps, RunReplay_keeps, RunPlan_keeps,
                 RunReport_keeps, RunRuns_keeps, RunAsk_keeps, RunPatch_keeps, RunJob_keeps, RunJobs_keeps,
                 RunAttaches_keeps, RunFault_keeps, ckeeps_writef, ckeeps_fail]
      | apply shrinks_stops, (RunEnv_shrinks word)
      | apply RunExperiment_keeps
      | apply RunWorkflow_stops ].
Qed.

(** C35: whatever command is given and however it ends (help, a refused argument, a
    server that does not answer, a pair that does not come up, an execution that
    fails), no compose project runs afterwards that did not run before, unless the
    last line on standard output says that stopping the pair failed. [worker], which
    runs no compose, is left out. *)
Theorem aquila_stops args s ok s' :
  head args ≠ Some "worker" → main args s = Some (ok, s') →
  pairs.running (s_docker s') ⊆ pairs.running (s_docker s) ∨
  ∃ pre e, s_out s' = pre +:+ print.line ("env       down failed: " +:+ e).
Proof using Type.
  intros Hw. unfold main. intros ([res s1] & Hr & Hm)%bind_Some.
  assert (ckeeps stops (run args)) as Hs.
  { assert (ckeeps stops printUsage) as Hu by (apply quiet_stops; intros; by apply ckeeps_writef).
    destruct args as [|c rest]; [done|]. unfold run. simpl in Hw. destruct (wantsHelp rest); [done|].
    apply dispatch_stops; by intros ->. }
  apply Hs in Hr.
  destruct res; by injection Hm as _ <-.
Qed.
End stops.
End main.

(** ** Bounds of the deadlines *)

Lemma scan_n_pos args n : (1 ≤ n)%Z → (1 ≤ scan_n args n)%Z.
Proof.
  assert (∀ raw n, (1 ≤ n)%Z → (1 ≤ take_n raw n)%Z) as Ht.
  { intros raw m Hm. unfold take_n. destruct (Atoi raw) as [v|]; [|done]. by destruct (Z.ltb_spec v 1). }
  remember (length args) as k eqn:Hk. revert args n Hk. induction (lt_wf k) as [k _ IH].
  intros [|a [|raw args]] n Hk Hn; [done|simpl; case_match; auto|].
  change (1 ≤ (if a == "-n" then scan_n args (take_n raw n)
               else if HasPrefix a "-n=" then scan_n (raw :: args) (take_n (TrimPrefix a "-n=") n)
               else scan_n (raw :: args) n))%Z.
  simpl in Hk. case_match; [|case_match]; eapply IH; try reflexivity; simpl; auto; lia.
Qed.

Lemma flagN_range args def : (1 ≤ def)%Z → (1 ≤ flagN args def ≤ 100)%Z.
Proof.
  intros Hd. pose proof (scan_n_pos args def Hd). unfold flagN. destruct (Z.ltb_spec 100 (scan_n args def)); lia.
Qed.

Lemma capReplayTimeout_range n : (1 ≤ n)%Z → (0 < capReplayTimeout n ≤ maxReplayTimeout)%Z.
Proof.
  unfold capReplayTimeout, maxReplayTimeout, replayStepBudget, second. intros Hn. case_match eqn:E; lia.
Qed.

Lemma with_env_budget_range args d :
  (0 < d ≤ maxReplayTimeout)%Z → (0 < with_env_budget args d ≤ maxLocalTimeout)%Z.
Proof.
  unfold with_env_budget, maxLocalTimeout, maxReplayTimeout, localEnvBudget, second. intros Hd.
  repeat case_match; lia.
Qed.

(** Every command but [fault] and [worker] has a deadline, of at most 25 minutes. *)
Theorem commandTimeout_bounds args :
  (0 ≤ commandTimeout args ≤ maxLocalTimeout)%Z ∧
  (commandTimeout args = 0%Z ↔ head args = Some "fault" ∨ head args = Some "worker").
Proof.
  assert (∀ c, (0 < c ≤ maxLocalTimeout)%Z → (0 ≤ c ≤ maxLocalTimeout)%Z ∧ c ≠ 0%Z) as Hc by lia.
  pose proof (λ a, with_env_budget_range a _ (capReplayTimeout_range _ (proj1 (flagN_range a 20 ltac:(lia))))) as He.
  pose proof (λ a, capReplayTimeout_range _ (proj1 (flagN_range a 1 ltac:(lia)))) as Hr.
  destruct args as [|c args]; [by split; [|split; [|intros [?|?]]]|]. cbn [head commandTimeout].
  repeat case_bool_decide; subst; cbn [orb]; try (split; [done|naive_solver]).
  - split; [specialize (Hr args); unfold maxReplayTimeout, maxLocalTimeout in *; lia|].
    specialize (Hr args). split; [lia|naive_solver].
  - destruct (Hc _ (He args)). split; [done|naive_solver].
  - case_match; [split; [done|naive_solver]|]. destruct (Hc _ (He args)). split; [done|naive_solver].
Qed.

Definition ok_of {A} (r : result string A) : option A := match r with Ok a => Some a | Err _ => None end.

(** The deadline is computed from the arguments, not from the parsed flags: the
    repeats of [--n=8], which the flag set reads, do not count, and [-plan-only=false]
    counts as [-plan-only]. *)
Lemma deadline_misses_n :
  commandTimeout ["replay"; "-base"; "http://a"; "-patch"; "http://b"; "--n=8"] = replayStepBudget ∧
  (λ r, flag.get_int (fst r) "n") <$>
    ok_of (flag.Parse (list_to_map (replay_flags [])) ["-base"; "http://a"; "-patch"; "http://b"; "--n=8"]) =
    Some 8%Z.
Proof. split; vm_compute; reflexivity. Qed.
Lemma deadline_plan_only_false :
  commandTimeout ["run"; "-plan-only=false"] = defaultCommandTimeout ∧
  (λ r, flag.get_bool (fst r) "plan-only") <$>
    ok_of (flag.Parse (list_to_map (workflow_flags [])) ["-plan-only=false"]) = Some false.
Proof. split; vm_compute; reflexivity. Qed.

End aquila.
