(* ===== verification/GitExamples.v ===== *)
(** * A small git on which the theorems on revisions apply

    [toy_git] knows one tree with four files. Every name stands for that tree,
    commands change nothing, and settings are unset. *)

From S2P Require Import Prelude GoStrings GoText GoOS Net Ingest Replay Impact Plan Validate GitRev Snapshot Materialize Pair.
Import gitrev gitrun snapshots materialize pair pairs.

Definition toy_tree : string := "4b825dc642cb6eb9a060e54bf8d69288fbee4904".
Definition toy_commit : string := "c0ffee0000000000000000000000000000000000".
Definition toy_blob : string := "e69de29bb2d1d6434b8b29ae775ad8c2e48c5391".

Definition toy_entries : list treeEntry :=
  [MkEntry "100755" toy_blob "run.sh"; MkEntry "100644" toy_blob "lib/util.go";
   MkEntry "100644" toy_blob "go.mod"; MkEntry "100644" toy_blob "Dockerfile"].

Definition toy_run (args : list string) : string * option ExecErr :=
  match plain_args args with
  | c :: _ =>
      if (c == "rev-parse") || (c == "write-tree") then (toy_tree, None)
      else if c == "commit-tree" then (toy_commit, None)
      else if c == "ls-tree" then (tree_text toy_entries, None)
      else if c == "config" then ("", Some (MkExecErr "exit status 1" (Some 1%Z) ""))
      else ("", None)
  | [] => ("", None)
  end.

#[local] Instance toy_git : GoGit := {
  Repository := unit;
  git := λ c w, match C_Args c with
                | _ :: _ :: args => (toy_run args, w)
                | _ => ("", None, w)
                end;
}.

Definition toy_content : string := "package lib".
Definition toy_process : Batch :=
  MkBatch (λ line, Some (blob_text (TrimSuffix line (String nl "")) toy_content)) None.
#[local] Instance toy_batch : GitBatch := { batch := λ _ _, Ok toy_process }.

#[local] Instance toy_laws : GitLaws.
Proof.
  refine {| Kept := unit; kept := λ r, r; object := λ _ _, Some toy_tree |}; cbn [git toy_git C_Args].
  - intros env root args input w out err w' _ _ [= _ <-]. reflexivity.
  - intros env root args input w out err w' ds f _ _ [= _ <-]. by split.
  - intros env root name input w out w' Hg. vm_compute in Hg. injection Hg as <- _. vm_compute. reflexivity.
  - done.
  - intros env root input w out w' Hg. vm_compute in Hg. injection Hg as <- _. vm_compute. reflexivity.
  - done.
Defined.

Definition toy_world : World := (tt, ∅).
Definition toy_repo : Repo := MkRepo "/repo" ".".
Definition toy_head : Revision := MkRevision toy_commit toy_tree "." false SourceDeclared.

Lemma toy_creatable d : plain d → os.slashless d → osx.creatable ∅ [d].
Proof.
  intros Hp Hs. split; [by apply Forall_singleton|by apply Forall_singleton| | |done].
  - intros q Hq Hne. destruct q as [|x q]; [reflexivity|]. destruct Hq as [k Hk].
    injection Hk as -> Hk. symmetry in Hk. by apply app_eq_nil in Hk as [-> _].
  - intros q _. apply lookup_empty.
Defined.

Lemma tmp_plain : plain "snap" ∧ os.slashless "snap".
Proof. split; [done|]. by apply (bool_decide_unpack _). Defined.

Lemma snapshot_leaves_no_trace_witness :
  ∃ rev, snapshot [] 4096 "/snap" toy_repo toy_head "" true toy_world = (Ok rev, toy_world) ∧
    Rev_Commit rev = toy_commit ∧ kept toy_world.1 = kept toy_world.1.
Proof.
  eexists. assert (∀ rev w', snapshot [] 4096 "/snap" toy_repo toy_head "" true toy_world = (Ok rev, w') →
    kept w'.1 = kept toy_world.1 ∧ w'.2 = toy_world.2) as Hno.
  { intros rev w'. apply (snapshot_leaves_no_trace [] 4096 toy_repo toy_head "" true ["snap"]).
    destruct tmp_plain. by apply toy_creatable. }
  destruct (snapshot [] 4096 "/snap" toy_repo toy_head "" true toy_world) as [res [u t]] eqn:E.
  vm_compute in E. injection E as <- <- <-. destruct (Hno _ _ eq_refl) as [_ Ht].
  split; [reflexivity|]. by split.
Defined.

Lemma snapshot_revision_witness :
  ∃ rev w', snapshot [] 4096 "/snap" toy_repo toy_head "" true toy_world = (Ok rev, w') ∧
    object w'.1 (Rev_Commit rev +:+ "^{tree}") = Some (Rev_Tree rev) ∧ Rev_Dirty rev = false.
Proof.
  destruct (snapshot [] 4096 "/snap" toy_repo toy_head "" true toy_world) as [[rev|] w'] eqn:E;
    [|vm_compute in E; discriminate E].
  exists rev, w'. split; [reflexivity|].
  destruct (snapshot_revision [] 4096 ["snap"] toy_repo toy_head "" true toy_world rev w' E) as (Ho & _).
  split; [exact Ho|]. vm_compute in E. injection E as <- _. reflexivity.
Defined.

Lemma Materialize_confined_witness :
  ∃ w' ms', Materialize [] (λ _, Some "context canceled") toy_repo toy_tree "/snap" toy_world ∅ =
    (Err (errorf "gitrev: materialize: context canceled"), w', ms') ∧ w'.2 = ∅ ∧ ms' = ∅.
Proof.
  destruct (Materialize [] (λ _, Some "context canceled") toy_repo toy_tree "/snap" toy_world ∅)
    as [[res w'] ms'] eqn:E.
  assert (res = Err (errorf "gitrev: materialize: context canceled")) as ->
    by (vm_compute in E; by injection E as <- _ _).
  exists w', ms'. split; [reflexivity|]. destruct tmp_plain as [Hp Hs].
  destruct (Materialize_confined [] (λ _, Some "context canceled") toy_repo toy_tree ["snap"] toy_world ∅
    _ _ _ (toy_creatable "snap" Hp Hs) (λ q _, lookup_empty q) E) as [_ H]. exact H.
Defined.

Lemma toy_entries_all (P : treeEntry → bool) :
  forallb P toy_entries = true → ∀ e, e ∈ toy_entries → P e = true.
Proof. rewrite forallb_forall. intros H e He. by apply H, list_elem_of_In. Defined.

Lemma toy_regular : regular_tree toy_entries.
Proof.
  split.
  - intros e He. apply (toy_entries_all (λ e, bool_decide (mode e = "100644" ∨ mode e = "100755"))) in He.
    + by apply bool_decide_eq_true in He.
    + reflexivity.
  - by apply toy_entries_all.
  - by apply toy_entries_all.
  - intros i j e e' Hi Hj Hne.
    destruct i as [|[|[|[|i]]]]; try done; injection Hi as <-;
      destruct j as [|[|[|[|j]]]]; try done; injection Hj as <-; by apply (bool_decide_unpack _).
Defined.

Lemma Materialize_exact_witness :
  ∃ t ms', Materialize [] (λ _, None) toy_repo toy_tree "/snap" toy_world ∅ = (Ok tt, (tt, t), ms') ∧
    t !! ["snap"; "lib"; "util.go"] = Some (os.NFile toy_content) ∧ ms' !! ["snap"; "run.sh"] = Some 493%Z.
Proof.
  destruct tmp_plain as [Hp Hs].
  destruct (Materialize_exact [] (λ _, None) toy_repo toy_tree ["snap"] toy_entries (λ _, toy_content)
    toy_process toy_world ∅) as (t & ms' & Hm & Hf).
  - reflexivity.
  - by apply toy_creatable.
  - apply toy_regular.
  - vm_compute. discriminate.
  - reflexivity.
  - reflexivity.
  - reflexivity.
  - intros id _. cbn [B_answer toy_process]. by rewrite TrimSuffix_app.
  - reflexivity.
  - exists t, ms'. split; [exact Hm|]. split.
    + apply (fi_file _ _ _ _ _ Hf (MkEntry "100644" toy_blob "lib/util.go")). right. left.
    + apply (fi_file _ _ _ _ _ Hf (MkEntry "100755" toy_blob "run.sh")). left.
Defined.

(** ** Pairs *)

#[local] Instance toy_sha : GoSHA := {
  sha256_hex := λ _, "cafe00000000000000000000000000000000000000000000000000000000cafe";
  sha256_hex_ok := λ _, conj eq_refl eq_refl;
}.
#[local] Instance toy_json : PairJSON := {
  env_Marshal := λ env, Ok (Env_ID env);
  env_Unmarshal := λ _, None;
}.
#[local] Instance toy_docker : GoDocker := {
  Docker := unit;
  docker_found := true;
  docker := λ _ _ d, (None, d);
}.

Definition toy_d : @Docker toy_docker := tt.

Definition toy_opts (base patch : Z) : PrepareOpts :=
  MkPrepareOpts toy_repo toy_head toy_head "/" base patch false.
Definition toy_bundled (name : string) : option string := Some "services: {}".

Lemma toy_pair_root : osx.creatable toy_world.2 ([] ++ [pair_id (toy_opts 0 0)]).
Proof. apply toy_creatable; [done|]. by apply (bool_decide_unpack _). Defined.

(** An old pair stands in the place of the new one, which is to replace it. *)
Definition toy_place : list string := [] ++ [pair_id (toy_opts 0 0)].
Definition toy_replace : PrepareOpts := MkPrepareOpts toy_repo toy_head toy_head "/" 0 0 true.
Definition toy_old : os.tree := <[toy_place := os.NDir]> (<[toy_place ++ ["old"] := os.NFile "x"]> ∅).

Lemma toy_site : site toy_old ∅ toy_place.
Proof.
  assert (∀ q, q `prefix_of` toy_place → q ≠ toy_place → q = []) as Hq.
  { intros q Hp Hne. apply (snoc_prefix q []) in Hp as [Hp|Hp]; [by destruct Hne|by apply prefix_nil_inv in Hp]. }
  assert (toy_old !! toy_place = Some os.NDir) as Hd by apply lookup_insert_eq.
  split; [|by rewrite Hd| |by rewrite Hd].
  - intros q H1 H2 []. by apply Hq.
  - intros q q' H1 H2. destruct (decide (q = toy_place)) as [->|Hne]; [by rewrite Hd|]. destruct H2. by apply Hq.
Defined.


Lemma toy_serves : serves [] toy_repo tt toy_tree toy_entries (λ _, toy_content).
Proof.
  split; [reflexivity|apply toy_regular|vm_compute; discriminate|reflexivity|].
  intros t. exists toy_process. split; [reflexivity|]. split; [reflexivity|].
  intros id _. cbn [B_answer toy_process]. by rewrite TrimSuffix_app.
Defined.

Lemma toy_is_shop : is_shop toy_entries.
Proof.
  split.
  - exists (MkEntry "100644" toy_blob "go.mod"). split; [right; right; left|reflexivity].
  - exists (MkEntry "100644" toy_blob "Dockerfile"). split; [right; right; right; left|reflexivity].
Defined.

Lemma Prepare_pair_witness :
  ∃ env w' ms', Prepare [] None (λ _, None) None toy_bundled (toy_opts 0 0) toy_world ∅ toy_d =
    (Ok env, w', ms', toy_d) ∧ Env_ID env = "cafe00000000" ∧ checkEnv None env = Ok tt ∧
    w'.2 !! ["cafe00000000"; "patch"; "lib"; "util.go"] = Some (os.NFile toy_content).
Proof.
  destruct (Prepare_pair [] (λ _, None) None toy_bundled (toy_opts 0 0) [] toy_world ∅ toy_d toy_entries toy_entries
    (λ _, toy_content) "cafe00000000" eq_refl toy_pair_root (λ q _, lookup_empty q) eq_refl (λ _, eq_refl)
    toy_serves toy_is_shop toy_serves toy_is_shop) as (t & ms' & Hp & _ & Hf & Hc & _).
  - by eexists.
  - by eexists.
  - reflexivity.
  - do 3 eexists. split; [exact Hp|]. split; [reflexivity|]. split; [exact Hc|].
    apply (fi_file _ _ _ _ _ Hf (MkEntry "100644" toy_blob "lib/util.go")). right. left.
Defined.
