(* ===== verification/ExperimentExamples.v ===== *)
(** * A validated experiment

    A machine on which [aquila experiment] runs from its arguments to validated
    evidence: a repository with two trees, a docker that keeps the set of running
    projects, a control plane that serves spans, and gateways that answer. *)

From S2P Require Import Prelude GoStrings GoText Flags GoOS Diff DiffReport DiffExamples Net Ingest Source Graph Locate Replay Impact Analyze Plan Validate Evidence GitRev Snapshot Materialize Pair Workload Cli CliPrint Experiment Commands Main Examples ImpactExamples ApiExamples GitExamples.
Import gitrev gitrun snapshots materialize cli experiments.
#[local] Existing Instance sample_net.
#[local] Existing Instance sample_json.
#[local] Existing Instance sample_evidence_json.
#[local] Existing Instance toy_json.
#[local] Existing Instance toy_sha.

Definition demo_commit : string := "beef000000000000000000000000000000000000".
Definition demo_patch : string := "5eed000000000000000000000000000000000000".

Definition demo_run (args : list string) : string * option ExecErr :=
  match plain_args args with
  | c :: rest =>
      let name := default "" (last rest) in
      if c == "rev-parse" then
        (if name == "--show-toplevel" then "/w"
         else if HasPrefix name "HEAD" then toy_commit
         else if HasPrefix name toy_commit then toy_tree else demo_patch, None)
      else if c == "write-tree" then (demo_patch, None)
      else if c == "commit-tree" then (demo_commit, None)
      else if c == "ls-tree" then (tree_text toy_entries, None)
      else if c == "diff" then (sample_diff, None)
      else if c == "config" then ("", Some (MkExecErr "exit status 1" (Some 1%Z) ""))
      else ("", None)
  | [] => ("", None)
  end.
#[local] Instance demo_git : GoGit := {
  Repository := unit;
  git := λ c w, match C_Args c with
                | _ :: _ :: args => (demo_run args, w)
                | _ => ("", None, w)
                end;
}.
#[local] Instance demo_batch : GitBatch := { batch := λ _ _, Ok toy_process }.

(** Compose starts and stops projects. *)
#[local] Instance demo_docker : GoDocker := {
  Docker := gset string;
  docker_found := true;
  docker := λ _ args d,
    match args with
    | [_; _; _; _; p; _; _; cmd; _; _] => (None, if cmd == "up" then {[p]} ∪ d else d ∖ {[p]})
    | _ => (None, d)
    end;
}.
#[local] Instance demo_docker_laws : pairs.DockerLaws.
Proof.
  refine {| pairs.running := λ d, d |}.
  - intros dir file project compose d e d' [= <- <-]. set_solver.
  - intros dir file project compose d e d' [= <- <-].
    split_and!; [set_solver| |set_solver]. intros p Hp. destruct (decide (p = project)); set_solver.
Defined.

#[local] Instance demo_http : GoHTTP := {
  Servers := unit;
  http_Do := λ req v, (HAnswer 200 "{}", v);
}.
Definition demo_stored : storedRun :=
  MkStoredRun "" "r1" "match" [] true "" "" false "" (evidence.Build 0
    (evidence.MkInput (MkRevision "" "" "" false "") (MkRevision "" "" "" false "") 0 "" "" ""
      (replay.MkWorkload []) (impact.MkReport [] [] [] [] [] []) (plan.MkDAG [] [] "" [] "") (plan.MkEvidence "" [] []))).
#[local] Instance demo_json : CliJSON := {
  spans_of_json := λ _, Ok ImpactExamples.sample_spans;
  report_of_json := λ _, Err "not a report";
  run_of_json := λ _, Ok demo_stored;
  runs_of_json := λ _, Ok [demo_stored];
  version_of_json := λ _, Ok "dev";
}.
#[local] Instance demo_workload : WorkloadJSON.
Proof.
  refine {| doc_Unmarshal := λ _, Ok [workload.MkFileStep "GET" "/x" "" []]; string_Unmarshal := Ok;
            json_Compact := Ok |}.
  by intros s t [= ->].
Defined.

Definition demo_files : os.tree :=
  {[ ["w"] := os.NDir; ["w"; "internal"] := os.NDir; ["w"; "internal"; "payment"] := os.NDir;
     ["w"; "internal"; "payment"; "handler.go"] := os.NFile "package payment";
     ["w"; "w.json"] := os.NFile "{}" ]}.

Definition demo_host : Host :=
  MkHost ["w"] [] (MkStdin true (evidence.MkReader "" None)) (λ _ _, Some ImpactExamples.sample_graph)
    (λ _ _ _, None) toy_bundled 4096 "dev" (λ _, None) (λ _ _, None) (λ _, "/snap") (λ _, 1000000000%Z)
    (λ _ _, "1s") (λ _ _, true) (λ _ _, [pairs.MkRound None (Some 200%Z) None]) (λ _, sample_world 200).

Definition demo_sys : Sys := MkSys (tt, demo_files) ∅ ∅ tt "" "".
Definition demo_args : list string := ["-shop"; "."; "-workload"; "w.json"; "-out"; "out/ev.json"].

Definition demo_result := experiment demo_host (h_stdin demo_host) demo_args demo_sys.

(** The artifact and the state at the end, by running the command. *)
Definition demo_ok : bool :=
  match demo_result with
  | Some (Ok art, s) => evidence.A_Validated art && bool_decide (s_docker s = ∅)
  | _ => false
  end.
Lemma demo_runs : demo_ok = true.
Proof. vm_compute. reflexivity. Qed.

Lemma experiment_validated_witness :
  ∃ art s' snap, experiment demo_host (h_stdin demo_host) demo_args demo_sys = Some (Ok art, s') ∧
    evidence.A_Validated art = true ∧ evidence.A_PatchRev art = built (Sn_Patch snap) ∧
    Rev_Tree (Sn_Baseline snap) ≠ Rev_Tree (Sn_Patch snap).
Proof.
  pose proof demo_runs as Hd. unfold demo_ok, demo_result in Hd.
  destruct (experiment demo_host (h_stdin demo_host) demo_args demo_sys) as [[[art|e] s']|] eqn:E;
    [|discriminate Hd..].
  apply andb_true_iff in Hd as [Hv _].
  destruct (experiment_validated demo_host (h_stdin demo_host) demo_args demo_sys art s' E Hv)
    as (fs & rest & path & snap & env & world & load & _ & _ & Her).
  destruct (er_revisions _ _ _ _ _ _ _ _ _ _ _ Her) as (_ & Hp & Ht & _).
  exists art, s', snap. split; [reflexivity|]. split; [exact Hv|]. by split.
Defined.

(** The same on a machine where the gateways never become healthy: nothing is left
    running. *)
Definition sick_host : Host :=
  MkHost ["w"] [] (MkStdin true (evidence.MkReader "" None)) (λ _ _, Some ImpactExamples.sample_graph)
    (λ _ _ _, None) toy_bundled 4096 "dev" (λ _, None) (λ _ _, None) (λ _, "/snap") (λ _, 1000000000%Z)
    (λ _ _, "1s") (λ _ _, true)
    (λ _ _, [pairs.MkRound None (Some 503%Z) (Some "context deadline exceeded")]) (λ _, sample_world 200).

#[local] Instance demo_commands : CommandJSON := {
  graph_of_json := λ _, Err "no graph"; source_of_json := λ _, Err "no source"; locate_of_json := λ _, Err "no locate";
  attaches_of_json := λ _, Ok []; job_of_json := λ _, Err "no job"; jobs_of_json := λ _, Ok [];
  status_of_json := λ _, Ok ("ready", ""); opts_to_json := λ _, Err "no job"; job_indent := λ _, Ok "";
}.

(** The machine is sick while a deadline is set. *)
Definition sick_main (args : list string) : Sys → option (bool * Sys) :=
  aquila.main (λ _, true) (λ d, if (d =? 0)%Z then demo_host else sick_host) (λ _, Ok) (λ _, None)
    (λ _ _, cret tt) args.

Definition sick_error : string :=
  match sick_main ("experiment" :: demo_args) demo_sys with
  | Some (false, s) => s_err s
  | _ => ""
  end.
Definition not_healthy : string :=
  "cli: experiment: pair: gateway 127.0.0.1:18180 not healthy: context deadline exceeded".
Lemma sick_runs : sick_error = print.line not_healthy.
Proof. vm_compute. reflexivity. Qed.

Lemma aquila_stops_witness :
  ∃ s', sick_main ("experiment" :: demo_args) demo_sys = Some (false, s') ∧ s_err s' = print.line not_healthy ∧
    (pairs.running (s_docker s') ⊆ pairs.running (s_docker demo_sys) ∨
     ∃ pre why, s_out s' = pre +:+ print.line ("env       down failed: " +:+ why)).
Proof.
  pose proof sick_runs as Hd. unfold sick_error in Hd.
  destruct (sick_main ("experiment" :: demo_args) demo_sys) as [[[|] s']|] eqn:E; [discriminate Hd| |discriminate Hd].
  exists s'. split; [reflexivity|]. split; [exact Hd|].
  refine (aquila.aquila_stops (λ _, true) _ (λ _, Ok) (λ _, None) (λ _ _, cret tt) ("experiment" :: demo_args) demo_sys
    false s' _ E); discriminate.
Defined.
